(* ===== verification/_CoqProject ===== *)
-Q . S2P
Prelude.v
GoTime.v
Sha256.v
Float64.v
FloatArith.v
Json.v
Text.v
Url.v
Stamp.v
Http.v
HttpDate.v
Hmac.v
Base64.v
Mime.v
Domain.v
ProviderErrors.v
Operations.v
World.v
Drivers.v
Sql.v
StoreProviders.v
Placement.v
LocalDisk.v
LocalDiskFacts.v
Demo.v
StoreObjects.v
Pages.v
StoreEvents.v
Embeddings.v
EmbeddingsFacts.v
Access.v
SecretBox.v
SigV4.v
SigV4Facts.v
S3Compat.v
S3CompatFacts.v
PostPolicy.v
PostPolicyFacts.v
Providers.v
S3Request.v
Authority.v
Hooks.v
HooksFacts.v
Jobs.v
JobsFacts.v
Service.v
Runtime.v
RuntimeFacts.v
Plugins.v
PluginsFacts.v
Onboarding.v
Configuration.v
Bootstrap.v
Migration.v
Repair.v
Inventory.v
ServiceFacts.v
MigrationFacts.v
WorkersFacts.v
Multipart.v
MultipartFacts.v
Replication.v
ReplicationFacts.v
Protection.v
ProtectionFacts.v
PluginJobs.v
Gateway.v
GatewayFacts.v
Uppy.v
ListingFacts.v
Lifecycle.v
LifecycleFacts.v
AdminAuth.v
Admin.v
AdminFacts.v
WellFormed.v
PluginJobsFacts.v
HttpServer.v
HandlersWellFormed.v
Invariant.v
