(* ===== verification/Prelude.v ===== *)
(** BucketMux (github.com/gnurub/bucketmux): a verification library.

    BucketMux is an S3-compatible gateway that spreads objects over many
    provider accounts. A client speaks S3 to the gateway
    ([src/internal/gateway]); the gateway authenticates it and calls the
    application service ([src/internal/app]); the service chooses a provider
    account with the router ([src/internal/router]), keeps buckets, objects and
    a ledger of reserved and used bytes in a SQL store ([src/internal/store]) and
    moves bytes through provider adapters ([src/internal/provider]). Background
    workers replicate, migrate, repair, import, expire and deliver webhooks.
    The structs they share are those of [src/internal/domain].

    * How the program is modelled

    Go functions are Rocq functions with the source's names. What reads or
    changes the environment is a value of the state monad [M] of [World]: the
    tables of the database (finite maps from primary keys to rows), the history
    of remote calls, the local files, and counters for clock readings, random
    draws, statements and file operations. An instance of the class [Env] fixes
    what the environment answers: the n-th reading of the clock and the n-th
    draw, which statement or file operation fails and how, and the answers of
    every adapter, which may depend on all earlier calls. The theorems hold for
    every [Env], so for every behaviour of the remote services and every pattern
    of database faults; where a theorem needs less, its hypothesis says so. A Go
    error is [Err]; [let?] stops at the first error, [let!] goes on.

    Unbounded loops take [fuel]. The fuel is never part of a promise: the
    placement loop, the job loops, the listing client and the pattern matcher
    have theorems that a stated amount is enough and that more changes nothing
    ([placement_loop_ends]: one pass per account and one more;
    [workers_leave_none_waiting]: one pass per waiting job, and for the pages
    of a job as many as there are keys in the index; [listing_complete]: one
    page per object and one more). An inventory reads the pages of a provider,
    and ends when the provider's listing does ([listings_end]). The page loops
    of the lifecycle worker and of quota reconciliation have no such theorem,
    because they need not end: [lifecycle_never_ends] is such a run.

    * The files

    Foundations, Go's standard library as the program uses it:
    - [Prelude]: results and errors, notation, record update, ASCII strings,
      decimal numbers, tactics and hints; [GoTime], [HttpDate], [Stamp]: instants,
      durations, the calendar, RFC 3339, HTTP dates, AWS stamps;
    - [Sha256], [Hmac], [Base64]: executable crypto and encoding;
    - [Float64], [FloatArith]: [strconv.ParseFloat], the order and the rounded
      arithmetic of [float64];
    - [Text], [Json], [Url], [Http], [Mime]: strings, globs, paths, JSON output,
      query strings, URLs, requests and responses, media types.

    The data and the world:
    - [Domain]: [src/internal/domain]; [World]: database, environment, monad,
      frame rules ([pres], [frame]); [Sql]: selection, order, LIKE, aggregates;
      [Demo]: a concrete environment for witnesses.

    The store, [src/internal/store]:
    - [StoreProviders]: [quota.go] and the accounts of [store.go];
      [StoreObjects]: buckets, objects, attributes, versions, trash, replicas;
      [Pages]: pages of objects; [StoreEvents]: hooks, deliveries,
      notifications, alerts, audit events, leases; [Embeddings]: vectors and the
      exact search; the job tables are in [Jobs] and the files of their workers.

    The provider adapters, [src/internal/provider]:
    - [ProviderErrors] ([errors.go]); [Drivers]: the state monad [Op] of one
      operation, HTTP clients, health records ([health.go]) and the class
      [DriverHost] of clock, network and disk; [LocalDisk] ([local.go]) and
      [S3Compat] ([s3compat.go]), each ending in the [Adapter] that
      [NewLocalAdapter] and [NewS3CompatAdapter] make. The service is modelled
      for any adapters, the parameter [env_registry].

    Components of the service, each with its operations, and its theorems in
    the same file or in the file with [Facts] in its name:
    - [Placement] ([router/placement.go]), [Providers] ([app/provider_*.go],
      [alerts.go], [audit.go] and parts of [service.go] and [planner.go]),
      [Onboarding] (accounts, hooks and buckets as the service accepts them);
    - [Service] ([app/service.go]), [Hooks] ([app/hooks.go]), [Multipart]
      ([app/multipart.go]), [Replication] ([app/replication_queue.go]),
      [Protection] ([app/protection.go]), [Lifecycle] ([app/lifecycle.go]);
    - [Jobs] ([app/workers.go] and the life cycle the job tables share, as the
      class [JobTable] with its laws [JobLaws]), with its instances [Migration]
      ([app/migration.go]), [Repair] ([app/repair.go]), [Inventory]
      ([app/inventory.go]);
    - [Operations] and [Runtime] ([src/internal/wasmplugin]), [Plugins] and
      [PluginJobs] ([app/wasm_plugins.go], [app/embedding_import.go]): what a
      plugin may ask for, how it is run and how its result is applied;
    - [Configuration] ([src/internal/config]) and [Bootstrap] (the start of the
      service).

    The gateway, [src/internal/gateway]:
    - [Access] (credentials and permissions), [SecretBox]
      ([src/internal/crypto]: how their secrets are stored), [SigV4] ([auth.go],
      [presign.go]), [PostPolicy] (browser forms), [S3Request] (reading
      requests), [Authority] (what it takes to act for a credential, said without
      the code's own checks), [Gateway] (the handlers and [ServeHTTP]), [Uppy] ([uppy.go], the
      helper of a browser uploader).

    The administration API, [src/internal/admin]:
    - [AdminAuth] ([oidc.go] and the cookies), [Admin] (every handler, the
      routes and [admin_ServeHTTP]).

    The whole:
    - [HttpServer]: [src/internal/httpserver], which puts the gateway, the Uppy
      helper, the administration API and the probes behind one server, with
      [app/readiness.go] and [app/metrics.go];
    - [WellFormed]: the invariant of the database and that every operation
      keeps it; [HandlersWellFormed]: the same of every handler; [Invariant]:
      the transition system and its reachable states.

    * What the theorems show

    - The whole service: [service_invariant] takes the start, every request to
      the HTTP server and every worker as a step of a transition system and
      proves the database well-formed ([db_wf]) in every reachable state, the
      reserved bytes of an account being the sum of its live reservations.
    - Ledger and placement: a granted reservation is for an enabled, available
      account and within its limits; committing settles and releasing restores
      them, uploads and replications leak none; the router picks an account
      that can take the upload and to which none is preferred.
    - Objects: what an upload indexes, where a read comes from, multipart
      uploads against an abstract specification, retention and legal holds
      (whenever the protection of the object can be read), versions and trash,
      complete listings, ranges.
    - Adapters: a write to the local disk is all or nothing, what was written
      is read back whatever else happens, and nothing outside the directories
      of the accounts is touched; a request the S3 adapter signs is accepted by
      the gateway's own authentication, when its query holds no blank.
    - Authority, against declarative meanings of a signature, of a credential's
      role and patterns, and of an entitled request ([Authority], [Access]): a
      request without an entitled signature changes nothing, nor does an
      administrative one without a session or the password, nor any other that
      the server gets; stored secrets are not shown, and the secret a credential
      was issued with is the one its requests are checked against; presigned
      URLs round-trip and a signature binds what it signs; what is loaded is a
      valid configuration.
    - Plugins: a registered plugin is within the limits, work is queued once,
      an execution and the operations it asks for stay within the policy and
      the objects the plugin was given; the exact vector search returns the
      best rows, in order.
    - Workers: over every interleaving of their statements a webhook has one
      worker at a time and is posted a bounded number of times; a copy counts
      only when the provider vouched for it; a migration deletes last; a pass
      leaves no job waiting.
    - Theorems that describe defects (an object a purge destroys, a lock that
      fails open, a version that is not kept, a form that writes to another
      bucket than the one its policy was checked for, a timeout that wraps, an
      upload identifier that leaves its directory, a run that never ends, a
      listing that loses objects) are kept beside the others.

    * Limits

    The fault model: a failing statement or transaction changes no row; a
    failing file operation changes no file except where the code has already
    written. SQL arithmetic is exact on [Z]; Go's own integer arithmetic wraps
    where the code can reach the bound, and its floating point arithmetic is
    rounded after each operation. Columns that hold JSON of Go values
    are those values. [strings.EqualFold], [ToLower] and [ToUpper] act on ASCII
    letters, [%q] on printable ASCII; the time zone is UTC. An iteration over a
    Go map is in key order where the order cannot be seen, and otherwise an
    argument (but for form fields whose names differ in case only, which
    [form_fields] takes in key order). A reader is the bytes it yields and the error it ends with;
    closing it has no effect. A context is a function of the world that may be
    cancelled at any point. What libraries do is the interface of a class:
    [HttpHost] and [PolicyHost] (XML, forms, JSON policies), [AdminHost] (JSON
    and forms of the administration), [ConfigHost] (YAML, environment, URLs),
    [OidcHost] (the login library), [WasmHost] (the wazero engine),
    [DriverHost] (network, operating system, XML of other services), [UppyHost]
    (JSON of the uploader), [AEAD] (AES-GCM). The service sees encryption as the
    pair [env_encrypt], [env_decrypt]; [SecretBox] says when they are a box. The
    local disk has no
    links; an adapter's operations happen one after another.

    * Not modelled

    - The adapters of Azure, Cloudinary and Vercel and the Redis coordinator:
      clients of further remote services, here the parameters [env_registry]
      and [Coordinator].
    - The HTML templates; the deadlines of the readiness probe and of
      connections.
    - [vector_search.go], [turso_*.go]: native vector indexes inside database
      drivers, the default for searches in SQLite; the connection to the database, its dialects and its DDL.
    - [cmd]: process start and stop.
    - Temporary spool files are their contents, a failed removal of one is not
      seen; timers and wake-up channels only decide when a worker pass runs.
*)
From stdpp Require Export base tactics option list numbers gmap strings sorting.
From Stdlib Require Export ZArith Lia Ascii String.


(** ** Notation scopes *)

Declare Scope go_scope.
Delimit Scope go_scope with go.

#[global] Open Scope string_scope.
#[global] Open Scope list_scope.
#[global] Open Scope Z_scope.

(** ** Bytes, strings and the [strings] package

    A Go string is a sequence of bytes; [String.string] over [ascii] is that
    sequence. *)

Definition byte_of (a : ascii) : Z := Z.of_N (N_of_ascii a).

Definition bytes_of (s : string) : list Z := byte_of <$> list_ascii_of_string s.

(** [strings.HasPrefix] *)
Fixpoint has_prefix (s p : string) {struct p} : bool :=
  match p, s with
  | "", _ => true
  | String a p', String b s' => if ascii_dec a b then has_prefix s' p' else false
  | String _ _, "" => false
  end%string.

Definition string_rev (s : string) : string :=
  string_of_list_ascii (rev (list_ascii_of_string s)).

(** [strings.HasSuffix] *)
Definition has_suffix (s p : string) : bool := has_prefix (string_rev s) (string_rev p).

(** [strings.Contains] *)
Fixpoint contains (s sub : string) {struct s} : bool :=
  has_prefix s sub ||
  match s with
  | "" => false
  | String _ s' => contains s' sub
  end%string.

Fixpoint string_drop (n : nat) (s : string) : string :=
  match n, s with
  | O, _ => s
  | S n', String _ s' => string_drop n' s'
  | S _, ""%string => ""%string
  end.

Fixpoint string_take (n : nat) (s : string) : string :=
  match n, s with
  | S n', String a s' => String a (string_take n' s')
  | _, _ => ""%string
  end.

(** [strings.TrimPrefix], [strings.TrimSuffix] *)
Definition trim_prefix (s p : string) : string :=
  if has_prefix s p then string_drop (String.length p) s else s.

Definition trim_suffix (s p : string) : string :=
  if has_suffix s p then string_take (String.length s - String.length p) s else s.

(** [strings.Cut]: the text before and after the first separator. *)
Fixpoint string_cut (s sep : string) {struct s} : option (string * string) :=
  if has_prefix s sep then Some (""%string, string_drop (String.length sep) s)
  else match s with
       | ""%string => None
       | String a s' => prod_map (String a) id <$> string_cut s' sep
       end.

(** [strings.Split] on a one-byte separator. *)
Fixpoint string_split (c : ascii) (s : string) : list string :=
  match s with
  | ""%string => [""%string]
  | String a s' =>
      if ascii_dec a c then ""%string :: string_split c s'
      else match string_split c s' with
           | [] => [String a ""]
           | h :: t => String a h :: t
           end
  end.

(** [strings.Join] *)
Definition string_join (sep : string) (l : list string) : string := String.concat sep l.

(** [strings.TrimSpace] trims the runes of [unicode.IsSpace]: the six ASCII
    blanks and the UTF-8 encodings of U+0085, U+00A0, U+1680, U+2000..U+200A,
    U+2028, U+2029, U+202F, U+205F and U+3000. [space_rune] reads one such
    rune and returns how many bytes it takes. *)
Definition ascii_space (b : Z) : bool := (9 <=? b) && (b <=? 13) || (b =? 32).

Definition space2 (b0 b1 : Z) : bool := (b0 =? 0xC2) && ((b1 =? 0x85) || (b1 =? 0xA0)).

Definition space3 (b0 b1 b2 : Z) : bool :=
  (b0 =? 0xE1) && (b1 =? 0x9A) && (b2 =? 0x80)
  || (b0 =? 0xE2) && (b1 =? 0x80) && ((0x80 <=? b2) && (b2 <=? 0x8A) || (b2 =? 0xA8) || (b2 =? 0xA9) || (b2 =? 0xAF))
  || (b0 =? 0xE2) && (b1 =? 0x81) && (b2 =? 0x9F)
  || (b0 =? 0xE3) && (b1 =? 0x80) && (b2 =? 0x80).

Fixpoint trim_left_ascii (rev_mode : bool) (fuel : nat) (l : list ascii) : list ascii :=
  match fuel with
  | O => l
  | S fuel =>
      match l with
      | [] => []
      | a :: l1 =>
          if ascii_space (byte_of a) then trim_left_ascii rev_mode fuel l1
          else match l1 with
               | b :: l2 =>
                   if (if rev_mode then space2 (byte_of b) (byte_of a) else space2 (byte_of a) (byte_of b))
                   then trim_left_ascii rev_mode fuel l2
                   else match l2 with
                        | c :: l3 =>
                            if (if rev_mode then space3 (byte_of c) (byte_of b) (byte_of a)
                                else space3 (byte_of a) (byte_of b) (byte_of c))
                            then trim_left_ascii rev_mode fuel l3
                            else l
                        | [] => l
                        end
               | [] => l
               end
      end
  end.

Definition trim_space (s : string) : string :=
  let l := list_ascii_of_string s in
  let l := trim_left_ascii false (List.length l) l in
  let l := rev (trim_left_ascii true (List.length l) (rev l)) in
  string_of_list_ascii l.

(** [strings.Trim(s, "/")] and its one-sided variants, for a one-byte cutset. *)
Fixpoint trim_left_byte (c : ascii) (s : string) : string :=
  match s with
  | String a s' => if ascii_dec a c then trim_left_byte c s' else s
  | ""%string => ""%string
  end.

Definition trim_right_byte (c : ascii) (s : string) : string :=
  string_rev (trim_left_byte c (string_rev s)).

Definition trim_byte (c : ascii) (s : string) : string := trim_right_byte c (trim_left_byte c s).

(** ASCII case folding of one byte. *)
Definition lower_byte (a : ascii) : ascii :=
  let b := N_of_ascii a in
  if ((65 <=? b)%N && (b <=? 90)%N)%bool then ascii_of_N (b + 32) else a.

(** [strings.ToLower]: ASCII letters, and the two non-ASCII runes whose lower
    case is an ASCII letter (U+0130 and U+212A). Other non-ASCII letters lower
    to non-ASCII ones; their bytes are kept, which no comparison against an
    ASCII literal can see. *)
Fixpoint to_lower (s : string) : string :=
  match s with
  | ""%string => ""%string
  | String a ((String b s2) as s1) =>
      if (byte_of a =? 0xC4) && (byte_of b =? 0xB0) then String "i" (to_lower s2)
      else match s2 with
           | String c s3 =>
               if (byte_of a =? 0xE2) && (byte_of b =? 0x84) && (byte_of c =? 0xAA)
               then String "k" (to_lower s3)
               else String (lower_byte a) (to_lower s1)
           | ""%string => String (lower_byte a) (to_lower s1)
           end
  | String a s1 => String (lower_byte a) (to_lower s1)
  end.

(** [strings.EqualFold] on texts whose only non-ASCII letters are the two that
    fold with an ASCII one, U+017F with s and U+212A with k; other non-ASCII
    letters are compared byte by byte. *)
Fixpoint fold_text (s : string) : string :=
  match s with
  | ""%string => ""%string
  | String a ((String b s2) as s1) =>
      if (byte_of a =? 0xC5) && (byte_of b =? 0xBF) then String "s" (fold_text s2)
      else match s2 with
           | String c s3 =>
               if (byte_of a =? 0xE2) && (byte_of b =? 0x84) && (byte_of c =? 0xAA)
               then String "k" (fold_text s3)
               else String (lower_byte a) (fold_text s1)
           | ""%string => String (lower_byte a) (fold_text s1)
           end
  | String a s1 => String (lower_byte a) (fold_text s1)
  end.

Definition equal_fold (a b : string) : bool := (fold_text a =? fold_text b)%string.

(** ** Machine integers

    [int] and [int64] are 64-bit two's complement; Go's arithmetic wraps. *)

Definition int64_min : Z := - 2 ^ 63.
Definition int64_max : Z := 2 ^ 63 - 1.

Definition wrap64 (z : Z) : Z := (z + 2 ^ 63) `mod` 2 ^ 64 - 2 ^ 63.

Definition in_int64 (z : Z) : Prop := int64_min ≤ z ≤ int64_max.

Definition in_int64b (z : Z) : bool := (int64_min <=? z) && (z <=? int64_max).

Lemma wrap64_id z : in_int64 z → wrap64 z = z.
Proof. unfold in_int64, int64_min, int64_max, wrap64. intros Hz. rewrite Z.mod_small; lia. Qed.

Definition add64 (a b : Z) : Z := wrap64 (a + b).
Definition sub64 (a b : Z) : Z := wrap64 (a - b).
Definition mul64 (a b : Z) : Z := wrap64 (a * b).

(** [strconv.ParseInt(s, 10, 64)] and [strconv.Atoi]: an optional sign and
    one or more decimal digits, in range. *)
Definition digit_of (a : ascii) : option Z :=
  let b := byte_of a in
  if (48 <=? b) && (b <=? 57) then Some (b - 48) else None.

Fixpoint parse_digits (acc : Z) (s : string) : option Z :=
  match s with
  | ""%string => Some acc
  | String a s' =>
      match digit_of a with
      | Some d => parse_digits (acc * 10 + d) s'
      | None => None
      end
  end.

Definition parse_magnitude (s : string) : option Z :=
  match s with
  | ""%string => None
  | _ => parse_digits 0 s
  end.

Definition parse_int64 (s : string) : option Z :=
  let signed :=
    match s with
    | String "-" s' => Z.opp <$> parse_magnitude s'
    | String "+" s' => parse_magnitude s'
    | _ => parse_magnitude s
    end in
  match signed with
  | Some z => if in_int64b z then Some z else None
  | None => None
  end.

(** Decimal text of an integer ([strconv.Itoa], the [%d] verb). *)
Fixpoint digits_rev (fuel : nat) (z : Z) : list ascii :=
  match fuel with
  | O => []
  | S fuel =>
      ascii_of_N (48 + Z.to_N (z `mod` 10)) ::
      (if z <? 10 then [] else digits_rev fuel (z `div` 10))
  end.

Definition nat_text (z : Z) : string :=
  string_of_list_ascii (rev (digits_rev (S (Z.to_nat (Z.log2 z))) z)).

Definition itoa (z : Z) : string :=
  if z <? 0 then String "-" (nat_text (- z)) else nat_text z.

(** Fixed-width decimal, zero padded on the left (["%05d"], date fields). *)
Fixpoint pad_digits (width : nat) (z : Z) : list ascii :=
  match width with
  | O => []
  | S width => pad_digits width (z `div` 10) ++ [ascii_of_N (48 + Z.to_N (z `mod` 10))]
  end.

Definition padded (width : nat) (z : Z) : string := string_of_list_ascii (pad_digits width z).

(** Comparison of strings byte by byte: Go's [<] on strings, and the order of
    TEXT columns in the SQLite dialect (BINARY collation, which is memcmp). *)
Definition text_leb (a b : string) : bool := String.leb a b.
Definition text_ltb (a b : string) : bool := String.leb a b && negb (String.eqb a b).

(** ** Errors as values *)

Inductive failure_kind : Set :=
| FailureQuota | FailureThrottled | FailureCredentials | FailureUnavailable | FailurePermanent.

#[global] Instance failure_kind_eq_dec : EqDecision failure_kind.
Proof. solve_decision. Defined.

(** The package-level error values the code compares with [errors.Is]. *)
Inductive sentinel : Set :=
| ErrNotFound                   (* store.ErrNotFound *)
| ErrNoProviderAvailable        (* router.ErrNoProviderAvailable *)
| ErrUploadTooLarge             (* app.ErrUploadTooLarge *)
| ErrObjectLocked               (* app.ErrObjectLocked *)
| ErrObjectGenerationSuperseded (* store.ErrObjectGenerationSuperseded *)
| ErrEmbeddingSourceSuperseded  (* app.ErrEmbeddingSourceSuperseded *)
| ErrWASMSourceSuperseded       (* app.errWASMSourceSuperseded *)
| ErrProviderCapabilityUnsupported (* app.ErrProviderCapabilityUnsupported *)
| ErrBodyTooLarge               (* *http.MaxBytesError *)
| ErrContext                    (* ctx.Err(): cancelled or past its deadline *)
| ErrNotExist                   (* fs.ErrNotExist *)
| ErrNoSpace                    (* unix.ENOSPC, unix.EDQUOT *)
| ErrCrossDevice                (* unix.EXDEV *)
| ErrFuel.                      (* not a Go error: a loop of the model ran out of fuel *)

#[global] Instance sentinel_eq_dec : EqDecision sentinel.
Proof. solve_decision. Defined.

(** An error value: a sentinel, a plain text ([errors.New], [fmt.Errorf]
    without [%w]), a wrapped one (["msg: %w"] or ["%w: msg"] of [fmt.Errorf]), a
    [*provider.Error], or an [errors.Join]. *)
Inductive error : Type :=
| ErrSentinel (s : sentinel)
| ErrText (msg : string)
| ErrWrap (msg : string) (inner : error)
| ErrAnnotate (inner : error) (msg : string)
| ErrProvider (op : string) (kind : failure_kind) (status retry_after : Z) (inner : error)
| ErrJoin (first second : error).

Inductive result (A : Type) : Type :=
| Ok (a : A)
| Err (e : error).
Arguments Ok {_} _.
Arguments Err {_} _.

(** [errors.Is(err, target)] for a package-level target. *)
Fixpoint errors_is (e : error) (s : sentinel) : bool :=
  match e with
  | ErrSentinel s' => bool_decide (s' = s)
  | ErrText _ => false
  | ErrWrap _ inner | ErrAnnotate inner _ | ErrProvider _ _ _ _ inner => errors_is inner s
  | ErrJoin a b => errors_is a s || errors_is b s
  end.

Definition is_ok {A} (r : result A) : bool := match r with Ok _ => true | Err _ => false end.

Definition result_map {A B} (f : A → B) (r : result A) : result B :=
  match r with Ok a => Ok (f a) | Err e => Err e end.

Definition result_bind {A B} (r : result A) (k : A → result B) : result B :=
  match r with Ok a => k a | Err e => Err e end.

Notation "'try!' x := m 'in' k" := (result_bind m (λ x, k))
  (at level 10, x pattern, m at level 100, k at level 200) : go_scope.

(** [if c { return errors.New(msg) }] in front of the rest of a function. *)
Definition guard_err (c : bool) (msg : string) : result unit :=
  if c then Err (ErrText msg) else Ok tt.

Lemma result_bind_Ok {A B} (r : result A) (k : A → result B) b :
  result_bind r k = Ok b → ∃ a, r = Ok a ∧ k a = Ok b.
Proof. destruct r; [eauto|done]. Qed.

Lemma guard_err_Ok c msg u : guard_err c msg = Ok u → c = false.
Proof. by destruct c. Qed.

(** ** Record update

    [r <| field := v |>]: a record type declares its constructor applied to
    its own projections once ([Settable], written [settable! Mk < f1 ; .. ; fn >]),
    and the update of a field is found from it. *)

Class Settable (R : Type) := eta_of : R → R.

Class Setter {R T : Type} (proj : R → T) : Type := MkSetter { set : (T → T) → R → R }.
#[global] Arguments set {R T} proj {_} _ _ : simpl never.

Notation "'settable!' mk < f1 ; .. ; fn >" :=
  (λ x, .. (mk (f1 x)) .. (fn x)) (at level 0, mk at level 10, f1 at level 10, fn at level 10, only parsing) : go_scope.

Notation "r <| proj := v |>" := (set proj (λ _, v) r)
  (at level 1, left associativity, proj at level 9, v at level 99, format "r <| proj  :=  v |>") : go_scope.
Notation "r <| proj ::= f |>" := (set proj f r)
  (at level 1, left associativity, proj at level 9, f at level 99, format "r <| proj  ::=  f |>") : go_scope.

#[global] Open Scope go_scope.

Ltac build_setter R proj :=
  let e := constr:(_ : Settable R) in
  let e := eval hnf in e in
  let upd := constr:(λ (f : _ → _) (r : R),
    ltac:(let b := eval cbv beta in (e r) in
          let b := eval pattern (proj r) in b in
          match b with ?g _ => let t := eval cbv beta in (g (f (proj r))) in exact t end)) in
  exact (MkSetter _ _ proj upd).

#[global] Hint Extern 1 (Setter (R := ?R) ?proj) => build_setter R proj : typeclass_instances.

(** [rsimpl] computes the projections of updated records and nothing else. It
    rewrites with the two laws of an update, proved for a variable record, so
    that nested updates cost one step each. *)
Ltac rsimpl_law p R T q s E :=
  first [ constr_eq p q; assert (∀ (f : T → T) (r : R), p (@set R T q s f r) = f (p r)) as E by (intros; reflexivity)
        | assert (∀ (f : T → T) (r : R), p (@set R T q s f r) = p r) as E by (intros; reflexivity) ].

Ltac rsimpl :=
  repeat match goal with
  | |- context [?p (@set ?R ?T ?q ?s _ _)] =>
      is_const p; let E := fresh "E" in rsimpl_law p R T q s E; rewrite !E; clear E; cbv beta
  | H : context [?p (@set ?R ?T ?q ?s _ _)] |- _ =>
      is_const p; let E := fresh "E" in rsimpl_law p R T q s E; rewrite !E in H; clear E; cbv beta in H
  end.
