(* ===== verification/GoTime.v ===== *)
(** Go's [time.Time] and [time.Duration] as far as the program uses them:
    instants, durations, the calendar, and the RFC 3339 text that the store
    writes into TEXT columns and compares there. *)
From S2P Require Import Prelude.

(** An instant is its number of nanoseconds since 0001-01-01T00:00:00Z, so
    that [Time.IsZero] is [t = 0]. A duration is an int64 number of
    nanoseconds. *)
Definition Time : Set := Z.
Definition Duration : Set := Z.

Definition zero_time : Time := 0.

Definition is_zero (t : Time) : bool := t =? 0.
Definition after (t u : Time) : bool := u <? t.
Definition before (t u : Time) : bool := t <? u.
Definition add_time (t : Time) (d : Duration) : Time := t + d.

Definition second : Duration := 1000000000.
Definition minute : Duration := 60 * second.
Definition hour : Duration := 60 * minute.
Definition day : Duration := 24 * hour.

(** [time.Duration(n) * unit]: an int64 product, which wraps. *)
Definition duration_mul (n : Z) (unit : Duration) : Duration := mul64 n unit.

(** ** The proleptic Gregorian calendar *)

(** The day of the era of 400 years that starts on March 1st. *)
Record civil : Set := MkCivil { cv_year : Z; cv_month : Z; cv_day : Z }.

Definition civil_of_days (days : Z) : civil :=
  let z := days + 306 in
  let era := z `div` 146097 in
  let doe := z `mod` 146097 in
  let yoe := (doe - doe `div` 1460 + doe `div` 36524 - doe `div` 146096) `div` 365 in
  let doy := doe - (365 * yoe + yoe `div` 4 - yoe `div` 100) in
  let mp := (5 * doy + 2) `div` 153 in
  let m := if mp <? 10 then mp + 3 else mp - 9 in
  MkCivil (yoe + era * 400 + (if m <=? 2 then 1 else 0)) m (doy - (153 * mp + 2) `div` 5 + 1).

Definition time_days (t : Time) : Z := (t `div` second) `div` 86400.
Definition time_sod (t : Time) : Z := (t `div` second) `mod` 86400.
Definition time_nsec (t : Time) : Z := t `mod` second.

Definition year_text (y : Z) : string := if y <? 10000 then padded 4 y else itoa y.

(** [t.UTC().Format("2006-01")]: the month a quota period is named after. *)
Definition month_text (t : Time) : string :=
  let c := civil_of_days (time_days t) in
  year_text (cv_year c) +:+ "-" +:+ padded 2 (cv_month c).

(** The fraction of a second of [time.RFC3339Nano]: nine digits with the
    trailing zeros removed, nothing when it is zero. *)
Fixpoint drop_zeros (l : list ascii) : list ascii :=
  match l with
  | a :: l' => if ascii_dec a "0" then drop_zeros l' else l
  | [] => []
  end.

Definition fraction_text (nsec : Z) : string :=
  match drop_zeros (rev (pad_digits 9 nsec)) with
  | [] => ""
  | l => String "." (string_of_list_ascii (rev l))
  end.

(** [t.Format(time.RFC3339Nano)] of a UTC time. *)
Definition date_text (t : Time) : string :=
  let c := civil_of_days (time_days t) in
  year_text (cv_year c) +:+ "-" +:+ padded 2 (cv_month c) +:+ "-" +:+ padded 2 (cv_day c).

Definition seconds_text (t : Time) : string :=
  let sod := time_sod t in
  date_text t +:+ "T" +:+ padded 2 (sod `div` 3600) +:+ ":" +:+ padded 2 ((sod `div` 60) `mod` 60)
    +:+ ":" +:+ padded 2 (sod `mod` 60).

Definition time_text (t : Time) : string :=
  seconds_text t +:+ fraction_text (time_nsec t) +:+ "Z".

(** [store.formatOptionalTime]: the zero time is the empty string. *)
Definition formatOptionalTime (t : Time) : string := if is_zero t then "" else time_text t.

(** The comparisons of the store's WHERE clauses, [column <= ?] and
    [column < ?], on TEXT columns. *)
Definition sql_time_le (a b : Time) : bool := text_leb (time_text a) (time_text b).
Definition sql_time_lt (a b : Time) : bool := text_ltb (time_text a) (time_text b).

(** The same for columns written by [formatOptionalTime]. *)
Definition sql_opttime_le (a b : Time) : bool := text_leb (formatOptionalTime a) (time_text b).

Example time_text_epoch : time_text 62135596800000000000 = "1970-01-01T00:00:00Z".
Proof. reflexivity. Qed.

Example time_text_leap : time_text (62135596800000000000 + (951782399 * 1000000000 + 120000000)) = "2000-02-28T23:59:59.12Z".
Proof. reflexivity. Qed.
