(* ===== verification/Sha256.v ===== *)
(** crypto/sha256 and encoding/hex, which the program uses for checksums, for
    dedupe keys and to verify replicas: FIPS 180-4 over 32-bit words kept as
    [Z], executable on concrete strings. *)
From S2P Require Import Prelude.

Definition word (z : Z) : Z := z `mod` 2 ^ 32.

Definition rotr (n x : Z) : Z := word (Z.lor (Z.shiftr x n) (Z.shiftl x (32 - n))).

(** The constants of the standard, from their definition: the first 32 bits of
    the fractional parts of the cube and square roots of the first primes. *)
Definition is_prime (n : Z) : bool :=
  forallb (λ d, negb (n `mod` d =? 0)) (Z.of_nat <$> seq 2 (Z.to_nat n - 2)).

Definition small_primes : list Z := Eval vm_compute in List.filter is_prime (Z.of_nat <$> seq 2 310).

Fixpoint cube_root (bits : nat) (root x : Z) : Z :=
  match bits with
  | O => root
  | S bits =>
      let larger := root + 2 ^ Z.of_nat bits in
      cube_root bits (if larger * larger * larger <=? x then larger else root) x
  end.

Definition round_constants : list Z := Eval vm_compute in
  (λ p, word (cube_root 36 0 (p * 2 ^ 96))) <$> take 64 small_primes.

Definition initial_hash : list Z := Eval vm_compute in (λ p, word (Z.sqrt (p * 2 ^ 64))) <$> take 8 small_primes.

(** The [n] low bytes of [z], the most significant first. *)
Fixpoint be_bytes (n : nat) (z : Z) : list Z :=
  match n with
  | O => []
  | S n => be_bytes n (z `div` 256) ++ [z `mod` 256]
  end.

Definition sha_pad (m : list Z) : list Z :=
  let len := Z.of_nat (List.length m) in
  m ++ [0x80] ++ replicate (Z.to_nat ((55 - len) `mod` 64)) 0 ++ be_bytes 8 (8 * len).

Fixpoint be_words (l : list Z) : list Z :=
  match l with
  | a :: b :: c :: d :: l' => (a * 2 ^ 24 + b * 2 ^ 16 + c * 2 ^ 8 + d) :: be_words l'
  | _ => []
  end.

(** The message schedule, built with the newest word first. *)
Fixpoint schedule (n : nat) (rev_w : list Z) : list Z :=
  match n with
  | O => rev rev_w
  | S n =>
      let w k := nth (Nat.pred k) rev_w 0 in
      let s0 := Z.lxor (Z.lxor (rotr 7 (w 15%nat)) (rotr 18 (w 15%nat))) (Z.shiftr (w 15%nat) 3) in
      let s1 := Z.lxor (Z.lxor (rotr 17 (w 2%nat)) (rotr 19 (w 2%nat))) (Z.shiftr (w 2%nat) 10) in
      schedule n (word (w 16%nat + s0 + w 7%nat + s1) :: rev_w)
  end.

Definition sha_round (st : list Z) (kw : Z * Z) : list Z :=
  match st with
  | [a; b; c; d; e; f; g; h] =>
      let s1 := Z.lxor (Z.lxor (rotr 6 e) (rotr 11 e)) (rotr 25 e) in
      let ch := Z.lxor (Z.land e f) (Z.land (2 ^ 32 - 1 - e) g) in
      let t1 := h + s1 + ch + kw.1 + kw.2 in
      let s0 := Z.lxor (Z.lxor (rotr 2 a) (rotr 13 a)) (rotr 22 a) in
      let maj := Z.lxor (Z.lxor (Z.land a b) (Z.land a c)) (Z.land b c) in
      [word (t1 + s0 + maj); a; b; c; word (d + t1); e; f; g]
  | _ => st
  end.

Definition sha_block (st : list Z) (block : list Z) : list Z :=
  let w := schedule 48 (rev block) in
  zip_with (λ a b, word (a + b)) st (fold_left sha_round (combine round_constants w) st).

Fixpoint sha_blocks (fuel : nat) (st : list Z) (ws : list Z) : list Z :=
  match fuel with
  | O => st
  | S fuel =>
      match ws with
      | [] => st
      | _ => sha_blocks fuel (sha_block st (take 16 ws)) (drop 16 ws)
      end
  end.

Definition sha256_words (m : list Z) : list Z :=
  let ws := be_words (sha_pad m) in sha_blocks (List.length ws) initial_hash ws.

(** [hex.EncodeToString] *)
Definition hex_digit (d : Z) : ascii :=
  if d <? 10 then ascii_of_N (48 + Z.to_N d) else ascii_of_N (87 + Z.to_N d).

Definition hex_text (bytes : list Z) : string :=
  string_of_list_ascii (List.concat ((λ b, [hex_digit (b `div` 16); hex_digit (b `mod` 16)]) <$> bytes)).

(** [hex.EncodeToString(sha256(s))] *)
Definition sha256_hex (s : string) : string :=
  hex_text (List.concat (be_bytes 4 <$> sha256_words (bytes_of s))).

Example sha256_empty : sha256_hex "" = "e3b0c44298fc1c149afbf4c8996fb92427ae41e4649b934ca495991b7852b855".
Proof. vm_compute. reflexivity. Qed.

Example sha256_abc : sha256_hex "abc" = "ba7816bf8f01cfea414140de5dae2223b00361a396177a9cb410ff61f20015ad".
Proof. vm_compute. reflexivity. Qed.
