(* ===== verification/Float64.v ===== *)
(** [strconv.ParseFloat(s, 64)] and the comparisons of [float64], which the
    placement router uses for the cost of a provider. *)
From S2P Require Import Prelude.

(** A finite float64 is [units * 2^-1074], exactly; the two zeros compare
    equal and are one value here. *)
Inductive float64 : Set :=
| Finite (units : Z)
| Inf (negative : bool)
| NaN.

Definition float_lt (a b : float64) : bool :=
  match a, b with
  | NaN, _ | _, NaN => false
  | Finite x, Finite y => x <? y
  | Inf true, Inf true => false
  | Inf true, _ => true
  | _, Inf false => negb (match a with Inf false => true | _ => false end)
  | _, _ => false
  end.

(** [a != b]: NaN differs from everything, itself included. *)
Definition float_ne (a b : float64) : bool :=
  match a, b with
  | NaN, _ | _, NaN => true
  | Finite x, Finite y => negb (x =? y)
  | Inf s, Inf t => negb (Bool.eqb s t)
  | _, _ => true
  end.

Definition float_zero : float64 := Finite 0.

(** One in units, and the first number of units past the largest float64. *)
Definition unit_den : Z := 2 ^ 1074.
Definition max_units : Z := 2 ^ (1024 + 1074).

(** The float64 nearest to [num / den] (both positive), ties to even, in units
    of 2^-1074; [None] when it rounds past the largest finite one. *)
Definition round_units (num den : Z) : option Z :=
  let n := num * unit_den in
  let q := n `div` den in
  let shift := Z.max 0 (Z.log2 q - 52) in
  let d := den * 2 ^ shift in
  let m := n `div` d in
  let r := n `mod` d in
  let up := (d <? 2 * r) || ((2 * r =? d) && Z.odd m) in
  let units := (if up then m + 1 else m) * 2 ^ shift in
  if units <? max_units then Some units else None.

Definition hex_value (a : ascii) : option Z :=
  let b := byte_of (lower_byte a) in
  if (48 <=? b) && (b <=? 57) then Some (b - 48)
  else if (97 <=? b) && (b <=? 102) then Some (b - 87) else None.

(** The mantissa: its digits as one integer, how many digits it has and how
    many of them follow the dot, and the rest of the text. *)
Fixpoint read_mantissa (hex : bool) (s : string) (mant digits frac : Z) (dot : bool) : Z * Z * Z * string :=
  match s with
  | ""%string => (mant, digits, frac, s)
  | String c s' =>
      if ascii_dec c "_" then read_mantissa hex s' mant digits frac dot
      else if ascii_dec c "." then
        if dot then (mant, digits, frac, s) else read_mantissa hex s' mant digits frac true
      else match (if hex then hex_value c else digit_of c) with
           | Some d => read_mantissa hex s' (mant * (if hex then 16 else 10) + d) (digits + 1)
                         (if dot then frac + 1 else frac) dot
           | None => (mant, digits, frac, s)
           end
  end.

(** The digits of an exponent, saturating as Go's scanner does. *)
Fixpoint read_exponent (s : string) (e : Z) : Z * string :=
  match s with
  | String c s' =>
      if ascii_dec c "_" then read_exponent s' e
      else match digit_of c with
           | Some d => read_exponent s' (if e <? 10000 then e * 10 + d else e)
           | None => (e, s)
           end
  | ""%string => (e, s)
  end.

(** [strconv.underscoreOK]; [prev] is the class of the previous byte. *)
Fixpoint underscores_ok (hex : bool) (prev : ascii) (s : string) : bool :=
  match s with
  | ""%string => negb (Ascii.eqb prev "_")
  | String c s' =>
      if (match (if hex then hex_value c else digit_of c) with Some _ => true | None => false end)
      then underscores_ok hex "0" s'
      else if ascii_dec c "_" then if ascii_dec prev "0" then underscores_ok hex "_" s' else false
      else if ascii_dec prev "_" then false else underscores_ok hex "!" s'
  end.

Section parse.
Variable overflow : bool → option float64. (* of a number that is out of range *)

Definition with_sign (neg : bool) (u : option Z) : option float64 :=
  match u with
  | Some z => Some (Finite (if neg then - z else z))
  | None => overflow neg
  end.

(** The unsigned number; [None] is an error. *)
Definition parse_number (neg : bool) (s : string) : option float64 :=
  let hex := match s with
             | String "0" (String x (String _ _)) => Ascii.eqb (lower_byte x) "x"
             | _ => false
             end in
  let body := if hex then string_drop 2 s else s in
  let '(mant, digits, frac, rest) := read_mantissa hex body 0 0 0 false in
  let underscored := contains s "_" in
  if digits =? 0 then None
  else if underscored && negb (underscores_ok hex (if hex then "0" else "^")%char body) then None
  else
    let finish (e : Z) (tail : string) :=
      if negb (tail =? "")%string then None
      else if mant =? 0 then Some (Finite 0)
      else
        let e10 := if hex then 0 else e - frac in
        let e2 := if hex then e - 4 * frac else 0 in
        with_sign neg (round_units (mant * 10 ^ Z.max 0 e10 * 2 ^ Z.max 0 e2)
                                   (10 ^ Z.max 0 (- e10) * 2 ^ Z.max 0 (- e2))) in
    match rest with
    | String c rest' =>
        if Ascii.eqb (lower_byte c) (if hex then "p" else "e")%char then
          let '(sgn, ds) := match rest' with
                            | String "-" ds => (-1, ds)
                            | String "+" ds => (1, ds)
                            | _ => (1, rest')
                            end in
          match ds with
          | String d _ => match digit_of d with
                          | Some _ => let '(e, tail) := read_exponent ds 0 in finish (sgn * e) tail
                          | None => None
                          end
          | ""%string => None
          end
        else None
    | ""%string => if hex then None else finish 0 ""
    end.

Definition parse_float_by (s : string) : option float64 :=
  let special (neg : bool) (t : string) : option float64 :=
    let l := to_lower t in
    if (l =? "inf")%string || (l =? "infinity")%string then Some (Inf neg) else None in
  let unsigned (neg : bool) (t : string) : option float64 :=
    match special neg t with
    | Some f => Some f
    | None => parse_number neg t
    end in
  match s with
  | String "+" t => unsigned false t
  | String "-" t => unsigned true t
  | _ => if (to_lower s =? "nan")%string then Some NaN else unsigned false s
  end.
End parse.

(** [strconv.ParseFloat(s, 64)]; [None] is a non-nil error (bad syntax or out
    of range). *)
Definition parse_float : string → option float64 := parse_float_by (λ _, None).

(** The value that stands next to the error: an infinity for a number out of
    range, 0 for bad syntax. *)
Definition parse_float_value (s : string) : float64 := default float_zero (parse_float_by (λ neg, Some (Inf neg)) s).

Example parse_float_half : parse_float "0.5" = Some (Finite (2 ^ 1073)).
Proof. vm_compute. reflexivity. Qed.

Example parse_float_hex : parse_float "0x1p-1" = parse_float "5_0e-2".
Proof. vm_compute. reflexivity. Qed.

Example parse_float_nan : parse_float "NaN" = Some NaN.
Proof. reflexivity. Qed.

Example parse_float_range : parse_float "1e400" = None.
Proof. vm_compute. reflexivity. Qed.

Example parse_float_value_range : parse_float_value "-1e400" = Inf true ∧ parse_float_value "1x" = float_zero.
Proof. vm_compute. done. Qed.
