(* ===== verification/FloatArith.v ===== *)
(** Arithmetic of [float64]: every operation is the exact result rounded to the
    nearest float64, ties to even, and a [float32] widened. A division by zero
    takes the sign of the dividend: the sign of a zero is not kept. *)
From S2P Require Import Prelude Float64.

(** [num / den] in units of 2^-1074, rounded; [den] is positive. *)
Definition float_round (num den : Z) : float64 :=
  match round_units (Z.abs num) den with
  | Some u => Finite (if num <? 0 then - u else u)
  | None => Inf (num <? 0)
  end.

Definition float_of_int (z : Z) : float64 := float_round z 1.

Definition float_neg (a : float64) : float64 :=
  match a with Finite x => Finite (- x) | Inf s => Inf (negb s) | NaN => NaN end.

Definition float_add (a b : float64) : float64 :=
  match a, b with
  | Finite x, Finite y => float_round (x + y) unit_den
  | Inf s, Inf t => if Bool.eqb s t then Inf s else NaN
  | Inf s, Finite _ | Finite _, Inf s => Inf s
  | NaN, _ | _, NaN => NaN
  end.

Definition float_sub (a b : float64) : float64 := float_add a (float_neg b).

Definition float_mul (a b : float64) : float64 :=
  match a, b with
  | Finite x, Finite y => float_round (x * y) (unit_den * unit_den)
  | Inf s, Inf t => Inf (xorb s t)
  | Inf s, Finite x | Finite x, Inf s => if x =? 0 then NaN else Inf (xorb s (x <? 0))
  | NaN, _ | _, NaN => NaN
  end.

Definition float_div (a b : float64) : float64 :=
  match a, b with
  | Finite x, Finite y =>
      if y =? 0 then if x =? 0 then NaN else Inf (x <? 0) else float_round (x * Z.sgn y) (Z.abs y)
  | Inf s, Finite y => Inf (xorb s (y <? 0))
  | Finite _, Inf _ => Finite 0
  | _, _ => NaN
  end.

(** The square root of [n] units, in units: the root of [n * 2^1074], rounded. *)
Definition root_units (n : Z) : Z :=
  let s := Z.sqrt (n * unit_den) in
  let shift := Z.max 0 (Z.log2 s - 52) in
  let m := s `div` 2 ^ shift in
  let half := (2 * m + 1) * 2 ^ shift in
  let up := (half * half <? 4 * (n * unit_den)) || ((half * half =? 4 * (n * unit_den)) && Z.odd m) in
  (if up then m + 1 else m) * 2 ^ shift.

(** [math.Sqrt] *)
Definition float_sqrt (a : float64) : float64 :=
  match a with
  | Finite x => if x <? 0 then NaN else Finite (root_units x)
  | Inf false => Inf false
  | _ => NaN
  end.

(** [a == b] *)
Definition float_eq (a b : float64) : bool := negb (float_ne a b).

Definition is_nan (a : float64) : bool := match a with NaN => true | _ => false end.
Definition is_finite (a : float64) : bool := match a with Finite _ => true | _ => false end.

(** [float64(math.Float32frombits(b))] *)
Definition float_of_bits32 (b : Z) : float64 :=
  let negative := Z.testbit b 31 in
  let exponent := Z.land (Z.shiftr b 23) 255 in
  let fraction := Z.land b (2 ^ 23 - 1) in
  let signed u := if negative then - u else u in
  if exponent =? 255 then if fraction =? 0 then Inf negative else NaN
  else if exponent =? 0 then Finite (signed (fraction * 2 ^ (1074 - 149)))
  else Finite (signed ((2 ^ 23 + fraction) * 2 ^ (exponent - 1 + (1074 - 149)))).

Example float_of_bits32_one : float_of_bits32 0x3F800000 = Finite unit_den.
Proof. reflexivity. Qed.

(** ** Bounds

    Powers of two stay symbols in these proofs. *)

Definition pow2 (j : Z) : Z := 2 ^ j.

Lemma pow2_pos j : 0 <= j → 0 < pow2 j.
Proof. intros Hj. apply Z.pow_pos_nonneg; [reflexivity|done]. Qed.

Lemma pow2_add i j : 0 <= i → 0 <= j → pow2 (i + j) = pow2 i * pow2 j.
Proof. apply Z.pow_add_r. Qed.

Lemma pow2_le i j : i <= j → pow2 i <= pow2 j.
Proof. apply Z.pow_le_mono_r. reflexivity. Qed.

Lemma unit_den_pow : unit_den = pow2 1074.
Proof. reflexivity. Qed.

Lemma unit_den_pos : 0 < unit_den.
Proof. rewrite unit_den_pow. by apply pow2_pos. Qed.

Lemma small_units c j : 0 <= c < 2 ^ 53 → 0 <= j < 2000 → c * pow2 j < max_units.
Proof.
  intros Hc Hj. change max_units with (pow2 (1024 + 1074)).
  apply Z.lt_le_trans with (pow2 53 * pow2 j).
  - apply Z.mul_lt_mono_pos_r; [apply pow2_pos, Hj|]. apply Hc.
  - rewrite <- pow2_add by lia. apply pow2_le. lia.
Qed.

(** A rounded magnitude stays below a bound that a float64 represents. *)
Lemma round_units_le num den c j :
  0 <= num → 0 < den → 0 <= c < 2 ^ 53 → 0 <= j → num * unit_den <= c * pow2 j * den → c * pow2 j < max_units →
  ∃ u, round_units num den = Some u ∧ 0 <= u <= c * pow2 j.
Proof.
  intros Hn Hd Hc Hj Hle Hmax. unfold round_units. pose proof unit_den_pos as Hunit. pose proof (pow2_pos j Hj) as Hpj.
  set (n := num * unit_den) in *.
  assert (0 <= n) as Hn0 by (unfold n; lia).
  set (q := n `div` den). assert (0 <= q) as Hq0 by (apply Z.div_pos; lia).
  assert (q <= c * pow2 j) as Hq by (apply Z.div_le_upper_bound; lia).
  set (shift := Z.max 0 (Z.log2 q - 52)). assert (0 <= shift) as Hs0 by lia.
  assert (shift <= j) as Hsj.
  { destruct (decide (q = 0)) as [->|Hne]; [unfold shift; change (Z.log2 0) with 0; lia|].
    assert (q < 2 ^ (53 + j)) as Hlt.
    { apply Z.le_lt_trans with (1 := Hq). change (2 ^ (53 + j)) with (pow2 (53 + j)). rewrite pow2_add by lia.
      apply Z.mul_lt_mono_pos_r; [done|apply Hc]. }
    apply Z.log2_lt_pow2 in Hlt; lia. }
  change (2 ^ shift) with (pow2 shift). pose proof (pow2_pos shift Hs0) as Hp.
  set (d := den * pow2 shift). assert (0 < d) as Hd0 by nia.
  set (m := n `div` d). set (r := n `mod` d).
  assert (n = d * m + r) as Hdiv by (apply Z.div_mod; lia). assert (0 <= r < d) as Hr by (apply Z.mod_pos_bound; lia).
  assert (0 <= m) as Hm0 by (apply Z.div_pos; lia).
  assert (c * pow2 j = (c * pow2 (j - shift)) * pow2 shift) as Hgrid.
  { rewrite <- Z.mul_assoc, <- pow2_add by lia. f_equal. f_equal. lia. }
  set (g := c * pow2 (j - shift)) in *. rewrite Hgrid in *.
  assert (m <= g) as Hmg. { apply Z.div_le_upper_bound; [lia|]. unfold d. nia. }
  set (up := _ || _).
  assert (0 <= (if up then m + 1 else m) * pow2 shift <= g * pow2 shift) as Hu.
  { destruct up eqn:Hup; [|nia]. assert (m < g); [|nia].
    destruct (decide (m = g)) as [E|]; [|lia]. exfalso. assert (r = 0) as Hr0. { unfold d in *. rewrite E in Hdiv. nia. }
    unfold up in Hup. rewrite Hr0 in Hup. apply orb_true_iff in Hup as [Hup|Hup];
      [apply Z.ltb_lt in Hup | apply andb_true_iff in Hup as [Hup%Z.eqb_eq _]]; lia. }
  destruct (Z.ltb_spec ((if up then m + 1 else m) * pow2 shift) max_units) as [_|Hge]; [by eexists|lia].
Qed.

(** A magnitude of at least one unit does not round to zero. *)
Lemma round_units_pos num den u : 0 < den → den <= num * unit_den → round_units num den = Some u → 0 < u.
Proof.
  intros Hd Hle. unfold round_units. set (n := num * unit_den) in *. set (q := n `div` den).
  assert (0 < q) as Hq0 by (apply Z.div_str_pos; lia).
  set (shift := Z.max 0 (Z.log2 q - 52)). set (up := _ || _). intros Hu.
  assert (0 < 2 ^ shift) as Hp by (apply Z.pow_pos_nonneg; lia).
  assert (0 < n `div` (den * 2 ^ shift)) as Hm.
  { rewrite <- Z.div_div by lia. apply Z.div_str_pos. split; [done|].
    destruct (Z.log2_spec q Hq0) as [Hlog _]. etrans; [|apply Hlog]. pose proof (Z.log2_nonneg q). apply Z.pow_le_mono_r; unfold shift; lia. }
  destruct (_ <? max_units); [|done]. injection Hu as <-. destruct up; nia.
Qed.

(** [bounded c j a]: a finite number of magnitude at most [c * 2^j] units. *)
Definition bounded (c j : Z) (a : float64) : Prop := ∃ u, a = Finite u ∧ Z.abs u <= c * pow2 j.

Lemma bounded_round num den c j :
  0 < den → 0 <= c < 2 ^ 53 → 0 <= j < 2000 → Z.abs num * unit_den <= c * pow2 j * den → bounded c j (float_round num den).
Proof.
  intros Hd Hc Hj Hle. unfold float_round.
  destruct (round_units_le (Z.abs num) den c j) as (u & -> & Hu); try done; [lia|lia|by apply small_units|].
  eexists. split; [reflexivity|]. destruct (num <? 0); lia.
Qed.

Lemma bounded_weaken c d j a : c <= d → 0 <= j → bounded c j a → bounded d j a.
Proof. intros Hcd Hj (u & -> & Hu). exists u. split; [done|]. pose proof (pow2_pos j Hj). nia. Qed.

Lemma bounded_add c d j a b : 0 <= c → 0 <= d → c + d < 2 ^ 53 → 0 <= j < 2000 → bounded c j a → bounded d j b → bounded (c + d) j (float_add a b).
Proof. intros Hc Hd Hcd Hj (x & -> & Hx) (y & -> & Hy). pose proof unit_den_pos. apply bounded_round; try lia. nia. Qed.

Lemma bounded_neg c j a : bounded c j a → bounded c j (float_neg a).
Proof. intros (x & -> & Hx). exists (- x). split; [done|lia]. Qed.

Lemma bounded_sub c d j a b : 0 <= c → 0 <= d → c + d < 2 ^ 53 → 0 <= j < 2000 → bounded c j a → bounded d j b → bounded (c + d) j (float_sub a b).
Proof. intros. apply bounded_add; try done. by apply bounded_neg. Qed.

(** The exponents of products. *)
Lemma pow2_product i j k : 0 <= i → 0 <= j → 0 <= k → i + j <= k + 1074 → pow2 i * pow2 j <= pow2 k * unit_den.
Proof. intros. rewrite unit_den_pow, <- !pow2_add by lia. by apply pow2_le. Qed.

Lemma bounded_mul c d i j k a b : 0 <= c → 0 <= d → c * d < 2 ^ 53 → 0 <= i → 0 <= j → 0 <= k < 2000 → i + j <= k + 1074 →
  bounded c i a → bounded d j b → bounded (c * d) k (float_mul a b).
Proof.
  intros Hc Hd Hcd Hi Hj Hk Hij (x & -> & Hx) (y & -> & Hy).
  pose proof (pow2_pos i Hi) as Hpi. pose proof (pow2_pos j Hj) as Hpj. pose proof unit_den_pos as Hu.
  pose proof (pow2_product i j k Hi Hj ltac:(lia) Hij) as Hpow.
  apply bounded_round; [nia|nia|done|].
  rewrite Z.abs_mul. assert (Z.abs x * Z.abs y <= (c * d) * (pow2 i * pow2 j)) by nia.
  assert (c * d * (pow2 i * pow2 j) <= c * d * (pow2 k * unit_den)) by nia. nia.
Qed.

Lemma bounded_not_nan c j a : bounded c j a → is_nan a = false.
Proof. by intros (u & -> & _). Qed.

Lemma low_bits b n : 0 <= n → 0 <= Z.land b (Z.ones n) < 2 ^ n.
Proof. intros Hn. rewrite Z.land_ones by done. apply Z.mod_pos_bound. by apply Z.pow_pos_nonneg. Qed.

(** A finite float32 is below 2^128. *)
Lemma float_of_bits32_bounded b : is_finite (float_of_bits32 b) = true → bounded 1 1202 (float_of_bits32 b).
Proof.
  unfold float_of_bits32. pose proof (low_bits (Z.shiftr b 23) 8 ltac:(lia)) as He. pose proof (low_bits b 23 ltac:(lia)) as Hf.
  change (Z.ones 8) with 255 in He. change (Z.ones 23) with (2 ^ 23 - 1) in Hf.
  set (e := Z.land (Z.shiftr b 23) 255) in *. set (f := Z.land b (2 ^ 23 - 1)) in *.
  assert (∀ m k, 0 <= m < 2 ^ 24 → 0 <= k <= 1178 → 0 <= m * 2 ^ k <= 1 * pow2 1202) as Hmag.
  { clear. intros m k Hm Hk. change (2 ^ k) with (pow2 k). pose proof (pow2_pos k ltac:(lia)).
    assert (pow2 24 * pow2 k <= pow2 1202) as Hp by (rewrite <- pow2_add by lia; apply pow2_le; lia).
    split; [nia|]. etrans; [|rewrite Z.mul_1_l; exact Hp]. apply Z.mul_le_mono_nonneg_r; [lia|]. apply Z.lt_le_incl, Hm. }
  assert (∀ u, 0 <= u <= 1 * pow2 1202 → bounded 1 1202 (Finite (if Z.testbit b 31 then - u else u))) as Hsigned.
  { intros u Hu. eexists. split; [reflexivity|]. destruct (Z.testbit b 31); lia. }
  destruct (Z.eqb_spec e 255); [by destruct (f =? 0)|]. destruct (Z.eqb_spec e 0); intros _; apply Hsigned, Hmag; lia.
Qed.

(** *** Roots *)

Lemma root_units_pos n : 1 <= n → pow2 537 <= root_units n.
Proof.
  intros Hn. unfold root_units. pose proof unit_den_pos as Hu. set (N := n * unit_den).
  set (s := Z.sqrt N). assert (pow2 537 <= s) as Hs.
  { apply Z.sqrt_le_square; [unfold N; lia|by apply Z.lt_le_incl, pow2_pos|]. rewrite <- pow2_add by lia.
    change (pow2 (537 + 537)) with unit_den. unfold N. nia. }
  pose proof (pow2_pos 537 ltac:(lia)) as Hp537. destruct (Z.log2_spec s) as [Hlog _]; [lia|].
  assert (537 <= Z.log2 s) as Hl by (apply Z.log2_le_pow2; [lia|exact Hs]).
  rewrite Z.max_r by lia. set (shift := Z.log2 s - 52). assert (0 <= shift) as Hsh by (unfold shift; lia).
  change (2 ^ shift) with (pow2 shift). pose proof (pow2_pos shift Hsh) as Hp.
  assert (pow2 52 <= s `div` pow2 shift) as Hm.
  { apply Z.div_le_lower_bound; [done|]. rewrite <- pow2_add by lia. replace (shift + 52) with (Z.log2 s) by (unfold shift; lia). exact Hlog. }
  assert (pow2 537 <= pow2 52 * pow2 shift) as H537 by (rewrite <- pow2_add by lia; apply pow2_le; unfold shift; lia).
  set (up := _ || _). destruct up; nia.
Qed.

(** ** The order *)

(** Without NaN the order is total. *)
Lemma float_lt_irrefl a : float_lt a a = false.
Proof. destruct a as [|[]|]; simpl; [apply Z.ltb_irrefl|done..]. Qed.

Lemma float_lt_trans a b c : float_lt a b = true → float_lt b c = true → float_lt a c = true.
Proof. destruct a as [x|[]|], b as [y|[]|], c as [z|[]|]; simpl; try done; rewrite !Z.ltb_lt; lia. Qed.

Lemma float_total a b : is_nan a = false → is_nan b = false → float_lt a b = true ∨ a = b ∨ float_lt b a = true.
Proof.
  destruct a as [x|[]|], b as [y|[]|]; simpl; intros; try done; try (by left); try (by right; left); try (by right; right).
  rewrite !Z.ltb_lt. destruct (Z.lt_trichotomy x y) as [|[->|]]; [by left | by right; left | by right; right].
Qed.

Lemma float_eq_iff a b : is_nan a = false → (float_eq a b = true ↔ a = b).
Proof.
  unfold float_eq. destruct a as [x|[]|], b as [y|[]|]; simpl; intros; split; try done.
  - rewrite negb_involutive. by intros ->%Z.eqb_eq.
  - intros [= ->]. by rewrite Z.eqb_refl.
Qed.
