(* ===== verification/Json.v ===== *)
(** [encoding/json] and [net/url] as far as the program writes them into the
    database: rendering a document with Go's escaping, and [url.QueryEscape]. *)
From S2P Require Import Prelude Sha256.

#[local] Set Warnings "-register-all".

Inductive json : Type :=
| JNull
| JBool (b : bool)
| JInt (z : Z)
| JString (s : string)
| JArray (l : list json)
| JObject (fields : list (string * json)).

(** How many bytes the UTF-8 sequence at the head of the list takes, 0 when it
    is not valid (overlong forms, surrogates and values past U+10FFFF are not). *)
Definition utf8_len (l : list Z) : nat :=
  let cont b := (0x80 <=? b) && (b <=? 0xBF) in
  match l with
  | b0 :: l1 =>
      if b0 <? 0x80 then 1%nat
      else match l1 with
           | b1 :: l2 =>
               if (0xC2 <=? b0) && (b0 <=? 0xDF) && cont b1 then 2%nat
               else match l2 with
                    | b2 :: l3 =>
                        if (0xE0 <=? b0) && (b0 <=? 0xEF) && cont b1 && cont b2
                           && negb ((b0 =? 0xE0) && (b1 <? 0xA0)) && negb ((b0 =? 0xED) && (0x9F <? b1)) then 3%nat
                        else match l3 with
                             | b3 :: _ =>
                                 if (0xF0 <=? b0) && (b0 <=? 0xF4) && cont b1 && cont b2 && cont b3
                                    && negb ((b0 =? 0xF0) && (b1 <? 0x90)) && negb ((b0 =? 0xF4) && (0x8F <? b1)) then 4%nat
                                 else 0%nat
                             | [] => 0%nat
                             end
                    | [] => 0%nat
                    end
           | [] => 0%nat
           end
  | [] => 0%nat
  end.

Definition text_of_bytes (l : list Z) : string :=
  string_of_list_ascii ((λ b, ascii_of_N (Z.to_N b)) <$> l).

Definition backslash : string := String "092" "".

Definition escape_ascii (b : Z) : string :=
  if b =? 34 then backslash +:+ String "034" ""
  else if b =? 92 then backslash +:+ backslash
  else if b =? 8 then backslash +:+ "b"
  else if b =? 12 then backslash +:+ "f"
  else if b =? 10 then backslash +:+ "n"
  else if b =? 13 then backslash +:+ "r"
  else if b =? 9 then backslash +:+ "t"
  else if (b <? 32) || (b =? 60) || (b =? 62) || (b =? 38) then backslash +:+ "u00" +:+ hex_text [b]
  else text_of_bytes [b].

Fixpoint escape_bytes (fuel : nat) (l : list Z) : string :=
  match fuel with
  | O => ""
  | S fuel =>
      match l with
      | [] => ""
      | b :: l' =>
          match utf8_len l with
          | O => backslash +:+ "ufffd" +:+ escape_bytes fuel l'
          | 1%nat => escape_ascii b +:+ escape_bytes fuel l'
          | n =>
              (if bool_decide (take 3 l = [0xE2; 0x80; 0xA8]) then backslash +:+ "u2028"
               else if bool_decide (take 3 l = [0xE2; 0x80; 0xA9]) then backslash +:+ "u2029"
               else text_of_bytes (take n l)) +:+ escape_bytes fuel (drop n l)
          end
      end
  end.

Definition quote : string := String "034" "".

Definition json_string (s : string) : string :=
  let l := bytes_of s in quote +:+ escape_bytes (List.length l) l +:+ quote.

(** [json.Marshal]; the fields of an object come in the order of the list (the
    order of a struct, or the sorted keys of a map). *)
Fixpoint json_text (j : json) : string :=
  match j with
  | JNull => "null"
  | JBool b => if b then "true" else "false"
  | JInt z => itoa z
  | JString s => json_string s
  | JArray l => "[" +:+ string_join "," (json_text <$> l) +:+ "]"
  | JObject fields => "{" +:+ string_join "," ((λ f, json_string f.1 +:+ ":" +:+ json_text f.2) <$> fields) +:+ "}"
  end.

(** [url.QueryEscape] *)
Definition upper_byte (a : ascii) : ascii :=
  let b := N_of_ascii a in
  if ((97 <=? b)%N && (b <=? 122)%N)%bool then ascii_of_N (b - 32) else a.

Definition upper_ascii (s : string) : string := string_of_list_ascii (upper_byte <$> list_ascii_of_string s).

Definition query_escape_byte (a : ascii) : string :=
  let b := byte_of a in
  if (48 <=? b) && (b <=? 57) || (65 <=? b) && (b <=? 90) || (97 <=? b) && (b <=? 122)
     || (b =? 45) || (b =? 95) || (b =? 46) || (b =? 126) then String a ""
  else if b =? 32 then "+"
  else "%" +:+ upper_ascii (hex_text [b]).

Definition query_escape (s : string) : string := String.concat "" (query_escape_byte <$> list_ascii_of_string s).

Example json_text_example :
  json_text (JObject [("a", JArray [JInt (-3); JBool true]); ("b", JString ("x<" +:+ String "255" "y"))])
    = "{" +:+ quote +:+ "a" +:+ quote +:+ ":[-3,true]," +:+ quote +:+ "b" +:+ quote +:+ ":" +:+ quote
        +:+ "x" +:+ backslash +:+ "u003c" +:+ backslash +:+ "ufffd" +:+ "y" +:+ quote +:+ "}".
Proof. vm_compute. reflexivity. Qed.

Example query_escape_example : query_escape "a b/c~" = "a+b%2Fc~".
Proof. vm_compute. reflexivity. Qed.
