(* ===== verification/Text.v ===== *)
(** More of Go's standard library on text, with the laws the rest uses:
    [strings.Fields], [strings.ReplaceAll], sorted string slices,
    [path.Match] and [path.Clean]. *)
From S2P Require Import Prelude Sha256 Json.

(** ** Bytes *)

Lemma byte_of_range a : 0 ≤ byte_of a < 256.
Proof. unfold byte_of. pose proof (N_ascii_bounded a). lia. Qed.

Lemma byte_of_inj a b : byte_of a = byte_of b → a = b.
Proof.
  unfold byte_of. intros H. apply N2Z.inj in H. rewrite <- (ascii_N_embedding a), <- (ascii_N_embedding b). by f_equal.
Qed.

Lemma bytes_of_inj s t : bytes_of s = bytes_of t → s = t.
Proof.
  unfold bytes_of. revert t. induction s as [|a s IH]; intros [|b t]; simpl; try done.
  intros [= Hab Hst]. apply byte_of_inj in Hab as ->. f_equal. by apply IH.
Qed.

Lemma append_cons a s t : String a s +:+ t = String a (s +:+ t).
Proof. reflexivity. Qed.

Lemma append_nil_l s : "" +:+ s = s.
Proof. reflexivity. Qed.

Lemma list_ascii_app s t : list_ascii_of_string (s +:+ t) = list_ascii_of_string s ++ list_ascii_of_string t.
Proof. induction s as [|a s IH]; [done|]. rewrite append_cons. simpl. by rewrite IH. Qed.

Lemma bytes_of_app s t : bytes_of (s +:+ t) = bytes_of s ++ bytes_of t.
Proof. unfold bytes_of. by rewrite list_ascii_app, fmap_app. Qed.

Lemma string_of_list_app l m : string_of_list_ascii (l ++ m) = string_of_list_ascii l +:+ string_of_list_ascii m.
Proof. induction l as [|a l IH]; [done|]. simpl. by rewrite append_cons, IH. Qed.

Lemma append_nil_r s : s +:+ "" = s.
Proof. induction s as [|a s IH]; [done|]. by rewrite append_cons, IH. Qed.

Lemma append_assoc s t u : s +:+ (t +:+ u) = (s +:+ t) +:+ u.
Proof. induction s as [|a s IH]; [done|]. by rewrite !append_cons, IH. Qed.

(** [if v == "" { v = d }] *)
Definition default_text (d v : string) : string := if (v =? "")%string then d else v.

(** [s] holds none of the bytes that [P] selects. *)
Definition free_of (P : ascii → bool) (s : string) : bool :=
  forallb (λ a, negb (P a)) (list_ascii_of_string s).

Definition no_byte (c : ascii) : string → bool := free_of (Ascii.eqb c).

Lemma free_of_app P s t : free_of P (s +:+ t) = free_of P s && free_of P t.
Proof. unfold free_of. rewrite list_ascii_app. apply forallb_app. Qed.

Lemma no_byte_cons c a s : no_byte c (String a s) = negb (Ascii.eqb c a) && no_byte c s.
Proof. done. Qed.

Lemma no_byte_app c s t : no_byte c (s +:+ t) = no_byte c s && no_byte c t.
Proof. apply free_of_app. Qed.

(** The text before the first [c] and the text after it are determined. *)
Lemma cut_unique c s t u v :
  no_byte c s = true → no_byte c u = true → s +:+ String c t = u +:+ String c v → s = u ∧ t = v.
Proof.
  revert u. induction s as [|a s IH]; intros [|b u] Hs Hu; rewrite ?append_cons, ?append_nil_l.
  - by intros [= ->].
  - intros [= -> _]. rewrite no_byte_cons, Ascii.eqb_refl in Hu. done.
  - intros [= <- _]. rewrite no_byte_cons, Ascii.eqb_refl in Hs. done.
  - rewrite no_byte_cons in Hs, Hu. apply andb_true_iff in Hs as [_ Hs]. apply andb_true_iff in Hu as [_ Hu].
    intros [= -> H]. destruct (IH u Hs Hu H) as [-> ->]. done.
Qed.

(** The same from the end. *)
Lemma cut_unique_last c s t u v :
  no_byte c t = true → no_byte c v = true → s +:+ String c t = u +:+ String c v → s = u ∧ t = v.
Proof.
  revert u. induction s as [|a s IH]; intros [|b u] Ht Hv; rewrite ?append_cons, ?append_nil_l.
  - by intros [= ->].
  - intros [= -> ->]. rewrite no_byte_app, no_byte_cons, Ascii.eqb_refl in Ht.
    rewrite andb_false_r in Ht. done.
  - intros [= <- <-]. rewrite no_byte_app, no_byte_cons, Ascii.eqb_refl in Hv.
    rewrite andb_false_r in Hv. done.
  - intros [= -> H]. destruct (IH u Ht Hv H) as [-> ->]. done.
Qed.

Lemma string_length_app s t : String.length (s +:+ t) = (String.length s + String.length t)%nat.
Proof. induction s as [|a s IH]; [done|]. rewrite append_cons. cbn. by rewrite IH. Qed.

Lemma append_inj_length s t u v : String.length s = String.length u → s +:+ t = u +:+ v → s = u ∧ t = v.
Proof.
  revert u. induction s as [|a s IH]; intros [|b u]; rewrite ?append_cons, ?append_nil_l; try done.
  intros [= Hl] [= -> H]. destruct (IH u Hl H) as [-> ->]. done.
Qed.

(** ** [strings.Split] and [strings.Join] *)

Lemma string_join_cons sep x y l : string_join sep (x :: y :: l) = x +:+ sep +:+ string_join sep (y :: l).
Proof. done. Qed.

Lemma string_split_ne c s : string_split c s ≠ [].
Proof. destruct s as [|a s]; cbn; [done|]. destruct (ascii_dec a c); [done|]. by destruct (string_split c s). Qed.

Lemma string_split_free c s : no_byte c s = true → string_split c s = [s].
Proof.
  induction s as [|a s IH]; [done|]. rewrite no_byte_cons. intros H. apply andb_true_iff in H as [Ha Hs].
  cbn. destruct (ascii_dec a c) as [->|_]; [by rewrite Ascii.eqb_refl in Ha|]. by rewrite IH.
Qed.

Lemma string_split_app c s t : no_byte c s = true → string_split c (s +:+ String c t) = s :: string_split c t.
Proof.
  induction s as [|a s IH]; rewrite ?append_cons, ?append_nil_l.
  - intros _. cbn. by destruct (ascii_dec c c).
  - rewrite no_byte_cons. intros H. apply andb_true_iff in H as [Ha Hs]. cbn.
    destruct (ascii_dec a c) as [->|_]; [by rewrite Ascii.eqb_refl in Ha|]. by rewrite IH.
Qed.

Lemma string_split_join c l :
  l ≠ [] → Forall (λ s, no_byte c s = true) l → string_split c (string_join (String c "") l) = l.
Proof.
  intros Hne H. induction H as [|x l Hx Hl IH]; [done|]. destruct l as [|y l].
  - by apply string_split_free.
  - rewrite string_join_cons, append_cons, append_nil_l, string_split_app by done. f_equal. by apply IH.
Qed.

Lemma string_join_split c s : string_join (String c "") (string_split c s) = s.
Proof.
  induction s as [|a s IH]; [done|]. cbn [string_split]. pose proof (string_split_ne c s) as Hne.
  destruct (ascii_dec a c) as [->|_]; destruct (string_split c s) as [|h t]; try done.
  - by rewrite string_join_cons, append_nil_l, append_cons, append_nil_l, IH.
  - rewrite <- IH. destruct t as [|k t]; [done|]. by rewrite !string_join_cons, append_cons.
Qed.

Lemma string_split_no_byte c s : Forall (λ x, no_byte c x = true) (string_split c s).
Proof.
  induction s as [|a s IH]; [by repeat constructor|]. cbn. destruct (ascii_dec a c) as [|Hne].
  - by constructor.
  - destruct (string_split c s) as [|h t].
    + constructor; [|done]. rewrite no_byte_cons. destruct (Ascii.eqb_spec c a); [by subst|done].
    + inversion_clear IH. constructor; [|done]. rewrite no_byte_cons.
      destruct (Ascii.eqb_spec c a); [by subst|]. by rewrite andb_true_l.
Qed.

(** ** [strings.Fields]: the maximal runs of text without white space *)

(** How many bytes the white space rune at the head takes, 0 when there is
    none. *)
Definition space_width (l : list ascii) : nat :=
  match l with
  | a :: l1 =>
      if ascii_space (byte_of a) then 1%nat
      else match l1 with
           | b :: l2 =>
               if space2 (byte_of a) (byte_of b) then 2%nat
               else match l2 with
                    | c :: _ => if space3 (byte_of a) (byte_of b) (byte_of c) then 3%nat else 0%nat
                    | [] => 0%nat
                    end
           | [] => 0%nat
           end
  | [] => 0%nat
  end.

Definition flush_field (rev_field : list ascii) (rest : list string) : list string :=
  match rev_field with [] => rest | _ => string_of_list_ascii (rev rev_field) :: rest end.

Fixpoint fields_of (fuel : nat) (rev_field l : list ascii) : list string :=
  match fuel with
  | O => flush_field rev_field []
  | S fuel =>
      match l with
      | [] => flush_field rev_field []
      | a :: l' =>
          match space_width l with
          | O => fields_of fuel (a :: rev_field) l'
          | w => flush_field rev_field (fields_of fuel [] (drop w l))
          end
      end
  end.

Definition fields (s : string) : list string :=
  let l := list_ascii_of_string s in fields_of (List.length l) [] l.

Example fields_ex : fields "  a b   c " = ["a"; "b"; "c"].
Proof. reflexivity. Qed.

Definition ascii_blank (a : ascii) : bool := ascii_space (byte_of a).

Lemma fields_of_free fuel acc l :
  forallb (λ a, negb (ascii_blank a)) acc = true →
  Forall (λ f, free_of ascii_blank f = true) (fields_of fuel acc l).
Proof.
  assert (∀ acc rest, forallb (λ a, negb (ascii_blank a)) acc = true →
            Forall (λ f, free_of ascii_blank f = true) rest →
            Forall (λ f, free_of ascii_blank f = true) (flush_field acc rest)) as Hflush.
  { intros [|a acc'] rest Hacc Hrest; [done|]. constructor; [|done].
    unfold free_of. rewrite list_ascii_of_string_of_list_ascii.
    apply forallb_forall. intros x Hx. rewrite forallb_forall in Hacc. apply Hacc. by apply in_rev. }
  revert acc l. induction fuel as [|fuel IH]; intros acc l Hacc; [by apply Hflush|]. cbn [fields_of].
  destruct l as [|a l]; [by apply Hflush|]. destruct (space_width (a :: l)) as [|w] eqn:Hw.
  - apply IH. cbn [forallb]. rewrite Hacc, andb_true_r. unfold ascii_blank, space_width in *.
    by destruct (ascii_space (byte_of a)).
  - apply Hflush; [done|]. by apply IH.
Qed.

Lemma fields_free s : Forall (λ f, free_of ascii_blank f = true) (fields s).
Proof. by apply fields_of_free. Qed.

Lemma free_of_no_byte (P : ascii → bool) c s : P c = true → free_of P s = true → no_byte c s = true.
Proof.
  unfold no_byte, free_of. rewrite !forallb_forall. intros HP H x Hx. specialize (H x Hx).
  destruct (Ascii.eqb_spec c x) as [<-|]; [by rewrite HP in H|done].
Qed.

(** ** [strings.ReplaceAll] with a non-empty old text *)

Fixpoint replace_from (fuel : nat) (s old new : string) : string :=
  match fuel with
  | O => s
  | S fuel =>
      if has_prefix s old then new +:+ replace_from fuel (string_drop (String.length old) s) old new
      else match s with
           | ""%string => ""%string
           | String a s' => String a (replace_from fuel s' old new)
           end
  end.

Definition replace_all (s old new : string) : string := replace_from (S (String.length s)) s old new.

(** ** Sorted string slices: [sort.Strings] *)

Definition text_le (a b : string) : Prop := text_leb a b = true.
#[global] Instance text_le_dec a b : Decision (text_le a b).
Proof. unfold text_le. solve_decision. Defined.

Definition sort_strings (l : list string) : list string := merge_sort text_le l.

#[global] Instance text_le_total : Total text_le.
Proof. intros a b. unfold text_le, text_leb. destruct (String.leb_total a b); auto. Qed.

#[global] Instance text_le_antisymm : AntiSymm (=) text_le.
Proof. intros a b. apply String.leb_antisym. Qed.

Lemma text_compare_trans (x y z : string) : text_le x y → text_le y z → text_le x z.
Proof.
  unfold text_le, text_leb, String.leb. revert y z. induction x as [|a x IH]; intros [|b y] [|c z]; cbn; try done.
  unfold Ascii.compare.
  destruct (N.compare_spec (N_of_ascii a) (N_of_ascii b)) as [Hab|Hab|Hab]; try done;
  destruct (N.compare_spec (N_of_ascii b) (N_of_ascii c)) as [Hbc|Hbc|Hbc]; try done; intros H1 H2;
  destruct (N.compare_spec (N_of_ascii a) (N_of_ascii c)); try done; try lia. by eapply IH.
Qed.

#[global] Instance text_le_trans : Transitive text_le.
Proof. intros x y z. apply text_compare_trans. Qed.

Lemma sort_strings_perm l : sort_strings l ≡ₚ l.
Proof. apply merge_sort_Permutation. Qed.

Lemma sort_strings_unique l m : sort_strings l = sort_strings m ↔ l ≡ₚ m.
Proof.
  split; intros H.
  - by rewrite <- (sort_strings_perm l), H, sort_strings_perm.
  - apply (Sorted_unique text_le); try apply (Sorted_merge_sort text_le).
    by rewrite !sort_strings_perm.
Qed.

(** A slice that is sorted: no element is greater than the next. *)
Fixpoint sorted_strings (l : list string) : bool :=
  match l with
  | x :: (y :: _) as l' => negb (text_ltb y x) && sorted_strings l'
  | _ => true
  end.

(** The [%q] verb on printable ASCII text without quotes or backslashes. *)
Definition quoted (s : string) : string := String "034" (s +:+ String "034" "").

(** ** UTF-8 *)

(** [utf8.DecodeRune] on non-empty text: the rune and its width; an invalid
    sequence is U+FFFD of width one. *)
Definition decode_rune (l : list Z) : Z * nat :=
  match utf8_len l, l with
  | 1%nat, b0 :: _ => (b0, 1%nat)
  | 2%nat, b0 :: b1 :: _ => (Z.land b0 0x1F * 64 + Z.land b1 0x3F, 2%nat)
  | 3%nat, b0 :: b1 :: b2 :: _ => (Z.land b0 0x0F * 4096 + Z.land b1 0x3F * 64 + Z.land b2 0x3F, 3%nat)
  | 4%nat, b0 :: b1 :: b2 :: b3 :: _ =>
      (Z.land b0 0x07 * 262144 + Z.land b1 0x3F * 4096 + Z.land b2 0x3F * 64 + Z.land b3 0x3F, 4%nat)
  | _, [] => (0xFFFD, 0%nat)
  | _, _ => (0xFFFD, 1%nat)
  end.

(** ** [path.Match]

    Patterns over bytes: 42 is [*], 63 [?], 91 and 93 the brackets, 94 [^], 45
    [-], 92 the backslash and 47 the slash. [None] is [path.ErrBadPattern]. *)

Fixpoint drop_stars (p : list Z) : bool * list Z :=
  match p with
  | 42 :: p' => (true, (drop_stars p').2)
  | _ => (false, p)
  end.

(** The pattern up to the next star that is not in a class. *)
Fixpoint chunk_of (inrange : bool) (p : list Z) : list Z * list Z :=
  match p with
  | [] => ([], [])
  | 92 :: c :: p' => let '(x, y) := chunk_of inrange p' in (92 :: c :: x, y)
  | 42 :: p' => if inrange then let '(x, y) := chunk_of inrange p' in (42 :: x, y) else ([], p)
  | c :: p' =>
      let '(x, y) := chunk_of (if c =? 91 then true else if c =? 93 then false else inrange) p' in (c :: x, y)
  end.

Definition scan_chunk (p : list Z) : bool * list Z * list Z :=
  let '(star, p) := drop_stars p in
  let '(chunk, rest) := chunk_of false p in (star, chunk, rest).

(** [getEsc]: one possibly escaped rune of a class. *)
Definition get_esc (chunk : list Z) : option (Z * list Z) :=
  let read l :=
    let '(r, n) := decode_rune l in
    if (r =? 0xFFFD) && Nat.eqb n 1 then None
    else match drop n l with [] => None | rest => Some (r, rest) end in
  match chunk with
  | [] | 45 :: _ | 93 :: _ => None
  | 92 :: [] => None
  | 92 :: l => read l
  | _ => read chunk
  end.

(** The ranges of a class up to its bracket: whether one holds [r], and the
    rest of the chunk. *)
Fixpoint match_class (fuel : nat) (first : bool) (r : Z) (found : bool) (chunk : list Z) : option (bool * list Z) :=
  match fuel with
  | O => None
  | S fuel =>
      let more :=
        match get_esc chunk with
        | None => None
        | Some (lo, rest) =>
            match rest with
            | 45 :: rest' =>
                match get_esc rest' with
                | None => None
                | Some (hi, rest) => match_class fuel false r (found || ((lo <=? r) && (r <=? hi))) rest
                end
            | _ => match_class fuel false r (found || (lo =? r)) rest
            end
        end in
      match chunk with
      | 93 :: rest => if first then more else Some (found, rest)
      | _ => more
      end
  end.

(** [matchChunk]: the rest of the name, or no match ([Some None]); a failed
    match still has the chunk read to its end. *)
Fixpoint match_chunk (fuel : nat) (failed : bool) (chunk s : list Z) : option (option (list Z)) :=
  match fuel with
  | O => None
  | S fuel =>
      match chunk with
      | [] => Some (if failed then None else Some s)
      | c :: chunk' =>
          let failed := failed || match s with [] => true | _ => false end in
          let literal c chunk' :=
            match s with
            | b :: s' => match_chunk fuel (failed || negb (c =? b)) chunk' (if failed then s else s')
            | [] => match_chunk fuel true chunk' s
            end in
          if c =? 91 then
            let '(r, n) := if failed then (0, 0%nat) else decode_rune s in
            let '(negated, chunk') := match chunk' with 94 :: l => (true, l) | _ => (false, chunk') end in
            match match_class (S (List.length chunk')) true r false chunk' with
            | None => None
            | Some (found, rest) => match_chunk fuel (failed || Bool.eqb found negated) rest (drop n s)
            end
          else if c =? 63 then
            match s with
            | b :: _ =>
                if failed then match_chunk fuel failed chunk' s
                else match_chunk fuel (b =? 47) chunk' (drop (decode_rune s).2 s)
            | [] => match_chunk fuel failed chunk' s
            end
          else if c =? 92 then
            match chunk' with [] => None | c :: chunk' => literal c chunk' end
          else literal c chunk'
      end
  end.

Definition match_one (chunk s : list Z) : option (option (list Z)) := match_chunk (S (List.length chunk)) false chunk s.

(** The chunks of the rest of the pattern are checked for syntax. *)
Fixpoint rest_valid (fuel : nat) (p : list Z) : option bool :=
  match fuel, p with
  | _, [] => Some false
  | O, _ => None
  | S fuel, _ =>
      let '(_, chunk, rest) := scan_chunk p in
      match match_one chunk [] with None => None | Some _ => rest_valid fuel rest end
  end.

(** The search of a chunk after a star; it does not skip a slash. *)
Fixpoint skip_to (chunk : list Z) (last : bool) (name : list Z) : option (option (list Z)) :=
  match name with
  | [] => Some None
  | b :: name' =>
      if b =? 47 then Some None
      else match match_one chunk name' with
           | None => None
           | Some (Some t) =>
               if last && negb (match t with [] => true | _ => false end) then skip_to chunk last name' else Some (Some t)
           | Some None => skip_to chunk last name'
           end
  end.

Fixpoint match_from (fuel : nat) (p name : list Z) : option bool :=
  match fuel with
  | O => None
  | S fuel =>
      match p with
      | [] => Some (match name with [] => true | _ => false end)
      | _ =>
          let '(star, chunk, rest) := scan_chunk p in
          let last := match rest with [] => true | _ => false end in
          if star && match chunk with [] => true | _ => false end then Some (negb (existsb (Z.eqb 47) name))
          else
            let search :=
              if star then
                match skip_to chunk last name with
                | None => None
                | Some (Some t) => match_from fuel rest t
                | Some None => rest_valid fuel rest
                end
              else rest_valid fuel rest in
            match match_one chunk name with
            | None => None
            | Some (Some t) =>
                if match t with [] => true | _ => false end || negb last then match_from fuel rest t else search
            | Some None => search
            end
      end
  end.

(** [path.Match(pattern, name)] *)
Definition path_match (pattern name : string) : option bool :=
  match_from (S (String.length pattern)) (bytes_of pattern) (bytes_of name).

#[global] Arguments path_match : simpl never.

Example path_match_star : path_match "team-*" "team-logs" = Some true. Proof. reflexivity. Qed.
Example path_match_slash : path_match "team/*" "team/a/b" = Some false. Proof. reflexivity. Qed.
Example path_match_class : path_match "log-[a-c]?*x" "log-b1zzx" = Some true. Proof. reflexivity. Qed.
Example path_match_not : path_match "log-[^a-c]" "log-b" = Some false. Proof. reflexivity. Qed.
Example path_match_bad : path_match "log-[a" "log-a" = None. Proof. reflexivity. Qed.
Example path_match_mid : path_match "a*b*c" "aXbYbZc" = Some true. Proof. reflexivity. Qed.

(** A pattern without metacharacters matches itself only, and with a star at
    its end the names that continue it within one path element. *)
Definition plain_byte (b : Z) : bool := negb (existsb (Z.eqb b) [42; 63; 91; 92]).

Definition plain_text (s : string) : bool := forallb plain_byte (bytes_of s).

Fixpoint strip (p s : list Z) : option (list Z) :=
  match p, s with
  | [], _ => Some s
  | a :: p', b :: s' => if a =? b then strip p' s' else None
  | _ :: _, [] => None
  end.

Lemma strip_app p t : strip p (p ++ t) = Some t.
Proof. induction p as [|a p IH]; [done|]. simpl. by rewrite Z.eqb_refl. Qed.

Lemma strip_Some p s t : strip p s = Some t → s = p ++ t.
Proof.
  revert s. induction p as [|a p IH]; intros s; simpl; [by intros [= ->]|].
  destruct s as [|b s]; [done|]. destruct (Z.eqb_spec a b) as [->|]; [|done]. intros H. by rewrite (IH s H).
Qed.

Lemma plain_byte_cases b : plain_byte b = true → b ≠ 42 ∧ b ≠ 63 ∧ b ≠ 91 ∧ b ≠ 92.
Proof. unfold plain_byte. simpl. lia. Qed.

Lemma match_chunk_plain chunk : forallb plain_byte chunk = true → ∀ fuel failed s,
  (List.length chunk < fuel)%nat → match_chunk fuel failed chunk s = Some (if failed then None else strip chunk s).
Proof.
  induction chunk as [|c chunk IH]; intros Hp [|fuel] failed s Hf; try (simpl in Hf; lia); [done|].
  apply andb_true_iff in Hp as [Hc Hp]. apply plain_byte_cases in Hc as (? & ? & ? & ?).
  simpl in Hf. cbn [match_chunk].
  rewrite (proj2 (Z.eqb_neq c 91)), (proj2 (Z.eqb_neq c 63)), (proj2 (Z.eqb_neq c 92)) by lia.
  destruct s as [|b s]; [rewrite IH by (done || lia); by destruct failed|].
  rewrite IH by (done || lia). rewrite orb_false_r. cbn [strip].
  destruct failed; [done|]. by destruct (c =? b).
Qed.

Lemma match_one_plain chunk s : forallb plain_byte chunk = true → match_one chunk s = Some (strip chunk s).
Proof. intros H. unfold match_one. rewrite match_chunk_plain by (done || lia). done. Qed.

Lemma chunk_of_plain p rest : forallb plain_byte p = true → rest = [] ∨ (∃ r, rest = 42 :: r) →
  chunk_of false (p ++ rest) = (p, rest).
Proof.
  intros Hp Hrest. induction p as [|c p IH]; [by destruct Hrest as [->|[r ->]]|].
  apply andb_true_iff in Hp as [Hc Hp]. apply plain_byte_cases in Hc as (? & ? & ? & ?).
  cbn [app chunk_of]. rewrite (proj2 (Z.eqb_neq c 91)) by lia.
  assert ((if c =? 93 then false else false) = false) as -> by (by destruct (c =? 93)).
  rewrite IH by done.
  destruct c as [|c|c]; try done.
  do 7 (destruct c as [c|c|]; try done); lia.
Qed.

Lemma drop_stars_plain p rest : forallb plain_byte p = true → p ≠ [] → drop_stars (p ++ rest) = (false, p ++ rest).
Proof.
  destruct p as [|c p]; [done|]. intros Hp _. apply andb_true_iff in Hp as [Hc _].
  apply plain_byte_cases in Hc as (? & _). cbn. destruct c as [|c|c]; try done.
  do 7 (destruct c as [c|c|]; try done).
Qed.

Lemma match_plain_head fuel p rest name :
  forallb plain_byte p = true → p ≠ [] → rest = [] ∨ rest = [42] →
  match_from (S fuel) (p ++ rest) name =
    match strip p name with
    | Some t => if match t with [] => true | _ => false end || negb (match rest with [] => true | _ => false end)
                then match_from fuel rest t else rest_valid fuel rest
    | None => rest_valid fuel rest
    end.
Proof.
  intros Hp Hne Hrest. cbn [match_from].
  destruct (p ++ rest) as [|c l] eqn:Hl; [by destruct p|]. rewrite <- Hl. clear c l Hl.
  unfold scan_chunk. rewrite drop_stars_plain by done.
  rewrite chunk_of_plain by (done || naive_solver). cbn [andb].
  by rewrite match_one_plain by done.
Qed.

Lemma path_match_plain p v : plain_text p = true → path_match p v = Some (p =? v)%string.
Proof.
  intros Hp. unfold path_match. destruct (String.eqb_spec p v) as [<-|Hne].
  - destruct p as [|a p]; [done|].
    rewrite <- (app_nil_r (bytes_of (String a p))) at 1. rewrite match_plain_head by (done || by left).
    pose proof (strip_app (bytes_of (String a p)) []) as Hs. rewrite app_nil_r in Hs. by rewrite Hs.
  - destruct p as [|a p]; [destruct v; done|].
    rewrite <- (app_nil_r (bytes_of (String a p))). rewrite match_plain_head by (done || by left).
    destruct (strip _ _) as [t|] eqn:Ht; [|done].
    destruct t as [|x t]; [|done]. apply strip_Some in Ht. rewrite app_nil_r in Ht. by apply bytes_of_inj in Ht.
Qed.

Lemma string_length_bytes s : List.length (bytes_of s) = String.length s.
Proof. unfold bytes_of. rewrite length_fmap. induction s; simpl; congruence. Qed.

(** A plain text with a star at its end. *)
Lemma path_match_star_suffix q v : plain_text q = true →
  path_match (q +:+ "*") v =
    Some (match strip (bytes_of q) (bytes_of v) with Some t => negb (existsb (Z.eqb 47) t) | None => false end).
Proof.
  intros Hq. unfold path_match. rewrite bytes_of_app, string_length_app. destruct q as [|a q]; [done|].
  change (bytes_of "*") with [42]. change (String.length "*") with 1%nat.
  rewrite Nat.add_1_r. rewrite match_plain_head by (done || by right).
  destruct (strip _ _) as [t|]; [|done]. rewrite orb_true_r. done.
Qed.

(** ** Prefixes and suffixes *)

Lemma has_prefix_spec s p : has_prefix s p = true ↔ ∃ t, s = p +:+ t.
Proof.
  revert s. induction p as [|a p IH]; intros s; simpl.
  - split; [by exists s|done].
  - destruct s as [|b s]; [split; [done|by intros [t [=]]]|].
    destruct (ascii_dec a b) as [->|Hne].
    + rewrite IH. split; intros [t Ht]; exists t; [by rewrite append_cons, Ht|]. by rewrite append_cons in Ht; injection Ht.
    + split; [done|]. intros [t Ht]. rewrite append_cons in Ht. by injection Ht as <- _.
Qed.

Lemma string_rev_app s t : string_rev (s +:+ t) = string_rev t +:+ string_rev s.
Proof. unfold string_rev. by rewrite list_ascii_app, rev_app_distr, string_of_list_app. Qed.

Lemma string_rev_involutive s : string_rev (string_rev s) = s.
Proof. unfold string_rev. by rewrite list_ascii_of_string_of_list_ascii, rev_involutive, string_of_list_ascii_of_string. Qed.

Lemma has_suffix_spec s p : has_suffix s p = true ↔ ∃ t, s = t +:+ p.
Proof.
  unfold has_suffix. rewrite has_prefix_spec. split; intros [t Ht].
  - exists (string_rev t). by rewrite <- (string_rev_involutive p), <- string_rev_app, <- Ht, string_rev_involutive.
  - exists (string_rev t). by rewrite Ht, string_rev_app.
Qed.

Lemma string_take_length n s : String.length (string_take n s) = Nat.min n (String.length s).
Proof. revert n. induction s as [|a s IH]; intros [|n]; cbn; try done. by rewrite IH. Qed.

Lemma string_take_app s t : string_take (String.length s) (s +:+ t) = s.
Proof. induction s as [|a s IH]; [by destruct t|]. rewrite append_cons. cbn. by rewrite IH. Qed.

Lemma string_drop_app s t : string_drop (String.length s) (s +:+ t) = t.
Proof. by induction s as [|a s IH]. Qed.

Lemma trim_prefix_app p t : trim_prefix (p +:+ t) p = t.
Proof.
  unfold trim_prefix. rewrite (proj2 (has_prefix_spec _ _)) by (by exists t). apply string_drop_app.
Qed.

Lemma trim_suffix_app t p : trim_suffix (t +:+ p) p = t.
Proof.
  unfold trim_suffix. rewrite (proj2 (has_suffix_spec _ _)) by (by exists t).
  rewrite string_length_app, Nat.add_sub. apply string_take_app.
Qed.

(** [strings.ToUpper] on ASCII letters and on the two other characters whose
    upper case is an ASCII letter, the dotless i and the long s. The upper case
    of every other character stays outside ASCII, and such texts are only
    compared with ASCII ones. *)
Fixpoint to_upper (s : string) : string :=
  match s with
  | String a ((String b s2) as s1) =>
      if (byte_of a =? 0xC4) && (byte_of b =? 0xB1) then String "I" (to_upper s2)
      else if (byte_of a =? 0xC5) && (byte_of b =? 0xBF) then String "S" (to_upper s2)
      else String (upper_byte a) (to_upper s1)
  | String a s1 => String (upper_byte a) (to_upper s1)
  | ""%string => ""
  end.

(** ** [path.Clean]

    The element-wise reading of the function: empty elements and dots are
    dropped, a double dot removes the element before it, and at the front of a
    rooted path it is dropped. [clean_push] handles one element on the stack
    of those kept, the last one first. *)
Definition clean_push (rooted : bool) (stack : list string) (elem : string) : list string :=
  if (elem =? "")%string || (elem =? ".")%string then stack
  else if (elem =? "..")%string then
    match stack with
    | top :: below => if (top =? "..")%string then ".." :: stack else below
    | [] => if rooted then [] else [".."]
    end
  else elem :: stack.

Definition clean_elements (s : string) : list string :=
  rev (fold_left (clean_push (has_prefix s "/")) (string_split "/" s) []).

Definition path_clean (s : string) : string :=
  let text := string_join "/" (clean_elements s) in
  if has_prefix s "/" then String "/" text else if (text =? "")%string then "." else text.

#[global] Arguments path_clean : simpl never.

Example path_clean_ex : path_clean "a//b/./../c/" = "a/c". Proof. reflexivity. Qed.
Example path_clean_up : path_clean "a/../../b" = "../b". Proof. reflexivity. Qed.
Example path_clean_root : path_clean "/../a" = "/a". Proof. reflexivity. Qed.
Example path_clean_dot : path_clean "a/.." = ".". Proof. reflexivity. Qed.

(** An element that stays: not empty, not a dot or a double dot, no slash. *)
Definition proper_element (e : string) : bool :=
  negb (e =? "")%string && negb (e =? ".")%string && negb (e =? "..")%string && no_byte "/" e.

(** The stack of a relative path: proper elements over double dots. *)
Lemma clean_fold_shape rooted elems stack :
  Forall (λ e, no_byte "/" e = true) elems →
  (∃ up proper, stack = proper ++ replicate up ".." ∧ Forall (λ e, proper_element e = true) proper) →
  ∃ up proper, fold_left (clean_push rooted) elems stack = proper ++ replicate up ".."
    ∧ Forall (λ e, proper_element e = true) proper.
Proof.
  intros He. revert stack. induction He as [|e elems Hslash _ IH]; intros stack Hs; [exact Hs|]. simpl. apply IH.
  destruct Hs as (up & proper & -> & Hp). unfold clean_push.
  destruct (String.eqb_spec e "") as [_|He0]; [by exists up, proper|].
  destruct (String.eqb_spec e ".") as [_|He1]; [by exists up, proper|]. cbn [orb].
  destruct (String.eqb_spec e "..") as [_|He2].
  - destruct Hp as [|p proper Hp0 Hp]; cbn [app].
    + destruct up as [|up]; simpl; [destruct rooted; [by exists 0%nat, []|by exists 1%nat, []]|by exists (S (S up)), []].
    + assert ((p =? "..")%string = false) as -> by (unfold proper_element in Hp0; by destruct (p =? "..")%string; rewrite ?andb_false_r in Hp0).
      by exists up, proper.
  - exists up, (e :: proper). split; [done|]. constructor; [|done]. unfold proper_element.
    rewrite Hslash. by rewrite (proj2 (String.eqb_neq e "")), (proj2 (String.eqb_neq e ".")), (proj2 (String.eqb_neq e "..")).
Qed.

Lemma clean_elements_shape s :
  ∃ up proper, clean_elements s = replicate up ".." ++ proper ∧ Forall (λ e, proper_element e = true) proper.
Proof.
  destruct (clean_fold_shape (has_prefix s "/") (string_split "/" s) []) as (up & proper & Hf & Hp).
  { apply string_split_no_byte. }
  { by exists 0%nat, []. }
  exists up, (rev proper). unfold clean_elements. rewrite Hf, rev_app_distr. split.
  - f_equal. clear. induction up as [|up IH]; [done|]. simpl. rewrite IH. symmetry. apply (replicate_cons_app up).
  - by apply Forall_rev.
Qed.

(** [filepath.Join]: the first empty elements do not count. *)
Fixpoint filepath_join (elems : list string) : string :=
  match elems with
  | [] => ""
  | e :: rest => if (e =? "")%string then filepath_join rest else path_clean (string_join "/" elems)
  end.

(** *** Cleaning twice is cleaning once *)

Lemma clean_push_proper rooted stack e : proper_element e = true → clean_push rooted stack e = e :: stack.
Proof.
  unfold proper_element, clean_push. intros H.
  destruct (e =? "")%string; [done|]. destruct (e =? ".")%string; [done|]. by destruct (e =? "..")%string.
Qed.

Lemma clean_push_all rooted stack l : Forall (λ e, proper_element e = true) l → fold_left (clean_push rooted) l stack = rev l ++ stack.
Proof.
  intros Hl. revert stack. induction Hl as [|e l He _ IH]; intros stack; [done|]. simpl.
  by rewrite clean_push_proper, IH, <- app_assoc by done.
Qed.

(** A relative stack pushed on a rooted one: as if its elements were pushed. *)
Lemma clean_push_twice stack st e : Forall (λ x, x ≠ "" ∧ x ≠ ".") st →
  fold_left (clean_push true) (rev (clean_push false st e)) stack
    = clean_push true (fold_left (clean_push true) (rev st) stack) e.
Proof.
  assert (∀ rooted l x, x ≠ "" ∧ x ≠ "." → clean_push rooted l x = (if (x =? "..")%string then clean_push rooted l ".." else x :: l)) as Hpush.
  { intros rooted l x [H1 H2]. unfold clean_push at 1. rewrite !(proj2 (String.eqb_neq x _)) by done. cbn [orb].
    by destruct (String.eqb_spec x "..") as [->|]. }
  intros Hst. destruct ((e =? "")%string || (e =? ".")%string) eqn:E.
  { unfold clean_push at 2 3. by rewrite E. }
  assert (e ≠ "" ∧ e ≠ ".") as He by (split; intros ->; done). rewrite (Hpush false st e He).
  destruct (String.eqb_spec e "..") as [->|Hne]; [|cbn [rev]; by rewrite fold_left_app].
  destruct Hst as [|top below Htop Hbelow]; [done|].
  assert (∀ rooted, clean_push rooted (top :: below) ".." = if (top =? "..")%string then ".." :: top :: below else below) as Hup by done.
  rewrite Hup. destruct (String.eqb_spec top "..") as [->|Hne].
  - change (rev (".." :: ".." :: below)) with (rev (".." :: below) ++ [".."]). by rewrite fold_left_app.
  - cbn [rev]. rewrite fold_left_app. cbn [fold_left]. rewrite (Hpush true _ top Htop), (proj2 (String.eqb_neq top "..")) by done.
    unfold clean_push at 2. by rewrite (proj2 (String.eqb_neq top "..")) by done.
Qed.

Lemma clean_push_kept rooted st e : Forall (λ x, x ≠ "" ∧ x ≠ ".") st → Forall (λ x, x ≠ "" ∧ x ≠ ".") (clean_push rooted st e).
Proof.
  intros Hst. unfold clean_push. destruct (String.eqb_spec e ""); [done|]. destruct (String.eqb_spec e "."); [done|]. cbn [orb].
  destruct (String.eqb_spec e ".."); [|by constructor].
  destruct Hst as [|top below Ht Hb]; [destruct rooted; [done|by apply Forall_singleton]|].
  destruct (top =? "..")%string; [by repeat apply Forall_cons_2|done].
Qed.

Lemma clean_fold_twice stack st elems : Forall (λ x, x ≠ "" ∧ x ≠ ".") st →
  fold_left (clean_push true) (rev (fold_left (clean_push false) elems st)) stack
    = fold_left (clean_push true) elems (fold_left (clean_push true) (rev st) stack).
Proof.
  revert st. induction elems as [|e elems IH]; intros st Hst; [done|]. cbn [fold_left].
  rewrite IH by by apply clean_push_kept. by rewrite clean_push_twice.
Qed.

(** What is left of a relative path. *)
Lemma clean_elements_plain s : Forall (λ e, e ≠ "" ∧ no_byte "/" e = true) (clean_elements s).
Proof.
  destruct (clean_elements_shape s) as (up & proper & -> & Hp). apply Forall_app. split; [by apply Forall_replicate|].
  eapply Forall_impl; [exact Hp|]. intros e He. split; [by intros ->|]. by apply andb_true_iff in He as [_ He].
Qed.

Lemma path_clean_relative s : has_prefix s "/" = false →
  (clean_elements s = [] ∧ path_clean s = ".") ∨ (clean_elements s ≠ [] ∧ string_split "/" (path_clean s) = clean_elements s).
Proof.
  intros Hs. unfold path_clean. rewrite Hs. pose proof (clean_elements_plain s) as Hl.
  destruct (clean_elements s) as [|x l]; [by left|right]. split; [done|].
  assert (string_join "/" (x :: l) ≠ "") as Htext.
  { inversion Hl as [|? ? [Hx _] _]; subst. destruct l; [done|]. rewrite string_join_cons. destruct x; [done|]. by rewrite append_cons. }
  rewrite (proj2 (String.eqb_neq _ "")) by done. apply string_split_join; [done|].
  eapply Forall_impl; [exact Hl|]. by intros e [_ He].
Qed.

(** The elements of a relative path after those of a directory. *)
Lemma clean_fold_clean stack s : has_prefix s "/" = false →
  fold_left (clean_push true) (string_split "/" (path_clean s)) stack = fold_left (clean_push true) (string_split "/" s) stack.
Proof.
  intros Hs. pose proof (clean_fold_twice stack [] (string_split "/" s) ltac:(constructor)) as Htwice.
  cbn [rev fold_left] in Htwice. rewrite <- Htwice. clear Htwice.
  assert (rev (fold_left (clean_push false) (string_split "/" s) []) = clean_elements s) as ->.
  { unfold clean_elements. by rewrite Hs. }
  destruct (path_clean_relative s Hs) as [[-> ->]|[_ ->]]; done.
Qed.

Lemma has_prefix_root s : has_prefix (String "/" s) "/" = true.
Proof. by destruct s. Qed.

Lemma path_clean_not_rooted s : has_prefix s "/" = false → has_prefix (path_clean s) "/" = false.
Proof.
  intros Hs. destruct (path_clean_relative s Hs) as [[_ ->]|[Hne Hsplit]]; [done|].
  pose proof (clean_elements_plain s) as Hl. rewrite <- Hsplit in Hl. destruct (path_clean s) as [|a t]; [done|].
  destruct (Ascii.eqb_spec a "/") as [->|Ha].
  - cbn in Hl. by inversion Hl as [|? ? [Hx _] _]; destruct Hx.
  - apply not_true_iff_false. intros [u Hu]%has_prefix_spec. rewrite append_cons in Hu. by injection Hu as ->.
Qed.

(** Where a path leads from the directory [cwd]: the elements of its absolute
    form. *)
Definition path_elements (cwd path : string) : list string :=
  clean_elements (if has_prefix path "/" then path else "/" +:+ cwd +:+ "/" +:+ path).

Lemma clean_elements_rooted s : has_prefix s "/" = true → clean_elements s = rev (fold_left (clean_push true) (string_split "/" s) []).
Proof. intros Hs. unfold clean_elements. by rewrite Hs. Qed.

Lemma string_split_sep c s t : string_split c (s +:+ String c t) = string_split c s ++ string_split c t.
Proof.
  induction s as [|a s IH]; rewrite ?append_cons, ?append_nil_l; cbn.
  - by destruct (ascii_dec c c).
  - rewrite IH. destruct (ascii_dec a c); [done|]. pose proof (string_split_ne c s). by destruct (string_split c s).
Qed.

Lemma has_prefix_byte a s t : s ≠ "" → has_prefix (s +:+ t) (String a "") = has_prefix s (String a "").
Proof. destruct s as [|b s]; [done|]. rewrite append_cons. cbn. by destruct s. Qed.

Lemma string_split_join_sep c l1 l2 : l1 ≠ [] → l2 ≠ [] →
  string_split c (string_join (String c "") (l1 ++ l2)) = string_split c (string_join (String c "") l1) ++ string_split c (string_join (String c "") l2).
Proof.
  intros H1 H2. induction l1 as [|x l1 IH]; [done|]. destruct l1 as [|y l1]; cbn [app].
  - destruct l2 as [|z l2]; [done|]. rewrite string_join_cons, append_cons, append_nil_l. apply string_split_sep.
  - rewrite !string_join_cons, !append_cons, !append_nil_l, !string_split_sep. rewrite <- app_assoc. f_equal. by apply IH.
Qed.

(** A rooted clean path has proper elements only. *)
Lemma clean_rooted_proper elems stack :
  Forall (λ e, no_byte "/" e = true) elems → Forall (λ e, proper_element e = true) stack →
  Forall (λ e, proper_element e = true) (fold_left (clean_push true) elems stack).
Proof.
  intros He. revert stack. induction He as [|e elems Hslash _ IH]; intros stack Hs; [done|]. apply IH. unfold clean_push.
  destruct (String.eqb_spec e ""); [done|]. destruct (String.eqb_spec e "."); [done|]. cbn [orb].
  destruct (String.eqb_spec e "..").
  - destruct Hs as [|x l Hx Hl]; [done|]. destruct (String.eqb_spec x ".."); [by subst|done].
  - constructor; [|done]. unfold proper_element. rewrite Hslash. by rewrite !(proj2 (String.eqb_neq e _)).
Qed.

Lemma path_elements_proper cwd path : Forall (λ e, proper_element e = true) (path_elements cwd path).
Proof.
  unfold path_elements. assert (∀ s, has_prefix s "/" = true → Forall (λ e, proper_element e = true) (clean_elements s)) as Hs.
  { intros s Hs. rewrite clean_elements_rooted by done. apply Forall_rev, clean_rooted_proper; [apply string_split_no_byte|constructor]. }
  destruct (has_prefix path "/") eqn:E; [by apply Hs|]. apply Hs. by rewrite append_cons, append_nil_l.
Qed.

Lemma path_elements_rev cwd path :
  rev (path_elements cwd path)
    = fold_left (clean_push true) (string_split "/" path) (if has_prefix path "/" then [] else rev (path_elements cwd "")).
Proof.
  unfold path_elements. change (has_prefix "" "/") with false. cbv iota. destruct (has_prefix path "/") eqn:E.
  - by rewrite clean_elements_rooted, rev_involutive.
  - assert (∀ s, has_prefix ("/" +:+ s) "/" = true) as Hroot by (intros s; by rewrite append_cons).
    rewrite !clean_elements_rooted, !rev_involutive by done.
    assert (∀ p, string_split "/" ("/" +:+ cwd +:+ "/" +:+ p) = string_split "/" ("/" +:+ cwd) ++ string_split "/" p) as Hsplit.
    { intros p. rewrite !append_cons, !append_nil_l, <- append_cons. apply string_split_sep. }
    by rewrite !Hsplit, !fold_left_app.
Qed.

(** Cleaning a path does not change where it leads. *)
Lemma path_elements_clean cwd path : path ≠ "" → path_elements cwd (path_clean path) = path_elements cwd path.
Proof.
  intros Hne. rewrite <- (rev_involutive (path_elements cwd (path_clean path))), <- (rev_involutive (path_elements cwd path)). f_equal.
  rewrite (path_elements_rev cwd (path_clean path)), (path_elements_rev cwd path). destruct (has_prefix path "/") eqn:E.
  - unfold path_clean. rewrite E. rewrite clean_elements_rooted by done.
    pose proof (clean_rooted_proper (string_split "/" path) [] (string_split_no_byte _ _) ltac:(constructor)) as Hp.
    set (l := fold_left (clean_push true) (string_split "/" path) []) in *.
    rewrite has_prefix_root.
    change (String "/" (string_join "/" (rev l))) with ("" +:+ String "/" (string_join "/" (rev l))).
    rewrite string_split_sep. cbn [string_split app fold_left]. change (clean_push true [] "") with (@nil string).
    assert (Forall (λ e, no_byte "/" e = true) (rev l)) as Hfree.
    { apply Forall_rev. eapply Forall_impl; [exact Hp|]. intros e He. unfold proper_element in He. by apply andb_true_iff in He as [_ He]. }
    destruct (decide (l = [])) as [->|Hl]; [done|]. rewrite string_split_join; [|by intros H%(f_equal (@rev string)); rewrite rev_involutive in H|done].
    rewrite clean_push_all, rev_involutive, app_nil_r by by apply Forall_rev. done.
  - rewrite <- (clean_fold_clean _ _ E). f_equal.
    by rewrite path_clean_not_rooted.
Qed.

(** Joining leads from the directory through the elements of the rest. *)
Lemma path_elements_join cwd d rest : d ≠ "" → rest ≠ [] →
  path_elements cwd (filepath_join (d :: rest))
    = rev (fold_left (clean_push true) (string_split "/" (string_join "/" rest)) (rev (path_elements cwd d))).
Proof.
  intros Hd Hrest. cbn [filepath_join]. rewrite (proj2 (String.eqb_neq d "")) by done.
  destruct rest as [|x rest]; [done|]. assert (string_join "/" (d :: x :: rest) = d +:+ String "/" (string_join "/" (x :: rest))) as E.
  { by rewrite string_join_cons, append_cons, append_nil_l. }
  rewrite path_elements_clean by (rewrite E; destruct d; [done|by rewrite append_cons]).
  rewrite <- (rev_involutive (path_elements _ _)). f_equal. rewrite path_elements_rev, E, string_split_sep, fold_left_app.
  rewrite has_prefix_byte by done. f_equal. symmetry. apply path_elements_rev.
Qed.

Lemma path_elements_join_proper cwd d rest : d ≠ "" → rest ≠ [] → Forall (λ e, proper_element e = true) rest →
  path_elements cwd (filepath_join (d :: rest)) = path_elements cwd d ++ rest.
Proof.
  intros Hd Hrest Hp. rewrite path_elements_join by done. rewrite string_split_join; [|done|].
  - rewrite clean_push_all by done. by rewrite rev_app_distr, !rev_involutive.
  - eapply Forall_impl; [exact Hp|]. intros e He. unfold proper_element in He. by apply andb_true_iff in He as [_ He].
Qed.

(** ** Trimming twice *)

(** The width of a space at the front, read in the given direction. *)
Definition lead (rev_mode : bool) (l : list ascii) : nat :=
  match l with
  | a :: l1 =>
      if ascii_space (byte_of a) then 1%nat
      else match l1 with
           | b :: l2 =>
               if (if rev_mode then space2 (byte_of b) (byte_of a) else space2 (byte_of a) (byte_of b)) then 2%nat
               else match l2 with
                    | c :: _ => if (if rev_mode then space3 (byte_of c) (byte_of b) (byte_of a)
                                    else space3 (byte_of a) (byte_of b) (byte_of c)) then 3%nat else 0%nat
                    | [] => 0%nat
                    end
           | [] => 0%nat
           end
  | [] => 0%nat
  end.

Lemma trim_step m f l : trim_left_ascii m (S f) l = match lead m l with O => l | k => trim_left_ascii m f (drop k l) end.
Proof.
  destruct l as [|a [|b [|c l]]]; cbn [trim_left_ascii lead]; [done| | |];
    repeat match goal with |- context [if ?b then _ else _] => destruct b end; done.
Qed.

Lemma lead_le m l : (lead m l ≤ List.length l)%nat.
Proof. destruct l as [|a [|b [|c l]]]; cbn; repeat case_match; lia. Qed.

Lemma trim_lead m f l : (List.length l ≤ f)%nat → lead m (trim_left_ascii m f l) = 0%nat.
Proof.
  revert l. induction f as [|f IH]; intros l Hf; [by destruct l; [|cbn in Hf; lia]|]. rewrite trim_step.
  destruct (lead m l) as [|k] eqn:Hk; [done|]. apply IH. pose proof (lead_le m l). rewrite length_drop. lia.
Qed.

Lemma trim_unspaced m f l : lead m l = 0%nat → trim_left_ascii m f l = l.
Proof. intros Hl. destruct f; [done|]. by rewrite trim_step, Hl. Qed.

Lemma trim_suffix_of m f l : ∃ p, l = p ++ trim_left_ascii m f l.
Proof.
  revert l. induction f as [|f IH]; intros l; [by exists []|]. rewrite trim_step. destruct (lead m l) as [|k]; [by exists []|].
  destruct (IH (drop (S k) l)) as (p & Hp). exists (take (S k) l ++ p). by rewrite <- app_assoc, <- Hp, take_drop.
Qed.

Lemma lead_prefix m l k : lead m (l ++ k) = 0%nat → lead m l = 0%nat.
Proof.
  destruct l as [|a [|b [|c l]]]; cbn; [done| | |]; repeat match goal with |- context [if ?b then _ else _] => destruct b end; try done.
Qed.

Lemma string_of_list_inv l : list_ascii_of_string (string_of_list_ascii l) = l.
Proof. apply list_ascii_of_string_of_list_ascii. Qed.

(** [strings.TrimSpace] is idempotent. *)
Lemma trim_space_idem s : trim_space (trim_space s) = trim_space s.
Proof.
  unfold trim_space at 2 3. cbv zeta. set (l := trim_left_ascii false _ _).
  assert (lead false l = 0%nat) as Hl by (apply trim_lead; done). clearbody l.
  set (r := trim_left_ascii true (List.length l) (rev l)).
  assert (lead true r = 0%nat) as Hr by (apply trim_lead; by rewrite length_rev).
  destruct (trim_suffix_of true (List.length l) (rev l)) as (p & Hp). fold r in Hp. clearbody r.
  assert (lead false (rev r) = 0%nat) as Hrl.
  { apply (lead_prefix false _ (rev p)). rewrite <- rev_app_distr, <- Hp, rev_involutive. done. }
  unfold trim_space. cbv zeta. rewrite string_of_list_inv, !(trim_unspaced false) by done.
  by rewrite rev_involutive, trim_unspaced by done.
Qed.
