(* ===== verification/Url.v ===== *)
(** [net/url]: query escaping, [url.Values], [Encode] and [ParseQuery], and the
    canonical query string of AWS Signature Version 4 ([gateway/auth.go]). *)
From S2P Require Import Prelude Sha256 Float64 Json Text.

(** ** Escaping *)

(** [url.QueryUnescape]; [None] is an [EscapeError]. *)
Fixpoint query_unescape (s : string) : option string :=
  match s with
  | ""%string => Some ""
  | String a s1 =>
      if ascii_dec a "%" then
        match s1 with
        | String h (String l s3) =>
            match hex_value h, hex_value l, query_unescape s3 with
            | Some x, Some y, Some rest => Some (String (ascii_of_N (Z.to_N (16 * x + y))) rest)
            | _, _, _ => None
            end
        | _ => None
        end
      else String (if ascii_dec a "+" then " "%char else a) <$> query_unescape s1
  end.

(** [url.PathUnescape] *)
Fixpoint path_unescape (s : string) : option string :=
  match s with
  | ""%string => Some ""
  | String a s1 =>
      if ascii_dec a "%" then
        match s1 with
        | String h (String l s3) =>
            match hex_value h, hex_value l, path_unescape s3 with
            | Some x, Some y, Some rest => Some (String (ascii_of_N (Z.to_N (16 * x + y))) rest)
            | _, _, _ => None
            end
        | _ => None
        end
      else String a <$> path_unescape s1
  end.

(** [awsQueryEscape] *)
Definition awsQueryEscape (value : string) : string :=
  replace_all (replace_all (query_escape value) "+" "%20") "%7E" "~".

(** The same byte by byte. *)
Definition aws_escape_byte (a : ascii) : string :=
  if ascii_dec a " " then "%20" else query_escape_byte a.

Fixpoint aws_escape (s : string) : string :=
  match s with "" => "" | String a s => aws_escape_byte a +:+ aws_escape s end%string.

Lemma query_escape_cons a s : query_escape (String a s) = query_escape_byte a +:+ query_escape s.
Proof.
  unfold query_escape. simpl. destruct (list_ascii_of_string s); simpl; [by rewrite append_nil_r|done].
Qed.

(** Case analysis on a byte: 256 closed goals. *)
Ltac all_bytes a := destruct a as [[] [] [] [] [] [] [] []].

Lemma unescape_escape_byte a rest : query_unescape (query_escape_byte a +:+ rest) = String a <$> query_unescape rest.
Proof. all_bytes a; reflexivity. Qed.

Lemma unescape_aws_byte a rest : query_unescape (aws_escape_byte a +:+ rest) = String a <$> query_unescape rest.
Proof. all_bytes a; reflexivity. Qed.

Lemma query_unescape_escape s : query_unescape (query_escape s) = Some s.
Proof. induction s as [|a s IH]; [done|]. by rewrite query_escape_cons, unescape_escape_byte, IH. Qed.

Lemma query_unescape_aws s : query_unescape (aws_escape s) = Some s.
Proof. induction s as [|a s IH]; [done|]. cbn [aws_escape]. by rewrite unescape_aws_byte, IH. Qed.

(** Neither replacement of [awsQueryEscape] reaches past the bytes of one
    escaped byte. *)
Lemma replace_plus_byte a fuel rest :
  replace_from (String.length (query_escape_byte a) + fuel) (query_escape_byte a +:+ rest) "+" "%20"
    = aws_escape_byte a +:+ replace_from fuel rest "+" "%20".
Proof. all_bytes a; reflexivity. Qed.

Lemma replace_tilde_byte a fuel rest :
  replace_from (String.length (aws_escape_byte a) + fuel) (aws_escape_byte a +:+ rest) "%7E" "~"
    = aws_escape_byte a +:+ replace_from fuel rest "%7E" "~".
Proof. all_bytes a; reflexivity. Qed.

Lemma replace_plus s fuel : (String.length (query_escape s) < fuel)%nat →
  replace_from fuel (query_escape s) "+" "%20" = aws_escape s.
Proof.
  revert fuel. induction s as [|a s IH]; intros fuel Hf; [by destruct fuel|].
  rewrite query_escape_cons, string_length_app in *.
  replace fuel with (String.length (query_escape_byte a) + (fuel - String.length (query_escape_byte a)))%nat by lia.
  rewrite replace_plus_byte, IH by lia. done.
Qed.

Lemma replace_tilde s fuel : (String.length (aws_escape s) < fuel)%nat →
  replace_from fuel (aws_escape s) "%7E" "~" = aws_escape s.
Proof.
  revert fuel. induction s as [|a s IH]; intros fuel Hf; [by destruct fuel|].
  cbn [aws_escape] in *. rewrite string_length_app in Hf.
  replace fuel with (String.length (aws_escape_byte a) + (fuel - String.length (aws_escape_byte a)))%nat by lia.
  rewrite replace_tilde_byte, IH by lia. done.
Qed.

Lemma awsQueryEscape_eq s : awsQueryEscape s = aws_escape s.
Proof. unfold awsQueryEscape, replace_all. rewrite replace_plus by lia. apply replace_tilde. lia. Qed.

Lemma awsQueryEscape_inj s t : awsQueryEscape s = awsQueryEscape t → s = t.
Proof.
  rewrite !awsQueryEscape_eq. intros H. apply (f_equal query_unescape) in H. rewrite !query_unescape_aws in H. congruence.
Qed.

(** The bytes that separate the parts of a query are escaped. *)
Definition query_special (a : ascii) : bool :=
  existsb (Ascii.eqb a) ["&"; "="; ";"; "#"; "010"; "?"; "/"; " "]%char.

Lemma query_escape_free s : free_of query_special (query_escape s) = true.
Proof.
  induction s as [|a s IH]; [done|]. rewrite query_escape_cons, free_of_app, IH, andb_true_r. all_bytes a; reflexivity.
Qed.

Lemma aws_escape_free s : free_of query_special (awsQueryEscape s) = true.
Proof.
  rewrite awsQueryEscape_eq. induction s as [|a s IH]; [done|]. cbn [aws_escape]. rewrite free_of_app, IH, andb_true_r.
  all_bytes a; reflexivity.
Qed.

(** ** [url.Values] *)

Notation Values := (gmap string (list string)).

Definition values_add (q : Values) (kv : string * string) : Values := <[kv.1 := default [] (q !! kv.1) ++ [kv.2]]> q.
Definition values_get (q : Values) (k : string) : string := match q !! k with Some (v :: _) => v | _ => "" end.
Definition values_set (q : Values) (k v : string) : Values := <[k := [v]]> q.

Definition sorted_keys (q : Values) : list string := sort_strings (map_to_list q).*1.

(** Its pairs by key, the values of a key in the order [arrange] gives them. *)
Definition pairs_by (arrange : list string → list string) (q : Values) : list (string * string) :=
  List.concat ((λ k, pair k <$> arrange (default [] (q !! k))) <$> sorted_keys q).

(** [Values.Encode] *)
Definition encode_part (kv : string * string) : string := query_escape kv.1 +:+ "=" +:+ query_escape kv.2.
Definition values_encode (q : Values) : string := string_join "&" (encode_part <$> pairs_by id q).

(** [url.ParseQuery]; [Query()] drops its error. *)
Definition parse_part (part : string) : option (string * string) :=
  if (part =? "")%string || negb (no_byte ";" part) then None
  else
    let '(k, v) := default (part, ""%string) (string_cut part "=") in
    match query_unescape k, query_unescape v with Some k, Some v => Some (k, v) | _, _ => None end.

Definition parse_query (s : string) : Values := fold_left values_add (omap parse_part (string_split "&" s)) ∅.

(** Whether [ParseQuery] returns an error. *)
Definition query_malformed (s : string) : bool :=
  existsb (λ part, negb (part =? "")%string && match parse_part part with None => true | Some _ => false end) (string_split "&" s).

(** [canonicalQueryString] *)
Definition canonical_part (kv : string * string) : string := awsQueryEscape kv.1 +:+ "=" +:+ awsQueryEscape kv.2.
Definition canonicalQueryString (q : Values) : string := string_join "&" (canonical_part <$> pairs_by sort_strings q).

Example canonical_query_ex :
  canonicalQueryString (parse_query "b=2&a=x+y&b=1&c") = "a=x%20y&b=1&b=2&c=".
Proof. vm_compute. reflexivity. Qed.

(** ** Laws of values *)

Definition values_of (k : string) (l : list (string * string)) : list string :=
  omap (λ kv, if (kv.1 =? k)%string then Some kv.2 else None) l.

Lemma values_of_cons k kv l : values_of k (kv :: l) = if (kv.1 =? k)%string then kv.2 :: values_of k l else values_of k l.
Proof. unfold values_of. cbn [omap list_omap]. by destruct (kv.1 =? k)%string. Qed.

Lemma values_of_app k l1 l2 : values_of k (l1 ++ l2) = values_of k l1 ++ values_of k l2.
Proof. apply omap_app. Qed.

Lemma values_of_pairs k k' vs : values_of k (pair k' <$> vs) = if (k' =? k)%string then vs else [].
Proof.
  induction vs as [|v vs IH]; [by destruct (_ =? _)%string|]. rewrite fmap_cons, values_of_cons, IH. cbn [fst snd].
  by destruct (k' =? k)%string.
Qed.

Lemma fold_add_lookup l (q : Values) k :
  fold_left values_add l q !! k =
    match values_of k l with [] => q !! k | vs => Some (default [] (q !! k) ++ vs) end.
Proof.
  revert q. induction l as [|[k' v] l IH]; intros q; [done|]. cbn [fold_left]. rewrite IH.
  rewrite values_of_cons. unfold values_add. cbn [fst snd]. destruct (String.eqb_spec k' k) as [->|Hne].
  - rewrite lookup_insert_eq. destruct (values_of k l) as [|x vs]; [done|]. cbn [default option_rect].
    simpl. by rewrite <- (assoc_L (++)).
  - by rewrite lookup_insert_ne by done.
Qed.

Lemma sorted_keys_perm q : sorted_keys q ≡ₚ (map_to_list q).*1.
Proof. apply sort_strings_perm. Qed.

Lemma sorted_keys_spec (q : Values) k : k ∈ sorted_keys q ↔ is_Some (q !! k).
Proof.
  rewrite sorted_keys_perm, list_elem_of_fmap. split.
  - intros ([k' v] & -> & H). apply elem_of_map_to_list in H. by exists v.
  - intros [v Hv]. exists (k, v). split; [done|]. by apply elem_of_map_to_list.
Qed.

Lemma sorted_keys_nodup q : NoDup (sorted_keys q).
Proof. rewrite sorted_keys_perm. apply NoDup_fst_map_to_list. Qed.

Lemma values_of_concat arrange (q : Values) k ks : NoDup ks →
  values_of k (List.concat ((λ k, pair k <$> arrange (default [] (q !! k))) <$> ks)) =
    if bool_decide (k ∈ ks) then arrange (default [] (q !! k)) else [].
Proof.
  induction 1 as [|k' ks Hk' _ IH]; [done|]. rewrite fmap_cons. simpl. rewrite values_of_app, values_of_pairs, IH.
  destruct (String.eqb_spec k' k) as [->|Hne].
  - rewrite (bool_decide_eq_false_2 (k ∈ ks)) by done. rewrite bool_decide_eq_true_2 by set_solver. by rewrite app_nil_r.
  - rewrite (bool_decide_ext (k ∈ k' :: ks) (k ∈ ks)) by set_solver. done.
Qed.

Lemma values_of_pairs_by arrange (q : Values) k : arrange [] = [] → values_of k (pairs_by arrange q) = arrange (default [] (q !! k)).
Proof.
  intros Hnil. unfold pairs_by. rewrite values_of_concat by apply sorted_keys_nodup.
  case_bool_decide as Hk; [done|]. rewrite sorted_keys_spec in Hk. destruct (q !! k); [by destruct Hk|done].
Qed.

Lemma cut_escaped k v : free_of query_special k = true →
  string_cut (k +:+ "=" +:+ v) "=" = Some (k, v).
Proof.
  induction k as [|a k IH]; intros Hk.
  - by destruct v.
  - unfold free_of in Hk. cbn in Hk. apply andb_true_iff in Hk as [Ha Hk]. rewrite append_cons. cbn [string_cut].
    rewrite IH by done. assert (has_prefix (String a (k +:+ "=" +:+ v)) "=" = false) as ->; [|done].
    cbn [has_prefix]. destruct (ascii_dec "=" a) as [<-|]; [by vm_compute in Ha|done].
Qed.

Lemma free_of_weaken (P Q : ascii → bool) s : (∀ a, Q a = true → P a = true) → free_of P s = true → free_of Q s = true.
Proof.
  unfold free_of. rewrite !forallb_forall. intros HPQ H a Ha. specialize (H a Ha).
  destruct (Q a) eqn:HQ; [|done]. by rewrite HPQ in H.
Qed.

Definition part_separators : list ascii := ["&"; ";"; "#"; "010"]%char.

Lemma separator_special c : c ∈ part_separators → query_special c = true ∧ no_byte c "=" = true.
Proof.
  unfold part_separators. intros Hc. repeat (apply elem_of_cons in Hc as [->|Hc]; [done|]). by apply elem_of_nil in Hc.
Qed.

Lemma encode_part_free c kv : c ∈ part_separators → no_byte c (encode_part kv) = true.
Proof.
  intros [Hc Heq]%separator_special. unfold encode_part. rewrite !no_byte_app, Heq.
  by rewrite !(free_of_no_byte query_special c) by (done || apply query_escape_free).
Qed.

Lemma parse_encode_part kv : parse_part (encode_part kv) = Some kv.
Proof.
  unfold parse_part. rewrite encode_part_free by (unfold part_separators; set_solver).
  assert ((encode_part kv =? "")%string = false) as ->.
  { apply String.eqb_neq. unfold encode_part. by destruct (query_escape kv.1). }
  cbn [orb negb]. unfold encode_part at 2. rewrite cut_escaped by apply query_escape_free. cbn.
  rewrite !query_unescape_escape. by destruct kv.
Qed.

Lemma string_split_query {A} (part : A → string) l :
  (∀ x, no_byte "&" (part x) = true) → l ≠ [] → string_split "&" (string_join "&" (part <$> l)) = part <$> l.
Proof.
  intros Hpart Hl. apply string_split_join; [by destruct l|]. apply Forall_fmap, Forall_true. done.
Qed.

(** What a query string encodes is read back, whatever the texts hold. *)
Lemma parse_query_encode (q : Values) : (∀ k, q !! k ≠ Some []) → parse_query (values_encode q) = q.
Proof.
  intros Hne. unfold parse_query, values_encode.
  assert (omap parse_part (string_split "&" (string_join "&" (encode_part <$> pairs_by id q))) = pairs_by id q) as ->.
  { destruct (decide (pairs_by id q = [])) as [->|Hl]; [done|].
    rewrite string_split_query; [|intros kv; apply encode_part_free; unfold part_separators; set_solver|done].
    clear. induction (pairs_by id q) as [|kv l IH]; [done|]. rewrite fmap_cons. cbn [omap list_omap]. rewrite parse_encode_part. f_equal. exact IH. }
  apply map_eq. intros k. rewrite fold_add_lookup, values_of_pairs_by, lookup_empty by done. simpl.
  specialize (Hne k). destruct (q !! k) as [[|v vs]|]; done.
Qed.

#[global] Instance canonical_part_inj : Inj (=) (=) canonical_part.
Proof.
  intros x y H. unfold canonical_part in H. apply (f_equal (λ s, string_cut s "=")) in H.
  rewrite !cut_escaped in H by apply aws_escape_free. injection H as H1 H2.
  apply awsQueryEscape_inj in H1, H2. destruct x, y. by simplify_eq/=.
Qed.

Lemma canonical_part_free c kv : c ∈ part_separators → no_byte c (canonical_part kv) = true.
Proof.
  intros [Hc Heq]%separator_special. unfold canonical_part. rewrite !no_byte_app, Heq.
  by rewrite !(free_of_no_byte query_special c) by (done || apply aws_escape_free).
Qed.

(** The canonical query string determines every key's values up to order. *)
Lemma canonicalQueryString_inj (q1 q2 : Values) k :
  canonicalQueryString q1 = canonicalQueryString q2 → default [] (q1 !! k) ≡ₚ default [] (q2 !! k).
Proof.
  intros H. unfold canonicalQueryString in H.
  assert (pairs_by sort_strings q1 = pairs_by sort_strings q2) as Hp.
  { apply (inj (fmap canonical_part)).
    apply (f_equal (string_split "&")) in H.
    assert (∀ kv, no_byte "&" (canonical_part kv) = true) as Hfree by (intros; apply canonical_part_free; unfold part_separators; set_solver).
    assert (∀ l, string_split "&" (string_join "&" (canonical_part <$> l)) = [""%string] → l = []) as Hempty.
    { intros [|x l] Hx; [done|]. rewrite string_split_query in Hx by done. rewrite fmap_cons in Hx. injection Hx as Hx _.
      unfold canonical_part in Hx. by destruct (awsQueryEscape x.1). }
    destruct (pairs_by sort_strings q1) as [|x l1]; [symmetry in H; apply Hempty in H; by rewrite H|].
    destruct (pairs_by sort_strings q2) as [|y l2]; [apply Hempty in H; by rewrite H|].
    by rewrite !string_split_query in H. }
  apply (f_equal (values_of k)) in Hp. rewrite !values_of_pairs_by in Hp by done. by apply sort_strings_unique.
Qed.

(** It holds no line break. *)
Lemma canonicalQueryString_line q : no_byte "010" (canonicalQueryString q) = true.
Proof.
  unfold canonicalQueryString. assert (∀ kv, no_byte "010" (canonical_part kv) = true) as Hfree
    by (intros; apply canonical_part_free; unfold part_separators; set_solver).
  induction (pairs_by sort_strings q) as [|x [|y l] IH]; [done| |].
  - apply Hfree.
  - rewrite !fmap_cons, string_join_cons, !no_byte_app, Hfree in *. done.
Qed.

(** ** Paths *)

(** [url.PathEscape] *)
Definition path_escape_byte (a : ascii) : string :=
  let b := byte_of a in
  if (48 <=? b) && (b <=? 57) || (65 <=? b) && (b <=? 90) || (97 <=? b) && (b <=? 122)
     || existsb (Ascii.eqb a) (list_ascii_of_string "-_.~$&+=:@") then String a ""
  else "%" +:+ upper_ascii (hex_text [b]).

Definition path_escape (s : string) : string := String.concat "" (path_escape_byte <$> list_ascii_of_string s).

Definition escapeS3Key (key : string) : string := string_join "/" (path_escape <$> string_split "/" (trim_byte "/" key)).

(** The path of a URL as [String] writes it: [escape(path, encodePath)]. *)
Definition encode_path_byte (a : ascii) : string :=
  let b := byte_of a in
  if (48 <=? b) && (b <=? 57) || (65 <=? b) && (b <=? 90) || (97 <=? b) && (b <=? 122)
     || existsb (Ascii.eqb a) (list_ascii_of_string "-_.~$&+,/:;=@")
  then String a "" else "%" +:+ upper_ascii (hex_text [b]).

Definition encode_path (s : string) : string := String.concat "" (encode_path_byte <$> list_ascii_of_string s).
