(* ===== verification/Stamp.v ===== *)
(** The compact time stamps of AWS Signature Version 4: [time.Format] and
    [time.Parse] with the layout 20060102T150405Z, and the calendar they need
    in the other direction. *)
From S2P Require Import Prelude GoTime Text.

(** The day number of a calendar date, from 0001-01-01. *)
Definition days_of_civil (c : civil) : Z :=
  let y := if cv_month c <=? 2 then cv_year c - 1 else cv_year c in
  let era := y `div` 400 in
  let yoe := y `mod` 400 in
  let doy := (153 * ((cv_month c + 9) `mod` 12) + 2) `div` 5 + cv_day c - 1 in
  era * 146097 + (yoe * 365 + yoe `div` 4 - yoe `div` 100 + doy) - 306.

Definition leap_year (y : Z) : bool := (y `mod` 4 =? 0) && (negb (y `mod` 100 =? 0) || (y `mod` 400 =? 0)).

Definition days_in (month year : Z) : Z :=
  if month =? 2 then (if leap_year year then 29 else 28)
  else if existsb (Z.eqb month) [4; 6; 9; 11] then 30 else 31.

(** [t.Format("20060102")] and [t.Format("20060102T150405Z")] of a UTC time. *)
Definition date_stamp (t : Time) : string :=
  let c := civil_of_days (time_days t) in
  year_text (cv_year c) +:+ padded 2 (cv_month c) +:+ padded 2 (cv_day c).

Definition time_stamp (t : Time) : string :=
  let sod := time_sod t in
  date_stamp t +:+ "T" +:+ padded 2 (sod `div` 3600) +:+ padded 2 ((sod `div` 60) `mod` 60) +:+ padded 2 (sod `mod` 60) +:+ "Z".

(** Exactly [n] digits. *)
Fixpoint take_number (n : nat) (acc : Z) (s : string) : option (Z * string) :=
  match n with
  | O => Some (acc, s)
  | S n =>
      match s with
      | String a s' => match digit_of a with Some d => take_number n (acc * 10 + d) s' | None => None end
      | ""%string => None
      end
  end.

(** Any number of digits, and how many there were. *)
Fixpoint take_digits (s : string) : list Z * string :=
  match s with
  | String a s' => match digit_of a with Some d => let '(l, r) := take_digits s' in (d :: l, r) | None => ([], s) end
  | ""%string => ([], s)
  end.

(** The fraction that [time.Parse] accepts after the seconds although the
    layout has none: a dot or a comma and digits, of which nine count. *)
Definition take_fraction (s : string) : Z * string :=
  match s with
  | String p s' =>
      if Ascii.eqb p "." || Ascii.eqb p "," then
        match take_digits s' with
        | ([], _) => (0, s)
        | (l, rest) => (fold_left (λ acc d, acc * 10 + d) (take 9 (l ++ replicate 9 0)) 0, rest)
        end
      else (0, s)
  | ""%string => (0, s)
  end.

Definition expect (c : ascii) (s : string) : option string :=
  match s with String a s' => if ascii_dec a c then Some s' else None | ""%string => None end.

(** [time.Parse("20060102T150405Z", s)]; [None] is an error. *)
Definition parse_stamp (s : string) : option Time :=
  '(year, s) ← take_number 4 0 s;
  '(month, s) ← take_number 2 0 s;
  '(day_, s) ← take_number 2 0 s;
  s ← expect "T" s;
  '(h, s) ← take_number 2 0 s;
  '(m, s) ← take_number 2 0 s;
  '(sec, s) ← take_number 2 0 s;
  let '(nsec, s) := take_fraction s in
  s ← expect "Z" s;
  if negb (s =? "")%string || (month <? 1) || (12 <? month) || (24 <=? h) || (60 <=? m) || (60 <=? sec)
     || (day_ <? 1) || (days_in month year <? day_) then None
  else Some ((days_of_civil (MkCivil year month day_) * 86400 + h * 3600 + m * 60 + sec) * second + nsec).

Example parse_stamp_ex : parse_stamp "20240229T235959Z" = Some (63844847999 * second).
Proof. vm_compute. reflexivity. Qed.
Example parse_stamp_day : parse_stamp "20230229T000000Z" = None. Proof. vm_compute. reflexivity. Qed.
Example parse_stamp_fraction : parse_stamp "00010101T000000.25Z" = Some 250000000. Proof. vm_compute. reflexivity. Qed.

(** ** Formatting is read back *)

Ltac zdiv := Z.to_euclidean_division_equations; lia.

(** Decides a closed condition. *)
Ltac compute_if := match goal with |- context [if ?b then _ else _] => let v := eval vm_compute in b in change b with v; cbv iota end.

(** The year of an era that a day falls in, and the day of that year: a year
    that starts in March has a day 365 only when the next February has 29. *)
Section era.
Context (doe : Z) (Hdoe : 0 ≤ doe < 146097).
Let yoe := (doe - doe `div` 1460 + doe `div` 36524 - doe `div` 146096) `div` 365.
Let doy := doe - (365 * yoe + yoe `div` 4 - yoe `div` 100).

Lemma yoe_range : 0 ≤ yoe < 400.
Proof using Hdoe. unfold yoe. zdiv. Qed.

Lemma doy_range : 0 ≤ doy ≤ 365.
Proof using Hdoe. unfold doy, yoe. zdiv. Qed.

Lemma doy_leap : doy = 365 → (yoe + 1) `mod` 4 = 0 ∧ ((yoe + 1) `mod` 100 ≠ 0 ∨ (yoe + 1) `mod` 400 = 0).
Proof using Hdoe.
  pose proof yoe_range. unfold doy, yoe in *. intros E. split; [zdiv|].
  destruct (decide (((doe - doe `div` 1460 + doe `div` 36524 - doe `div` 146096) `div` 365 + 1) `mod` 400 = 0)); [by right|left].
  intros E100. zdiv.
Qed.
End era.

(** The calendar and its inverse, and the ranges of its fields. *)
Lemma civil_of_days_spec d :
  let c := civil_of_days d in
  days_of_civil c = d ∧ 1 ≤ cv_month c ≤ 12 ∧ 1 ≤ cv_day c ≤ days_in (cv_month c) (cv_year c).
Proof.
  cbv zeta. unfold civil_of_days. cbv zeta. set (doe := (d + 306) `mod` 146097).
  assert (0 ≤ doe < 146097) as Hdoe by (unfold doe; apply Z.mod_pos_bound; lia).
  pose proof (yoe_range doe Hdoe) as Hyoe. pose proof (doy_range doe Hdoe) as Hdoy. pose proof (doy_leap doe Hdoe) as Hleap.
  set (yoe := (doe - doe `div` 1460 + doe `div` 36524 - doe `div` 146096) `div` 365) in *.
  set (doy := doe - (365 * yoe + yoe `div` 4 - yoe `div` 100)) in *.
  assert (d = (d + 306) `div` 146097 * 146097 + doe - 306) as Hd by (unfold doe; zdiv).
  assert (0 ≤ (5 * doy + 2) `div` 153 ≤ 11) as Hmp by zdiv.
  assert (1 ≤ doy - (153 * ((5 * doy + 2) `div` 153) + 2) `div` 5 + 1) as Hday by zdiv.
  set (mp := (5 * doy + 2) `div` 153) in *. set (era := (d + 306) `div` 146097) in *.
  cbn [cv_year cv_month cv_day]. split_and!.
  - unfold days_of_civil. cbn [cv_year cv_month cv_day].
    assert ((if (if mp <? 10 then mp + 3 else mp - 9) <=? 2
             then yoe + era * 400 + (if (if mp <? 10 then mp + 3 else mp - 9) <=? 2 then 1 else 0) - 1
             else yoe + era * 400 + (if (if mp <? 10 then mp + 3 else mp - 9) <=? 2 then 1 else 0)) = yoe + era * 400) as ->
      by (repeat case_match; lia).
    rewrite Z.mod_add, Z.div_add, (Z.mod_small yoe), (Z.div_small yoe) by lia.
    assert (((if mp <? 10 then mp + 3 else mp - 9) + 9) `mod` 12 = mp) as -> by (case_match; zdiv).
    unfold doy in *. lia.
  - case_match; lia.
  - case_match; lia.
  - done.
  - unfold days_in. destruct (Z.ltb_spec mp 10) as [Hlt|Hge].
    + assert ((mp + 3 <=? 2) = false) as -> by lia. assert ((mp + 3 =? 2) = false) as -> by lia.
      assert (mp = 0 ∨ mp = 1 ∨ mp = 2 ∨ mp = 3 ∨ mp = 4 ∨ mp = 5 ∨ mp = 6 ∨ mp = 7 ∨ mp = 8 ∨ mp = 9) as Hcase by lia.
      unfold mp in *. destruct Hcase as [E|[E|[E|[E|[E|[E|[E|[E|[E|E]]]]]]]]]; rewrite E; cbn [existsb]; compute_if; zdiv.
    + assert ((mp - 9 <=? 2) = true) as -> by lia. cbv iota.
      assert (mp = 10 ∨ mp = 11) as [E|E] by lia; rewrite E; cbn [existsb]; unfold mp in E; [repeat compute_if; zdiv|].
      change (11 - 9 =? 2) with true. cbv iota.
      destruct (decide (doy = 365)) as [H365|]; [|unfold leap_year; case_match; zdiv].
      assert (leap_year (yoe + era * 400 + 1) = true) as ->; [|zdiv].
      destruct (Hleap H365) as [H4 H100]. unfold leap_year.
      replace (yoe + era * 400 + 1) with (yoe + 1 + (100 * era) * 4) at 1 by lia.
      replace (yoe + era * 400 + 1) with (yoe + 1 + (4 * era) * 100) at 1 by lia.
      replace (yoe + era * 400 + 1) with (yoe + 1 + era * 400) by lia.
      rewrite !Z.mod_add by lia. lia.
Qed.

Lemma digit_of_digit z : 0 ≤ z < 10 → digit_of (ascii_of_N (48 + Z.to_N z)) = Some z.
Proof.
  intros Hz. unfold digit_of, byte_of. rewrite N_ascii_embedding by lia.
  assert (Z.of_N (48 + Z.to_N z) = 48 + z) as -> by lia. rewrite andb_true_intro by lia. f_equal. lia.
Qed.

Lemma padded_length n z : String.length (padded n z) = n.
Proof.
  unfold padded. revert z. induction n as [|n IH]; intros z; [done|]. cbn [pad_digits].
  rewrite string_of_list_app, string_length_app, IH. simpl. lia.
Qed.

Lemma padded_S n z : padded (S n) z = padded n (z `div` 10) +:+ String (ascii_of_N (48 + Z.to_N (z `mod` 10))) "".
Proof. unfold padded. cbn [pad_digits]. by rewrite string_of_list_app. Qed.

Lemma take_number_app n m acc s : take_number (n + m) acc s = '(z, s) ← take_number n acc s; take_number m z s.
Proof.
  revert acc s. induction n as [|n IH]; intros acc s; [done|]. cbn [take_number Nat.add].
  destruct s as [|a s]; [done|]. destruct (digit_of a) as [d|]; [|done]. apply IH.
Qed.

Lemma take_number_padded n acc z rest : 0 ≤ z < 10 ^ Z.of_nat n →
  take_number n acc (padded n z +:+ rest) = Some (acc * 10 ^ Z.of_nat n + z, rest).
Proof.
  revert acc z rest. induction n as [|n IH]; intros acc z rest Hz.
  - simpl in *. cbn. f_equal. f_equal. lia.
  - rewrite padded_S, <- append_assoc. replace (S n) with (n + 1)%nat at 1 by lia. rewrite take_number_app.
    rewrite Nat2Z.inj_succ, Z.pow_succ_r in * by lia.
    rewrite IH by (split; [apply Z.div_pos|apply Z.div_lt_upper_bound]; lia).
    cbn [mbind option_bind]. rewrite append_cons. cbn [take_number].
    rewrite digit_of_digit by (apply Z.mod_pos_bound; lia). f_equal. f_equal.
    pose proof (Z.div_mod z 10 ltac:(lia)). lia.
Qed.

(** Years the layout can show. *)
Definition year_shown (t : Time) : Prop := 0 ≤ cv_year (civil_of_days (time_days t)) < 10000.

(** [time.Parse] reads back what [time.Format] writes, to the second. *)
Lemma parse_time_stamp t : year_shown t → parse_stamp (time_stamp t) = Some (t `div` second * second).
Proof.
  intros Hy. unfold time_stamp, date_stamp, parse_stamp.
  pose proof (civil_of_days_spec (time_days t)) as (Hd & Hm & Hday).
  assert (cv_day (civil_of_days (time_days t)) ≤ 31) as Hday'.
  { etrans; [apply Hday|]. unfold days_in. repeat case_match; lia. }
  unfold year_shown in Hy. set (c := civil_of_days (time_days t)) in *.
  assert (0 ≤ time_sod t < 86400) as Hs by (unfold time_sod; apply Z.mod_pos_bound; lia).
  set (sod := time_sod t) in *.
  assert (0 ≤ sod `div` 3600 < 24) as Hh by (split; [apply Z.div_pos|apply Z.div_lt_upper_bound]; lia).
  assert (0 ≤ (sod `div` 60) `mod` 60 < 60) as Hmi by (apply Z.mod_pos_bound; lia).
  assert (0 ≤ sod `mod` 60 < 60) as Hse by (apply Z.mod_pos_bound; lia).
  unfold year_text. rewrite (proj2 (Z.ltb_lt _ _)) by lia.
  rewrite <- !append_assoc.
  rewrite (take_number_padded 4) by (simpl Z.of_nat; lia). cbn [mbind option_bind].
  rewrite (take_number_padded 2) by (simpl Z.of_nat; lia). cbn [mbind option_bind].
  rewrite (take_number_padded 2) by (simpl Z.of_nat; lia). cbn [mbind option_bind].
  rewrite append_cons, append_nil_l. change (expect "T" (String "T" ?s)) with (Some s). cbn [mbind option_bind].
  rewrite (take_number_padded 2) by (simpl Z.of_nat; lia). cbn [mbind option_bind].
  rewrite (take_number_padded 2) by (simpl Z.of_nat; lia). cbn [mbind option_bind].
  rewrite (take_number_padded 2) by (simpl Z.of_nat; lia). cbn [mbind option_bind].
  change (take_fraction "Z") with (0, "Z"). cbn [expect mbind option_bind]. change (expect "Z" "Z") with (Some "").
  cbn [mbind option_bind]. rewrite !Z.mul_0_l, !Z.add_0_l.
  assert (MkCivil (cv_year c) (cv_month c) (cv_day c) = c) as -> by (by destruct c). rewrite Hd.
  repeat match goal with |- context [?x <? ?y] => rewrite (proj2 (Z.ltb_ge x y)) by lia end.
  repeat match goal with |- context [?x <=? ?y] => rewrite (proj2 (Z.leb_gt x y)) by lia end.
  cbn -[Z.mul Z.add Z.div Z.modulo second]. f_equal. unfold time_days, sod, time_sod. rewrite Z.add_0_r. f_equal.
  generalize (t `div` second). intros q. zdiv.
Qed.

Lemma parse_stamp_year t : year_shown t → is_Some (parse_stamp (time_stamp t)).
Proof. intros H. rewrite parse_time_stamp by done. by eexists. Qed.

(** The date of a stamp is the one of its second. *)
Lemma date_stamp_second t : date_stamp (t `div` second * second) = date_stamp t.
Proof. unfold date_stamp, time_days. by rewrite Z.div_mul by done. Qed.

(** A stamp has no line break, no slash and no comma. *)
Lemma padded_free P n z : (∀ d, 0 ≤ d < 10 → P (ascii_of_N (48 + Z.to_N d)) = false) → free_of P (padded n z) = true.
Proof.
  intros HP. revert z. induction n as [|n IH]; intros z; [done|]. rewrite padded_S, free_of_app, IH. cbn.
  rewrite HP; [done|]. apply Z.mod_pos_bound. lia.
Qed.

Lemma padded_no_byte c n z : c ∈ ["010"; "/"; ","]%char → no_byte c (padded n z) = true.
Proof.
  intros Hc. apply padded_free. intros d Hd.
  assert (d = 0 ∨ d = 1 ∨ d = 2 ∨ d = 3 ∨ d = 4 ∨ d = 5 ∨ d = 6 ∨ d = 7 ∨ d = 8 ∨ d = 9) as Hcase by lia.
  apply elem_of_cons in Hc as [->|Hc]; [|apply elem_of_cons in Hc as [->|Hc]; [|apply list_elem_of_singleton in Hc as ->]];
    repeat (destruct Hcase as [->|Hcase]; [done|]); by subst.
Qed.

Lemma date_stamp_no_byte c t : c ∈ ["010"; "/"; ","]%char → year_shown t → no_byte c (date_stamp t) = true.
Proof.
  intros Hc Hy. unfold date_stamp, year_text. unfold year_shown in Hy. rewrite (proj2 (Z.ltb_lt _ _)) by lia.
  by rewrite !no_byte_app, !padded_no_byte.
Qed.

Lemma time_stamp_no_line t : year_shown t → no_byte "010" (time_stamp t) = true.
Proof.
  intros Hy. unfold time_stamp. rewrite !no_byte_app, date_stamp_no_byte, !padded_no_byte by (done || set_solver). done.
Qed.
