(* ===== verification/Http.v ===== *)
(** [net/http] as far as the gateway reads it: header names, requests and
    responses. *)
From S2P Require Import Prelude Sha256 Json GoTime Text Url Stamp.

(** [http.CanonicalHeaderKey]: left alone unless every byte is a token byte. *)
Definition token_byte (a : ascii) : bool :=
  let b := byte_of a in
  (48 <=? b) && (b <=? 57) || (65 <=? b) && (b <=? 90) || (97 <=? b) && (b <=? 122)
  || existsb (Ascii.eqb a) (list_ascii_of_string "!#$%&'*+-.^_`|~").

Fixpoint canonical_bytes (upper : bool) (l : list ascii) : list ascii :=
  match l with
  | [] => []
  | a :: l => (if upper then upper_byte a else lower_byte a) :: canonical_bytes (Ascii.eqb a "-") l
  end.

Definition canonical_header_key (s : string) : string :=
  let l := list_ascii_of_string s in
  if forallb token_byte l then string_of_list_ascii (canonical_bytes true l) else s.

(** A header as the server delivers it: canonical names, each with its values. *)
Definition header_get (h : Values) (name : string) : string := values_get h (canonical_header_key name).

(** [http.Request]. The body is given to the handlers apart, as each reads it
    in its own way. *)
Record Request : Type := MkRequest {
  rq_Method : string;
  rq_Host : string;
  rq_Path : string;            (* URL.Path, decoded *)
  rq_EscapedPath : string;     (* URL.EscapedPath() *)
  rq_RawQuery : string;
  rq_Header : Values;
  rq_ContentLength : Z }.
#[global] Instance Request_settable : Settable Request := settable! MkRequest
  < rq_Method ; rq_Host ; rq_Path ; rq_EscapedPath ; rq_RawQuery ; rq_Header ; rq_ContentLength >.

(** [r.URL.Query()] and [r.Header.Get(name)] *)
Definition rq_Query (r : Request) : Values := parse_query (rq_RawQuery r).
Definition rq_header (r : Request) (name : string) : string := header_get (rq_Header r) name.

(** [url.URL] as far as presigning goes: what is on the wire. *)
Record URL : Type := MkURL { u_Host : string; u_EscapedPath : string; u_RawQuery : string }.

(** [url.Parse]: scheme, host, the path decoded and as [EscapedPath] gives it,
    and the query. *)
Record ParsedURL : Type := MkParsedURL {
  pu_Scheme : string; pu_Host : string; pu_Path : string; pu_EscapedPath : string; pu_RawQuery : string }.

(** [http.NewRequest] accepts a method of token bytes; the empty one is GET. *)
Definition valid_method (method : string) : bool := forallb token_byte (list_ascii_of_string method).
Definition new_request (method : string) (u : URL) : option Request :=
  let method := if (method =? "")%string then "GET" else method in
  if valid_method method
  then Some (MkRequest method (trim_suffix (u_Host u) ":") "" (u_EscapedPath u) (u_RawQuery u) ∅ 0)
  else None.

(** ** Laws *)

Lemma parse_query_nonempty s k : parse_query s !! k ≠ Some [].
Proof.
  unfold parse_query. rewrite fold_add_lookup, lookup_empty. destruct (values_of k (omap parse_part (string_split "&" s))); [done|by intros [=]].
Qed.

(** Decimal text is read back. *)
Lemma parse_digits_snoc acc s a : parse_digits acc (s +:+ String a "") =
  match parse_digits acc s with Some z => match digit_of a with Some d => Some (z * 10 + d) | None => None end | None => None end.
Proof.
  revert acc. induction s as [|b s IH]; intros acc; [rewrite append_nil_l; cbn; by destruct (digit_of a)|].
  rewrite append_cons. cbn [parse_digits]. destruct (digit_of b); [apply IH|done].
Qed.

Lemma digits_rev_parse fuel z : 0 ≤ z < 2 ^ Z.of_nat fuel → (0 < fuel)%nat →
  parse_digits 0 (string_of_list_ascii (rev (digits_rev fuel z))) = Some z.
Proof.
  revert z. induction fuel as [|fuel IH]; intros z Hz Hf; [lia|]. cbn [digits_rev rev].
  rewrite string_of_list_app. cbn [string_of_list_ascii].
  rewrite parse_digits_snoc, digit_of_digit by (apply Z.mod_pos_bound; lia).
  destruct (Z.ltb_spec z 10) as [Hlt|Hge].
  - cbn. f_equal. rewrite Z.mod_small by lia. lia.
  - rewrite Nat2Z.inj_succ, Z.pow_succ_r in Hz by lia. rewrite IH.
    + f_equal. pose proof (Z.div_mod z 10 ltac:(lia)). lia.
    + split; [apply Z.div_pos; lia|]. apply Z.div_lt_upper_bound; lia.
    + destruct fuel; [simpl in Hz; lia|lia].
Qed.

Lemma nat_text_shape z : 0 ≤ z → ∃ a s, nat_text z = String a s ∧ is_Some (digit_of a).
Proof.
  intros Hz. unfold nat_text. set (n := Z.to_nat (Z.log2 z)).
  assert (∀ fuel z, (0 < fuel)%nat → 0 ≤ z → ∃ a s, string_of_list_ascii (rev (digits_rev fuel z)) = String a s ∧ is_Some (digit_of a)) as H.
  { induction fuel as [|fuel IH]; intros x Hf Hx; [lia|]. cbn [digits_rev rev].
    destruct (Z.ltb_spec x 10) as [Hlt|Hge].
    - eexists _, _. split; [reflexivity|]. rewrite digit_of_digit by (apply Z.mod_pos_bound; lia). by eexists.
    - destruct fuel as [|fuel].
      + eexists _, _. split; [reflexivity|]. rewrite digit_of_digit by (apply Z.mod_pos_bound; lia). by eexists.
      + destruct (IH (x `div` 10)) as (a & s & Hs & Ha); [lia|apply Z.div_pos; lia|].
        rewrite string_of_list_app, Hs. rewrite append_cons. by eexists _, _. }
  apply H; lia.
Qed.

Lemma parse_int64_itoa z : 0 ≤ z ≤ int64_max → parse_int64 (itoa z) = Some z.
Proof.
  intros Hz. unfold itoa. rewrite (proj2 (Z.ltb_ge z 0)) by lia.
  destruct (nat_text_shape z) as (a & s & Hs & d & Ha); [lia|].
  assert (parse_digits 0 (nat_text z) = Some z) as Hp.
  { apply digits_rev_parse; [|lia]. rewrite Nat2Z.inj_succ, Z2Nat.id by apply Z.log2_nonneg.
    split; [lia|]. destruct (Z.eq_dec z 0) as [->|]; [done|]. apply Z.log2_spec. lia. }
  assert (parse_magnitude (nat_text z) = Some z) as Hm by (rewrite Hs in *; done).
  unfold parse_int64. rewrite Hs in *.
  assert ((match String a s with
           | String "-" s' => Z.opp <$> parse_magnitude s' | String "+" s' => parse_magnitude s'
           | _ => parse_magnitude (String a s) end) = Some z) as ->.
  { rewrite <- Hm. revert Ha. clear. all_bytes a; done. }
  unfold in_int64b, int64_min. rewrite andb_true_intro by lia. done.
Qed.
