(* ===== verification/HttpDate.v ===== *)
(** Dates of requests: [http.ParseTime] with its three layouts, and RFC 3339,
    with as much of [time.Parse] as they use. *)
From S2P Require Import Prelude Sha256 Json GoTime Text Stamp.

(** A reader of the front of a text. *)
Definition parse (A : Type) : Type := string → option (A * string).

(** Layout text: a run of spaces matches any run of spaces. *)
Fixpoint skip_spaces (s : string) : string :=
  match s with String a s' => if Ascii.eqb a " " then skip_spaces s' else s | _ => s end.

Fixpoint skip (prefix : string) (s : string) : option string :=
  match prefix with
  | ""%string => Some s
  | String p prefix' =>
      if Ascii.eqb p " " then
        match s with
        | String a _ => if Ascii.eqb a " " then skip prefix' (skip_spaces s) else None
        | _ => skip prefix' s
        end
      else match s with
           | String a s' => if Ascii.eqb a p then skip prefix' s' else None
           | _ => None
           end
  end.

(** [getnum]: one or two digits, or exactly two. *)
Definition getnum (fixed : bool) : parse Z := λ s,
  match s with
  | String a s' =>
      match digit_of a with
      | None => None
      | Some d =>
          match s' with
          | String b s'' =>
              match digit_of b with
              | Some e => Some (d * 10 + e, s'')
              | None => if fixed then None else Some (d, s')
              end
          | _ => if fixed then None else Some (d, s')
          end
      end
  | _ => None
  end.

(** [lookup]: a name at the front, without regard to case. *)
Fixpoint has_name (name s : string) : bool :=
  match name, s with
  | ""%string, _ => true
  | String a name, String b s => Ascii.eqb (lower_byte a) (lower_byte b) && has_name name s
  | _, _ => false
  end.

Fixpoint lookup_name (i : Z) (names : list string) : parse Z := λ s,
  match names with
  | [] => None
  | name :: names => if has_name name s then Some (i, string_drop (String.length name) s) else lookup_name (i + 1) names s
  end.

Definition short_months : list string := ["Jan"; "Feb"; "Mar"; "Apr"; "May"; "Jun"; "Jul"; "Aug"; "Sep"; "Oct"; "Nov"; "Dec"].
Definition short_days : list string := ["Sun"; "Mon"; "Tue"; "Wed"; "Thu"; "Fri"; "Sat"].
Definition long_days : list string := ["Sunday"; "Monday"; "Tuesday"; "Wednesday"; "Thursday"; "Friday"; "Saturday"].

Record date_fields : Type := MkDateFields { df_year : Z; df_month : Z; df_day : Z; df_hour : Z; df_min : Z; df_sec : Z; df_nsec : Z }.

(** The instant, when every field is in range. *)
Definition date_time (f : date_fields) : option Time :=
  if (24 <=? df_hour f) || (60 <=? df_min f) || (60 <=? df_sec f)
     || (df_day f <? 1) || (days_in (df_month f) (df_year f) <? df_day f) then None
  else Some ((days_of_civil (MkCivil (df_year f) (df_month f) (df_day f)) * 86400
              + df_hour f * 3600 + df_min f * 60 + df_sec f) * second + df_nsec f).

(** ["15:04:05"] and the fraction the layout does not mention. *)
Definition clock_text (s : string) : option (Z * Z * Z * Z * string) :=
  '(h, s) ← getnum false s;
  s ← skip ":" s;
  '(m, s) ← getnum true s;
  s ← skip ":" s;
  '(sec, s) ← getnum true s;
  let '(nsec, s) := take_fraction s in
  Some (h, m, sec, nsec, s).

(** ["Mon, 02 Jan 2006 15:04:05 GMT"] *)
Definition parse_rfc1123_gmt (s : string) : option Time :=
  '(_, s) ← lookup_name 0 short_days s;
  s ← skip ", " s;
  '(day, s) ← getnum true s;
  s ← skip " " s;
  '(month, s) ← lookup_name 1 short_months s;
  s ← skip " " s;
  '(year, s) ← take_number 4 0 s;
  s ← skip " " s;
  '(h, m, sec, nsec, s) ← clock_text s;
  s ← skip " GMT" s;
  if (s =? "")%string then date_time (MkDateFields year month day h m sec nsec) else None.

(** The two characters of a year: a sign counts as one. *)
Definition short_year (s : string) : option (Z * string) :=
  match s with
  | String a (String b s') =>
      '(hold : Z) ← match digit_of a, digit_of b with
              | Some d, Some e => Some (d * 10 + e)
              | None, Some e => if Ascii.eqb a "-" then Some (- e) else if Ascii.eqb a "+" then Some e else None
              | _, _ => None
              end;
      Some (if 69 <=? hold then hold + 1900 else hold + 2000, s')
  | _ => None
  end.

Definition upper_letters (l : list ascii) : nat :=
  (fix count (l : list ascii) : nat :=
     match l with
     | a :: l => if (65 <=? byte_of a) && (byte_of a <=? 90) then S (count l) else O
     | [] => O
     end) l.

(** [parseSignedOffset]: how long a signed hour is, 0 when there is none. *)
Definition signed_offset (s : string) : nat :=
  match s with
  | String a s' =>
      if Ascii.eqb a "+" || Ascii.eqb a "-" then
        match take_digits s' with
        | ([], _) => O
        | (l, _) => if 23 <? fold_left (λ acc d, acc * 10 + d) l 0 then O else S (List.length l)
        end
      else O
  | _ => O
  end.

(** [parseTimeZone]: the length of the zone's name. *)
Definition zone_length (s : string) : option nat :=
  if Nat.ltb (String.length s) 3 then None
  else if has_prefix s "ChST" || has_prefix s "MeST" then Some 4%nat
  else if has_prefix s "GMT" then Some (3 + signed_offset (string_drop 3 s))%nat
  else if has_prefix s "+" || has_prefix s "-"
  then match signed_offset s with O => None | n => Some n end
  else match upper_letters (take 6 (list_ascii_of_string s)) with
       | 3%nat => Some 3%nat
       | 4%nat => if bool_decide (list_ascii_of_string s !! 3%nat = Some "T"%char) || has_prefix s "WITA" then Some 4%nat else None
       | 5%nat => if bool_decide (list_ascii_of_string s !! 4%nat = Some "T"%char) then Some 5%nat else None
       | _ => None
       end.

(** ["Monday, 02-Jan-06 15:04:05 MST"]; [local] is the offset in seconds that a
    zone abbreviation has in the local time zone at an instant. A name it does
    not know does not move the instant. *)
Definition parse_rfc850 (local : string → Time → option Z) (s : string) : option Time :=
  '(_, s) ← lookup_name 0 long_days s;
  s ← skip ", " s;
  '(day, s) ← getnum true s;
  s ← skip "-" s;
  '(month, s) ← lookup_name 1 short_months s;
  s ← skip "-" s;
  '(year, s) ← short_year s;
  s ← skip " " s;
  '(h, m, sec, nsec, s) ← clock_text s;
  s ← skip " " s;
  let utc := has_prefix s "UTC" in
  n ← if utc then Some 3%nat else zone_length s;
  if negb (string_drop n s =? "")%string then None
  else
    t ← date_time (MkDateFields year month day h m sec nsec);
    Some (if utc then t
          else match local (string_take n s) t with Some offset => t - offset * second | None => t end).

(** ["Mon Jan _2 15:04:05 2006"] *)
Definition parse_ansic (s : string) : option Time :=
  '(_, s) ← lookup_name 0 short_days s;
  s ← skip " " s;
  '(month, s) ← lookup_name 1 short_months s;
  s ← skip " " s;
  let s := match s with String a s' => if Ascii.eqb a " " then s' else s | _ => s end in
  '(day, s) ← getnum false s;
  s ← skip " " s;
  '(h, m, sec, nsec, s) ← clock_text s;
  s ← skip " " s;
  '(year, s) ← take_number 4 0 s;
  if (s =? "")%string then date_time (MkDateFields year month day h m sec nsec) else None.

(** ["Z07:00"]: the offset in seconds. *)
Definition zone_offset (s : string) : option (Z * string) :=
  match s with
  | String a s' =>
      if Ascii.eqb a "Z" then Some (0, s')
      else if Ascii.eqb a "+" || Ascii.eqb a "-" then
        '(h, s) ← take_number 2 0 s';
        s ← expect ":" s;
        '(m, s) ← take_number 2 0 s;
        if (24 <? h) || (60 <? m) then None
        else let offset := (h * 60 + m) * 60 in Some (if Ascii.eqb a "-" then - offset else offset, s)
      else None
  | _ => None
  end.

(** [time.Parse(time.RFC3339, s)] and its inverse for a UTC time. *)
Definition parse_rfc3339 (s : string) : option Time :=
  '(year, s) ← take_number 4 0 s;
  s ← expect "-" s;
  '(month, s) ← take_number 2 0 s;
  s ← expect "-" s;
  '(day, s) ← take_number 2 0 s;
  s ← expect "T" s;
  '(h, m, sec, nsec, s) ← clock_text s;
  '(offset, s) ← zone_offset s;
  if negb (s =? "")%string || (month <? 1) || (12 <? month) then None
  else t ← date_time (MkDateFields year month day h m sec nsec); Some (t - offset * second).

Definition rfc3339 (t : Time) : string := seconds_text t +:+ "Z".

(** [http.ParseTime] *)
Definition ParseTime (local : string → Time → option Z) (s : string) : option Time :=
  match parse_rfc1123_gmt s with
  | Some t => Some t
  | None => match parse_rfc850 local s with Some t => Some t | None => parse_ansic s end
  end.

Example parse_time_ex : ParseTime (λ _ _, None) "Sun, 06 Nov 1994 08:49:37 GMT" = parse_stamp "19941106T084937Z".
Proof. vm_compute. reflexivity. Qed.
Example parse_time_850 : ParseTime (λ _ _, None) "Sunday, 06-Nov-94 08:49:37 GMT" = parse_stamp "19941106T084937Z".
Proof. vm_compute. reflexivity. Qed.
Example parse_time_ansic : ParseTime (λ _ _, None) "Sun Nov  6 08:49:37 1994" = parse_stamp "19941106T084937Z".
Proof. vm_compute. reflexivity. Qed.
