(* ===== verification/Hmac.v ===== *)
(** HMAC-SHA256 ([crypto/hmac]) and the signing key of AWS Signature Version 4
    ([gateway/auth.go]), with what a signature determines when the hash does
    not collide on the messages that are hashed. *)
From S2P Require Import Prelude Sha256 Json Text.

Definition sha256_bytes (m : list Z) : list Z := List.concat (be_bytes 4 <$> sha256_words m).

(** [hexSHA256] *)
Definition hexSHA256 (value : string) : string := hex_text (sha256_bytes (bytes_of value)).

(** A key padded to the block of 64 bytes, hashed first when it is longer. *)
Definition block_key (key : list Z) : list Z :=
  let key := if Nat.ltb 64 (List.length key) then sha256_bytes key else key in
  key ++ replicate (64 - List.length key) 0.

Definition inner_message (key m : list Z) : list Z := (Z.lxor 0x36 <$> block_key key) ++ m.
Definition outer_message (key m : list Z) : list Z := (Z.lxor 0x5c <$> block_key key) ++ sha256_bytes (inner_message key m).

(** [hmacSHA256] *)
Definition hmacSHA256 (key : list Z) (data : string) : list Z := sha256_bytes (outer_message key (bytes_of data)).

(** [deriveSigningKey] *)
Definition deriveSigningKey (secret dateStamp region service : string) : list Z :=
  let kDate := hmacSHA256 (bytes_of ("AWS4" +:+ secret)) dateStamp in
  let kRegion := hmacSHA256 kDate region in
  let kService := hmacSHA256 kRegion service in
  hmacSHA256 kService "aws4_request".

#[global] Arguments sha256_bytes : simpl never.
#[global] Arguments hmacSHA256 : simpl never.
#[global] Arguments deriveSigningKey : simpl never.
(** Conversion compares the arguments of a hash before it computes one. *)
Strategy 1000 [sha256_words hex_text be_bytes bytes_of].
Strategy 900 [sha256_bytes].
Strategy 800 [inner_message outer_message].
Strategy 700 [hmacSHA256].

Example hmac_rfc4231 :
  hex_text (hmacSHA256 (bytes_of "Jefe") "what do ya want for nothing?")
    = "5bdcc146bf60754e6a042426089575c75a003f089d2739839dec58b964ec3843".
Proof. vm_compute. reflexivity. Qed.

(** ** Lengths and ranges *)

Lemma sha_round_length st kw : List.length st = 8%nat → List.length (sha_round st kw) = 8%nat.
Proof. intros H. do 8 (destruct st as [|? st]; [done|]). by destruct st. Qed.

Lemma sha_rounds_length kws st : List.length st = 8%nat → List.length (fold_left sha_round kws st) = 8%nat.
Proof. revert st. induction kws as [|kw kws IH]; intros st H; [done|]. by apply IH, sha_round_length. Qed.

Lemma sha_blocks_length fuel st ws : List.length st = 8%nat → List.length (sha_blocks fuel st ws) = 8%nat.
Proof.
  revert st ws. induction fuel as [|fuel IH]; intros st ws H; [done|]. cbn [sha_blocks]. destruct ws as [|w ws]; [done|].
  apply IH. unfold sha_block. rewrite length_zip_with, sha_rounds_length by done. lia.
Qed.

Lemma sha256_words_length m : List.length (sha256_words m) = 8%nat.
Proof. unfold sha256_words. by apply sha_blocks_length. Qed.

Lemma be_bytes_length n z : List.length (be_bytes n z) = n.
Proof. revert z. induction n as [|n IH]; intros z; [done|]. cbn. rewrite length_app, IH. simpl. lia. Qed.

Lemma be_bytes_range n z : Forall (λ b, 0 ≤ b < 256) (be_bytes n z).
Proof.
  revert z. induction n as [|n IH]; intros z; cbn; [constructor|]. apply Forall_app. split; [apply IH|].
  constructor; [apply Z.mod_pos_bound; lia|constructor].
Qed.

Lemma sha256_bytes_length m : List.length (sha256_bytes m) = 32%nat.
Proof.
  unfold sha256_bytes. pose proof (sha256_words_length m) as H. generalize dependent (sha256_words m). intros ws H.
  do 8 (destruct ws as [|? ws]; [done|]). by destruct ws.
Qed.

Lemma sha256_bytes_range m : Forall (λ b, 0 ≤ b < 256) (sha256_bytes m).
Proof.
  unfold sha256_bytes. induction (sha256_words m) as [|w ws IH]; [constructor|].
  rewrite fmap_cons. cbn [List.concat]. apply Forall_app. split; [apply be_bytes_range|done].
Qed.

Lemma block_key_length key : List.length (block_key key) = 64%nat.
Proof.
  unfold block_key. destruct (Nat.ltb_spec 64 (List.length key)) as [H|H]; rewrite length_app, length_replicate.
  - rewrite sha256_bytes_length. lia.
  - lia.
Qed.

Lemma hex_digit_inj a b : 0 ≤ a < 16 → 0 ≤ b < 16 → hex_digit a = hex_digit b → a = b.
Proof.
  intros Ha Hb H. apply (f_equal byte_of) in H. unfold hex_digit, byte_of in H.
  destruct (Z.ltb_spec a 10), (Z.ltb_spec b 10); rewrite !N_ascii_embedding in H by lia; lia.
Qed.

Lemma hex_text_cons b l : hex_text (b :: l) = String (hex_digit (b `div` 16)) (String (hex_digit (b `mod` 16)) (hex_text l)).
Proof. done. Qed.

Lemma hex_text_inj l m : Forall (λ b, 0 ≤ b < 256) l → Forall (λ b, 0 ≤ b < 256) m → hex_text l = hex_text m → l = m.
Proof.
  intros Hl. revert m. induction Hl as [|a l Ha _ IH]; intros m Hm H; destruct Hm as [|b m Hb Hm]; try done.
  rewrite !hex_text_cons in H. injection H as H1 H2 H.
  apply hex_digit_inj in H1; [|split; [apply Z.div_pos|apply Z.div_lt_upper_bound]; lia..].
  apply hex_digit_inj in H2; [|apply Z.mod_pos_bound; lia..].
  f_equal; [|by apply IH]. pose proof (Z.div_mod a 16 ltac:(lia)). pose proof (Z.div_mod b 16 ltac:(lia)). lia.
Qed.

Lemma hex_text_length l : String.length (hex_text l) = (2 * List.length l)%nat.
Proof. induction l as [|b l IH]; [done|]. rewrite hex_text_cons. cbn [String.length List.length]. rewrite IH. lia. Qed.

Lemma hex_digit_plain d c : 0 ≤ d < 16 → c ∈ ["010"; "/"]%char → Ascii.eqb c (hex_digit d) = false.
Proof.
  intros Hd Hc. apply Ascii.eqb_neq. intros E. apply (f_equal byte_of) in E.
  assert (byte_of (hex_digit d) ≠ 10 ∧ byte_of (hex_digit d) ≠ 47) as [H10 H47].
  { unfold hex_digit, byte_of. destruct (Z.ltb_spec d 10); rewrite N_ascii_embedding by lia; lia. }
  apply elem_of_cons in Hc as [->|Hc]; [by rewrite <- E in H10|].
  apply list_elem_of_singleton in Hc as ->. by rewrite <- E in H47.
Qed.

Lemma hex_text_no_byte c l : c ∈ ["010"; "/"]%char → Forall (λ b, 0 ≤ b < 256) l → no_byte c (hex_text l) = true.
Proof.
  intros Hc. induction 1 as [|b l Hb _ IH]; [done|]. rewrite hex_text_cons, !no_byte_cons, IH.
  rewrite !hex_digit_plain; [done|apply Z.mod_pos_bound; lia|done| |done].
  split; [apply Z.div_pos|apply Z.div_lt_upper_bound]; lia.
Qed.

(** ** Binding *)

(** The hash does not collide on two messages. *)
Definition no_collision (x y : list Z) : Prop := sha256_bytes x = sha256_bytes y → x = y.

(** The messages an HMAC hashes. *)
Definition hmac_messages (key : list Z) (data : string) : list (list Z) :=
  [inner_message key (bytes_of data); outer_message key (bytes_of data)].

Lemma hmac_binds k1 k2 d1 d2 :
  Forall2 no_collision (hmac_messages k1 d1) (hmac_messages k2 d2) → hmacSHA256 k1 d1 = hmacSHA256 k2 d2 → d1 = d2.
Proof.
  intros Hcf H. apply Forall2_cons in Hcf as [Hinner Hcf]. apply Forall2_cons in Hcf as [Houter _].
  unfold hmacSHA256 in H. apply Houter in H.
  unfold outer_message in H. apply app_inj_1 in H as [_ H]; [|by rewrite !length_fmap, !block_key_length].
  apply Hinner in H. unfold inner_message in H.
  apply app_inj_1 in H as [_ H]; [|by rewrite !length_fmap, !block_key_length]. by apply bytes_of_inj.
Qed.

Lemma hexSHA256_binds v1 v2 : no_collision (bytes_of v1) (bytes_of v2) → hexSHA256 v1 = hexSHA256 v2 → v1 = v2.
Proof.
  intros Hcf H. unfold hexSHA256 in H. apply hex_text_inj in H; [|apply sha256_bytes_range..].
  apply Hcf in H. by apply bytes_of_inj.
Qed.
