(* ===== verification/Base64.v ===== *)
(** [encoding/base64]: the raw URL alphabet that continuation tokens and
    generated secrets use, and decoding of the padded standard one. *)
From S2P Require Import Prelude Sha256 Json Text.

(** The characters for 62 and 63 of an alphabet. *)
Record alphabet : Type := MkAlphabet { al_62 : Z; al_63 : Z }.
Definition url_alphabet : alphabet := MkAlphabet 45 95.
Definition std_alphabet : alphabet := MkAlphabet 43 47.

Definition encode_char (al : alphabet) (i : Z) : Z :=
  if i <? 26 then 65 + i else if i <? 52 then 71 + i else if i <? 62 then i - 4
  else if i =? 62 then al_62 al else al_63 al.

Definition decode_char (al : alphabet) (c : Z) : option Z :=
  if (65 <=? c) && (c <=? 90) then Some (c - 65)
  else if (97 <=? c) && (c <=? 122) then Some (c - 71)
  else if (48 <=? c) && (c <=? 57) then Some (c + 4)
  else if c =? al_62 al then Some 62
  else if c =? al_63 al then Some 63
  else None.

Fixpoint encode_raw (al : alphabet) (l : list Z) : list Z :=
  match l with
  | [] => []
  | [a] => [encode_char al (a `div` 4); encode_char al (a `mod` 4 * 16)]
  | [a; b] => [encode_char al (a `div` 4); encode_char al (a `mod` 4 * 16 + b `div` 16); encode_char al (b `mod` 16 * 4)]
  | a :: b :: c :: l =>
      encode_char al (a `div` 4) :: encode_char al (a `mod` 4 * 16 + b `div` 16)
        :: encode_char al (b `mod` 16 * 4 + c `div` 64) :: encode_char al (c `mod` 64) :: encode_raw al l
  end.

(** Trailing bits that belong to no byte are ignored, as the decoder is not
    strict. *)
Fixpoint decode_raw (al : alphabet) (l : list Z) : option (list Z) :=
  match l with
  | [] => Some []
  | [_] => None
  | [x; y] =>
      x ← decode_char al x; y ← decode_char al y; Some [x * 4 + y `div` 16]
  | [x; y; z] =>
      x ← decode_char al x; y ← decode_char al y; z ← decode_char al z;
      Some [x * 4 + y `div` 16; y `mod` 16 * 16 + z `div` 4]
  | x :: y :: z :: t :: l =>
      x ← decode_char al x; y ← decode_char al y; z ← decode_char al z; t ← decode_char al t; rest ← decode_raw al l;
      Some (x * 4 + y `div` 16 :: y `mod` 16 * 16 + z `div` 4 :: z `mod` 4 * 64 + t :: rest)
  end.

(** Line breaks are skipped. *)
Definition not_break (b : Z) : bool := negb ((b =? 10) || (b =? 13)).

(** [base64.RawURLEncoding] *)
Definition base64url_encode (s : string) : string := text_of_bytes (encode_raw url_alphabet (bytes_of s)).
Definition base64url_decode (s : string) : option string :=
  text_of_bytes <$> decode_raw url_alphabet (List.filter not_break (bytes_of s)).

(** [base64.StdEncoding.DecodeString]: groups of four, the last padded. *)
Definition unpad (l : list Z) : option (list Z) :=
  if negb (Nat.eqb (List.length l `mod` 4) 0) then None
  else match rev l with
       | 61 :: 61 :: r => Some (rev r)
       | 61 :: r => Some (rev r)
       | _ => Some l
       end.

(** [base64.StdEncoding.EncodeToString] *)
Definition pad (l : list Z) : list Z := l ++ replicate ((4 - List.length l mod 4) mod 4) 61.
Definition base64std_encode (l : list Z) : string := text_of_bytes (pad (encode_raw std_alphabet l)).

Definition base64std_decode (s : string) : option (list Z) :=
  unpad (List.filter not_break (bytes_of s)) ≫= decode_raw std_alphabet.

Example base64url_ex : base64url_encode "a/b?c" = "YS9iP2M". Proof. reflexivity. Qed.
Example base64std_ex : base64std_decode "AGFzbQ==" = Some [0; 97; 115; 109]. Proof. reflexivity. Qed.
Example base64std_bad : base64std_decode "AGFzbQ=" = None. Proof. reflexivity. Qed.

(** ** Round trip *)

Definition known_alphabet (al : alphabet) : Prop := al = url_alphabet ∨ al = std_alphabet.

Lemma decode_encode_char al i : known_alphabet al → 0 ≤ i < 64 → decode_char al (encode_char al i) = Some i.
Proof.
  intros [-> | ->] Hi; unfold encode_char, decode_char; cbn [al_62 al_63 url_alphabet std_alphabet];
  repeat (case_match; try lia); f_equal; lia.
Qed.

Lemma encode_char_plain al i : known_alphabet al → 0 ≤ i < 64 →
  not_break (encode_char al i) = true ∧ 0 ≤ encode_char al i < 256 ∧ encode_char al i ≠ 61.
Proof. intros [-> | ->] Hi; unfold encode_char, not_break; cbn [al_62 al_63 url_alphabet std_alphabet]; repeat case_match; lia. Qed.

Ltac sextet := solve [assumption | Z.to_euclidean_division_equations; lia].

Lemma decode_encode_raw al l : known_alphabet al → Forall (λ b, 0 ≤ b < 256) l → decode_raw al (encode_raw al l) = Some l.
Proof.
  intros Hal. induction l as [l IH] using (well_founded_ind (well_founded_ltof _ (@List.length Z))). intros Hl. destruct Hl as [|a ? Ha Hl]; [done|]. destruct Hl as [|b ? Hb Hl].
  { cbn [encode_raw decode_raw]. rewrite !decode_encode_char by (done || sextet). cbn. repeat f_equal; sextet. }
  destruct Hl as [|c l Hc Hl].
  { cbn [encode_raw decode_raw]. rewrite !decode_encode_char by (done || sextet). cbn. repeat f_equal; sextet. }
  cbn [encode_raw decode_raw]. rewrite !decode_encode_char by (done || sextet).
  rewrite IH by (done || (unfold ltof; simpl; lia)). cbn. repeat f_equal; sextet.
Qed.

Lemma encode_raw_chars al l : known_alphabet al → Forall (λ b, 0 ≤ b < 256) l →
  Forall (λ b, not_break b = true ∧ 0 ≤ b < 256 ∧ b ≠ 61) (encode_raw al l).
Proof.
  intros Hal. assert (∀ i, 0 ≤ i < 64 → not_break (encode_char al i) = true ∧ 0 ≤ encode_char al i < 256 ∧ encode_char al i ≠ 61) as Hc
    by (intros i Hi; by apply encode_char_plain).
  induction l as [l IH] using (well_founded_ind (well_founded_ltof _ (@List.length Z))). intros Hl. destruct Hl as [|a ? Ha Hl]; [constructor|]. destruct Hl as [|b ? Hb Hl].
  { repeat (constructor; [apply Hc; sextet|]). constructor. }
  destruct Hl as [|c l Hx Hl].
  { repeat (constructor; [apply Hc; sextet|]). constructor. }
  cbn [encode_raw]. repeat (constructor; [apply Hc; sextet|]). apply IH; [unfold ltof; simpl; lia|done].
Qed.

Lemma bytes_of_text l : Forall (λ b, 0 ≤ b < 256) l → bytes_of (text_of_bytes l) = l.
Proof.
  unfold bytes_of, text_of_bytes. rewrite list_ascii_of_string_of_list_ascii.
  induction 1 as [|b l Hb _ IH]; [done|]. rewrite !fmap_cons, IH. f_equal. unfold byte_of.
  rewrite N_ascii_embedding by lia. lia.
Qed.

Lemma text_of_bytes_of s : text_of_bytes (bytes_of s) = s.
Proof.
  apply bytes_of_inj. apply bytes_of_text. unfold bytes_of. apply Forall_fmap, Forall_true. intros a. apply byte_of_range.
Qed.

Lemma filter_all {A} (P : A → bool) l : Forall (λ x, P x = true) l → List.filter P l = l.
Proof. induction 1 as [|x l Hx _ IH]; [done|]. cbn. by rewrite Hx, IH. Qed.

(** A token is decoded to the text it was made from. *)
Lemma base64url_roundtrip s : base64url_decode (base64url_encode s) = Some s.
Proof.
  assert (Forall (λ b, 0 ≤ b < 256) (bytes_of s)) as Hs by (unfold bytes_of; apply Forall_fmap, Forall_true; intros a; apply byte_of_range).
  unfold base64url_decode, base64url_encode.
  pose proof (encode_raw_chars url_alphabet _ ltac:(by left) Hs) as Hc.
  rewrite bytes_of_text by (eapply Forall_impl; [exact Hc|]; by intros x (_ & ? & _)).
  rewrite filter_all by (eapply Forall_impl; [exact Hc|]; by intros x [? _]).
  rewrite decode_encode_raw by (done || by left). cbn. by rewrite text_of_bytes_of.
Qed.

Lemma base64url_encode_empty s : base64url_encode s = "" ↔ s = "".
Proof. split; [|by intros ->]. intros H. pose proof (base64url_roundtrip s) as Hr. rewrite H in Hr. cbn in Hr. congruence. Qed.

(** *** The padded encoding *)

Lemma encode_raw_length al l : (List.length (encode_raw al l) mod 4 ≠ 1)%nat.
Proof.
  induction l as [l IH] using (well_founded_ind (well_founded_ltof _ (@List.length Z))).
  destruct l as [|a [|b [|c l]]]; [done..|]. cbn [encode_raw List.length].
  replace (S (S (S (S (List.length (encode_raw al l))))))%nat with (List.length (encode_raw al l) + 1 * 4)%nat by lia.
  rewrite Nat.Div0.mod_add. apply IH. unfold ltof. cbn. lia.
Qed.

Lemma unpad_unpadded l : (List.length l mod 4 = 0)%nat → Forall (λ b, b ≠ 61) l → unpad l = Some l.
Proof.
  intros E Hl. unfold unpad. rewrite E. cbn [Nat.eqb negb]. apply Forall_rev in Hl.
  destruct Hl as [|x r Hx _]; [done|]. repeat case_match; done.
Qed.

Lemma unpad_pad l : (List.length l mod 4 ≠ 1)%nat → Forall (λ b, b ≠ 61) l → unpad (pad l) = Some l.
Proof.
  intros Hlen Hl. assert (List.length l mod 4 < 4)%nat as Hm by by apply Nat.mod_upper_bound.
  assert (∀ k, (List.length (l ++ replicate k (61 : Z)) mod 4 = (List.length l mod 4 + k) mod 4)%nat) as Hk
    by (intros k; by rewrite length_app, length_replicate, Nat.Div0.add_mod_idemp_l).
  assert (List.length l mod 4 = 0 ∨ List.length l mod 4 = 2 ∨ List.length l mod 4 = 3)%nat as [E|[E|E]] by lia;
    unfold pad; rewrite E.
  - change ((4 - 0) mod 4)%nat with 0%nat. cbn [replicate]. rewrite app_nil_r. by apply unpad_unpadded.
  - change ((4 - 2) mod 4)%nat with 2%nat. unfold unpad. rewrite Hk, E. cbn [replicate]. rewrite rev_app_distr.
    cbn. by rewrite rev_involutive.
  - change ((4 - 3) mod 4)%nat with 1%nat. unfold unpad. rewrite Hk, E. cbn [replicate]. rewrite rev_app_distr.
    pose proof (rev_involutive l) as Hrev. apply Forall_rev in Hl. cbn. destruct Hl as [|x r Hx _]; [by rewrite <- Hrev|].
    rewrite <- Hrev. repeat case_match; done.
Qed.

Lemma base64std_roundtrip l : Forall (λ b, 0 ≤ b < 256) l → base64std_decode (base64std_encode l) = Some l.
Proof.
  intros Hs. unfold base64std_decode, base64std_encode. pose proof (encode_raw_chars std_alphabet _ ltac:(by right) Hs) as Hc.
  assert (Forall (λ b, not_break b = true ∧ 0 ≤ b < 256) (pad (encode_raw std_alphabet l))) as Hp.
  { unfold pad. apply Forall_app. split; [eapply Forall_impl; [exact Hc|]; by intros x (? & ? & _)|]. by apply Forall_replicate. }
  rewrite bytes_of_text by (eapply Forall_impl; [exact Hp|]; by intros x [_ ?]).
  rewrite filter_all by (eapply Forall_impl; [exact Hp|]; by intros x [? _]).
  rewrite unpad_pad by (apply encode_raw_length || (eapply Forall_impl; [exact Hc|]; by intros x (_ & _ & ?))).
  cbn. by rewrite decode_encode_raw by (done || by right).
Qed.
