(* ===== verification/Mime.v ===== *)
(** [mime.ParseMediaType], the media type it returns. *)
From S2P Require Import Prelude Text.

(** [isTSpecial], [isTokenChar] *)
Definition is_tspecial (a : ascii) : bool := existsb (Ascii.eqb a) (list_ascii_of_string ("()<>@,;:\/[]?=" +:+ String "034" "")).

Definition is_token_char (a : ascii) : bool := (0x20 <? byte_of a) && (byte_of a <? 0x7F) && negb (is_tspecial a).

Fixpoint consumeToken (v : string) : string * string :=
  match v with
  | String a rest => if is_token_char a then let '(t, r) := consumeToken rest in (String a t, r) else ("", v)
  | ""%string => ("", v)
  end.

(** The rest of a quoted value: its text and what follows, [None] when it does
    not end. *)
Fixpoint quoted_value (v : string) : option (string * string) :=
  match v with
  | ""%string => None
  | String a rest =>
      if Ascii.eqb a "034" then Some ("", rest)
      else if Ascii.eqb a "010" || Ascii.eqb a "013" then None
      else match rest with
           | String b rest' =>
               if Ascii.eqb a "092" && is_tspecial b
               then match quoted_value rest' with Some (t, r) => Some (String b t, r) | None => None end
               else match quoted_value rest with Some (t, r) => Some (String a t, r) | None => None end
           | ""%string => None
           end
  end.

Definition consumeValue (v : string) : string * string :=
  match v with
  | String a rest => if Ascii.eqb a "034" then match quoted_value rest with Some vr => vr | None => ("", v) end else consumeToken v
  | ""%string => ("", v)
  end.

(** [strings.TrimLeftFunc(v, unicode.IsSpace)] *)
Definition trim_left_space (v : string) : string :=
  string_of_list_ascii (trim_left_ascii false (String.length v) (list_ascii_of_string v)).

(** A parameter with the rest; an empty name is a failure. *)
Definition consumeMediaParam (v : string) : string * string * string :=
  let fail := ("", "", v) in
  match trim_left_space v with
  | String ";" rest =>
      let '(param, rest) := consumeToken (trim_left_space rest) in
      let param := to_lower param in
      if (param =? "")%string then fail
      else match trim_left_space rest with
           | String "=" rest =>
               let rest := trim_left_space rest in
               let '(value, rest2) := consumeValue rest in
               if (value =? "")%string && (rest2 =? rest)%string then fail else (param, value, rest2)
           | _ => fail
           end
  | _ => fail
  end.

(** [checkMediaTypeDisposition] *)
Definition media_type_ok (s : string) : bool :=
  let '(typ, rest) := consumeToken s in
  if (typ =? "")%string then false
  else match rest with
       | ""%string => true
       | String "/" rest =>
           let '(subtype, rest) := consumeToken rest in negb (subtype =? "")%string && (rest =? "")%string
       | _ => false
       end.

(** The parameters: [false] when one is given twice with different values. A
    name with a star counts under the part before it as well. *)
Fixpoint params_ok (fuel : nat) (seen : gmap (string * string) string) (v : string) : bool :=
  match fuel with
  | O => true
  | S fuel =>
      let v := trim_left_space v in
      if (v =? "")%string then true
      else
        let '(key, value, rest) := consumeMediaParam v in
        if (key =? "")%string then true
        else
          let group := match string_cut key "*" with Some (base, _) => base | None => "" end in
          match seen !! (group, key) with
          | Some value' => if (value' =? value)%string then params_ok fuel (<[(group, key) := value]> seen) rest else false
          | None => params_ok fuel (<[(group, key) := value]> seen) rest
          end
  end.

(** The media type, empty when it is malformed or a parameter contradicts
    another. *)
Definition media_type (v : string) : string :=
  let '(base, rest) := match string_cut v ";" with Some (b, r) => (b, String ";" r) | None => (v, "") end in
  let t := trim_space (to_lower base) in
  if media_type_ok t && params_ok (String.length rest) ∅ rest then t else "".

Example media_type_params : media_type " Text/HTML ; charset=utf-8; q=1" = "text/html".
Proof. vm_compute. reflexivity. Qed.
Example media_type_bad : media_type "text/" = "".
Proof. reflexivity. Qed.
Example media_type_twice : media_type "a/b; x=1; x=2" = "".
Proof. vm_compute. reflexivity. Qed.
