(* ===== verification/Domain.v ===== *)
(** The data model: the structs and constants of [src/internal/domain].

    A struct is a Record with the same fields behind a short prefix (a
    ProviderAccount's ID is [p_ID]); [zero_T] is Go's zero value. A Go map is a
    finite map (a nil map reads as an empty one), a slice a list, an [int] or
    [int64] a [Z], a time a [GoTime.Time]. *)
From S2P Require Import Prelude GoTime Float64.

(** A [float32] is its IEEE 754 bit pattern. *)
Definition float32 : Set := Z.

Definition ProviderKindLocal : string := "local".
Definition ProviderKindS3Compat : string := "s3-compatible".
Definition ProviderKindAzureBlob : string := "azure-blob".
Definition ProviderKindCloudinary : string := "cloudinary".
Definition ProviderKindVercelBlob : string := "vercel-blob".
Definition AccessRoleAdmin : string := "admin".
Definition AccessRoleReadWrite : string := "read-write".
Definition AccessRoleReadOnly : string := "read-only".
Definition RepairStatusPending : string := "pending".
Definition RepairStatusRunning : string := "running".
Definition RepairStatusCompleted : string := "completed".
Definition RepairStatusFailed : string := "failed".
Definition InventoryModeImport : string := "import".
Definition InventoryModeReconcile : string := "reconcile".
Definition InventoryStatusPending : string := "pending".
Definition InventoryStatusRunning : string := "running".
Definition InventoryStatusCompleted : string := "completed".
Definition InventoryStatusFailed : string := "failed".
Definition MigrationModeCopy : string := "copy".
Definition MigrationModeMove : string := "move".
Definition MigrationStatusPending : string := "pending".
Definition MigrationStatusRunning : string := "running".
Definition MigrationStatusCompleted : string := "completed".
Definition MigrationStatusFailed : string := "failed".
Definition AlertTypeQuotaNearLimit : string := "quota.near_limit".
Definition AlertTypeQuotaExhausted : string := "quota.exhausted".
Definition AlertTypeCredentialsInvalid : string := "credentials.invalid".
Definition AlertTypeProviderDegraded : string := "provider.degraded".
Definition AlertTypeReplicaFailed : string := "replica.failed".
Definition AlertTypeWASMPluginFailed : string := "wasm_plugin.failed".
Definition AlertSeverityWarning : string := "warning".
Definition AlertSeverityCritical : string := "critical".
Definition AlertStatusOpen : string := "open".
Definition AlertStatusResolved : string := "resolved".
Definition AuditActionObjectDeleted : string := "object.deleted".
Definition AuditActionProviderDeleted : string := "provider.deleted".
Definition AuditActionHookDeleted : string := "hook.deleted".
Definition AuditActionMigrationMove : string := "migration.move".
Definition AuditActionWASMOperation : string := "wasm.operation".
Definition HookKindHTTP : string := "http".
Definition HookEventObjectCreated : string := "object.created".
Definition HookEventObjectDeleted : string := "object.deleted".
Definition HookDeliveryStatusPending : string := "pending".
Definition HookDeliveryStatusRunning : string := "running".
Definition HookDeliveryStatusSucceeded : string := "succeeded".
Definition HookDeliveryStatusFailed : string := "failed".
Definition ProviderHealthHealthy : string := "healthy".
Definition ProviderHealthDegraded : string := "degraded".
Definition ProviderHealthUnhealthy : string := "unhealthy".
Definition ProviderHealthDisabled : string := "disabled".
Definition WASMPluginABIV1 : string := "bucketmux.wasm.v1".
Definition WASMPluginEventObjectCreated : string := "object.created".
Definition WASMPluginOperationMetadataPatch : string := "metadata.patch".
Definition WASMPluginOperationTagsPatch : string := "tags.patch".
Definition WASMPluginOperationObjectCopy : string := "object.copy".
Definition WASMPluginOperationObjectDelete : string := "object.delete".
Definition WASMPluginStatusPending : string := "pending".
Definition WASMPluginStatusRunning : string := "running".
Definition WASMPluginStatusSucceeded : string := "succeeded".
Definition WASMPluginStatusFailed : string := "failed".
Definition WASMPluginStatusSuperseded : string := "superseded".
(** ** Structs *)

(** [domain.ProviderAccount] *)
Record ProviderAccount : Type := MkProviderAccount {
  p_ID : string;
  p_Name : string;
  p_Kind : string;
  p_Endpoint : string;
  p_Region : string;
  p_Bucket : string;
  p_AccessKey : string;
  p_SecretEncrypted : string;
  p_SecretKey : string;
  p_CapacityBytes : Z;
  p_UsedBytes : Z;
  p_RemoteCapacityBytes : Z;
  p_RemoteUsedBytes : Z;
  p_ReservedBytes : Z;
  p_MonthlyUploadedBytes : Z;
  p_MonthlyPeriod : string;
  p_Priority : Z;
  p_Enabled : bool;
  p_AvailabilityStatus : string;
  p_AvailabilityMessage : string;
  p_UnavailableUntil : Time;
  p_QuotaSource : string;
  p_QuotaCheckedAt : Time;
  p_Settings : gmap string string;
  p_CreatedAt : Time;
  p_UpdatedAt : Time
}.
#[global] Instance ProviderAccount_settable : Settable ProviderAccount := settable! MkProviderAccount
  < p_ID ; p_Name ; p_Kind ; p_Endpoint ; p_Region ; p_Bucket ; p_AccessKey ; p_SecretEncrypted ; 
    p_SecretKey ; p_CapacityBytes ; p_UsedBytes ; p_RemoteCapacityBytes ; p_RemoteUsedBytes ; 
    p_ReservedBytes ; p_MonthlyUploadedBytes ; p_MonthlyPeriod ; p_Priority ; p_Enabled ; 
    p_AvailabilityStatus ; p_AvailabilityMessage ; p_UnavailableUntil ; p_QuotaSource ; 
    p_QuotaCheckedAt ; p_Settings ; p_CreatedAt ; p_UpdatedAt >.
Definition zero_ProviderAccount : ProviderAccount :=
  MkProviderAccount "" "" "" "" "" "" "" "" "" 0 0 0 0 0 0 "" 0 false "" "" zero_time "" zero_time ∅ zero_time zero_time.

(** [domain.LifecycleRule] *)
Record LifecycleRule : Type := MkLifecycleRule {
  lr_ID : string;
  lr_Prefix : string;
  lr_ExpireAfterDays : Z;
  lr_PurgeTrashAfterDays : Z;
  lr_Enabled : bool
}.
#[global] Instance LifecycleRule_settable : Settable LifecycleRule := settable! MkLifecycleRule
  < lr_ID ; lr_Prefix ; lr_ExpireAfterDays ; lr_PurgeTrashAfterDays ; lr_Enabled >.
Definition zero_LifecycleRule : LifecycleRule :=
  MkLifecycleRule "" "" 0 0 false.

(** [domain.Bucket] *)
Record Bucket : Type := MkBucket {
  b_Name : string;
  b_ReplicationEnabled : bool;
  b_ReplicationProviderIDs : list string;
  b_VersioningEnabled : bool;
  b_TrashEnabled : bool;
  b_TrashRetentionDays : Z;
  b_ObjectLockEnabled : bool;
  b_DefaultRetentionMode : string;
  b_DefaultRetentionDays : Z;
  b_LifecycleRules : list LifecycleRule;
  b_CreatedAt : Time;
  b_UpdatedAt : Time
}.
#[global] Instance Bucket_settable : Settable Bucket := settable! MkBucket
  < b_Name ; b_ReplicationEnabled ; b_ReplicationProviderIDs ; b_VersioningEnabled ; 
    b_TrashEnabled ; b_TrashRetentionDays ; b_ObjectLockEnabled ; b_DefaultRetentionMode ; 
    b_DefaultRetentionDays ; b_LifecycleRules ; b_CreatedAt ; b_UpdatedAt >.
Definition zero_Bucket : Bucket :=
  MkBucket "" false [] false false 0 false "" 0 [] zero_time zero_time.

(** [domain.ObjectRecord] *)
Record ObjectRecord : Type := MkObjectRecord {
  o_Bucket : string;
  o_Key : string;
  o_ProviderAccountID : string;
  o_RemoteBucket : string;
  o_RemoteKey : string;
  o_Size : Z;
  o_ContentType : string;
  o_ETag : string;
  o_ChecksumSHA256 : string;
  o_Metadata : gmap string string;
  o_Tags : gmap string string;
  o_VersionID : string;
  o_IsDeleteMarker : bool;
  o_RetentionMode : string;
  o_RetainUntil : Time;
  o_LegalHold : bool;
  o_ReplicaStatus : string;
  o_CreatedAt : Time;
  o_UpdatedAt : Time
}.
#[global] Instance ObjectRecord_settable : Settable ObjectRecord := settable! MkObjectRecord
  < o_Bucket ; o_Key ; o_ProviderAccountID ; o_RemoteBucket ; o_RemoteKey ; o_Size ; 
    o_ContentType ; o_ETag ; o_ChecksumSHA256 ; o_Metadata ; o_Tags ; o_VersionID ; 
    o_IsDeleteMarker ; o_RetentionMode ; o_RetainUntil ; o_LegalHold ; o_ReplicaStatus ; 
    o_CreatedAt ; o_UpdatedAt >.
Definition zero_ObjectRecord : ObjectRecord :=
  MkObjectRecord "" "" "" "" "" 0 "" "" "" ∅ ∅ "" false "" zero_time false "" zero_time zero_time.

(** [domain.TrashRecord] *)
Record TrashRecord : Type := MkTrashRecord {
  t_ID : string;
  t_Object : ObjectRecord;
  t_DeletedAt : Time;
  t_PurgeAfter : Time
}.
#[global] Instance TrashRecord_settable : Settable TrashRecord := settable! MkTrashRecord
  < t_ID ; t_Object ; t_DeletedAt ; t_PurgeAfter >.
Definition zero_TrashRecord : TrashRecord :=
  MkTrashRecord "" zero_ObjectRecord zero_time zero_time.

(** [domain.PutObjectInput] *)
Record PutObjectInput : Type := MkPutObjectInput {
  i_Bucket : string;
  i_Key : string;
  i_RemoteKey : string;
  i_Size : Z;
  i_ContentType : string;
  i_Metadata : gmap string string;
  i_Tags : gmap string string;
  i_RetentionMode : string;
  i_RetainUntil : Time;
  i_LegalHold : bool;
  i_ChecksumSHA256 : string;
  i_SkipWASMPipelines : bool
}.
#[global] Instance PutObjectInput_settable : Settable PutObjectInput := settable! MkPutObjectInput
  < i_Bucket ; i_Key ; i_RemoteKey ; i_Size ; i_ContentType ; i_Metadata ; i_Tags ; 
    i_RetentionMode ; i_RetainUntil ; i_LegalHold ; i_ChecksumSHA256 ; i_SkipWASMPipelines >.
Definition zero_PutObjectInput : PutObjectInput :=
  MkPutObjectInput "" "" "" 0 "" ∅ ∅ "" zero_time false "" false.

(** [domain.StoredObject] *)
Record StoredObject : Type := MkStoredObject {
  st_ProviderAccountID : string;
  st_RemoteBucket : string;
  st_RemoteKey : string;
  st_Size : Z;
  st_ContentType : string;
  st_ETag : string;
  st_ChecksumSHA256 : string
}.
#[global] Instance StoredObject_settable : Settable StoredObject := settable! MkStoredObject
  < st_ProviderAccountID ; st_RemoteBucket ; st_RemoteKey ; st_Size ; st_ContentType ; st_ETag ; 
    st_ChecksumSHA256 >.
Definition zero_StoredObject : StoredObject :=
  MkStoredObject "" "" "" 0 "" "" "".

(** [domain.ProviderObject] *)
Record ProviderObject : Type := MkProviderObject {
  po_Key : string;
  po_Size : Z;
  po_ETag : string;
  po_ContentType : string;
  po_LastModified : Time
}.
#[global] Instance ProviderObject_settable : Settable ProviderObject := settable! MkProviderObject
  < po_Key ; po_Size ; po_ETag ; po_ContentType ; po_LastModified >.
Definition zero_ProviderObject : ProviderObject :=
  MkProviderObject "" 0 "" "" zero_time.

(** [domain.ProviderObjectPage] *)
Record ProviderObjectPage : Type := MkProviderObjectPage {
  pp_Objects : list ProviderObject;
  pp_NextContinuationToken : string
}.
#[global] Instance ProviderObjectPage_settable : Settable ProviderObjectPage := settable! MkProviderObjectPage
  < pp_Objects ; pp_NextContinuationToken >.
Definition zero_ProviderObjectPage : ProviderObjectPage :=
  MkProviderObjectPage [] "".

(** [domain.ProviderBucket] *)
Record ProviderBucket : Type := MkProviderBucket {
  pb_Name : string;
  pb_CreatedAt : Time
}.
#[global] Instance ProviderBucket_settable : Settable ProviderBucket := settable! MkProviderBucket
  < pb_Name ; pb_CreatedAt >.
Definition zero_ProviderBucket : ProviderBucket :=
  MkProviderBucket "" zero_time.

(** [domain.AccessCredential] *)
Record AccessCredential : Type := MkAccessCredential {
  ac_ID : string;
  ac_Name : string;
  ac_AccessKey : string;
  ac_SecretEncrypted : string;
  ac_SecretKey : string;
  ac_Role : string;
  ac_Permissions : list string;
  ac_BucketPatterns : list string;
  ac_PrefixPatterns : list string;
  ac_Enabled : bool;
  ac_ExpiresAt : Time;
  ac_LastUsedAt : Time;
  ac_CreatedAt : Time;
  ac_UpdatedAt : Time
}.
#[global] Instance AccessCredential_settable : Settable AccessCredential := settable! MkAccessCredential
  < ac_ID ; ac_Name ; ac_AccessKey ; ac_SecretEncrypted ; ac_SecretKey ; ac_Role ; ac_Permissions ; 
    ac_BucketPatterns ; ac_PrefixPatterns ; ac_Enabled ; ac_ExpiresAt ; ac_LastUsedAt ; 
    ac_CreatedAt ; ac_UpdatedAt >.
Definition zero_AccessCredential : AccessCredential :=
  MkAccessCredential "" "" "" "" "" "" [] [] [] false zero_time zero_time zero_time zero_time.

(** [domain.InventoryJob] *)
Record InventoryJob : Type := MkInventoryJob {
  ij_ID : string;
  ij_ProviderAccountID : string;
  ij_Bucket : string;
  ij_RemoteBucket : string;
  ij_Prefix : string;
  ij_Mode : string;
  ij_Status : string;
  ij_DiscoveredObjects : Z;
  ij_ImportedObjects : Z;
  ij_MissingObjects : Z;
  ij_LastError : string;
  ij_CreatedAt : Time;
  ij_UpdatedAt : Time;
  ij_FinishedAt : Time
}.
#[global] Instance InventoryJob_settable : Settable InventoryJob := settable! MkInventoryJob
  < ij_ID ; ij_ProviderAccountID ; ij_Bucket ; ij_RemoteBucket ; ij_Prefix ; ij_Mode ; ij_Status ; 
    ij_DiscoveredObjects ; ij_ImportedObjects ; ij_MissingObjects ; ij_LastError ; ij_CreatedAt ; 
    ij_UpdatedAt ; ij_FinishedAt >.
Definition zero_InventoryJob : InventoryJob :=
  MkInventoryJob "" "" "" "" "" "" "" 0 0 0 "" zero_time zero_time zero_time.

(** [domain.RepairJob] *)
Record RepairJob : Type := MkRepairJob {
  rj_ID : string;
  rj_Bucket : string;
  rj_Prefix : string;
  rj_Status : string;
  rj_CheckedObjects : Z;
  rj_RepairedObjects : Z;
  rj_FailedObjects : Z;
  rj_CurrentKey : string;
  rj_LastError : string;
  rj_CreatedAt : Time;
  rj_UpdatedAt : Time;
  rj_FinishedAt : Time
}.
#[global] Instance RepairJob_settable : Settable RepairJob := settable! MkRepairJob
  < rj_ID ; rj_Bucket ; rj_Prefix ; rj_Status ; rj_CheckedObjects ; rj_RepairedObjects ; 
    rj_FailedObjects ; rj_CurrentKey ; rj_LastError ; rj_CreatedAt ; rj_UpdatedAt ; rj_FinishedAt >.
Definition zero_RepairJob : RepairJob :=
  MkRepairJob "" "" "" "" 0 0 0 "" "" zero_time zero_time zero_time.

(** [domain.ObjectReplica] *)
Record ObjectReplica : Type := MkObjectReplica {
  rp_Bucket : string;
  rp_Key : string;
  rp_ProviderAccountID : string;
  rp_RemoteBucket : string;
  rp_RemoteKey : string;
  rp_Size : Z;
  rp_ETag : string;
  rp_ChecksumSHA256 : string;
  rp_Status : string;
  rp_Error : string;
  rp_Attempts : Z;
  rp_MaxAttempts : Z;
  rp_NextAttemptAt : Time;
  rp_CreatedAt : Time;
  rp_UpdatedAt : Time
}.
#[global] Instance ObjectReplica_settable : Settable ObjectReplica := settable! MkObjectReplica
  < rp_Bucket ; rp_Key ; rp_ProviderAccountID ; rp_RemoteBucket ; rp_RemoteKey ; rp_Size ; 
    rp_ETag ; rp_ChecksumSHA256 ; rp_Status ; rp_Error ; rp_Attempts ; rp_MaxAttempts ; 
    rp_NextAttemptAt ; rp_CreatedAt ; rp_UpdatedAt >.
Definition zero_ObjectReplica : ObjectReplica :=
  MkObjectReplica "" "" "" "" "" 0 "" "" "" "" 0 0 zero_time zero_time zero_time.

(** [domain.ProviderReservation] *)
Record ProviderReservation : Type := MkProviderReservation {
  rs_ID : string;
  rs_ProviderAccountID : string;
  rs_Bytes : Z;
  rs_CreatedAt : Time;
  rs_ExpiresAt : Time
}.
#[global] Instance ProviderReservation_settable : Settable ProviderReservation := settable! MkProviderReservation
  < rs_ID ; rs_ProviderAccountID ; rs_Bytes ; rs_CreatedAt ; rs_ExpiresAt >.
Definition zero_ProviderReservation : ProviderReservation :=
  MkProviderReservation "" "" 0 zero_time zero_time.

(** [domain.ProviderQuota] *)
Record ProviderQuota : Type := MkProviderQuota {
  pq_ProviderAccountID : string;
  pq_CapacityBytes : Z;
  pq_UsedBytes : Z;
  pq_ReservedBytes : Z;
  pq_AvailableBytes : Z;
  pq_MonthlyLimitBytes : Z;
  pq_MonthlyUploadedBytes : Z;
  pq_Period : string;
  pq_Source : string;
  pq_CheckedAt : Time;
  pq_Reliable : bool
}.
#[global] Instance ProviderQuota_settable : Settable ProviderQuota := settable! MkProviderQuota
  < pq_ProviderAccountID ; pq_CapacityBytes ; pq_UsedBytes ; pq_ReservedBytes ; pq_AvailableBytes ; 
    pq_MonthlyLimitBytes ; pq_MonthlyUploadedBytes ; pq_Period ; pq_Source ; pq_CheckedAt ; 
    pq_Reliable >.
Definition zero_ProviderQuota : ProviderQuota :=
  MkProviderQuota "" 0 0 0 0 0 0 "" "" zero_time false.

(** [domain.ProviderCapabilities] *)
Record ProviderCapabilities : Type := MkProviderCapabilities {
  pc_ListObjects : bool;
  pc_DiscoverBuckets : bool;
  pc_RemoteQuota : bool;
  pc_Checksums : bool;
  pc_Limitations : list string
}.
#[global] Instance ProviderCapabilities_settable : Settable ProviderCapabilities := settable! MkProviderCapabilities
  < pc_ListObjects ; pc_DiscoverBuckets ; pc_RemoteQuota ; pc_Checksums ; pc_Limitations >.
Definition zero_ProviderCapabilities : ProviderCapabilities :=
  MkProviderCapabilities false false false false [].

(** [domain.ProviderHealth] *)
Record ProviderHealth : Type := MkProviderHealth {
  ph_ProviderAccountID : string;
  ph_Status : string;
  ph_Message : string;
  ph_CheckedAt : Time;
  ph_LatencyMillis : Z
}.
#[global] Instance ProviderHealth_settable : Settable ProviderHealth := settable! MkProviderHealth
  < ph_ProviderAccountID ; ph_Status ; ph_Message ; ph_CheckedAt ; ph_LatencyMillis >.
Definition zero_ProviderHealth : ProviderHealth :=
  MkProviderHealth "" "" "" zero_time 0.

(** [domain.ProviderValidation] *)
Record ProviderValidation : Type := MkProviderValidation {
  pv_ProviderAccountID : string;
  pv_Health : ProviderHealth;
  pv_Capabilities : ProviderCapabilities
}.
#[global] Instance ProviderValidation_settable : Settable ProviderValidation := settable! MkProviderValidation
  < pv_ProviderAccountID ; pv_Health ; pv_Capabilities >.
Definition zero_ProviderValidation : ProviderValidation :=
  MkProviderValidation "" zero_ProviderHealth zero_ProviderCapabilities.

(** [domain.MigrationJob] *)
Record MigrationJob : Type := MkMigrationJob {
  mj_ID : string;
  mj_Bucket : string;
  mj_Prefix : string;
  mj_SourceProviderID : string;
  mj_TargetProviderID : string;
  mj_Mode : string;
  mj_Status : string;
  mj_TotalObjects : Z;
  mj_ProcessedObjects : Z;
  mj_SucceededObjects : Z;
  mj_FailedObjects : Z;
  mj_CurrentKey : string;
  mj_LastError : string;
  mj_StartedAt : Time;
  mj_FinishedAt : Time;
  mj_CreatedAt : Time;
  mj_UpdatedAt : Time
}.
#[global] Instance MigrationJob_settable : Settable MigrationJob := settable! MkMigrationJob
  < mj_ID ; mj_Bucket ; mj_Prefix ; mj_SourceProviderID ; mj_TargetProviderID ; mj_Mode ; 
    mj_Status ; mj_TotalObjects ; mj_ProcessedObjects ; mj_SucceededObjects ; mj_FailedObjects ; 
    mj_CurrentKey ; mj_LastError ; mj_StartedAt ; mj_FinishedAt ; mj_CreatedAt ; mj_UpdatedAt >.
Definition zero_MigrationJob : MigrationJob :=
  MkMigrationJob "" "" "" "" "" "" "" 0 0 0 0 "" "" zero_time zero_time zero_time zero_time.

(** [domain.Alert] *)
Record Alert : Type := MkAlert {
  al_ID : string;
  al_DedupeKey : string;
  al_Type : string;
  al_Severity : string;
  al_ProviderAccountID : string;
  al_Bucket : string;
  al_Key : string;
  al_Message : string;
  al_Status : string;
  al_CreatedAt : Time;
  al_UpdatedAt : Time;
  al_ResolvedAt : Time
}.
#[global] Instance Alert_settable : Settable Alert := settable! MkAlert
  < al_ID ; al_DedupeKey ; al_Type ; al_Severity ; al_ProviderAccountID ; al_Bucket ; al_Key ; 
    al_Message ; al_Status ; al_CreatedAt ; al_UpdatedAt ; al_ResolvedAt >.
Definition zero_Alert : Alert :=
  MkAlert "" "" "" "" "" "" "" "" "" zero_time zero_time zero_time.

(** [domain.AuditEvent] *)
Record AuditEvent : Type := MkAuditEvent {
  au_ID : string;
  au_Actor : string;
  au_Action : string;
  au_Bucket : string;
  au_Key : string;
  au_TargetID : string;
  au_Detail : string;
  au_CreatedAt : Time
}.
#[global] Instance AuditEvent_settable : Settable AuditEvent := settable! MkAuditEvent
  < au_ID ; au_Actor ; au_Action ; au_Bucket ; au_Key ; au_TargetID ; au_Detail ; au_CreatedAt >.
Definition zero_AuditEvent : AuditEvent :=
  MkAuditEvent "" "" "" "" "" "" "" zero_time.

(** [domain.Hook] *)
Record Hook : Type := MkHook {
  h_ID : string;
  h_Name : string;
  h_Kind : string;
  h_URL : string;
  h_Method : string;
  h_Events : list string;
  h_Enabled : bool;
  h_Headers : gmap string string;
  h_HeaderNames : list string;
  h_HeadersEncrypted : string;
  h_CreatedAt : Time;
  h_UpdatedAt : Time
}.
#[global] Instance Hook_settable : Settable Hook := settable! MkHook
  < h_ID ; h_Name ; h_Kind ; h_URL ; h_Method ; h_Events ; h_Enabled ; h_Headers ; h_HeaderNames ; 
    h_HeadersEncrypted ; h_CreatedAt ; h_UpdatedAt >.
Definition zero_Hook : Hook :=
  MkHook "" "" "" "" "" [] false ∅ [] "" zero_time zero_time.

(** [domain.HookDelivery] *)
Record HookDelivery : Type := MkHookDelivery {
  hd_ID : string;
  hd_HookID : string;
  hd_Event : string;
  hd_Bucket : string;
  hd_Key : string;
  hd_PayloadJSON : string;
  hd_Status : string;
  hd_Attempts : Z;
  hd_MaxAttempts : Z;
  hd_NextAttemptAt : Time;
  hd_LastStatusCode : Z;
  hd_LastError : string;
  hd_CreatedAt : Time;
  hd_UpdatedAt : Time
}.
#[global] Instance HookDelivery_settable : Settable HookDelivery := settable! MkHookDelivery
  < hd_ID ; hd_HookID ; hd_Event ; hd_Bucket ; hd_Key ; hd_PayloadJSON ; hd_Status ; hd_Attempts ; 
    hd_MaxAttempts ; hd_NextAttemptAt ; hd_LastStatusCode ; hd_LastError ; hd_CreatedAt ; 
    hd_UpdatedAt >.
Definition zero_HookDelivery : HookDelivery :=
  MkHookDelivery "" "" "" "" "" "" "" 0 0 zero_time 0 "" zero_time zero_time.

(** [domain.BucketNotification] *)
Record BucketNotification : Type := MkBucketNotification {
  bn_ID : string;
  bn_Bucket : string;
  bn_HookID : string;
  bn_Event : string;
  bn_Prefix : string;
  bn_Suffix : string
}.
#[global] Instance BucketNotification_settable : Settable BucketNotification := settable! MkBucketNotification
  < bn_ID ; bn_Bucket ; bn_HookID ; bn_Event ; bn_Prefix ; bn_Suffix >.
Definition zero_BucketNotification : BucketNotification :=
  MkBucketNotification "" "" "" "" "" "".

(** [domain.MultipartUpload] *)
Record MultipartUpload : Type := MkMultipartUpload {
  mu_UploadID : string;
  mu_Bucket : string;
  mu_Key : string;
  mu_ContentType : string;
  mu_CreatedAt : Time;
  mu_UpdatedAt : Time
}.
#[global] Instance MultipartUpload_settable : Settable MultipartUpload := settable! MkMultipartUpload
  < mu_UploadID ; mu_Bucket ; mu_Key ; mu_ContentType ; mu_CreatedAt ; mu_UpdatedAt >.
Definition zero_MultipartUpload : MultipartUpload :=
  MkMultipartUpload "" "" "" "" zero_time zero_time.

(** [domain.MultipartPart] *)
Record MultipartPart : Type := MkMultipartPart {
  mp_UploadID : string;
  mp_PartNumber : Z;
  mp_Path : string;
  mp_Size : Z;
  mp_ETag : string;
  mp_ChecksumSHA256 : string;
  mp_CreatedAt : Time;
  mp_UpdatedAt : Time
}.
#[global] Instance MultipartPart_settable : Settable MultipartPart := settable! MkMultipartPart
  < mp_UploadID ; mp_PartNumber ; mp_Path ; mp_Size ; mp_ETag ; mp_ChecksumSHA256 ; mp_CreatedAt ; 
    mp_UpdatedAt >.
Definition zero_MultipartPart : MultipartPart :=
  MkMultipartPart "" 0 "" 0 "" "" zero_time zero_time.

(** [domain.ProviderBucketUsage] *)
Record ProviderBucketUsage : Type := MkProviderBucketUsage {
  bu_ProviderAccountID : string;
  bu_Bucket : string;
  bu_ObjectCount : Z;
  bu_Bytes : Z
}.
#[global] Instance ProviderBucketUsage_settable : Settable ProviderBucketUsage := settable! MkProviderBucketUsage
  < bu_ProviderAccountID ; bu_Bucket ; bu_ObjectCount ; bu_Bytes >.
Definition zero_ProviderBucketUsage : ProviderBucketUsage :=
  MkProviderBucketUsage "" "" 0 0.

(** [domain.WASMPluginOperationPolicy] *)
Record WASMPluginOperationPolicy : Type := MkWASMPluginOperationPolicy {
  wpp_AllowedOperations : list string;
  wpp_BucketPatterns : list string;
  wpp_KeyPrefixes : list string;
  wpp_MaxOperations : Z
}.
#[global] Instance WASMPluginOperationPolicy_settable : Settable WASMPluginOperationPolicy := settable! MkWASMPluginOperationPolicy
  < wpp_AllowedOperations ; wpp_BucketPatterns ; wpp_KeyPrefixes ; wpp_MaxOperations >.
Definition zero_WASMPluginOperationPolicy : WASMPluginOperationPolicy :=
  MkWASMPluginOperationPolicy [] [] [] 0.

(** [domain.WASMPlugin] *)
Record WASMPlugin : Type := MkWASMPlugin {
  wp_ID : string;
  wp_Name : string;
  wp_Description : string;
  wp_ABIVersion : string;
  wp_ModuleBase64 : string;
  wp_ModuleSHA256 : string;
  wp_Events : list string;
  wp_BucketPattern : string;
  wp_KeyPrefix : string;
  wp_KeySuffix : string;
  wp_ContentTypes : list string;
  wp_Config : gmap string string;
  wp_OperationPolicy : WASMPluginOperationPolicy;
  wp_Enabled : bool;
  wp_TimeoutMillis : Z;
  wp_MemoryLimitBytes : Z;
  wp_MaxInputBytes : Z;
  wp_MaxOutputBytes : Z;
  wp_MaxAttempts : Z;
  wp_CreatedAt : Time;
  wp_UpdatedAt : Time
}.
#[global] Instance WASMPlugin_settable : Settable WASMPlugin := settable! MkWASMPlugin
  < wp_ID ; wp_Name ; wp_Description ; wp_ABIVersion ; wp_ModuleBase64 ; wp_ModuleSHA256 ; 
    wp_Events ; wp_BucketPattern ; wp_KeyPrefix ; wp_KeySuffix ; wp_ContentTypes ; wp_Config ; 
    wp_OperationPolicy ; wp_Enabled ; wp_TimeoutMillis ; wp_MemoryLimitBytes ; wp_MaxInputBytes ; 
    wp_MaxOutputBytes ; wp_MaxAttempts ; wp_CreatedAt ; wp_UpdatedAt >.
Definition zero_WASMPlugin : WASMPlugin :=
  MkWASMPlugin "" "" "" "" "" "" [] "" "" "" [] ∅ zero_WASMPluginOperationPolicy false 0 0 0 0 0 zero_time zero_time.

(** [domain.WASMPluginJob] *)
Record WASMPluginJob : Type := MkWASMPluginJob {
  wj_ID : string;
  wj_PluginID : string;
  wj_Event : string;
  wj_Bucket : string;
  wj_Key : string;
  wj_SourceChecksum : string;
  wj_SourceUpdatedAt : Time;
  wj_DedupeKey : string;
  wj_Status : string;
  wj_Attempts : Z;
  wj_MaxAttempts : Z;
  wj_NextAttemptAt : Time;
  wj_LastError : string;
  wj_ResultJSON : string;
  wj_CreatedAt : Time;
  wj_UpdatedAt : Time;
  wj_FinishedAt : Time
}.
#[global] Instance WASMPluginJob_settable : Settable WASMPluginJob := settable! MkWASMPluginJob
  < wj_ID ; wj_PluginID ; wj_Event ; wj_Bucket ; wj_Key ; wj_SourceChecksum ; wj_SourceUpdatedAt ; 
    wj_DedupeKey ; wj_Status ; wj_Attempts ; wj_MaxAttempts ; wj_NextAttemptAt ; wj_LastError ; 
    wj_ResultJSON ; wj_CreatedAt ; wj_UpdatedAt ; wj_FinishedAt >.
Definition zero_WASMPluginJob : WASMPluginJob :=
  MkWASMPluginJob "" "" "" "" "" "" zero_time "" "" 0 0 zero_time "" "" zero_time zero_time zero_time.

(** [domain.WASMPluginEmbedding] *)
Record WASMPluginEmbedding : Type := MkWASMPluginEmbedding {
  we_Kind : string;
  we_Model : string;
  we_ModelVersion : string;
  we_Metric : string;
  we_Dimensions : Z;
  we_Values : list float32;
  we_Metadata : gmap string string
}.
#[global] Instance WASMPluginEmbedding_settable : Settable WASMPluginEmbedding := settable! MkWASMPluginEmbedding
  < we_Kind ; we_Model ; we_ModelVersion ; we_Metric ; we_Dimensions ; we_Values ; we_Metadata >.
Definition zero_WASMPluginEmbedding : WASMPluginEmbedding :=
  MkWASMPluginEmbedding "" "" "" "" 0 [] ∅.

(** [domain.WASMPluginDerivedObject] *)
Record WASMPluginDerivedObject : Type := MkWASMPluginDerivedObject {
  wd_Path : string;
  wd_Key : string;
  wd_KeySuffix : string;
  wd_ContentType : string;
  wd_Metadata : gmap string string;
  wd_Tags : gmap string string
}.
#[global] Instance WASMPluginDerivedObject_settable : Settable WASMPluginDerivedObject := settable! MkWASMPluginDerivedObject
  < wd_Path ; wd_Key ; wd_KeySuffix ; wd_ContentType ; wd_Metadata ; wd_Tags >.
Definition zero_WASMPluginDerivedObject : WASMPluginDerivedObject :=
  MkWASMPluginDerivedObject "" "" "" "" ∅ ∅.

(** [domain.WASMPluginOperation] *)
Record WASMPluginOperation : Type := MkWASMPluginOperation {
  wo_ID : string;
  wo_Type : string;
  wo_Bucket : string;
  wo_Key : string;
  wo_SourceBucket : string;
  wo_SourceKey : string;
  wo_Metadata : gmap string string;
  wo_Tags : gmap string string;
  wo_RemoveMetadata : list string;
  wo_RemoveTags : list string
}.
#[global] Instance WASMPluginOperation_settable : Settable WASMPluginOperation := settable! MkWASMPluginOperation
  < wo_ID ; wo_Type ; wo_Bucket ; wo_Key ; wo_SourceBucket ; wo_SourceKey ; wo_Metadata ; wo_Tags ; 
    wo_RemoveMetadata ; wo_RemoveTags >.
Definition zero_WASMPluginOperation : WASMPluginOperation :=
  MkWASMPluginOperation "" "" "" "" "" "" ∅ ∅ [] [].

(** [domain.WASMPluginResult] *)
Record WASMPluginResult : Type := MkWASMPluginResult {
  wr_ABIVersion : string;
  wr_Metadata : gmap string string;
  wr_Tags : gmap string string;
  wr_Embeddings : list WASMPluginEmbedding;
  wr_DerivedObjects : list WASMPluginDerivedObject;
  wr_Operations : list WASMPluginOperation
}.
#[global] Instance WASMPluginResult_settable : Settable WASMPluginResult := settable! MkWASMPluginResult
  < wr_ABIVersion ; wr_Metadata ; wr_Tags ; wr_Embeddings ; wr_DerivedObjects ; wr_Operations >.
Definition zero_WASMPluginResult : WASMPluginResult :=
  MkWASMPluginResult "" ∅ ∅ [] [] [].

(** [domain.ObjectEmbedding] *)
Record ObjectEmbedding : Type := MkObjectEmbedding {
  oe_ID : string;
  oe_Bucket : string;
  oe_Key : string;
  oe_SourceChecksum : string;
  oe_SourceUpdatedAt : Time;
  oe_PluginID : string;
  oe_Kind : string;
  oe_Model : string;
  oe_ModelVersion : string;
  oe_Metric : string;
  oe_Dimensions : Z;
  oe_Ordinal : Z;
  oe_Values : list float32;
  oe_Metadata : gmap string string;
  oe_CreatedAt : Time;
  oe_UpdatedAt : Time
}.
#[global] Instance ObjectEmbedding_settable : Settable ObjectEmbedding := settable! MkObjectEmbedding
  < oe_ID ; oe_Bucket ; oe_Key ; oe_SourceChecksum ; oe_SourceUpdatedAt ; oe_PluginID ; oe_Kind ; 
    oe_Model ; oe_ModelVersion ; oe_Metric ; oe_Dimensions ; oe_Ordinal ; oe_Values ; oe_Metadata ; 
    oe_CreatedAt ; oe_UpdatedAt >.
Definition zero_ObjectEmbedding : ObjectEmbedding :=
  MkObjectEmbedding "" "" "" "" zero_time "" "" "" "" "" 0 0 [] ∅ zero_time zero_time.

(** [domain.EmbeddingSearchQuery] *)
Record EmbeddingSearchQuery : Type := MkEmbeddingSearchQuery {
  eq_Bucket : string;
  eq_Kind : string;
  eq_Model : string;
  eq_ModelVersion : string;
  eq_Metric : string;
  eq_Values : list float32;
  eq_Limit : Z;
  eq_MinScore : option float64;
  eq_MaxCandidates : Z
}.
#[global] Instance EmbeddingSearchQuery_settable : Settable EmbeddingSearchQuery := settable! MkEmbeddingSearchQuery
  < eq_Bucket ; eq_Kind ; eq_Model ; eq_ModelVersion ; eq_Metric ; eq_Values ; eq_Limit ; eq_MinScore ; eq_MaxCandidates >.
Definition zero_EmbeddingSearchQuery : EmbeddingSearchQuery :=
  MkEmbeddingSearchQuery "" "" "" "" "" [] 0 None 0.

(** [domain.EmbeddingSearchResult] *)
Record EmbeddingSearchResult : Type := MkEmbeddingSearchResult {
  sr_Embedding : ObjectEmbedding;
  sr_Score : float64
}.

(** [domain.WASMPluginObject] *)
Record WASMPluginObject : Type := MkWASMPluginObject {
  wb_Bucket : string;
  wb_Key : string;
  wb_Size : Z;
  wb_ContentType : string;
  wb_ETag : string;
  wb_ChecksumSHA256 : string;
  wb_Metadata : gmap string string;
  wb_Tags : gmap string string;
  wb_InputPath : string
}.
#[global] Instance WASMPluginObject_settable : Settable WASMPluginObject := settable! MkWASMPluginObject
  < wb_Bucket ; wb_Key ; wb_Size ; wb_ContentType ; wb_ETag ; wb_ChecksumSHA256 ; wb_Metadata ; wb_Tags ; wb_InputPath >.

(** [domain.WASMPluginInvocation]; its workspace is the output directory, its
    capabilities the operation policy. *)
Record WASMPluginInvocation : Type := MkWASMPluginInvocation {
  wi_ABIVersion : string;
  wi_Event : string;
  wi_JobID : string;
  wi_Object : WASMPluginObject;
  wi_OutputDir : string;
  wi_Config : gmap string string;
  wi_Operations : WASMPluginOperationPolicy
}.
#[global] Instance WASMPluginInvocation_settable : Settable WASMPluginInvocation := settable! MkWASMPluginInvocation
  < wi_ABIVersion ; wi_Event ; wi_JobID ; wi_Object ; wi_OutputDir ; wi_Config ; wi_Operations >.

(** [PutObjectInput.StorageKey] *)
Definition StorageKey (p : PutObjectInput) : string :=
  if negb (i_RemoteKey p =? "")%string then i_RemoteKey p else i_Key p.
