(* ===== verification/ProviderErrors.v ===== *)
(** [internal/provider/errors.go]: how a failure of a remote service is
    classified, and which failures let an upload move to another provider. *)
From S2P Require Import Prelude GoTime Domain.

Definition kind_text (k : failure_kind) : string :=
  match k with
  | FailureQuota => "quota"
  | FailureThrottled => "throttled"
  | FailureCredentials => "credentials"
  | FailureUnavailable => "unavailable"
  | FailurePermanent => "permanent"
  end.

Definition sentinel_text (s : sentinel) : string :=
  match s with
  | ErrNotFound => "not found"
  | ErrNoProviderAvailable => "no provider available"
  | ErrUploadTooLarge => "upload exceeds configured size limit"
  | ErrObjectLocked => "object is protected by retention or legal hold"
  | ErrObjectGenerationSuperseded => "object generation was superseded"
  | ErrEmbeddingSourceSuperseded => "embedding source generation was superseded"
  | ErrWASMSourceSuperseded => "source object was replaced during plugin execution"
  | ErrProviderCapabilityUnsupported => "provider capability is not supported"
  | ErrContext => "context canceled"
  | ErrBodyTooLarge => "http: request body too large"
  | ErrNotExist => "no such file or directory"
  | ErrNoSpace => "no space left on device"
  | ErrCrossDevice => "invalid cross-device link"
  | ErrFuel => ""
  end.

(** [err.Error()]; the [ErrProvider] case is the method [Error] of provider.Error. *)
Fixpoint error_text (e : error) : string :=
  match e with
  | ErrSentinel s => sentinel_text s
  | ErrText msg => msg
  | ErrWrap msg inner => msg +:+ ": " +:+ error_text inner
  | ErrAnnotate inner msg => error_text inner +:+ ": " +:+ msg
  | ErrProvider op kind status _ inner =>
      op +:+ " provider request failed (" +:+ kind_text kind
        +:+ (if 0 <? status then ", status=" +:+ itoa status else "") +:+ "): " +:+ error_text inner
  | ErrJoin a b => error_text a +:+ String "010" "" +:+ error_text b
  end.

(** [provider.Failure]: [errors.As] finds the first [*provider.Error] in the
    tree of wrapped errors, outermost first. *)
Fixpoint Failure (e : error) : option (failure_kind * Duration) :=
  match e with
  | ErrSentinel _ | ErrText _ => None
  | ErrWrap _ inner | ErrAnnotate inner _ => Failure inner
  | ErrProvider _ kind _ retry _ => Some (kind, retry)
  | ErrJoin a b => match Failure a with Some f => Some f | None => Failure b end
  end.

Definition FailoverEligible (e : error) : bool :=
  match Failure e with
  | Some (kind, _) => negb (bool_decide (kind = FailurePermanent))
  | None => false
  end.

(** The classification of [HTTPError], by status and lower-cased body. *)
Definition http_failure_kind (status : Z) (responseBody : string) : failure_kind :=
  let body := to_lower responseBody in
  if (status =? 507) || contains body "quotaexceeded" || contains body "insufficientstorage" || contains body "storagefull"
  then FailureQuota
  else if (status =? 401) || (status =? 403) || contains body "invalidaccesskeyid" || contains body "signaturedoesnotmatch"
          || contains body "expiredtoken" || contains body "authenticationfailed"
  then FailureCredentials
  else if (status =? 429) || (status =? 503) || contains body "slowdown" || contains body "throttl" || contains body "serverbusy"
  then FailureThrottled
  else if 500 <=? status then FailureUnavailable
  else FailurePermanent.

Lemma failover_iff e :
  FailoverEligible e = true ↔ ∃ kind retry, Failure e = Some (kind, retry) ∧ kind ≠ FailurePermanent.
Proof.
  unfold FailoverEligible. destruct (Failure e) as [[k r]|].
  - rewrite negb_true_iff, bool_decide_eq_false. naive_solver.
  - naive_solver.
Qed.
