(* ===== verification/Operations.v ===== *)
(** The operations a WASM plugin declares, [wasmplugin/operations.go]: the
    capability boundary that normalises and checks the whole list before the
    service applies any of it. *)
From S2P Require Import Prelude Text Domain ProviderErrors.

(** [domain.WASMPluginObject], the fields the check reads. *)
Record PluginSource : Type := MkPluginSource { ps_Bucket : string; ps_Key : string }.

Definition defaultMaxOperations : Z := 16.
Definition maxOperations : Z := 32.
Definition maxOperationMapKeys : nat := 128.
Definition maxOperationKeyBytes : nat := 256.
Definition maxOperationValBytes : nat := 4096.

Definition normalizeObjectKey (value : string) : result string :=
  let value := trim_space value in
  if (value =? "")%string || has_prefix value "/" || negb (no_byte "000" value)
  then Err (ErrText ("unsafe object key " +:+ quoted value))
  else
    let clean := path_clean value in
    if (clean =? ".")%string || (clean =? "..")%string || has_prefix clean "../"
    then Err (ErrText ("unsafe object key " +:+ quoted value))
    else Ok clean.

Definition bad_patch_entry (kv : string * string) : bool :=
  (trim_space kv.1 =? "")%string || Nat.ltb maxOperationKeyBytes (String.length kv.1)
  || Nat.ltb maxOperationValBytes (String.length kv.2).

(** Which offending entry the error names depends on Go's map order. *)
Definition validatePatch (values : gmap string string) : result unit :=
  if Nat.ltb maxOperationMapKeys (size values)
  then Err (ErrText ("contains " +:+ itoa (Z.of_nat (size values)) +:+ " keys; maximum is 128"))
  else match List.find bad_patch_entry (map_to_list values) with
       | Some kv => Err (ErrText ("key " +:+ quoted kv.1 +:+ " or its value exceeds the allowed size"))
       | None => Ok tt
       end.

Fixpoint normalize_names (kept values : list string) : result (list string) :=
  match values with
  | [] => Ok kept
  | value :: rest =>
      let value := trim_space value in
      if (value =? "")%string || Nat.ltb maxOperationKeyBytes (String.length value)
      then Err (ErrText ("key " +:+ quoted value +:+ " is empty or exceeds the allowed size"))
      else normalize_names (if bool_decide (value ∈ kept) then kept else kept ++ [value]) rest
  end.

Definition normalizedNames (values : list string) : result (list string) :=
  if Nat.ltb maxOperationMapKeys (List.length values)
  then Err (ErrText ("contains " +:+ itoa (Z.of_nat (List.length values)) +:+ " keys; maximum is 128"))
  else normalize_names [] values.

(** [fmt.Errorf(msg + ": %w", err)] around a pure check. *)
Definition annotate {A} (msg : string) (r : result A) : result A :=
  match r with Ok a => Ok a | Err e => Err (ErrWrap msg e) end.

(** Bucket and keys of an operation, by its type. *)
Definition normalize_target (op : WASMPluginOperation) (source : PluginSource) : result WASMPluginOperation :=
  let op := op <| wo_Bucket ::= trim_space |> <| wo_SourceBucket ::= trim_space |> in
  let or_else v d := if (v =? "")%string then d else v in
  if (wo_Type op =? WASMPluginOperationMetadataPatch)%string || (wo_Type op =? WASMPluginOperationTagsPatch)%string
     || (wo_Type op =? WASMPluginOperationObjectDelete)%string then
    let op := op <| wo_Bucket ::= λ b, or_else b (ps_Bucket source) |> <| wo_Key ::= λ k, or_else k (ps_Key source) |> in
    try! key := normalizeObjectKey (wo_Key op) in Ok (op <| wo_Key := key |>)
  else if (wo_Type op =? WASMPluginOperationObjectCopy)%string then
    let op := op <| wo_SourceBucket ::= λ b, or_else b (ps_Bucket source) |>
                 <| wo_SourceKey ::= λ k, or_else k (ps_Key source) |> <| wo_Bucket ::= λ b, or_else b (ps_Bucket source) |> in
    try! _ := guard_err (trim_space (wo_Key op) =? "")%string "object.copy requires a target key" in
    try! sourceKey := annotate "invalid source key" (normalizeObjectKey (wo_SourceKey op)) in
    try! key := annotate "invalid target key" (normalizeObjectKey (wo_Key op)) in
    let op := op <| wo_SourceKey := sourceKey |> <| wo_Key := key |> in
    try! _ := guard_err ((wo_SourceBucket op =? wo_Bucket op)%string && (wo_SourceKey op =? wo_Key op)%string)
                "source and target must differ" in
    Ok op
  else Err (ErrText ("unsupported operation type " +:+ quoted (wo_Type op))).

Definition normalizeOperation (op : WASMPluginOperation) (source : PluginSource) : result WASMPluginOperation :=
  try! op := normalize_target op source in
  try! _ := guard_err (wo_Bucket op =? "")%string "bucket is required" in
  try! _ := annotate "metadata" (validatePatch (wo_Metadata op)) in
  try! _ := annotate "tags" (validatePatch (wo_Tags op)) in
  try! removeMetadata := annotate "remove_metadata" (normalizedNames (wo_RemoveMetadata op)) in
  try! removeTags := annotate "remove_tags" (normalizedNames (wo_RemoveTags op)) in
  Ok (op <| wo_RemoveMetadata := removeMetadata |> <| wo_RemoveTags := removeTags |>).

(** The objects an operation reads or writes. *)
Definition operation_objects (op : WASMPluginOperation) : list (string * string) :=
  (wo_Bucket op, wo_Key op) ::
  (if (wo_Type op =? WASMPluginOperationObjectCopy)%string then [(wo_SourceBucket op, wo_SourceKey op)] else []).

Definition bucket_in_policy (policy : WASMPluginOperationPolicy) (bucket : string) : bool :=
  existsb (λ pattern, match path_match pattern bucket with Some ok => ok | None => false end) (wpp_BucketPatterns policy).

Definition key_in_policy (policy : WASMPluginOperationPolicy) (key : string) : bool :=
  match wpp_KeyPrefixes policy with [] => true | prefixes => existsb (has_prefix key) prefixes end.

Fixpoint check_scope (policy : WASMPluginOperationPolicy) (source : PluginSource) (objects : list (string * string)) : result unit :=
  match objects with
  | [] => Ok tt
  | (bucket, key) :: rest =>
      if (bucket =? ps_Bucket source)%string && (key =? ps_Key source)%string then check_scope policy source rest
      else if negb (bucket =? ps_Bucket source)%string && negb (bucket_in_policy policy bucket)
      then Err (ErrText ("bucket " +:+ quoted bucket +:+ " is outside the operation policy"))
      else if negb (key_in_policy policy key)
      then Err (ErrText ("key " +:+ quoted key +:+ " is outside the operation policy"))
      else check_scope policy source rest
  end.

Definition validateOperationScope (policy : WASMPluginOperationPolicy) (source : PluginSource) (op : WASMPluginOperation) : result unit :=
  check_scope policy source (operation_objects op).

Definition operation_limit (policy : WASMPluginOperationPolicy) : Z :=
  Z.min (if wpp_MaxOperations policy <=? 0 then defaultMaxOperations else wpp_MaxOperations policy) maxOperations.

Definition operation_allowed (policy : WASMPluginOperationPolicy) (type : string) : bool :=
  existsb (λ a, (trim_space a =? type)%string) (wpp_AllowedOperations policy).

(** One turn of the loop: the operation, normalised and checked. *)
Definition validate_operation (policy : WASMPluginOperationPolicy) (source : PluginSource) (i : nat) (seen : list string)
    (op : WASMPluginOperation) : result WASMPluginOperation :=
  let op := op <| wo_ID ::= trim_space |> in
  let op := if (wo_ID op =? "")%string then op <| wo_ID := "operation-" +:+ itoa (Z.of_nat i + 1) |> else op in
  try! _ := guard_err (Nat.ltb 128 (String.length (wo_ID op)) || bool_decide (wo_ID op ∈ seen))
              ("operation " +:+ itoa (Z.of_nat i) +:+ " has an invalid or duplicate id " +:+ quoted (wo_ID op)) in
  let op := op <| wo_Type ::= trim_space |> in
  try! _ := guard_err (negb (operation_allowed policy (wo_Type op)))
              ("operation " +:+ quoted (wo_Type op) +:+ " is not allowed by plugin policy") in
  try! op := annotate ("operation " +:+ quoted (wo_ID op)) (normalizeOperation op source) in
  try! _ := annotate ("operation " +:+ quoted (wo_ID op)) (validateOperationScope policy source op) in
  Ok op.

Fixpoint validate_operations (policy : WASMPluginOperationPolicy) (source : PluginSource) (i : nat) (seen : list string)
    (operations : list WASMPluginOperation) : result (list WASMPluginOperation) :=
  match operations with
  | [] => Ok []
  | op :: rest =>
      try! op := validate_operation policy source i seen op in
      try! rest := validate_operations policy source (S i) (wo_ID op :: seen) rest in
      Ok (op :: rest)
  end.

(** The function normalises the slice in place; its result is that slice. *)
Definition ValidateOperations (plugin : WASMPlugin) (source : PluginSource) (operations : list WASMPluginOperation)
    : result (list WASMPluginOperation) :=
  match operations with
  | [] => Ok []
  | _ =>
      let policy := wp_OperationPolicy plugin in
      if operation_limit policy <? Z.of_nat (List.length operations)
      then Err (ErrText ("plugin declared " +:+ itoa (Z.of_nat (List.length operations)) +:+
                         " operations; policy maximum is " +:+ itoa (operation_limit policy)))
      else validate_operations policy source 0 [] operations
  end.

(** ** What an accepted list is *)

(** A key that stays inside its bucket whatever a provider makes of paths. *)
Definition safe_key (key : string) : Prop := Forall (λ e, proper_element e = true) (string_split "/" key).

(** An object the policy lets a plugin touch. *)
Definition in_policy (policy : WASMPluginOperationPolicy) (source : PluginSource) (o : string * string) : Prop :=
  o = (ps_Bucket source, ps_Key source) ∨
  (o.1 = ps_Bucket source ∨ ∃ pattern, pattern ∈ wpp_BucketPatterns policy ∧ path_match pattern o.1 = Some true) ∧
  (wpp_KeyPrefixes policy = [] ∨ ∃ prefix, prefix ∈ wpp_KeyPrefixes policy ∧ has_prefix o.2 prefix = true).

Lemma annotate_Ok {A} msg (r : result A) a : annotate msg r = Ok a → r = Ok a.
Proof. by destruct r. Qed.

(** [split_ok H as a E] takes a successful chain [H] apart at its first step. *)
Tactic Notation "split_ok" hyp(H) "as" simple_intropattern(a) simple_intropattern(E) :=
  apply result_bind_Ok in H as (a & E & H); cbv beta in H; try (apply guard_err_Ok in E); try (apply annotate_Ok in E).

Lemma normalizeObjectKey_safe value key : normalizeObjectKey value = Ok key → safe_key key.
Proof.
  unfold normalizeObjectKey. destruct (_ || _ || _) eqn:H0; [done|].
  apply orb_false_iff in H0 as [H0 _]. apply orb_false_iff in H0 as [_ Hroot].
  unfold path_clean. rewrite Hroot.
  destruct (clean_elements_shape (trim_space value)) as (up & proper & -> & Hp).
  destruct (string_join "/" (replicate up ".." ++ proper) =? "")%string eqn:Hempty; [done|].
  destruct (_ || _ || _) eqn:H1; [done|]. intros [= <-].
  apply orb_false_iff in H1 as [H1 Hup]. apply orb_false_iff in H1 as [Hdot Hdd].
  destruct up as [|[|up]]; cbn [replicate app] in *.
  - unfold safe_key. destruct proper as [|e proper]; [by cbn in Hempty|].
    rewrite string_split_join; [done|done|]. eapply Forall_impl; [exact Hp|]. intros x Hx. unfold proper_element in Hx.
    by apply andb_true_iff in Hx as [_ Hx].
  - destruct proper as [|e proper]; [by cbn in Hdd|]. rewrite string_join_cons in Hup. done.
  - rewrite string_join_cons in Hup. done.
Qed.

Lemma normalize_target_ok op source op' : normalize_target op source = Ok op' →
  wo_Type op' = wo_Type op ∧ wo_ID op' = wo_ID op ∧ Forall (λ o, safe_key o.2) (operation_objects op') ∧
  wo_Type op ∈ [WASMPluginOperationMetadataPatch; WASMPluginOperationTagsPatch; WASMPluginOperationObjectDelete;
                WASMPluginOperationObjectCopy].
Proof.
  unfold normalize_target. rsimpl. destruct (_ || _ || _) eqn:Htype.
  - intros H. split_ok H as key Hkey. injection H as <-. rsimpl. apply normalizeObjectKey_safe in Hkey.
    unfold operation_objects. rsimpl. rewrite !orb_true_iff, !String.eqb_eq in Htype.
    split_and!; [done|done| |set_solver]. constructor; [done|].
    destruct Htype as [[->| ->]| ->]; constructor.
  - destruct (String.eqb_spec (wo_Type op) WASMPluginOperationObjectCopy) as [Hcopy|]; [|done].
    intros H. split_ok H as u0 E0. split_ok H as sk Hsk. split_ok H as key Hkey. split_ok H as u1 E1. injection H as <-.
    apply normalizeObjectKey_safe in Hkey, Hsk. unfold operation_objects. rsimpl.
    split_and!; [done|done| |set_solver]. constructor; [done|]. rewrite Hcopy, String.eqb_refl. constructor; [done|constructor].
Qed.

Lemma normalizeOperation_ok op source op' : normalizeOperation op source = Ok op' →
  wo_Type op' = wo_Type op ∧ wo_ID op' = wo_ID op ∧ Forall (λ o, safe_key o.2) (operation_objects op') ∧
  wo_Type op ∈ [WASMPluginOperationMetadataPatch; WASMPluginOperationTagsPatch; WASMPluginOperationObjectDelete;
                WASMPluginOperationObjectCopy].
Proof.
  unfold normalizeOperation. intros H. split_ok H as op1 E1. apply normalize_target_ok in E1.
  do 5 (let u := fresh "u" in let E := fresh "E" in split_ok H as u E). injection H as <-.
  unfold operation_objects in *. by rsimpl.
Qed.

Lemma existsb_elem {A} (P : A → bool) l : existsb P l = true → ∃ x, x ∈ l ∧ P x = true.
Proof. intros H. apply existsb_exists in H as (x & Hx & HP). exists x. split; [by apply list_elem_of_In|done]. Qed.

Lemma check_scope_ok policy source objects u :
  check_scope policy source objects = Ok u → Forall (in_policy policy source) objects.
Proof.
  induction objects as [|[b k] rest IH]; [by constructor|]. cbn [check_scope].
  destruct (_ && _) eqn:Hsame.
  { intros H. constructor; [|by apply IH]. left. apply andb_true_iff in Hsame as [Hb Hk].
    apply String.eqb_eq in Hb, Hk. by subst. }
  destruct (negb (b =? ps_Bucket source)%string && _) eqn:Hb; [done|].
  destruct (negb (key_in_policy policy k)) eqn:Hk; [done|]. intros H. constructor; [|by apply IH]. right. split; cbn.
  - destruct (String.eqb_spec b (ps_Bucket source)) as [->|]; [by left|right].
    apply negb_false_iff, existsb_elem in Hb as (p & Hp & Hm). exists p. split; [done|]. cbv beta in Hm. by destruct (path_match p b) as [[|]|].
  - apply negb_false_iff in Hk. unfold key_in_policy in Hk. destruct (wpp_KeyPrefixes policy) as [|p ps]; [by left|right].
    apply existsb_elem in Hk as (q & Hq & Hm). by exists q.
Qed.

Definition accepted_operation (policy : WASMPluginOperationPolicy) (source : PluginSource) (op : WASMPluginOperation) : Prop :=
  operation_allowed policy (wo_Type op) = true
  ∧ wo_Type op ∈ [WASMPluginOperationMetadataPatch; WASMPluginOperationTagsPatch; WASMPluginOperationObjectDelete;
                  WASMPluginOperationObjectCopy]
  ∧ Forall (λ o, safe_key o.2 ∧ in_policy policy source o) (operation_objects op).

Lemma validate_operation_ok policy source i seen op op' :
  validate_operation policy source i seen op = Ok op' → wo_ID op' ∉ seen ∧ accepted_operation policy source op'.
Proof.
  unfold validate_operation. cbv zeta. rsimpl.
  generalize (if (trim_space (wo_ID op) =? "")%string then op <| wo_ID ::= trim_space |> <| wo_ID := "operation-" +:+ itoa (Z.of_nat i + 1) |>
              else op <| wo_ID ::= trim_space |>). intros op1 H.
  split_ok H as u0 E0. split_ok H as u1 E1. split_ok H as op2 E2. split_ok H as u3 E3. injection H as <-.
  apply normalizeOperation_ok in E2 as (Ht & Hid & Hsafe & Hty). revert Ht Hid Hty E0 E1. rsimpl. intros Ht Hid Hty E0 E1.
  apply orb_false_iff in E0 as [_ E0]. apply bool_decide_eq_false in E0. apply negb_false_iff in E1.
  unfold accepted_operation. rewrite Ht, Hid. split_and!; try done.
  apply check_scope_ok in E3. by apply Forall_and.
Qed.

Lemma validate_operations_ok policy source i seen ops ops' :
  validate_operations policy source i seen ops = Ok ops' →
  List.length ops' = List.length ops ∧ NoDup (wo_ID <$> ops') ∧ Forall (λ op, wo_ID op ∉ seen) ops' ∧
  Forall (accepted_operation policy source) ops'.
Proof.
  revert i seen ops'. induction ops as [|op ops IH]; intros i seen ops' H; cbn [validate_operations] in H.
  { injection H as <-. split_and!; try done; constructor. }
  split_ok H as op1 E1. split_ok H as rest E2. injection H as <-.
  apply validate_operation_ok in E1 as [Hnew Hacc]. apply IH in E2 as (Hlen & Hdup & Hfresh & Hall). split_and!.
  - cbn. by rewrite Hlen.
  - rewrite fmap_cons. constructor; [|done]. intros Hin. apply list_elem_of_fmap in Hin as (o & Ho & Hin).
    rewrite Forall_forall in Hfresh. specialize (Hfresh o Hin). rewrite <- Ho in Hfresh. by apply Hfresh, list_elem_of_here.
  - constructor; [done|]. eapply Forall_impl; [exact Hfresh|]. intros o Ho Hin. apply Ho. by apply list_elem_of_further.
  - by constructor.
Qed.

(** The capability boundary of WASM plugins: a list of operations that
    the check accepts keeps its length, has at most 32 operations with
    distinct identifiers, each of an allowed and supported type, and every
    object an operation reads or writes is the source object itself or lies in
    a bucket and under a prefix of the policy, at a key without empty, dot or
    double dot elements. *)
Theorem operations_stay_in_policy plugin source ops ops' :
  ValidateOperations plugin source ops = Ok ops' →
  List.length ops' = List.length ops ∧ (List.length ops' ≤ 32)%nat ∧ NoDup (wo_ID <$> ops') ∧
  Forall (accepted_operation (wp_OperationPolicy plugin) source) ops'.
Proof.
  unfold ValidateOperations. destruct ops as [|op ops]; [intros [= <-]; split_and!; try constructor; simpl; lia|].
  destruct (operation_limit _ <? _) eqn:Hlimit; [done|]. intros H.
  apply validate_operations_ok in H as (Hlen & Hdup & _ & Hall). split_and!; try done.
  rewrite Hlen. unfold operation_limit, maxOperations in Hlimit. lia.
Qed.

Definition demo_policy : WASMPluginOperationPolicy :=
  MkWASMPluginOperationPolicy ["object.copy"; "object.delete"] ["team-*"] ["out/"] 4.

Definition demo_copy : WASMPluginOperation :=
  zero_WASMPluginOperation <| wo_Type := "object.copy" |> <| wo_Bucket := "team-b" |> <| wo_Key := "out/./x//y" |>.

Lemma operations_stay_in_policy_witness :
  ∃ ops, ValidateOperations (zero_WASMPlugin <| wp_OperationPolicy := demo_policy |>) (MkPluginSource "b" "k") [demo_copy] = Ok ops
    ∧ (List.length ops ≤ 32)%nat.
Proof.
  edestruct (operations_stay_in_policy (zero_WASMPlugin <| wp_OperationPolicy := demo_policy |>) (MkPluginSource "b" "k")
               [demo_copy]) as (_ & Hle & _); [vm_compute; reflexivity|].
  eexists. split; [vm_compute; reflexivity|exact Hle].
Defined.

(** The boundary refuses what leaves the policy. *)
Example operations_refuse_bucket :
  is_ok (ValidateOperations (zero_WASMPlugin <| wp_OperationPolicy := demo_policy |>) (MkPluginSource "b" "k")
           [demo_copy <| wo_Bucket := "other" |>]) = false.
Proof. vm_compute. reflexivity. Qed.

Example operations_refuse_traversal :
  is_ok (ValidateOperations (zero_WASMPlugin <| wp_OperationPolicy := demo_policy |>) (MkPluginSource "b" "k")
           [demo_copy <| wo_Key := "out/../../x" |>]) = false.
Proof. vm_compute. reflexivity. Qed.
