(* ===== verification/World.v ===== *)
(** The world the service runs in: its database, the remote services behind
    the provider adapters, the clock, the random source and the faults.

    A function of the program that reads or changes any of them is a value of
    [M A], explicit state passing over [World]. What the environment answers is
    fixed by an [Env]: the n-th reading of the clock, the n-th random draw, the
    n-th database statement that fails and how, and for every provider kind an
    adapter whose answers may depend on the whole history of remote calls.
    Theorems quantify over the environment, so they hold for every behaviour of
    the remote services and every pattern of database faults. *)
From S2P Require Import Prelude GoTime Domain.

(** ** Remote calls *)

(** An [io.Reader]: the bytes it yields, then an error instead of end of file
    when [rd_err] is set. *)
Record Reader : Type := MkReader { rd_data : string; rd_err : option error }.

(** [provider.PreparedUpload]: the durable spool of an upload. *)
Record PreparedUpload : Type := MkPreparedUpload {
  pu_File : string; pu_Size : Z; pu_ChecksumSHA256 : string }.

Inductive Call : Type :=
| CallPut (account : ProviderAccount) (input : PutObjectInput) (body : Reader)
| CallPutPrepared (account : ProviderAccount) (input : PutObjectInput) (upload : PreparedUpload)
| CallGet (account : ProviderAccount) (obj : ObjectRecord)
| CallHead (account : ProviderAccount) (obj : ObjectRecord)
| CallDelete (account : ProviderAccount) (obj : ObjectRecord)
| CallHealth (account : ProviderAccount)
| CallListObjects (account : ProviderAccount) (bucket prefix token : string) (limit : Z)
| CallQuota (account : ProviderAccount)
| CallDiscover (account : ProviderAccount)
| CallHTTP (method url payload : string) (headers : gmap string string).

(** [provider.Adapter] with its optional capabilities. Each answer may depend
    on every remote call made before. *)
Record Adapter : Type := MkAdapter {
  ad_Put : list Call → ProviderAccount → PutObjectInput → Reader → result StoredObject;
  ad_PutPrepared : option (list Call → ProviderAccount → PutObjectInput → PreparedUpload → result StoredObject);
  ad_Get : list Call → ProviderAccount → ObjectRecord → result (Reader * ObjectRecord);
  ad_Head : list Call → ProviderAccount → ObjectRecord → result ObjectRecord;
  ad_Delete : list Call → ProviderAccount → ObjectRecord → result unit;
  ad_Health : list Call → ProviderAccount → ProviderHealth;
  ad_ListObjects : option (list Call → ProviderAccount → string → string → string → Z → result ProviderObjectPage);
  ad_Quota : option (list Call → ProviderAccount → result (Z * Z * string));
  ad_DiscoverBuckets : option (list Call → ProviderAccount → result (list ProviderBucket));
  ad_Capabilities : option (ProviderAccount → ProviderCapabilities) }.

(** ** The database *)

(** A row of [object_attributes]. *)
Record AttributesRow : Type := MkAttributesRow {
  ar_Metadata : gmap string string;
  ar_Tags : gmap string string;
  ar_VersionID : string;
  ar_RetentionMode : string;
  ar_RetainUntil : Time;
  ar_LegalHold : bool;
  ar_UpdatedAt : Time }.

(** A row of [object_embeddings]: the values are the bytes of [values_blob]. *)
Record EmbeddingRow : Type := MkEmbeddingRow { er_embedding : ObjectEmbedding; er_blob : string }.

(** A row of [maintenance_leases]. *)
Record LeaseRow : Type := MkLeaseRow { ls_LeasedUntil : Time; ls_UpdatedAt : Time }.

(** The tables of [migrateSchema], each a finite map from its primary key to
    its row; a row holds only the columns of its table (the other fields of a
    shared struct are zero). *)
Record DB : Type := MkDB {
  db_providers : gmap string ProviderAccount;
  db_reservations : gmap string ProviderReservation;
  db_buckets : gmap string Bucket;
  db_objects : gmap (string * string) ObjectRecord;
  db_attributes : gmap (string * string) AttributesRow;
  db_versions : gmap (string * string * string) ObjectRecord;
  db_trash : gmap string TrashRecord;
  db_replicas : gmap (string * string * string) ObjectReplica;
  db_embeddings : gmap string EmbeddingRow;
  db_hooks : gmap string Hook;
  db_deliveries : gmap string HookDelivery;
  db_notifications : gmap (string * string * string) BucketNotification;
  db_migrations : gmap string MigrationJob;
  db_repairs : gmap string RepairJob;
  db_inventories : gmap string InventoryJob;
  db_alerts : gmap string Alert;
  db_audits : gmap string AuditEvent;
  db_leases : gmap string LeaseRow;
  db_uploads : gmap string MultipartUpload;
  db_parts : gmap (string * Z) MultipartPart;
  db_plugins : gmap string WASMPlugin;
  db_jobs : gmap string WASMPluginJob;
  db_credentials : gmap string AccessCredential }.
#[global] Instance DB_settable : Settable DB := settable! MkDB
  < db_providers ; db_reservations ; db_buckets ; db_objects ; db_attributes ; db_versions ; db_trash ;
    db_replicas ; db_embeddings ; db_hooks ; db_deliveries ; db_notifications ; db_migrations ; db_repairs ;
    db_inventories ; db_alerts ; db_audits ; db_leases ; db_uploads ; db_parts ; db_plugins ; db_jobs ;
    db_credentials >.

Definition empty_DB : DB :=
  MkDB ∅ ∅ ∅ ∅ ∅ ∅ ∅ ∅ ∅ ∅ ∅ ∅ ∅ ∅ ∅ ∅ ∅ ∅ ∅ ∅ ∅ ∅ ∅.

(** ** The environment *)

(** The part of [config.Config] the modelled code reads. *)
Record Config : Type := MkConfig {
  cfg_MaxUploadBytes : Z;
  cfg_WASMEnabled : bool;
  cfg_MultipartStagingDir : string;
  cfg_MaxMultipartPartBytes : Z;
  cfg_MaxModuleBytes : Z;
  cfg_DefaultTimeoutMillis : Z;
  cfg_DefaultMemoryLimitBytes : Z;
  cfg_DefaultMaxInputBytes : Z;
  cfg_DefaultMaxOutputBytes : Z;
  cfg_DefaultMaxAttempts : Z;
  cfg_AccessKey : string;
  cfg_SecretKey : string;
  cfg_Region : string }.

Class Env : Type := MkEnv {
  env_config : Config;
  env_now : nat → Time;
  env_random : nat → nat → string;           (* draw index, bytes: their hex text *)
  env_db_fault : nat → option error;         (* the n-th statement or transaction *)
  env_fs_fault : nat → option error;         (* the n-th use of the local file system *)
  env_cwd : string;                          (* os.Getwd, without its leading slash *)
  env_registry : string → option Adapter;    (* provider.Registry, by kind *)
  env_decrypt : string → result string;      (* SecretBox.Decrypt *)
  env_encrypt : nat → string → result string; (* SecretBox.Encrypt, with the nonce of a random draw *)
  env_http : list Call → string → string → string → gmap string string → result Z }. (* HTTP status *)

Record World : Type := MkWorld {
  w_db : DB;
  w_calls : list Call;                       (* the last call first *)
  w_clock : nat;
  w_draws : nat;
  w_stmts : nat;
  w_files : nat;
  w_staging : gmap (list string) string;     (* the local files, by the elements of their absolute path *)
  w_workers : list (string * option error * Time) }. (* recordWorkerFailure, recordWorkerSuccess, the last first *)
#[global] Instance World_settable : Settable World := settable! MkWorld
  < w_db ; w_calls ; w_clock ; w_draws ; w_stmts ; w_files ; w_staging ; w_workers >.

Definition start (d : DB) : World := MkWorld d [] 0 0 0 0 ∅ [].

(** ** The monad *)

Definition M (A : Type) : Type := World → A * World.

Definition ret {A} (a : A) : M A := λ w, (a, w).
Definition bind {A B} (m : M A) (k : A → M B) : M B := λ w, k (m w).1 (m w).2.
Definition bind_ok {A B} (m : M (result A)) (k : A → M (result B)) : M (result B) :=
  bind m (λ r, match r with Ok a => k a | Err e => ret (Err e) end).

Notation "'let!' x := m 'in' k" := (bind m (λ x, k))
  (at level 10, x pattern, m at level 100, k at level 200) : go_scope.
Notation "'let?' x := m 'in' k" := (bind_ok m (λ x, k))
  (at level 10, x pattern, m at level 100, k at level 200) : go_scope.

Definition ret_ok {A} (a : A) : M (result A) := ret (Ok a).
Definition ret_err {A} (e : error) : M (result A) := ret (Err e).

Definition lift {A} (r : result A) : M (result A) := ret r.

(** [_ = f()]: the error is dropped. *)
Definition ignore {A} (m : M (result A)) : M unit := bind m (λ _, ret tt).

(** [fmt.Errorf("msg: %w", err)] *)
Definition wrap_err {A} (msg : string) (m : M (result A)) : M (result A) :=
  bind m (λ r, ret (match r with Ok a => Ok a | Err e => Err (ErrWrap msg e) end)).

Section operations.
Context `{Env}.

(** [time.Now().UTC()] *)
Definition now : M Time := λ w, (env_now (w_clock w), w <| w_clock ::= S |>).

(** [app.randomIdentifier] *)
Definition randomIdentifier (prefix : string) (bytes : nat) : M string :=
  λ w, (prefix +:+ env_random (w_draws w) bytes, w <| w_draws ::= S |>).

(** One SQL statement or one transaction. It may fail, and then the database
    is as before: a failed statement changes no row and a transaction that
    does not commit is rolled back. *)
Definition sql {A} (f : DB → result (A * DB)) : M (result A) := λ w,
  let w1 := w <| w_stmts ::= S |> in
  match env_db_fault (w_stmts w) with
  | Some e => (Err e, w1)
  | None =>
      match f (w_db w) with
      | Ok (a, d) => (Ok a, w1 <| w_db := d |>)
      | Err e => (Err e, w1)
      end
  end.

Definition sql_read {A} (f : DB → result A) : M (result A) :=
  sql (λ d, result_map (λ a, (a, d)) (f d)).

Definition sql_write (f : DB → result DB) : M (result unit) :=
  sql (λ d, result_map (λ d', (tt, d')) (f d)).

(** A use of the local file system that the model only sees fail. *)
Definition file_op : M (result unit) := λ w,
  (match env_fs_fault (w_files w) with Some e => Err e | None => Ok tt end, w <| w_files ::= S |>).

(** A remote call: the adapter answers from the history, which grows. *)
Definition remote {A} (c : Call) (f : list Call → A) : M A :=
  λ w, (f (w_calls w), w <| w_calls ::= cons c |>).

Definition adapter_put (a : Adapter) (account : ProviderAccount) (input : PutObjectInput) (body : Reader) : M (result StoredObject) :=
  remote (CallPut account input body) (λ h, ad_Put a h account input body).
Definition adapter_get (a : Adapter) (account : ProviderAccount) (obj : ObjectRecord) : M (result (Reader * ObjectRecord)) :=
  remote (CallGet account obj) (λ h, ad_Get a h account obj).
Definition adapter_head (a : Adapter) (account : ProviderAccount) (obj : ObjectRecord) : M (result ObjectRecord) :=
  remote (CallHead account obj) (λ h, ad_Head a h account obj).
Definition adapter_delete (a : Adapter) (account : ProviderAccount) (obj : ObjectRecord) : M (result unit) :=
  remote (CallDelete account obj) (λ h, ad_Delete a h account obj).
Definition adapter_health (a : Adapter) (account : ProviderAccount) : M ProviderHealth :=
  remote (CallHealth account) (λ h, ad_Health a h account).

(** What a worker reports about itself is only recorded. *)
Definition recordWorkerFailure (worker : string) (e : error) : M unit :=
  λ w, (tt, w <| w_workers ::= cons (worker, Some e, zero_time) |>).
Definition recordWorkerSuccess (worker : string) : M unit :=
  bind now (λ t w, (tt, w <| w_workers ::= cons (worker, None, t) |>)).

(** [for _, x := range l { ... }] without and with early return. *)
Fixpoint for_each {A} (l : list A) (body : A → M unit) : M unit :=
  match l with
  | [] => ret tt
  | x :: l => let! _ := body x in for_each l body
  end.

Fixpoint for_each_ok {A} (l : list A) (body : A → M (result unit)) : M (result unit) :=
  match l with
  | [] => ret_ok tt
  | x :: l => let? _ := body x in for_each_ok l body
  end.
End operations.

(** ** Reasoning

    [pres R m]: whatever happens, [m] takes a world to one related by [R].
    With a reflexive and transitive [R] this is a compositional frame or
    invariant rule: [R] is "the remote calls are the same", "the table of
    objects is the same", or "the invariant still holds". *)

Definition pres {A} (R : World → World → Prop) (m : M A) : Prop := ∀ w, R w (m w).2.

(** [triple P m Q]: partial and total correctness coincide, [M] is total. *)
Definition triple {A} (P : World → Prop) (m : M A) (Q : A → World → Prop) : Prop :=
  ∀ w, P w → Q (m w).1 (m w).2.

(** What a relation on worlds built from one on databases must allow. *)
Definition on_db (R : DB → DB → Prop) (w w' : World) : Prop := R (w_db w) (w_db w').
Definition same_calls (w w' : World) : Prop := w_calls w' = w_calls w.
Definition keeps (I : DB → Prop) (d d' : DB) : Prop := I d → I d'.

#[global] Instance on_db_preorder R `{!PreOrder R} : PreOrder (on_db R).
Proof.
  unfold on_db. split; [intros w; apply reflexivity | intros w1 w2 w3 H1 H2; by etrans].
Qed.
#[global] Instance same_calls_preorder : PreOrder same_calls.
Proof. unfold same_calls. split; [done | intros ???; congruence]. Qed.
#[global] Instance keeps_preorder I : PreOrder (keeps I).
Proof. unfold keeps. split; red; auto. Qed.

(** The local files are the same. *)
Definition same_files (w w' : World) : Prop := w_staging w' = w_staging w.

#[global] Instance same_files_preorder : PreOrder same_files.
Proof. unfold same_files. split; [done | intros ???; congruence]. Qed.

(** The remote calls made since all satisfy [P]. *)
Definition calls_only (P : Call → Prop) (w w' : World) : Prop := ∃ l, w_calls w' = l ++ w_calls w ∧ Forall P l.

#[global] Instance calls_only_preorder P : PreOrder (calls_only P).
Proof.
  split; [intros w; by exists []|]. intros w1 w2 w3 (l & H1 & Hl) (l' & H2 & Hl').
  exists (l' ++ l). split; [by rewrite H2, H1, app_assoc|]. by apply Forall_app.
Qed.

Lemma calls_only_impl (P Q : Call → Prop) w w' : (∀ c, P c → Q c) → calls_only P w w' → calls_only Q w w'.
Proof. intros HPQ (l & Hl & Hall). exists l. split; [done|]. by eapply Forall_impl. Qed.

Lemma same_calls_only P w w' : same_calls w w' → calls_only P w w'.
Proof. intros Hs. exists []. by split. Qed.

Create HintDb pres discriminated.

Section pres_rules.
Context `{Env} (R : World → World → Prop) `{!PreOrder R}.

Lemma pres_ret {A} (a : A) : pres R (ret a).
Proof. intros w. apply reflexivity. Qed.

Lemma pres_bind {A B} (m : M A) (k : A → M B) :
  pres R m → (∀ a, pres R (k a)) → pres R (bind m k).
Proof. intros Hm Hk w. unfold bind. etrans; [apply Hm | apply Hk]. Qed.

Lemma pres_bind_post {A B} (P : A → Prop) (m : M A) (k : A → M B) :
  pres R m → (∀ w, P (m w).1) → (∀ a, P a → pres R (k a)) → pres R (bind m k).
Proof. intros Hm HP Hk w. unfold bind. etrans; [apply Hm | by apply Hk]. Qed.

Lemma pres_bind_ok {A B} (m : M (result A)) (k : A → M (result B)) :
  pres R m → (∀ a, pres R (k a)) → pres R (bind_ok m k).
Proof. intros Hm Hk. apply pres_bind; [done|]. intros [a|e]; [apply Hk | apply pres_ret]. Qed.

Lemma pres_for_each {A} (l : list A) (body : A → M unit) :
  (∀ x, x ∈ l → pres R (body x)) → pres R (for_each l body).
Proof.
  induction l as [|x l IH]; intros Hb; simpl; [apply pres_ret|].
  apply pres_bind; [apply Hb; constructor|]. intros _. apply IH. intros y Hy. apply Hb. by constructor.
Qed.

Lemma pres_for_each_ok {A} (l : list A) (body : A → M (result unit)) :
  (∀ x, x ∈ l → pres R (body x)) → pres R (for_each_ok l body).
Proof.
  induction l as [|x l IH]; intros Hb; simpl; [apply pres_ret|].
  apply pres_bind_ok; [apply Hb; constructor|]. intros _. apply IH. intros y Hy. apply Hb. by constructor.
Qed.

Lemma pres_ignore {A} (m : M (result A)) : pres R m → pres R (ignore m).
Proof. intros Hm. apply pres_bind; [done|]. intros _. apply pres_ret. Qed.

Lemma pres_wrap_err {A} msg (m : M (result A)) : pres R m → pres R (wrap_err msg m).
Proof. intros Hm. apply pres_bind; [done|]. intros a. apply pres_ret. Qed.
End pres_rules.

(** Primitive operations against a relation between databases. *)
Section on_db_rules.
Context `{Env} (R : DB → DB → Prop) `{!PreOrder R}.

Lemma pres_sql {A} (f : DB → result (A * DB)) :
  (∀ d a d', f d = Ok (a, d') → R d d') → pres (on_db R) (sql f).
Proof.
  intros Hf w. unfold sql, on_db. destruct (env_db_fault _); [exact (reflexivity (w_db w))|].
  destruct (f (w_db w)) as [[a d']|e] eqn:Hfw; [by eapply Hf | exact (reflexivity (w_db w))].
Qed.

Lemma pres_sql_write (f : DB → result DB) :
  (∀ d d', f d = Ok d' → R d d') → pres (on_db R) (sql_write f).
Proof.
  intros Hf. apply pres_sql. intros d [] d'. destruct (f d) eqn:Hd; simpl; [|done].
  intros [= <-]. by apply Hf.
Qed.

Lemma pres_sql_read {A} (f : DB → result A) : pres (on_db R) (sql_read f).
Proof. apply pres_sql. intros d a d'. destruct (f d); simpl; [|done]. by intros [= _ <-]. Qed.

Lemma pres_now : pres (on_db R) now.
Proof. intros w. exact (reflexivity (w_db w)). Qed.

Lemma pres_randomIdentifier prefix n : pres (on_db R) (randomIdentifier prefix n).
Proof. intros w. exact (reflexivity (w_db w)). Qed.

Lemma pres_file_op : pres (on_db R) file_op.
Proof. intros w. exact (reflexivity (w_db w)). Qed.

Lemma pres_remote {A} c (f : list Call → A) : pres (on_db R) (remote c f).
Proof. intros w. exact (reflexivity (w_db w)). Qed.

Lemma pres_recordWorkerFailure name e : pres (on_db R) (recordWorkerFailure name e).
Proof. intros w. exact (reflexivity (w_db w)). Qed.

Lemma pres_recordWorkerSuccess name : pres (on_db R) (recordWorkerSuccess name).
Proof. intros w. exact (reflexivity (w_db w)). Qed.
End on_db_rules.

(** Everything but [remote] leaves the history of remote calls alone. *)
Section same_calls_rules.
Context `{Env}.

Lemma calls_sql {A} (f : DB → result (A * DB)) : pres same_calls (sql f).
Proof.
  intros w. unfold sql, same_calls. destruct (env_db_fault _); [done|].
  by destruct (f (w_db w)) as [[a d']|e].
Qed.

Lemma calls_sql_read {A} (f : DB → result A) : pres same_calls (sql_read f).
Proof. apply calls_sql. Qed.

Lemma calls_sql_write (f : DB → result DB) : pres same_calls (sql_write f).
Proof. apply calls_sql. Qed.

Lemma calls_remote {A} (P : Call → Prop) c (f : list Call → A) : P c → pres (calls_only P) (remote c f).
Proof. intros Hc w. exists [c]. split; [done|]. by constructor. Qed.

Lemma pres_same_calls_only {A} P (m : M A) : pres same_calls m → pres (calls_only P) m.
Proof. intros Hm w. apply same_calls_only, Hm. Qed.

Lemma calls_now : pres same_calls now.
Proof. by intros w. Qed.

Lemma calls_randomIdentifier prefix n : pres same_calls (randomIdentifier prefix n).
Proof. by intros w. Qed.

Lemma calls_file_op : pres same_calls file_op.
Proof. by intros w. Qed.

Lemma calls_recordWorkerFailure name e : pres same_calls (recordWorkerFailure name e).
Proof. by intros w. Qed.

Lemma calls_recordWorkerSuccess name : pres same_calls (recordWorkerSuccess name).
Proof. by intros w. Qed.
End same_calls_rules.

(** Nothing here touches a local file. *)
Section same_files_rules.
Context `{Env}.

Lemma files_sql {A} (f : DB → result (A * DB)) : pres same_files (sql f).
Proof.
  intros w. unfold sql, same_files. destruct (env_db_fault _); [done|].
  by destruct (f (w_db w)) as [[a d']|e].
Qed.

Lemma files_sql_read {A} (f : DB → result A) : pres same_files (sql_read f).
Proof. apply files_sql. Qed.

Lemma files_sql_write (f : DB → result DB) : pres same_files (sql_write f).
Proof. apply files_sql. Qed.

Lemma files_remote {A} c (f : list Call → A) : pres same_files (remote c f).
Proof. by intros w. Qed.

Lemma files_now : pres same_files now.
Proof. by intros w. Qed.

Lemma files_randomIdentifier prefix n : pres same_files (randomIdentifier prefix n).
Proof. by intros w. Qed.

Lemma files_file_op : pres same_files file_op.
Proof. by intros w. Qed.

Lemma files_recordWorkerFailure name e : pres same_files (recordWorkerFailure name e).
Proof. by intros w. Qed.
End same_files_rules.

#[global] Hint Resolve files_sql files_sql_read files_sql_write files_remote files_now files_randomIdentifier files_file_op
  files_recordWorkerFailure : pres.

#[global] Hint Resolve pres_recordWorkerSuccess calls_recordWorkerSuccess pres_now pres_randomIdentifier pres_file_op pres_remote pres_recordWorkerFailure
  pres_sql_read calls_sql calls_sql_read calls_sql_write calls_now calls_randomIdentifier calls_file_op
  calls_recordWorkerFailure : pres.

(** [pres_step] takes a program apart along its binds, branches and loops and
    leaves the calls it has no rule for; [pres_auto] also tries the [pres]
    database on those. *)
Ltac pres_step :=
  lazymatch goal with
  | |- pres _ (ret _) => apply pres_ret; apply _
  | |- pres _ (ret_ok _) => apply pres_ret; apply _
  | |- pres _ (ret_err _) => apply pres_ret; apply _
  | |- pres _ (lift _) => apply pres_ret; apply _
  | |- pres _ (bind_ok _ _) => apply pres_bind_ok; [apply _| |]
  | |- pres _ (bind _ _) => apply pres_bind; [apply _| |]
  | |- pres _ (ignore _) => apply pres_ignore; [apply _|]
  | |- pres _ (wrap_err _ _) => apply pres_wrap_err; [apply _|]
  | |- pres _ (for_each _ _) => apply pres_for_each; [apply _|]
  | |- pres _ (for_each_ok _ _) => apply pres_for_each_ok; [apply _|]
  | |- pres _ (let _ := _ in _) => cbv zeta
  | |- pres _ (match ?x with _ => _ end) => destruct x eqn:?
  | |- ∀ _, _ => intro
  end.

Ltac pres_auto := repeat first [pres_step | solve [eauto 3 with pres typeclass_instances]].

(** ** Frames

    [same f d d']: the part [f] of the database, usually one table, is as it
    was. [frame_auto] proves that an operation has that frame: it opens the
    operation down to its statements and every statement down to the record
    updates it makes. *)
Definition same {A} (f : DB → A) (d d' : DB) : Prop := f d' = f d.

#[global] Instance same_preorder {A} (f : DB → A) : PreOrder (same f).
Proof. unfold same. split; [done | intros ???; congruence]. Qed.

Ltac head t := lazymatch t with ?f _ => head f | _ => t end.

Ltac tx_step :=
  match goal with
  | |- ∀ _, _ => intro
  | |- same _ _ _ => solve [unfold same; reflexivity]
  | H : Err _ = Ok _ |- _ => discriminate H
  | H : Ok _ = Err _ |- _ => discriminate H
  | H : Ok _ = Ok _ |- _ => injection H as H
  | H : (_, _) = (_, _) |- _ => injection H as ??
  | H : ?x = _ |- _ => is_var x; subst x
  | H : _ = ?x |- _ => is_var x; subst x
  | H : match ?x with _ => _ end = _ |- _ => destruct x eqn:?
  | H : ?t = Ok _ |- _ => let h := head t in unfold h in H; cbv beta zeta in H
  | H : ?t = (_, ?d) |- _ => match type of d with DB => let h := head t in unfold h in H; cbv beta zeta in H end
  | |- same _ _ (match ?x with _ => _ end) => destruct x eqn:?
  | |- same _ _ ?t => let h := head t in unfold h; cbv beta zeta
  end.

Ltac frame_tx :=
  lazymatch goal with
  | |- pres _ (sql_write _) => apply pres_sql_write; [apply _|]
  | |- pres _ (sql _) => apply pres_sql; [apply _|]
  end; repeat tx_step.

Ltac open_op := lazymatch goal with |- pres _ ?m => let h := head m in unfold h end.

Ltac frame_auto :=
  repeat first [pres_step | solve [eauto 3 with pres typeclass_instances] | solve [frame_tx] | open_op].

(** ** Inversion of runs *)

Lemma bind_inv {A B} (m : M A) (k : A → M B) w r :
  bind m k w = r → ∃ a w1, m w = (a, w1) ∧ k a w1 = r.
Proof. unfold bind. destruct (m w) as [a w1]. eauto. Qed.

Lemma bind_ok_inv {A B} (m : M (result A)) (k : A → M (result B)) w b w' :
  bind_ok m k w = (Ok b, w') → ∃ a w1, m w = (Ok a, w1) ∧ k a w1 = (Ok b, w').
Proof. unfold bind_ok, bind. destruct (m w) as [[a|e] w1]; simpl; [eauto | done]. Qed.

(** Either outcome of the first step. *)
Lemma bind_ok_cases {A B} (m : M (result A)) (k : A → M (result B)) w r w' :
  bind_ok m k w = (r, w') →
  (∃ e, m w = (Err e, w') ∧ r = Err e) ∨ (∃ a w1, m w = (Ok a, w1) ∧ k a w1 = (r, w')).
Proof. unfold bind_ok, bind, ret. destruct (m w) as [[a|e] w1]; simpl; [eauto|]. intros [= <- <-]. eauto. Qed.

Lemma wrap_err_cases {A} msg (m : M (result A)) w r w' :
  wrap_err msg m w = (r, w') → (∃ a, r = Ok a ∧ m w = (Ok a, w')) ∨ (∃ e, r = Err (ErrWrap msg e) ∧ m w = (Err e, w')).
Proof. unfold wrap_err, bind, ret. destruct (m w) as [[a|e] w1]; simpl; intros [= <- <-]; eauto. Qed.

Lemma pres_run {A} (R : World → World → Prop) (m : M A) w a w' : pres R m → m w = (a, w') → R w w'.
Proof. intros Hm Hw. specialize (Hm w). by rewrite Hw in Hm. Qed.

(** [frame R H as F]: [F] is what the run [H] of an operation keeps. *)
Tactic Notation "frame" constr(R) hyp(H) "as" ident(F) :=
  eassert (R _ _) as F by (eapply (pres_run R); [|exact H]; first [solve [pres_auto] | solve [frame_auto]]).

Lemma sql_write_inv `{Env} f w w' : sql_write f w = (Ok tt, w') → f (w_db w) = Ok (w_db w').
Proof.
  unfold sql_write, sql. destruct (env_db_fault _); [done|]. destruct (f (w_db w)); simpl; [|done]. by intros [= <-].
Qed.

Lemma sql_read_inv `{Env} {A} (f : DB → result A) w a w' :
  sql_read f w = (Ok a, w') → f (w_db w) = Ok a ∧ w_db w' = w_db w.
Proof.
  unfold sql_read, sql. destruct (env_db_fault _); [done|]. destruct (f (w_db w)); simpl; [|done]. by intros [= <- <-].
Qed.

(** A run, split into its result and its world. *)
Lemma run_pair {A} (m : M A) w a : (m w).1 = a → m w = (a, (m w).2).
Proof. intros <-. by destruct (m w). Qed.

(** Forward: a run whose first step is known. *)
Lemma bind_run {A B} (m : M A) (k : A → M B) w a w1 : m w = (a, w1) → bind m k w = k a w1.
Proof. unfold bind. by intros ->. Qed.

Lemma bind_ok_run {A B} (m : M (result A)) (k : A → M (result B)) w a w1 : m w = (Ok a, w1) → bind_ok m k w = k a w1.
Proof. unfold bind_ok, bind. by intros ->. Qed.

Lemma bind_err_run {A B} (m : M (result A)) (k : A → M (result B)) w e w1 : m w = (Err e, w1) → bind_ok m k w = (Err e, w1).
Proof. unfold bind_ok, bind. by intros ->. Qed.

(** The environment of a run in which no statement fails. *)
Definition no_db_faults `{Env} : Prop := ∀ n, env_db_fault n = None.

Lemma sql_read_quiet `{Env} {A} (f : DB → result A) w :
  no_db_faults → sql_read f w = (f (w_db w), w <| w_stmts ::= S |>).
Proof. intros Hq. unfold sql_read, sql. rewrite Hq. by destruct (f (w_db w)). Qed.

Lemma sql_write_quiet `{Env} (f : DB → result DB) w d :
  no_db_faults → f (w_db w) = Ok d → sql_write f w = (Ok tt, (w <| w_stmts ::= S |>) <| w_db := d |>).
Proof. intros Hq Hf. unfold sql_write, sql. by rewrite Hq, Hf. Qed.

(** [run_fwd by t]: the next step of a run, [t] proving what it does. *)
Tactic Notation "run_fwd" "by" tactic3(t) :=
  cbv beta iota zeta;
  first [erewrite bind_ok_run by t | erewrite bind_run by t | erewrite bind_err_run by t];
  cbv beta iota zeta.

(** [run_inv H as ...]: the next step of a run that returned. *)
Tactic Notation "run_inv" hyp(H) "as" simple_intropattern(a) simple_intropattern(w) simple_intropattern(E) :=
  cbv zeta in H;
  lazymatch type of H with
  | bind_ok _ _ _ = _ => apply bind_ok_inv in H as (a & w & E & H)
  | bind _ _ _ = _ => apply bind_inv in H as (a & w & E & H)
  end.

(** A quiet environment for concrete runs: a clock that stands still, numbered
    identifiers, no faults, and the given adapters. *)
Definition quiet_config : Config :=
  MkConfig 1000000 false "/staging" 100000 1000 30000 1000000 1000 1000 3 "root" "secret" "auto".

Definition quiet_env (t : Time) (registry : string → option Adapter) : Env :=
  MkEnv quiet_config (λ _, t) (λ n _, itoa (Z.of_nat n)) (λ _, None) (λ _, None) ""
    registry (λ s, Ok s) (λ _ s, Ok s) (λ _ _ _ _ _, Ok 200).
