(* ===== verification/Drivers.v ===== *)
(** What the provider adapters of [src/internal/provider] have in common: the
    monad of one operation, the HTTP requests they send, the health records and
    the errors they make of answers ([health.go], [errors.go]). *)
From S2P Require Import Prelude GoTime Sha256 Json Text Url Http HttpDate Domain ProviderErrors World.

(** ** HTTP clients *)

Record ClientRequest : Type := MkClientRequest {
  cr_Method : string;
  cr_URL : ParsedURL;
  cr_Header : Values;
  cr_ContentLength : Z;
  cr_Body : Reader }.
#[global] Instance ClientRequest_settable : Settable ClientRequest := settable! MkClientRequest
  < cr_Method ; cr_URL ; cr_Header ; cr_ContentLength ; cr_Body >.

(** [http.Response], with how much of the request's body had been read. *)
Record ClientResponse : Type := MkClientResponse {
  cs_Status : Z; cs_Header : Values; cs_ContentLength : Z; cs_Body : Reader; cs_Sent : nat }.

Definition empty_body : Reader := MkReader "" None.

(** [http.NewRequestWithContext] of a URL written by [String]: it is read back
    as it is. *)
Definition client_request (method : string) (u : ParsedURL) (body : Reader) : ClientRequest := MkClientRequest method u ∅ 0 body.

Definition with_header (name value : string) (r : ClientRequest) : ClientRequest :=
  r <| cr_Header ::= insert (canonical_header_key name) [value] |>.

Definition cr_header (r : ClientRequest) (name : string) : string := header_get (cr_Header r) name.
Definition cs_header (r : ClientResponse) (name : string) : string := header_get (cs_Header r) name.

(** [u.Path = path], then [u.String()] read back: the escaped form is kept when
    it stands for the same path. *)
Definition with_path (path : string) (u : ParsedURL) : ParsedURL :=
  let escaped := if (path =? pu_Path u)%string then pu_EscapedPath u else encode_path path in
  let lead := if (escaped =? "")%string || has_prefix escaped "/" || (pu_Host u =? "")%string then ""%string else "/"%string in
  MkParsedURL (pu_Scheme u) (pu_Host u) (lead +:+ path) (lead +:+ escaped) (pu_RawQuery u).

Definition with_query (query : Values) (u : ParsedURL) : ParsedURL :=
  MkParsedURL (pu_Scheme u) (pu_Host u) (pu_Path u) (pu_EscapedPath u) (values_encode query).

(** [io.ReadAll(io.LimitReader(body, 4096))], the error dropped *)
Definition response_text (r : ClientResponse) : string := string_take 4096 (rd_data (cs_Body r)).

Definition success (status : Z) : bool := (200 <=? status) && (status <=? 299).

(** ** Local files *)

Inductive DiskNode : Type :=
| DiskFile (data : string) (modified : Time)
| DiskDir.

(** The tree under the root directory, by the elements of absolute paths. *)
Notation Disk := (@gmap (list string) (@list_eq_dec string String.eq_dec) (@list_countable string String.eq_dec String.countable) DiskNode).

(** ** Operations *)

(** What the adapters leave to the operating system, the network and the Go
    library. The answers may depend on the calls the service has made before
    and on the step within the operation. *)
Class DriverHost : Type := {
  dh_clock : list Call → nat → Time;
  dh_fault : list Call → nat → option error;                       (* of the local disk *)
  dh_random : list Call → nat → Z;                                 (* the number in a temporary name *)
  dh_send : list Call → nat → ClientRequest → result ClientResponse; (* http.Client.Do *)
  dh_disk : Disk;                                                  (* at the start of the process *)
  dh_cwd : string;                                                 (* without its leading slash *)
  dh_statfs : list Call → Z * Z * Z * Z;                           (* blocks, free, available, block size *)
  dh_dir_size : list Call → list string → Z;                       (* what stat says of a directory *)
  dh_mime : string → string;                                       (* mime.TypeByExtension *)
  dh_url : string → result ParsedURL;                              (* url.Parse *)
  dh_zone : string → Time → option Z;
  dh_buckets : Reader → result (list (string * string));           (* names and dates *)
  dh_objects : Reader → result (list (string * string * string * Z) * string) }. (* key, date, ETag, size; next token *)

Record OpState : Type := MkOpState { os_disk : Disk; os_step : nat }.
#[global] Instance OpState_settable : Settable OpState := settable! MkOpState < os_disk ; os_step >.

Definition Op (A : Type) : Type := OpState → A * OpState.

Definition op_ret {A} (a : A) : Op A := λ s, (a, s).
Definition op_bind {A B} (m : Op A) (k : A → Op B) : Op B := λ s, k (m s).1 (m s).2.
Definition op_bind_ok {A B} (m : Op (result A)) (k : A → Op (result B)) : Op (result B) :=
  op_bind m (λ r, match r with Ok a => k a | Err e => op_ret (Err e) end).

Notation "'do!' x := m 'in' k" := (op_bind m (λ x, k))
  (at level 10, x pattern, m at level 100, k at level 200) : go_scope.
Notation "'do?' x := m 'in' k" := (op_bind_ok m (λ x, k))
  (at level 10, x pattern, m at level 100, k at level 200) : go_scope.

Definition op_ok {A} (a : A) : Op (result A) := op_ret (Ok a).
Definition op_err {A} (e : error) : Op (result A) := op_ret (Err e).
Definition op_lift {A} (r : result A) : Op (result A) := op_ret r.

Definition op_wrap {A} (msg : string) (m : Op (result A)) : Op (result A) :=
  op_bind m (λ r, op_ret (match r with Ok a => Ok a | Err e => Err (ErrWrap msg e) end)).

Section operations.
Context `{DriverHost}.
Variable calls : list Call. (* made before the operation *)

(** [time.Now().UTC()] *)
Definition op_now : Op Time := λ s, (dh_clock calls (os_step s), s <| os_step ::= S |>).

(** [client.Do(req)] *)
Definition op_send (r : ClientRequest) : Op (result ClientResponse) := λ s, (dh_send calls (os_step s) r, s <| os_step ::= S |>).

(** A system call on the disk: it fails, or does what it does. *)
Definition syscall {A} (f : Disk → result A * Disk) : Op (result A) := λ s,
  let s1 := s <| os_step ::= S |> in
  match dh_fault calls (os_step s) with
  | Some e => (Err e, s1)
  | None => let '(r, d) := f (os_disk s) in (r, s1 <| os_disk := d |>)
  end.

(** ** Health *)

Definition driver_health (account : ProviderAccount) (started : Time) (status message : string) : Op ProviderHealth :=
  do! t := op_now in
  op_ret (MkProviderHealth (p_ID account) status message t (Z.quot (wrap64 (t - started)) 1000000)).

Definition healthy (account : ProviderAccount) (started : Time) (message : string) : Op ProviderHealth :=
  driver_health account started ProviderHealthHealthy message.
Definition degraded (account : ProviderAccount) (started : Time) (message : string) : Op ProviderHealth :=
  driver_health account started ProviderHealthDegraded message.
Definition unhealthy (account : ProviderAccount) (started : Time) (message : string) : Op ProviderHealth :=
  driver_health account started ProviderHealthUnhealthy message.

(** ** Errors *)

(** The clock is read for a date only. *)
Definition retryAfter (value : string) : Op Duration :=
  let value := trim_space value in
  if (value =? "")%string then op_ret 0
  else match parse_int64 value with
       | Some seconds => if 0 <=? seconds then op_ret (duration_mul seconds second) else
           match ParseTime dh_zone value with
           | Some at_ => do! t := op_now in op_ret (Z.max 0 (at_ - t))
           | None => op_ret 0
           end
       | None =>
           match ParseTime dh_zone value with
           | Some at_ => do! t := op_now in op_ret (Z.max 0 (at_ - t))
           | None => op_ret 0
           end
       end.

(** [HTTPError(op, res, body)] with the text of the answer. *)
Definition HTTPError (op : string) (r : ClientResponse) : Op error :=
  let text := response_text r in
  do! retry := retryAfter (cs_header r "Retry-After") in
  op_ret (ErrProvider op (http_failure_kind (cs_Status r) text) (cs_Status r) retry (ErrText (trim_space text))).

Definition http_refusal {A} (op : string) (r : ClientResponse) : Op (result A) :=
  do! e := HTTPError op r in op_err e.

(** [&Error{Op: op, Kind: FailureUnavailable, Err: err}] of a request that was
    not answered. *)
Definition unanswered (op : string) (e : error) : error := ErrProvider op FailureUnavailable 0 0 e.

Definition send_or (failed : error → error) (r : ClientRequest) : Op (result ClientResponse) :=
  do! answer := op_send r in
  op_ret (match answer with Ok res => Ok res | Err e => Err (failed e) end).
End operations.
