(* ===== verification/Sql.v ===== *)
(** What the store's SQL uses of the database engine: selection from a table,
    ORDER BY with several keys, LIMIT, LIKE patterns and aggregates, with the
    lemmas the store's theorems share. *)
From S2P Require Import Prelude GoTime Domain World.

(** ** Comparators: ORDER BY keys *)

Definition Cmp (A : Type) : Type := A → A → comparison.

Definition by_text {A} (f : A → string) : Cmp A := λ x y, String.compare (f x) (f y).
Definition by_int {A} (f : A → Z) : Cmp A := λ x y, Z.compare (f x) (f y).
Definition by_time {A} (f : A → Time) : Cmp A := by_text (λ x, time_text (f x)).
Definition desc {A} (c : Cmp A) : Cmp A := λ x y, c y x.
Definition then_by {A} (c d : Cmp A) : Cmp A :=
  λ x y, match c x y with Eq => d x y | o => o end.

Definition cmp_leb {A} (c : Cmp A) (x y : A) : bool :=
  match c x y with Gt => false | _ => true end.

Definition cmp_le {A} (c : Cmp A) (x y : A) : Prop := c x y ≠ Gt.
#[global] Instance cmp_le_dec {A} (c : Cmp A) x y : Decision (cmp_le c x y).
Proof. unfold cmp_le. solve_decision. Defined.

(** Rows of a table, selected and sorted. Rows that compare equal on every key
    come in the order of the map, as SQL leaves their order open. *)
Definition rows {K V} `{Countable K} (m : gmap K V) : list V := (map_to_list m).*2.

Definition order_by {A} (c : Cmp A) (l : list A) : list A := merge_sort (cmp_le c) l.

Definition where_ {A} (P : A → bool) (l : list A) : list A := List.filter P l.

Definition limit {A} (n : Z) (l : list A) : list A := take (Z.to_nat n) l.

Definition sum_Z (l : list Z) : Z := foldr Z.add 0 l.

(** How many rows of a table satisfy a WHERE clause, and their update and
    deletion. *)
Definition update_where {K V} `{Countable K} (P : V → bool) (f : V → V) (m : gmap K V) : gmap K V :=
  (λ v, if P v then f v else v) <$> m.

Definition delete_where {K V} `{Countable K} (P : V → bool) (m : gmap K V) : gmap K V :=
  filter (λ kv, P kv.2 = false) m.

Definition count_where {K V} `{Countable K} (P : V → bool) (m : gmap K V) : Z :=
  Z.of_nat (List.length (where_ P (rows m))).

(** UPDATE of the row with a given key when it satisfies the WHERE clause, and
    the number of rows affected. *)
Definition update_row {K V} `{Countable K} (k : K) (P : V → bool) (f : V → V) (m : gmap K V) : Z * gmap K V :=
  match m !! k with
  | Some v => if P v then (1, <[k := f v]> m) else (0, m)
  | None => (0, m)
  end.

(** [s LIKE pattern] in the SQLite dialect: [%] any text, [_] any one
    character, ASCII letters without regard to case. *)
Fixpoint like (pattern s : string) : bool :=
  match pattern with
  | ""%string => match s with ""%string => true | _ => false end
  | String p pattern' =>
      if ascii_dec p "%" then
        (fix any (s : string) : bool :=
           like pattern' s || match s with ""%string => false | String _ s' => any s' end) s
      else match s with
           | ""%string => false
           | String c s' =>
               (if ascii_dec p "_" then true else Ascii.eqb (lower_byte p) (lower_byte c)) && like pattern' s'
           end
  end.

Definition not_found {A} : result A := Err (ErrSentinel ErrNotFound).

(** ** Laws of comparators *)

Class CmpLaws {A} (c : Cmp A) : Prop := {
  cmp_opp : ∀ x y, c y x = CompOpp (c x y);
  cmp_lt_trans : ∀ x y z, c x y = Lt → c y z = Lt → c x z = Lt;
  cmp_eq_l : ∀ x y z, c x y = Eq → c x z = c y z
}.

Lemma string_compare_lt_trans (x y z : string) :
  String.compare x y = Lt → String.compare y z = Lt → String.compare x z = Lt.
Proof.
  revert y z. induction x as [|a x IH]; intros [|b y] [|c z]; simpl; try done.
  unfold Ascii.compare.
  destruct (N.compare_spec (N_of_ascii a) (N_of_ascii b)) as [Hab|Hab|Hab]; try done;
  destruct (N.compare_spec (N_of_ascii b) (N_of_ascii c)) as [Hbc|Hbc|Hbc]; try done; intros H1 H2.
  - destruct (N.compare_spec (N_of_ascii a) (N_of_ascii c)); [by eapply IH | done | lia].
  - destruct (N.compare_spec (N_of_ascii a) (N_of_ascii c)); [lia | done | lia].
  - destruct (N.compare_spec (N_of_ascii a) (N_of_ascii c)); [lia | done | lia].
  - destruct (N.compare_spec (N_of_ascii a) (N_of_ascii c)); [lia | done | lia].
Qed.

#[global] Instance by_text_laws {A} (f : A → string) : CmpLaws (by_text f).
Proof.
  unfold by_text. split.
  - intros x y. apply String.compare_antisym.
  - intros x y z. apply string_compare_lt_trans.
  - intros x y z H. apply String.compare_eq_iff in H. by rewrite H.
Qed.

#[global] Instance by_int_laws {A} (f : A → Z) : CmpLaws (by_int f).
Proof.
  unfold by_int. split.
  - intros x y. apply Z.compare_antisym.
  - intros x y z. rewrite !Z.compare_lt_iff. lia.
  - intros x y z H. apply Z.compare_eq in H. by rewrite H.
Qed.

#[global] Instance by_time_laws {A} (f : A → Time) : CmpLaws (by_time f).
Proof. apply by_text_laws. Qed.

Section laws.
Context {A : Type} (c : Cmp A) `{!CmpLaws c}.

Lemma cmp_refl x : c x x = Eq.
Proof. pose proof (cmp_opp (c := c) x x). by destruct (c x x). Qed.

Lemma cmp_eq_r x y z : c y z = Eq → c x y = c x z.
Proof.
  intros H. rewrite (cmp_opp (c := c) y x), (cmp_opp (c := c) z x). f_equal.
  by apply (cmp_eq_l (c := c)).
Qed.

#[global] Instance desc_laws : CmpLaws (desc c).
Proof.
  unfold desc. split.
  - intros x y. by apply (cmp_opp (c := c)).
  - intros x y z H1 H2. by apply (cmp_lt_trans (c := c) z y x).
  - intros x y z H. symmetry. apply cmp_eq_r. done.
Qed.

#[global] Instance then_by_laws (d : Cmp A) `{!CmpLaws d} : CmpLaws (then_by c d).
Proof.
  unfold then_by. split.
  - intros x y. rewrite (cmp_opp (c := c) x y). destruct (c x y); simpl; try done. by apply (cmp_opp (c := d)).
  - intros x y z.
    destruct (c x y) eqn:Hxy; [| |done]; destruct (c y z) eqn:Hyz; try done; intros H1 H2.
    + rewrite (cmp_eq_l (c := c) _ _ _ Hxy), Hyz. by apply (cmp_lt_trans (c := d) x y z).
    + by rewrite (cmp_eq_l (c := c) _ _ _ Hxy), Hyz.
    + by rewrite <- (cmp_eq_r _ _ _ Hyz), Hxy.
    + by rewrite (cmp_lt_trans (c := c) _ _ _ Hxy Hyz).
  - intros x y z. destruct (c x y) eqn:Hxy; try done. intros H.
    rewrite (cmp_eq_l (c := c) _ _ _ Hxy). destruct (c y z); try done. by apply (cmp_eq_l (c := d)).
Qed.

#[global] Instance cmp_le_total : Total (cmp_le c).
Proof. unfold cmp_le. intros x y. rewrite (cmp_opp (c := c) x y). destruct (c x y); naive_solver. Qed.

#[global] Instance cmp_le_trans : Transitive (cmp_le c).
Proof.
  unfold cmp_le. intros x y z H1 H2 H3.
  destruct (c x y) eqn:Hxy; [| |done].
  - rewrite (cmp_eq_l (c := c) _ _ _ Hxy) in H3. done.
  - destruct (c y z) eqn:Hyz; [| |done].
    + rewrite (cmp_eq_r _ _ _ Hyz) in Hxy. congruence.
    + rewrite (cmp_lt_trans (c := c) _ _ _ Hxy Hyz) in H3. done.
Qed.

Lemma order_by_sorted l : StronglySorted (cmp_le c) (order_by c l).
Proof. apply StronglySorted_merge_sort; apply _. Qed.
End laws.

#[global] Typeclasses Opaque by_text by_int by_time desc then_by.

Lemma order_by_perm {A} (c : Cmp A) l : order_by c l ≡ₚ l.
Proof. apply merge_sort_Permutation. Qed.

Lemma elem_of_order_by {A} (c : Cmp A) l x : x ∈ order_by c l ↔ x ∈ l.
Proof. by rewrite order_by_perm. Qed.

Lemma elem_of_where {A} (P : A → bool) l x : x ∈ where_ P l ↔ x ∈ l ∧ P x = true.
Proof. unfold where_. rewrite !list_elem_of_In. apply filter_In. Qed.

Lemma elem_of_rows {K V} `{Countable K} (m : gmap K V) v : v ∈ rows m ↔ ∃ k, m !! k = Some v.
Proof.
  unfold rows. rewrite list_elem_of_fmap. split.
  - intros ([k v'] & -> & Hk). exists k. by apply elem_of_map_to_list.
  - intros (k & Hk). exists (k, v). split; [done|]. by apply elem_of_map_to_list.
Qed.

Lemma rows_NoDup {K V} `{Countable K} (key : V → K) (m : gmap K V) :
  (∀ k v, m !! k = Some v → key v = k) → NoDup (rows m).
Proof.
  intros Hkey. unfold rows.
  apply (NoDup_fmap_1 key). rewrite <- list_fmap_compose.
  erewrite list_fmap_ext with (g := fst); [apply NoDup_fst_map_to_list|].
  intros i [k v] Hi. simpl. apply Hkey. apply elem_of_map_to_list. by eapply list_elem_of_lookup_2.
Qed.

Lemma elem_of_limit {A} n (l : list A) x : x ∈ limit n l → x ∈ l.
Proof. unfold limit. intros Hx. rewrite <- (take_drop (Z.to_nat n) l). apply elem_of_app. by left. Qed.

Lemma sum_Z_cons x l : sum_Z (x :: l) = x + sum_Z l.
Proof. done. Qed.

Lemma sum_Z_app l k : sum_Z (l ++ k) = sum_Z l + sum_Z k.
Proof. induction l as [|x l IH]; simpl; lia. Qed.

Lemma sum_Z_perm l k : l ≡ₚ k → sum_Z l = sum_Z k.
Proof. induction 1; simpl; lia. Qed.

(** ** Sums over a table *)

Definition sum_of {K V} `{Countable K} (g : V → Z) (m : gmap K V) : Z := sum_Z (g <$> rows m).

Lemma sum_where {A} (P : A → bool) (g : A → Z) l :
  sum_Z (g <$> where_ P l) = sum_Z ((λ x, if P x then g x else 0) <$> l).
Proof.
  unfold where_. induction l as [|x l IH]; [done|]. cbn [List.filter].
  destruct (P x) eqn:HP; rewrite !fmap_cons, ?sum_Z_cons, HP, IH; lia.
Qed.

Section sums.
Context {K V : Type} `{Countable K} (g : V → Z).
Implicit Types m : gmap K V.

Lemma sum_of_insert k v m : m !! k = None → sum_of g (<[k := v]> m) = g v + sum_of g m.
Proof.
  intros Hk. unfold sum_of, rows. rewrite <- !list_fmap_compose.
  rewrite (sum_Z_perm _ ((g ∘ snd) <$> ((k, v) :: map_to_list m))); [done|].
  apply fmap_Permutation. by apply map_to_list_insert.
Qed.

Lemma sum_of_delete k v m : m !! k = Some v → sum_of g m = g v + sum_of g (delete k m).
Proof.
  intros Hk. rewrite <- (sum_of_insert k v); [|apply lookup_delete_eq].
  by rewrite insert_delete_id.
Qed.

End sums.

Section more_sums.
Context {K V : Type} `{Countable K} (g : V → Z).
Implicit Types m : gmap K V.

Lemma sum_of_delete_where (P : V → bool) m :
  sum_of g m = sum_of (λ v, if P v then g v else 0) m + sum_of g (delete_where P m).
Proof.
  unfold delete_where. induction m as [|k v m Hk IH] using map_ind; [done|].
  rewrite !sum_of_insert by done. destruct (P v) eqn:HP.
  - rewrite map_filter_insert_False; [|simpl; congruence].
    rewrite delete_id by done. lia.
  - rewrite map_filter_insert_True by done.
    rewrite sum_of_insert; [lia|].
    apply map_lookup_filter_None_2. by left.
Qed.

Lemma sum_of_nonneg m : (∀ k v, m !! k = Some v → 0 ≤ g v) → 0 ≤ sum_of g m.
Proof.
  induction m as [|k v m Hk IH] using map_ind; intros Hg; [done|].
  rewrite sum_of_insert by done.
  assert (0 ≤ g v) by (eapply Hg; apply lookup_insert_eq).
  assert (0 ≤ sum_of g m); [|lia]. apply IH. intros k' v' Hk'.
  apply (Hg k'). rewrite lookup_insert_ne; congruence.
Qed.

Lemma sum_of_le_member k v m :
  (∀ k v, m !! k = Some v → 0 ≤ g v) → m !! k = Some v → g v ≤ sum_of g m.
Proof.
  intros Hg Hk. rewrite (sum_of_delete g k v) by done.
  assert (0 ≤ sum_of g (delete k m)); [|lia].
  apply sum_of_nonneg. intros k' v' Hk'. apply (Hg k'). by apply lookup_delete_Some in Hk' as [_ ?].
Qed.

Lemma lookup_delete_where (P : V → bool) m k v :
  delete_where P m !! k = Some v ↔ m !! k = Some v ∧ P v = false.
Proof. unfold delete_where. rewrite map_lookup_filter_Some. done. Qed.
End more_sums.

Lemma sum_of_ext {K V} `{Countable K} (g h : V → Z) (m : gmap K V) :
  (∀ k v, m !! k = Some v → g v = h v) → sum_of g m = sum_of h m.
Proof.
  intros Hgh. unfold sum_of. f_equal. apply list_fmap_ext. intros i v Hi.
  assert (v ∈ rows m) as [k Hk]%elem_of_rows by (by apply list_elem_of_lookup_2 in Hi). by eapply Hgh.
Qed.

Lemma sum_of_zero {K V} `{Countable K} (g : V → Z) (m : gmap K V) : (∀ v, g v = 0) → sum_of g m = 0.
Proof.
  intros Hg. unfold sum_of. induction (rows m) as [|v l IH]; [done|].
  rewrite fmap_cons, sum_Z_cons, IH, Hg. done.
Qed.

Lemma update_row_spec {K V} `{Countable K} k P (f : V → V) (m : gmap K V) n m' :
  update_row k P f m = (n, m') →
  (∃ v, m !! k = Some v ∧ P v = true ∧ n = 1 ∧ m' = <[k := f v]> m) ∨
  ((∀ v, m !! k = Some v → P v = false) ∧ n = 0 ∧ m' = m).
Proof.
  unfold update_row. destruct (m !! k) as [v|] eqn:Hk; [destruct (P v) eqn:HP|]; intros [= <- <-]; naive_solver.
Qed.

Lemma text_ltb_compare a b : text_ltb a b = match String.compare a b with Lt => true | _ => false end.
Proof.
  unfold text_ltb, String.leb. destruct (String.compare a b) eqn:Hc; simpl.
  - apply String.compare_eq_iff in Hc as ->. by rewrite String.eqb_refl.
  - destruct (String.eqb_spec a b) as [->|]; [|done]. pose proof (cmp_refl (by_text (λ x : string, x)) b). unfold by_text in *. congruence.
  - done.
Qed.

Lemma text_ltb_lt a b : text_ltb a b = true ↔ String.compare a b = Lt.
Proof. rewrite text_ltb_compare. by destruct (String.compare a b). Qed.
