(* ===== verification/StoreProviders.v ===== *)
(** The store's provider accounts and the quota ledger kept in them:
    [store/quota.go] and the provider section of [store/store.go]. *)
From S2P Require Import Prelude GoTime Domain World Sql.

Definition constraint_failed (what : string) : error := ErrText (what +:+ " constraint failed").

(** The columns of [provider_accounts]: the decrypted secret is not one. *)
Definition provider_row (p : ProviderAccount) : ProviderAccount := p <| p_SecretKey := "" |>.

(** ON CONFLICT(id) DO UPDATE of [UpsertProvider]: configuration columns only. *)
Definition provider_conflict (old new : ProviderAccount) : ProviderAccount :=
  old <| p_Name := p_Name new |> <| p_Kind := p_Kind new |> <| p_Endpoint := p_Endpoint new |>
      <| p_Region := p_Region new |> <| p_Bucket := p_Bucket new |> <| p_AccessKey := p_AccessKey new |>
      <| p_SecretEncrypted := p_SecretEncrypted new |> <| p_CapacityBytes := p_CapacityBytes new |>
      <| p_Priority := p_Priority new |> <| p_Enabled := p_Enabled new |>
      <| p_Settings := p_Settings new |> <| p_UpdatedAt := p_UpdatedAt new |>.

Definition upsert_provider_row (p : ProviderAccount) (d : DB) : DB :=
  d <| db_providers ::= λ m,
    <[p_ID p := match m !! p_ID p with
                | Some old => provider_conflict old p
                | None => provider_row p
                end]> m |>.

(** DELETE FROM provider_accounts: rows of [objects] and [inventory_jobs] that
    name the provider forbid it, its reservations go with it. *)
Definition provider_referenced (id : string) (d : DB) : bool :=
  existsb (λ o, (o_ProviderAccountID o =? id)%string) (rows (db_objects d))
  || existsb (λ j, (ij_ProviderAccountID j =? id)%string) (rows (db_inventories d)).

Definition delete_provider_row (id : string) (d : DB) : result DB :=
  match db_providers d !! id with
  | None => Ok d
  | Some _ =>
      if provider_referenced id d then Err (constraint_failed "FOREIGN KEY")
      else Ok (d <| db_providers ::= delete id |>
                 <| db_reservations ::= delete_where (λ r, (rs_ProviderAccountID r =? id)%string) |>)
  end.

(** UPDATE provider_accounts SET ... WHERE id = ?, with no other condition. *)
Definition update_provider (id : string) (f : ProviderAccount → ProviderAccount) (d : DB) : DB :=
  d <| db_providers ::= λ m, (update_row id (λ _, true) f m).2 |>.

(** *** The quota ledger *)

(** The first UPDATE of a reservation: a new month starts with no uploads. *)
Definition reset_month (period : string) (p : ProviderAccount) : ProviderAccount :=
  if negb (p_MonthlyPeriod p =? period)%string
  then p <| p_MonthlyUploadedBytes := 0 |> <| p_MonthlyPeriod := period |> else p.

(** [CASE WHEN capacity > margin THEN capacity - margin ELSE 0 END] *)
Definition capacity_limit (capacity margin : Z) : Z :=
  if margin <? capacity then capacity - margin else 0.

(** The WHERE clause of the second UPDATE. *)
Definition reservable (bytes margin monthly : Z) (at_time : Time) (p : ProviderAccount) : bool :=
  p_Enabled p
  && ((p_AvailabilityStatus p =? "")%string
      || ((p_AvailabilityStatus p =? "throttled")%string || (p_AvailabilityStatus p =? "unavailable")%string)
         && negb (formatOptionalTime (p_UnavailableUntil p) =? "")%string
         && sql_opttime_le (p_UnavailableUntil p) at_time)
  && ((p_CapacityBytes p <=? 0)
      || (p_UsedBytes p + p_ReservedBytes p + bytes <=? capacity_limit (p_CapacityBytes p) margin))
  && ((p_RemoteCapacityBytes p <=? 0)
      || (p_RemoteUsedBytes p + p_ReservedBytes p + bytes <=? capacity_limit (p_RemoteCapacityBytes p) margin))
  && ((monthly <=? 0) || (p_MonthlyUploadedBytes p + p_ReservedBytes p + bytes <=? monthly)).

Definition reserve_tx (r : ProviderReservation) (margin monthly : Z) (period : string) (at_time : Time)
    (d : DB) : result (bool * DB) :=
  let pid := rs_ProviderAccountID r in
  let d1 := update_provider pid (reset_month period) d in
  let hold p := p <| p_ReservedBytes ::= λ b, b + rs_Bytes r |> <| p_MonthlyPeriod := period |> <| p_UpdatedAt := at_time |> in
  let '(changed, providers) := update_row pid (reservable (rs_Bytes r) margin monthly at_time) hold (db_providers d1) in
  if negb (changed =? 1) then Ok (false, d)   (* the transaction is rolled back *)
  else match db_reservations d1 !! rs_ID r with
       | Some _ => Err (constraint_failed "UNIQUE")
       | None => Ok (true, d1 <| db_providers := providers |> <| db_reservations ::= <[rs_ID r := r]> |>)
       end.

(** COALESCE((SELECT bytes FROM provider_reservations WHERE id = ?), 0) *)
Definition reservation_bytes (id : string) (d : DB) : Z :=
  match db_reservations d !! id with Some r => rs_Bytes r | None => 0 end.

(** [CASE WHEN reserved < n THEN 0 ELSE reserved - n END] *)
Definition release_bytes (n reserved : Z) : Z := if reserved <? n then 0 else reserved - n.

(** UPDATE provider_accounts ... WHERE id = (SELECT provider_account_id FROM
    provider_reservations WHERE id = ?) *)
Definition update_reserving_provider (id : string) (f : ProviderAccount → ProviderAccount) (d : DB) : Z * DB :=
  match db_reservations d !! id with
  | None => (0, d)
  | Some r =>
      let '(changed, providers) := update_row (rs_ProviderAccountID r) (λ _, true) f (db_providers d) in
      (changed, d <| db_providers := providers |>)
  end.

Definition commit_tx (id : string) (actual : Z) (at_time : Time) (d : DB) : result (unit * DB) :=
  let n := reservation_bytes id d in
  let settle p :=
    p <| p_ReservedBytes ::= release_bytes n |> <| p_UsedBytes ::= Z.add actual |>
      <| p_MonthlyUploadedBytes ::= Z.add actual |> <| p_AvailabilityStatus := "" |>
      <| p_AvailabilityMessage := "" |> <| p_UnavailableUntil := zero_time |> <| p_UpdatedAt := at_time |> in
  let '(changed, d1) := update_reserving_provider id settle d in
  if negb (changed =? 1) then not_found
  else Ok (tt, d1 <| db_reservations ::= delete id |>).

Definition release_tx (id : string) (at_time : Time) (d : DB) : result (unit * DB) :=
  let n := reservation_bytes id d in
  let give_back p := p <| p_ReservedBytes ::= release_bytes n |> <| p_UpdatedAt := at_time |> in
  let '(changed, d1) := update_reserving_provider id give_back d in
  if changed =? 0 then Ok (tt, d1)
  else Ok (tt, d1 <| db_reservations ::= delete id |>).

Definition reservation_expired (cutoff : Time) (r : ProviderReservation) : bool :=
  sql_time_le (rs_ExpiresAt r) cutoff.

(** SELECT SUM(bytes) of a provider's reservations that satisfy [P]. *)
Definition reserved_where (P : ProviderReservation → bool) (pid : string) (d : DB) : Z :=
  sum_Z (rs_Bytes <$> where_ (λ r, (rs_ProviderAccountID r =? pid)%string && P r) (rows (db_reservations d))).

Definition recover_tx (cutoff at_time : Time) (d : DB) : result (Z * DB) :=
  let expired := reservation_expired cutoff in
  let touched p := existsb (λ r, (rs_ProviderAccountID r =? p_ID p)%string && expired r) (rows (db_reservations d)) in
  let give_back p :=
    p <| p_ReservedBytes ::= release_bytes (reserved_where expired (p_ID p) d) |> <| p_UpdatedAt := at_time |> in
  Ok (count_where expired (db_reservations d),
      d <| db_providers ::= update_where touched give_back |>
        <| db_reservations ::= delete_where expired |>).

Section store.
Context `{Env}.

Definition UpsertProvider (p : ProviderAccount) : M (result unit) :=
  let! t := now in
  let p := if is_zero (p_CreatedAt p) then p <| p_CreatedAt := t |> else p in
  let p := p <| p_UpdatedAt := t |> in
  wrap_err "upsert provider" (sql_write (λ d, Ok (upsert_provider_row p d))).

Definition ListProviders (enabledOnly : bool) : M (result (list ProviderAccount)) :=
  wrap_err "list providers" (sql_read (λ d,
    Ok (order_by (then_by (by_int p_Priority) (by_text p_ID))
          (where_ (λ p, negb enabledOnly || p_Enabled p) (rows (db_providers d)))))).

Definition GetProvider (id : string) : M (result ProviderAccount) :=
  sql_read (λ d, match db_providers d !! id with Some p => Ok p | None => not_found end).

Definition DeleteProvider (id : string) : M (result unit) := sql_write (delete_provider_row id).

Definition AddProviderUsage (id : string) (delta : Z) : M (result unit) :=
  let! t := now in
  sql_write (λ d, Ok (update_provider id (λ p,
    p <| p_UsedBytes ::= λ u, if u + delta <? 0 then 0 else u + delta |> <| p_UpdatedAt := t |>) d)).

Definition ReserveProviderCapacity (reservation : ProviderReservation) (marginBytes monthlyLimitBytes : Z)
    (period : string) : M (result bool) :=
  if (rs_ID reservation =? "")%string || (rs_ProviderAccountID reservation =? "")%string || (rs_Bytes reservation <? 0)
  then ret_err (ErrText "reservation id, provider id and non-negative bytes are required")
  else
    let! reservation := (if is_zero (rs_CreatedAt reservation)
                         then let! t := now in ret (reservation <| rs_CreatedAt := t |>) else ret reservation) in
    let reservation := if is_zero (rs_ExpiresAt reservation)
                       then reservation <| rs_ExpiresAt := add_time (rs_CreatedAt reservation) hour |> else reservation in
    let marginBytes := if marginBytes <? 0 then 0 else marginBytes in
    let monthlyLimitBytes := if monthlyLimitBytes <? 0 then 0 else monthlyLimitBytes in
    let! t := now in
    sql (reserve_tx reservation marginBytes monthlyLimitBytes period t).

Definition CommitProviderReservation (reservationID : string) (actualBytes : Z) : M (result unit) :=
  if actualBytes <? 0 then ret_err (ErrText "actual bytes cannot be negative")
  else let! t := now in sql (commit_tx reservationID actualBytes t).

Definition ReleaseProviderReservation (reservationID : string) : M (result unit) :=
  let! t := now in sql (release_tx reservationID t).

Definition RecoverExpiredProviderReservations (before : Time) : M (result Z) :=
  let! t := now in sql (recover_tx before t).

Definition SetProviderUsage (id : string) (usedBytes : Z) (source : string) (checkedAt : Time) : M (result unit) :=
  let usedBytes := if usedBytes <? 0 then 0 else usedBytes in
  let! t := now in
  sql_write (λ d, Ok (update_provider id (λ p,
    let quota := (p_AvailabilityStatus p =? "quota")%string in
    p <| p_UsedBytes := usedBytes |> <| p_QuotaSource := source |> <| p_QuotaCheckedAt := checkedAt |>
      <| p_AvailabilityStatus := if quota then "" else p_AvailabilityStatus p |>
      <| p_AvailabilityMessage := if quota then "" else p_AvailabilityMessage p |>
      <| p_UpdatedAt := t |>) d)).

Definition SetProviderRemoteQuota (id : string) (capacityBytes usedBytes : Z) (source : string) (checkedAt : Time) : M (result unit) :=
  let capacityBytes := if capacityBytes <? 0 then 0 else capacityBytes in
  let usedBytes := if usedBytes <? 0 then 0 else usedBytes in
  let! t := now in
  sql_write (λ d, Ok (update_provider id (λ p,
    p <| p_RemoteCapacityBytes := capacityBytes |> <| p_RemoteUsedBytes := usedBytes |>
      <| p_QuotaSource := source |> <| p_QuotaCheckedAt := checkedAt |> <| p_UpdatedAt := t |>) d)).

Definition MarkProviderUnavailable (id status message : string) (until : Time) : M (result unit) :=
  let! t := now in
  sql_write (λ d, Ok (update_provider id (λ p,
    p <| p_AvailabilityStatus := status |> <| p_AvailabilityMessage := message |>
      <| p_UnavailableUntil := until |> <| p_UpdatedAt := t |>) d)).

Definition ClearProviderUnavailable (id : string) : M (result unit) :=
  let! t := now in
  sql_write (λ d, Ok (update_provider id (λ p,
    p <| p_AvailabilityStatus := "" |> <| p_AvailabilityMessage := "" |>
      <| p_UnavailableUntil := zero_time |> <| p_UpdatedAt := t |>) d)).
End store.

(** ** Histories of the ledger

    The operations that several requests and workers interleave on the
    [provider_accounts] and [provider_reservations] tables. *)
Inductive quota_event : Type :=
| EvUpsert (p : ProviderAccount)
| EvDelete (id : string)
| EvReserve (r : ProviderReservation) (margin monthly : Z) (period : string)
| EvCommit (id : string) (actual : Z)
| EvRelease (id : string)
| EvRecover (cutoff : Time)
| EvAddUsage (id : string) (delta : Z)
| EvSetUsage (id : string) (used : Z) (source : string) (checked : Time)
| EvSetRemoteQuota (id : string) (capacity used : Z) (source : string) (checked : Time)
| EvMark (id status message : string) (until : Time)
| EvClear (id : string).

(** A configured account has no reservation of its own yet. *)
Definition event_ok (e : quota_event) : Prop :=
  match e with EvUpsert p => p_ReservedBytes p = 0 | _ => True end.

Definition run_event `{Env} (e : quota_event) : M unit :=
  match e with
  | EvUpsert p => ignore (UpsertProvider p)
  | EvDelete id => ignore (DeleteProvider id)
  | EvReserve r margin monthly period => ignore (ReserveProviderCapacity r margin monthly period)
  | EvCommit id actual => ignore (CommitProviderReservation id actual)
  | EvRelease id => ignore (ReleaseProviderReservation id)
  | EvRecover cutoff => ignore (RecoverExpiredProviderReservations cutoff)
  | EvAddUsage id delta => ignore (AddProviderUsage id delta)
  | EvSetUsage id used source checked => ignore (SetProviderUsage id used source checked)
  | EvSetRemoteQuota id capacity used source checked => ignore (SetProviderRemoteQuota id capacity used source checked)
  | EvMark id status message until => ignore (MarkProviderUnavailable id status message until)
  | EvClear id => ignore (ClearProviderUnavailable id)
  end.

Definition run_events `{Env} (es : list quota_event) : M unit := for_each es run_event.

(** ** The ledger invariant

    [quota_ok]: a provider's [reserved_bytes] is the sum of its live
    reservations, every reservation belongs to an existing provider and no
    reservation is negative. *)

Definition held (pid : string) (r : ProviderReservation) : Z :=
  if (rs_ProviderAccountID r =? pid)%string then rs_Bytes r else 0.

Definition reserved_for (pid : string) (m : gmap string ProviderReservation) : Z := sum_of (held pid) m.

Record ledger_ok (providers : gmap string ProviderAccount) (reservations : gmap string ProviderReservation) : Prop := {
  ledger_provider : ∀ k p, providers !! k = Some p → p_ID p = k ∧ p_ReservedBytes p = reserved_for k reservations;
  ledger_reservation : ∀ k r, reservations !! k = Some r →
    rs_ID r = k ∧ 0 ≤ rs_Bytes r ∧ is_Some (providers !! rs_ProviderAccountID r)
}.

Definition quota_ok (d : DB) : Prop := ledger_ok (db_providers d) (db_reservations d).

(** Two databases with the same ledger: the same reservations, and the same
    identity and [reserved_bytes] for every provider. *)
Definition ledger_view (m : gmap string ProviderAccount) : gmap string (string * Z) :=
  (λ p, (p_ID p, p_ReservedBytes p)) <$> m.

Definition same_ledger (d d' : DB) : Prop :=
  db_reservations d' = db_reservations d ∧ ledger_view (db_providers d') = ledger_view (db_providers d).

#[global] Instance same_ledger_preorder : PreOrder same_ledger.
Proof. unfold same_ledger. split; [done | intros d1 d2 d3 [] []; split; congruence]. Qed.

Lemma ledger_view_lookup m m' k p' :
  ledger_view m' = ledger_view m → m' !! k = Some p' →
  ∃ p, m !! k = Some p ∧ p_ID p = p_ID p' ∧ p_ReservedBytes p = p_ReservedBytes p'.
Proof.
  intros Hv Hk. assert (ledger_view m !! k = Some (p_ID p', p_ReservedBytes p')) as Hl.
  { rewrite <- Hv. unfold ledger_view. by rewrite lookup_fmap, Hk. }
  unfold ledger_view in Hl. rewrite lookup_fmap in Hl.
  destruct (m !! k) as [p|]; simpl in Hl; [|done]. injection Hl as H1 H2. by eauto.
Qed.

Lemma ledger_view_is_Some m m' k :
  ledger_view m' = ledger_view m → is_Some (m !! k) → is_Some (m' !! k).
Proof. intros Hv [p Hp]. by edestruct (ledger_view_lookup m' m) as (p' & -> & _). Qed.

Lemma same_ledger_ok d d' : same_ledger d d' → quota_ok d → quota_ok d'.
Proof.
  intros [Hr Hv] [Hp Hres]. split; rewrite Hr.
  - intros k p' Hk. destruct (ledger_view_lookup _ _ _ _ Hv Hk) as (p & Hk' & <- & <-). eauto.
  - intros k r Hk. destruct (Hres k r Hk) as (? & ? & ?). split_and!; [done..|].
    by eapply ledger_view_is_Some.
Qed.

Lemma update_provider_same id f d :
  (∀ p, p_ID (f p) = p_ID p ∧ p_ReservedBytes (f p) = p_ReservedBytes p) →
  same_ledger d (update_provider id f d).
Proof.
  intros Hf. split; [done|]. unfold update_provider, update_row; simpl.
  destruct (db_providers d !! id) as [p|] eqn:Hp; [|done]. simpl.
  unfold ledger_view. rewrite fmap_insert. apply insert_id.
  rewrite lookup_fmap, Hp. simpl. by destruct (Hf p) as [-> ->].
Qed.

Lemma held_nonneg d pid k r :
  quota_ok d → db_reservations d !! k = Some r → 0 ≤ held pid r.
Proof.
  intros [_ Hr] Hk. destruct (Hr k r Hk) as (_ & ? & _). unfold held. by destruct (_ =? _)%string.
Qed.

(** What changes the ledger: one provider's row and the reservations. *)
Lemma ledger_ok_change P R pid p p' R' :
  ledger_ok P R → P !! pid = Some p → p_ID p' = p_ID p →
  p_ReservedBytes p' = reserved_for pid R' →
  (∀ q, q ≠ pid → reserved_for q R' = reserved_for q R) →
  (∀ k r, R' !! k = Some r → rs_ID r = k ∧ 0 ≤ rs_Bytes r ∧ is_Some (P !! rs_ProviderAccountID r)) →
  ledger_ok (<[pid := p']> P) R'.
Proof.
  intros [Hp Hr] Hpid Hid Hres Hother Hwf. split.
  - intros k q Hk. destruct (decide (k = pid)) as [->|Hne].
    + rewrite lookup_insert_eq in Hk. injection Hk as <-. split; [|done].
      rewrite Hid. by apply Hp.
    + rewrite lookup_insert_ne in Hk by done. rewrite Hother by done. by apply Hp.
  - intros k r Hk. destruct (Hwf k r Hk) as (? & ? & [q Hq]). split_and!; [done..|].
    destruct (decide (rs_ProviderAccountID r = pid)) as [->|];
      [rewrite lookup_insert_eq | rewrite lookup_insert_ne by done]; eauto.
Qed.

Lemma reserved_for_insert pid k r m :
  m !! k = None → reserved_for pid (<[k := r]> m) = held pid r + reserved_for pid m.
Proof. apply sum_of_insert. Qed.

Lemma reserved_for_delete pid k r m :
  m !! k = Some r → reserved_for pid m = held pid r + reserved_for pid (delete k m).
Proof. apply sum_of_delete. Qed.

Lemma held_self r : held (rs_ProviderAccountID r) r = rs_Bytes r.
Proof. unfold held. by rewrite String.eqb_refl. Qed.

Lemma held_other pid r : pid ≠ rs_ProviderAccountID r → held pid r = 0.
Proof.
  intros Hne. unfold held. destruct (String.eqb_spec (rs_ProviderAccountID r) pid); congruence.
Qed.

Lemma reset_month_ledger period p :
  p_ID (reset_month period p) = p_ID p ∧ p_ReservedBytes (reset_month period p) = p_ReservedBytes p.
Proof. unfold reset_month. by destruct (negb _). Qed.

(** *** Every ledger transaction keeps the invariant *)

Lemma reserve_tx_inv r margin monthly period t d b d' :
  reserve_tx r margin monthly period t d = Ok (b, d') →
  (b = false ∧ d' = d) ∨
  (b = true ∧ ∃ p, db_providers d !! rs_ProviderAccountID r = Some p ∧
     reservable (rs_Bytes r) margin monthly t (reset_month period p) = true ∧
     db_reservations d !! rs_ID r = None ∧
     d' = d <| db_providers ::= insert (rs_ProviderAccountID r)
              ((reset_month period p) <| p_ReservedBytes ::= λ b, b + rs_Bytes r |>
                 <| p_MonthlyPeriod := period |> <| p_UpdatedAt := t |>) |>
            <| db_reservations ::= insert (rs_ID r) r |>).
Proof.
  unfold reserve_tx. destruct (update_row _ _ _ _) as [n m] eqn:Hrow.
  apply update_row_spec in Hrow as [(q & Hq & Hok & -> & ->) | (_ & -> & ->)]; simpl;
    [|intros [= <- <-]; by left].
  destruct (db_reservations d !! rs_ID r) eqn:Hr; [done|]. intros [= <- <-].
  right. split; [done|]. revert Hq. unfold update_provider, update_row. simpl.
  destruct (db_providers d !! rs_ProviderAccountID r) as [p|] eqn:Hp; simpl; [|by rewrite Hp].
  rewrite lookup_insert_eq. intros [= <-]. exists p. split_and!; try done.
  unfold set; simpl. by rewrite insert_insert_eq.
Qed.

Lemma reserve_tx_ok r margin monthly period t d b d' :
  0 ≤ rs_Bytes r → quota_ok d → reserve_tx r margin monthly period t d = Ok (b, d') → quota_ok d'.
Proof.
  intros Hb Hok [[-> ->] | (-> & p & Hp & _ & Hr & ->)]%reserve_tx_inv; [done|].
  destruct (reset_month_ledger period p) as [Hid Hres].
  pose proof Hok as [HP HR]. destruct (HP _ _ Hp) as [_ Hsum].
  eapply ledger_ok_change; [done | done | done | |  | ]; simpl.
  - rewrite reserved_for_insert, held_self by done. lia.
  - intros q Hq. rewrite reserved_for_insert, held_other by done. lia.
  - intros k r'. destruct (decide (rs_ID r = k)) as [<-|].
    + rewrite lookup_insert_eq. intros [= <-]. split_and!; eauto.
    + rewrite lookup_insert_ne by done. eauto.
Qed.

(** Commit and release delete a reservation and subtract its bytes. *)
Lemma settle_ok id r f d :
  quota_ok d → db_reservations d !! id = Some r →
  (∀ p, p_ID (f p) = p_ID p ∧ p_ReservedBytes (f p) = release_bytes (rs_Bytes r) (p_ReservedBytes p)) →
  ∃ p, db_providers d !! rs_ProviderAccountID r = Some p ∧
  quota_ok (d <| db_providers ::= insert (rs_ProviderAccountID r) (f p) |> <| db_reservations ::= delete id |>).
Proof.
  intros Hok Hr Hf. pose proof Hok as [HP HR]. destruct (HR _ _ Hr) as (Hid & Hb & [p Hp]).
  exists p. split; [done|]. destruct (Hf p) as [Hfid Hfr]. destruct (HP _ _ Hp) as [_ Hsum].
  eapply ledger_ok_change; [done | done | done | |  | ]; simpl.
  - rewrite Hfr, Hsum, (reserved_for_delete _ _ _ _ Hr), held_self. unfold release_bytes.
    assert (0 ≤ reserved_for (rs_ProviderAccountID r) (delete id (db_reservations d))).
    { apply sum_of_nonneg. intros k r' [_ Hk]%lookup_delete_Some. by eapply held_nonneg. }
    destruct (Z.ltb_spec (rs_Bytes r + reserved_for (rs_ProviderAccountID r) (delete id (db_reservations d))) (rs_Bytes r)); lia.
  - intros q Hq. rewrite (reserved_for_delete q _ _ _ Hr), held_other by done. lia.
  - intros k r' [_ Hk]%lookup_delete_Some. eauto.
Qed.

Lemma update_reserving_inv id f d n d' :
  update_reserving_provider id f d = (n, d') →
  (∃ r p, db_reservations d !! id = Some r ∧ db_providers d !! rs_ProviderAccountID r = Some p ∧
     n = 1 ∧ d' = d <| db_providers ::= insert (rs_ProviderAccountID r) (f p) |>) ∨
  ((∀ r, db_reservations d !! id = Some r → db_providers d !! rs_ProviderAccountID r = None) ∧ n = 0 ∧ d' = d).
Proof.
  unfold update_reserving_provider. destruct (db_reservations d !! id) as [r|] eqn:Hr;
    [|intros [= <- <-]; right; split_and!; [by intros|done..]].
  destruct (update_row _ _ _ _) as [m P] eqn:Hrow.
  apply update_row_spec in Hrow as [(p & Hp & _ & -> & ->) | (Hno & -> & ->)]; intros [= <- <-].
  - left. eauto 10.
  - right. split_and!; [|done|by destruct d]. intros r' [= <-].
    destruct (db_providers d !! _) as [p|] eqn:Hp; [|done]. by specialize (Hno p eq_refl).
Qed.

Lemma reservation_bytes_eq id d r : db_reservations d !! id = Some r → reservation_bytes id d = rs_Bytes r.
Proof. unfold reservation_bytes. by intros ->. Qed.

Lemma commit_tx_ok id actual t d d' :
  quota_ok d → commit_tx id actual t d = Ok (tt, d') → quota_ok d'.
Proof.
  intros Hok. unfold commit_tx. destruct (update_reserving_provider _ _ _) as [n d1] eqn:Hu.
  apply update_reserving_inv in Hu as [(r & p & Hr & Hp & -> & ->) | (_ & -> & ->)]; simpl; [|done].
  intros [= <-]. rewrite (reservation_bytes_eq _ _ _ Hr).
  edestruct (settle_ok id r (λ p, p <| p_ReservedBytes ::= release_bytes (rs_Bytes r) |> <| p_UsedBytes ::= Z.add actual |>
      <| p_MonthlyUploadedBytes ::= Z.add actual |> <| p_AvailabilityStatus := "" |>
      <| p_AvailabilityMessage := "" |> <| p_UnavailableUntil := zero_time |> <| p_UpdatedAt := t |>) d)
    as (p' & Hp' & Hq); [done..|]. rewrite Hp in Hp'. injection Hp' as <-. done.
Qed.

Lemma release_tx_ok id t d d' :
  quota_ok d → release_tx id t d = Ok (tt, d') → quota_ok d'.
Proof.
  intros Hok. unfold release_tx. destruct (update_reserving_provider _ _ _) as [n d1] eqn:Hu.
  apply update_reserving_inv in Hu as [(r & p & Hr & Hp & -> & ->) | (_ & -> & ->)]; simpl; intros [= <-]; [|done].
  rewrite (reservation_bytes_eq _ _ _ Hr).
  edestruct (settle_ok id r (λ p, p <| p_ReservedBytes ::= release_bytes (rs_Bytes r) |> <| p_UpdatedAt := t |>) d)
    as (p' & Hp' & Hq); [done..|]. rewrite Hp in Hp'. injection Hp' as <-. done.
Qed.

Lemma reserved_where_sum P pid d :
  reserved_where P pid d = sum_of (λ r, if P r then held pid r else 0) (db_reservations d).
Proof.
  unfold reserved_where. rewrite sum_where. apply sum_of_ext. intros _ r _. unfold held.
  by destruct (_ =? _)%string, (P r).
Qed.

Lemma untouched_sum P pid d :
  existsb (λ r, (rs_ProviderAccountID r =? pid)%string && P r) (rows (db_reservations d)) = false →
  reserved_where P pid d = 0.
Proof.
  intros Hn. rewrite reserved_where_sum. rewrite (sum_of_ext _ (λ _, 0)).
  - by apply sum_of_zero.
  - intros k r Hk. destruct (P r) eqn:HP; [|done]. unfold held.
    destruct (_ =? _)%string eqn:He; [|done]. exfalso. apply not_true_iff_false in Hn. apply Hn.
    apply existsb_exists. exists r. split; [|by rewrite He, HP].
    apply list_elem_of_In, elem_of_rows. eauto.
Qed.

Lemma release_bytes_le n r : n ≤ r → release_bytes n r = r - n.
Proof. unfold release_bytes. destruct (Z.ltb_spec r n); lia. Qed.

Lemma recover_tx_ok cutoff t d n d' :
  quota_ok d → recover_tx cutoff t d = Ok (n, d') → quota_ok d'.
Proof.
  intros Hok. unfold recover_tx. intros [= _ <-]. pose proof Hok as [HP HR].
  assert (∀ pid, reserved_for pid (db_reservations d) =
    reserved_where (reservation_expired cutoff) pid d
    + reserved_for pid (delete_where (reservation_expired cutoff) (db_reservations d))) as Hsplit.
  { intros pid. rewrite reserved_where_sum. apply sum_of_delete_where. }
  assert (∀ pid, 0 ≤ reserved_for pid (delete_where (reservation_expired cutoff) (db_reservations d))) as Hnn.
  { intros pid. apply sum_of_nonneg. intros k r [Hk _]%lookup_delete_where. by eapply held_nonneg. }
  split; rsimpl.
  - intros k q. unfold update_where. rewrite lookup_fmap.
    destruct (db_providers d !! k) as [p|] eqn:Hp; simpl; [|done]. intros [= <-].
    destruct (HP _ _ Hp) as [Hid Hres]. rewrite Hid. destruct (existsb _ _) eqn:He; rsimpl.
    + split; [done|]. specialize (Hsplit k). specialize (Hnn k). rewrite release_bytes_le; lia.
    + split; [done|]. apply untouched_sum in He. specialize (Hsplit k). lia.
  - intros k r [Hk _]%lookup_delete_where. destruct (HR _ _ Hk) as (? & ? & [p Hp]).
    split_and!; [done..|]. unfold update_where. rewrite lookup_fmap, Hp. eauto.
Qed.

(** ** Every store operation on providers keeps the ledger *)

Definition keeps_quota : World → World → Prop := on_db (keeps quota_ok).

Lemma same_ledger_keeps d d' : same_ledger d d' → keeps quota_ok d d'.
Proof. intros Hs Hok. by eapply same_ledger_ok. Qed.


Section keeps_quota.
Context `{Env}.

Lemma update_provider_pres id f :
  (∀ p, p_ID (f p) = p_ID p ∧ p_ReservedBytes (f p) = p_ReservedBytes p) →
  pres (on_db same_ledger) (sql_write (λ d, Ok (update_provider id f d))).
Proof. intros Hf. apply pres_sql_write; [apply _|]. intros d d' [= <-]. by apply update_provider_same. Qed.

Lemma AddProviderUsage_ledger id delta : pres (on_db same_ledger) (AddProviderUsage id delta).
Proof. unfold AddProviderUsage. pres_auto. by apply update_provider_pres. Qed.

Lemma SetProviderUsage_ledger id u s t : pres (on_db same_ledger) (SetProviderUsage id u s t).
Proof. unfold SetProviderUsage. pres_auto. by apply update_provider_pres. Qed.

Lemma SetProviderRemoteQuota_ledger id c u s t : pres (on_db same_ledger) (SetProviderRemoteQuota id c u s t).
Proof. unfold SetProviderRemoteQuota. pres_auto. by apply update_provider_pres. Qed.

Lemma MarkProviderUnavailable_ledger id s m t : pres (on_db same_ledger) (MarkProviderUnavailable id s m t).
Proof. unfold MarkProviderUnavailable. pres_auto. by apply update_provider_pres. Qed.

Lemma ClearProviderUnavailable_ledger id : pres (on_db same_ledger) (ClearProviderUnavailable id).
Proof. unfold ClearProviderUnavailable. pres_auto. by apply update_provider_pres. Qed.

Lemma ReserveProviderCapacity_quota r margin monthly period :
  pres keeps_quota (ReserveProviderCapacity r margin monthly period).
Proof.
  unfold ReserveProviderCapacity, keeps_quota.
  destruct (_ || _) eqn:Hb; [pres_auto|].
  apply orb_false_iff in Hb as [_ Hb%Z.ltb_ge].
  apply (pres_bind_post _ (λ r', rs_Bytes r' = rs_Bytes r)); [by pres_auto|by intros w; destruct (is_zero _)|].
  intros r' Hr'. pres_auto; apply pres_sql; try apply _; intros d b d' Htx Hok;
    (eapply reserve_tx_ok; [|done|done]); destruct (is_zero (rs_ExpiresAt r')); rsimpl; lia.
Qed.

Lemma CommitProviderReservation_quota id n : pres keeps_quota (CommitProviderReservation id n).
Proof.
  unfold CommitProviderReservation, keeps_quota. pres_auto. apply pres_sql; [apply _|].
  intros d [] d' Htx Hok. by eapply commit_tx_ok.
Qed.

Lemma ReleaseProviderReservation_quota id : pres keeps_quota (ReleaseProviderReservation id).
Proof.
  unfold ReleaseProviderReservation, keeps_quota. pres_auto. apply pres_sql; [apply _|].
  intros d [] d' Htx Hok. by eapply release_tx_ok.
Qed.

Lemma RecoverExpired_quota t : pres keeps_quota (RecoverExpiredProviderReservations t).
Proof.
  unfold RecoverExpiredProviderReservations, keeps_quota. pres_auto. apply pres_sql; [apply _|].
  intros d n d' Htx Hok. by eapply recover_tx_ok.
Qed.

Lemma pres_ledger_quota {A} (m : M A) : pres (on_db same_ledger) m → pres keeps_quota m.
Proof. intros Hm w. apply same_ledger_keeps. apply Hm. Qed.

Lemma no_provider_no_holds P R k : ledger_ok P R → P !! k = None → reserved_for k R = 0.
Proof.
  intros [_ HR] Hk. unfold reserved_for. rewrite (sum_of_ext _ (λ _, 0)).
  - by apply sum_of_zero.
  - intros i r Hi. destruct (HR _ _ Hi) as (_ & _ & [p Hp]). apply held_other. intros ->. congruence.
Qed.

Lemma UpsertProvider_quota p : p_ReservedBytes p = 0 → pres keeps_quota (UpsertProvider p).
Proof.
  intros Hp0. unfold UpsertProvider, keeps_quota. pres_auto; apply pres_sql_write; try apply _;
    intros d d' [= <-] Hok; unfold upsert_provider_row; destruct (is_zero (p_CreatedAt p)); rsimpl;
    pose proof Hok as [HP HR]; unfold quota_ok; rsimpl; split; intros k q.
  1,3: destruct (decide (k = p_ID p)) as [->|Hne];
    [rewrite lookup_insert_eq; intros [= <-] | rewrite lookup_insert_ne by done; apply HP];
    destruct (db_providers d !! p_ID p) as [old|] eqn:Hold;
    [destruct (HP _ _ Hold) as [? ?]; done
    | split; [done|]; rewrite (no_provider_no_holds _ _ _ Hok Hold); done].
  all: intros Hq; destruct (HR _ _ Hq) as (? & ? & [own Hown]); split_and!; [done..|];
    destruct (decide (rs_ProviderAccountID q = p_ID p)) as [->|];
    [rewrite lookup_insert_eq | rewrite lookup_insert_ne by done]; eauto.
Qed.

Lemma DeleteProvider_quota id : pres keeps_quota (DeleteProvider id).
Proof.
  unfold DeleteProvider, keeps_quota. apply pres_sql_write; [apply _|]. intros d d'.
  unfold delete_provider_row. destruct (db_providers d !! id) as [p|] eqn:Hp; [|by intros [= <-]].
  destruct (provider_referenced id d); [done|]. intros [= <-] [HP HR]. unfold quota_ok; rsimpl. split.
  - intros k q [Hne Hk]%lookup_delete_Some. destruct (HP _ _ Hk) as [? ->]. split; [done|].
    unfold reserved_for. rewrite (sum_of_delete_where (held k) (λ r, (rs_ProviderAccountID r =? id)%string)).
    rewrite (sum_of_ext _ (λ _, 0)), (sum_of_zero (λ _, 0)); [lia | done |].
    intros j r _. unfold held. destruct (String.eqb_spec (rs_ProviderAccountID r) id) as [->|]; [|done].
    by destruct (String.eqb_spec id k).
  - intros k r [Hk Hid]%lookup_delete_where. destruct (HR _ _ Hk) as (? & ? & [a Ha]).
    split_and!; [done..|]. rewrite lookup_delete_ne; [eauto|]. intros ->. by rewrite String.eqb_refl in Hid.
Qed.

Lemma run_event_quota e : event_ok e → pres keeps_quota (run_event e).
Proof.
  intros He. destruct e; simpl; apply pres_ignore; try apply _.
  - by apply UpsertProvider_quota.
  - apply DeleteProvider_quota.
  - apply ReserveProviderCapacity_quota.
  - apply CommitProviderReservation_quota.
  - apply ReleaseProviderReservation_quota.
  - apply RecoverExpired_quota.
  - apply pres_ledger_quota, AddProviderUsage_ledger.
  - apply pres_ledger_quota, SetProviderUsage_ledger.
  - apply pres_ledger_quota, SetProviderRemoteQuota_ledger.
  - apply pres_ledger_quota, MarkProviderUnavailable_ledger.
  - apply pres_ledger_quota, ClearProviderUnavailable_ledger.
Qed.

Lemma run_events_quota es : Forall event_ok es → pres keeps_quota (run_events es).
Proof.
  intros Hes. apply pres_for_each; [apply _|]. intros e He. apply run_event_quota.
  by eapply Forall_forall.
Qed.
End keeps_quota.

(** Statements on tables other than the ledger's keep it. *)
Section ledger.
Context `{Env}.

Lemma ledger_write f :
  (∀ d d', f d = Ok d' → db_providers d' = db_providers d ∧ db_reservations d' = db_reservations d) →
  pres (on_db same_ledger) (sql_write f).
Proof.
  intros Hf. apply pres_sql_write; [apply _|]. intros d d' Hd. destruct (Hf d d' Hd) as [Hp Hr].
  split; [done|]. by rewrite Hp.
Qed.

Lemma ledger_sql {A} (f : DB → result (A * DB)) :
  (∀ d a d', f d = Ok (a, d') → db_providers d' = db_providers d ∧ db_reservations d' = db_reservations d) →
  pres (on_db same_ledger) (sql f).
Proof.
  intros Hf. apply pres_sql; [apply _|]. intros d a d' Hd. destruct (Hf d a d' Hd) as [Hp Hr].
  split; [done|]. by rewrite Hp.
Qed.
End ledger.

(** [ledger_op f]: [f] is made of statements on tables other than the ledger's. *)
Ltac ledger_op :=
  pres_auto;
  try ((apply ledger_write || apply ledger_sql); intros; simplify_eq/=;
       repeat (case_match; simplify_eq/=); split; rsimpl; done).

(** Reads relate a world to itself, whatever the relation. *)
#[global] Hint Extern 2 (pres _ (GetProvider _)) => unfold GetProvider; pres_auto : pres.
#[global] Hint Extern 2 (pres _ (ListProviders _)) => unfold ListProviders; pres_auto : pres.

(** ** Properties of the ledger *)

Section properties.
Context `{Env}.

(** The run of a reservation: validated, then one transaction. *)
Lemma reserve_run_at r margin monthly period w b w' :
  ReserveProviderCapacity r margin monthly period w = (Ok b, w') →
  ∃ r' n, rs_ID r' = rs_ID r ∧ rs_ProviderAccountID r' = rs_ProviderAccountID r ∧ rs_Bytes r' = rs_Bytes r ∧
    0 ≤ rs_Bytes r ∧ (w_clock w ≤ n < w_clock w')%nat ∧
    reserve_tx r' (Z.max 0 margin) (Z.max 0 monthly) period (env_now n) (w_db w) = Ok (b, w_db w').
Proof.
  unfold ReserveProviderCapacity. destruct (_ || _) eqn:Hv; [by intros|].
  apply orb_false_iff in Hv as [_ Hb%Z.ltb_ge].
  replace (if margin <? 0 then 0 else margin) with (Z.max 0 margin) by (destruct (Z.ltb_spec margin 0); lia).
  replace (if monthly <? 0 then 0 else monthly) with (Z.max 0 monthly) by (destruct (Z.ltb_spec monthly 0); lia).
  unfold bind, sql, now. destruct (is_zero (rs_CreatedAt r)); simpl;
  destruct (env_db_fault _); try done; rsimpl;
  match goal with |- context [reserve_tx ?r' _ _ _ (env_now ?n) _] =>
    destruct (reserve_tx r' _ _ _ (env_now n) _) as [[b' d']|] eqn:Htx; intros [= <- <-]; exists r', n end;
  rsimpl; split_and!; try done; try lia; by destruct (is_zero (rs_ExpiresAt _)).
Qed.

Lemma reserve_run r margin monthly period w b w' :
  ReserveProviderCapacity r margin monthly period w = (Ok b, w') →
  ∃ r' t, rs_ID r' = rs_ID r ∧ rs_ProviderAccountID r' = rs_ProviderAccountID r ∧ rs_Bytes r' = rs_Bytes r ∧
    0 ≤ rs_Bytes r ∧
    reserve_tx r' (Z.max 0 margin) (Z.max 0 monthly) period t (w_db w) = Ok (b, w_db w').
Proof. intros (r' & n & ? & ? & ? & ? & _ & ?)%reserve_run_at. by exists r', (env_now n). Qed.

Lemma reserve_not_granted r margin monthly period w :
  (ReserveProviderCapacity r margin monthly period w).1 ≠ Ok true →
  w_db (ReserveProviderCapacity r margin monthly period w).2 = w_db w.
Proof.
  destruct (ReserveProviderCapacity _ _ _ _ w) as [[b|e] w'] eqn:Hrun; simpl; intros Hne.
  - apply reserve_run in Hrun as (r' & t & _ & _ & _ & _ & Htx).
    by apply reserve_tx_inv in Htx as [[-> ->]|[-> _]].
  - revert Hrun. unfold ReserveProviderCapacity. destruct (_ || _); [by intros [= _ <-]|].
    unfold bind, sql, now. destruct (is_zero (rs_CreatedAt r)); simpl;
    destruct (env_db_fault _); try (by intros [= _ <-]);
    destruct (reserve_tx _ _ _ _ _ _) as [[]|]; by intros [= _ <-].
Qed.

Lemma release_run id w w' :
  ReleaseProviderReservation id w = (Ok tt, w') → ∃ t, release_tx id t (w_db w) = Ok (tt, w_db w').
Proof.
  unfold ReleaseProviderReservation, bind, sql, now. simpl. destruct (env_db_fault _); [done|]. rsimpl.
  destruct (release_tx _ _ _) as [[[] d]|] eqn:Htx; [|done]. intros [= <-]. eauto.
Qed.

Lemma commit_run id actual w w' :
  CommitProviderReservation id actual w = (Ok tt, w') →
  0 ≤ actual ∧ ∃ t, commit_tx id actual t (w_db w) = Ok (tt, w_db w').
Proof.
  unfold CommitProviderReservation. destruct (Z.ltb_spec actual 0); [done|].
  unfold bind, sql, now. simpl. destruct (env_db_fault _); [done|]. rsimpl.
  destruct (commit_tx _ _ _ _) as [[[] d]|] eqn:Htx; [|done]. intros [= <-]. eauto.
Qed.

(** C15. The quota ledger is consistent under every history: whatever
    operations requests and workers interleave, and whichever of their
    transactions fail, every provider's [reserved_bytes] stays the sum of its
    live reservations. *)
Theorem quota_ledger_invariant es w :
  Forall event_ok es → quota_ok (w_db w) → quota_ok (w_db (run_events es w).2).
Proof. intros Hes. by apply run_events_quota. Qed.

(** C8. Admission control: when a reservation is granted, its bytes are held
    on a provider that exists and is enabled, and that is available: it has no
    availability status, or it is throttled or unavailable until a time that is
    set and, as the texts the database compares, not after the instant of the
    transaction. Its used and reserved bytes, the new reservation included, fit
    its capacity less the margin, its remote capacity less the margin and its
    monthly limit. *)
Theorem reserve_within_limits r margin monthly period w w' :
  ReserveProviderCapacity r margin monthly period w = (Ok true, w') →
  ∃ p p', db_providers (w_db w) !! rs_ProviderAccountID r = Some p ∧
    db_providers (w_db w') !! rs_ProviderAccountID r = Some p' ∧
    p_ReservedBytes p' = p_ReservedBytes p + rs_Bytes r ∧ 0 ≤ rs_Bytes r ∧
    p_Enabled p' = true ∧ p_MonthlyPeriod p' = period ∧
    (∃ n, (w_clock w ≤ n < w_clock w')%nat ∧
       (p_AvailabilityStatus p' = "" ∨
        (p_AvailabilityStatus p' = "throttled" ∨ p_AvailabilityStatus p' = "unavailable") ∧
        p_UnavailableUntil p' ≠ zero_time ∧ text_leb (time_text (p_UnavailableUntil p')) (time_text (env_now n)) = true)) ∧
    (0 < p_CapacityBytes p' → p_UsedBytes p' + p_ReservedBytes p' ≤ Z.max 0 (p_CapacityBytes p' - Z.max 0 margin)) ∧
    (0 < p_RemoteCapacityBytes p' →
       p_RemoteUsedBytes p' + p_ReservedBytes p' ≤ Z.max 0 (p_RemoteCapacityBytes p' - Z.max 0 margin)) ∧
    (0 < monthly → p_MonthlyUploadedBytes p' + p_ReservedBytes p' ≤ monthly).
Proof.
  intros (r' & n & _ & Hpid & Hbytes & Hpos & Hn & Htx)%reserve_run_at.
  apply reserve_tx_inv in Htx as [[? _] | (_ & p & Hp & Hres & _ & ->)]; [done|]. exists p. rewrite Hpid in Hp.
  rsimpl. rewrite Hpid, lookup_insert_eq. eexists. split; [done|]. split; [done|]. rsimpl. rewrite Hbytes in *.
  destruct (reset_month_ledger period p) as [_ Hreserved].
  unfold reservable, capacity_limit in Hres. rewrite !andb_true_iff, !orb_true_iff, !Z.leb_le in Hres.
  destruct Hres as [[[[? Hav] Hcap] Hrem] Hmon]. split_and!; try done.
  - by rewrite Hreserved.
  - exists n. split; [done|]. destruct Hav as [->%String.eqb_eq | Hav]; [by left|]. right.
    unfold sql_opttime_le, formatOptionalTime, is_zero in Hav. rewrite !andb_true_iff, orb_true_iff, !String.eqb_eq in Hav.
    destruct Hav as [[Hstatus Hset] Htext]. destruct (Z.eqb_spec (p_UnavailableUntil (reset_month period p)) 0); [done|]. done.
  - intros ?. destruct Hcap; [lia|]. destruct (Z.ltb_spec (Z.max 0 margin) (p_CapacityBytes (reset_month period p))); lia.
  - intros ?. destruct Hrem; [lia|]. destruct (Z.ltb_spec (Z.max 0 margin) (p_RemoteCapacityBytes (reset_month period p))); lia.
  - intros ?. destruct Hmon; lia.
Qed.

(** A reservation that is refused or fails changes nothing in the
    database, not even the start of a new monthly period. *)
Theorem reserve_refused_unchanged r margin monthly period w :
  (ReserveProviderCapacity r margin monthly period w).1 = Ok true ∨
  w_db (ReserveProviderCapacity r margin monthly period w).2 = w_db w.
Proof.
  destruct (ReserveProviderCapacity r margin monthly period w).1 as [[|]|e] eqn:Hrun; [by left|..];
    right; apply reserve_not_granted; by rewrite Hrun.
Qed.

(** Reserve then release is the identity on the ledger: the same
    reservations, the same reserved bytes and the same used bytes for every
    provider. *)
Theorem reserve_release_roundtrip r margin monthly period w w1 w2 :
  ReserveProviderCapacity r margin monthly period w = (Ok true, w1) →
  quota_ok (w_db w) →
  ReleaseProviderReservation (rs_ID r) w1 = (Ok tt, w2) →
  same_ledger (w_db w) (w_db w2) ∧
  p_UsedBytes <$> db_providers (w_db w2) = p_UsedBytes <$> db_providers (w_db w).
Proof.
  intros (r' & t & Hid & Hpid & Hb & Hpos & Htx)%reserve_run Hok (t' & Hrel)%release_run.
  apply reserve_tx_inv in Htx as [[? _] | (_ & p & Hp & _ & Hfresh & Hd)]; [done|].
  revert Hrel. rewrite <- Hid, Hd. unfold release_tx, update_reserving_provider, update_row, reservation_bytes.
  rsimpl. rewrite !lookup_insert_eq. rsimpl. cbn. intros [= <-]. rsimpl.
  pose proof Hok as [HP _]. destruct (HP _ _ Hp) as [_ Hsum].
  assert (0 ≤ p_ReservedBytes p) as Hnn.
  { rewrite Hsum. apply sum_of_nonneg. intros k v Hk. by eapply held_nonneg. }
  assert (p_ReservedBytes (reset_month period p) = p_ReservedBytes p) as Hr by apply reset_month_ledger.
  assert (p_UsedBytes (reset_month period p) = p_UsedBytes p) as Hu by (unfold reset_month; by destruct (negb _)).
  split; [split|]; rsimpl.
  - rewrite delete_insert_eq. by apply delete_id.
  - rewrite insert_insert_eq. unfold ledger_view. rewrite fmap_insert. apply insert_id. rewrite lookup_fmap, Hp. simpl. rsimpl.
    destruct (reset_month_ledger period p) as [-> ->]. rewrite release_bytes_le by lia. do 2 f_equal. lia.
  - rewrite insert_insert_eq, fmap_insert. apply insert_id. rewrite lookup_fmap, Hp. simpl. rsimpl. by rewrite Hu.
Qed.

(** Reserve then commit turns the reservation into usage: the reserved
    bytes of the provider are what they were before the reservation, its used
    bytes grew by what was stored, and the reservation is gone. *)
Theorem reserve_commit_settles r margin monthly period actual w w1 w2 :
  ReserveProviderCapacity r margin monthly period w = (Ok true, w1) →
  quota_ok (w_db w) →
  CommitProviderReservation (rs_ID r) actual w1 = (Ok tt, w2) →
  same_ledger (w_db w) (w_db w2) ∧
  ∃ p p2, db_providers (w_db w) !! rs_ProviderAccountID r = Some p ∧
    db_providers (w_db w2) !! rs_ProviderAccountID r = Some p2 ∧
    p_UsedBytes p2 = p_UsedBytes p + actual ∧
    p_MonthlyUploadedBytes p2 = (if (p_MonthlyPeriod p =? period)%string then p_MonthlyUploadedBytes p else 0) + actual.
Proof.
  intros (r' & t & Hid & Hpid & Hb & Hpos & Htx)%reserve_run Hok (Hact & t' & Hcom)%commit_run.
  apply reserve_tx_inv in Htx as [[? _] | (_ & p & Hp & _ & Hfresh & Hd)]; [done|].
  revert Hcom. rewrite <- Hid, Hd. unfold commit_tx, update_reserving_provider, update_row, reservation_bytes.
  rsimpl. rewrite !lookup_insert_eq. rsimpl. cbn. intros [= <-]. rsimpl.
  pose proof Hok as [HP _]. destruct (HP _ _ Hp) as [_ Hsum].
  assert (0 ≤ p_ReservedBytes p) as Hnn.
  { rewrite Hsum. apply sum_of_nonneg. intros k v Hk. by eapply held_nonneg. }
  split; [split|]; rsimpl.
  - rewrite delete_insert_eq. by apply delete_id.
  - rewrite insert_insert_eq. unfold ledger_view. rewrite fmap_insert. apply insert_id. rewrite lookup_fmap, Hp. simpl. rsimpl.
    destruct (reset_month_ledger period p) as [-> ->]. rewrite release_bytes_le by lia. do 2 f_equal. lia.
  - rewrite <- Hpid. exists p. eexists. split; [done|]. split; [apply lookup_insert_eq|]. rsimpl.
    unfold reset_month. destruct (p_MonthlyPeriod p =? period)%string; simpl; rsimpl; lia.
Qed.
End properties.

(** ** A concrete ledger *)

Definition ledger_env : Env := quiet_env 63800000000000000000 (λ _, None).

Definition ledger_account : ProviderAccount :=
  zero_ProviderAccount <| p_ID := "p1" |> <| p_CapacityBytes := 1000 |> <| p_Enabled := true |>.

Definition ledger_reservation_of (bytes : Z) : ProviderReservation :=
  zero_ProviderReservation <| rs_ID := "res-1" |> <| rs_ProviderAccountID := "p1" |> <| rs_Bytes := bytes |>.

Definition ledger_start : World := (@run_events ledger_env [EvUpsert ledger_account] (start empty_DB)).2.

Definition ledger_reserve : M (result bool) :=
  @ReserveProviderCapacity ledger_env (ledger_reservation_of 10) 0 0 "2022-09".

Lemma empty_quota_ok : quota_ok empty_DB.
Proof. split; intros k x Hx; exfalso; revert Hx; unfold empty_DB; simpl; by rewrite lookup_empty. Qed.

Lemma ledger_start_ok : quota_ok (w_db ledger_start).
Proof. apply (@run_events_quota ledger_env); [repeat constructor | apply empty_quota_ok]. Qed.

Lemma quota_ledger_invariant_witness :
  let E := ledger_env in
  quota_ok (w_db (run_events [EvUpsert ledger_account; EvReserve (ledger_reservation_of 10) 0 0 "2022-09";
                              EvCommit "res-1" 10; EvDelete "p1"] (start empty_DB)).2).
Proof.
  apply (@quota_ledger_invariant ledger_env); [|apply empty_quota_ok].
  repeat (constructor; [first [exact I | reflexivity]|]). constructor.
Defined.

Lemma reserve_within_limits_witness :
  ∃ p, db_providers (w_db (ledger_reserve ledger_start).2) !! "p1" = Some p ∧ p_Enabled p = true.
Proof.
  destruct (@reserve_within_limits ledger_env (ledger_reservation_of 10) 0 0 "2022-09" ledger_start (ledger_reserve ledger_start).2)
    as (_ & p & _ & Hp & _ & _ & Hen & _).
  - apply (run_pair ledger_reserve). vm_compute. reflexivity.
  - exists p. split; [exact Hp | exact Hen].
Defined.

Lemma reserve_release_roundtrip_witness :
  let w1 := (ledger_reserve ledger_start).2 in
  same_ledger (w_db ledger_start) (w_db (@ReleaseProviderReservation ledger_env "res-1" w1).2).
Proof.
  intros w1.
  destruct (@reserve_release_roundtrip ledger_env (ledger_reservation_of 10) 0 0 "2022-09" ledger_start w1
              (@ReleaseProviderReservation ledger_env "res-1" w1).2) as [Hs _].
  - apply (run_pair ledger_reserve). vm_compute. reflexivity.
  - exact ledger_start_ok.
  - apply (run_pair (@ReleaseProviderReservation ledger_env "res-1")). vm_compute. reflexivity.
  - exact Hs.
Defined.

Lemma reserve_commit_settles_witness :
  let w1 := (ledger_reserve ledger_start).2 in
  same_ledger (w_db ledger_start) (w_db (@CommitProviderReservation ledger_env "res-1" 7 w1).2).
Proof.
  intros w1.
  destruct (@reserve_commit_settles ledger_env (ledger_reservation_of 10) 0 0 "2022-09" 7 ledger_start w1
              (@CommitProviderReservation ledger_env "res-1" 7 w1).2) as [Hs _].
  - apply (run_pair ledger_reserve). vm_compute. reflexivity.
  - exact ledger_start_ok.
  - apply (run_pair (@CommitProviderReservation ledger_env "res-1" 7)). vm_compute. reflexivity.
  - exact Hs.
Defined.
