(* ===== verification/Placement.v ===== *)
(** The placement router, [internal/router/placement.go]: which provider a new
    object goes to. The router knows the store through the interface
    [ProviderLister] only. *)
From S2P Require Import Prelude GoTime Float64 Domain World Sql.

(** [router.ProviderLister] *)
Class ProviderLister `{Env} : Type := {
  lister_ListProviders : bool → M (result (list ProviderAccount)) }.

Definition setting (p : ProviderAccount) (key : string) : string := default "" (p_Settings p !! key).

Definition int64Setting (p : ProviderAccount) (key : string) : Z :=
  let value := trim_space (setting p key) in
  if (value =? "")%string then 0
  else match parse_int64 value with
       | Some parsed => if parsed <? 0 then 0 else parsed
       | None => 0
       end.

Definition providerCost (p : ProviderAccount) : float64 :=
  let value := trim_space (setting p "cost_per_gb_month") in
  if (value =? "")%string then float_zero
  else match parse_float value with
       | Some parsed => if float_lt parsed float_zero then float_zero else parsed
       | None => float_zero
       end.

Definition remaining (p : ProviderAccount) : Z :=
  let available := 2 ^ 62 - 1 in
  let available :=
    if 0 <? p_CapacityBytes p then sub64 (sub64 (p_CapacityBytes p) (p_UsedBytes p)) (p_ReservedBytes p) else available in
  if 0 <? p_RemoteCapacityBytes p then
    let remoteAvailable := sub64 (sub64 (p_RemoteCapacityBytes p) (p_RemoteUsedBytes p)) (p_ReservedBytes p) in
    if remoteAvailable <? available then remoteAvailable else available
  else available.

Definition providerUnavailable (p : ProviderAccount) (now : Time) : bool :=
  if (p_AvailabilityStatus p =? "")%string then false
  else if ((p_AvailabilityStatus p =? "throttled")%string || (p_AvailabilityStatus p =? "unavailable")%string)
          && negb (is_zero (p_UnavailableUntil p)) && negb (after (p_UnavailableUntil p) now)
  then false
  else true.

(** The size limit and the free space a provider insists on. *)
Definition violatesSizePolicy (p : ProviderAccount) (input : PutObjectInput) : bool :=
  let maxObjectSize := int64Setting p "max_object_size_bytes" in
  let minFree := int64Setting p "min_free_bytes" in
  (0 <? maxObjectSize) && (maxObjectSize <? i_Size input)
  || (0 <? minFree) && (sub64 (remaining p) (i_Size input) <? minFree).

(** The monthly upload limit, at the instant [now]. *)
Definition violatesMonthlyPolicy (p : ProviderAccount) (input : PutObjectInput) (now : Time) : bool :=
  let monthlyUsed := if negb (p_MonthlyPeriod p =? month_text now)%string then 0 else p_MonthlyUploadedBytes p in
  int64Setting p "monthly_upload_quota_bytes" <? add64 (add64 monthlyUsed (p_ReservedBytes p)) (i_Size input).

(** The comparator of [sort.SliceStable]: [less candidates[i] candidates[j]]. *)
Definition less (a b : ProviderAccount) : bool :=
  let leftFree := remaining a in
  let rightFree := remaining b in
  if negb (p_Priority a =? p_Priority b) then p_Priority a <? p_Priority b
  else
    let leftCost := providerCost a in
    let rightCost := providerCost b in
    if float_ne leftCost rightCost then float_lt leftCost rightCost
    else if negb (leftFree =? rightFree) then rightFree <? leftFree
    else text_ltb (p_ID a) (p_ID b).

(** A stable insertion sort, which is what [sort.SliceStable] does with up to
    twenty elements; with more it merges such runs, and every stable sort by
    a strict weak order gives the same list. [insert_sorted] moves an element
    left past the greater ones of a sorted prefix kept in reverse. *)
Fixpoint insert_sorted (x : ProviderAccount) (rev_prefix : list ProviderAccount) : list ProviderAccount :=
  match rev_prefix with
  | y :: ys => if less x y then y :: insert_sorted x ys else x :: y :: ys
  | [] => [x]
  end.

Definition sort_stable (l : list ProviderAccount) : list ProviderAccount :=
  rev (fold_left (λ acc x, insert_sorted x acc) l []).

Section router.
Context `{Env}.

Definition violatesProviderPolicy (p : ProviderAccount) (input : PutObjectInput) : M bool :=
  if violatesSizePolicy p input then ret true
  else if 0 <? int64Setting p "monthly_upload_quota_bytes"
  then let! t := now in ret (violatesMonthlyPolicy p input t)
  else ret false.

(** The [for] loop of [Choose] over the listed providers. *)
Fixpoint candidates (input : PutObjectInput) (exclude : gset string) (providers : list ProviderAccount)
    : M (list ProviderAccount) :=
  match providers with
  | [] => ret []
  | p :: rest =>
      let skip := candidates input exclude rest in
      if bool_decide (p_ID p ∈ exclude) then skip
      else let! t := now in
           if providerUnavailable p t then skip
           else if remaining p <? i_Size input then skip
           else let! violates := violatesProviderPolicy p input in
                if violates then skip
                else let! l := skip in ret (p :: l)
  end.

Definition Choose `{!ProviderLister} (input : PutObjectInput) (exclude : gset string) : M (result ProviderAccount) :=
  let? providers := lister_ListProviders true in
  let! l := candidates input exclude providers in
  match sort_stable l with
  | [] => ret_err (ErrSentinel ErrNoProviderAvailable)
  | p :: _ => ret_ok p
  end.

Lemma candidates_frame (R : World → World → Prop) `{!PreOrder R} input exclude l : pres R now → pres R (candidates input exclude l).
Proof.
  intros Hnow. revert exclude. induction l as [|p l IH]; intros exclude; simpl; [pres_auto|].
  unfold violatesProviderPolicy. pres_auto; apply IH.
Qed.

Lemma Choose_frame `{!ProviderLister} (R : World → World → Prop) `{!PreOrder R} input exclude :
  pres R now → pres R (lister_ListProviders true) → pres R (Choose input exclude).
Proof. intros Hnow Hl. unfold Choose. pres_auto; by apply candidates_frame. Qed.

Lemma candidates_pres R `{!PreOrder R} input exclude l : pres (on_db R) (candidates input exclude l).
Proof. apply candidates_frame; [apply _|pres_auto]. Qed.

Lemma Choose_pres `{!ProviderLister} R `{!PreOrder R} input exclude :
  pres (on_db R) (lister_ListProviders true) → pres (on_db R) (Choose input exclude).
Proof. apply Choose_frame; [apply _|pres_auto]. Qed.
End router.

(** ** What the router promises *)

(** A provider may take the object, its availability being read at [t1] and its
    monthly period at [t2]. *)
Definition admissible (input : PutObjectInput) (t1 t2 : Time) (p : ProviderAccount) : bool :=
  negb (providerUnavailable p t1)
  && (i_Size input <=? remaining p)
  && negb (violatesSizePolicy p input)
  && negb ((0 <? int64Setting p "monthly_upload_quota_bytes") && violatesMonthlyPolicy p input t2).

(** The order of preference: priority, then cost, then most free space, then
    identifier. It is total when no cost is NaN. *)
Definition float_class (f : float64) : Z :=
  match f with Inf true => -1 | Finite _ => 0 | Inf false => 1 | NaN => 2 end.
Definition float_units (f : float64) : Z := match f with Finite u => u | _ => 0 end.

Definition placement_cmp : Cmp ProviderAccount :=
  then_by (by_int p_Priority)
    (then_by (then_by (by_int (λ p, float_class (providerCost p))) (by_int (λ p, float_units (providerCost p))))
      (then_by (desc (by_int remaining)) (by_text p_ID))).

Lemma less_cmp a b :
  providerCost a ≠ NaN → providerCost b ≠ NaN →
  less a b = match placement_cmp a b with Lt => true | _ => false end.
Proof.
  intros Ha Hb. unfold less, placement_cmp, then_by, desc, by_int, by_text.
  rewrite text_ltb_compare.
  destruct (Z.compare_spec (p_Priority a) (p_Priority b)) as [->|Hlt|Hgt].
  2: { rewrite (proj2 (Z.eqb_neq _ _)) by lia. simpl. by apply Z.ltb_lt. }
  2: { rewrite (proj2 (Z.eqb_neq _ _)) by lia. simpl. apply Z.ltb_ge. lia. }
  rewrite Z.eqb_refl. simpl.
  assert (∀ c, (if negb (remaining a =? remaining b) then remaining b <? remaining a
      else match c with Lt => true | _ => false end) =
     match match remaining b ?= remaining a with Eq => c | o => o end with Lt => true | _ => false end) as Hfree.
  { intros c. destruct (Z.compare_spec (remaining b) (remaining a)) as [->|?|?].
    - by rewrite Z.eqb_refl.
    - rewrite (proj2 (Z.eqb_neq _ _)) by lia. by apply Z.ltb_lt.
    - rewrite (proj2 (Z.eqb_neq _ _)) by lia. apply Z.ltb_ge. lia. }
  destruct (providerCost a) as [x|[]|], (providerCost b) as [y|[]|]; simpl; try done; try apply Hfree.
  destruct (Z.compare_spec x y) as [->|?|?].
  - rewrite Z.eqb_refl. apply Hfree.
  - rewrite (proj2 (Z.eqb_neq _ _)) by lia. by apply Z.ltb_lt.
  - rewrite (proj2 (Z.eqb_neq _ _)) by lia. apply Z.ltb_ge. lia.
Qed.

#[global] Instance placement_cmp_laws : CmpLaws placement_cmp.
Proof. unfold placement_cmp. apply _. Qed.

Definition rev_sorted : list ProviderAccount → Prop := StronglySorted (λ a b, cmp_le placement_cmp b a).

Lemma insert_sorted_perm x l : insert_sorted x l ≡ₚ x :: l.
Proof. induction l as [|y l IH]; simpl; [done|]. destruct (less x y); [|done]. rewrite IH. constructor. Qed.

Lemma insert_sorted_sorted x l :
  (∀ p, p ∈ x :: l → providerCost p ≠ NaN) → rev_sorted l → rev_sorted (insert_sorted x l).
Proof.
  intros Hnan. induction 1 as [|y l Hl IH Hy]; simpl; [repeat constructor|].
  rewrite less_cmp by (apply Hnan; set_solver).
  assert (cmp_le placement_cmp y x → rev_sorted (x :: y :: l)) as Hge.
  { intros Hyx. constructor; [by constructor|]. constructor; [done|].
    eapply Forall_impl; [done|]. intros z Hz. simpl. exact (cmp_le_trans placement_cmp z y x Hz Hyx). }
  assert (placement_cmp x y ≠ Lt → cmp_le placement_cmp y x) as Hle.
  { unfold cmp_le. rewrite (cmp_opp (c := placement_cmp) x y). destruct (placement_cmp x y); simpl; congruence. }
  destruct (placement_cmp x y) eqn:Hc; [by apply Hge, Hle | | by apply Hge, Hle].
  constructor; [apply IH; intros p Hp; apply Hnan; set_solver|].
  rewrite insert_sorted_perm. constructor; [|done]. unfold cmp_le. by rewrite Hc.
Qed.

Lemma sort_stable_aux l acc :
  (∀ p, p ∈ l ++ acc → providerCost p ≠ NaN) → rev_sorted acc →
  rev_sorted (fold_left (λ acc x, insert_sorted x acc) l acc).
Proof.
  revert acc. induction l as [|x l IH]; intros acc Hnan Hacc; simpl; [done|].
  apply IH.
  - intros p. rewrite elem_of_app, insert_sorted_perm. intros Hp. apply Hnan. set_solver.
  - apply insert_sorted_sorted; [|done]. intros p Hp. apply Hnan. set_solver.
Qed.

Lemma sort_stable_perm l : sort_stable l ≡ₚ l.
Proof.
  unfold sort_stable. rewrite <- (app_nil_r l) at 2. rewrite <- Permutation_rev.
  generalize (@nil ProviderAccount). induction l as [|x l IH]; intros acc; simpl; [done|].
  rewrite IH, insert_sorted_perm. by rewrite Permutation_middle.
Qed.

Lemma sort_stable_head l p rest :
  (∀ q, q ∈ l → providerCost q ≠ NaN) → sort_stable l = p :: rest → ∀ q, q ∈ l → cmp_le placement_cmp p q.
Proof.
  intros Hnan Hs q Hq. pose proof (sort_stable_aux l [] ltac:(by rewrite app_nil_r) ltac:(constructor)) as Hsorted.
  rewrite <- (sort_stable_perm l), Hs in Hq. unfold sort_stable in Hs.
  apply (f_equal (@rev _)) in Hs. rewrite rev_involutive in Hs. simpl in Hs. rewrite Hs in Hsorted.
  apply elem_of_cons in Hq as [->|Hq].
  - unfold cmp_le. by rewrite (cmp_refl placement_cmp).
  - eapply (StronglySorted_app_1_elem_of _ _ _ q p Hsorted).
    + rewrite <- Permutation_rev. done.
    + set_solver.
Qed.

Section candidates.
Context `{Env}.

(** Whatever the clock says while the loop runs, the candidates are providers
    found admissible at some reading, and every provider admissible at all
    readings is a candidate. *)
Lemma candidates_sound input exclude ps w p :
  p ∈ (candidates input exclude ps w).1 →
  p ∈ ps ∧ (p_ID p ∉ exclude) ∧ ∃ n m, admissible input (env_now n) (env_now m) p = true.
Proof.
  revert w. induction ps as [|q ps IH]; intros w; cbn [candidates].
  { intros Hp. by apply not_elem_of_nil in Hp. }
  assert (∀ w, p ∈ (candidates input exclude ps w).1 →
    p ∈ q :: ps ∧ (p_ID p ∉ exclude) ∧ ∃ n m, admissible input (env_now n) (env_now m) p = true) as Hskip.
  { intros w' Hw'. destruct (IH w' Hw') as (? & ? & ?). split_and!; [set_solver|done|done]. }
  case_bool_decide as Hex; [apply Hskip|].
  unfold bind at 1. simpl. destruct (providerUnavailable q _) eqn:Hun; [apply Hskip|].
  destruct (Z.ltb_spec (remaining q) (i_Size input)) as [|Hsize]; [apply Hskip|].
  unfold bind at 1, violatesProviderPolicy. destruct (violatesSizePolicy q input) eqn:Hpol; [apply Hskip|].
  assert (∀ w m, (0 <? int64Setting q "monthly_upload_quota_bytes") && violatesMonthlyPolicy q input (env_now m) = false →
    p ∈ ((let! l := candidates input exclude ps in ret (q :: l)) w).1 →
    p ∈ q :: ps ∧ (p_ID p ∉ exclude) ∧ ∃ n m, admissible input (env_now n) (env_now m) p = true) as Htake.
  { intros w' m Hm. unfold bind; simpl. intros [->|Hp]%elem_of_cons; [|by eapply Hskip].
    split_and!; [set_solver|done|]. eexists _, m. unfold admissible.
    rewrite Hun, Hpol, Hm. simpl. rewrite !andb_true_r. by apply Z.leb_le. }
  destruct (0 <? int64Setting q _) eqn:Hlim; simpl.
  - unfold bind at 1; simpl. destruct (violatesMonthlyPolicy q input _) eqn:Hmon; [apply Hskip|].
    eapply Htake. by rewrite Hmon.
  - eapply (Htake _ 0%nat). done.
Qed.

Lemma candidates_complete input exclude ps w p :
  p ∈ ps → p_ID p ∉ exclude →
  p ∈ (candidates input exclude ps w).1 ∨ ∃ n m, admissible input (env_now n) (env_now m) p = false.
Proof.
  intros Hp Hex. revert w. induction ps as [|q ps IH]; intros w; [by apply not_elem_of_nil in Hp|].
  cbn [candidates]. apply elem_of_cons in Hp as [<-|Hp].
  - rewrite bool_decide_eq_false_2 by done. unfold bind; simpl.
    destruct (providerUnavailable p _) eqn:Hun.
    { right. exists (w_clock w), 0%nat. unfold admissible. by rewrite Hun. }
    destruct (Z.ltb_spec (remaining p) (i_Size input)) as [Hsize|Hsize].
    { right. exists (w_clock w), 0%nat. unfold admissible.
      rewrite (proj2 (Z.leb_gt _ _)) by lia. by rewrite andb_false_r. }
    unfold violatesProviderPolicy. destruct (violatesSizePolicy p input) eqn:Hpol.
    { right. exists (w_clock w), 0%nat. unfold admissible. by rewrite Hpol, andb_false_r. }
    destruct (0 <? int64Setting p _) eqn:Hlim; unfold bind; simpl; [|left; set_solver].
    match goal with |- context [violatesMonthlyPolicy p input (env_now ?n)] =>
      destruct (violatesMonthlyPolicy p input (env_now n)) eqn:Hmon;
      [right; exists (w_clock w), n; unfold admissible; by rewrite Hlim, Hmon, andb_false_r | left; set_solver] end.
  - specialize (IH Hp). case_bool_decide; [done|]. unfold bind; simpl.
    destruct (providerUnavailable q _); [done|]. destruct (remaining q <? _); [done|].
    unfold violatesProviderPolicy. destruct (violatesSizePolicy q input); [done|].
    assert (∀ w, p ∈ q :: (candidates input exclude ps w).1 ∨
      ∃ n m, admissible input (env_now n) (env_now m) p = false) as Hcons.
    { intros w'. destruct (IH w'); [left; by apply elem_of_cons; right | by right]. }
    destruct (0 <? int64Setting q _); unfold bind; simpl; [|apply Hcons].
    destruct (violatesMonthlyPolicy q input _); [done|apply Hcons].
Qed.

Context `{!ProviderLister}.

(** What is chosen was listed and is not excluded. *)
Lemma Choose_listed input exclude w p :
  (Choose input exclude w).1 = Ok p →
  (p_ID p ∉ exclude) ∧ ∃ ps, (lister_ListProviders true w).1 = Ok ps ∧ p ∈ ps.
Proof.
  unfold Choose, bind_ok, bind. destruct (lister_ListProviders true w) as [[ps|e] w1]; simpl; [|done].
  destruct (candidates input exclude ps w1) as [l w3] eqn:Hc. simpl.
  destruct (sort_stable l) as [|p' rest] eqn:Hs; [done|]. intros [= ->].
  assert (p ∈ l) as Hp by (rewrite <- (sort_stable_perm l), Hs; set_solver).
  destruct (candidates_sound input exclude ps w1 p) as (? & ? & _); [by rewrite Hc|]. eauto.
Qed.

(** What an account needs to take an object, its availability being judged at
    the instant [t1] and its month at [t2]. *)
Record can_take (input : PutObjectInput) (t1 t2 : Time) (p : ProviderAccount) : Prop := {
  take_available :
    p_AvailabilityStatus p = "" ∨
    (p_AvailabilityStatus p = "throttled" ∨ p_AvailabilityStatus p = "unavailable") ∧ p_UnavailableUntil p ≠ 0 ∧ p_UnavailableUntil p ≤ t1;
  take_capacity : 0 < p_CapacityBytes p → i_Size input ≤ sub64 (sub64 (p_CapacityBytes p) (p_UsedBytes p)) (p_ReservedBytes p);
  take_remote :
    0 < p_RemoteCapacityBytes p → i_Size input ≤ sub64 (sub64 (p_RemoteCapacityBytes p) (p_RemoteUsedBytes p)) (p_ReservedBytes p);
  take_bounded : p_CapacityBytes p ≤ 0 → i_Size input ≤ 2 ^ 62 - 1;
  take_size : 0 < int64Setting p "max_object_size_bytes" → i_Size input ≤ int64Setting p "max_object_size_bytes";
  take_free : 0 < int64Setting p "min_free_bytes" → int64Setting p "min_free_bytes" ≤ sub64 (remaining p) (i_Size input);
  take_month :
    0 < int64Setting p "monthly_upload_quota_bytes" →
    add64 (add64 (if (p_MonthlyPeriod p =? month_text t2)%string then p_MonthlyUploadedBytes p else 0) (p_ReservedBytes p)) (i_Size input)
      ≤ int64Setting p "monthly_upload_quota_bytes" }.

(** The order of preference: the lower priority number, then the lower cost,
    then the more free space, then the identifier that comes first. *)
Definition preferred (a b : ProviderAccount) : Prop :=
  p_Priority a < p_Priority b ∨
  p_Priority a = p_Priority b ∧
    (float_lt (providerCost a) (providerCost b) = true ∨
     providerCost a = providerCost b ∧
       (remaining b < remaining a ∨ remaining a = remaining b ∧ text_ltb (p_ID a) (p_ID b) = true)).

Lemma admissible_can_take input t1 t2 p : admissible input t1 t2 p = true ↔ can_take input t1 t2 p.
Proof.
  unfold admissible, violatesSizePolicy, violatesMonthlyPolicy. cbv zeta.
  rewrite !andb_true_iff, !negb_true_iff, orb_false_iff, !andb_false_iff, !Z.ltb_ge, Z.leb_le.
  assert (providerUnavailable p t1 = false ↔ (p_AvailabilityStatus p = "" ∨
    (p_AvailabilityStatus p = "throttled" ∨ p_AvailabilityStatus p = "unavailable") ∧ p_UnavailableUntil p ≠ 0 ∧ p_UnavailableUntil p ≤ t1)) as ->.
  { unfold providerUnavailable, is_zero, after.
    destruct (String.eqb_spec (p_AvailabilityStatus p) ""), (String.eqb_spec (p_AvailabilityStatus p) "throttled"),
      (String.eqb_spec (p_AvailabilityStatus p) "unavailable"), (Z.eqb_spec (p_UnavailableUntil p) 0),
      (Z.ltb_spec t1 (p_UnavailableUntil p)); cbn; naive_solver lia. }
  assert (i_Size input ≤ remaining p ↔
    (0 < p_CapacityBytes p → i_Size input ≤ sub64 (sub64 (p_CapacityBytes p) (p_UsedBytes p)) (p_ReservedBytes p)) ∧
    (0 < p_RemoteCapacityBytes p → i_Size input ≤ sub64 (sub64 (p_RemoteCapacityBytes p) (p_RemoteUsedBytes p)) (p_ReservedBytes p)) ∧
    (p_CapacityBytes p ≤ 0 → i_Size input ≤ 2 ^ 62 - 1)) as ->.
  { unfold remaining. generalize (2 ^ 62 - 1). intros most.
    destruct (Z.ltb_spec 0 (p_CapacityBytes p)), (Z.ltb_spec 0 (p_RemoteCapacityBytes p)); cbv zeta;
      try match goal with |- context [if ?x <? ?y then _ else _] => destruct (Z.ltb_spec x y) end; lia. }
  assert ((if negb (p_MonthlyPeriod p =? month_text t2)%string then 0 else p_MonthlyUploadedBytes p)
    = (if (p_MonthlyPeriod p =? month_text t2)%string then p_MonthlyUploadedBytes p else 0)) as -> by by destruct (p_MonthlyPeriod p =? _)%string.
  split.
  - intros (((Hav & Hcap & Hrem & Hmost) & [Hs Hf]) & Hm). split; try done; intros Hpos; lia.
  - intros [Hav Hcap Hrem Hmost Hs Hf Hm]. split_and!; try done; lia.
Qed.

Lemma not_preferred a b :
  providerCost a ≠ NaN → providerCost b ≠ NaN → less a b = false → ¬ preferred a b.
Proof.
  intros Ha Hb. unfold less, preferred. cbv zeta. intros Hless [Hlt|[Heq Hrest]].
  { rewrite (proj2 (Z.eqb_neq _ _)) in Hless by lia. cbn in Hless. apply Z.ltb_ge in Hless. lia. }
  rewrite Heq, Z.eqb_refl in Hless. cbn [negb] in Hless. destruct Hrest as [Hc|[Hc Hrest]].
  { destruct (float_ne _ _) eqn:Hne; [congruence|]. revert Hne Hc. unfold float_ne.
    destruct (providerCost a) as [x|[]|], (providerCost b) as [y|[]|]; cbn; try done. rewrite Z.ltb_lt. destruct (Z.eqb_spec x y); [lia|done]. }
  assert (float_ne (providerCost a) (providerCost b) = false) as Hne.
  { rewrite Hc in *. unfold float_ne. destruct (providerCost b) as [y|[]|]; cbn; try done. by rewrite Z.eqb_refl. }
  rewrite Hne in Hless. destruct Hrest as [Hfree|[Hfree Htext]].
  - rewrite (proj2 (Z.eqb_neq _ _)) in Hless by lia. cbn in Hless. apply Z.ltb_ge in Hless. lia.
  - rewrite Hfree, Z.eqb_refl in Hless. cbn in Hless. congruence.
Qed.


(** The router gives up with ErrNoProviderAvailable exactly when it found
    no candidate: then every listed provider is excluded or inadmissible at
    some reading; and while one provider is admissible throughout, a provider
    is chosen. *)
Theorem choose_no_provider input exclude w w1 ps :
  lister_ListProviders true w = (Ok ps, w1) →
  ((Choose input exclude w).1 = Err (ErrSentinel ErrNoProviderAvailable) ∧
     ∀ q, q ∈ ps → p_ID q ∈ exclude ∨ ∃ n m, admissible input (env_now n) (env_now m) q = false) ∨
  (∃ p, (Choose input exclude w).1 = Ok p ∧ p ∈ ps).
Proof.
  intros Hlist. unfold Choose, bind_ok, bind. rewrite Hlist. simpl.
  destruct (candidates input exclude ps w1) as [l w3] eqn:Hc. simpl.
  destruct (sort_stable l) as [|p rest] eqn:Hs; simpl.
  - left. split; [done|]. assert (l = []) as -> by (apply Permutation_nil; by rewrite <- Hs, sort_stable_perm).
    intros q Hq. destruct (decide (p_ID q ∈ exclude)) as [|Hex]; [by left|]. right.
    destruct (candidates_complete input exclude ps w1 q Hq Hex) as [Hin|Hno]; [|done].
    rewrite Hc in Hin. simpl in Hin. by apply not_elem_of_nil in Hin.
  - right. exists p. split; [done|].
    assert (p ∈ l) as Hp by (rewrite <- (sort_stable_perm l), Hs; set_solver).
    pose proof (candidates_sound input exclude ps w1 p) as Hsound. rewrite Hc in Hsound. by apply Hsound.
Qed.
End candidates.

(** ** Concrete runs *)

Definition demo_provider (id : string) (priority capacity used : Z) (cost : string) : ProviderAccount :=
  zero_ProviderAccount <| p_ID := id |> <| p_Priority := priority |> <| p_CapacityBytes := capacity |>
    <| p_UsedBytes := used |> <| p_Enabled := true |> <| p_Settings := {[ "cost_per_gb_month" := cost ]} |>.

Definition demo_time : Time := 63800000000000000000.

Definition demo_lister (ps : list ProviderAccount) : @ProviderLister (quiet_env demo_time (λ _, None)) :=
  {| lister_ListProviders := λ _, ret_ok ps |}.

Definition demo_upload (bucket key : string) (size : Z) : PutObjectInput :=
  zero_PutObjectInput <| i_Bucket := bucket |> <| i_Key := key |> <| i_Size := size |>.

Definition demo_cheap : ProviderAccount := demo_provider "cheap" 1 1000 0 "0.01".
Definition demo_dear : ProviderAccount := demo_provider "dear" 1 1000 0 "0.5".
Definition demo_full : ProviderAccount := demo_provider "full" 0 1000 999 "0".


Lemma choose_no_provider_witness :
  (@Choose (quiet_env demo_time (λ _, None)) (demo_lister [demo_full]) (demo_upload "b" "k" 10) ∅ (start empty_DB)).1
    = Err (ErrSentinel ErrNoProviderAvailable).
Proof.
  pose (E := quiet_env demo_time (λ _, None)).
  edestruct (@choose_no_provider E (demo_lister [demo_full]) (demo_upload "b" "k" 10) ∅
               (start empty_DB)) as [[Hno _] | (p & Hp & _)]; [reflexivity | exact Hno |].
  vm_compute in Hp. discriminate Hp.
Defined.

(** A cost setting of "NaN" is accepted as a number, and then the
    comparator is not an order: among three providers that differ in cost only,
    the router picks one although a cheaper one is admissible. *)
Theorem nan_cost_breaks_placement :
  let ps := [demo_provider "a" 1 1000 0 "1"; demo_provider "b" 1 1000 0 "NaN"; demo_provider "c" 1 1000 0 "0.5"] in
  ∃ p q, (@Choose (quiet_env demo_time (λ _, None)) (demo_lister ps) (demo_upload "b" "k" 10) ∅ (start empty_DB)).1 = Ok p
    ∧ q ∈ ps ∧ less q p = true ∧ admissible (demo_upload "b" "k" 10) demo_time demo_time q = true.
Proof.
  exists (demo_provider "a" 1 1000 0 "1"), (demo_provider "c" 1 1000 0 "0.5").
  split; [vm_compute; reflexivity|]. split; [|split; vm_compute; reflexivity].
  apply elem_of_cons; right. apply elem_of_cons; right. apply elem_of_cons; by left.
Qed.
