(* ===== verification/LocalDisk.v ===== *)
(** The adapter of local disks ([provider/local.go]): an object is a file below
    the account's directory, in a directory named after its bucket.

    The disk is a finite map from the elements of absolute paths to files and
    directories, without links. Every system call may fail with any error. An
    error of a path that cannot be resolved is made here, with the texts of the
    [os] package. *)
From S2P Require Import Prelude GoTime Sha256 Text Domain ProviderErrors World Drivers.

(** ** Paths *)

Definition slash_byte (a : ascii) : bool := Ascii.eqb a "/" || Ascii.eqb a "\".

Fixpoint drop_slashes (s : string) : string :=
  match s with
  | String a s' => if slash_byte a then drop_slashes s' else s
  | ""%string => ""
  end.

(** [strings.FieldsFunc] with slashes of both kinds *)
Definition slash_fields (s : string) : list string :=
  filter (λ e, e ≠ ""%string)
    (string_split "/" (string_of_list_ascii ((λ a, if slash_byte a then "/"%char else a) <$> list_ascii_of_string s))).

Definition safePathSegment (value : string) : result string :=
  let value := trim_space value in
  if (value =? "")%string || (value =? ".")%string || (value =? "..")%string
     || existsb slash_byte (list_ascii_of_string value)
  then Err (ErrText (quoted value +:+ " is not a safe path segment"))
  else Ok value.

Definition safeRelativePath (value : string) : result string :=
  let value := string_rev (drop_slashes (string_rev (drop_slashes (trim_space value)))) in
  if (value =? "")%string || (value =? ".")%string then Err (ErrText "object key is required")
  else let parts := slash_fields value in
       if existsb (λ part, (part =? ".")%string || (part =? "..")%string) parts
       then Err (ErrText ("object key " +:+ quoted value +:+ " contains unsafe path segment"))
       else Ok (filepath_join parts).

(** [filepath.Dir]: what comes before the last element, cleaned *)
Definition filepath_dir (path : string) : string :=
  match rev (string_split "/" path) with
  | [] | [_] => "."
  | _ :: before => path_clean (string_join "/" (rev before) +:+ "/")
  end.

(** [filepath.Ext]: from the last dot of the last element *)
Definition filepath_ext (path : string) : string :=
  match rev (string_split "." (default "" (last (string_split "/" path)))) with
  | [] | [_] => ""
  | suffix :: _ => "." +:+ suffix
  end.

(** The paths [os.MkdirAll] makes, from the first to the whole one. *)
Fixpoint path_prefixes (before : string) (elems : list string) : list string :=
  match elems with
  | [] => []
  | e :: elems =>
      let here := before +:+ e in
      (if (e =? "")%string then [] else [here]) ++ path_prefixes (here +:+ "/") elems
  end.

(** ** The disk *)

Definition not_dir : error := ErrText "not a directory".
Definition is_dir : error := ErrText "is a directory".

(** [fs.PathError] *)
Definition path_error {A} (op path : string) (r : result A) : result A :=
  match r with Ok a => Ok a | Err e => Err (ErrWrap (op +:+ " " +:+ path) e) end.

Definition disk_at (d : Disk) (es : list string) : option DiskNode :=
  match es with [] => Some DiskDir | _ => d !! es end.

(** The node of a path, found through its directories. *)
Fixpoint resolve (d : Disk) (at_ es : list string) : result DiskNode :=
  match disk_at d at_, es with
  | None, _ => Err (ErrSentinel ErrNotExist)
  | Some node, [] => Ok node
  | Some DiskDir, e :: es => resolve d (at_ ++ [e]) es
  | Some (DiskFile _ _), _ :: _ => Err not_dir
  end.

Definition find_node (d : Disk) (es : list string) : result DiskNode := resolve d [] es.

(** The directory a path lies in. *)
Definition find_parent (d : Disk) (es : list string) : result unit :=
  try! parent := find_node d (removelast es) in
  match parent with DiskDir => Ok tt | DiskFile _ _ => Err not_dir end.

Definition disk_mkdir (es : list string) (d : Disk) : result unit * Disk :=
  match find_node d es with
  | Ok DiskDir => (Ok tt, d)
  | Ok (DiskFile _ _) => (Err not_dir, d)
  | Err e =>
      match find_parent d es with
      | Ok _ => (Ok tt, <[es := DiskDir]> d)
      | Err e => (Err e, d)
      end
  end.

(** [os.OpenFile] with [O_CREATE|O_EXCL] *)
Definition disk_create_new (t : Time) (es : list string) (d : Disk) : result bool * Disk :=
  match find_node d es with
  | Ok _ => (Ok false, d)
  | Err _ =>
      match find_parent d es with
      | Ok _ => (Ok true, <[es := DiskFile "" t]> d)
      | Err e => (Err e, d)
      end
  end.

(** [os.OpenFile] with [O_CREATE|O_TRUNC], and a write *)
Definition disk_write (t : Time) (data : string) (es : list string) (d : Disk) : result unit * Disk :=
  match find_node d es with
  | Ok DiskDir => (Err is_dir, d)
  | _ =>
      match find_parent d es with
      | Ok _ => (Ok tt, <[es := DiskFile data t]> d)
      | Err e => (Err e, d)
      end
  end.

(** A write to an open file. *)
Definition disk_append (t : Time) (data : string) (es : list string) (d : Disk) : result unit * Disk :=
  (Ok tt, alter (λ node, match node with DiskFile old _ => DiskFile (old +:+ data) t | DiskDir => DiskDir end) es d).

(** A file that has the target's name goes; a directory refuses. *)
Definition disk_place (data : string) (t : Time) (target : list string) (d : Disk) : result unit * Disk :=
  match find_node d target with
  | Ok DiskDir => (Err (ErrText "file exists"), d)
  | _ =>
      match find_parent d target with
      | Ok _ => (Ok tt, <[target := DiskFile data t]> d)
      | Err e => (Err e, d)
      end
  end.

Definition disk_rename (source target : list string) (d : Disk) : result unit * Disk :=
  match find_node d source with
  | Ok (DiskFile data t) =>
      let '(r, d') := disk_place data t target d in
      match r with Ok _ => (Ok tt, if decide (source = target) then d' else delete source d') | Err e => (Err e, d) end
  | Ok DiskDir => (Err is_dir, d)
  | Err e => (Err e, d)
  end.

(** What lies below a directory, by the rest of its path. *)
Definition below (d : Disk) (es : list string) : list (list string * DiskNode) :=
  omap (λ '(k, node), if decide (take (List.length es) k = es) then Some (drop (List.length es) k, node) else None)
    (map_to_list d).

Definition disk_remove (es : list string) (d : Disk) : result unit * Disk :=
  match find_node d es with
  | Ok (DiskFile _ _) => (Ok tt, delete es d)
  | Ok DiskDir =>
      if forallb (λ '(rest, _), bool_decide (rest = [])) (below d es) && bool_decide (es ≠ []) then (Ok tt, delete es d)
      else (Err (ErrText "directory not empty"), d)
  | Err e => (Err e, d)
  end.

Definition disk_stat (es : list string) (d : Disk) : result DiskNode * Disk := (find_node d es, d).

(** The walk of [filepath.WalkDir]: the entries of a directory in the order of
    their names, so the files in the order of their lists of elements. *)
Fixpoint elements_leb (x y : list string) : bool :=
  match x, y with
  | [], _ => true
  | _ :: _, [] => false
  | a :: x, b :: y => if (a =? b)%string then elements_leb x y else text_leb a b
  end.

Definition elements_le (x y : list string * DiskNode) : Prop := elements_leb x.1 y.1 = true.
#[global] Instance elements_le_dec x y : Decision (elements_le x y).
Proof. unfold elements_le. apply _. Defined.

Definition walk (d : Disk) (es : list string) : list (list string * DiskNode) := merge_sort elements_le (below d es).

Definition walked_files (d : Disk) (es : list string) : result (list (string * string * Time)) :=
  try! node := find_node d es in
  match node with
  | DiskFile data t => Ok [(".", data, t)]
  | DiskDir => Ok (omap (λ '(rest, node), match node with DiskFile data t => Some (string_join "/" rest, data, t) | DiskDir => None end) (walk d es))
  end.

(** [os.ReadDir] of the directories only *)
Definition sub_directories (d : Disk) (es : list string) : result (list string) :=
  try! node := find_node d es in
  match node with
  | DiskFile _ _ => Err not_dir
  | DiskDir => Ok (sort_strings (omap (λ '(rest, node), match rest, node with [name], DiskDir => Some name | _, _ => None end) (below d es)))
  end.

Definition object_order (x y : ProviderObject) : Prop := text_le (po_Key x) (po_Key y).
#[global] Instance object_order_dec x y : Decision (object_order x y).
Proof. unfold object_order. apply _. Defined.

(** ** The adapter *)

Section local_disk.
Context `{DriverHost}.
Variable baseDir : string.

Definition elements (path : string) : list string := path_elements dh_cwd path.
#[global] Arguments elements : simpl never.

Definition providerRoot (account : ProviderAccount) : result string :=
  let configured := trim_space (default "" (p_Settings account !! "path")) in
  let configured := if (configured =? "")%string then trim_space (default "" (p_Settings account !! "root_path")) else configured in
  if (configured =? "")%string
  then match safePathSegment (p_ID account) with
       | Ok accountID => Ok (filepath_join [baseDir; "objects"; accountID])
       | Err e => Err (ErrWrap "invalid local provider id" e)
       end
  else if has_prefix configured "/" then Ok (path_clean configured)
  else Ok (filepath_join [baseDir; path_clean configured]).

Definition objectPath (account : ProviderAccount) (bucket key : string) : result string :=
  try! root := providerRoot account in
  try! safeBucket := match safePathSegment bucket with Ok b => Ok b | Err e => Err (ErrWrap "invalid local bucket path" e) end in
  try! safeKey := safeRelativePath key in
  Ok (filepath_join [root; safeBucket; safeKey]).

Section operation.
Variable calls : list Call.

Definition on_path {A} (op path : string) (f : list string → Disk → result A * Disk) : Op (result A) :=
  do! r := syscall calls (f (elements path)) in op_ret (path_error op path r).

Fixpoint make_all (paths : list string) : Op (result unit) :=
  match paths with
  | [] => op_ok tt
  | path :: paths =>
      do? _ := on_path "mkdir" path disk_mkdir in
      make_all paths
  end.

(** [os.MkdirAll] *)
Definition MkdirAll (path : string) : Op (result unit) := make_all (path_prefixes "" (string_split "/" path)).

(** [os.CreateTemp(dir, ".bucketmux-upload-*.tmp")], up to 10000 names *)
Definition temp_name (dir : string) (number : Z) : string :=
  dir +:+ (if has_suffix dir "/" then "" else "/") +:+ ".bucketmux-upload-" +:+ nat_text (number mod 2 ^ 32) +:+ ".tmp".

Fixpoint create_temp (tries : nat) (dir : string) : Op (result string) :=
  match tries with
  | O => op_err (ErrWrap ("createtemp " +:+ dir +:+ "/.bucketmux-upload-*.tmp") (ErrText "file already exists"))
  | S tries =>
      λ s,
        let name := temp_name dir (dh_random calls (os_step s)) in
        (do? fresh := on_path "open" name (disk_create_new (dh_clock calls (os_step s))) in
         if fresh then op_ok name else create_temp tries dir) s
  end.

Definition CreateTemp (dir : string) : Op (result string) := create_temp 10000 dir.

(** [io.Copy] from the reader: its error comes after its bytes. *)
Definition copy_to (path : string) (body : Reader) : Op (result Z) :=
  do! t := op_now calls in
  do? _ := on_path "write" path (disk_append t (rd_data body)) in
  match rd_err body with
  | Some e => op_err e
  | None => op_ok (Z.of_nat (String.length (rd_data body)))
  end.

Definition full_disk {A} (op : string) (otherwise : string) (e : error) : result A :=
  if errors_is e ErrNoSpace then Err (ErrProvider op FailureQuota 0 0 e) else Err (ErrWrap otherwise e).

Definition nothing (_ : list string) (d : Disk) : result unit * Disk := (Ok tt, d).

(** [os.Rename] *)
Definition rename (source target : string) : Op (result unit) :=
  do! r := syscall calls (disk_rename (elements source) (elements target)) in
  op_ret (path_error ("rename " +:+ source) target r).

Definition op_annotate {A} (msg : string) (m : Op (result A)) : Op (result A) :=
  do! r := m in
  op_ret (match r with Ok a => Ok a | Err e => Err (ErrWrap msg e) end).

Definition local_content_type (input : PutObjectInput) : string :=
  if (i_ContentType input =? "")%string then dh_mime (filepath_ext (i_Key input)) else i_ContentType input.

(** The file written and renamed; the deferred function takes the temporary
    file away when that fails. *)
Definition write_and_commit (tempPath path : string) (body : Reader) : Op (result Z) :=
  do! copied := copy_to tempPath body in
  match copied with
  | Err e => op_ret (full_disk "put local object" "write local object" e)
  | Ok written =>
      do? _ := op_annotate "sync local object" (on_path "sync" tempPath nothing) in
      do? _ := op_annotate "close local object" (on_path "close" tempPath nothing) in
      do? _ := op_annotate "commit local object" (rename tempPath path) in
      op_ok written
  end.

Definition local_Put (account : ProviderAccount) (input : PutObjectInput) (body : Reader) : Op (result StoredObject) :=
  do? remoteKey := op_lift (safeRelativePath (StorageKey input)) in
  do? path := op_lift (objectPath account (i_Bucket input) remoteKey) in
  do? _ := op_annotate "create local object dir" (MkdirAll (filepath_dir path)) in
  do? tempPath := op_annotate "create local object temp file" (CreateTemp (filepath_dir path)) in
  do! outcome := write_and_commit tempPath path body in
  match outcome with
  | Err e => do! _ := on_path "remove" tempPath disk_remove in op_err e
  | Ok written =>
      let checksum := sha256_hex (rd_data body) in
      op_ok (MkStoredObject (p_ID account) (p_Bucket account) remoteKey written (local_content_type input) (quoted checksum) checksum)
  end.

(** The spool comes from outside the tree of the disk: a rename moves its
    bytes in. *)
Definition local_PutPrepared (account : ProviderAccount) (input : PutObjectInput) (upload : PreparedUpload) : Op (result StoredObject) :=
  do? remoteKey := op_lift (safeRelativePath (StorageKey input)) in
  do? path := op_lift (objectPath account (i_Bucket input) remoteKey) in
  do? _ := op_annotate "create local object dir" (MkdirAll (filepath_dir path)) in
  do! synced := syscall calls (λ d, (Ok tt, d)) in
  match synced with
  | Err e => op_ret (full_disk "sync prepared local object" "sync prepared local object" e)
  | Ok _ =>
      do! t := op_now calls in
      do! renamed := on_path "rename" path (disk_place (pu_File upload) t) in
      match renamed with
      | Err e =>
          if errors_is e ErrCrossDevice then
            do? _ := op_annotate "rewind cross-device local upload" (syscall calls (λ d, (Ok tt, d))) in
            local_Put account input (MkReader (pu_File upload) None)
          else op_ret (full_disk "commit prepared local object" "commit prepared local object" e)
      | Ok _ =>
          let checksum := pu_ChecksumSHA256 upload in
          op_ok (MkStoredObject (p_ID account) (p_Bucket account) remoteKey (pu_Size upload) (local_content_type input) (quoted checksum) checksum)
      end
  end.

Definition local_Quota (account : ProviderAccount) : Op (result (Z * Z * string)) :=
  do? root := op_lift (providerRoot account) in
  do? _ := MkdirAll root in
  do? _ := op_annotate "stat local filesystem quota" (syscall calls (λ d, (Ok tt, d))) in
  let '(blocks, free, available, blockSize) := dh_statfs calls in
  let used := mul64 (wrap64 (blocks - free)) blockSize in
  op_ok (wrap64 (used + mul64 (wrap64 available) blockSize), used, "local-filesystem"%string).

Definition local_Capabilities (_ : ProviderAccount) : ProviderCapabilities := MkProviderCapabilities true true true true [].

Definition local_DiscoverBuckets (account : ProviderAccount) : Op (result (list ProviderBucket)) :=
  do? root := op_lift (providerRoot account) in
  do! entries := on_path "open" root (λ es d, (sub_directories d es, d)) in
  op_ret (match entries with
          | Ok names => Ok ((λ name, MkProviderBucket name zero_time) <$> names)
          | Err e => if errors_is e ErrNotExist then Ok [] else Err (ErrWrap "list local buckets" e)
          end).

Definition local_ListObjects (account : ProviderAccount) (bucket prefix continuationToken : string) (limit : Z)
  : Op (result ProviderObjectPage) :=
  let limit := Z.to_nat (if (limit <=? 0) || (1000 <? limit) then 1000 else limit) in
  do? probe := op_lift (objectPath account bucket "inventory-probe") in
  let root := filepath_dir probe in
  do! files := on_path "lstat" root (λ es d, (walked_files d es, d)) in
  op_ret (match files with
          | Err e => if errors_is e ErrNotExist then Ok (MkProviderObjectPage [] "") else Err (ErrWrap "inventory local objects" e)
          | Ok files =>
              let named := filter (λ '(key, _, _), (negb (text_leb key continuationToken) && has_prefix key prefix)%bool = true) files in
              let objects := (λ '(key, data, t), MkProviderObject key (Z.of_nat (String.length data)) "" (dh_mime (filepath_ext key)) t)
                               <$> take (S limit) named in
              let objects := merge_sort object_order objects in
              if (limit <? List.length objects)%nat
              then let objects := take limit objects in
                   Ok (MkProviderObjectPage objects (default "" (po_Key <$> last objects)))
              else Ok (MkProviderObjectPage objects "")
          end).

Definition local_Get (account : ProviderAccount) (obj : ObjectRecord) : Op (result (Reader * ObjectRecord)) :=
  do? path := op_lift (objectPath account (o_Bucket obj) (o_RemoteKey obj)) in
  do? node := op_annotate "open local object" (on_path "open" path disk_stat) in
  op_ok (match node with
         | DiskFile data _ => MkReader data None
         | DiskDir => MkReader "" (Some (ErrWrap ("read " +:+ path) is_dir))
         end, obj).

Definition local_Head (account : ProviderAccount) (obj : ObjectRecord) : Op (result ObjectRecord) :=
  do? path := op_lift (objectPath account (o_Bucket obj) (o_RemoteKey obj)) in
  do? node := op_annotate "stat local object" (on_path "stat" path disk_stat) in
  op_ok (obj <| o_Size := match node with
                          | DiskFile data _ => Z.of_nat (String.length data)
                          | DiskDir => dh_dir_size calls (elements path)
                          end |>).

Definition local_Delete (account : ProviderAccount) (obj : ObjectRecord) : Op (result unit) :=
  do? path := op_lift (objectPath account (o_Bucket obj) (o_RemoteKey obj)) in
  do! removed := on_path "remove" path disk_remove in
  op_ret (match removed with
          | Ok _ => Ok tt
          | Err e => if errors_is e ErrNotExist then Ok tt else Err (ErrWrap "delete local object" e)
          end).

Definition local_Health (account : ProviderAccount) : Op ProviderHealth :=
  do! started := op_now calls in
  match providerRoot account with
  | Err e => unhealthy calls account started (error_text e)
  | Ok root =>
      do! made := MkdirAll root in
      match made with
      | Err e => unhealthy calls account started ("create local provider root: " +:+ error_text e)
      | Ok _ =>
          do! info := on_path "stat" root disk_stat in
          match info with
          | Err e => unhealthy calls account started ("stat local provider root: " +:+ error_text e)
          | Ok (DiskFile _ _) => unhealthy calls account started "local provider root is not a directory"
          | Ok DiskDir =>
              let probe := filepath_join [root; ".bucketmux-healthcheck"] in
              do! t := op_now calls in
              do! written := (do? _ := on_path "open" probe (disk_write t "") in
                              on_path "write" probe (disk_append t "ok")) in
              match written with
              | Err e => unhealthy calls account started ("write local provider probe: " +:+ error_text e)
              | Ok _ =>
                  do! _ := on_path "remove" probe disk_remove in
                  healthy calls account started "local path is writable"
              end
          end
      end
  end.
End operation.

(** ** Its state

    The disk is what the calls made so far have left of it. *)
Definition is_local (account : ProviderAccount) : bool := (p_Kind account =? ProviderKindLocal)%string.

Definition run_on {A} (m : Op A) (d : Disk) : A * Disk := let '(a, s) := m (MkOpState d 0) in (a, os_disk s).

Definition disk_step (c : Call) (calls : list Call) (d : Disk) : Disk :=
  match c with
  | CallPut account input body => if is_local account then (run_on (local_Put calls account input body) d).2 else d
  | CallPutPrepared account input upload => if is_local account then (run_on (local_PutPrepared calls account input upload) d).2 else d
  | CallDelete account obj => if is_local account then (run_on (local_Delete calls account obj) d).2 else d
  | CallHealth account => if is_local account then (run_on (local_Health calls account) d).2 else d
  | CallQuota account => if is_local account then (run_on (local_Quota calls account) d).2 else d
  | CallGet _ _ | CallHead _ _ | CallListObjects _ _ _ _ _ | CallDiscover _ | CallHTTP _ _ _ _ => d
  end.

Fixpoint disk_after (calls : list Call) : Disk :=
  match calls with [] => dh_disk | c :: calls => disk_step c calls (disk_after calls) end.

Definition answer {A} (m : list Call → Op A) (calls : list Call) : A := (run_on (m calls) (disk_after calls)).1.

(** [NewLocalAdapter(baseDir)] *)
Definition NewLocalAdapter : Adapter :=
  MkAdapter
    (λ calls account input body, answer (λ h, local_Put h account input body) calls)
    (Some (λ calls account input upload, answer (λ h, local_PutPrepared h account input upload) calls))
    (λ calls account obj, answer (λ h, local_Get h account obj) calls)
    (λ calls account obj, answer (λ h, local_Head h account obj) calls)
    (λ calls account obj, answer (λ h, local_Delete h account obj) calls)
    (λ calls account, answer (λ h, local_Health h account) calls)
    (Some (λ calls account bucket prefix token limit, answer (λ h, local_ListObjects h account bucket prefix token limit) calls))
    (Some (λ calls account, answer (λ h, local_Quota h account) calls))
    (Some (λ calls account, answer (λ h, local_DiscoverBuckets h account) calls))
    (Some local_Capabilities).
End local_disk.
