(* ===== verification/LocalDiskFacts.v ===== *)
(** What the adapter of local disks guarantees: where its files lie, that a
    write is all or nothing, and that what was written is read back. *)
From S2P Require Import Prelude GoTime Sha256 Text Http Domain ProviderErrors World Placement Drivers LocalDisk.

(** ** Paths *)

Lemma proper_no_slash e : proper_element e = true → no_byte "/" e = true.
Proof. unfold proper_element. by intros [_ H]%andb_true_iff. Qed.

Lemma string_split_last p : ∃ before e, string_split "/" p = before ++ [e].
Proof. destruct (exists_last (string_split_ne "/" p)) as (b & e & ->). by exists b, e. Qed.

Lemma fold_push_empty rooted stack : clean_push rooted stack "" = stack.
Proof. done. Qed.

(** A path ends in its last element, below its directory. *)
Lemma path_elements_dir cwd p before e : string_split "/" p = before ++ [e] → proper_element e = true →
  path_elements cwd p = path_elements cwd (filepath_dir p) ++ [e].
Proof.
  intros Hp He. rewrite <- (rev_involutive (path_elements cwd p)), path_elements_rev, Hp, fold_left_app. cbn [fold_left].
  rewrite clean_push_proper by done. cbn [rev]. f_equal.
  unfold filepath_dir. rewrite Hp, rev_app_distr. cbn [rev app].
  destruct (rev before) as [|x rb] eqn:Hb.
  - apply (f_equal (@rev string)) in Hb. rewrite rev_involutive in Hb. subst before. cbn [fold_left].
    assert (p = e) as ->.
    { rewrite <- (string_join_split "/" p), Hp. done. }
    assert (has_prefix e "/" = false) as ->.
    { apply proper_no_slash in He. destruct e as [|a e]; [done|]. rewrite no_byte_cons in He. apply andb_true_iff in He as [Ha _].
      apply not_true_iff_false. intros [u Hu]%has_prefix_spec. rewrite append_cons in Hu. injection Hu as ->. done. }
    cbv iota. cbn [rev fold_left]. rewrite rev_involutive, <- (rev_involutive (path_elements cwd ".")), path_elements_rev. cbn. by rewrite rev_involutive.
  - apply (f_equal (@rev string)) in Hb. rewrite rev_involutive in Hb. rewrite <- Hb.
    set (b := string_join "/" before). assert (p = b +:+ "/" +:+ e) as Hpe.
    { rewrite <- (string_join_split "/" p), Hp. subst b. assert (before ≠ []) as Hne by (rewrite Hb; cbn; by destruct (rev rb)).
      clear -Hne. induction before as [|y l IH]; [done|]. destruct l as [|z l]; [done|].
      cbn [app]. rewrite !string_join_cons. cbn [app] in IH. rewrite IH by done. by rewrite <- !append_assoc. }
    assert (string_split "/" b = before) as Hsb.
    { subst b. apply string_split_join; [rewrite Hb; cbn; by destruct (rev rb)|].
      pose proof (string_split_no_byte "/" p) as Hf. rewrite Hp in Hf. by apply Forall_app in Hf as [Hf _]. }
    rewrite path_elements_clean by by destruct b.
    rewrite <- (rev_involutive (path_elements cwd (b +:+ "/"))), (path_elements_rev cwd (b +:+ "/")). apply (f_equal (@rev _)).
    change (b +:+ "/") with (b +:+ String "/" ""). rewrite string_split_sep, Hsb, fold_left_app. cbn [string_split fold_left].
    rewrite fold_push_empty. rewrite Hpe. f_equal. destruct b as [|c b]; [done|]. rewrite !append_cons. cbn. by destruct b.
Qed.

Lemma string_join_ne l e : proper_element e = true → string_join "/" (l ++ [e]) ≠ "".
Proof.
  intros He. destruct l as [|x [|y l]]; cbn [app].
  - by destruct e.
  - rewrite string_join_cons. by destruct x.
  - rewrite string_join_cons. by destruct x.
Qed.

(** The last element of a cleaned path. *)
Lemma path_clean_last s l e : clean_elements s = l ++ [e] → proper_element e = true →
  ∃ before, string_split "/" (path_clean s) = before ++ [e].
Proof.
  intros Hs He. unfold path_clean. pose proof (clean_elements_plain s) as Hl. rewrite Hs in *.
  assert (string_split "/" (string_join "/" (l ++ [e])) = l ++ [e]) as Hsplit.
  { apply string_split_join; [by destruct l|]. eapply Forall_impl; [exact Hl|]. by intros x [_ Hx]. }
  destruct (has_prefix s "/").
  - exists ("" :: l). change (String "/" (string_join "/" (l ++ [e]))) with ("" +:+ String "/" (string_join "/" (l ++ [e]))).
    rewrite string_split_sep, Hsplit. done.
  - rewrite (proj2 (String.eqb_neq _ "")) by by apply string_join_ne. by exists l.
Qed.

Lemma clean_elements_last s x e : proper_element e = true → s ≠ "" →
  x = s +:+ "/" +:+ e → ∃ l, clean_elements x = l ++ [e].
Proof.
  intros He Hs ->. unfold clean_elements. change ("/" +:+ e) with (String "/" e). rewrite string_split_sep, fold_left_app.
  rewrite (string_split_free "/" e) by by apply proper_no_slash. cbn [fold_left]. rewrite clean_push_proper by done. cbn [rev]. by eexists.
Qed.

(** A name in a directory. *)
Lemma path_elements_child cwd dir e : dir ≠ "" → proper_element e = true →
  path_elements cwd (dir +:+ (if has_suffix dir "/" then "" else "/") +:+ e) = path_elements cwd dir ++ [e].
Proof.
  intros Hd He. rewrite <- (rev_involutive (path_elements cwd (dir +:+ _))), path_elements_rev.
  rewrite <- (rev_involutive (path_elements cwd dir)), (path_elements_rev cwd dir).
  change [e] with (rev [e]). rewrite <- rev_app_distr. f_equal. cbn [app]. rewrite has_prefix_byte by done.
  destruct (has_suffix dir "/") eqn:E.
  - apply has_suffix_spec in E as [t ->]. rewrite append_nil_l, <- append_assoc.
    change ("/" +:+ e) with (String "/" e). change (t +:+ "/") with (t +:+ String "/" "").
    rewrite !string_split_sep, !fold_left_app, (string_split_free "/" e) by by apply proper_no_slash.
    cbn [string_split fold_left]. by rewrite fold_push_empty, clean_push_proper.
  - change ("/" +:+ e) with (String "/" e). rewrite string_split_sep, fold_left_app, (string_split_free "/" e) by by apply proper_no_slash.
    cbn [fold_left]. by rewrite clean_push_proper.
Qed.

Definition proper (l : list string) : Prop := Forall (λ e, proper_element e = true) l.

Lemma proper_last l e : proper (l ++ [e]) → proper_element e = true.
Proof. intros H. apply Forall_app in H as [_ H]. by inversion H. Qed.

Lemma existsb_slash s : existsb slash_byte (list_ascii_of_string s) = false → no_byte "/" s = true.
Proof.
  induction s as [|a s IH]; [done|]. cbn [list_ascii_of_string existsb]. intros [Ha Hs]%orb_false_iff.
  rewrite no_byte_cons, (IH Hs), andb_true_r. unfold slash_byte in Ha. apply orb_false_iff in Ha as [Ha _].
  rewrite Ascii.eqb_sym, Ha. done.
Qed.

Lemma safePathSegment_proper v b : safePathSegment v = Ok b → proper_element b = true.
Proof.
  unfold safePathSegment. destruct (_ || _ || _ || _) eqn:E; [done|]. intros [= <-].
  apply orb_false_iff in E as [[[E1 E2]%orb_false_iff E3]%orb_false_iff E4]. unfold proper_element.
  by rewrite E1, E2, E3, existsb_slash.
Qed.

Lemma drop_slashes_head s a t : drop_slashes s = String a t → slash_byte a = false.
Proof. induction s as [|c s IH]; [done|]. cbn. destruct (slash_byte c) eqn:E; [done|]. by intros [= <- _]. Qed.

Lemma drop_slashes_suffix s : ∃ p, s = p +:+ drop_slashes s.
Proof.
  induction s as [|a s (p & IH)]; [by exists ""|]. cbn. destruct (slash_byte a); [|by exists ""].
  exists (String a p). by rewrite append_cons, <- IH.
Qed.

Lemma trimmed_head s a t : string_rev (drop_slashes (string_rev (drop_slashes s))) = String a t → slash_byte a = false.
Proof.
  intros Ht. destruct (drop_slashes_suffix (string_rev (drop_slashes s))) as (p & Hp).
  apply (f_equal string_rev) in Hp. rewrite string_rev_involutive, string_rev_app, Ht in Hp.
  destruct (drop_slashes s) as [|b u] eqn:E; [done|]. rewrite append_cons in Hp. injection Hp as -> _.
  by eapply drop_slashes_head.
Qed.

Lemma slash_fields_ne a t : slash_byte a = false → slash_fields (String a t) ≠ [].
Proof.
  intros Ha. unfold slash_fields. cbn [list_ascii_of_string]. rewrite fmap_cons, Ha. cbn [string_of_list_ascii string_split].
  destruct (ascii_dec a "/") as [->|_]; [done|].
  match goal with |- context [string_split "/" ?u] => destruct (string_split "/" u) as [|x l] end;
    rewrite filter_cons_True by done; done.
Qed.

Lemma safeRelativePath_parts v k : safeRelativePath v = Ok k →
  ∃ parts, parts ≠ [] ∧ proper parts ∧ k = filepath_join parts.
Proof.
  unfold safeRelativePath. set (value := string_rev _). destruct (_ || _) eqn:E; [done|].
  destruct (existsb _ _) eqn:Ex; [done|]. intros [= <-]. exists (slash_fields value). split_and!; [| |done].
  - apply orb_false_iff in E as [E _]. destruct value as [|a t] eqn:Hv; [done|]. apply slash_fields_ne. by eapply trimmed_head.
  - apply Forall_forall. intros e He. unfold slash_fields in He. apply list_elem_of_filter in He as [Hne He].
    unfold proper_element. rewrite (proj2 (String.eqb_neq e "")) by done.
    pose proof (string_split_no_byte "/" (string_of_list_ascii ((λ a, if slash_byte a then "/"%char else a) <$> list_ascii_of_string value))) as Hf.
    rewrite Forall_forall in Hf. rewrite (Hf e He), andb_true_r. cbn [negb andb].
    destruct ((e =? ".")%string || (e =? "..")%string) eqn:Ed.
    + exfalso. apply not_true_iff_false in Ex. apply Ex, existsb_exists. exists e. split; [|done].
      apply list_elem_of_In. unfold slash_fields. by apply list_elem_of_filter.
    + apply orb_false_iff in Ed as [-> ->]. done.
Qed.

Lemma proper_join_relative parts : proper parts → has_prefix (string_join "/" parts) "/" = false.
Proof.
  intros Hp. destruct Hp as [|e l He _]; [done|]. destruct e as [|a e]; [done|].
  apply proper_no_slash in He. rewrite no_byte_cons in He. apply andb_true_iff in He as [Ha _].
  apply not_true_iff_false. intros [u Hu]%has_prefix_spec.
  destruct l as [|x l]; [|rewrite string_join_cons in Hu]; rewrite !append_cons in Hu; cbn [string_join String.concat] in Hu; injection Hu as -> _; done.
Qed.

Lemma filepath_join_proper e l : proper (e :: l) → filepath_join (e :: l) = path_clean (string_join "/" (e :: l)).
Proof. intros [He _]%Forall_cons. cbn [filepath_join]. by destruct e. Qed.

Lemma path_elements_object cwd root b parts : root ≠ "" → proper_element b = true → parts ≠ [] → proper parts →
  path_elements cwd (filepath_join [root; b; filepath_join parts]) = path_elements cwd root ++ b :: parts.
Proof.
  intros Hr Hb Hne Hp. rewrite path_elements_join by done. rewrite string_join_cons. cbn [string_join String.concat].
  change ("/" +:+ filepath_join parts) with (String "/" (filepath_join parts)).
  rewrite string_split_sep, fold_left_app, (string_split_free "/" b) by by apply proper_no_slash. cbn [fold_left].
  rewrite clean_push_proper by done. destruct parts as [|e l]; [done|]. rewrite filepath_join_proper by done.
  rewrite clean_fold_clean by by apply proper_join_relative.
  rewrite string_split_join; [|done|by eapply Forall_impl; [exact Hp|apply proper_no_slash]].
  rewrite clean_push_all by done. by rewrite rev_app_distr, rev_involutive; cbn [rev]; rewrite rev_involutive, <- app_assoc.
Qed.

Lemma proper_path_split parts : parts ≠ [] → proper parts → string_split "/" (filepath_join parts) = parts.
Proof.
  intros Hne Hp. destruct parts as [|e l]; [done|]. rewrite filepath_join_proper by done.
  assert (clean_elements (string_join "/" (e :: l)) = e :: l) as Hc.
  { unfold clean_elements. rewrite proper_join_relative by done.
    rewrite string_split_join; [|done|by eapply Forall_impl; [exact Hp|apply proper_no_slash]].
    rewrite clean_push_all by done. by rewrite app_nil_r, rev_involutive. }
  destruct (path_clean_relative (string_join "/" (e :: l))) as [[H _]|[_ ->]]; [by apply proper_join_relative| |done]. by rewrite Hc in H.
Qed.

Lemma object_path_last root b parts e : root ≠ "" → proper_element b = true → proper (parts ++ [e]) →
  ∃ before, string_split "/" (filepath_join [root; b; filepath_join (parts ++ [e])]) = before ++ [e].
Proof.
  intros Hr Hb Hp. cbn [filepath_join]. rewrite (proj2 (String.eqb_neq root "")) by done.
  assert (proper_element e = true) as He by by by eapply proper_last.
  apply (path_clean_last _ (rev (fold_left (clean_push (has_prefix (string_join "/" [root; b; filepath_join (parts ++ [e])]) "/"))
    (string_split "/" root ++ b :: parts) []))); [|done].
  unfold clean_elements. rewrite !string_join_cons. cbn [string_join String.concat].
  change ("/" +:+ b +:+ "/" +:+ filepath_join (parts ++ [e])) with (String "/" (b +:+ String "/" (filepath_join (parts ++ [e])))).
  rewrite !string_split_sep, (string_split_free "/" b) by by apply proper_no_slash.
  rewrite proper_path_split by (done || by destruct parts).
  change (string_split "/" root ++ [b] ++ parts ++ [e]) with (string_split "/" root ++ (b :: parts) ++ [e]).
  rewrite app_assoc, fold_left_app. cbn [fold_left]. by rewrite clean_push_proper.
Qed.

Lemma path_clean_ne s : path_clean s ≠ "".
Proof. unfold path_clean. destruct (has_prefix s "/"); [done|]. destruct (String.eqb_spec (string_join "/" (clean_elements s)) ""); done. Qed.

Section paths.
Context `{DriverHost}.
Variable baseDir : string.

Lemma providerRoot_ne account root : providerRoot baseDir account = Ok root → root ≠ "".
Proof.
  assert (∀ x l, x ≠ "" → filepath_join (l ++ [x]) ≠ "") as Hjoin.
  { intros x l Hx. induction l as [|y l IH]; cbn [app filepath_join]; [by destruct (String.eqb_spec x ""); [|apply path_clean_ne]|].
    destruct (y =? "")%string; [done|apply path_clean_ne]. }
  unfold providerRoot. destruct (_ =? "")%string.
  - destruct (safePathSegment (p_ID account)) as [b|] eqn:Hb; [|done]. intros [= <-]. apply (Hjoin b [baseDir; "objects"]).
    apply safePathSegment_proper in Hb. by intros ->.
  - destruct (has_prefix _ _); intros [= <-]; [apply path_clean_ne|apply (Hjoin _ [baseDir]), path_clean_ne].
Qed.

(** Where a file of an account lies. *)
Lemma objectPath_elements account bucket key path : objectPath baseDir account bucket key = Ok path →
  ∃ root b parts, providerRoot baseDir account = Ok root ∧ safePathSegment bucket = Ok b
    ∧ safeRelativePath key = Ok (filepath_join parts) ∧ parts ≠ [] ∧ proper (b :: parts)
    ∧ elements path = elements root ++ b :: parts
    ∧ elements (filepath_dir path) = elements root ++ b :: removelast parts.
Proof.
  unfold objectPath. destruct (providerRoot baseDir account) as [root|] eqn:Hroot; [|done]. cbn [result_bind].
  destruct (safePathSegment bucket) as [b|] eqn:Hb; [|done]. cbn [result_bind].
  destruct (safeRelativePath key) as [k|] eqn:Hk; [|done]. cbn [result_bind]. intros [= <-].
  pose proof (providerRoot_ne _ _ Hroot) as Hne. pose proof (safePathSegment_proper _ _ Hb) as Hpb.
  destruct (safeRelativePath_parts _ _ Hk) as (parts & Hparts & Hp & ->).
  exists root, b, parts. split_and!; [done|done|done|done|by constructor|by apply path_elements_object|].
  destruct (exists_last Hparts) as (front & e & ->).
  destruct (object_path_last root b front e) as (before & Hs); [done|done|done|].
  pose proof (path_elements_dir dh_cwd _ _ _ Hs) as Hdir.
  rewrite path_elements_object in Hdir by done. specialize (Hdir ltac:(by eapply proper_last)).
  unfold elements. rewrite removelast_last. change (path_elements dh_cwd root ++ b :: front ++ [e]) with (path_elements dh_cwd root ++ (b :: front) ++ [e]) in Hdir.
  rewrite app_assoc in Hdir. apply app_inj_tail in Hdir as [Hdir _]. done.
Qed.
End paths.

(** ** The disk *)

(** The file of a name, whether or not its directories are there. *)
Definition file_at (d : Disk) (es : list string) : option (string * Time) :=
  match d !! es with Some (DiskFile data t) => Some (data, t) | _ => None end.

Definition found (d : Disk) (es : list string) (data : string) (t : Time) : Prop := find_node d es = Ok (DiskFile data t).

Lemma resolve_app d at_ es es' : resolve d at_ (es ++ es') =
  match resolve d at_ es with
  | Ok DiskDir => resolve d (at_ ++ es) es'
  | Ok (DiskFile data t) => match es' with [] => Ok (DiskFile data t) | _ => Err not_dir end
  | Err e => Err e
  end.
Proof.
  revert at_. induction es as [|e es IH]; intros at_; cbn [app].
  - rewrite app_nil_r. cbn [resolve]. destruct es' as [|e' es']; cbn [resolve]; by destruct (disk_at d at_) as [[]|].
  - cbn [resolve]. destruct (disk_at d at_) as [[]|]; [done| |done]. rewrite IH. by rewrite <- app_assoc.
Qed.

Lemma find_node_snoc d es e : find_node d (es ++ [e]) =
  match find_node d es with
  | Ok DiskDir => match d !! (es ++ [e]) with Some node => Ok node | None => Err (ErrSentinel ErrNotExist) end
  | Ok (DiskFile _ _) => Err not_dir
  | Err e => Err e
  end.
Proof.
  unfold find_node. rewrite resolve_app. destruct (resolve d [] es) as [[data t|]|err] eqn:E; [done| |done]. cbn [app].
  assert (disk_at d es = Some DiskDir) as Hes.
  { clear -E. change es with ([] ++ es). revert E. generalize (@nil string). induction es as [|x es IH]; intros at_; cbn [resolve].
    - rewrite app_nil_r. by destruct (disk_at d at_) as [[]|]; intros [= ->] || intros [=].
    - destruct (disk_at d at_) as [[]|]; [done| |done]. intros H. apply IH in H. by rewrite <- app_assoc in H. }
  cbn [resolve]. rewrite Hes. assert (disk_at d (es ++ [e]) = d !! (es ++ [e])) as -> by by destruct es. by destruct (d !! (es ++ [e])) as [[]|].
Qed.

Lemma find_node_lookup d es node : find_node d es = Ok node → es ≠ [] → d !! es = Some node.
Proof.
  intros Hf Hne. destruct (exists_last Hne) as (front & e & ->). rewrite find_node_snoc in Hf.
  destruct (find_node d front) as [[]|]; [done| |done]. destruct (d !! (front ++ [e])); congruence.
Qed.

Lemma find_node_prefix d p q node : find_node d (p ++ q) = Ok node → q ≠ [] → find_node d p = Ok DiskDir.
Proof.
  unfold find_node. rewrite resolve_app. intros Hf Hq. destruct (resolve d [] p) as [[]|]; [by destruct q|done|done].
Qed.

(** What a path is found as depends on the nodes along it. *)
Lemma find_node_agree d d' es node : find_node d es = Ok node →
  (∀ p q, es = p ++ q → p ≠ [] → d' !! p = d !! p) → find_node d' es = Ok node.
Proof.
  revert node. induction es as [|e es IH] using rev_ind; intros node Hf Hag; [done|].
  rewrite find_node_snoc in *. destruct (find_node d es) as [[]|] eqn:Hes; [done| |done].
  rewrite (IH DiskDir) by (done || (intros p q -> Hp; apply (Hag p (q ++ [e])); [by rewrite <- app_assoc|done])).
  rewrite (Hag (es ++ [e]) []); [done|by rewrite app_nil_r|by destruct es].
Qed.

Lemma find_parent_node d es : find_parent d es = Ok tt → es ≠ [] →
  find_node d es = match d !! es with Some node => Ok node | None => Err (ErrSentinel ErrNotExist) end.
Proof.
  intros Hp Hne. destruct (exists_last Hne) as (front & e & ->). unfold find_parent in Hp. rewrite removelast_last in Hp.
  rewrite find_node_snoc. destruct (find_node d front) as [[]|]; done.
Qed.

(** A file found stays found. *)
Definition kept (es : list string) (d d' : Disk) : Prop := ∀ data t, found d es data t → found d' es data t.

#[global] Instance kept_preorder es : PreOrder (kept es).
Proof. split; [by intros d data t|]. intros d1 d2 d3 H1 H2 data t Hf. auto. Qed.

(** Files change in [S] only. *)
Definition same_but (S : list string → Prop) (d d' : Disk) : Prop := ∀ es, ¬ S es → file_at d' es = file_at d es.

#[global] Instance same_but_preorder S : PreOrder (same_but S).
Proof. split; [by intros d es|]. intros d1 d2 d3 H1 H2 es Hes. rewrite H2, H1; done. Qed.

Lemma same_but_mono (S T : list string → Prop) d d' : (∀ es, S es → T es) → same_but S d d' → same_but T d d'.
Proof. intros HST HS es Hes. apply HS. auto. Qed.

Definition nowhere (_ : list string) : Prop := False.

Lemma kept_agree es d d' :
  (∀ data t, found d es data t → ∀ p q, es = p ++ q → p ≠ [] → d' !! p = d !! p) → kept es d d'.
Proof. intros Hag data t Hf. apply (find_node_agree d); [done|]. by eapply Hag. Qed.

Lemma file_at_insert d k node es : k ≠ es → file_at (<[k := node]> d) es = file_at d es.
Proof. intros Hk. unfold file_at. by rewrite lookup_insert_ne. Qed.
Lemma file_at_delete d k es : k ≠ es → file_at (delete k d) es = file_at d es.
Proof. intros Hk. unfold file_at. by rewrite lookup_delete_ne. Qed.

(** A node made where there was none. *)
Lemma kept_fresh es k node d : d !! k = None → kept es d (<[k := node]> d).
Proof.
  intros Hk. apply kept_agree. intros data t Hf p q -> Hp. apply lookup_insert_ne. intros ->.
  destruct (decide (q = [])) as [->|Hq].
  - rewrite app_nil_r in Hf. apply find_node_lookup in Hf; [congruence|done].
  - apply find_node_prefix in Hf; [|done]. apply find_node_lookup in Hf; [congruence|done].
Qed.

(** A file put in the place of a file, or of nothing. *)
Lemma kept_file es k data' t' d : k ≠ es → find_node d k ≠ Ok DiskDir → kept es d (<[k := DiskFile data' t']> d).
Proof.
  intros Hne Hk. apply kept_agree. intros data t Hf p q -> Hp. apply lookup_insert_ne. intros ->.
  destruct (decide (q = [])) as [->|Hq]; [by rewrite app_nil_r in Hne|]. by apply find_node_prefix in Hf.
Qed.

(** A file taken away. *)
Lemma kept_unlink es k d : k ≠ es → find_node d k ≠ Ok DiskDir → kept es d (delete k d).
Proof.
  intros Hne Hk. apply kept_agree. intros data t Hf p q -> Hp. apply lookup_delete_ne. intros ->.
  destruct (decide (q = [])) as [->|Hq]; [by rewrite app_nil_r in Hne|]. by apply find_node_prefix in Hf.
Qed.

(** *** The system calls *)

(** Both relations for a call that touches [touched] only. *)
Definition touches (touched : list string → Prop) {A} (f : Disk → A * Disk) : Prop :=
  ∀ d, same_but touched d (f d).2 ∧ ∀ es, ¬ touched es → kept es d (f d).2.

Lemma touches_same (touched : list string → Prop) {A} (f : Disk → A * Disk) : (∀ d, (f d).2 = d) → touches touched f.
Proof. intros Hf d. rewrite Hf. done. Qed.

Lemma find_parent_fresh d k e : find_node d k = Err e → find_parent d k = Ok tt → k ≠ [] ∧ d !! k = None.
Proof.
  intros Hn Hp. assert (k ≠ []) as Hk by by intros ->. split; [done|]. rewrite find_parent_node in Hn by done. by destruct (d !! k).
Qed.

Lemma touches_fresh k node d e : find_node d k = Err e → find_parent d k = Ok tt →
  same_but (λ es, es = k) d (<[k := node]> d) ∧ ∀ es, kept es d (<[k := node]> d).
Proof.
  intros Hn Hp. destruct (find_parent_fresh _ _ _ Hn Hp) as [_ Hk]. split.
  - intros es Hes. by apply file_at_insert.
  - intros es. by apply kept_fresh.
Qed.

Lemma touches_mkdir k : touches nowhere (disk_mkdir k).
Proof.
  intros d. unfold disk_mkdir. destruct (find_node d k) as [[]|e] eqn:Hn; [done|done|].
  destruct (find_parent d k) as [[]|] eqn:Hp; [|done]. destruct (touches_fresh k DiskDir d e Hn Hp) as [Hs Hk]. cbn [snd]. split; [|auto].
  intros es _. destruct (decide (es = k)) as [->|Hne]; [|by apply Hs]. unfold file_at. rewrite lookup_insert_eq.
  destruct (find_parent_fresh _ _ _ Hn Hp) as [_ ->]. done.
Qed.

Lemma touches_create_new t k : touches (λ es, es = k) (disk_create_new t k).
Proof.
  intros d. unfold disk_create_new. destruct (find_node d k) as [|e] eqn:Hn; [done|].
  destruct (find_parent d k) as [[]|] eqn:Hp; [|done]. destruct (touches_fresh k (DiskFile "" t) d e Hn Hp) as [Hs Hk]. cbn [snd]. auto.
Qed.

Lemma touches_insert_file k data t d : find_node d k ≠ Ok DiskDir →
  same_but (λ es, es = k) d (<[k := DiskFile data t]> d) ∧ ∀ es, ¬ es = k → kept es d (<[k := DiskFile data t]> d).
Proof. intros Hn. split; intros es Hes; [by apply file_at_insert|by apply kept_file]. Qed.

Lemma touches_write t data k : touches (λ es, es = k) (disk_write t data k).
Proof.
  intros d. unfold disk_write. pose proof (touches_insert_file k data t d) as Hi.
  destruct (find_node d k) as [[]|] eqn:Hn; [|done|]; destruct (find_parent d k) as [[]|]; try done; cbn [snd]; by apply Hi.
Qed.

Lemma touches_place data t k : touches (λ es, es = k) (disk_place data t k).
Proof.
  intros d. unfold disk_place. pose proof (touches_insert_file k data t d) as Hi.
  destruct (find_node d k) as [[]|] eqn:Hn; [|done|]; destruct (find_parent d k) as [[]|]; try done; cbn [snd]; by apply Hi.
Qed.

Lemma touches_append t data k : touches (λ es, es = k) (disk_append t data k).
Proof.
  intros d. unfold disk_append. cbn [snd]. split; intros es Hes.
  - unfold file_at. by rewrite lookup_alter_ne.
  - apply kept_agree. intros x u Hf p q -> Hp. destruct (decide (p = k)) as [->|Hpk]; [|by apply lookup_alter_ne].
    destruct (decide (q = [])) as [->|Hq]; [by rewrite app_nil_r in Hes|]. apply find_node_prefix in Hf; [|done].
    apply find_node_lookup in Hf; [|done]. by rewrite lookup_alter_eq, Hf.
Qed.

Lemma touches_rename source target : touches (λ es, es = source ∨ es = target) (disk_rename source target).
Proof.
  intros d. unfold disk_rename. destruct (find_node d source) as [[data t|]|] eqn:Hs; [|done|done].
  destruct (touches_place data t target d) as [Hsame Hkept]. destruct (disk_place data t target d) as [[[]|] d'] eqn:Hd; [|done].
  cbn [snd] in *. destruct (decide (source = target)) as [<-|Hne]; cbn [snd].
  { split; intros es Hes; [apply Hsame|apply Hkept]; tauto. }
  split; intros es Hes.
  - rewrite file_at_delete by (intros ->; tauto). apply Hsame. tauto.
  - trans d'; [apply Hkept; tauto|]. apply kept_unlink; [intros ->; tauto|]. intros Hdir.
    assert (found d' source data t); [|unfold found in *; congruence]. apply Hkept; [done|]. done.
Qed.

Lemma below_app d es rest node : d !! (es ++ rest) = Some node → (rest, node) ∈ below d es.
Proof.
  intros Hd. unfold below. apply list_elem_of_omap. exists (es ++ rest, node). split; [by apply elem_of_map_to_list|].
  rewrite take_app_length, drop_app_length. by rewrite decide_True.
Qed.

Lemma touches_remove k : touches (λ es, es = k) (disk_remove k).
Proof.
  intros d. unfold disk_remove. destruct (find_node d k) as [[data t|]|] eqn:Hn; [| |done].
  - cbn [snd]. split; intros es Hes; [by apply file_at_delete|]. apply kept_unlink; [done|]. by rewrite Hn.
  - destruct (_ && _) eqn:E; [|done]. apply andb_true_iff in E as [Hb Hk%bool_decide_eq_true]. cbn [snd].
    split; intros es Hes; [by apply file_at_delete|]. apply kept_agree. intros data t Hf p q -> Hp. apply lookup_delete_ne. intros ->.
    destruct (decide (q = [])) as [->|Hq]; [by rewrite app_nil_r in Hes|].
    apply find_node_lookup in Hf; [|by destruct p]. apply below_app in Hf.
    rewrite forallb_forall in Hb. apply list_elem_of_In, Hb in Hf. by apply bool_decide_eq_true in Hf.
Qed.

Lemma place_found data t k d d' : disk_place data t k d = (Ok tt, d') → k ≠ [] → found d' k data t.
Proof.
  unfold disk_place. intros Hp Hk. destruct (exists_last Hk) as (front & e & ->).
  destruct (find_parent d (front ++ [e])) as [[]|] eqn:Hpar; [|by destruct (find_node d (front ++ [e])) as [[]|]].
  assert (d' = <[front ++ [e] := DiskFile data t]> d) as ->.
  { destruct (find_node d (front ++ [e])) as [[]|]; by simplify_eq. }
  unfold found. rewrite find_node_snoc. unfold find_parent in Hpar. rewrite removelast_last in Hpar.
  destruct (find_node d front) as [[]|] eqn:Hf; [done| |done].
  rewrite (find_node_agree d _ front DiskDir); [by rewrite lookup_insert_eq|done|].
  intros p q -> Hpne. apply lookup_insert_ne. intros Heq. apply (f_equal List.length) in Heq. rewrite !length_app in Heq. cbn in Heq. lia.
Qed.

(** *** Operations *)

Section operations.
Context `{DriverHost}.

Definition op_touches (touched : list string → Prop) {A} (m : Op A) : Prop :=
  ∀ s, same_but touched (os_disk s) (os_disk (m s).2) ∧ ∀ es, ¬ touched es → kept es (os_disk s) (os_disk (m s).2).

Lemma op_touches_mono (P Q : list string → Prop) {A} (m : Op A) : (∀ es, P es → Q es) → op_touches P m → op_touches Q m.
Proof.
  intros HPQ Hm s. destruct (Hm s) as [Hs Hk]. split; [by eapply same_but_mono|]. intros es Hes. apply Hk. auto.
Qed.

Lemma op_touches_ret P {A} (a : A) : op_touches P (op_ret a).
Proof. done. Qed.

Lemma op_touches_bind P {A B} (m : Op A) (k : A → Op B) :
  op_touches P m → (∀ a, op_touches P (k a)) → op_touches P (op_bind m k).
Proof.
  intros Hm Hk s. unfold op_bind. destruct (Hm s) as [Hs1 Hk1], (Hk (m s).1 (m s).2) as [Hs2 Hk2].
  split; [by etrans|]. intros es Hes. etrans; [by apply Hk1|by apply Hk2].
Qed.

Lemma op_touches_bind_ok P {A B} (m : Op (result A)) (k : A → Op (result B)) :
  op_touches P m → (∀ a, op_touches P (k a)) → op_touches P (op_bind_ok m k).
Proof. intros Hm Hk. apply op_touches_bind; [done|]. intros [a|e]; [done|apply op_touches_ret]. Qed.

Lemma op_touches_lift P {A B} (r : result A) (k : A → Op (result B)) :
  (∀ a, r = Ok a → op_touches P (k a)) → op_touches P (op_bind_ok (op_lift r) k).
Proof. intros Hk. destruct r as [a|e]; [by apply Hk|apply op_touches_ret]. Qed.

Lemma op_touches_now P calls : op_touches P (op_now calls).
Proof. done. Qed.

Lemma op_touches_syscall P calls {A} (f : Disk → result A * Disk) : touches P f → op_touches P (syscall calls f).
Proof.
  intros Hf s. unfold syscall. destruct (dh_fault calls (os_step s)); [done|]. specialize (Hf (os_disk s)).
  by destruct (f (os_disk s)).
Qed.

Lemma op_touches_idle calls : op_touches nowhere (syscall calls (λ d, (Ok tt, d))).
Proof. by apply op_touches_syscall, touches_same. Qed.

Lemma op_touches_on_path P calls {A} op path (f : list string → Disk → result A * Disk) :
  touches P (f (elements path)) → op_touches P (on_path calls op path f).
Proof. intros Hf. apply op_touches_bind; [by apply op_touches_syscall|intros; apply op_touches_ret]. Qed.

Lemma op_touches_annotate P {A} msg (m : Op (result A)) : op_touches P m → op_touches P (op_annotate msg m).
Proof. intros Hm. apply op_touches_bind; [done|intros; apply op_touches_ret]. Qed.

Lemma op_touches_make_all calls paths : op_touches nowhere (make_all calls paths).
Proof.
  induction paths as [|p paths IH]; [apply op_touches_ret|]. apply op_touches_bind_ok; [|by intros []].
  apply op_touches_on_path, touches_mkdir.
Qed.

Lemma op_touches_MkdirAll P calls path : op_touches P (MkdirAll calls path).
Proof. eapply op_touches_mono, op_touches_make_all. by intros es []. Qed.

Lemma op_touches_health P calls account started status message : op_touches P (driver_health calls account started status message).
Proof. by apply op_touches_bind; [apply op_touches_now|]. Qed.

Lemma op_touches_rename calls source target :
  op_touches (λ es, es = elements source ∨ es = elements target) (rename calls source target).
Proof. apply op_touches_bind; [apply op_touches_syscall, touches_rename|intros; apply op_touches_ret]. Qed.

Lemma op_touches_commit calls temp path body :
  op_touches (λ es, es = elements temp ∨ es = elements path) (write_and_commit calls temp path body).
Proof.
  assert (∀ {A} (f : Disk → A * Disk), touches (λ es, es = elements temp) f → touches (λ es, es = elements temp ∨ es = elements path) f) as Hone.
  { intros A f Hf d. destruct (Hf d) as [Hs Hk]. split; [eapply same_but_mono; [|done]; auto|]. intros es Hes. apply Hk. tauto. }
  apply op_touches_bind.
  { apply op_touches_bind; [apply op_touches_now|]. intros t. apply op_touches_bind_ok; [|intros; destruct (rd_err body); apply op_touches_ret].
    apply op_touches_on_path, Hone, touches_append. }
  intros [n|e]; [|apply op_touches_ret].
  repeat (apply op_touches_bind_ok; [|intros []]); [..|apply op_touches_ret];
    apply op_touches_annotate; [by apply op_touches_on_path, touches_same..|apply op_touches_rename].
Qed.

(** A new temporary file is the only change. *)
Lemma create_temp_spec calls dir tries s :
  match create_temp calls tries dir s with
  | (Ok name, s') => ∃ number t e, name = temp_name dir number ∧ find_node (os_disk s) (elements name) = Err e
      ∧ find_parent (os_disk s) (elements name) = Ok tt ∧ os_disk s' = <[elements name := DiskFile "" t]> (os_disk s)
  | (Err _, s') => os_disk s' = os_disk s
  end.
Proof.
  revert s. induction tries as [|tries IH]; intros s; [done|]. cbn [create_temp].
  set (name := temp_name dir _). unfold op_bind_ok at 1, on_path. unfold op_bind at 1 2, syscall.
  destruct (dh_fault calls (os_step s)) as [e|]; [done|]. unfold disk_create_new. cbn [os_disk].
  destruct (find_node (os_disk s) (elements name)) as [node|e] eqn:Hn.
  - cbn. specialize (IH (s <| os_step := S (os_step s) |> <| os_disk := os_disk s |>)). by destruct (create_temp _ _ _ _) as [[]].
  - destruct (find_parent (os_disk s) (elements name)) as [[]|] eqn:Hp; [|done]. cbn. by eexists _, _, e.
Qed.

Lemma CreateTemp_spec calls dir s :
  match CreateTemp calls dir s with
  | (Ok name, s') => ∃ number t e, name = temp_name dir number ∧ find_node (os_disk s) (elements name) = Err e
      ∧ find_parent (os_disk s) (elements name) = Ok tt ∧ os_disk s' = <[elements name := DiskFile "" t]> (os_disk s)
  | (Err _, s') => os_disk s' = os_disk s
  end.
Proof. apply create_temp_spec. Qed.

Lemma parse_digits_no_slash acc s : is_Some (parse_digits acc s) → no_byte "/" s = true.
Proof.
  revert acc. induction s as [|a s IH]; intros acc; [done|]. cbn [parse_digits]. destruct (digit_of a) as [d|] eqn:Ha; [|by intros []].
  intros Hs. rewrite no_byte_cons, (IH _ Hs), andb_true_r. destruct (Ascii.eqb_spec "/" a) as [<-|]; done.
Qed.

Lemma nat_text_no_slash z : 0 ≤ z → no_byte "/" (nat_text z) = true.
Proof.
  intros Hz. unfold nat_text. apply (parse_digits_no_slash 0). rewrite digits_rev_parse; [by eexists| |lia].
  split; [done|]. rewrite Nat2Z.inj_succ, Z2Nat.id by apply Z.log2_nonneg.
  destruct (decide (z = 0)) as [->|]; [done|]. apply Z.log2_spec. lia.
Qed.

Lemma temp_elements dir number : dir ≠ "" →
  elements (temp_name dir number) = elements dir ++ [".bucketmux-upload-" +:+ nat_text (number mod 2 ^ 32) +:+ ".tmp"].
Proof.
  intros Hd. unfold elements, temp_name. apply path_elements_child; [done|]. unfold proper_element.
  assert (no_byte "/" (nat_text (number mod 2 ^ 32)) = true) as Hn.
  { apply nat_text_no_slash. apply Z.mod_pos_bound. lia. }
  rewrite !no_byte_app, Hn. done.
Qed.

(** *** Runs that succeed *)

Lemma op_bind_ok_inv {A B} (m : Op (result A)) (k : A → Op (result B)) s b s' :
  op_bind_ok m k s = (Ok b, s') → ∃ a s1, m s = (Ok a, s1) ∧ k a s1 = (Ok b, s').
Proof. unfold op_bind_ok, op_bind. destruct (m s) as [[a|e] s1]; cbn; [by eexists _, _|done]. Qed.

Lemma syscall_ok calls {A} (f : Disk → result A * Disk) s a s' :
  syscall calls f s = (Ok a, s') → f (os_disk s) = (Ok a, os_disk s').
Proof. unfold syscall. destruct (dh_fault calls (os_step s)); [done|]. destruct (f (os_disk s)) as [r d]. by intros [= -> <-]. Qed.

Lemma on_path_ok calls {A} op path (f : list string → Disk → result A * Disk) s a s' :
  on_path calls op path f s = (Ok a, s') → f (elements path) (os_disk s) = (Ok a, os_disk s').
Proof.
  unfold on_path, op_bind. destruct (syscall calls (f (elements path)) s) as [[x|e] s1] eqn:E; cbn; [|done].
  intros [= <- <-]. by apply syscall_ok in E.
Qed.

Lemma op_annotate_ok {A} msg (m : Op (result A)) s a s' : op_annotate msg m s = (Ok a, s') → m s = (Ok a, s').
Proof. unfold op_annotate, op_bind. destruct (m s) as [[x|e] s1]; cbn; [|done]. by intros [= <- <-]. Qed.

Lemma rename_ok calls source target s a s' : rename calls source target s = (Ok a, s') →
  disk_rename (elements source) (elements target) (os_disk s) = (Ok a, os_disk s').
Proof.
  unfold rename, op_bind. destruct (syscall calls (disk_rename (elements source) (elements target)) s) as [[x|e] s1] eqn:E; cbn; [|done].
  intros [= <- <-]. by apply syscall_ok in E.
Qed.

Lemma commit_ok calls temp path body s n s' t0 :
  write_and_commit calls temp path body s = (Ok n, s') → os_disk s !! elements temp = Some (DiskFile "" t0) →
  elements temp ≠ [] → elements path ≠ [] →
  n = Z.of_nat (String.length (rd_data body)) ∧ rd_err body = None
  ∧ (∃ t, found (os_disk s') (elements path) (rd_data body) t)
  ∧ (elements temp ≠ elements path → file_at (os_disk s') (elements temp) = None).
Proof.
  intros Hrun Ht0 Htne Hpne. unfold write_and_commit in Hrun. unfold op_bind at 1 in Hrun.
  destruct (copy_to calls temp body s) as [[m|e] s1] eqn:Hcopy; cbn [fst snd] in Hrun;
    [|unfold full_disk in Hrun; by destruct (errors_is e ErrNoSpace)].
  assert (m = Z.of_nat (String.length (rd_data body)) ∧ rd_err body = None ∧ ∃ t, os_disk s1 !! elements temp = Some (DiskFile (rd_data body) t))
    as (-> & Herr & t & Ht).
  { unfold copy_to in Hcopy. unfold op_bind at 1, op_now in Hcopy. cbn [fst snd] in Hcopy.
    apply op_bind_ok_inv in Hcopy as (u & s2 & Hw & Hret). apply on_path_ok in Hw. cbn [os_disk] in Hw.
    unfold disk_append in Hw. destruct (rd_err body); [done|]. injection Hret as <- <-. split_and!; [done..|].
    injection Hw as _ <-. cbn. rewrite lookup_alter_eq. rewrite Ht0. cbn. by rewrite append_nil_l; eexists. }
  apply op_bind_ok_inv in Hrun as ([] & s2 & Hs2%op_annotate_ok%on_path_ok & Hrun).
  apply op_bind_ok_inv in Hrun as ([] & s3 & Hs3%op_annotate_ok%on_path_ok & Hrun).
  apply op_bind_ok_inv in Hrun as ([] & s4 & Hs4%op_annotate_ok%rename_ok & [= <- <-]).
  assert (os_disk s3 = os_disk s1) as Heq by (unfold nothing in Hs2, Hs3; congruence). rewrite Heq in Hs4.
  split_and!; [done|done|..].
  - unfold disk_rename in Hs4. destruct (find_node (os_disk s1) (elements temp)) as [[data u|]|] eqn:Hn; [|done|done].
    pose proof (find_node_lookup _ _ _ Hn Htne) as Hl. rewrite Ht in Hl. injection Hl as <- <-.
    destruct (disk_place (rd_data body) t (elements path) (os_disk s1)) as [[[]|] d'] eqn:Hplace; [|done].
    pose proof (place_found _ _ _ _ _ Hplace Hpne) as Hf. injection Hs4 as Hd. rewrite <- Hd. exists t.
    destruct (decide (elements temp = elements path)) as [_|Hne]; [done|].
    apply kept_unlink; [done| |done]. destruct (touches_place (rd_data body) t (elements path) (os_disk s1)) as [_ Hkept].
    rewrite Hplace in Hkept. apply Hkept in Hn; [|done]. unfold found in Hn. cbn [snd] in Hn. congruence.
  - intros Hne. unfold disk_rename in Hs4. destruct (find_node (os_disk s1) (elements temp)) as [[data u|]|]; [|done|done].
    destruct (disk_place data u (elements path) (os_disk s1)) as [[[]|] d']; [|done]. injection Hs4 as Hd.
    rewrite decide_False in Hd by done. rewrite <- Hd. unfold file_at. by rewrite lookup_delete_eq.
Qed.

(** *** A write that fails *)

Lemma syscall_err calls {A} (f : Disk → result A * Disk) s e s' : (∀ d e d', f d = (Err e, d') → d' = d) →
  syscall calls f s = (Err e, s') → os_disk s' = os_disk s.
Proof.
  intros Hf. unfold syscall. destruct (dh_fault calls (os_step s)); [by intros [= _ <-]|].
  destruct (f (os_disk s)) as [r d] eqn:E. intros [= -> <-]. cbn. by eapply Hf.
Qed.

Lemma on_path_err calls {A} op path (f : list string → Disk → result A * Disk) s e s' :
  (∀ d e d', f (elements path) d = (Err e, d') → d' = d) → on_path calls op path f s = (Err e, s') → os_disk s' = os_disk s.
Proof.
  intros Hf. unfold on_path, op_bind. destruct (syscall calls (f (elements path)) s) as [[x|x] s1] eqn:E; cbn; [done|].
  intros [= _ <-]. by eapply syscall_err.
Qed.

Lemma op_annotate_err {A} msg (m : Op (result A)) s e s' : op_annotate msg m s = (Err e, s') → ∃ x, m s = (Err x, s').
Proof. unfold op_annotate, op_bind. destruct (m s) as [[x|x] s1]; cbn; [done|]. intros [= _ <-]. by eexists. Qed.

Lemma op_bind_ok_err {A B} (m : Op (result A)) (k : A → Op (result B)) s e s' :
  op_bind_ok m k s = (Err e, s') → m s = (Err e, s') ∨ ∃ a s1, m s = (Ok a, s1) ∧ k a s1 = (Err e, s').
Proof. unfold op_bind_ok, op_bind. destruct (m s) as [[a|x] s1]; cbn; [right; by eexists _, _|]. intros [= -> ->]. by left. Qed.

Lemma rename_err calls source target s e s' : rename calls source target s = (Err e, s') → os_disk s' = os_disk s.
Proof.
  unfold rename, op_bind. destruct (syscall calls (disk_rename (elements source) (elements target)) s) as [[x|x] s1] eqn:E; cbn; [done|].
  intros [= _ <-]. eapply syscall_err; [|done]. intros d x' d'. unfold disk_rename.
  destruct (find_node d (elements source)) as [[data t|]|]; [|by intros [= _ <-]..].
  destruct (disk_place data t (elements target) d) as [[]]; [done|by intros [= _ <-]].
Qed.

(** Only the temporary file has changed. *)
Definition only_at (k : list string) (d d' : Disk) : Prop :=
  same_but (λ es, es = k) d d' ∧ ∀ es, es ≠ k → kept es d d'.

#[local] Instance only_at_preorder k : PreOrder (only_at k).
Proof. split; [done|]. intros d1 d2 d3 [H1 H2] [H3 H4]. split; [by etrans|]. intros es Hes. etrans; eauto. Qed.

Lemma only_at_touches k {A} (m : Op A) s r s' : op_touches (λ es, es = k) m → m s = (r, s') → only_at k (os_disk s) (os_disk s').
Proof. intros Hm E. destruct (Hm s) as [H1 H2]. rewrite E in *. done. Qed.

Lemma commit_err calls temp path body s e s' : write_and_commit calls temp path body s = (Err e, s') →
  only_at (elements temp) (os_disk s) (os_disk s').
Proof.
  intros Hrun. unfold write_and_commit in Hrun. unfold op_bind at 1 in Hrun.
  assert (op_touches (λ es, es = elements temp) (copy_to calls temp body)) as Htc.
  { apply op_touches_bind; [apply op_touches_now|]. intros t. apply op_touches_bind_ok; [|intros; destruct (rd_err body); apply op_touches_ret].
    apply op_touches_on_path, touches_append. }
  destruct (copy_to calls temp body s) as [r s1] eqn:Hcopy. apply (only_at_touches _ _ _ _ _ Htc) in Hcopy. cbn [fst snd] in Hrun.
  destruct r as [n|x]; [|by injection Hrun as _ <-].
  assert (∀ op s s' r, on_path calls op temp nothing s = (r, s') → os_disk s' = os_disk s) as Hnothing.
  { intros op u u' [a|x]; [intros Hu%on_path_ok; by injection Hu|]. apply on_path_err. by intros d x' d' [=]. }
  assert (os_disk s' = os_disk s1) as ->; [|done].
  apply op_bind_ok_err in Hrun as [[x Hx]%op_annotate_err|([] & s2 & Hs2%op_annotate_ok & Hrun)]; [by eapply Hnothing|].
  apply Hnothing in Hs2. rewrite <- Hs2.
  apply op_bind_ok_err in Hrun as [[x Hx]%op_annotate_err|([] & s3 & Hs3%op_annotate_ok & Hrun)]; [by eapply Hnothing|].
  apply Hnothing in Hs3. rewrite <- Hs3.
  apply op_bind_ok_err in Hrun as [[x Hx]%op_annotate_err|([] & s4 & Hs4 & Hrun)]; [by eapply rename_err|done].
Qed.
End operations.

(** ** Puts *)

#[local] Opaque CreateTemp.

Section puts.
Context `{DriverHost}.
Variable baseDir : string.

(** The file an input names. *)
Definition put_path (account : ProviderAccount) (input : PutObjectInput) : result string :=
  try! remoteKey := safeRelativePath (StorageKey input) in
  objectPath baseDir account (i_Bucket input) remoteKey.

Definition stored_as (account : ProviderAccount) (input : PutObjectInput) (remoteKey data : string) : StoredObject :=
  MkStoredObject (p_ID account) (p_Bucket account) remoteKey (Z.of_nat (String.length data)) (local_content_type input)
    (quoted (sha256_hex data)) (sha256_hex data).

(** No file is lost; a temporary one may be left. *)
Definition put_failed (account : ProviderAccount) (input : PutObjectInput) (d d' : Disk) : Prop :=
  (∀ es, kept es d d') ∧
  ∀ es, file_at d' es ≠ file_at d es → file_at d es = None
    ∧ ∃ path number, put_path account input = Ok path ∧ es = elements (temp_name (filepath_dir path) number).

Lemma put_failed_nowhere account input d d' : same_but nowhere d d' → (∀ es, kept es d d') → put_failed account input d d'.
Proof. intros Hs Hk. split; [done|]. intros es Hes. destruct Hes. apply Hs. by intros []. Qed.

Lemma fresh_temp d k e t : find_node d k = Err e → find_parent d k = Ok tt →
  only_at k d (<[k := DiskFile "" t]> d) ∧ file_at d k = None ∧ ∀ data u, ¬ found d k data u.
Proof.
  intros Hn Hp. destruct (touches_fresh k (DiskFile "" t) d e Hn Hp) as [H1 H2]. destruct (find_parent_fresh _ _ _ Hn Hp) as [_ Hk].
  split_and!; [by split; auto|by unfold file_at; rewrite Hk|]. intros data u Hf. unfold found in Hf. congruence.
Qed.

Lemma local_Put_spec calls account input body s r s' : local_Put baseDir calls account input body s = (r, s') →
  match r with
  | Ok stored => ∃ remoteKey path t, safeRelativePath (StorageKey input) = Ok remoteKey
      ∧ objectPath baseDir account (i_Bucket input) remoteKey = Ok path
      ∧ rd_err body = None ∧ stored = stored_as account input remoteKey (rd_data body)
      ∧ found (os_disk s') (elements path) (rd_data body) t
      ∧ only_at (elements path) (os_disk s) (os_disk s')
  | Err _ => put_failed account input (os_disk s) (os_disk s')
  end.
Proof.
  unfold local_Put, op_lift.
  destruct (safeRelativePath (StorageKey input)) as [remoteKey|e] eqn:Hkey; [|intros [= <- <-]; by apply put_failed_nowhere].
  unfold op_bind_ok at 1, op_bind at 1. cbn [op_ret fst snd].
  destruct (objectPath baseDir account (i_Bucket input) remoteKey) as [path|e] eqn:Hpath;
    [|intros [= <- <-]; by apply put_failed_nowhere].
  assert (Hput : put_path account input = Ok path) by (unfold put_path; by rewrite Hkey).
  unfold op_bind_ok at 1, op_bind at 1. cbn [op_ret fst snd].
  destruct (objectPath_elements _ _ _ _ _ Hpath) as (root & b & parts & _ & _ & _ & Hparts & Hproper & Hel & Hdir).
  assert (elements path ≠ []) as Hpne by (rewrite Hel; by destruct (elements root)).
  assert (filepath_dir path ≠ "") as Hdne by (unfold filepath_dir; destruct (rev (string_split "/" path)) as [|? [|]]; [done..|apply path_clean_ne]).
  unfold op_bind_ok at 1, op_bind at 1.
  pose proof (op_touches_annotate nowhere "create local object dir" _ (op_touches_MkdirAll nowhere calls (filepath_dir path)) s) as [Hs1 Hk0].
  pose proof (λ es, Hk0 es id) as Hk1. clear Hk0.
  destruct (op_annotate "create local object dir" _ s) as [[[]|e] s1] eqn:Hmk; cbn [fst snd] in *;
    [|intros [= <- <-]; apply put_failed_nowhere; [done|intros es; by apply Hk1]].
  unfold op_bind_ok, op_annotate, op_bind.
  pose proof (CreateTemp_spec calls (filepath_dir path) s1) as Htemp.
  destruct (CreateTemp calls (filepath_dir path) s1) as [[temp|e] s2]; cbn [op_ret fst snd];
    [|intros [= <- <-]; rewrite Htemp; apply put_failed_nowhere; [done|intros es; by apply Hk1]].
  destruct Htemp as (number & t0 & e0 & Hname & Hnode & Hpar & Hs2). destruct (fresh_temp _ _ _ t0 Hnode Hpar) as (Honly & Hnone & Hlost).
  rewrite <- Hs2 in Honly.
  assert (Htne : elements temp ≠ []) by by destruct (find_parent_fresh _ _ _ Hnode Hpar).
  assert (file_at (os_disk s) (elements temp) = None) as Hnone0 by (rewrite <- Hs1 by (by intros []); done).
  destruct (write_and_commit calls temp path body s2) as [[n|e] s3] eqn:Hrun; cbn [fst snd].
  - intros [= <- <-]. pose proof (op_touches_commit calls temp path body s2) as [Hs3 Hk3]. rewrite Hrun in Hs3, Hk3. cbn [snd] in *.
    apply commit_ok with (t0 := t0) in Hrun as (-> & Herr & [t Hf] & Hgone); [|by rewrite Hs2, lookup_insert_eq|done|done].
    exists remoteKey, path, t. split_and!; [done..|]. destruct Honly as [Ho1 Ho2]. split.
    + intros es Hes. destruct (decide (es = elements temp)) as [->|Hne]; [by rewrite Hnone0, Hgone by done|].
      rewrite Hs3 by tauto. rewrite Ho1 by done. apply Hs1. by intros [].
    + intros es Hes. destruct (decide (es = elements temp)) as [->|Hne].
      { intros data u Hfound. exfalso. apply (Hlost data u). by apply Hk1. }
      etrans; [by apply Hk1|]. etrans; [by apply Ho2|]. apply Hk3. tauto.
  - pose proof (op_touches_on_path (λ es, es = elements temp) calls "remove" temp disk_remove (touches_remove _) s3) as [Hs4 Hk4].
    destruct (on_path calls "remove" temp disk_remove s3) as [r4 s4]. cbn [fst snd] in *. intros [= <- <-].
    apply commit_err in Hrun. destruct Honly as [Ho1 Ho2], Hrun as [Hc1 Hc2]. split.
    + intros es. destruct (decide (es = elements temp)) as [->|Hne].
      { intros data u Hfound. exfalso. apply (Hlost data u). by apply Hk1. }
      etrans; [by apply Hk1|]. etrans; [by apply Ho2|]. etrans; [by apply Hc2|]. by apply Hk4.
    + intros es Hes. destruct (decide (es = elements temp)) as [->|Hne].
      * split; [done|]. exists path, number. by rewrite Hname.
      * destruct Hes. rewrite Hs4, Hc1, Ho1, Hs1; try done. by intros [].
Qed.

Lemma put_failed_after account input d d1 d2 : (∀ es, kept es d d1) → same_but nowhere d d1 →
  put_failed account input d1 d2 → put_failed account input d d2.
Proof.
  intros Hk Hs [H1 H2]. split; [intros es; etrans; [apply Hk|apply H1]|]. intros es Hes. pose proof (Hs es id) as E.
  rewrite <- E in Hes |- *. by apply H2.
Qed.

Lemma local_PutPrepared_spec calls account input upload s r s' : local_PutPrepared baseDir calls account input upload s = (r, s') →
  match r with
  | Ok stored => ∃ remoteKey path t, safeRelativePath (StorageKey input) = Ok remoteKey
      ∧ objectPath baseDir account (i_Bucket input) remoteKey = Ok path
      ∧ st_RemoteKey stored = remoteKey
      ∧ found (os_disk s') (elements path) (pu_File upload) t
      ∧ only_at (elements path) (os_disk s) (os_disk s')
  | Err _ => put_failed account input (os_disk s) (os_disk s')
  end.
Proof.
  unfold local_PutPrepared, op_lift.
  destruct (safeRelativePath (StorageKey input)) as [remoteKey|e] eqn:Hkey; [|intros [= <- <-]; by apply put_failed_nowhere].
  unfold op_bind_ok at 1, op_bind at 1. cbn [op_ret fst snd].
  destruct (objectPath baseDir account (i_Bucket input) remoteKey) as [path|e] eqn:Hpath;
    [|intros [= <- <-]; by apply put_failed_nowhere].
  unfold op_bind_ok at 1, op_bind at 1. cbn [op_ret fst snd].
  assert (Hpne : elements path ≠ []).
  { destruct (objectPath_elements _ _ _ _ _ Hpath) as (root & b & parts & _ & _ & _ & _ & _ & Hel & _). rewrite Hel. by destruct (elements root). }
  unfold op_bind_ok at 1, op_bind at 1.
  pose proof (op_touches_annotate nowhere "create local object dir" _ (op_touches_MkdirAll nowhere calls (filepath_dir path)) s) as [Hs1 Hk0].
  pose proof (λ es, Hk0 es id) as Hk1. clear Hk0.
  destruct (op_annotate "create local object dir" _ s) as [[[]|e] s1] eqn:Hmk; cbn [fst snd] in *;
    [|intros [= <- <-]; apply put_failed_nowhere; [done|intros es; by apply Hk1]].
  unfold op_bind at 1.
  destruct (op_touches_idle calls s1) as [Hs2 Hk0].
  pose proof (λ es, Hk0 es id) as Hk2. clear Hk0.
  destruct (syscall calls _ s1) as [[[]|e] s2]; cbn [fst snd] in *;
    [|unfold full_disk; destruct (errors_is e ErrNoSpace); intros [= <- <-]; apply put_failed_nowhere; try (by etrans); intros es; etrans; [apply Hk1|apply Hk2|apply Hk1|apply Hk2]].
  assert (∀ d', put_failed account input (os_disk s2) d' → put_failed account input (os_disk s) d') as Hafter.
  { intros d' Hf. eapply put_failed_after; [| |exact Hf]; [intros es; etrans; [apply Hk1|apply Hk2]|by etrans]. }
  assert (∀ d' path, only_at path (os_disk s2) d' → only_at path (os_disk s) d') as Hafter2.
  { intros d' p [Ho1 Ho2]. split; [|intros es Hes; etrans; [by apply Hk1|]; etrans; [by apply Hk2|by apply Ho2]].
    intros es Hes. rewrite Ho1, Hs2, Hs1; try done; by intros []. }
  clear Hk1 Hs1 Hk2 Hs2. unfold op_bind at 1. cbn [op_now fst snd]. unfold op_bind at 1.
  set (s3 := s2 <| os_step ::= S |>). assert (os_disk s3 = os_disk s2) as Hs3 by done.
  pose proof (on_path_ok calls "rename" path (disk_place (pu_File upload) (dh_clock calls (os_step s2))) s3) as Hok.
  pose proof (on_path_err calls "rename" path (disk_place (pu_File upload) (dh_clock calls (os_step s2))) s3) as Herr.
  pose proof (op_touches_on_path _ calls "rename" path _ (touches_place (pu_File upload) (dh_clock calls (os_step s2)) (elements path)) s3) as Ht.
  change ((dh_clock calls (os_step s2), s3).1) with (dh_clock calls (os_step s2)). change ((dh_clock calls (os_step s2), s3).2) with s3.
  destruct (on_path calls "rename" path _ s3) as [[[]|e] s4]; cbn [fst snd] in *.
  - intros [= <- <-]. specialize (Hok tt s4 eq_refl). apply place_found in Hok; [|done].
    exists remoteKey, path, (dh_clock calls (os_step s2)). split_and!; [done..|]. apply Hafter2. rewrite <- Hs3. exact Ht.
  - assert (os_disk s4 = os_disk s2) as Hs4.
    { rewrite <- Hs3. eapply Herr; [|done]. intros d e' d'. unfold disk_place.
      destruct (find_node d (elements path)) as [[]|]; [|by intros [= _ <-]|]; (destruct (find_parent d (elements path)); [done|by intros [= _ <-]]). }
    destruct (errors_is e ErrCrossDevice).
    + unfold op_bind_ok, op_annotate, op_bind.
      destruct (op_touches_idle calls s4) as [Hs5 Hk0].
      pose proof (λ es, Hk0 es id) as Hk5. clear Hk0.
      destruct (syscall calls _ s4) as [[[]|e5] s5]; cbn [fst snd op_ret] in *.
      * intros Hput%local_Put_spec. destruct r as [stored|e'].
        -- destruct Hput as (key & p & t & Hk & Hp & _ & -> & Hf & Ho). exists key, p, t. split_and!; [congruence|done..|].
           apply Hafter2. rewrite <- Hs4. destruct Ho as [Ho1 Ho2]. split; [|intros es Hes; etrans; [apply Hk5|by apply Ho2]].
           intros es Hes. rewrite Ho1, Hs5; try done. by intros [].
        -- apply Hafter. rewrite <- Hs4. by eapply put_failed_after.
      * intros [= <- <-]. apply Hafter. rewrite <- Hs4. apply put_failed_nowhere; done.
    + unfold full_disk. destruct (errors_is e ErrNoSpace); intros [= <- <-]; apply Hafter; rewrite Hs4; apply put_failed_nowhere; done.
Qed.
End puts.

(** ** The adapter *)

Section adapter.
Context `{DriverHost}.
Variable baseDir : string.

Definition probe_path (root : string) : string := filepath_join [root; ".bucketmux-healthcheck"].

(** The file a call is about. *)
Definition call_path (c : Call) : result string :=
  match c with
  | CallPut account input _ | CallPutPrepared account input _ => put_path baseDir account input
  | CallDelete account obj => objectPath baseDir account (o_Bucket obj) (o_RemoteKey obj)
  | CallHealth account => try! root := providerRoot baseDir account in Ok (probe_path root)
  | _ => Err (ErrText "")
  end.

Definition names (c : Call) (es : list string) : Prop := ∃ path, call_path c = Ok path ∧ es = elements path.

Definition call_account (c : Call) : option ProviderAccount :=
  match c with
  | CallPut account _ _ | CallPutPrepared account _ _ | CallGet account _ | CallHead account _ | CallDelete account _
  | CallHealth account | CallListObjects account _ _ _ _ | CallQuota account | CallDiscover account => Some account
  | CallHTTP _ _ _ _ => None
  end.

(** The tree of an account. *)
Definition tree_of (account : ProviderAccount) (es : list string) : Prop :=
  ∃ root rest, providerRoot baseDir account = Ok root ∧ es = elements root ++ rest.

Lemma op_touches_Delete calls account obj : op_touches (names (CallDelete account obj)) (local_Delete baseDir calls account obj).
Proof.
  apply op_touches_lift. intros path Hp. eapply (op_touches_mono (λ es, es = elements path)); [intros es ->; by exists path|].
  apply op_touches_bind; [apply op_touches_on_path, touches_remove|intros; apply op_touches_ret].
Qed.

Lemma op_touches_Quota calls account : op_touches nowhere (local_Quota baseDir calls account).
Proof.
  apply op_touches_bind_ok; [apply op_touches_ret|]. intros root. apply op_touches_bind_ok; [apply op_touches_MkdirAll|]. intros [].
  apply op_touches_bind_ok; [apply op_touches_annotate, op_touches_idle|]. intros []. destruct (dh_statfs calls) as [[[]]]. apply op_touches_ret.
Qed.

Lemma op_touches_Health calls account : op_touches (names (CallHealth account)) (local_Health baseDir calls account).
Proof.
  apply op_touches_bind; [apply op_touches_now|]. intros started.
  destruct (providerRoot baseDir account) as [root|e] eqn:Hroot; [|apply op_touches_health].
  assert (∀ A (m : Op A), op_touches (λ es, es = elements (probe_path root)) m → op_touches (names (CallHealth account)) m) as Hprobe.
  { intros A m. apply op_touches_mono. intros es ->. exists (probe_path root). unfold call_path. by rewrite Hroot. }
  apply op_touches_bind; [apply op_touches_MkdirAll|]. intros [[]|e]; [|apply op_touches_health].
  apply op_touches_bind; [by apply op_touches_on_path, touches_same|]. intros [[]|e]; [apply op_touches_health| |apply op_touches_health].
  apply Hprobe. apply op_touches_bind; [apply op_touches_now|]. intros t. apply op_touches_bind.
  { apply op_touches_bind_ok; [apply op_touches_on_path, touches_write|]. intros []. apply op_touches_on_path, touches_append. }
  intros [[]|e]; [|apply op_touches_health]. apply op_touches_bind; [apply op_touches_on_path, touches_remove|].
  intros ?. apply op_touches_health.
Qed.

Lemma run_on_touches P {A} (m : Op A) d : op_touches P m →
  same_but P d (run_on m d).2 ∧ ∀ es, ¬ P es → kept es d (run_on m d).2.
Proof. intros Hm. specialize (Hm (MkOpState d 0)). unfold run_on. by destruct (m (MkOpState d 0)). Qed.

Lemma put_failed_kept account input d d' es : put_failed baseDir account input d d' → kept es d d'.
Proof. intros [H1 _]. apply H1. Qed.

(** A call keeps every file it is not about. *)
Lemma disk_step_kept c calls d es : ¬ names c es → kept es d (disk_step baseDir c calls d).
Proof.
  intros Hes. destruct c as [account input body|account input upload|account obj|account obj|account obj|account|account b p t l|account|account|m u p h];
    cbn [disk_step]; try done; destruct (is_local account); try done.
  - unfold run_on. destruct (local_Put _ _ _ _ _ _) as [r s'] eqn:E. apply local_Put_spec in E. cbn [snd]. destruct r; [|by eapply put_failed_kept].
    destruct E as (key & path & t & Hk & Hp & _ & _ & _ & [_ Ho]). apply Ho. intros ->. apply Hes. exists path. split; [|done].
    cbn [call_path]. unfold put_path. by rewrite Hk.
  - unfold run_on. destruct (local_PutPrepared _ _ _ _ _ _) as [r s'] eqn:E. apply local_PutPrepared_spec in E. cbn [snd].
    destruct r; [|by eapply put_failed_kept].
    destruct E as (key & path & t & Hk & Hp & _ & _ & [_ Ho]). apply Ho. intros ->. apply Hes. exists path. split; [|done].
    cbn [call_path]. unfold put_path. by rewrite Hk.
  - by apply run_on_touches with (P := names (CallDelete account obj)); [apply op_touches_Delete|].
  - by apply run_on_touches with (P := names (CallHealth account)); [apply op_touches_Health|].
  - apply run_on_touches with (P := nowhere); [apply op_touches_Quota|by intros []].
Qed.

Lemma object_in_tree account bucket key path : objectPath baseDir account bucket key = Ok path → tree_of account (elements path).
Proof. intros (root & b & parts & Hr & _ & _ & _ & _ & Hel & _)%objectPath_elements. rewrite Hel. by eexists _, _. Qed.

Lemma temp_in_tree account bucket key path number : objectPath baseDir account bucket key = Ok path →
  tree_of account (elements (temp_name (filepath_dir path) number)).
Proof.
  intros (root & b & parts & Hr & _ & _ & _ & _ & _ & Hdir)%objectPath_elements.
  rewrite temp_elements by (unfold filepath_dir; destruct (rev (string_split "/" path)) as [|? [|]]; [done..|apply path_clean_ne]).
  rewrite Hdir, <- app_assoc. by eexists _, _.
Qed.

Lemma put_path_object account input path : put_path baseDir account input = Ok path →
  ∃ key, objectPath baseDir account (i_Bucket input) key = Ok path.
Proof. unfold put_path. destruct (safeRelativePath _) as [key|]; [|done]. by exists key. Qed.

Lemma put_failed_confined account input d d' : put_failed baseDir account input d d' → same_but (tree_of account) d d'.
Proof.
  intros [_ Hf] es Hes. destruct (decide (file_at d' es = file_at d es)) as [|Hne]; [done|].
  apply Hf in Hne as (_ & path & number & Hp & ->). destruct Hes. apply put_path_object in Hp as [key Hp]. by eapply temp_in_tree.
Qed.

Lemma only_at_confined account bucket key path d d' : objectPath baseDir account bucket key = Ok path →
  only_at (elements path) d d' → same_but (tree_of account) d d'.
Proof. intros Hp [Ho _] es Hes. apply Ho. intros ->. apply Hes. by eapply object_in_tree. Qed.

Lemma disk_step_confined c calls d :
  same_but (λ es, ∃ account, call_account c = Some account ∧ tree_of account es) d (disk_step baseDir c calls d).
Proof.
  assert (∀ account, call_account c = Some account → same_but (tree_of account) d (disk_step baseDir c calls d) →
    same_but (λ es, ∃ account, call_account c = Some account ∧ tree_of account es) d (disk_step baseDir c calls d)) as Hone.
  { intros account Hc. apply same_but_mono. by exists account. }
  destruct c as [account input body|account input upload|account obj|account obj|account obj|account|account b p t l|account|account|m u p h];
    try (by intros es); apply (Hone account eq_refl); cbn [disk_step]; destruct (is_local account); try done.
  - unfold run_on. destruct (local_Put _ _ _ _ _ _) as [r s'] eqn:E. apply local_Put_spec in E. cbn [snd]. destruct r; [|by eapply put_failed_confined].
    destruct E as (key & path & t & Hk & Hp & _ & _ & _ & Ho). by eapply only_at_confined.
  - unfold run_on. destruct (local_PutPrepared _ _ _ _ _ _) as [r s'] eqn:E. apply local_PutPrepared_spec in E. cbn [snd].
    destruct r; [|by eapply put_failed_confined]. destruct E as (key & path & t & Hk & Hp & _ & _ & Ho). by eapply only_at_confined.
  - destruct (run_on_touches _ _ d (op_touches_Delete calls account obj)) as [Hs _]. eapply same_but_mono; [|exact Hs].
    intros es (path & Hp & ->). by eapply object_in_tree.
  - destruct (run_on_touches _ _ d (op_touches_Health calls account)) as [Hs _]. eapply same_but_mono; [|exact Hs].
    intros es (path & Hp & ->). cbn [call_path] in Hp. destruct (providerRoot baseDir account) as [root|] eqn:Hroot; [|done]. injection Hp as <-.
    exists root, [".bucketmux-healthcheck"]. split; [done|]. apply path_elements_join_proper; [by eapply providerRoot_ne|done|by constructor].
  - destruct (run_on_touches _ _ d (op_touches_Quota calls account)) as [Hs _]. eapply same_but_mono; [|exact Hs]. by intros es [].
Qed.
End adapter.

(** ** Properties *)

Section properties.
Context `{DriverHost}.
Variable baseDir : string.

(** C10. A write to the local disk is all or nothing. When it succeeds, the
    file the key names holds exactly the bytes of the body, which was read to
    its end without an error, the answer gives their number and SHA-256, every
    other file is as it was and no temporary file is left. When it fails, no
    file that could be found has changed, the old version of the object
    included, and nothing has appeared but, if its removal failed too, the
    temporary file in the directory of the object. *)
Theorem local_put_atomic calls account input body d :
  match run_on (local_Put baseDir calls account input body) d with
  | (Ok stored, d') => ∃ path t,
      safeRelativePath (StorageKey input) = Ok (st_RemoteKey stored)
      ∧ objectPath baseDir account (i_Bucket input) (st_RemoteKey stored) = Ok path
      ∧ rd_err body = None
      ∧ st_Size stored = Z.of_nat (String.length (rd_data body))
      ∧ st_ChecksumSHA256 stored = sha256_hex (rd_data body)
      ∧ find_node d' (elements path) = Ok (DiskFile (rd_data body) t)
      ∧ ∀ es, es ≠ elements path →
          file_at d' es = file_at d es
          ∧ ∀ data u, find_node d es = Ok (DiskFile data u) → find_node d' es = Ok (DiskFile data u)
  | (Err _, d') =>
      (∀ es data t, find_node d es = Ok (DiskFile data t) → find_node d' es = Ok (DiskFile data t))
      ∧ ∀ es, file_at d' es ≠ file_at d es →
          file_at d es = None
          ∧ ∃ path number, put_path baseDir account input = Ok path ∧ es = elements (temp_name (filepath_dir path) number)
  end.
Proof.
  unfold run_on. destruct (local_Put baseDir calls account input body (MkOpState d 0)) as [r s'] eqn:E.
  apply local_Put_spec in E. cbn [os_disk] in E. destruct r as [stored|e]; [|exact E].
  destruct E as (key & path & t & Hk & Hp & Herr & -> & Hf & [Ho1 Ho2]). exists path, t. split_and!; try done.
  intros es Hes. split; [by apply Ho1|by apply Ho2].
Qed.

Lemma later_calls_keep later calls es data t : (∀ c, c ∈ later → ¬ names baseDir c es) →
  found (disk_after baseDir calls) es data t → found (disk_after baseDir (later ++ calls)) es data t.
Proof.
  intros Hl Hf. induction later as [|c later IH]; [done|]. cbn [app disk_after].
  apply disk_step_kept; [apply Hl; by left|]. apply IH. intros c' Hc'. apply Hl. by right.
Qed.

(** C11. What was written to the local disk is read back. After a successful
    put, whatever calls follow that are not about the same file (other puts,
    deletes, health checks, calls to other providers), and unless the read
    itself fails, the object of that bucket and remote key yields the bytes
    that were put. *)
Theorem local_read_back calls account input body stored later obj :
  p_Kind account = ProviderKindLocal →
  ad_Put (NewLocalAdapter baseDir) calls account input body = Ok stored →
  o_Bucket obj = i_Bucket input → o_RemoteKey obj = st_RemoteKey stored →
  (∀ c path, c ∈ later → put_path baseDir account input = Ok path → ¬ names baseDir c (elements path)) →
  dh_fault (later ++ CallPut account input body :: calls) 0 = None →
  ad_Get (NewLocalAdapter baseDir) (later ++ CallPut account input body :: calls) account obj = Ok (MkReader (rd_data body) None, obj).
Proof.
  intros Hkind Hput Hb Hk Hlater Hfault. cbn [NewLocalAdapter ad_Put ad_Get] in *. unfold answer, run_on in Hput.
  destruct (local_Put baseDir calls account input body (MkOpState (disk_after baseDir calls) 0)) as [r s'] eqn:E. cbn [fst] in Hput. subst r.
  pose proof E as Hspec. apply local_Put_spec in Hspec as (key & path & t & Hkey & Hpath & _ & -> & Hf & _).
  assert (found (disk_after baseDir (later ++ CallPut account input body :: calls)) (elements path) (rd_data body) t) as Hfound.
  { apply later_calls_keep.
    - intros c Hc. apply (Hlater c path Hc). unfold put_path. by rewrite Hkey.
    - cbn [disk_after disk_step]. unfold is_local. rewrite Hkind. cbn [String.eqb]. unfold run_on. by rewrite E. }
  unfold answer, run_on, local_Get, op_lift. rewrite Hb, Hk. cbn [st_RemoteKey stored_as]. rewrite Hpath.
  unfold op_bind_ok, op_annotate, on_path, op_bind, syscall, op_ret. cbn [fst snd os_step os_disk]. rewrite Hfault.
  unfold disk_stat. cbn [fst snd os_disk]. unfold found in Hfound. rewrite Hfound. cbn. done.
Qed.

(** C12. The local adapter stays in the directories of its accounts: whatever
    calls are made, a file that lies in the tree of none of the accounts they
    carry is as it was when the process started, whatever the buckets and keys
    look like. *)
Theorem local_confined calls es :
  (∀ c account root, c ∈ calls → call_account c = Some account → providerRoot baseDir account = Ok root →
    ∀ rest, es ≠ elements root ++ rest) →
  file_at (disk_after baseDir calls) es = file_at dh_disk es.
Proof.
  induction calls as [|c calls IH]; intros Hes; [done|]. cbn [disk_after].
  rewrite (disk_step_confined baseDir c); [apply IH; intros c' a r Hc; apply Hes; by right|].
  intros (account & Hc & root & rest & Hr & ->). by eapply Hes; [left| | |].
Qed.
End properties.

(** ** A disk *)

Definition demo_disk (files : list (list string * string)) : Disk :=
  fold_right (λ '(es, data) d, <[es := DiskFile data demo_time]> (fold_right (λ n, <[take (S n) es := DiskDir]>) d (seq 0 (List.length es - 1)))) ∅ files.

Definition disk_host (disk : Disk) : DriverHost :=
  {| dh_clock := λ _ _, demo_time; dh_fault := λ _ _, None; dh_random := λ _ n, Z.of_nat n;
     dh_send := λ _ _ _, Err (ErrText "no network"); dh_disk := disk; dh_cwd := "srv";
     dh_statfs := λ _, (1000, 400, 300, 4096); dh_dir_size := λ _ _, 4096; dh_mime := λ _, "";
     dh_url := λ _, Err (ErrText "bad URL"); dh_zone := λ _ _, None;
     dh_buckets := λ _, Ok []; dh_objects := λ _, Ok ([], "") |}.

Definition local_account : ProviderAccount := zero_ProviderAccount <| p_ID := "disk" |> <| p_Kind := ProviderKindLocal |>.
Definition local_input (key : string) : PutObjectInput := zero_PutObjectInput <| i_Bucket := "photos" |> <| i_Key := key |>.
Definition local_object (key : string) : ObjectRecord := zero_ObjectRecord <| o_Bucket := "photos" |> <| o_RemoteKey := key |>.

Definition reader (data : string) : Reader := MkReader data None.

Lemma local_read_back_witness :
  let D := disk_host (demo_disk [(["srv"; "data"; "objects"; "disk"; "photos"; "2024"; "a.txt"], "old")]) in
  let put := CallPut local_account (local_input "2024/a.txt") (reader "new") in
  let later := [CallHealth local_account; CallPut local_account (local_input "2024/b.txt") (reader "other")] in
  ad_Get (NewLocalAdapter "data") (later ++ put :: []) local_account (local_object "2024/a.txt") = Ok (reader "new", local_object "2024/a.txt").
Proof.
  intros D put later.
  eapply (local_read_back "data" [] local_account (local_input "2024/a.txt") (reader "new") _ later).
  - reflexivity.
  - vm_compute. reflexivity.
  - reflexivity.
  - reflexivity.
  - intros c path Hc Hp. vm_compute in Hp. injection Hp as <-.
    apply list_elem_of_In in Hc. destruct Hc as [<-|[<-|[]]]; intros (p & Hcall & Heq); vm_compute in Hcall; injection Hcall as <-;
      vm_compute in Heq; discriminate.
  - reflexivity.
Defined.

Lemma local_confined_witness :
  let D := disk_host (demo_disk [(["etc"; "passwd"], "root")]) in
  file_at (disk_after "data" [CallPut local_account (local_input "../../../etc/passwd") (reader "mine");
                              CallPut local_account (local_input "etc/passwd") (reader "mine")]) ["etc"; "passwd"] = Some ("root", demo_time).
Proof.
  intros D. etransitivity; [eapply (local_confined "data")|reflexivity].
  intros c account root Hc Ha Hr rest. apply list_elem_of_In in Hc.
  destruct Hc as [<-|[<-|[]]]; injection Ha as <-; vm_compute in Hr; injection Hr as <-; vm_compute; discriminate.
Defined.

(** ** What it does not do *)

Definition listed (D : DriverHost) (token : string) (limit : Z) : option (list string * string) :=
  match (run_on (local_ListObjects "data" [] local_account "photos" "" token limit) dh_disk).1 with
  | Ok page => Some (po_Key <$> pp_Objects page, pp_NextContinuationToken page)
  | Err _ => None
  end.

Definition in_bucket (path : list string) : list string := ["srv"; "data"; "objects"; "disk"; "photos"] ++ path.

(** The walk visits a directory before the names that follow its own, but the
    keys below it come after some of those: a page ends at a key that is
    greater than one the walk has not reached, and the next page starts after
    it. Of three objects, listed one at a time, one is never seen. *)
Lemma listing_loses_objects :
  let D := disk_host (demo_disk [(in_bucket ["a"; "b"], "1"); (in_bucket ["a"; "c"], "2"); (in_bucket ["a.txt"], "3")]) in
  listed D "" 1000 = Some (["a.txt"; "a/b"; "a/c"], "")
  ∧ listed D "" 1 = Some (["a/b"], "a/b") ∧ listed D "a/b" 1 = Some (["a/c"], "").
Proof. split_and!; vm_compute; reflexivity. Qed.

(** A temporary file is listed as an object. *)
Lemma temporary_file_listed :
  let D := disk_host (demo_disk [(in_bucket [".bucketmux-upload-7.tmp"], "partial")]) in
  listed D "" 1000 = Some ([".bucketmux-upload-7.tmp"], "").
Proof. vm_compute. reflexivity. Qed.

(** Keys that differ in their slashes share a file. *)
Lemma keys_share_a_file : let D := disk_host ∅ in
  put_path "data" local_account (local_input "dir//a") = put_path "data" local_account (local_input "dir/a/")
  ∧ put_path "data" local_account (local_input "dir\a") = put_path "data" local_account (local_input "dir/a")
  ∧ put_path "data" local_account (local_input "dir/a") = Ok "data/objects/disk/photos/dir/a".
Proof. split_and!; vm_compute; reflexivity. Qed.

(** An object and a key below it cannot both be stored. *)
Lemma file_in_the_way :
  let D := disk_host (demo_disk [(in_bucket ["a"], "1")]) in
  ∃ e, (run_on (local_Put "data" [] local_account (local_input "a/b") (reader "2")) dh_disk).1 = Err e ∧ FailoverEligible e = false.
Proof. eexists. split; vm_compute; reflexivity. Qed.
