(* ===== verification/Demo.v ===== *)
(** A concrete environment for witnesses and counterexamples: a provider kind
    whose adapter keeps an object under its storage key, as the S3, Azure and
    local adapters do, and answers reads and deletions. *)
From S2P Require Import Prelude GoTime Domain World Placement.

Definition demo_adapter : Adapter :=
  MkAdapter
    (λ _ account input _, Ok (MkStoredObject (p_ID account) (p_Bucket account) (StorageKey input) (i_Size input)
                                (i_ContentType input) "etag" ""))
    None
    (λ _ _ obj, Ok (MkReader (o_RemoteKey obj) None, obj))
    (λ _ _ obj, Ok obj)
    (λ _ _ _, Ok tt)
    (λ _ account, MkProviderHealth (p_ID account) "healthy" "" demo_time 0)
    None None None None.

Definition demo_registry (kind : string) : option Adapter :=
  if (kind =? "demo")%string then Some demo_adapter else None.

Definition demo_env : Env := quiet_env demo_time demo_registry.

Definition demo_account (id : string) : ProviderAccount :=
  (demo_provider id 1 1000 0 "") <| p_Kind := "demo" |> <| p_Bucket := "remote" |>.

Definition demo_bucket : Bucket := zero_Bucket <| b_Name := "b" |>.

(** Two accounts of that kind and one bucket. *)
Definition demo_db (bucket : Bucket) : DB :=
  empty_DB <| db_providers := {[ "p1" := demo_account "p1"; "p2" := demo_account "p2" ]} |>
           <| db_buckets := {[ "b" := bucket ]} |>.

(** Only the first of them. *)
Definition single_db (bucket : Bucket) : DB := (demo_db bucket) <| db_providers := {[ "p1" := demo_account "p1" ]} |>.
