(* ===== verification/StoreObjects.v ===== *)
(** The store's buckets, objects, attributes, versions, trash and replicas:
    [store/store.go], [store/object_attributes.go], [store/version_protection.go]. *)
From S2P Require Import Prelude GoTime Domain World Sql StoreProviders.

(** ** Rows: what each table keeps of the shared struct *)

(** [scanObject]: the columns of [objects]. *)
Definition object_row (o : ObjectRecord) : ObjectRecord :=
  o <| o_Metadata := ∅ |> <| o_Tags := ∅ |> <| o_VersionID := "" |> <| o_IsDeleteMarker := false |>
    <| o_RetentionMode := "" |> <| o_RetainUntil := zero_time |> <| o_LegalHold := false |>.

(** [scanObjectVersion]: the columns of [object_versions]. *)
Definition version_row (o : ObjectRecord) : ObjectRecord :=
  o <| o_UpdatedAt := o_CreatedAt o |> <| o_ReplicaStatus := "none" |>.

(** [scanTrashObject]: retention, legal hold and version are not columns of
    [trash_objects]. *)
Definition trash_row (t : TrashRecord) : TrashRecord :=
  t <| t_Object ::= λ o, (object_row o) <| o_Metadata := o_Metadata o |> <| o_Tags := o_Tags o |>
         <| o_ReplicaStatus := "none" |> <| o_CreatedAt := t_DeletedAt t |> <| o_UpdatedAt := t_DeletedAt t |> |>.

Definition bucket_conflict (old new : Bucket) : Bucket := new <| b_CreatedAt := b_CreatedAt old |>.

(** ON CONFLICT(bucket, key) DO UPDATE of [PutObject]: all columns but [created_at]. *)
Definition object_conflict (old new : ObjectRecord) : ObjectRecord := new <| o_CreatedAt := o_CreatedAt old |>.

Definition replica_conflict (old new : ObjectReplica) : ObjectReplica := new <| rp_CreatedAt := rp_CreatedAt old |>.

Definition object_key (o : ObjectRecord) : string * string := (o_Bucket o, o_Key o).
Definition version_key (o : ObjectRecord) : string * string * string := (o_Bucket o, o_Key o, o_VersionID o).
Definition replica_key (r : ObjectReplica) : string * string * string := (rp_Bucket r, rp_Key r, rp_ProviderAccountID r).

Definition upsert_bucket_row (b : Bucket) (d : DB) : DB :=
  d <| db_buckets ::= λ m,
    <[b_Name b := match m !! b_Name b with Some old => bucket_conflict old b | None => b end]> m |>.

(** INSERT INTO objects: the provider must exist. *)
Definition put_object_row (o : ObjectRecord) (d : DB) : result DB :=
  match db_providers d !! o_ProviderAccountID o with
  | None => Err (constraint_failed "FOREIGN KEY")
  | Some _ =>
      Ok (d <| db_objects ::= λ m,
            <[object_key o := match m !! object_key o with
                              | Some old => object_conflict old (object_row o)
                              | None => object_row o
                              end]> m |>)
  end.

(** The embeddings of an object. *)
Definition embedding_of (bucket key : string) (e : EmbeddingRow) : bool :=
  (oe_Bucket (er_embedding e) =? bucket)%string && (oe_Key (er_embedding e) =? key)%string.

(** DELETE FROM objects: the attributes and embeddings go with the row. *)
Definition delete_object_row (bucket key : string) (d : DB) : DB :=
  match db_objects d !! (bucket, key) with
  | None => d
  | Some _ =>
      d <| db_objects ::= delete (bucket, key) |> <| db_attributes ::= delete (bucket, key) |>
        <| db_embeddings ::= delete_where (embedding_of bucket key) |>
  end.

Definition put_attributes_row (o : ObjectRecord) (t : Time) (d : DB) : result DB :=
  match db_objects d !! object_key o with
  | None => Err (constraint_failed "FOREIGN KEY")
  | Some _ =>
      Ok (d <| db_attributes ::= insert (object_key o)
            (MkAttributesRow (o_Metadata o) (o_Tags o) (o_VersionID o) (o_RetentionMode o) (o_RetainUntil o)
               (o_LegalHold o) t) |>)
  end.

(** What [HydrateObjectAttributes] leaves in the object. Decoding into the maps
    of the object keeps the entries they already have. *)
Definition hydrate (o : ObjectRecord) (row : option AttributesRow) : ObjectRecord :=
  match row with
  | None => o <| o_Metadata := ∅ |> <| o_Tags := ∅ |>
  | Some a =>
      o <| o_Metadata ::= λ m, ar_Metadata a ∪ m |> <| o_Tags ::= λ m, ar_Tags a ∪ m |>
        <| o_VersionID := ar_VersionID a |> <| o_RetentionMode := ar_RetentionMode a |>
        <| o_RetainUntil := ar_RetainUntil a |> <| o_LegalHold := ar_LegalHold a |>
  end.

(** INSERT INTO object_versions ... ON CONFLICT DO NOTHING *)
Definition put_version_row (o : ObjectRecord) (d : DB) : DB :=
  d <| db_versions ::= λ m, match m !! version_key o with Some _ => m | None => <[version_key o := version_row o]> m end |>.

Definition update_version_row (o : ObjectRecord) (d : DB) : Z * DB :=
  let '(n, m) := update_row (version_key o) (λ _, true) (λ v,
      v <| o_Metadata := o_Metadata o |> <| o_Tags := o_Tags o |> <| o_RetentionMode := o_RetentionMode o |>
        <| o_RetainUntil := o_RetainUntil o |> <| o_LegalHold := o_LegalHold o |>) (db_versions d) in
  (n, d <| db_versions := m |>).

(** What [UpsertObjectReplica] fills in before the INSERT. *)
Definition replica_defaults (replica : ObjectReplica) (t : Time) : ObjectReplica :=
  let replica := if is_zero (rp_CreatedAt replica) then replica <| rp_CreatedAt := t |> else replica in
  let replica := replica <| rp_UpdatedAt := t |> in
  let replica := if rp_MaxAttempts replica <=? 0 then replica <| rp_MaxAttempts := 5 |> else replica in
  if is_zero (rp_NextAttemptAt replica) then replica <| rp_NextAttemptAt := t |> else replica.

Definition upsert_replica_row (replica : ObjectReplica) (d : DB) : DB :=
  d <| db_replicas ::= λ m,
    <[replica_key replica := match m !! replica_key replica with
                             | Some old => replica_conflict old replica
                             | None => replica
                             end]> m |>.

Section store.
Context `{Env}.

(** *** Buckets *)

Definition UpsertBucket (b : Bucket) : M (result unit) :=
  let! t := now in
  let b := if is_zero (b_CreatedAt b) then b <| b_CreatedAt := t |> else b in
  let b := b <| b_UpdatedAt := t |> in
  let b := if b_TrashRetentionDays b <=? 0 then b <| b_TrashRetentionDays := 30 |> else b in
  sql_write (λ d, Ok (upsert_bucket_row b d)).

Definition GetBucket (name : string) : M (result Bucket) :=
  sql_read (λ d, match db_buckets d !! name with Some b => Ok b | None => not_found end).

Definition ListBuckets : M (result (list Bucket)) :=
  sql_read (λ d, Ok (order_by (by_text b_Name) (rows (db_buckets d)))).

(** *** Objects *)

Definition PutObject_store (obj : ObjectRecord) : M (result unit) :=
  let! t := now in
  let obj := if is_zero (o_CreatedAt obj) then obj <| o_CreatedAt := t |> else obj in
  let obj := obj <| o_UpdatedAt := t |> in
  sql_write (put_object_row obj).

Definition GetObject_store (bucket key : string) : M (result ObjectRecord) :=
  sql_read (λ d, match db_objects d !! (bucket, key) with Some o => Ok o | None => not_found end).

Definition GetObjectWithProvider (bucket key : string) : M (result (ObjectRecord * ProviderAccount)) :=
  sql_read (λ d,
    match db_objects d !! (bucket, key) with
    | Some o => match db_providers d !! o_ProviderAccountID o with
                | Some p => Ok (o, p)
                | None => not_found
                end
    | None => not_found
    end).

Definition ListObjectsAfter_store (bucket prefix startAfter : string) (lim : Z) : M (result (list ObjectRecord)) :=
  let lim := if (lim <=? 0) || (1001 <? lim) then 1000 else lim in
  sql_read (λ d, Ok (limit lim (order_by (by_text o_Key)
    (where_ (λ o, (o_Bucket o =? bucket)%string && like (prefix +:+ "%") (o_Key o) && text_ltb startAfter (o_Key o))
       (rows (db_objects d)))))).

Definition DeleteObject_store (bucket key : string) : M (result unit) :=
  sql_write (λ d, Ok (delete_object_row bucket key d)).

(** *** Attributes *)

Definition PutObjectAttributes (object : ObjectRecord) : M (result unit) :=
  let! t := now in sql_write (put_attributes_row object t).

(** The object is updated in place; on a read error it is as it was. *)
Definition HydrateObjectAttributes (object : ObjectRecord) : M (ObjectRecord * result unit) :=
  let! r := sql_read (λ d, Ok (db_attributes d !! object_key object)) in
  ret (match r with
       | Ok row => (hydrate object row, Ok tt)
       | Err e => (object, Err e)
       end).

(** [_ = s.Store.HydrateObjectAttributes(ctx, &object)] *)
Definition hydrated (object : ObjectRecord) : M ObjectRecord :=
  let! r := HydrateObjectAttributes object in ret r.1.

Definition DeleteObjectEmbeddings (bucket key : string) : M (result unit) :=
  sql_write (λ d, Ok (d <| db_embeddings ::=
    delete_where (embedding_of bucket key) |>)).

(** *** Versions *)

Definition PutObjectVersion (object : ObjectRecord) : M (result unit) :=
  let! created := (if is_zero (o_CreatedAt object) then now else ret (o_CreatedAt object)) in
  sql_write (λ d, Ok (put_version_row (object <| o_CreatedAt := created |>) d)).

Definition GetObjectVersion_store (bucket key versionID : string) : M (result ObjectRecord) :=
  sql_read (λ d, match db_versions d !! (bucket, key, versionID) with Some o => Ok o | None => not_found end).

Definition ListObjectVersions (bucket prefix : string) (lim : Z) : M (result (list ObjectRecord)) :=
  let lim := if (lim <=? 0) || (1000 <? lim) then 1000 else lim in
  sql_read (λ d, Ok (limit lim (order_by (then_by (by_text o_Key) (desc (by_time o_CreatedAt)))
    (where_ (λ o, (o_Bucket o =? bucket)%string && has_prefix (o_Key o) prefix) (rows (db_versions d)))))).

Definition DeleteObjectVersion (bucket key versionID : string) : M (result unit) :=
  sql_write (λ d, Ok (d <| db_versions ::= delete (bucket, key, versionID) |>)).

Definition UpdateObjectVersionProtection (object : ObjectRecord) : M (result unit) :=
  let? changed := sql (λ d, Ok (update_version_row object d)) in
  if negb (changed =? 1) then ret not_found else ret_ok tt.

Definition UpdateObjectTags_store (bucket key : string) (tags : gmap string string) : M (result unit) :=
  let? object := GetObject_store bucket key in
  let! h := HydrateObjectAttributes object in
  match h with
  | (_, Err e) => ret_err e
  | (object, Ok _) =>
      let object := object <| o_Tags := tags |> in
      let? _ := PutObjectAttributes object in
      if negb (o_VersionID object =? "")%string then UpdateObjectVersionProtection object else ret_ok tt
  end.

(** *** Trash *)

Definition PutTrashObject (trash : TrashRecord) : M (result unit) :=
  sql_write (λ d,
    match db_trash d !! t_ID trash with
    | Some _ => Err (constraint_failed "UNIQUE")
    | None => Ok (d <| db_trash ::= insert (t_ID trash) (trash_row trash) |>)
    end).

Definition GetTrashObject (id : string) : M (result TrashRecord) :=
  sql_read (λ d, match db_trash d !! id with Some t => Ok t | None => not_found end).

Definition trash_limit (lim : Z) : Z := if (lim <=? 0) || (1000 <? lim) then 100 else lim.

Definition ListTrashObjects (lim : Z) : M (result (list TrashRecord)) :=
  sql_read (λ d, Ok (limit (trash_limit lim) (order_by (desc (by_time t_DeletedAt)) (rows (db_trash d))))).

Definition ListTrashObjectsDue (t : Time) (lim : Z) : M (result (list TrashRecord)) :=
  sql_read (λ d, Ok (limit (trash_limit lim) (order_by (by_time t_PurgeAfter)
    (where_ (λ r, sql_time_le (t_PurgeAfter r) t) (rows (db_trash d)))))).

Definition ListTrashObjectsForLifecycle (bucket prefix : string) (deletedBefore : Time) (lim : Z) : M (result (list TrashRecord)) :=
  sql_read (λ d, Ok (limit (trash_limit lim) (order_by (by_time t_DeletedAt)
    (where_ (λ r, (o_Bucket (t_Object r) =? bucket)%string && has_prefix (o_Key (t_Object r)) prefix
                  && sql_time_le (t_DeletedAt r) deletedBefore) (rows (db_trash d)))))).

Definition DeleteTrashObject (id : string) : M (result unit) :=
  sql_write (λ d, Ok (d <| db_trash ::= delete id |>)).

(** *** Replicas *)

Definition UpsertObjectReplica (replica : ObjectReplica) : M (result unit) :=
  let! t := now in sql_write (λ d, Ok (upsert_replica_row (replica_defaults replica t) d)).

Definition ListObjectReplicas (bucket key : string) : M (result (list ObjectReplica)) :=
  sql_read (λ d, Ok (order_by (by_text rp_ProviderAccountID)
    (where_ (λ r, (rp_Bucket r =? bucket)%string && (rp_Key r =? key)%string) (rows (db_replicas d))))).

(** The first five pending replicas that are due, and the conditional UPDATE
    that one claimer at most wins. *)
Definition claimable_replicas (t : Time) (d : DB) : list (string * string * string) :=
  replica_key <$> limit 5 (order_by (then_by (by_time rp_NextAttemptAt) (by_time rp_UpdatedAt))
    (where_ (λ r, (rp_Status r =? "pending")%string && sql_time_le (rp_NextAttemptAt r) t) (rows (db_replicas d)))).

Definition claim_replica_row (k : string * string * string) (t : Time) (d : DB) : Z * DB :=
  let '(n, m) := update_row k (λ r, (rp_Status r =? "pending")%string)
      (λ r, r <| rp_Status := "running" |> <| rp_Error := "" |> <| rp_Attempts ::= Z.add 1 |> <| rp_UpdatedAt := t |>)
      (db_replicas d) in
  (n, d <| db_replicas := m |>).

Fixpoint claim_replicas (keys : list (string * string * string)) : M (result (option ObjectReplica)) :=
  match keys with
  | [] => ret_ok None
  | (bucket, key, provider) :: rest =>
      let! t := now in
      let? changed := sql (λ d, Ok (claim_replica_row (bucket, key, provider) t d)) in
      if changed =? 1 then
        let? replicas := ListObjectReplicas bucket key in
        match List.find (λ r, (rp_ProviderAccountID r =? provider)%string) replicas with
        | Some r => ret_ok (Some r)
        | None => claim_replicas rest
        end
      else claim_replicas rest
  end.

Definition ClaimNextObjectReplica : M (result (option ObjectReplica)) :=
  let! t := now in
  let? keys := sql_read (λ d, Ok (claimable_replicas t d)) in
  claim_replicas keys.

Definition RecoverStaleObjectReplicas (cutoff : Time) : M (result Z) :=
  let! t := now in
  let stale r := (rp_Status r =? "running")%string && sql_time_lt (rp_UpdatedAt r) cutoff in
  wrap_err "recover stale object replicas" (sql (λ d, Ok (count_where stale (db_replicas d),
    d <| db_replicas ::= update_where stale (λ r, r <| rp_Status := "pending" |>
           <| rp_Error := "recovered after worker interruption" |> <| rp_UpdatedAt := t |>) |>))).

Definition TouchObjectReplica (bucket key providerID : string) : M (result unit) :=
  let! t := now in
  let? changed := wrap_err "touch object replica" (sql (λ d,
    let '(n, m) := update_row (bucket, key, providerID) (λ r, (rp_Status r =? "running")%string)
                     (λ r, r <| rp_UpdatedAt := t |>) (db_replicas d) in
    Ok (n, d <| db_replicas := m |>))) in
  if negb (changed =? 1) then ret not_found else ret_ok tt.

Definition DeleteObjectReplicas (bucket key : string) : M (result unit) :=
  sql_write (λ d, Ok (d <| db_replicas ::=
    delete_where (λ r, (rp_Bucket r =? bucket)%string && (rp_Key r =? key)%string) |>)).

(** *** Usage by provider and bucket *)

Definition ListProviderBucketUsage : M (result (list ProviderBucketUsage)) :=
  sql_read (λ d,
    let objects := rows (db_objects d) in
    let groups := order_by (then_by (by_text fst) (by_text snd))
      (remove_dups ((λ o, (o_ProviderAccountID o, o_Bucket o)) <$> objects)) in
    Ok ((λ g, let members := where_ (λ o, (o_ProviderAccountID o =? g.1)%string && (o_Bucket o =? g.2)%string) objects in
              MkProviderBucketUsage g.1 g.2 (Z.of_nat (List.length members)) (sum_Z (o_Size <$> members))) <$> groups)).
End store.

(** ** Well-formed databases: the quota ledger adds up and its reservations are
    of accounts that exist; accounts, reservations, buckets, objects and versions
    are under their own keys; objects are on accounts that exist, and attributes
    belong to objects that exist. *)
Record db_wf (d : DB) : Prop := {
  wf_ledger : quota_ok d;
  wf_bucket : ∀ k b, db_buckets d !! k = Some b → b_Name b = k;
  wf_object : ∀ k o, db_objects d !! k = Some o → object_key o = k ∧ is_Some (db_providers d !! o_ProviderAccountID o);
  wf_attributes : ∀ k a, db_attributes d !! k = Some a → is_Some (db_objects d !! k);
  wf_version : ∀ k o, db_versions d !! k = Some o → version_key o = k }.

(** It can be computed. *)
Definition db_wfb (d : DB) : bool :=
  bool_decide (map_Forall (λ k p, p_ID p = k ∧ p_ReservedBytes p = reserved_for k (db_reservations d)) (db_providers d))
  && bool_decide (map_Forall (λ k r, rs_ID r = k ∧ 0 ≤ rs_Bytes r ∧ is_Some (db_providers d !! rs_ProviderAccountID r)) (db_reservations d))
  && bool_decide (map_Forall (λ k b, b_Name b = k) (db_buckets d))
  && bool_decide (map_Forall (λ k o, object_key o = k ∧ is_Some (db_providers d !! o_ProviderAccountID o)) (db_objects d))
  && bool_decide (map_Forall (λ k (_ : AttributesRow), is_Some (db_objects d !! k)) (db_attributes d))
  && bool_decide (map_Forall (λ k o, version_key o = k) (db_versions d)).

Lemma db_wfb_sound d : db_wfb d = true → db_wf d.
Proof.
  unfold db_wfb. rewrite !andb_true_iff, !bool_decide_eq_true. intros [[[[[Hp Hr] Hb] Ho] Ha] Hv].
  split; [split; [exact Hp | exact Hr] | exact Hb | exact Ho | exact Ha | exact Hv].
Qed.

Lemma wf_attributes_none d k : db_wf d → db_objects d !! k = None → db_attributes d !! k = None.
Proof.
  intros Hwf Hk. destruct (db_attributes d !! k) as [a|] eqn:Ha; [|done].
  apply (wf_attributes _ Hwf) in Ha as [o Ho]. congruence.
Qed.

(** ** Frame: none of these operations touches the quota ledger *)

Section ledger.
Context `{Env}.

Lemma put_object_ledger o : pres (on_db same_ledger) (sql_write (put_object_row o)).
Proof. apply ledger_write. unfold put_object_row. intros d d' Hd. by destruct (db_providers d !! _); simplify_eq. Qed.

Lemma delete_object_row_frame bucket key d :
  db_providers (delete_object_row bucket key d) = db_providers d ∧
  db_reservations (delete_object_row bucket key d) = db_reservations d.
Proof. unfold delete_object_row. by destruct (db_objects d !! _). Qed.

Lemma UpsertBucket_ledger b : pres (on_db same_ledger) (UpsertBucket b).
Proof. unfold UpsertBucket. ledger_op. Qed.

Lemma PutObject_store_ledger o : pres (on_db same_ledger) (PutObject_store o).
Proof. unfold PutObject_store. pres_auto; apply put_object_ledger. Qed.

Lemma DeleteObject_store_ledger b k : pres (on_db same_ledger) (DeleteObject_store b k).
Proof. apply ledger_write. intros d d' [= <-]. apply delete_object_row_frame. Qed.

Lemma PutObjectAttributes_ledger o : pres (on_db same_ledger) (PutObjectAttributes o).
Proof.
  unfold PutObjectAttributes. pres_auto. apply ledger_write. unfold put_attributes_row. intros d d' Hd.
  by destruct (db_objects d !! _); simplify_eq.
Qed.

Lemma HydrateObjectAttributes_ledger o : pres (on_db same_ledger) (HydrateObjectAttributes o).
Proof. unfold HydrateObjectAttributes. pres_auto. Qed.

Lemma hydrated_ledger o : pres (on_db same_ledger) (hydrated o).
Proof. unfold hydrated. pres_auto. apply HydrateObjectAttributes_ledger. Qed.

Lemma DeleteObjectEmbeddings_ledger b k : pres (on_db same_ledger) (DeleteObjectEmbeddings b k).
Proof. unfold DeleteObjectEmbeddings. ledger_op. Qed.

Lemma PutObjectVersion_ledger o : pres (on_db same_ledger) (PutObjectVersion o).
Proof. unfold PutObjectVersion. ledger_op. Qed.

Lemma DeleteObjectVersion_ledger b k v : pres (on_db same_ledger) (DeleteObjectVersion b k v).
Proof. unfold DeleteObjectVersion. ledger_op. Qed.

Lemma UpdateObjectVersionProtection_ledger o : pres (on_db same_ledger) (UpdateObjectVersionProtection o).
Proof.
  unfold UpdateObjectVersionProtection. pres_auto. apply ledger_sql. unfold update_version_row. intros d a d'.
  destruct (update_row _ _ _ _). by intros [= _ <-].
Qed.

Lemma PutTrashObject_ledger t : pres (on_db same_ledger) (PutTrashObject t).
Proof. unfold PutTrashObject. ledger_op. Qed.

Lemma DeleteTrashObject_ledger t : pres (on_db same_ledger) (DeleteTrashObject t).
Proof. unfold DeleteTrashObject. ledger_op. Qed.

Lemma UpsertObjectReplica_ledger r : pres (on_db same_ledger) (UpsertObjectReplica r).
Proof. unfold UpsertObjectReplica. ledger_op. Qed.

Lemma DeleteObjectReplicas_ledger b k : pres (on_db same_ledger) (DeleteObjectReplicas b k).
Proof. unfold DeleteObjectReplicas. ledger_op. Qed.

Lemma read_ledger {A} (f : DB → result A) : pres (on_db same_ledger) (sql_read f).
Proof. apply pres_sql_read, _. Qed.
End ledger.

#[global] Hint Resolve UpsertBucket_ledger PutObject_store_ledger DeleteObject_store_ledger PutObjectAttributes_ledger
  HydrateObjectAttributes_ledger hydrated_ledger DeleteObjectEmbeddings_ledger PutObjectVersion_ledger
  DeleteObjectVersion_ledger UpdateObjectVersionProtection_ledger PutTrashObject_ledger DeleteTrashObject_ledger
  UpsertObjectReplica_ledger DeleteObjectReplicas_ledger : pres.

(** Reads relate a world to itself, whatever the relation. *)
#[global] Hint Extern 2 (pres _ (GetBucket _)) => unfold GetBucket; pres_auto : pres.
#[global] Hint Extern 2 (pres _ (ListBuckets)) => unfold ListBuckets; pres_auto : pres.
#[global] Hint Extern 2 (pres _ (GetObject_store _ _)) => unfold GetObject_store; pres_auto : pres.
#[global] Hint Extern 2 (pres _ (GetObjectWithProvider _ _)) => unfold GetObjectWithProvider; pres_auto : pres.
#[global] Hint Extern 2 (pres _ (ListObjectsAfter_store _ _ _ _)) => unfold ListObjectsAfter_store; pres_auto : pres.
#[global] Hint Extern 2 (pres _ (HydrateObjectAttributes _)) => unfold HydrateObjectAttributes; pres_auto : pres.
#[global] Hint Extern 2 (pres _ (hydrated _)) => unfold hydrated; pres_auto : pres.
#[global] Hint Extern 2 (pres _ (GetObjectVersion_store _ _ _)) => unfold GetObjectVersion_store; pres_auto : pres.
#[global] Hint Extern 2 (pres _ (ListObjectVersions _ _ _)) => unfold ListObjectVersions; pres_auto : pres.
#[global] Hint Extern 2 (pres _ (GetTrashObject _)) => unfold GetTrashObject; pres_auto : pres.
#[global] Hint Extern 2 (pres _ (ListTrashObjects _)) => unfold ListTrashObjects; pres_auto : pres.
#[global] Hint Extern 2 (pres _ (ListTrashObjectsDue _ _)) => unfold ListTrashObjectsDue; pres_auto : pres.
#[global] Hint Extern 2 (pres _ (ListTrashObjectsForLifecycle _ _ _ _)) => unfold ListTrashObjectsForLifecycle; pres_auto : pres.
#[global] Hint Extern 2 (pres _ (ListObjectReplicas _ _)) => unfold ListObjectReplicas; pres_auto : pres.
