(* ===== verification/Pages.v ===== *)
(** The objects of a bucket in the order of their keys, and what comes after a
    key: the pages that listings and jobs walk through. *)
From S2P Require Import Prelude GoTime Domain World Sql StoreProviders StoreObjects Placement.

(** The objects of a bucket under a prefix, by key. *)
Definition listed (bucket prefix : string) (d : DB) : list ObjectRecord :=
  order_by (by_text o_Key) (where_ (λ o, (o_Bucket o =? bucket)%string && like (prefix +:+ "%") (o_Key o)) (rows (db_objects d))).

Definition after_key (key : string) (l : list ObjectRecord) : list ObjectRecord := where_ (λ o, text_ltb key (o_Key o)) l.

Definition key_lt (x y : ObjectRecord) : Prop := String.compare (o_Key x) (o_Key y) = Lt.

#[global] Instance key_lt_antisymm : AntiSymm (=) key_lt.
Proof.
  intros x y H1 H2. unfold key_lt in *. rewrite String.compare_antisym, H1 in H2. done.
Qed.

Lemma key_lt_trans x y z : key_lt x y → key_lt y z → key_lt x z.
Proof. apply string_compare_lt_trans. Qed.

(** Sorting objects of one bucket leaves no two with the same key. *)
Lemma bucket_sorted bucket (P : ObjectRecord → bool) d : db_wf d → (∀ o, P o = true → o_Bucket o = bucket) →
  StronglySorted key_lt (order_by (by_text o_Key) (where_ P (rows (db_objects d)))).
Proof.
  intros Hwf HP. set (l := where_ _ _).
  assert (NoDup (order_by (by_text o_Key) l)) as Hnd.
  { rewrite order_by_perm. unfold l, where_. apply NoDup_ListNoDup, List.NoDup_filter, NoDup_ListNoDup.
    apply (rows_NoDup object_key). intros k o Ho. by apply (wf_object _ Hwf k o). }
  assert (∀ x y, x ∈ order_by (by_text o_Key) l → y ∈ order_by (by_text o_Key) l → o_Key x = o_Key y → x = y) as Hinj.
  { intros x y Hx Hy Hkey. rewrite elem_of_order_by in Hx, Hy. unfold l in Hx, Hy.
    apply elem_of_where in Hx as [(kx & Hx)%elem_of_rows Px]. apply elem_of_where in Hy as [(ky & Hy)%elem_of_rows Py].
    apply HP in Px, Py. destruct (wf_object _ Hwf _ _ Hx) as [Kx _]. destruct (wf_object _ Hwf _ _ Hy) as [Ky _].
    unfold object_key in Kx, Ky. assert (kx = ky) as -> by (rewrite <- Kx, <- Ky; congruence). rewrite Hx in Hy. by injection Hy. }
  pose proof (order_by_sorted (by_text o_Key) l) as Hs. revert Hnd Hinj Hs. generalize (order_by (by_text o_Key) l). clear l.
  induction l as [|x l IH]; intros Hnd Hinj Hs; [constructor|].
  apply NoDup_cons in Hnd as [Hx Hnd]. apply StronglySorted_inv in Hs as [Hs Hall]. constructor.
  - apply IH; [done| |done]. intros y z Hy Hz. apply Hinj; by constructor.
  - rewrite Forall_forall in Hall |- *. intros y Hy. specialize (Hall y Hy). unfold cmp_le, by_text in Hall. unfold key_lt.
    destruct (String.compare (o_Key x) (o_Key y)) eqn:E; [|done|done]. apply String.compare_eq_iff in E.
    destruct Hx. by rewrite (Hinj x y ltac:(by constructor) ltac:(by constructor) E).
Qed.

Lemma listed_sorted bucket prefix d : db_wf d → StronglySorted key_lt (listed bucket prefix d).
Proof. intros Hwf. apply (bucket_sorted bucket); [done|]. intros o [Ho _]%andb_true_iff. by apply String.eqb_eq. Qed.

Lemma where_sorted (R : ObjectRecord → ObjectRecord → Prop) P l : StronglySorted R l → StronglySorted R (where_ P l).
Proof.
  induction 1 as [|x l Hs IH Hall]; [constructor|]. unfold where_ in *. cbn [List.filter].
  destruct (P x); [|done]. constructor; [done|]. rewrite Forall_forall in Hall |- *. intros y Hy. apply Hall.
  by apply (elem_of_where P l y) in Hy as [Hy _].
Qed.

#[global] Instance where_perm {A} (P : A → bool) : Proper (Permutation ==> Permutation) (where_ P).
Proof.
  unfold where_. induction 1 as [|x l k _ IH|x y l|l k m _ IH1 _ IH2]; cbn [List.filter]; [done| | |by etrans].
  - destruct (P x); by rewrite IH.
  - destruct (P x), (P y); done || constructor.
Qed.

(** The rows of a page are the next ones of the list. *)
Lemma page_rows bucket prefix key d : db_wf d →
  order_by (by_text o_Key) (where_ (λ o, (o_Bucket o =? bucket)%string && like (prefix +:+ "%") (o_Key o) && text_ltb key (o_Key o)) (rows (db_objects d)))
    = after_key key (listed bucket prefix d).
Proof.
  intros Hwf. apply (StronglySorted_unique key_lt).
  - apply (bucket_sorted bucket); [done|]. intros o [[Ho _]%andb_true_iff _]%andb_true_iff. by apply String.eqb_eq.
  - apply where_sorted, listed_sorted, Hwf.
  - rewrite order_by_perm. unfold after_key, listed. rewrite order_by_perm. unfold where_.
    induction (rows (db_objects d)) as [|o l IH]; [done|]. cbn [List.filter].
    destruct ((o_Bucket o =? bucket)%string && like (prefix +:+ "%") (o_Key o)); cbn [andb List.filter]; [|done].
    destruct (text_ltb key (o_Key o)); by rewrite IH.
Qed.

Lemma where_all {A} (P : A → bool) l : (∀ x, x ∈ l → P x = true) → where_ P l = l.
Proof.
  unfold where_. induction l as [|x l IH]; intros HP; [done|]. cbn [List.filter]. rewrite HP by constructor. f_equal. apply IH.
  intros y Hy. apply HP. by constructor.
Qed.

Lemma key_not_before x o : x = o ∨ key_lt x o → text_ltb (o_Key o) (o_Key x) = false.
Proof.
  intros H. apply not_true_iff_false. intros E%text_ltb_lt. pose proof (String.compare_antisym (o_Key x) (o_Key o)) as Ha.
  rewrite E in Ha. destruct H as [->|H]; [by rewrite E in Ha|]. by rewrite H in Ha.
Qed.

(** After the last object of a page come the ones the page left out. *)
Lemma after_key_drop l i o : StronglySorted key_lt l → l !! i = Some o → after_key (o_Key o) l = drop (S i) l.
Proof.
  intros Hs. revert i. induction Hs as [|x l Hs IH Hall]; intros i Hi; [done|].
  rewrite Forall_forall in Hall. unfold after_key in *. destruct i as [|i].
  - injection Hi as <-. cbn [drop]. rewrite drop_0. transitivity (where_ (λ o, text_ltb (o_Key x) (o_Key o)) l).
    + unfold where_. cbn [List.filter]. by rewrite key_not_before by by left.
    + apply where_all. intros y Hy. by apply text_ltb_lt, Hall.
  - cbn [lookup list_lookup] in Hi. rewrite <- (IH i Hi) at 1. unfold where_. cbn [List.filter drop].
    rewrite key_not_before; [done|]. right. apply Hall. by eapply list_elem_of_lookup_2.
Qed.

(** Objects without a key are before every page. *)
Lemma after_key_twice key l : after_key key (after_key "" l) = after_key key l.
Proof.
  unfold after_key, where_. induction l as [|o l IH]; [done|]. cbn [List.filter].
  assert (∀ k, text_ltb "" k = negb (k =? "")%string) as Hfirst by (intros []; done). rewrite Hfirst.
  destruct (String.eqb_spec (o_Key o) "") as [E|E]; cbn [negb List.filter]; [|by rewrite IH].
  rewrite IH, E. assert (text_ltb key "" = false) as -> by by destruct key. done.
Qed.

Lemma after_key_after key key' l : String.compare key key' = Lt → after_key key' (after_key key l) = after_key key' l.
Proof.
  intros Hlt. unfold after_key, where_. induction l as [|o l IH]; [done|]. cbn [List.filter].
  destruct (text_ltb key (o_Key o)) eqn:E; cbn [List.filter]; [by rewrite IH|]. rewrite IH.
  destruct (text_ltb key' (o_Key o)) eqn:E'; [|done]. apply text_ltb_lt in E'.
  assert (text_ltb key (o_Key o) = true) as Hb by (apply text_ltb_lt; by eapply string_compare_lt_trans). congruence.
Qed.

(** A page with an undisturbed database: the next objects, at most 1001. *)
Lemma ListObjectsAfter_page `{Env} bucket prefix key lim w : no_db_faults → db_wf (w_db w) → 1 ≤ lim ≤ 1001 →
  ListObjectsAfter_store bucket prefix key lim w
    = (Ok (take (Z.to_nat lim) (after_key key (listed bucket prefix (w_db w)))), w <| w_stmts ::= S |>).
Proof.
  intros Hq Hwf Hlim. unfold ListObjectsAfter_store. assert ((lim <=? 0) || (1001 <? lim) = false) as -> by lia.
  rewrite sql_read_quiet by done. by rewrite (page_rows bucket prefix key).
Qed.

(** What is left after a full page is what comes after its last key. *)
Lemma after_page bucket prefix key d n o : db_wf d → (n < List.length (after_key key (listed bucket prefix d)))%nat →
  last (take (S n) (after_key key (listed bucket prefix d))) = Some o →
  after_key (o_Key o) (listed bucket prefix d) = drop (S n) (after_key key (listed bucket prefix d)).
Proof.
  intros Hwf Hn Hlast. set (l := listed bucket prefix d) in *.
  assert (after_key key l !! n = Some o) as Ho.
  { rewrite last_lookup, length_take in Hlast. replace (Init.Nat.min (S n) _) with (S n) in Hlast by lia.
    cbn [pred] in Hlast. by rewrite lookup_take_lt in Hlast by lia. }
  rewrite <- (after_key_drop (after_key key l) n o); [|by apply where_sorted, listed_sorted|done].
  symmetry. apply after_key_after. apply list_elem_of_lookup_2 in Ho. apply elem_of_where in Ho as [_ Ho]. by apply text_ltb_lt.
Qed.
