(* ===== verification/StoreEvents.v ===== *)
(** The store's hooks and their deliveries, bucket notifications, alerts, audit
    events and maintenance leases: [store/store.go], [store/notifications.go],
    [store/alerts.go], [store/maintenance.go]. *)
From S2P Require Import Prelude GoTime Domain World Sql StoreProviders.

(** The first row of a table that satisfies a predicate on a UNIQUE column. *)
Definition find_row {K V} `{Countable K} (P : V → bool) (m : gmap K V) : option V := List.find P (rows m).

Definition hook_conflict (old new : Hook) : Hook := new <| h_CreatedAt := h_CreatedAt old |>.

(** [scanHook]: headers are stored encrypted only. *)
Definition hook_row (h : Hook) : Hook := h <| h_Headers := ∅ |> <| h_HeaderNames := [] |>.

Definition delete_hook_row (id : string) (d : DB) : DB :=
  match db_hooks d !! id with
  | None => d
  | Some _ =>
      d <| db_hooks ::= delete id |>
        <| db_deliveries ::= delete_where (λ x, (hd_HookID x =? id)%string) |>
        <| db_notifications ::= delete_where (λ x, (bn_HookID x =? id)%string) |>
  end.

Definition create_delivery_row (x : HookDelivery) (d : DB) : result DB :=
  match db_hooks d !! hd_HookID x with
  | None => Err (constraint_failed "FOREIGN KEY")
  | Some _ =>
      match db_deliveries d !! hd_ID x with
      | Some _ => Err (constraint_failed "UNIQUE")
      | None => Ok (d <| db_deliveries ::= insert (hd_ID x) x |>)
      end
  end.

(** The conditional UPDATE of a claim: only a pending delivery that is due. *)
Definition claim_delivery_row (id : string) (due claimedAt : Time) (d : DB) : Z * DB :=
  let '(n, m) := update_row id
      (λ x, (hd_Status x =? HookDeliveryStatusPending)%string && sql_time_le (hd_NextAttemptAt x) due)
      (λ x, x <| hd_Status := HookDeliveryStatusRunning |> <| hd_UpdatedAt := claimedAt |>) (db_deliveries d) in
  (n, d <| db_deliveries := m |>).

Definition claimable_deliveries (t : Time) (d : DB) : list string :=
  hd_ID <$> limit 5 (order_by (by_time hd_NextAttemptAt)
    (where_ (λ x, (hd_Status x =? HookDeliveryStatusPending)%string && sql_time_le (hd_NextAttemptAt x) t)
       (rows (db_deliveries d)))).

(** One INSERT per notification; the bucket's previous ones are deleted first. *)
Definition insert_notification (bucket : string) (r : result DB) (n : BucketNotification) : result DB :=
  try! d := r in
  match db_hooks d !! bn_HookID n with
  | None => Err (constraint_failed "FOREIGN KEY")
  | Some _ =>
      let key := (bucket, bn_ID n, bn_Event n) in
      match db_notifications d !! key with
      | Some _ => Err (constraint_failed "UNIQUE")
      | None => Ok (d <| db_notifications ::= insert key (n <| bn_Bucket := bucket |>) |>)
      end
  end.

Definition replace_notifications_tx (bucket : string) (l : list BucketNotification) (d : DB) : result DB :=
  fold_left (insert_notification bucket) l
    (Ok (d <| db_notifications ::= delete_where (λ n, (bn_Bucket n =? bucket)%string) |>)).

(** INSERT INTO alerts ... ON CONFLICT(dedupe_key) DO UPDATE *)
Definition upsert_alert_row (a : Alert) (d : DB) : result DB :=
  match find_row (λ x, (al_DedupeKey x =? al_DedupeKey a)%string) (db_alerts d) with
  | Some old =>
      Ok (d <| db_alerts ::= insert (al_ID old)
            (a <| al_ID := al_ID old |> <| al_CreatedAt := al_CreatedAt old |> <| al_Status := AlertStatusOpen |>
               <| al_ResolvedAt := zero_time |>) |>)
  | None =>
      match db_alerts d !! al_ID a with
      | Some _ => Err (constraint_failed "UNIQUE")
      | None => Ok (d <| db_alerts ::= insert (al_ID a) a |>)
      end
  end.

(** INSERT INTO maintenance_leases ... ON CONFLICT(name) DO UPDATE ... WHERE
    leased_until < now, and the number of rows it changed. *)
Definition acquire_lease_row (name : string) (t until : Time) (d : DB) : Z * DB :=
  let take := d <| db_leases ::= insert name (MkLeaseRow until t) |> in
  match db_leases d !! name with
  | None => (1, take)
  | Some l => if sql_time_lt (ls_LeasedUntil l) t then (1, take) else (0, d)
  end.

Section store.
Context `{Env}.

(** *** Hooks *)

Definition UpsertHook (hook : Hook) : M (result unit) :=
  let! t := now in
  let hook := if is_zero (h_CreatedAt hook) then hook <| h_CreatedAt := t |> else hook in
  let hook := hook <| h_UpdatedAt := t |> in
  wrap_err "upsert hook" (sql_write (λ d, Ok (d <| db_hooks ::= λ m,
    <[h_ID hook := match m !! h_ID hook with
                   | Some old => hook_conflict old (hook_row hook)
                   | None => hook_row hook
                   end]> m |>))).

Definition ListHooks (enabledOnly : bool) : M (result (list Hook)) :=
  wrap_err "list hooks" (sql_read (λ d,
    Ok (order_by (by_text h_ID) (where_ (λ h, negb enabledOnly || h_Enabled h) (rows (db_hooks d)))))).

Definition GetHook (id : string) : M (result Hook) :=
  sql_read (λ d, match db_hooks d !! id with Some h => Ok h | None => not_found end).

Definition DeleteHook (id : string) : M (result unit) := sql_write (λ d, Ok (delete_hook_row id d)).

(** *** Deliveries *)

Definition CreateHookDelivery (delivery : HookDelivery) : M (result unit) :=
  let! t := now in
  let x := if is_zero (hd_CreatedAt delivery) then delivery <| hd_CreatedAt := t |> else delivery in
  let x := x <| hd_UpdatedAt := t |> in
  let x := if is_zero (hd_NextAttemptAt x) then x <| hd_NextAttemptAt := t |> else x in
  let x := if (hd_Status x =? "")%string then x <| hd_Status := HookDeliveryStatusPending |> else x in
  let x := if hd_MaxAttempts x <=? 0 then x <| hd_MaxAttempts := 3 |> else x in
  wrap_err "create hook delivery" (sql_write (create_delivery_row x)).

Definition GetHookDelivery (id : string) : M (result HookDelivery) :=
  sql_read (λ d, match db_deliveries d !! id with Some x => Ok x | None => not_found end).

Definition ListHookDeliveries (lim : Z) : M (result (list HookDelivery)) :=
  let lim := if (lim <=? 0) || (200 <? lim) then 50 else lim in
  wrap_err "list hook deliveries" (sql_read (λ d,
    Ok (limit lim (order_by (desc (by_time hd_CreatedAt)) (rows (db_deliveries d)))))).

Definition ListPendingHookDeliveries (t : Time) (lim : Z) : M (result (list HookDelivery)) :=
  let lim := if (lim <=? 0) || (200 <? lim) then 50 else lim in
  wrap_err "list pending hook deliveries" (sql_read (λ d,
    Ok (limit lim (order_by (by_time hd_NextAttemptAt)
      (where_ (λ x, (hd_Status x =? HookDeliveryStatusPending)%string && sql_time_le (hd_NextAttemptAt x) t)
         (rows (db_deliveries d))))))).

(** The first statement of a claim: the identifiers it will try. *)
Definition list_claimable (t : Time) : M (result (list string)) :=
  wrap_err "list claimable hook deliveries" (sql_read (λ d, Ok (claimable_deliveries t d))).

(** One round of its loop: did this claimer get the delivery? *)
Definition claim_delivery (id : string) (due : Time) : M (result bool) :=
  let! claimedAt := now in
  let? changed := wrap_err "claim hook delivery" (sql (λ d, Ok (claim_delivery_row id due claimedAt d))) in
  ret_ok (changed =? 1).

Fixpoint claim_deliveries (ids : list string) (due : Time) : M (result (option HookDelivery)) :=
  match ids with
  | [] => ret_ok None
  | id :: rest =>
      let? won := claim_delivery id due in
      if won then let? x := GetHookDelivery id in ret_ok (Some x)
      else claim_deliveries rest due
  end.

Definition ClaimNextHookDelivery (t : Time) : M (result (option HookDelivery)) :=
  let? ids := list_claimable t in
  claim_deliveries ids t.

Definition RecoverStaleHookDeliveries (cutoff : Time) : M (result Z) :=
  let! t := now in
  let stale x := (hd_Status x =? HookDeliveryStatusRunning)%string && sql_time_lt (hd_UpdatedAt x) cutoff in
  wrap_err "recover stale hook deliveries" (sql (λ d, Ok (count_where stale (db_deliveries d),
    d <| db_deliveries ::= update_where stale (λ x, x <| hd_Status := HookDeliveryStatusPending |>
           <| hd_LastError := "recovered after worker interruption" |> <| hd_UpdatedAt := t |>) |>))).

Definition TouchHookDelivery (id : string) : M (result unit) :=
  let! t := now in
  let? changed := wrap_err "touch hook delivery" (sql (λ d,
    let '(n, m) := update_row id (λ x, (hd_Status x =? HookDeliveryStatusRunning)%string)
                     (λ x, x <| hd_UpdatedAt := t |>) (db_deliveries d) in
    Ok (n, d <| db_deliveries := m |>))) in
  if negb (changed =? 1) then ret not_found else ret_ok tt.

Definition UpdateHookDelivery (delivery : HookDelivery) : M (result unit) :=
  let! t := now in
  wrap_err "update hook delivery" (sql_write (λ d, Ok (d <| db_deliveries ::= λ m,
    (update_row (hd_ID delivery) (λ _, true) (λ x,
       x <| hd_Status := hd_Status delivery |> <| hd_Attempts := hd_Attempts delivery |>
         <| hd_NextAttemptAt := hd_NextAttemptAt delivery |> <| hd_LastStatusCode := hd_LastStatusCode delivery |>
         <| hd_LastError := hd_LastError delivery |> <| hd_UpdatedAt := t |>) m).2 |>))).

(** *** Notifications, alerts, audit events, leases *)

Definition ReplaceBucketNotifications (bucket : string) (notifications : list BucketNotification) : M (result unit) :=
  sql_write (replace_notifications_tx bucket notifications).

Definition ListBucketNotifications (bucket : string) : M (result (list BucketNotification)) :=
  sql_read (λ d, Ok (order_by (then_by (by_text bn_ID) (by_text bn_Event))
    (where_ (λ n, (bn_Bucket n =? bucket)%string) (rows (db_notifications d))))).

Definition UpsertAlert (alert : Alert) : M (result unit) :=
  let! t := now in
  let alert := if is_zero (al_CreatedAt alert) then alert <| al_CreatedAt := t |> else alert in
  let alert := alert <| al_UpdatedAt := t |> in
  let alert := if (al_Status alert =? "")%string then alert <| al_Status := AlertStatusOpen |> else alert in
  sql_write (upsert_alert_row alert).

Definition ResolveAlert (dedupeKey : string) : M (result unit) :=
  let! t := now in
  sql_write (λ d, Ok (d <| db_alerts ::=
    update_where (λ a, (al_DedupeKey a =? dedupeKey)%string && negb (al_Status a =? AlertStatusResolved)%string)
      (λ a, a <| al_Status := AlertStatusResolved |> <| al_ResolvedAt := t |> <| al_UpdatedAt := t |>) |>)).

Definition ListAlerts (status : string) (lim : Z) : M (result (list Alert)) :=
  let lim := if (lim <=? 0) || (500 <? lim) then 100 else lim in
  sql_read (λ d, Ok (limit lim (order_by (desc (by_time al_UpdatedAt))
    (where_ (λ a, (status =? "")%string || (al_Status a =? status)%string) (rows (db_alerts d)))))).

Definition CreateAuditEvent (event : AuditEvent) : M (result unit) :=
  let! event := (if is_zero (au_CreatedAt event) then let! t := now in ret (event <| au_CreatedAt := t |>) else ret event) in
  sql_write (λ d, match db_audits d !! au_ID event with
                  | Some _ => Err (constraint_failed "UNIQUE")
                  | None => Ok (d <| db_audits ::= insert (au_ID event) event |>)
                  end).

Definition ListAuditEvents (lim : Z) : M (result (list AuditEvent)) :=
  let lim := if (lim <=? 0) || (200 <? lim) then 50 else lim in
  sql_read (λ d, Ok (limit lim (order_by (desc (by_time au_CreatedAt)) (rows (db_audits d))))).

Definition AcquireMaintenanceLease (name : string) (t : Time) (ttl : Duration) : M (result bool) :=
  let? changed := sql (λ d, Ok (acquire_lease_row name t (add_time t ttl) d)) in
  ret_ok (changed =? 1).

Definition ReleaseMaintenanceLease (name : string) : M (result unit) :=
  let! t := now in
  let past := add_time t (- second) in
  sql_write (λ d, Ok (d <| db_leases ::= λ m,
    (update_row name (λ _, true) (λ _, MkLeaseRow past past) m).2 |>)).
End store.

(** None of these operations touches the quota ledger. *)
Section ledger_ops.
Context `{Env}.

Lemma create_delivery_ledger x : pres (on_db same_ledger) (sql_write (create_delivery_row x)).
Proof. apply ledger_write. unfold create_delivery_row. intros d d' Hd. repeat case_match; simplify_eq; split; rsimpl; done. Qed.

Lemma CreateHookDelivery_ledger x : pres (on_db same_ledger) (CreateHookDelivery x).
Proof. unfold CreateHookDelivery. pres_auto; apply create_delivery_ledger. Qed.

Lemma UpdateHookDelivery_ledger x : pres (on_db same_ledger) (UpdateHookDelivery x).
Proof. unfold UpdateHookDelivery. ledger_op. Qed.

Lemma UpsertAlert_ledger a : pres (on_db same_ledger) (UpsertAlert a).
Proof. unfold UpsertAlert. pres_auto; apply ledger_write; unfold upsert_alert_row; intros; repeat case_match; simplify_eq; split; rsimpl; done. Qed.

Lemma ResolveAlert_ledger k : pres (on_db same_ledger) (ResolveAlert k).
Proof. unfold ResolveAlert. ledger_op. Qed.
End ledger_ops.

#[global] Hint Resolve CreateHookDelivery_ledger UpdateHookDelivery_ledger UpsertAlert_ledger ResolveAlert_ledger
  AddProviderUsage_ledger SetProviderUsage_ledger SetProviderRemoteQuota_ledger MarkProviderUnavailable_ledger
  ClearProviderUnavailable_ledger : pres.

(** Reads relate a world to itself, whatever the relation. *)
#[global] Hint Extern 2 (pres _ (ListHooks _)) => unfold ListHooks; pres_auto : pres.
#[global] Hint Extern 2 (pres _ (GetHook _)) => unfold GetHook; pres_auto : pres.
#[global] Hint Extern 2 (pres _ (GetHookDelivery _)) => unfold GetHookDelivery; pres_auto : pres.
#[global] Hint Extern 2 (pres _ (ListBucketNotifications _)) => unfold ListBucketNotifications; pres_auto : pres.
