(* ===== verification/Embeddings.v ===== *)
(** Object embeddings, [store/embeddings.go], on the portable exact backend:
    vectors stored as little-endian float32 blobs, replaced atomically for one
    generation of an object, and searched by a scan that keeps the best. *)
From S2P Require Import Prelude GoTime Sha256 Float64 FloatArith Text Json Domain World Sql StoreProviders StoreObjects.

Definition defaultEmbeddingCandidates : Z := 10000.
Definition maximumEmbeddingCandidates : Z := 100000.
Definition maximumEmbeddingResults : Z := 100.
Definition maximumEmbeddingsPerPlugin : Z := 128.
Definition maximumEmbeddingDimensions : Z := 4096.

(** ** Vectors *)

(** [float64(value)] *)
Definition widen (value : float32) : float64 := float_of_bits32 value.

(** [math.IsNaN(float64(value)) || math.IsInf(float64(value), 0)] *)
Definition not_finite (value : float32) : bool := negb (is_finite (widen value)).

Definition byte_at (value : Z) (n : Z) : ascii := ascii_of_N (Z.to_N (Z.land (Z.shiftr value (8 * n)) 255)).

(** [binary.LittleEndian.PutUint32] and [Uint32]. *)
Definition put_uint32 (value : Z) : string :=
  String (byte_at value 0) (String (byte_at value 1) (String (byte_at value 2) (String (byte_at value 3) ""))).

Definition uint32_of (b0 b1 b2 b3 : ascii) : Z :=
  Z.lor (byte_of b0) (Z.lor (Z.shiftl (byte_of b1) 8) (Z.lor (Z.shiftl (byte_of b2) 16) (Z.shiftl (byte_of b3) 24))).

Fixpoint encode_from (i : Z) (values : list float32) : result string :=
  match values with
  | [] => Ok ""
  | value :: rest =>
      if not_finite value then Err (ErrText ("embedding value " +:+ itoa i +:+ " is not finite"))
      else try! data := encode_from (i + 1) rest in Ok (put_uint32 value +:+ data)
  end.

Definition encodeFloat32Vector (values : list float32) : result string := encode_from 0 values.

Fixpoint decode_from (i : Z) (data : string) : result (list float32) :=
  match data with
  | String b0 (String b1 (String b2 (String b3 rest))) =>
      let value := uint32_of b0 b1 b2 b3 in
      if not_finite value then Err (ErrText ("value " +:+ itoa i +:+ " is not finite"))
      else try! values := decode_from (i + 1) rest in Ok (value :: values)
  | _ => Ok []
  end.

Definition decodeFloat32Vector (data : string) (dimensions : Z) : result (list float32) :=
  if (dimensions <=? 0) || negb (Z.of_nat (String.length data) =? dimensions * 4)
  then Err (ErrText ("blob has " +:+ itoa (Z.of_nat (String.length data)) +:+ " bytes for " +:+ itoa dimensions +:+ " dimensions"))
  else decode_from 0 data.

Definition vectorSquaredNorm (values : list float32) : float64 :=
  fold_left (λ norm value, float_add norm (float_mul (widen value) (widen value))) values float_zero.

(** The sums of the scoring loop: dot product, norm and squared distance. *)
Record sums : Type := MkSums { s_dot : float64; s_candidateNorm : float64; s_squaredDistance : float64 }.

Definition add_sums (acc : sums) (pair : float32 * float32) : sums :=
  let q := widen pair.1 in
  let c := widen pair.2 in
  let difference := float_sub q c in
  MkSums (float_add (s_dot acc) (float_mul q c)) (float_add (s_candidateNorm acc) (float_mul c c))
         (float_add (s_squaredDistance acc) (float_mul difference difference)).

(** The score; [None] is the false of its second result. *)
Definition embeddingScoreWithQueryNorm (metric : string) (query candidate : list float32) (queryNorm : float64) : option float64 :=
  if Nat.eqb (List.length query) 0 || negb (Nat.eqb (List.length query) (List.length candidate)) then None
  else
    let t := fold_left add_sums (combine query candidate) (MkSums float_zero float_zero float_zero) in
    if (metric =? "dot")%string then Some (s_dot t)
    else if (metric =? "l2")%string then Some (float_neg (float_sqrt (s_squaredDistance t)))
    else if (metric =? "cosine")%string then
      if float_eq queryNorm float_zero || float_eq (s_candidateNorm t) float_zero then None
      else Some (float_div (s_dot t) (float_mul (float_sqrt queryNorm) (float_sqrt (s_candidateNorm t))))
    else None.

(** ** Storing *)

Definition known_metric (metric : string) : bool :=
  (metric =? "cosine")%string || (metric =? "dot")%string || (metric =? "l2")%string.

Definition validateStoredEmbedding (e : WASMPluginEmbedding) : result unit :=
  if (trim_space (we_Model e) =? "")%string || (trim_space (we_ModelVersion e) =? "")%string || (trim_space (we_Kind e) =? "")%string
  then Err (ErrText "kind, model and model version are required")
  else if negb (known_metric (we_Metric e)) then Err (ErrText ("unsupported metric " +:+ quoted (we_Metric e)))
  else if (we_Dimensions e <=? 0) || (maximumEmbeddingDimensions <? we_Dimensions e)
          || negb (we_Dimensions e =? Z.of_nat (List.length (we_Values e)))
  then Err (ErrText ("dimensions " +:+ itoa (we_Dimensions e) +:+ " do not match " +:+ itoa (Z.of_nat (List.length (we_Values e)))
                     +:+ " values or exceed maximum 4096"))
  else if (we_Metric e =? "cosine")%string && float_eq (vectorSquaredNorm (we_Values e)) float_zero
  then Err (ErrText "cosine embeddings cannot be a zero vector")
  else try! _ := encodeFloat32Vector (we_Values e) in Ok tt.

Fixpoint validate_embeddings (i : Z) (embeddings : list WASMPluginEmbedding) : result unit :=
  match embeddings with
  | [] => Ok tt
  | e :: rest =>
      match validateStoredEmbedding e with
      | Err err => Err (ErrWrap ("embedding " +:+ itoa i) err)
      | Ok _ => validate_embeddings (i + 1) rest
      end
  end.

Definition nul : string := String "000" "".

Definition embedding_id (object : ObjectRecord) (pluginID : string) (e : WASMPluginEmbedding) (ordinal : Z) : string :=
  "emb-" +:+ string_take 32 (sha256_hex (string_join nul
    [o_Bucket object; o_Key object; o_ChecksumSHA256 object; time_text (o_UpdatedAt object); pluginID;
     we_Kind e; we_Model e; we_ModelVersion e; itoa ordinal])).

Definition embedding_row (object : ObjectRecord) (pluginID : string) (t : Time) (ordinal : Z) (e : WASMPluginEmbedding) (values : string) : EmbeddingRow :=
  MkEmbeddingRow
    (MkObjectEmbedding (embedding_id object pluginID e ordinal) (o_Bucket object) (o_Key object) (o_ChecksumSHA256 object)
       (o_UpdatedAt object) pluginID (we_Kind e) (we_Model e) (we_ModelVersion e) (we_Metric e) (we_Dimensions e) ordinal []
       (we_Metadata e) t t)
    values.

(** The INSERTs; the rows of the plugin were deleted before, so only the
    primary key can be taken. *)
Fixpoint insert_embeddings (object : ObjectRecord) (pluginID : string) (t : Time) (ordinal : Z) (embeddings : list WASMPluginEmbedding)
    (m : gmap string EmbeddingRow) : result (gmap string EmbeddingRow) :=
  match embeddings with
  | [] => Ok m
  | e :: rest =>
      try! values := encodeFloat32Vector (we_Values e) in
      let row := embedding_row object pluginID t ordinal e values in
      match m !! oe_ID (er_embedding row) with
      | Some _ => Err (ErrWrap ("insert embedding " +:+ itoa ordinal) (constraint_failed "UNIQUE"))
      | None => insert_embeddings object pluginID t (ordinal + 1) rest (<[oe_ID (er_embedding row) := row]> m)
      end
  end.

(** The generation of the object that the vectors were computed from. *)
Definition same_generation (object row : ObjectRecord) : bool :=
  (o_ChecksumSHA256 row =? o_ChecksumSHA256 object)%string && (time_text (o_UpdatedAt row) =? formatOptionalTime (o_UpdatedAt object))%string.

Definition embedding_of_plugin (object : ObjectRecord) (pluginID : string) (e : EmbeddingRow) : bool :=
  embedding_of (o_Bucket object) (o_Key object) e && (oe_PluginID (er_embedding e) =? pluginID)%string.

(** The transaction. *)
Definition replace_embeddings_tx (object : ObjectRecord) (pluginID : string) (t : Time) (embeddings : list WASMPluginEmbedding) (d : DB) : result DB :=
  match db_objects d !! (o_Bucket object, o_Key object) with
  | Some row =>
      if same_generation object row then
        try! m := insert_embeddings object pluginID t 0 embeddings (delete_where (embedding_of_plugin object pluginID) (db_embeddings d)) in
        Ok (d <| db_embeddings := m |>)
      else Err (ErrSentinel ErrObjectGenerationSuperseded)
  | None => Err (ErrSentinel ErrObjectGenerationSuperseded)
  end.

(** ** Searching *)

Definition normalizeEmbeddingSearchQuery (query : EmbeddingSearchQuery) : result EmbeddingSearchQuery :=
  let query := query <| eq_Model ::= trim_space |> <| eq_ModelVersion ::= trim_space |> <| eq_Kind ::= trim_space |>
                     <| eq_Bucket ::= trim_space |> <| eq_Metric ::= λ m, to_lower (trim_space m) |> in
  let query := if (eq_Metric query =? "")%string then query <| eq_Metric := "cosine" |> else query in
  if (eq_Model query =? "")%string || Nat.eqb (List.length (eq_Values query)) 0
  then Err (ErrText "model and a non-empty values vector are required")
  else if maximumEmbeddingDimensions <? Z.of_nat (List.length (eq_Values query))
  then Err (ErrText ("query has " +:+ itoa (Z.of_nat (List.length (eq_Values query))) +:+ " dimensions; maximum is 4096"))
  else if negb (known_metric (eq_Metric query)) then Err (ErrText ("unsupported embedding metric " +:+ quoted (eq_Metric query)))
  else
    try! _ := encodeFloat32Vector (eq_Values query) in
    if (eq_Metric query =? "cosine")%string && float_eq (vectorSquaredNorm (eq_Values query)) float_zero
    then Err (ErrText "cosine query cannot be a zero vector")
    else
      let query := if eq_Limit query <=? 0 then query <| eq_Limit := 10 |> else query in
      let query := if maximumEmbeddingResults <? eq_Limit query then query <| eq_Limit := maximumEmbeddingResults |> else query in
      let query := if eq_MaxCandidates query <=? 0 then query <| eq_MaxCandidates := defaultEmbeddingCandidates |> else query in
      let query := if maximumEmbeddingCandidates <? eq_MaxCandidates query
                   then query <| eq_MaxCandidates := maximumEmbeddingCandidates |> else query in
      Ok query.

Definition scanEmbedding (includeValues : bool) (row : EmbeddingRow) : result ObjectEmbedding :=
  match decodeFloat32Vector (er_blob row) (oe_Dimensions (er_embedding row)) with
  | Err e => Err (ErrWrap ("decode embedding " +:+ oe_ID (er_embedding row)) e)
  | Ok decoded => Ok (if includeValues : bool then (er_embedding row) <| oe_Values := decoded |> else er_embedding row)
  end.

Definition embeddingResultBetter (l r : EmbeddingSearchResult) : bool :=
  if float_eq (sr_Score l) (sr_Score r) then text_ltb (oe_ID (sr_Embedding l)) (oe_ID (sr_Embedding r))
  else float_lt (sr_Score r) (sr_Score l).

(** The index of the worst result: the loop from [i], [worst] so far. *)
Fixpoint worst_from (results : list EmbeddingSearchResult) (i worst : nat) (worstResult : EmbeddingSearchResult) : nat * EmbeddingSearchResult :=
  match results with
  | [] => (worst, worstResult)
  | r :: rest =>
      if embeddingResultBetter worstResult r then worst_from rest (S i) i r else worst_from rest (S i) worst worstResult
  end.

(** One candidate of the loop. *)
Definition keep_best (lim : Z) (results : list EmbeddingSearchResult) (candidate : EmbeddingSearchResult) : list EmbeddingSearchResult :=
  if Z.of_nat (List.length results) <? lim then results ++ [candidate]
  else match results with
       | [] => results
       | r :: rest =>
           let '(worst, worstResult) := worst_from rest 1 0 r in
           if embeddingResultBetter candidate worstResult then <[worst := candidate]> results else results
       end.

(** The candidate of a row: a score that is not below the minimum. *)
Definition scored (query : EmbeddingSearchQuery) (queryNorm : float64) (e : ObjectEmbedding) : option EmbeddingSearchResult :=
  match embeddingScoreWithQueryNorm (eq_Metric query) (eq_Values query) (oe_Values e) queryNorm with
  | None => None
  | Some score =>
      if (match eq_MinScore query with Some least => float_lt score least | None => false end) then None
      else Some (MkEmbeddingSearchResult (e <| oe_Values := [] |>) score)
  end.

Fixpoint search_rows (query : EmbeddingSearchQuery) (queryNorm : float64) (found : list EmbeddingRow) (results : list EmbeddingSearchResult)
    : result (list EmbeddingSearchResult) :=
  match found with
  | [] => Ok results
  | row :: rest =>
      try! e := scanEmbedding true row in
      search_rows query queryNorm rest
        (match scored query queryNorm e with Some candidate => keep_best (eq_Limit query) results candidate | None => results end)
  end.

Definition result_le (x y : EmbeddingSearchResult) : Prop := embeddingResultBetter y x = false.
#[global] Instance result_le_dec x y : Decision (result_le x y).
Proof. unfold result_le. apply _. Defined.

(** [sort.Slice(results, ...)] *)
Definition sort_results (results : list EmbeddingSearchResult) : list EmbeddingSearchResult := merge_sort result_le results.

(** The WHERE clause. *)
Definition search_matches (query : EmbeddingSearchQuery) (row : EmbeddingRow) : bool :=
  let e := er_embedding row in
  (oe_Model e =? eq_Model query)%string && (oe_Metric e =? eq_Metric query)%string
  && (oe_Dimensions e =? Z.of_nat (List.length (eq_Values query)))
  && ((eq_ModelVersion query =? "")%string || (oe_ModelVersion e =? eq_ModelVersion query)%string)
  && ((eq_Kind query =? "")%string || (oe_Kind e =? eq_Kind query)%string)
  && ((eq_Bucket query =? "")%string || (oe_Bucket e =? eq_Bucket query)%string).

Definition search_candidates (query : EmbeddingSearchQuery) (d : DB) : list EmbeddingRow :=
  limit (eq_MaxCandidates query)
    (order_by (by_text (λ row, oe_ID (er_embedding row))) (where_ (search_matches query) (rows (db_embeddings d)))).

Fixpoint scan_all (includeValues : bool) (found : list EmbeddingRow) : result (list ObjectEmbedding) :=
  match found with
  | [] => Ok []
  | row :: rest => try! e := scanEmbedding includeValues row in try! l := scan_all includeValues rest in Ok (e :: l)
  end.

Definition embedding_order : Cmp EmbeddingRow :=
  then_by (by_text (λ r, oe_PluginID (er_embedding r))) (then_by (by_text (λ r, oe_Kind (er_embedding r)))
    (then_by (by_text (λ r, oe_Model (er_embedding r))) (then_by (by_text (λ r, oe_ModelVersion (er_embedding r)))
      (by_int (λ r, oe_Ordinal (er_embedding r)))))).

Section operations.
Context `{Env}.

Definition ReplaceObjectEmbeddings (object : ObjectRecord) (pluginID : string) (embeddings : list WASMPluginEmbedding) : M (result unit) :=
  if (o_Bucket object =? "")%string || (o_Key object =? "")%string || (pluginID =? "")%string
  then ret_err (ErrText "bucket, key and plugin id are required")
  else if maximumEmbeddingsPerPlugin <? Z.of_nat (List.length embeddings)
  then ret_err (ErrText ("embedding count " +:+ itoa (Z.of_nat (List.length embeddings)) +:+ " exceeds maximum 128"))
  else
    let? _ := lift (validate_embeddings 0 embeddings) in
    let! t := now in
    sql_write (replace_embeddings_tx object pluginID t embeddings).

Definition ListObjectEmbeddings (bucket key : string) (includeValues : bool) : M (result (list ObjectEmbedding)) :=
  sql_read (λ d, scan_all includeValues (order_by embedding_order (where_ (embedding_of bucket key) (rows (db_embeddings d))))).

Definition SearchObjectEmbeddings (query : EmbeddingSearchQuery) : M (result (list EmbeddingSearchResult)) :=
  let? query := lift (normalizeEmbeddingSearchQuery query) in
  let? results := sql_read (λ d, search_rows query (vectorSquaredNorm (eq_Values query)) (search_candidates query d) []) in
  ret_ok (limit (eq_Limit query) (sort_results results)).
End operations.
