(* ===== verification/EmbeddingsFacts.v ===== *)
(** Theorems about embeddings: blobs keep the vectors, scores are numbers, and
    the scan that keeps the best finds what sorting every score would. *)
From S2P Require Import Prelude GoTime Float64 FloatArith Text Domain World Sql StoreProviders StoreObjects Demo Embeddings.

(** ** Blobs *)

Definition is_uint32 (v : float32) : Prop := 0 <= v < 2 ^ 32.

Lemma byte_of_byte_at v n : 0 <= n → byte_of (byte_at v n) = Z.land (Z.shiftr v (8 * n)) 255.
Proof.
  intros Hn. unfold byte_of, byte_at. change 255 with (Z.ones 8). rewrite Z.land_ones by lia.
  pose proof (Z.mod_pos_bound (Z.shiftr v (8 * n)) (2 ^ 8)) as Hb. change (2 ^ 8) with 256 in *.
  rewrite N_ascii_embedding, Z2N.id; lia.
Qed.

Lemma byte_bit v n i : 0 <= n → Z.testbit (Z.land (Z.shiftr v (8 * n)) 255) i = (0 <=? i) && (i <? 8) && Z.testbit v (i + 8 * n).
Proof.
  intros Hn. change 255 with (Z.ones 8). destruct (Z.leb_spec 0 i); [|by apply Z.testbit_neg_r].
  rewrite Z.land_spec, Z.shiftr_spec, Z.testbit_ones_nonneg by lia. by rewrite andb_comm.
Qed.

Lemma high_bit v k : is_uint32 v → 32 <= k → Z.testbit v k = false.
Proof.
  intros Hv Hk. unfold is_uint32 in Hv. destruct (decide (v = 0)) as [->|]; [apply Z.bits_0|]. apply Z.bits_above_log2; [lia|].
  assert (Z.log2 v < 32) by (apply Z.log2_lt_pow2; lia). lia.
Qed.

Lemma uint32_put v : is_uint32 v → uint32_of (byte_at v 0) (byte_at v 1) (byte_at v 2) (byte_at v 3) = v.
Proof.
  intros Hv. unfold uint32_of. rewrite !byte_of_byte_at by lia. apply Z.bits_inj'. intros k Hk.
  rewrite !Z.lor_spec, !Z.shiftl_spec, !byte_bit by lia.
  replace (k - 8 + 8 * 1) with k by lia. replace (k - 16 + 8 * 2) with k by lia. replace (k - 24 + 8 * 3) with k by lia.
  replace (k + 8 * 0) with k by lia.
  destruct (Z.leb_spec 32 k); [rewrite (high_bit v k) by done; by rewrite !andb_false_r|].
  destruct (Z.testbit v k); [|by rewrite !andb_false_r]. rewrite !andb_true_r.
  repeat match goal with
  | |- context [?a <? ?b] => destruct (Z.ltb_spec a b)
  | |- context [?a <=? ?b] => destruct (Z.leb_spec a b)
  end; try reflexivity; lia.
Qed.

Lemma decode_encode i j values data : Forall is_uint32 values → encode_from i values = Ok data → decode_from j data = Ok values.
Proof.
  intros Hall. revert i j data. induction Hall as [|v values Hv _ IH]; intros i j data; cbn [encode_from].
  - intros [= <-]. reflexivity.
  - destruct (not_finite v) eqn:Hf; [discriminate|]. intros (rest & Hr & [= <-])%result_bind_Ok. unfold put_uint32.
    rewrite !append_cons, append_nil_l. cbn [decode_from]. rewrite uint32_put, Hf by done. by rewrite (IH _ (j + 1) _ Hr).
Qed.

Lemma encode_length i values data : encode_from i values = Ok data → String.length data = (4 * List.length values)%nat.
Proof.
  revert i data. induction values as [|v values IH]; intros i data; cbn [encode_from]; [by intros [= <-]|].
  destruct (not_finite v); [done|]. intros (rest & Hr & [= <-])%result_bind_Ok. rewrite string_length_app, (IH _ _ Hr). cbn. lia.
Qed.

(** A vector that can be stored is read back as it was. *)
Theorem embedding_blob_roundtrip values data :
  values ≠ [] → Forall is_uint32 values → encodeFloat32Vector values = Ok data →
  decodeFloat32Vector data (Z.of_nat (List.length values)) = Ok values.
Proof.
  intros Hne Hall Henc. unfold decodeFloat32Vector, encodeFloat32Vector in *. rewrite (encode_length _ _ _ Henc).
  destruct values as [|v values]; [done|]. cbn [List.length].
  destruct (Z.leb_spec (Z.of_nat (S (List.length values))) 0); [lia|].
  replace (_ =? _) with true by (symmetry; apply Z.eqb_eq; lia). by eapply decode_encode.
Qed.

Lemma embedding_blob_roundtrip_witness :
  let values := [0x3F800000; 0xC0000000] in
  let data := string_of_list_ascii ["000"; "000"; "128"; "063"; "000"; "000"; "000"; "192"]%char in
  decodeFloat32Vector data (Z.of_nat (List.length values)) = Ok values.
Proof.
  intros values data. apply embedding_blob_roundtrip.
  - discriminate.
  - unfold values. repeat constructor; unfold is_uint32; lia.
  - vm_compute. reflexivity.
Defined.

Lemma decoded_finite i data values : decode_from i data = Ok values → Forall (λ v, is_finite (widen v) = true) values.
Proof.
  remember (String.length data) as n eqn:Hn. revert i data values Hn. induction n as [n IH] using lt_wf_ind. intros i data values ->.
  destruct data as [|b0 [|b1 [|b2 [|b3 rest]]]]; cbn [decode_from]; [intros [= <-]; constructor..|].
  destruct (not_finite _) eqn:Hf; [discriminate|]. intros (l & Hl & [= <-])%result_bind_Ok.
  constructor; [by apply negb_false_iff|]. eapply IH; [|reflexivity|done]. cbn. lia.
Qed.

Lemma decoded_length i data values n : decode_from i data = Ok values → String.length data = (4 * n)%nat → List.length values = n.
Proof.
  revert i data values. induction n as [|n IH]; intros i data values.
  - destruct data; [intros [= <-]; done|done].
  - destruct data as [|b0 [|b1 [|b2 [|b3 rest]]]]; cbn [decode_from]; [intros _ Hl; cbn in Hl; lia..|].
    destruct (not_finite _); [discriminate|]. intros (l & Hl & [= <-])%result_bind_Ok Hlen. cbn [List.length]. f_equal. eapply IH; [done|]. cbn in Hlen. lia.
Qed.

Lemma encoded_finite i values data : encode_from i values = Ok data → Forall (λ v, is_finite (widen v) = true) values.
Proof.
  revert i data. induction values as [|v values IH]; intros i data; cbn [encode_from]; [constructor|].
  destruct (not_finite v) eqn:Hf; [discriminate|]. intros (rest & Hr & _)%result_bind_Ok.
  constructor; [by apply negb_false_iff|]. by eapply IH.
Qed.

(** ** Scores *)

(** A bounded number that is not negative. *)
Definition upto (n j : Z) (a : float64) : Prop := ∃ u, a = Finite u ∧ 0 <= u <= n * pow2 j.

Lemma upto_round num den c j :
  0 <= num → 0 < den → 0 <= c < 2 ^ 53 → 0 <= j < 2000 → num * unit_den <= c * pow2 j * den → upto c j (float_round num den).
Proof.
  intros Hn Hd Hc Hj Hle. unfold float_round. rewrite Z.abs_eq by done.
  destruct (round_units_le num den c j) as (u & -> & Hu); try done; [lia|by apply small_units|].
  eexists. split; [reflexivity|]. destruct (Z.ltb_spec num 0); lia.
Qed.

Lemma upto_add c d j a b : 0 <= c → 0 <= d → c + d < 2 ^ 53 → 0 <= j < 2000 → upto c j a → upto d j b → upto (c + d) j (float_add a b).
Proof. intros Hc Hd Hcd Hj (x & -> & Hx) (y & -> & Hy). pose proof unit_den_pos. apply upto_round; try lia. nia. Qed.

Lemma upto_square c a : 0 <= c → c * c < 2 ^ 53 → bounded c 1202 a → upto (c * c) 1330 (float_mul a a).
Proof.
  intros Hc Hcc (x & -> & Hx). pose proof unit_den_pos as Hu. pose proof (pow2_pos 1202 ltac:(lia)) as Hp.
  pose proof (pow2_product 1202 1202 1330 ltac:(lia) ltac:(lia) ltac:(lia) ltac:(lia)) as Hpow.
  apply upto_round; [nia|nia|nia|lia|]. assert (x * x <= c * c * (pow2 1202 * pow2 1202)) as Hxx by (rewrite <- Z.abs_square; nia).
  assert (c * c * (pow2 1202 * pow2 1202) <= c * c * (pow2 1330 * unit_den)) by nia. nia.
Qed.

Definition finite_values (l : list float32) : Prop := Forall (λ v, is_finite (widen v) = true) l.

Lemma norm_upto values : ∀ (acc : float64) (n : Z), finite_values values → 0 <= n → n + Z.of_nat (List.length values) < 2 ^ 50 → upto n 1330 acc →
  upto (n + Z.of_nat (List.length values)) 1330 (fold_left (λ norm value, float_add norm (float_mul (widen value) (widen value))) values acc).
Proof.
  induction values as [|v values IH]; intros acc n Hall Hn Hlen Hacc; cbn [fold_left List.length] in *; [by rewrite Z.add_0_r|].
  inversion_clear Hall as [|? ? Hv Hrest]. replace (n + Z.of_nat (S (List.length values))) with ((n + 1) + Z.of_nat (List.length values)) by lia.
  apply IH; [done|lia|lia|]. apply upto_add; try lia; [done|].
  apply (upto_square 1); [lia|lia|]. by apply float_of_bits32_bounded.
Qed.

Lemma squared_norm_upto values : finite_values values → Z.of_nat (List.length values) <= 4096 → upto 4096 1330 (vectorSquaredNorm values).
Proof.
  intros Hall Hlen. assert (upto 0 1330 float_zero) as Hz by (exists 0; split; [done|lia]).
  destruct (norm_upto values float_zero 0 Hall) as (u & Hu & Hb); [lia..|done|]. exists u. split; [done|].
  pose proof (pow2_pos 1330 ltac:(lia)). nia.
Qed.

(** The sums after [n] components. *)
Definition sums_upto (n : Z) (t : sums) : Prop :=
  bounded n 1330 (s_dot t) ∧ upto n 1330 (s_candidateNorm t) ∧ upto (4 * n) 1330 (s_squaredDistance t).

Lemma add_sums_upto n t p : 0 <= n < 2 ^ 50 → is_finite (widen p.1) = true → is_finite (widen p.2) = true →
  sums_upto n t → sums_upto (n + 1) (add_sums t p).
Proof.
  intros Hn Hq%float_of_bits32_bounded Hc%float_of_bits32_bounded (Hdot & Hnorm & Hdist). unfold add_sums, sums_upto. cbn [s_dot s_candidateNorm s_squaredDistance].
  split_and!.
  - apply bounded_add; try lia; [done|]. by apply (bounded_mul 1 1 1202 1202 1330); try lia.
  - apply upto_add; try lia; [done|]. by apply (upto_square 1); try lia.
  - replace (4 * (n + 1)) with (4 * n + 4) by lia. apply upto_add; try lia; [done|]. apply (upto_square 2); try lia.
    by apply (bounded_sub 1 1); try lia.
Qed.

Lemma fold_sums_upto pairs : ∀ n t, Forall (λ p, is_finite (widen p.1) = true ∧ is_finite (widen p.2) = true) pairs → 0 <= n →
  n + Z.of_nat (List.length pairs) < 2 ^ 50 → sums_upto n t → sums_upto (n + Z.of_nat (List.length pairs)) (fold_left add_sums pairs t).
Proof.
  induction pairs as [|p pairs IH]; intros n t Hall Hn Hlen Ht; cbn [fold_left List.length] in *; [by rewrite Z.add_0_r|].
  inversion_clear Hall as [|? ? [Hq Hc] Hrest]. replace (n + Z.of_nat (S (List.length pairs))) with ((n + 1) + Z.of_nat (List.length pairs)) by lia.
  apply IH; [done|lia|lia|]. apply add_sums_upto; try done. lia.
Qed.

Lemma sqrt_number n j a : upto n j a → is_nan (float_sqrt a) = false.
Proof. intros (u & -> & Hu). cbn. by destruct (Z.ltb_spec u 0); [lia|]. Qed.

(** The quotient of a cosine is a number. *)
Lemma cosine_number n m k j i dot a b : bounded k i dot → upto n j a → upto m j b → float_eq a float_zero = false → float_eq b float_zero = false →
  is_nan (float_div dot (float_mul (float_sqrt a) (float_sqrt b))) = false.
Proof.
  intros (z & -> & _) (x & -> & Hx) (y & -> & Hy) Ha Hb. unfold float_eq, float_zero in Ha, Hb. cbn in Ha, Hb. rewrite negb_involutive in Ha, Hb.
  apply Z.eqb_neq in Ha, Hb. cbn [float_sqrt]. destruct (Z.ltb_spec x 0); [lia|]. destruct (Z.ltb_spec y 0); [lia|].
  pose proof (root_units_pos x ltac:(lia)) as Hrx. pose proof (root_units_pos y ltac:(lia)) as Hry.
  pose proof (pow2_pos 537 ltac:(lia)) as H537. set (p := root_units x) in *. set (q := root_units y) in *. cbn [float_mul]. unfold float_round at 1.
  assert (0 < p * q) as Hpq by nia. rewrite Z.abs_eq by lia. destruct (Z.ltb_spec (p * q) 0); [lia|].
  destruct (round_units (p * q) (unit_den * unit_den)) as [r|] eqn:Hr; [|done].
  assert (0 < r) as Hr0.
  { pose proof unit_den_pos as Hu. apply round_units_pos in Hr; [done|lia|]. apply Z.mul_le_mono_nonneg_r; [lia|].
    transitivity (pow2 537 * pow2 537); [by rewrite <- pow2_add by lia|]. apply Z.mul_le_mono_nonneg; lia. }
  cbn [float_div]. destruct (Z.eqb_spec r 0); [lia|]. unfold float_round. by destruct (round_units (Z.abs (z * Z.sgn r)) (Z.abs r)).
Qed.

(** Every score of stored vectors is a number. *)
Lemma score_is_number metric query candidate score :
  finite_values query → finite_values candidate → Z.of_nat (List.length query) <= maximumEmbeddingDimensions →
  embeddingScoreWithQueryNorm metric query candidate (vectorSquaredNorm query) = Some score → is_nan score = false.
Proof.
  intros Hq Hc Hlen. unfold embeddingScoreWithQueryNorm. destruct (_ || _) eqn:Hdim; [done|]. apply orb_false_iff in Hdim as [_ Hdim].
  apply negb_false_iff, Nat.eqb_eq in Hdim. set (t := fold_left _ _ _).
  assert (sums_upto 4096 t) as (Hdot & Hnorm & Hdist).
  { assert (sums_upto 0 (MkSums float_zero float_zero float_zero)) as H0.
    { unfold sums_upto. split_and!; (exists 0; split; [reflexivity|lia]). }
    apply (fold_sums_upto (combine query candidate)) in H0; [|apply Forall_forall|lia|rewrite length_combine; unfold maximumEmbeddingDimensions in Hlen; lia].
    - rewrite Z.add_0_l, length_combine, <- Hdim, Nat.min_id in H0. fold t in H0. destruct H0 as (H1 & (u & Hu & Hbu) & (v & Hv & Hbv)).
      unfold maximumEmbeddingDimensions in Hlen. pose proof (pow2_pos 1330 ltac:(lia)). split_and!.
      + eapply bounded_weaken; [exact Hlen|lia|done].
      + exists u. split; [done|]. nia.
      + exists v. split; [done|]. nia.
    - intros [q c] Hin%list_elem_of_In. unfold finite_values in *. rewrite Forall_forall in Hq, Hc.
      split; [apply Hq, list_elem_of_In; by eapply in_combine_l | apply Hc, list_elem_of_In; by eapply in_combine_r]. }
  destruct (metric =? "dot")%string; [intros [= <-]; by eapply bounded_not_nan|].
  destruct (metric =? "l2")%string.
  { intros [= <-]. apply sqrt_number in Hdist. by destruct (float_sqrt _). }
  destruct (metric =? "cosine")%string; [|done]. destruct (_ || _) eqn:Hz; [done|]. apply orb_false_iff in Hz as [Hz1 Hz2]. intros [= <-].
  eapply cosine_number; [done|by apply squared_norm_upto|done|done|done].
Qed.

(** ** The best results

    Without NaN the order of results is total: by falling score, then by
    identifier. *)

Definition float_class (f : float64) : Z := match f with Inf true => -1 | Finite _ => 0 | Inf false => 1 | NaN => 2 end.
Definition float_units (f : float64) : Z := match f with Finite u => u | _ => 0 end.

Definition result_id (r : EmbeddingSearchResult) : string := oe_ID (sr_Embedding r).

Definition result_cmp : Cmp EmbeddingSearchResult :=
  then_by (desc (by_int (λ r, float_class (sr_Score r)))) (then_by (desc (by_int (λ r, float_units (sr_Score r)))) (by_text result_id)).

#[global] Instance result_cmp_laws : CmpLaws result_cmp.
Proof. unfold result_cmp. apply _. Qed.

Definition number (r : EmbeddingSearchResult) : Prop := is_nan (sr_Score r) = false.

Lemma better_cmp x y : number x → number y → (embeddingResultBetter x y = true ↔ result_cmp x y = Lt).
Proof.
  unfold number, embeddingResultBetter, result_cmp, then_by, desc, by_int, by_text, float_eq, result_id.
  destruct (sr_Score x) as [u|[]|], (sr_Score y) as [v|[]|]; cbn; intros Hx Hy; try done; try (by rewrite text_ltb_lt).
  rewrite negb_involutive. destruct (Z.eqb_spec u v) as [->|Hne]; [rewrite Z.compare_refl; apply text_ltb_lt|].
  rewrite Z.ltb_lt. destruct (Z.compare_spec v u); split; try done; try lia.
Qed.

Lemma result_le_cmp x y : number x → number y → (result_le x y ↔ cmp_le result_cmp x y).
Proof.
  intros Hx Hy. unfold result_le, cmp_le. rewrite <- not_true_iff_false, better_cmp, (cmp_opp (c := result_cmp) x y) by done.
  destruct (result_cmp x y); cbn; naive_solver.
Qed.

Lemma result_le_total x y : number x → number y → result_le x y ∨ result_le y x.
Proof. intros Hx Hy. rewrite !result_le_cmp by done. apply (cmp_le_total result_cmp). Qed.

Lemma result_le_trans x y z : number x → number y → number z → result_le x y → result_le y z → result_le x z.
Proof. intros Hx Hy Hz. rewrite !result_le_cmp by done. apply (cmp_le_trans result_cmp). Qed.

#[global] Instance result_le_Total : Total result_le.
Proof.
  intros x y. unfold result_le, embeddingResultBetter. assert (∀ a b, float_eq a b = float_eq b a) as Hsym.
  { intros [u|[]|] [v|[]|]; unfold float_eq; cbn; try done. by rewrite Z.eqb_sym. }
  rewrite (Hsym (sr_Score y)). destruct (float_eq (sr_Score x) (sr_Score y)).
  - destruct (text_ltb (oe_ID (sr_Embedding y)) _) eqn:E; [right|by left]. apply text_ltb_lt in E. apply not_true_iff_false.
    rewrite text_ltb_lt, String.compare_antisym, E. done.
  - destruct (float_lt (sr_Score x) (sr_Score y)) eqn:E; [right|by left]. apply not_true_iff_false. intros E'.
    pose proof (float_lt_trans _ _ _ E E') as H. by rewrite float_lt_irrefl in H.
Qed.

Lemma Sorted_le_cmp l : Forall number l → Sorted result_le l → StronglySorted (cmp_le result_cmp) l.
Proof.
  intros Hall Hs. apply Sorted_StronglySorted; [intros x y z; apply (cmp_le_trans result_cmp)|].
  induction Hs as [|x l Hs IH Hx]; [constructor|]. inversion_clear Hall as [|? ? Hn Hrest]. constructor; [by apply IH|].
  destruct Hx as [|y l Hle]; constructor. inversion_clear Hrest. by apply result_le_cmp.
Qed.

(** The identifiers of the results are distinct. *)
Lemma sorted_results_unique l1 l2 : l1 ≡ₚ l2 → Forall number l1 → NoDup (result_id <$> l1) →
  StronglySorted (cmp_le result_cmp) l1 → StronglySorted (cmp_le result_cmp) l2 → l1 = l2.
Proof.
  intros Hperm Hall Hnd H1. revert l2 Hperm. induction H1 as [|x l1 Hs IH Hx]; intros l2 Hperm H2; [by apply Permutation_nil_l in Hperm|].
  destruct H2 as [|y l2 Hs2 Hy]; [by apply Permutation_nil_r in Hperm|].
  assert (x = y) as ->.
  { assert (x ∈ y :: l2) as Hin1 by (rewrite <- Hperm; by left). assert (y ∈ x :: l1) as Hin2 by (rewrite Hperm; by left).
    apply elem_of_cons in Hin1 as [->|Hin1]; [done|]. apply elem_of_cons in Hin2 as [->|Hin2]; [done|].
    rewrite Forall_forall in Hx, Hy. specialize (Hy _ Hin1). specialize (Hx _ Hin2). unfold cmp_le in Hx, Hy.
    assert (result_id x = result_id y) as Hid.
    { rewrite (cmp_opp (c := result_cmp) x y) in Hy. destruct (result_cmp x y) eqn:E; [|done|done].
      unfold result_cmp, then_by, by_text in E. destruct (desc (by_int _) x y); try done. destruct (desc (by_int _) x y); try done.
      by apply String.compare_eq_iff in E. }
    cbn in Hnd. apply NoDup_cons in Hnd as [Hnin _]. exfalso. apply Hnin. rewrite Hid. by apply list_elem_of_fmap_2. }
  f_equal. apply IH; [by inversion_clear Hall|by inversion_clear Hnd|by apply Permutation_cons_inv in Hperm|done].
Qed.

Lemma sort_results_sorted l : Forall number l → StronglySorted (cmp_le result_cmp) (sort_results l).
Proof.
  intros Hall. apply Sorted_le_cmp.
  - apply Forall_forall. intros r Hr. rewrite Forall_forall in Hall. apply Hall. unfold sort_results in Hr. by rewrite merge_sort_Permutation in Hr.
  - apply Sorted_merge_sort, _.
Qed.

(** ** Keeping the best while scanning *)

Lemma worst_from_spec results i w wr w' wr' : Forall number results → number wr → worst_from results i w wr = (w', wr') →
  number wr' ∧ result_le wr wr' ∧ (∀ r, r ∈ results → result_le r wr') ∧
  ((w', wr') = (w, wr) ∨ ∃ j, results !! j = Some wr' ∧ w' = (i + j)%nat).
Proof.
  intros Hall. revert i w wr. induction Hall as [|r results Hr Hall IH]; intros i w wr Hwr; cbn [worst_from].
  - intros [= <- <-]. split_and!; [done| |by intros r Hr%not_elem_of_nil|by left]. by destruct (result_le_total wr wr Hwr Hwr).
  - destruct (embeddingResultBetter wr r) eqn:Hb; intros E; apply IH in E as (Hn & Hle & Hmax & Hpos); try done.
    + assert (result_le wr r) as Hwr_r.
      { destruct (result_le_total wr r Hwr Hr) as [|H]; [done|]. unfold result_le in H. congruence. }
      split_and!; [done|by apply (result_le_trans wr r wr')| |].
      * intros x [->|Hx]%elem_of_cons; [done|by apply Hmax].
      * right. destruct Hpos as [[= -> ->]|(j & Hj & ->)]; [exists O; cbn; split; [done|lia]|exists (S j); cbn; split; [done|lia]].
    + split_and!; [done|done| |].
      * intros x [->|Hx]%elem_of_cons; [by apply (result_le_trans r wr wr')|by apply Hmax].
      * destruct Hpos as [?|(j & Hj & ->)]; [by left|right; exists (S j); cbn; split; [done|lia]].
Qed.

(** [results] are [k] best of what was seen. *)
Definition best_of (k : nat) (seen results : list EmbeddingSearchResult) : Prop :=
  ∃ rest, seen ≡ₚ results ++ rest ∧ (List.length results ≤ k)%nat ∧ (rest = [] ∨ List.length results = k) ∧
    ∀ r x, r ∈ results → x ∈ rest → result_le r x.

Lemma keep_best_of k seen results c : (0 < k)%nat → Forall number seen → number c → best_of k seen results →
  best_of k (c :: seen) (keep_best (Z.of_nat k) results c).
Proof.
  intros Hk Hall Hc (rest & Hperm & Hlen & Hfull & Hle). unfold keep_best. rewrite Hperm in Hall. apply Forall_app in Hall as [Hres Hrest].
  destruct (Z.ltb_spec (Z.of_nat (List.length results)) (Z.of_nat k)) as [Hlt|Hge].
  - destruct Hfull as [->|Hfull]; [|lia]. exists []. rewrite length_app. cbn. split_and!; [|lia|by left|by intros r x _ Hx%not_elem_of_nil].
    rewrite Hperm, !app_nil_r. apply Permutation_cons_append.
  - assert (List.length results = k) as Hk' by lia. destruct results as [|r0 results]; [cbn in Hk'; lia|].
    destruct (worst_from results 1 0 r0) as [w wr] eqn:Hw. inversion_clear Hres as [|? ? Hr0 Hres'].
    apply worst_from_spec in Hw as (Hwr & Hle0 & Hmax & Hpos); [|done..].
    assert ((r0 :: results) !! w = Some wr) as Hlook by (destruct Hpos as [[= -> ->]|(j & Hj & ->)]; [done|by cbn]).
    assert (∀ r, r ∈ r0 :: results → number r ∧ result_le r wr) as Hworst.
    { intros r [->|Hr]%elem_of_cons; [done|]. split; [|by apply Hmax]. rewrite Forall_forall in Hres'. by apply Hres'. }
    assert (∀ x, x ∈ rest → number x) as Hnum by (by apply Forall_forall).
    pose proof (list_elem_of_lookup_2 _ _ _ Hlook) as Hwr_in.
    destruct (embeddingResultBetter c wr) eqn:Hb.
    + assert (result_le c wr) as Hcw.
      { destruct (result_le_total c wr Hc Hwr) as [|H]; [done|]. unfold result_le in H. congruence. }
      exists (wr :: rest). rewrite length_insert. split_and!; [|done|by right|].
      * rewrite Hperm. rewrite <- (take_drop_middle _ _ _ Hlook) at 1. rewrite insert_take_drop by (by eapply lookup_lt_Some).
        rewrite <- !app_assoc. cbn. rewrite <- !Permutation_middle. by constructor.
      * intros r x Hr Hx. assert (r = c ∨ r ∈ r0 :: results) as [->|Hr'].
        { apply list_elem_of_lookup_1 in Hr as (j & Hj). apply list_lookup_insert_Some in Hj as [(_ & -> & _)|(_ & Hj)]; [by left|].
          right. by eapply list_elem_of_lookup_2. }
        -- apply elem_of_cons in Hx as [->|Hx]; [done|]. apply (result_le_trans c wr x); [done|done|by apply Hnum|done|by apply Hle].
        -- apply elem_of_cons in Hx as [->|Hx]; [by apply Hworst|by apply Hle].
    + exists (c :: rest). split_and!; [|done|by right|].
      * rewrite Hperm. apply Permutation_middle.
      * intros r x Hr [->|Hx]%elem_of_cons; [|by apply Hle]. apply (result_le_trans r wr c); [by apply Hworst|done|done|by apply Hworst|done].
Qed.

(** ** Search *)

(** Every row is found under its identifier. *)
Definition embeddings_wf (d : DB) : Prop := map_Forall (λ id row, oe_ID (er_embedding row) = id) (db_embeddings d).

Definition keep_scored (query : EmbeddingSearchQuery) (norm : float64) (results : list EmbeddingSearchResult) (e : ObjectEmbedding) :=
  match scored query norm e with Some candidate => keep_best (eq_Limit query) results candidate | None => results end.

Lemma search_rows_scan query norm found results :
  search_rows query norm found results = (try! es := scan_all true found in Ok (fold_left (keep_scored query norm) es results)).
Proof.
  revert results. induction found as [|row found IH]; intros results; [done|]. cbn [search_rows scan_all].
  destruct (scanEmbedding true row) as [e|err]; [|done]. cbn [result_bind]. rewrite IH. by destruct (scan_all true found).
Qed.

Lemma fold_best query norm k es : ∀ seen results, (0 < k)%nat → eq_Limit query = Z.of_nat k →
  Forall number (omap (scored query norm) es) → Forall number seen → best_of k seen results →
  best_of k (rev (omap (scored query norm) es) ++ seen) (fold_left (keep_scored query norm) es results).
Proof.
  induction es as [|e es IH]; intros seen results Hk Hlim Hes Hseen Hbest; [done|]. cbn [fold_left omap list_omap] in *.
  unfold keep_scored at 2. destruct (scored query norm e) as [c|] eqn:Hc; [|by apply IH].
  inversion_clear Hes as [|? ? Hnc Hrest]. cbn [rev]. rewrite <- app_assoc. apply IH; try done; [by constructor|].
  rewrite Hlim. by apply keep_best_of.
Qed.

(** The best [k], sorted, are what sorting everything puts first. *)
Lemma best_of_sorted k seen results all : best_of k seen results → seen ≡ₚ all → Forall number all → NoDup (result_id <$> all) →
  limit (Z.of_nat k) (sort_results results) = limit (Z.of_nat k) (sort_results all).
Proof.
  intros (rest & Hperm & Hlen & Hfull & Hle) Hall Hnum Hnd. rewrite Hall in Hperm.
  pose proof Hnum as Hnum'. rewrite Hperm in Hnum'. apply Forall_app in Hnum' as [Hn1 Hn2].
  assert (sort_results all = sort_results results ++ sort_results rest) as ->.
  { assert (sort_results all ≡ₚ all) as Hpa by apply merge_sort_Permutation.
    assert (sort_results results ≡ₚ results) as Hpr by apply merge_sort_Permutation.
    assert (sort_results rest ≡ₚ rest) as Hpx by apply merge_sort_Permutation.
    apply sorted_results_unique; [by rewrite Hpa, Hpr, Hpx|by rewrite Hpa|by rewrite Hpa|by apply sort_results_sorted|].
    assert (∀ r x, r ∈ sort_results results → x ∈ sort_results rest → cmp_le result_cmp r x) as Hcross.
    { intros r x Hr Hx. rewrite Hpr in Hr. rewrite Hpx in Hx. rewrite Forall_forall in Hn1, Hn2. apply result_le_cmp; auto. }
    pose proof (sort_results_sorted _ Hn1) as H1. pose proof (sort_results_sorted _ Hn2) as H2.
    clear -Hcross H1 H2. induction H1 as [|x l Hs IH Hx]; [done|]. cbn. constructor.
    - apply IH. intros r y Hr Hy. apply Hcross; [by right|done].
    - apply Forall_app. split; [done|]. apply Forall_forall. intros y Hy. apply Hcross; [by left|done]. }
  unfold limit. rewrite Nat2Z.id. destruct Hfull as [->|Hfull].
  - assert (sort_results [] = []) as -> by done. by rewrite app_nil_r.
  - assert (List.length (sort_results results) = k) as Hk by (unfold sort_results; by rewrite merge_sort_Permutation).
    rewrite <- Hk at 2. rewrite take_app_length. apply take_ge. lia.
Qed.

(** What a normalised query satisfies. *)
Lemma normalized_query query q : normalizeEmbeddingSearchQuery query = Ok q →
  finite_values (eq_Values q) ∧ Z.of_nat (List.length (eq_Values q)) <= maximumEmbeddingDimensions ∧ 1 <= eq_Limit q <= maximumEmbeddingResults.
Proof.
  unfold normalizeEmbeddingSearchQuery. set (q0 := if (eq_Metric _ =? "")%string then _ else _).
  destruct (_ || _); [discriminate|]. destruct (Z.ltb_spec maximumEmbeddingDimensions (Z.of_nat (List.length (eq_Values q0)))) as [|Hdim]; [discriminate|].
  destruct (negb _); [discriminate|]. intros (data & Henc & H)%result_bind_Ok. revert H. destruct (_ && _); [discriminate|]. intros [= <-].
  apply encoded_finite in Henc. unfold maximumEmbeddingResults.
  repeat match goal with |- context [if ?a <=? ?b then _ else _] => destruct (Z.leb_spec a b) end;
  repeat match goal with |- context [if ?a <? ?b then _ else _] => destruct (Z.ltb_spec a b) end;
  rsimpl; split_and!; try done; try lia.
Qed.

Lemma scan_all_rows found es : scan_all true found = Ok es →
  Forall2 (λ row e, ∃ values, decodeFloat32Vector (er_blob row) (oe_Dimensions (er_embedding row)) = Ok values ∧
                              e = (er_embedding row) <| oe_Values := values |>) found es.
Proof.
  revert es. induction found as [|row found IH]; intros es; cbn [scan_all]; [by intros [= <-]; constructor|].
  intros (e & He & (l & Hl & [= <-])%result_bind_Ok)%result_bind_Ok. constructor; [|by apply IH].
  unfold scanEmbedding in He. destruct (decodeFloat32Vector _ _) as [values|] eqn:Hd; [|discriminate]. injection He as <-. by eexists.
Qed.

Lemma decoded_vector data dimensions values : decodeFloat32Vector data dimensions = Ok values → finite_values values.
Proof.
  unfold decodeFloat32Vector. destruct (_ || _) eqn:H; [discriminate|]. intros Hd. by apply decoded_finite in Hd.
Qed.

Lemma scanned_numbers query found es : finite_values (eq_Values query) → Z.of_nat (List.length (eq_Values query)) <= maximumEmbeddingDimensions →
  scan_all true found = Ok es → Forall number (omap (scored query (vectorSquaredNorm (eq_Values query))) es).
Proof.
  intros Hq Hdim Hes%scan_all_rows. induction Hes as [|row e found es (values & Hd & ->) Hes IH]; [constructor|]. cbn [omap list_omap].
  destruct (scored _ _ _) as [c|] eqn:Hc; [|done]. constructor; [|done]. unfold scored in Hc. rsimpl.
  destruct (embeddingScoreWithQueryNorm _ _ _ _) as [score|] eqn:Hs; [|discriminate].
  assert (is_nan score = false) as Hn by (eapply score_is_number; [exact Hq|by eapply decoded_vector|exact Hdim|exact Hs]).
  destruct (match eq_MinScore query with Some _ => _ | None => _ end); [discriminate|]. by injection Hc as <-.
Qed.

Lemma scanned_ids query norm found es : scan_all true found = Ok es → NoDup ((λ row, oe_ID (er_embedding row)) <$> found) →
  NoDup (result_id <$> omap (scored query norm) es).
Proof.
  intros Hes%scan_all_rows. induction Hes as [|row e found es (values & _ & ->) Hes IH]; [constructor|]. cbn [fmap list_fmap].
  intros [Hnin Hnd]%NoDup_cons. cbn [omap list_omap]. destruct (scored _ _ _) as [c|] eqn:Hc; [|by apply IH].
  cbn [fmap list_fmap]. apply NoDup_cons. split; [|by apply IH]. intros (c' & Hid & Hin)%list_elem_of_fmap. apply Hnin.
  apply list_elem_of_omap in Hin as (e' & He' & Hc'). assert (∀ x r, scored query norm x = Some r → result_id r = oe_ID x) as Hsc.
  { intros x r. unfold scored. destruct (embeddingScoreWithQueryNorm _ _ _ _); [|discriminate].
    destruct (match eq_MinScore query with Some _ => _ | None => _ end); [discriminate|]. by intros [= <-]. }
  rewrite (Hsc _ _ Hc), (Hsc _ _ Hc') in Hid. rsimpl. rewrite Hid.
  apply list_elem_of_lookup_1 in He' as (i & Hi). destruct (Forall2_lookup_r _ _ _ _ _ Hes Hi) as (row' & Hrow & v & _ & ->). rsimpl.
  apply list_elem_of_fmap. exists row'. split; [done|]. by eapply list_elem_of_lookup_2.
Qed.

Lemma candidates_ids query d : embeddings_wf d → NoDup ((λ row, oe_ID (er_embedding row)) <$> search_candidates query d).
Proof.
  intros Hwf. set (f := λ row : EmbeddingRow, oe_ID (er_embedding row)). unfold search_candidates, limit. fold f. rewrite fmap_take.
  assert (NoDup (f <$> order_by (by_text f) (where_ (search_matches query) (rows (db_embeddings d))))) as Hall;
    [|by rewrite <- (take_drop (Z.to_nat (eq_MaxCandidates query))) in Hall; apply NoDup_app in Hall as [? _]].
  rewrite order_by_perm. unfold where_.
  assert (NoDup (f <$> rows (db_embeddings d))) as Hnd.
  { unfold rows. rewrite <- list_fmap_compose. erewrite list_fmap_ext with (g := fst); [apply NoDup_fst_map_to_list|].
    intros i [k v] Hi. cbn. apply Hwf. apply elem_of_map_to_list. by eapply list_elem_of_lookup_2. }
  induction (rows (db_embeddings d)) as [|x l IH]; [constructor|]. cbn in Hnd |- *. apply NoDup_cons in Hnd as [Hnin Hnd].
  destruct (search_matches query x); [|by apply IH]. cbn. apply NoDup_cons. split; [|by apply IH].
  intros (y & Hy & Hin)%list_elem_of_fmap. apply Hnin. apply list_elem_of_fmap. exists y. split; [done|].
  by apply list_elem_of_In, filter_In in Hin as [Hin%list_elem_of_In _].
Qed.

(** C23. Embedding search returns what scoring every candidate, sorting all of them
    by falling score and identifier, and taking the first would return, however
    the rows come and although the scan only ever keeps [limit] results; an
    unreadable candidate is the error of the whole search. *)
Theorem search_exact `{Env} query w :
  embeddings_wf (w_db w) → env_db_fault (w_stmts w) = None →
  (SearchObjectEmbeddings query w).1 =
    (try! q := normalizeEmbeddingSearchQuery query in
     try! es := scan_all true (search_candidates q (w_db w)) in
     Ok (limit (eq_Limit q) (sort_results (omap (scored q (vectorSquaredNorm (eq_Values q))) es)))).
Proof.
  intros Hwf Hfault. unfold SearchObjectEmbeddings, lift. destruct (normalizeEmbeddingSearchQuery query) as [q|e] eqn:Hq; [|done].
  apply normalized_query in Hq as (Hfin & Hdim & Hlim). cbn [result_bind]. unfold bind_ok, bind, ret. cbn [fst snd].
  unfold sql_read, sql. rewrite Hfault. rewrite search_rows_scan. destruct (scan_all true (search_candidates q (w_db w))) as [es|e] eqn:Hes; [|done].
  cbn. f_equal. set (k := Z.to_nat (eq_Limit q)). assert (eq_Limit q = Z.of_nat k) as Hk by lia. rewrite Hk.
  pose proof (scanned_numbers _ _ _ Hfin Hdim Hes) as Hnum. set (norm := vectorSquaredNorm (eq_Values q)) in *.
  eapply best_of_sorted; [apply (fold_best q norm k es []); try done; [lia|]| |done|].
  - exists []. split_and!; [done|cbn; lia|by left|by intros r x _ Hx%not_elem_of_nil].
  - rewrite app_nil_r. symmetry. apply Permutation_rev.
  - eapply scanned_ids; [done|]. by apply candidates_ids.
Qed.

(** Two stored vectors and a query for the nearer of them. *)
Definition demo_vector (id : string) (values : list float32) : EmbeddingRow :=
  MkEmbeddingRow (zero_ObjectEmbedding <| oe_ID := id |> <| oe_Model := "clip" |> <| oe_Metric := "dot" |> <| oe_Dimensions := 1 |>)
    (match encodeFloat32Vector values with Ok data => data | Err _ => "" end).

Definition demo_vectors : DB :=
  empty_DB <| db_embeddings := {[ "a" := demo_vector "a" [0x3F800000]; "b" := demo_vector "b" [0x40000000] ]} |>.

Definition demo_query : EmbeddingSearchQuery :=
  zero_EmbeddingSearchQuery <| eq_Model := "clip" |> <| eq_Metric := "dot" |> <| eq_Values := [0x3F800000] |> <| eq_Limit := 1 |>.

Lemma search_exact_witness :
  let E := demo_env in
  (SearchObjectEmbeddings demo_query (start demo_vectors)).1 =
    (try! q := normalizeEmbeddingSearchQuery demo_query in
     try! es := scan_all true (search_candidates q demo_vectors) in
     Ok (limit (eq_Limit q) (sort_results (omap (scored q (vectorSquaredNorm (eq_Values q))) es)))).
Proof.
  intros E. apply (search_exact demo_query (start demo_vectors)); [|reflexivity].
  apply map_Forall_insert_2; [reflexivity|]. by apply map_Forall_singleton.
Defined.

