(* ===== verification/Access.v ===== *)
(** S3 access credentials: the table ([store/access_inventory.go]), their
    administration ([app/access.go]) and what a principal may do
    ([gateway/auth.go]). *)
From S2P Require Import Prelude GoTime Sha256 Json Text Base64 Domain World Sql StoreProviders StoreEvents.

(** ** Scope *)

(** [gateway.Principal] *)
Record Principal : Type := MkPrincipal {
  pr_ID : string;
  pr_AccessKey : string;
  pr_Role : string;
  pr_Permissions : list string;
  pr_BucketPatterns : list string;
  pr_PrefixPatterns : list string }.

Definition zero_Principal : Principal := MkPrincipal "" "" "" [] [] [].

Definition principalFromCredential (c : AccessCredential) : Principal :=
  MkPrincipal (ac_ID c) (ac_AccessKey c) (ac_Role c) (ac_Permissions c) (ac_BucketPatterns c) (ac_PrefixPatterns c).

Definition matches_pattern (value pattern : string) : bool :=
  (pattern =? "*")%string || (pattern =? value)%string
  || match path_match pattern value with Some matched => matched | None => false end
  || has_suffix pattern "*" && has_prefix value (trim_suffix pattern "*").

Definition matchesAny (patterns : list string) (value : string) : bool := existsb (matches_pattern value) patterns.

Definition defaultPatterns (patterns : list string) : list string := match patterns with [] => ["*"] | _ => patterns end.

Definition read_only_permission (permission : string) : bool :=
  has_prefix permission "s3:Get" || (permission =? "s3:ListBucket")%string || (permission =? "s3:ListAllMyBuckets")%string.

Definition principalAllows (p : Principal) (permission bucket key : string) : bool :=
  (pr_Role p =? AccessRoleAdmin)%string ||
  negb ((pr_Role p =? AccessRoleReadOnly)%string && negb (read_only_permission permission))
  && negb (match pr_Permissions p with [] => false | l => negb (matchesAny l permission) end)
  && negb (negb (bucket =? "")%string && negb (matchesAny (defaultPatterns (pr_BucketPatterns p)) bucket))
  && negb (negb (key =? "")%string && negb (matchesAny (defaultPatterns (pr_PrefixPatterns p)) key)).

(** ** The table *)

(** UNIQUE(access_key) besides the primary key. *)
Definition upsert_credential_row (c : AccessCredential) (d : DB) : result DB :=
  match find_row (λ x, (ac_AccessKey x =? ac_AccessKey c)%string && negb (ac_ID x =? ac_ID c)%string) (db_credentials d) with
  | Some _ => Err (constraint_failed "UNIQUE")
  | None =>
      let row := c <| ac_SecretKey := "" |> in
      Ok (d <| db_credentials ::= insert (ac_ID c)
            (match db_credentials d !! ac_ID c with
             | Some old => row <| ac_LastUsedAt := ac_LastUsedAt old |> <| ac_CreatedAt := ac_CreatedAt old |>
             | None => row
             end) |>)
  end.

(** [app.AccessCredentialInput] *)
Record AccessCredentialInput : Type := MkAccessCredentialInput {
  ai_ID : string; ai_Name : string; ai_Role : string; ai_Permissions : list string;
  ai_BucketPatterns : list string; ai_PrefixPatterns : list string; ai_Enabled : bool; ai_ExpiresAt : Time }.

(** Trimmed, without empty texts and repetitions. *)
Fixpoint clean_patterns (seen values : list string) : list string :=
  match values with
  | [] => []
  | value :: rest =>
      let value := trim_space value in
      if (value =? "")%string || bool_decide (value ∈ seen) then clean_patterns seen rest
      else value :: clean_patterns (value :: seen) rest
  end.

Definition cleanPatterns (values : list string) : list string := clean_patterns [] values.
Definition cleanPatternsDefault (values : list string) : list string := defaultPatterns (cleanPatterns values).

Definition normalizeAccessCredentialInput (input : AccessCredentialInput) : result AccessCredential :=
  let role := trim_space (ai_Role input) in
  let role := if (role =? "")%string then AccessRoleReadWrite else role in
  try! _ := guard_err (negb (existsb (String.eqb role) [AccessRoleAdmin; AccessRoleReadWrite; AccessRoleReadOnly]))
              "role must be admin, read-write or read-only" in
  let name := trim_space (ai_Name input) in
  try! _ := guard_err (name =? "")%string "name is required" in
  Ok (zero_AccessCredential <| ac_ID := trim_space (ai_ID input) |> <| ac_Name := name |> <| ac_Role := role |>
        <| ac_Permissions := cleanPatterns (ai_Permissions input) |>
        <| ac_BucketPatterns := cleanPatternsDefault (ai_BucketPatterns input) |>
        <| ac_PrefixPatterns := cleanPatternsDefault (ai_PrefixPatterns input) |>
        <| ac_Enabled := ai_Enabled input |> <| ac_ExpiresAt := ai_ExpiresAt input |>).

(** The bytes that a hex text writes. *)
Fixpoint unhex (s : string) : list Z :=
  match s with
  | String a (String b s) =>
      let v c := let b := byte_of c in if b <? 58 then b - 48 else b - 87 in v a * 16 + v b :: unhex s
  | _ => []
  end.

Section access.
Context `{Env}.

Definition UpsertAccessCredential (credential : AccessCredential) : M (result unit) :=
  let! t := now in
  let credential := if is_zero (ac_CreatedAt credential) then credential <| ac_CreatedAt := t |> else credential in
  let credential := credential <| ac_UpdatedAt := t |> in
  wrap_err "upsert access credential" (sql_write (upsert_credential_row credential)).

Definition GetAccessCredentialByAccessKey (accessKey : string) : M (result AccessCredential) :=
  sql_read (λ d, match find_row (λ c, (ac_AccessKey c =? accessKey)%string) (db_credentials d) with
                 | Some c => Ok c | None => not_found end).

Definition GetAccessCredential (id : string) : M (result AccessCredential) :=
  sql_read (λ d, match db_credentials d !! id with Some c => Ok c | None => not_found end).

Definition ListAccessCredentials : M (result (list AccessCredential)) :=
  sql_read (λ d, Ok (order_by (desc (by_time ac_CreatedAt)) (rows (db_credentials d)))).

Definition DeleteAccessCredential (id : string) : M (result unit) :=
  sql_write (λ d, Ok (d <| db_credentials ::= delete id |>)).

Definition TouchAccessCredential (id : string) : M (result unit) :=
  let! t := now in
  sql_write (λ d, Ok (d <| db_credentials ::= λ m, (update_row id (λ _, true) (λ c, c <| ac_LastUsedAt := t |>) m).2 |>)).

(** [randomSecret]: random bytes in the raw URL alphabet. *)
Definition randomSecret (bytes : nat) : M string :=
  let! hex := randomIdentifier "" bytes in ret (text_of_bytes (encode_raw url_alphabet (unhex hex))).

(** [Secrets.Encrypt]: the nonce is a random draw. *)
Definition encrypt (plain : string) : M (result string) :=
  λ w, (env_encrypt (w_draws w) plain, w <| w_draws ::= S |>).

(** A created or rotated credential and its secret, which is not kept. *)
Definition CreatedAccessCredential : Type := AccessCredential * string.

Definition CreateAccessCredential (input : AccessCredentialInput) : M (result CreatedAccessCredential) :=
  let? credential := lift (normalizeAccessCredentialInput input) in
  let! credential := (if (ac_ID credential =? "")%string
                      then let! id := randomIdentifier "cred-" 8 in ret (credential <| ac_ID := id |>)
                      else ret credential) in
  let! key := randomIdentifier "" 10 in
  let credential := credential <| ac_AccessKey := "BMUX" +:+ upper_ascii key |> in
  let! secret := randomSecret 32 in
  let? sealed := encrypt secret in
  let credential := credential <| ac_SecretEncrypted := sealed |> in
  let? _ := UpsertAccessCredential credential in
  ret_ok (credential <| ac_SecretEncrypted := "" |>, secret).

Definition UpdateAccessCredential (id : string) (input : AccessCredentialInput) : M (result AccessCredential) :=
  let? existing := GetAccessCredential id in
  let? updated := lift (normalizeAccessCredentialInput input) in
  let updated := updated <| ac_ID := ac_ID existing |> <| ac_AccessKey := ac_AccessKey existing |>
                         <| ac_SecretEncrypted := ac_SecretEncrypted existing |> <| ac_CreatedAt := ac_CreatedAt existing |> in
  let? _ := UpsertAccessCredential updated in
  ret_ok (updated <| ac_SecretEncrypted := "" |>).

Definition RotateAccessCredential (id : string) : M (result CreatedAccessCredential) :=
  let? credential := GetAccessCredential id in
  let! secret := randomSecret 32 in
  let? sealed := encrypt secret in
  let credential := credential <| ac_SecretEncrypted := sealed |> in
  let? _ := UpsertAccessCredential credential in
  ret_ok (credential <| ac_SecretEncrypted := "" |>, secret).

Definition ResolveS3Credential (accessKey : string) : M (result AccessCredential) :=
  let? credential := GetAccessCredentialByAccessKey accessKey in
  match env_decrypt (ac_SecretEncrypted credential) with
  | Ok secret => ret_ok (credential <| ac_SecretKey := secret |>)
  | Err e => ret_err (ErrWrap "decrypt access credential" e)
  end.
End access.

(** ** The scope of a credential *)

(** What a pattern covers: the text itself, what [path.Match] says it matches
    within path elements, and, if it ends in a star, every text that continues
    what is before the star, across path elements. *)
Definition covers (p v : string) : Prop :=
  p = v ∨ path_match p v = Some true ∨ ∃ q rest, p = q +:+ "*" ∧ v = q +:+ rest.

Definition covered (patterns : list string) (v : string) : Prop := ∃ p, p ∈ patterns ∧ covers p v.

(** What the role for readers may do. *)
Definition may_read (permission : string) : Prop :=
  (∃ rest, permission = "s3:Get" +:+ rest) ∨ permission = "s3:ListBucket" ∨ permission = "s3:ListAllMyBuckets".

(** What a principal is permitted. *)
Definition permits (p : Principal) (permission bucket key : string) : Prop :=
  pr_Role p = "admin" ∨
  (pr_Role p = "read-only" → may_read permission) ∧
  (pr_Permissions p = [] ∨ covered (pr_Permissions p) permission) ∧
  (bucket = "" ∨ pr_BucketPatterns p = [] ∨ covered (pr_BucketPatterns p) bucket) ∧
  (key = "" ∨ pr_PrefixPatterns p = [] ∨ covered (pr_PrefixPatterns p) key).

(** A pattern without metacharacters but a star at its end covers no more than
    that: [path.Match] adds nothing. *)
Definition simple_pattern (p : string) : Prop := plain_text p = true ∨ ∃ q, p = q +:+ "*" ∧ plain_text q = true.

Lemma strip_prefix q v t : strip (bytes_of q) (bytes_of v) = Some t → has_prefix v q = true.
Proof.
  intros H. apply strip_Some in H. apply has_prefix_spec.
  exists (string_drop (String.length q) v).
  assert (∀ q v, bytes_of v = bytes_of q ++ t → v = q +:+ string_drop (String.length q) v) as Hd; [|by apply Hd].
  clear. induction q as [|a q IH]; intros v H; [by destruct v|].
  destruct v as [|b v]; [done|]. injection H as Hb H. apply byte_of_inj in Hb as ->.
  rewrite append_cons. cbn [String.length string_drop]. f_equal. by apply IH.
Qed.

Lemma simple_covers p v : simple_pattern p → covers p v ↔ p = v ∨ ∃ q, p = q +:+ "*" ∧ has_prefix v q = true.
Proof.
  intros Hs. unfold covers. split.
  - intros [->|[Hm|(q & rest & -> & ->)]]; [by left| |right; exists q; split; [done|]; apply has_prefix_spec; by eexists].
    destruct Hs as [Hp|(q & -> & Hq)].
    + rewrite path_match_plain in Hm by done. left. injection Hm as Hm. by apply String.eqb_eq.
    + right. exists q. split; [done|]. rewrite path_match_star_suffix in Hm by done.
      destruct (strip _ _) as [t|] eqn:Ht; [|done]. by eapply strip_prefix.
  - intros [->|(q & -> & [rest ->]%has_prefix_spec)]; [by left|]. right; right. by exists q, rest.
Qed.

Lemma matches_pattern_spec p v : matches_pattern v p = true ↔ covers p v.
Proof.
  unfold matches_pattern, covers. rewrite !orb_true_iff, andb_true_iff, !String.eqb_eq.
  assert (match path_match p v with Some matched => matched | None => false end = true ↔ path_match p v = Some true) as ->
    by (destruct (path_match p v) as [[]|]; naive_solver).
  assert (has_suffix p "*" = true ∧ has_prefix v (trim_suffix p "*") = true ↔ ∃ q rest, p = q +:+ "*" ∧ v = q +:+ rest) as ->.
  { split.
    - intros [[q ->]%has_suffix_spec Hpre]. rewrite trim_suffix_app in Hpre. apply has_prefix_spec in Hpre as [rest ->]. by exists q, rest.
    - intros (q & rest & -> & ->). split; [apply has_suffix_spec; by exists q|]. rewrite trim_suffix_app. apply has_prefix_spec. by exists rest. }
  split; [intros [[[->| ->]|]|]|]; try tauto.
  - right; right. by exists "", v.
Qed.

Lemma matchesAny_spec patterns v : matchesAny patterns v = true ↔ covered patterns v.
Proof.
  unfold matchesAny, covered. rewrite existsb_exists. setoid_rewrite <- list_elem_of_In.
  split; intros (p & Hp & Hm); exists p; (split; [done|]); by apply matches_pattern_spec.
Qed.

Lemma read_only_spec permission : read_only_permission permission = true ↔ may_read permission.
Proof. unfold read_only_permission, may_read. rewrite !orb_true_iff, !String.eqb_eq, has_prefix_spec. tauto. Qed.

Lemma negb_and_negb a b : negb (a && negb b) = true ↔ (a = true → b = true).
Proof. destruct a, b; naive_solver. Qed.

Lemma principal_permits p permission bucket key :
  principalAllows p permission bucket key = true ↔ permits p permission bucket key.
Proof.
  assert (∀ l v, matchesAny (defaultPatterns l) v = true ↔ l = [] ∨ covered l v) as Hdefault.
  { intros [|x l] v; cbn [defaultPatterns]; rewrite matchesAny_spec; [|naive_solver].
    split; [by left|]. intros _. exists "*". split; [by apply list_elem_of_here|]. right; right. by exists "", v. }
  unfold principalAllows, permits. rewrite orb_true_iff, !andb_true_iff, !negb_and_negb, !negb_true_iff, !String.eqb_neq, !String.eqb_eq, !Hdefault.
  assert (match pr_Permissions p with [] => false | l => negb (matchesAny l permission) end = false
          ↔ pr_Permissions p = [] ∨ covered (pr_Permissions p) permission) as ->.
  { rewrite <- matchesAny_spec. destruct (pr_Permissions p); [naive_solver|]. rewrite negb_false_iff. naive_solver. }
  rewrite read_only_spec. unfold AccessRoleAdmin, AccessRoleReadOnly. destruct (decide (bucket = "")), (decide (key = "")); naive_solver.
Qed.

(** C20. What a credential allows is exactly its scope, whatever its role and
    its patterns: an administrator may do everything; another principal may
    perform an operation if and only if its role may (the role for readers only
    gets and lists), its permission list is empty or covers the operation, and
    bucket and key, when the operation has them, are covered by its (default:
    all) bucket and prefix patterns. A pattern covers the text it is, the texts
    [path.Match] matches and, with a star at its end, every continuation. *)
Theorem principal_allows_exact p permission bucket key :
  principalAllows p permission bucket key = true ↔ permits p permission bucket key.
Proof. apply principal_permits. Qed.
