(* ===== verification/SecretBox.v ===== *)
(** [internal/crypto/secretbox.go]: the box that seals what the database must
    not show. AES and GCM are the Go library's; what the box relies on are the
    laws of [AEADLaws]. With them what was sealed is opened, no call panics, and
    the secret of an access credential is the one its owner was told. *)
From S2P Require Import Prelude GoTime Sha256 Json Text Domain World Sql StoreProviders StoreEvents Base64 Hmac Access.

(** ** The library *)

(** [crypto/aes] and [crypto/cipher]. A nonce of a wrong length makes [Seal] and
    [Open] panic, which is [None]. *)
Class AEAD : Type := {
  Block : Type;
  GCM : Type;
  NewCipher : list Z → result Block;
  NewGCM : Block → result GCM;
  NonceSize : GCM → nat;
  Seal : GCM → list Z → list Z → option (list Z);           (* nonce, text: appended to the nonce *)
  Open : GCM → list Z → list Z → option (result (list Z)) }. (* nonce, sealed text *)

Definition octets (l : list Z) : Prop := Forall (λ b, 0 ≤ b < 256) l.

Class AEADLaws `{AEAD} : Prop := {
  cipher_key key : List.length key = 32%nat → ∃ block g, NewCipher key = Ok block ∧ NewGCM block = Ok g;
  seal_total g nonce plain : List.length nonce = NonceSize g → is_Some (Seal g nonce plain);
  seal_octets g nonce plain sealed : octets plain → Seal g nonce plain = Some sealed → octets sealed;
  open_total g nonce sealed : List.length nonce = NonceSize g → is_Some (Open g nonce sealed);
  open_seal g nonce plain sealed : octets plain → Seal g nonce plain = Some sealed → Open g nonce sealed = Some (Ok plain) }.

(** [io.ReadFull(rand.Reader, nonce)]: the buffer is filled or the read fails. *)
Definition fills (draw : nat → result (list Z)) : Prop := ∀ n l, draw n = Ok l → List.length l = n ∧ octets l.

(** ** The box *)

Definition decodeKey (value : string) : list Z :=
  match base64std_decode value with
  | Some decoded => if Nat.eqb (List.length decoded) 32 then decoded else sha256_bytes (bytes_of value)
  | None => sha256_bytes (bytes_of value)
  end.

Section box.
Context `{AEAD}.

Definition NewSecretBox (masterKey : string) : result GCM :=
  match NewCipher (decodeKey masterKey) with
  | Err e => Err (ErrWrap "create cipher" e)
  | Ok block => match NewGCM block with Err e => Err (ErrWrap "create gcm" e) | Ok g => Ok g end
  end.

Definition Encrypt (g : GCM) (draw : nat → result (list Z)) (plain : string) : option (result string) :=
  match draw (NonceSize g) with
  | Err e => Some (Err (ErrWrap "generate nonce" e))
  | Ok nonce => sealed ← Seal g nonce (bytes_of plain); Some (Ok (base64std_encode (nonce ++ sealed)))
  end.

Definition Decrypt (g : GCM) (base64_error : error) (encoded : string) : option (result string) :=
  match base64std_decode encoded with
  | None => Some (Err (ErrWrap "decode secret" base64_error))
  | Some sealed =>
      if (List.length sealed <? NonceSize g)%nat then Some (Err (ErrText "decode secret: ciphertext too short"))
      else
        opened ← Open g (take (NonceSize g) sealed) (drop (NonceSize g) sealed);
        Some (match opened with Ok plain => Ok (text_of_bytes plain) | Err e => Err (ErrWrap "decrypt secret" e) end)
  end.

(** *** What it promises *)

Lemma decodeKey_length value : List.length (decodeKey value) = 32%nat.
Proof.
  unfold decodeKey. destruct (base64std_decode value) as [decoded|]; [|apply sha256_bytes_length].
  destruct (Nat.eqb_spec (List.length decoded) 32); [done|apply sha256_bytes_length].
Qed.

Context `{!AEADLaws}.

(** Every master key makes a box. *)
Lemma NewSecretBox_total masterKey : ∃ g, NewSecretBox masterKey = Ok g.
Proof.
  unfold NewSecretBox. destruct (cipher_key (decodeKey masterKey) (decodeKey_length _)) as (block & g & -> & ->). by exists g.
Qed.

Lemma bytes_of_octets s : octets (bytes_of s).
Proof. unfold octets, bytes_of. apply Forall_fmap, Forall_true. intros a. apply byte_of_range. Qed.

Lemma secret_roundtrip g draw base64_error plain encoded : fills draw →
  Encrypt g draw plain = Some (Ok encoded) → Decrypt g base64_error encoded = Some (Ok plain).
Proof.
  intros Hdraw. unfold Encrypt. destruct (draw (NonceSize g)) as [nonce|] eqn:Hn; [|done].
  destruct (Hdraw _ _ Hn) as [Hlen Hnonce]. destruct (Seal g nonce (bytes_of plain)) as [sealed|] eqn:Hs; [|done].
  intros [= <-]. unfold Decrypt. rewrite base64std_roundtrip.
  2: { apply Forall_app. split; [exact Hnonce|]. by apply (seal_octets g nonce (bytes_of plain)); [apply bytes_of_octets|]. }
  rewrite (proj2 (Nat.ltb_ge _ _)) by (rewrite length_app; lia).
  rewrite take_app_length', drop_app_length' by done. rewrite (open_seal _ _ _ _ (bytes_of_octets plain) Hs). cbn. by rewrite text_of_bytes_of.
Qed.

Lemma Encrypt_total g draw plain : fills draw → is_Some (Encrypt g draw plain).
Proof.
  intros Hdraw. unfold Encrypt. destruct (draw (NonceSize g)) as [nonce|] eqn:Hn; [|by eexists].
  destruct (seal_total g nonce (bytes_of plain)) as [sealed Hs]; [by apply Hdraw in Hn as []|]. rewrite Hs. by eexists.
Qed.

(** Whatever text is in the database, no call panics. *)
Lemma Decrypt_total g base64_error encoded : is_Some (Decrypt g base64_error encoded).
Proof.
  unfold Decrypt. destruct (base64std_decode encoded) as [sealed|]; [|by eexists].
  destruct (Nat.ltb_spec (List.length sealed) (NonceSize g)) as [|Hlen]; [by eexists|].
  destruct (open_total g (take (NonceSize g) sealed) (drop (NonceSize g) sealed)) as [opened ->]; [rewrite length_take; lia|by eexists].
Qed.
End box.

(** ** Access credentials *)

Section credentials.
Context `{Env} `{AEAD} `{!AEADLaws}.
Variables (g : GCM) (draw : nat → nat → result (list Z)) (base64_error : error).

(** The service's ciphers are those of a box. *)
Class Boxed : Prop := {
  boxed_draw n : fills (draw n);
  boxed_encrypt n plain : Encrypt g (draw n) plain = Some (env_encrypt n plain);
  boxed_decrypt encoded : Decrypt g base64_error encoded = Some (env_decrypt encoded) }.
Context `{!Boxed}.

Lemma encrypt_decrypt n plain encoded : env_encrypt n plain = Ok encoded → env_decrypt encoded = Ok plain.
Proof using All.
  intros He. pose proof (boxed_encrypt n plain) as Hb. rewrite He in Hb.
  apply (secret_roundtrip g (draw n) base64_error) in Hb; [|apply boxed_draw]. rewrite boxed_decrypt in Hb. by injection Hb.
Qed.

Definition credentials_keyed (d : DB) : Prop := ∀ k c, db_credentials d !! k = Some c → ac_ID c = k.

(** The row of a stored credential is the only one with its access key. *)
Lemma upserted_found c d d' : credentials_keyed d → upsert_credential_row c d = Ok d' →
  ∃ row, find_row (λ x, (ac_AccessKey x =? ac_AccessKey c)%string) (db_credentials d') = Some row
    ∧ ac_ID row = ac_ID c ∧ ac_SecretEncrypted row = ac_SecretEncrypted c.
Proof.
  intros Hk. unfold upsert_credential_row. destruct (find_row _ _) eqn:Hfree; [done|]. intros [= <-]. cbn [db_credentials]. rsimpl.
  set (row := match db_credentials d !! ac_ID c with Some _ => _ | None => _ end).
  assert (ac_ID row = ac_ID c ∧ ac_AccessKey row = ac_AccessKey c ∧ ac_SecretEncrypted row = ac_SecretEncrypted c) as (Hid & Hkey & Hsec)
    by (unfold row; destruct (db_credentials d !! ac_ID c); by rsimpl).
  destruct (find_row _ (<[ac_ID c := row]> _)) as [found|] eqn:Hf.
  - exists found. split; [done|]. apply find_some in Hf as [Hin Heq%String.eqb_eq].
    apply list_elem_of_In, elem_of_rows in Hin as [k Hin]. apply lookup_insert_Some in Hin as [[_ <-]|[Hne Hin]]; [done|].
    assert (found ∈ rows (db_credentials d)) as Hrow by (apply elem_of_rows; by exists k).
    apply list_elem_of_In in Hrow. apply (find_none _ _ Hfree) in Hrow. rewrite Heq, String.eqb_refl, (Hk _ _ Hin) in Hrow.
    apply negb_false_iff, String.eqb_eq in Hrow. congruence.
  - assert (row ∈ rows (<[ac_ID c := row]> (db_credentials d))) as Hin by (apply elem_of_rows; exists (ac_ID c); apply lookup_insert_eq).
    apply list_elem_of_In in Hin. apply (find_none _ _ Hf) in Hin. by rewrite Hkey, String.eqb_refl in Hin.
Qed.
Lemma stored_found c w w1 : credentials_keyed (w_db w) → UpsertAccessCredential c w = (Ok tt, w1) →
  ∃ row, find_row (λ x, (ac_AccessKey x =? ac_AccessKey c)%string) (db_credentials (w_db w1)) = Some row
    ∧ ac_ID row = ac_ID c ∧ ac_SecretEncrypted row = ac_SecretEncrypted c.
Proof.
  intros Hk Hrun. unfold UpsertAccessCredential in Hrun. run_inv Hrun as t v Ht. injection Ht as _ <-. cbv zeta in Hrun.
  unfold wrap_err in Hrun. run_inv Hrun as r v Hw. destruct r as [[]|]; [|discriminate]. injection Hrun as <-.
  apply sql_write_inv, upserted_found in Hw; [|done]. revert Hw. destruct (is_zero _); rsimpl; done.
Qed.

(** The secret that was sealed is what the access key resolves to, as long as
    the credentials stay as they are. *)
Lemma stored_secret_resolves c secret n w w1 w2 : credentials_keyed (w_db w) →
  env_encrypt n secret = Ok (ac_SecretEncrypted c) → UpsertAccessCredential c w = (Ok tt, w1) →
  db_credentials (w_db w2) = db_credentials (w_db w1) → env_db_fault (w_stmts w2) = None →
  ∃ found, (ResolveS3Credential (ac_AccessKey c) w2).1 = Ok found ∧ ac_ID found = ac_ID c ∧ ac_SecretKey found = secret.
Proof using All.
  intros Hk He Hrun Hsame Hup. destruct (stored_found c w w1 Hk Hrun) as (row & Hrow & Hid & Hsealed).
  exists (row <| ac_SecretKey := secret |>). split; [|by rsimpl].
  unfold ResolveS3Credential, GetAccessCredentialByAccessKey, bind_ok, bind, sql_read, sql. rewrite Hup, Hsame, Hrow. cbn.
  by rewrite Hsealed, (encrypt_decrypt n secret _ He).
Qed.

Definition resolves_to (c : AccessCredential) (secret : string) (w : World) : Prop :=
  ∃ found, (ResolveS3Credential (ac_AccessKey c) w).1 = Ok found ∧ ac_ID found = ac_ID c ∧ ac_SecretKey found = secret.

Definition hands_out (m : M (result CreatedAccessCredential)) : Prop :=
  ∀ w c secret w1 w2, credentials_keyed (w_db w) → m w = (Ok (c, secret), w1) →
    db_credentials (w_db w2) = db_credentials (w_db w1) → env_db_fault (w_stmts w2) = None → resolves_to c secret w2.

(** The end of both operations. *)
Definition seal_and_store (credential : AccessCredential) : M (result CreatedAccessCredential) :=
  let! secret := randomSecret 32 in
  let? sealed := encrypt secret in
  let credential := credential <| ac_SecretEncrypted := sealed |> in
  let? _ := UpsertAccessCredential credential in
  ret_ok (credential <| ac_SecretEncrypted := "" |>, secret).

Lemma seal_and_store_hands_out credential : hands_out (seal_and_store credential).
Proof using All.
  intros w c secret w1 w2 Hk Hrun Hsame Hup. unfold seal_and_store in Hrun. run_inv Hrun as drawn v1 Hr1. run_inv Hrun as sealed v2 Hr2.
  unfold encrypt in Hr2. injection Hr2 as He <-. run_inv Hrun as u v3 Hr3. destruct u. injection Hrun as <- <- <-.
  unfold randomSecret, randomIdentifier, bind, ret in Hr1. injection Hr1 as _ <-.
  assert (env_encrypt (S (w_draws w)) drawn = Ok (ac_SecretEncrypted (credential <| ac_SecretEncrypted := sealed |>))) as Hs by by rsimpl.
  assert (credentials_keyed (w_db (w <| w_draws ::= S |> <| w_draws ::= S |>))) as Hk' by by rsimpl.
  pose proof (stored_secret_resolves _ _ _ _ _ w2 Hk' Hs Hr3 Hsame Hup) as Hres. revert Hres. unfold resolves_to. by rsimpl.
Qed.

(** C19. The secret that creating or rotating an access credential tells its
    owner is the one its access key resolves to, and so the one that requests
    are checked against, while the stored credentials stay as they are. *)
Theorem issued_secret_resolves : (∀ input, hands_out (CreateAccessCredential input)) ∧ (∀ id, hands_out (RotateAccessCredential id)).
Proof using All.
  split; intros x w c secret w1 w2 Hk Hrun Hsame Hup.
  - unfold CreateAccessCredential in Hrun. run_inv Hrun as given v1 Hr1. unfold lift, ret in Hr1. injection Hr1 as _ <-.
    run_inv Hrun as named v2 Hr2. assert (w_db v2 = w_db w) as E2 by (destruct (_ =? "")%string; [unfold randomIdentifier, bind, ret in Hr2|]; by injection Hr2 as _ <-).
    run_inv Hrun as key v3 Hr3. injection Hr3 as _ <-. cbv zeta in Hrun. rewrite <- E2 in Hk.
    by eapply (seal_and_store_hands_out _ (v2 <| w_draws ::= S |>)); [..|exact Hrun| |].
  - unfold RotateAccessCredential in Hrun. run_inv Hrun as found v1 Hr1. apply sql_read_inv in Hr1 as [_ E1]. rewrite <- E1 in Hk.
    eapply seal_and_store_hands_out; [exact Hk|exact Hrun|done|done].
Qed.
End credentials.

(** ** A concrete box *)

(** Not a cipher anyone should use: bytes are moved by the first byte of the
    key, behind a tag. *)
Definition shift_bytes (k : Z) (l : list Z) : list Z := (λ b, (b + k) mod 256) <$> l.

#[local] Instance demo_aead : AEAD := {|
  Block := list Z; GCM := Z;
  NewCipher key := if Nat.eqb (List.length key) 32 then Ok key else Err (ErrText "crypto/aes: invalid key size");
  NewGCM block := Ok (hd 0 block); NonceSize _ := 12%nat;
  Seal g nonce plain := if Nat.eqb (List.length nonce) 12 then Some (7 :: shift_bytes g plain) else None;
  Open g nonce sealed :=
    if Nat.eqb (List.length nonce) 12
    then Some (match sealed with
               | 7 :: l => Ok (shift_bytes (- g) l)
               | _ => Err (ErrText "cipher: message authentication failed") end)
    else None |}.

Lemma shift_back k l : octets l → shift_bytes (- k) (shift_bytes k l) = l.
Proof.
  induction 1 as [|b l Hb _ IH]; [done|]. unfold shift_bytes in *. rewrite !fmap_cons, IH. f_equal.
  rewrite Zplus_mod_idemp_l. replace (b + k + - k) with b by lia. by apply Z.mod_small.
Qed.

#[local] Instance demo_aead_laws : AEADLaws.
Proof.
  split; cbn [Block GCM NewCipher NewGCM NonceSize Seal Open demo_aead].
  - intros key ->. by exists key, (hd 0 key).
  - intros g nonce plain ->. by eexists.
  - intros g nonce plain sealed _. destruct (Nat.eqb _ 12); [|done]. intros [= <-]. constructor; [lia|].
    apply Forall_fmap, Forall_true. intros b. unfold compose. by apply Z.mod_pos_bound.
  - intros g nonce sealed ->. by eexists.
  - intros g nonce plain sealed Hp. destruct (Nat.eqb _ 12); [|done]. intros [= <-]. by rewrite shift_back.
Qed.

Definition demo_draw (n : nat) (size : nat) : result (list Z) := Ok (replicate size (Z.of_nat n `mod` 256)).

Lemma demo_fills n : fills (demo_draw n).
Proof.
  intros size l [= <-]. rewrite length_replicate. split; [done|]. apply Forall_replicate. by apply Z.mod_pos_bound.
Qed.

Definition demo_box : GCM := match NewSecretBox "master" with Ok g => g | Err _ => 0 end.
Definition base64_corrupt : error := ErrText "illegal base64 data".
Definition panicked {A} (r : option (result A)) : result A := default (Err (ErrText "panic")) r.

(** A service whose ciphers are those of the box. *)
#[local] Instance boxed_env : Env :=
  MkEnv quiet_config (λ _, 0) (λ n size, String.concat "" (replicate size (if Nat.even n then "5a" else "c3")%string)) (λ _, None) (λ _, None) ""
    (λ _, None)
    (λ s, panicked (Decrypt demo_box base64_corrupt s)) (λ n s, panicked (Encrypt demo_box (demo_draw n) s))
    (λ _ _ _ _ _, Ok 200).

#[local] Instance demo_boxed : Boxed demo_box demo_draw base64_corrupt.
Proof.
  split; [exact demo_fills| |]; intros; unfold env_encrypt, env_decrypt, boxed_env, panicked.
  - destruct (Encrypt_total demo_box (demo_draw n) plain (demo_fills n)) as [r Hr]. by rewrite Hr.
  - destruct (Decrypt_total demo_box base64_corrupt encoded) as [r Hr]. by rewrite Hr.
Qed.

Definition demo_credential : AccessCredentialInput := MkAccessCredentialInput "" "ci" "" ["s3:GetObject"] [] [] true zero_time.

Lemma issued_secret_resolves_witness :
  let run := CreateAccessCredential demo_credential (start empty_DB) in
  ∃ c secret, run.1 = Ok (c, secret) ∧ secret ≠ "" ∧ resolves_to c secret run.2.
Proof.
  intros run. assert (∃ p, run.1 = Ok p ∧ p.2 ≠ "") as [[c secret] [Hrun Hsecret]].
  { eexists. split; [vm_compute; reflexivity|]. vm_compute. discriminate. }
  exists c, secret. split; [done|]. split; [done|]. apply run_pair in Hrun.
  eapply (proj1 (issued_secret_resolves demo_box demo_draw base64_corrupt)); [|exact Hrun|done|done]. intros k x Hx. by destruct (lookup_empty_Some k x Hx).
Defined.
