(* ===== verification/SigV4.v ===== *)
(** Authentication of S3 requests, [gateway/auth.go] and [gateway/presign.go]:
    AWS Signature Version 4 in the Authorization header and in presigned URLs,
    and presigning itself. *)
From S2P Require Import Prelude GoTime Sha256 Json Text Url Stamp Http Hmac Domain World Access.

(** [gateway.Authenticator]; without a resolver only the configured key is
    known. *)
Record Authenticator : Type := MkAuthenticator {
  au_accessKey : string;
  au_secretKey : string;
  au_region : string;
  au_resolver : option (string → M (result AccessCredential)) }.

(** [NewAuthenticator] *)
Definition NewAuthenticator (cfg : Config) : Authenticator :=
  MkAuthenticator (cfg_AccessKey cfg) (cfg_SecretKey cfg)
    (if (cfg_Region cfg =? "")%string then "auto" else cfg_Region cfg) None.

Definition NewAuthenticatorWithResolver (cfg : Config) (resolver : string → M (result AccessCredential)) : Authenticator :=
  let auth := NewAuthenticator cfg in
  MkAuthenticator (au_accessKey auth) (au_secretKey auth) (au_region auth) (Some resolver).

Definition root_credential (a : Authenticator) : AccessCredential :=
  zero_AccessCredential <| ac_ID := "config-root" |> <| ac_AccessKey := au_accessKey a |>
    <| ac_SecretKey := au_secretKey a |> <| ac_Role := AccessRoleAdmin |> <| ac_Enabled := true |>
    <| ac_BucketPatterns := ["*"] |> <| ac_PrefixPatterns := ["*"] |>.

(** ** The Authorization header *)

Record authorizationHeader : Type := MkAuthorizationHeader { ah_Credential : string; ah_SignedHeaders : string; ah_Signature : string }.

Definition sigv4_algorithm : string := "AWS4-HMAC-SHA256".

(** A field [key=value]; [None] is a malformed one. *)
Definition header_field (field : string) : option (string * string) :=
  '(key, value) ← string_cut (trim_space field) "=";
  if (key =? "")%string || (value =? "")%string then None else Some (key, value).

Definition parseAuthorizationHeader (header : string) : option authorizationHeader :=
  if negb (has_prefix header "AWS4-HMAC-SHA256 ") then None
  else
    fields ← mapM header_field (string_split "," (trim_prefix header "AWS4-HMAC-SHA256 "));
    let parsed : gmap string string := fold_left (λ m kv, <[kv.1 := kv.2]> m) fields ∅ in
    let get k := default "" (parsed !! k) in
    let out := MkAuthorizationHeader (get "Credential") (get "SignedHeaders") (get "Signature") in
    if (ah_Credential out =? "")%string || (ah_SignedHeaders out =? "")%string || (ah_Signature out =? "")%string
    then None else Some out.

(** [strings.SplitN(s, "/", 2)[0]] *)
Definition before_slash (s : string) : string := hd "" (string_split "/" s).

Definition requestAccessKey (r : Request) : string :=
  let accessKey := trim_space (rq_header r "X-S3LS-Access-Key") in
  if negb (accessKey =? "")%string then accessKey
  else
    let credential := values_get (rq_Query r) "X-Amz-Credential" in
    if negb (credential =? "")%string then before_slash credential
    else match parseAuthorizationHeader (rq_header r "Authorization") with
         | Some parsed => before_slash (ah_Credential parsed)
         | None => ""
         end.

(** ** Canonical requests *)

(** The headers by lower-case name; the host comes from the request line. *)
Definition signed_header_values (r : Request) : gmap string string :=
  map_fold (λ name headers values,
    <[to_lower name := string_join "," ((λ h, string_join " " (fields h)) <$> headers)]> values)
    {[ "host" := rq_Host r ]} (rq_Header r).

Fixpoint header_lines (values : gmap string string) (parts : list string) : option string :=
  match parts with
  | [] => Some ""
  | part :: rest =>
      if (part =? "")%string then None
      else
        value ← values !! part;
        lines ← header_lines values rest;
        Some (part +:+ ":" +:+ value +:+ String "010" "" +:+ lines)
  end.

Definition canonicalHeadersForSignedList (r : Request) (signedHeaders : string) : option string :=
  let parts := string_split ";" signedHeaders in
  if sorted_strings parts then header_lines (signed_header_values r) parts else None.

Definition canonicalURI (path : string) : string := if (path =? "")%string then "/" else path.

Definition newline : string := String "010" "".

Definition canonical_request (method path query headers signedHeaders payload : string) : string :=
  string_join newline [method; canonicalURI path; query; headers; signedHeaders; payload].

(** [cloneQueryWithoutSignature]: keys without values disappear as well. *)
Definition cloneQueryWithoutSignature (query : Values) : Values :=
  omap (λ vs, match vs with [] => None | _ => Some vs end) (delete "X-Amz-Signature" query).

Definition emptyPayloadHash : string := "e3b0c44298fc1c149afbf4c8996fb92427ae41e4649b934ca495991b7852b855".

Definition headerCanonicalRequest (r : Request) (signedHeaders : string) : option string :=
  headers ← canonicalHeadersForSignedList r signedHeaders;
  let payloadHash := rq_header r "X-Amz-Content-Sha256" in
  Some (canonical_request (rq_Method r) (rq_EscapedPath r) (canonicalQueryString (rq_Query r)) headers signedHeaders
          (if (payloadHash =? "")%string then emptyPayloadHash else payloadHash)).

Definition presignedCanonicalRequest (r : Request) (query : Values) (signedHeaders : string) : option string :=
  headers ← canonicalHeadersForSignedList r signedHeaders;
  Some (canonical_request (rq_Method r) (rq_EscapedPath r) (canonicalQueryString (cloneQueryWithoutSignature query))
          headers signedHeaders "UNSIGNED-PAYLOAD").

(** ** Signatures *)

Definition string_to_sign (algorithm amzDate scope canonicalRequest : string) : string :=
  string_join newline [algorithm; amzDate; scope; hexSHA256 canonicalRequest].

Definition signature (secret dateStamp region : string) (stringToSign : string) : string :=
  hex_text (hmacSHA256 (deriveSigningKey secret dateStamp region "s3") stringToSign).

(** [AK/date/region/s3/aws4_request], for the access key it must name. *)
Definition credential_scope (accessKey credential : string) : option (string * string) :=
  match string_split "/" credential with
  | [key; dateStamp; region; service; terminal] =>
      if (key =? accessKey)%string && (service =? "s3")%string && (terminal =? "aws4_request")%string
      then Some (dateStamp, region) else None
  | _ => None
  end.

Definition scope_text (dateStamp region : string) : string := string_join "/" [dateStamp; region; "s3"; "aws4_request"].

Definition skew : Duration := 15 * minute.

Section authentication.
Context (a : Authenticator).

Definition signing_region (region : string) : string := if (region =? "")%string then au_region a else region.

(** What a request claims before its signature is looked at: the scope, the
    time it was signed and how long it is valid. [None] refuses the request. *)
Record claim : Type := MkClaim {
  cl_dateStamp : string; cl_region : string; cl_amzDate : string; cl_signedAt : Time; cl_validity : Duration }.

Definition dated_claim (scope : string * string) (amzDate : string) (validity : Duration) : option claim :=
  signedAt ← parse_stamp amzDate;
  if (date_stamp signedAt =? scope.1)%string then Some (MkClaim scope.1 scope.2 amzDate signedAt validity) else None.

Definition header_claim (r : Request) (parsed : authorizationHeader) (credential : AccessCredential) : option claim :=
  scope ← credential_scope (ac_AccessKey credential) (ah_Credential parsed);
  let amzDate := rq_header r "X-Amz-Date" in
  dated_claim scope (if (amzDate =? "")%string then rq_header r "Date" else amzDate) skew.

Definition presigned_claim (r : Request) (credential : AccessCredential) : option claim :=
  let get := values_get (rq_Query r) in
  if negb (get "X-Amz-Algorithm" =? sigv4_algorithm)%string
     || existsb (λ k, (get k =? "")%string)
          ["X-Amz-Credential"; "X-Amz-Date"; "X-Amz-Expires"; "X-Amz-SignedHeaders"; "X-Amz-Signature"] then None
  else
    scope ← credential_scope (ac_AccessKey credential) (get "X-Amz-Credential");
    expires ← parse_int64 (get "X-Amz-Expires");
    if (expires <? 1) || (604800 <? expires) then None
    else dated_claim scope (get "X-Amz-Date") (duration_mul expires second).

(** The signature of a canonical request under a claim. *)
Definition expected_signature (credential : AccessCredential) (c : claim) (canonical : string) : string :=
  signature (ac_SecretKey credential) (cl_dateStamp c) (signing_region (cl_region c))
    (string_to_sign sigv4_algorithm (cl_amzDate c) (scope_text (cl_dateStamp c) (cl_region c)) canonical).
End authentication.

Section authenticator.
Context `{Env} (a : Authenticator).

Definition resolveCredential (accessKey : string) : M (option AccessCredential) :=
  if (accessKey =? "")%string then ret None
  else if (accessKey =? au_accessKey a)%string then ret (Some (root_credential a))
  else match au_resolver a with
       | None => ret None
       | Some resolve =>
           let! found := resolve accessKey in
           match found with
           | Err _ => ret None
           | Ok credential =>
               if negb (ac_Enabled credential) || (ac_SecretKey credential =? "")%string then ret None
               else if is_zero (ac_ExpiresAt credential) then ret (Some credential)
               else let! t := now in
                    ret (if after t (ac_ExpiresAt credential) then None else Some credential)
           end
       end.

(** Whether the clock lies between [skew] before the signing and [validity]
    after it. *)
Definition in_window (signedAt : Time) (validity : Duration) (t : Time) : bool :=
  negb (before t (add_time signedAt (- skew))) && negb (after t (add_time signedAt validity)).

(** The clock is read once the claim is in order; then the window and the
    signature are checked. *)
Definition check_claim (credential : AccessCredential) (c : claim) (canonical : option string) (given : string) : M bool :=
  let! t := now in
  ret (in_window (cl_signedAt c) (cl_validity c) t &&
       match canonical with
       | Some canonical => (to_lower given =? expected_signature a credential c canonical)%string
       | None => false
       end).

Definition authorizeHeaderCredential (r : Request) (credential : AccessCredential) : M bool :=
  match parseAuthorizationHeader (rq_header r "Authorization") with
  | None => ret false
  | Some parsed =>
      match header_claim r parsed credential with
      | None => ret false
      | Some c => check_claim credential c (headerCanonicalRequest r (ah_SignedHeaders parsed)) (ah_Signature parsed)
      end
  end.

Definition authorizePresignedURL (r : Request) (credential : AccessCredential) : M bool :=
  match presigned_claim r credential with
  | None => ret false
  | Some c =>
      check_claim credential c
        (presignedCanonicalRequest r (rq_Query r) (values_get (rq_Query r) "X-Amz-SignedHeaders"))
        (values_get (rq_Query r) "X-Amz-Signature")
  end.

Definition Authenticate (r : Request) : M (option Principal) :=
  let! resolved := resolveCredential (requestAccessKey r) in
  match resolved with
  | None => ret None
  | Some credential =>
      let customSecret := rq_header r "X-S3LS-Secret-Key" in
      let! ok := (if negb (customSecret =? "")%string then ret (customSecret =? ac_SecretKey credential)%string
                  else if negb (values_get (rq_Query r) "X-Amz-Signature" =? "")%string
                  then authorizePresignedURL r credential
                  else authorizeHeaderCredential r credential) in
      ret (if ok : bool then Some (principalFromCredential credential) else None)
  end.

Definition AuthorizeAction (r : Request) (permission bucket key : string) : M (option Principal) :=
  let! principal := Authenticate r in
  ret (match principal with
       | Some p => if principalAllows p permission bucket key then Some p else None
       | None => None
       end).

(** ** Presigning *)

Definition week : Duration := 7 * 24 * hour.

(** The lifetime of a URL, in the range the verification accepts. *)
Definition presign_expiry (expires : Duration) : Duration :=
  if (expires <=? 0) || (week <? expires) then 15 * minute else expires.

Definition presign_query (t : Time) (expires : Duration) (query : Values) : Values :=
  let query := values_set query "X-Amz-Algorithm" sigv4_algorithm in
  let query := values_set query "X-Amz-Credential"
                 (au_accessKey a +:+ "/" +:+ date_stamp t +:+ "/" +:+ au_region a +:+ "/s3/aws4_request") in
  let query := values_set query "X-Amz-Date" (time_stamp t) in
  let query := values_set query "X-Amz-Expires" (itoa (presign_expiry expires `div` second)) in
  values_set query "X-Amz-SignedHeaders" "host".

Definition PresignURL (method : string) (target : URL) (expires : Duration) : M (option URL) :=
  let! t := now in
  let query := presign_query t expires (parse_query (u_RawQuery target)) in
  let target := MkURL (u_Host target) (u_EscapedPath target) (values_encode query) in
  ret (
    req ← new_request method target;
    canonical ← presignedCanonicalRequest req (rq_Query req) "host";
    let scope := date_stamp t +:+ "/" +:+ au_region a +:+ "/s3/aws4_request" in
    let text := string_to_sign sigv4_algorithm (time_stamp t) scope canonical in
    let signed := values_set (parse_query (u_RawQuery target)) "X-Amz-Signature"
                    (to_lower (signature (au_secretKey a) (date_stamp t) (au_region a) text)) in
    Some (MkURL (u_Host target) (u_EscapedPath target) (values_encode signed))).
End authenticator.
