(* ===== verification/SigV4Facts.v ===== *)
(** Theorems about authentication: presigned URLs are accepted while they are
    valid, a presigned signature binds what it signs, and nobody gets in
    without a live credential and its secret. *)
From S2P Require Import Prelude GoTime Sha256 Json Text Url Stamp Http Hmac Domain World Access SigV4 Demo Placement.

(** ** Lemmas on the pieces *)

Lemma to_lower_ascii a s : byte_of a < 128 → to_lower (String a s) = String (lower_byte a) (to_lower s).
Proof.
  intros Ha. cbn [to_lower]. destruct s as [|b s]; [done|].
  assert ((byte_of a =? 0xC4) = false) as -> by lia. cbn [andb].
  destruct s as [|c s]; [done|]. by assert ((byte_of a =? 0xE2) = false) as -> by lia.
Qed.

Lemma to_lower_hex l : Forall (λ b, 0 ≤ b < 256) l → to_lower (hex_text l) = hex_text l.
Proof.
  assert (∀ d, 0 ≤ d < 16 → byte_of (hex_digit d) < 128 ∧ lower_byte (hex_digit d) = hex_digit d) as Hd.
  { intros d Hd. unfold hex_digit, byte_of, lower_byte.
    destruct (Z.ltb_spec d 10); rewrite N_ascii_embedding by lia; (split; [lia|]); (destruct (andb _ _) eqn:E; [rewrite andb_true_iff, !N.leb_le in E; lia|done]). }
  induction 1 as [|b l Hb _ IH]; [done|]. rewrite hex_text_cons.
  destruct (Hd (b `div` 16)) as [H1 H2]; [split; [apply Z.div_pos|apply Z.div_lt_upper_bound]; lia|].
  destruct (Hd (b `mod` 16)) as [H3 H4]; [apply Z.mod_pos_bound; lia|].
  by rewrite !to_lower_ascii, IH, H2, H4 by done.
Qed.

Lemma hmac_range k d : Forall (λ b, 0 ≤ b < 256) (hmacSHA256 k d).
Proof. unfold hmacSHA256. apply sha256_bytes_range. Qed.

Lemma to_lower_signature secret date region text : to_lower (signature secret date region text) = signature secret date region text.
Proof. unfold signature. apply to_lower_hex, hmac_range. Qed.

Lemma hmac_length k d : List.length (hmacSHA256 k d) = 32%nat.
Proof. unfold hmacSHA256. apply sha256_bytes_length. Qed.

Lemma hex_text_nonempty l : List.length l = 32%nat → hex_text l ≠ "".
Proof. by destruct l. Qed.

Lemma signature_nonempty secret date region text : signature secret date region text ≠ "".
Proof. unfold signature. apply hex_text_nonempty, hmac_length. Qed.

Lemma values_get_set_eq (q : Values) k v : values_get (values_set q k v) k = v.
Proof. unfold values_get, values_set. by rewrite lookup_insert_eq. Qed.

Lemma values_get_set_ne (q : Values) k k' v : k ≠ k' → values_get (values_set q k' v) k = values_get q k.
Proof. intros Hne. unfold values_get, values_set. by rewrite lookup_insert_ne. Qed.

Lemma values_set_nonempty (q : Values) k v : (∀ k, q !! k ≠ Some []) → ∀ k', values_set q k v !! k' ≠ Some [].
Proof.
  intros Hq k'. unfold values_set. destruct (decide (k' = k)) as [->|]; [by rewrite lookup_insert_eq|].
  by rewrite lookup_insert_ne.
Qed.

(** The signature parameter is not part of what is signed. *)
Lemma clone_without_signature (q : Values) sig :
  cloneQueryWithoutSignature (values_set q "X-Amz-Signature" sig) = cloneQueryWithoutSignature q.
Proof. unfold cloneQueryWithoutSignature, values_set. by rewrite delete_insert_eq. Qed.

Section presign.
Context (a : Authenticator).

Lemma presign_query_nonempty t expires (q : Values) :
  (∀ k, q !! k ≠ Some []) → ∀ k, presign_query a t expires q !! k ≠ Some [].
Proof. intros Hq. unfold presign_query. cbv zeta. by repeat apply values_set_nonempty. Qed.

Lemma presign_query_get t expires (q : Values) sig :
  let get := values_get (values_set (presign_query a t expires q) "X-Amz-Signature" sig) in
  get "X-Amz-Algorithm" = sigv4_algorithm ∧
  get "X-Amz-Credential" = au_accessKey a +:+ "/" +:+ date_stamp t +:+ "/" +:+ au_region a +:+ "/s3/aws4_request" ∧
  get "X-Amz-Date" = time_stamp t ∧ get "X-Amz-Expires" = itoa (presign_expiry expires `div` second) ∧
  get "X-Amz-SignedHeaders" = "host" ∧ get "X-Amz-Signature" = sig.
Proof.
  cbv zeta. unfold presign_query.
  repeat split; repeat (rewrite values_get_set_ne by done); by rewrite values_get_set_eq.
Qed.

Lemma presign_expiry_range expires : second ≤ presign_expiry expires → 1 ≤ presign_expiry expires `div` second ≤ 604800.
Proof.
  intros Hmin. split; [apply Z.div_le_lower_bound; unfold second in *; lia|].
  assert (presign_expiry expires ≤ week) as Hmax.
  { unfold presign_expiry, week, hour, minute, second in *. case_match; lia. }
  apply (Z.div_le_mono _ _ second) in Hmax; [|unfold second; lia]. unfold week, hour, minute, second in *. etrans; [exact Hmax|done].
Qed.

Lemma credential_scope_text key date region :
  no_byte "/" key = true → no_byte "/" date = true → no_byte "/" region = true →
  credential_scope key (key +:+ "/" +:+ date +:+ "/" +:+ region +:+ "/s3/aws4_request") = Some (date, region).
Proof.
  intros Hk Hd Hr. unfold credential_scope.
  assert (string_split "/" (key +:+ "/" +:+ date +:+ "/" +:+ region +:+ "/s3/aws4_request") = [key; date; region; "s3"; "aws4_request"]) as ->.
  { rewrite !append_cons, !append_nil_l. by rewrite !string_split_app by done. }
  by rewrite !String.eqb_refl.
Qed.

Lemma before_slash_text key rest : no_byte "/" key = true → before_slash (key +:+ "/" +:+ rest) = key.
Proof. intros Hk. unfold before_slash. rewrite append_cons, append_nil_l. by rewrite string_split_app. Qed.
End presign.

Lemma scope_text_eq date region : scope_text date region = date +:+ "/" +:+ region +:+ "/s3/aws4_request".
Proof. done. Qed.

(** No header but the request line can stand for the host. *)
Definition no_host_header (h : Values) : Prop := ∀ k vs, h !! k = Some vs → to_lower k ≠ "host".

Lemma signed_host r : no_host_header (rq_Header r) → signed_header_values r !! "host" = Some (rq_Host r).
Proof.
  unfold signed_header_values. intros Hh.
  apply (map_fold_weak_ind (λ (m : gmap string string) (h : Values), no_host_header h → m !! "host" = Some (rq_Host r))); [done| |done].
  intros k vs h m Hk IH Hno. rewrite lookup_insert_ne.
  - apply IH. intros k' vs' Hk'. apply (Hno k' vs'). rewrite lookup_insert_ne; [done|]. intros ->. by rewrite Hk in Hk'.
  - apply (Hno k vs). apply lookup_insert_eq.
Qed.

Lemma host_lines r : no_host_header (rq_Header r) →
  canonicalHeadersForSignedList r "host" = Some ("host:" +:+ rq_Host r +:+ newline).
Proof.
  intros Hh. unfold canonicalHeadersForSignedList. cbn. rewrite (signed_host r Hh). cbn.
  by rewrite append_nil_r.
Qed.

(** ** Presigned URLs *)

Section presigned.
Context `{Env} (a : Authenticator).

(** The canonical request that presigning signs. *)
Definition presigned_canonical (method : string) (target : URL) (q : Values) : string :=
  canonical_request (if (method =? "")%string then "GET" else method) (u_EscapedPath target)
    (canonicalQueryString (cloneQueryWithoutSignature q)) ("host:" +:+ trim_suffix (u_Host target) ":" +:+ newline)
    "host" "UNSIGNED-PAYLOAD".

Lemma presign_run method target expires w url w1 :
  PresignURL a method target expires w = (Some url, w1) →
  let t := env_now (w_clock w) in
  let q := presign_query a t expires (parse_query (u_RawQuery target)) in
  let sig := signature (au_secretKey a) (date_stamp t) (au_region a)
               (string_to_sign sigv4_algorithm (time_stamp t) (scope_text (date_stamp t) (au_region a))
                  (presigned_canonical method target q)) in
  u_EscapedPath url = u_EscapedPath target ∧ u_RawQuery url = values_encode (values_set q "X-Amz-Signature" sig).
Proof.
  cbv zeta. unfold PresignURL, new_request, presignedCanonicalRequest.
  destruct (valid_method _); [|by intros [=]]. cbn [u_Host u_EscapedPath u_RawQuery].
  set (q := presign_query a _ expires (parse_query (u_RawQuery target))).
  assert (parse_query (values_encode q) = q) as Hq.
  { apply parse_query_encode. apply presign_query_nonempty. intros k. apply parse_query_nonempty. }
  intros Hrun. unfold bind, ret in Hrun. cbn [mbind option_bind now fst snd] in Hrun. unfold rq_Query in Hrun.
  rewrite host_lines in Hrun by (intros k vs Hk; cbn in Hk; by rewrite lookup_empty in Hk).
  cbn [mbind option_bind rq_RawQuery rq_Host rq_Method rq_EscapedPath] in Hrun.
  fold q in Hrun. rewrite Hq, to_lower_signature in Hrun. injection Hrun as <- _. done.
Qed.

Lemma append_nonempty s t : s ≠ "" → s +:+ t ≠ "".
Proof. destruct s; [done|]. by rewrite append_cons. Qed.

Lemma itoa_nonempty z : 0 ≤ z ≤ int64_max → itoa z ≠ "".
Proof. intros Hz E. pose proof (parse_int64_itoa z Hz) as Hp. by rewrite E in Hp. Qed.

(** What the gateway reads from the query of a presigned URL. *)
Lemma presigned_claim_of t expires q0 sig r :
  rq_Query r = values_set (presign_query a t expires q0) "X-Amz-Signature" sig →
  au_accessKey a ≠ "" → no_byte "/" (au_accessKey a) = true → no_byte "/" (au_region a) = true → sig ≠ "" →
  year_shown t → second ≤ presign_expiry expires →
  presigned_claim r (root_credential a)
    = Some (MkClaim (date_stamp t) (au_region a) (time_stamp t) (t `div` second * second) (presign_expiry expires `div` second * second)).
Proof.
  intros Hquery Hak Hakfree Hregionfree Hsig Hyear Hmin.
  destruct (presign_query_get a t expires q0 sig) as (G1 & G2 & G3 & G4 & G5 & G6).
  rewrite <- Hquery in G1, G2, G3, G4, G5, G6. pose proof (presign_expiry_range expires Hmin) as Hexp.
  assert (0 ≤ presign_expiry expires `div` second ≤ int64_max) as Hint by (unfold int64_max; lia).
  unfold presigned_claim. cbv zeta. cbn [existsb]. rewrite G1, G2, G3, G4, G5, G6, String.eqb_refl.
  rewrite (proj2 (String.eqb_neq (au_accessKey a +:+ _) "")) by by apply append_nonempty.
  rewrite (proj2 (String.eqb_neq (itoa _) "")) by by apply itoa_nonempty.
  rewrite (proj2 (String.eqb_neq sig "")) by done.
  rewrite (proj2 (String.eqb_neq (time_stamp t) "")).
  2: { intros E. destruct (parse_stamp_year t Hyear) as [x Hx]. by rewrite E in Hx. }
  cbn [negb orb String.eqb]. change (ac_AccessKey (root_credential a)) with (au_accessKey a).
  rewrite credential_scope_text by (done || (apply date_stamp_no_byte; [set_solver|done])).
  rewrite parse_int64_itoa by done. cbn [mbind option_bind].
  assert ((presign_expiry expires `div` second <? 1) || (604800 <? presign_expiry expires `div` second) = false) as -> by lia.
  unfold dated_claim. rewrite parse_time_stamp by done. cbn [mbind option_bind fst snd].
  rewrite date_stamp_second, String.eqb_refl. repeat f_equal. unfold duration_mul, mul64. apply wrap64_id.
  unfold in_int64, int64_min, int64_max, second in *. lia.
Qed.

(** A request with such a query names the configured key. *)
Lemma presigned_access_key t expires q0 sig r :
  rq_Query r = values_set (presign_query a t expires q0) "X-Amz-Signature" sig →
  au_accessKey a ≠ "" → no_byte "/" (au_accessKey a) = true → trim_space (rq_header r "X-S3LS-Access-Key") = "" →
  requestAccessKey r = au_accessKey a.
Proof.
  intros Hquery Hak Hfree Hkey. destruct (presign_query_get a t expires q0 sig) as (_ & G2 & _).
  rewrite <- Hquery in G2. unfold requestAccessKey. rewrite Hkey, G2. cbn [String.eqb negb].
  rewrite (proj2 (String.eqb_neq _ "")) by by apply append_nonempty. cbn [negb]. by apply before_slash_text.
Qed.

(** The request made from a presigned URL, in time. *)
Record presigned_request (method : string) (target url : URL) (expires : Duration) (t t' : Time) (r : Request) : Prop := {
  pq_method : rq_Method r = (if (method =? "")%string then "GET" else method);
  pq_host : rq_Host r = trim_suffix (u_Host target) ":";
  pq_path : rq_EscapedPath r = u_EscapedPath url;
  pq_query : rq_RawQuery r = u_RawQuery url;
  pq_headers : no_host_header (rq_Header r);
  pq_window : t `div` second * second - skew ≤ t'
              ≤ t `div` second * second + presign_expiry expires `div` second * second }.

(** An authenticator that can presign. *)
Record can_presign : Prop := {
  cp_key : au_accessKey a ≠ "";
  cp_key_free : no_byte "/" (au_accessKey a) = true;
  cp_region : au_region a ≠ "";
  cp_region_free : no_byte "/" (au_region a) = true }.

Lemma presigned_query method target expires w url w1 r t' :
  PresignURL a method target expires w = (Some url, w1) → presigned_request method target url expires (env_now (w_clock w)) t' r →
  rq_Query r = values_set (presign_query a (env_now (w_clock w)) expires (parse_query (u_RawQuery target))) "X-Amz-Signature"
    (signature (au_secretKey a) (date_stamp (env_now (w_clock w))) (au_region a)
       (string_to_sign sigv4_algorithm (time_stamp (env_now (w_clock w))) (scope_text (date_stamp (env_now (w_clock w))) (au_region a))
          (presigned_canonical method target (presign_query a (env_now (w_clock w)) expires (parse_query (u_RawQuery target)))))).
Proof.
  intros Hrun [_ _ _ Hq _ _]. apply presign_run in Hrun as [_ Hraw]. unfold rq_Query. rewrite Hq, Hraw.
  apply parse_query_encode, values_set_nonempty, presign_query_nonempty. intros k. apply parse_query_nonempty.
Qed.

Lemma presigned_url_authorized method target expires w url w1 r w' :
  PresignURL a method target expires w = (Some url, w1) → can_presign →
  year_shown (env_now (w_clock w)) → second ≤ presign_expiry expires →
  presigned_request method target url expires (env_now (w_clock w)) (env_now (w_clock w')) r →
  (authorizePresignedURL a r (root_credential a) w').1 = true.
Proof.
  intros Hrun [Hak Hakfree Hregion Hregionfree] Hyear Hmin Hr. pose proof (presigned_query _ _ _ _ _ _ _ _ Hrun Hr) as Hquery.
  apply presign_run in Hrun as [Hpath _]. destruct Hr as [Hm Hh Hp _ Hhost Hwindow]. rewrite Hpath in Hp.
  set (t := env_now (w_clock w)) in *. set (sig := signature _ _ _ _) in Hquery.
  set (q := presign_query a t expires (parse_query (u_RawQuery target))) in *.
  destruct (presign_query_get a t expires (parse_query (u_RawQuery target)) sig) as (_ & _ & _ & _ & G5 & G6).
  fold q in G5, G6. rewrite <- Hquery in G5, G6.
  assert (sig ≠ "") as Hsig by apply signature_nonempty.
  unfold authorizePresignedURL. rewrite (presigned_claim_of _ _ _ _ _ Hquery) by done.
  unfold check_claim. rewrite G5, G6. unfold presignedCanonicalRequest. rewrite host_lines by done. cbn [mbind option_bind].
  unfold bind, ret, now. cbn [fst snd cl_signedAt cl_validity]. unfold in_window, before, after, add_time.
  rewrite (proj2 (Z.ltb_ge _ _)) by lia. rewrite (proj2 (Z.ltb_ge _ _)) by lia. cbn [negb andb].
  apply String.eqb_eq. unfold sig. rewrite to_lower_signature. unfold expected_signature.
  cbn [cl_dateStamp cl_region cl_amzDate]. unfold signing_region. rewrite (proj2 (String.eqb_neq (au_region a) "")) by done.
  change (ac_SecretKey (root_credential a)) with (au_secretKey a).
  unfold presigned_canonical. by rewrite Hm, Hp, Hh, Hquery, clone_without_signature.
Qed.

(** C37. A presigned URL is accepted: presign a request, send it with the
    method, host and path it was signed for and any headers that carry no
    other credential, and within its lifetime (from a quarter of an hour before
    the signing to the expiry, in whole seconds) the gateway authenticates it
    as the configured root credential. *)
Theorem presigned_url_accepted method target expires w url w1 r w' :
  PresignURL a method target expires w = (Some url, w1) → can_presign →
  year_shown (env_now (w_clock w)) → second ≤ presign_expiry expires →
  presigned_request method target url expires (env_now (w_clock w)) (env_now (w_clock w')) r →
  trim_space (rq_header r "X-S3LS-Access-Key") = "" → rq_header r "X-S3LS-Secret-Key" = "" →
  (Authenticate a r w').1 = Some (principalFromCredential (root_credential a)).
Proof.
  intros Hrun Hcan Hyear Hmin Hr Hkey Hsecret.
  pose proof (presigned_url_authorized _ _ _ _ _ _ _ _ Hrun Hcan Hyear Hmin Hr) as Hok.
  pose proof (presigned_query _ _ _ _ _ _ _ _ Hrun Hr) as Hquery.
  unfold Authenticate. rewrite (presigned_access_key _ _ _ _ _ Hquery) by (done || apply Hcan).
  unfold resolveCredential. rewrite (proj2 (String.eqb_neq _ "")), String.eqb_refl by apply Hcan.
  unfold bind at 1. cbn [ret fst snd]. rewrite Hsecret. cbn [String.eqb negb].
  rewrite Hquery at 1. rewrite values_get_set_eq, (proj2 (String.eqb_neq _ "")) by apply signature_nonempty. cbn [negb].
  unfold bind, ret. destruct (authorizePresignedURL a r (root_credential a) w') as [ok w2]. cbn [fst] in *. by subst.
Qed.
End presigned.

(** ** What a signature binds *)

Lemma lower_byte_newline a : Ascii.eqb "010" a = false → Ascii.eqb "010" (lower_byte a) = false.
Proof. all_bytes a; done. Qed.

Lemma to_lower_no_newline s : no_byte "010" s = true → no_byte "010" (to_lower s) = true.
Proof.
  assert (∀ n s, (String.length s ≤ n)%nat → no_byte "010" s = true → no_byte "010" (to_lower s) = true) as Hn; [|by apply (Hn (String.length s) s)].
  clear s. induction n as [|n IH]; intros [|a s] Hlen Hs; try done; [simpl in Hlen; lia|].
  rewrite no_byte_cons in Hs. apply andb_true_iff in Hs as [Ha Hs]. simpl in Hlen.
  assert (no_byte "010" (String (lower_byte a) (to_lower s)) = true) as Hcons.
  { rewrite no_byte_cons, IH by (done || lia). apply negb_true_iff in Ha. by rewrite lower_byte_newline. }
  destruct s as [|b s]; [exact Hcons|]. cbn [to_lower].
  rewrite no_byte_cons in Hs. apply andb_true_iff in Hs as [_ Hs]. simpl in Hlen.
  destruct (_ && _); [rewrite no_byte_cons, IH by (done || lia); done|].
  destruct s as [|c s]; [exact Hcons|].
  rewrite no_byte_cons in Hs. apply andb_true_iff in Hs as [_ Hs]. simpl in Hlen.
  destruct (_ && _); [rewrite no_byte_cons, IH by (done || lia); done|exact Hcons].
Qed.

Lemma string_join_no_byte c sep l : no_byte c sep = true → Forall (λ x, no_byte c x = true) l → no_byte c (string_join sep l) = true.
Proof.
  intros Hsep. induction 1 as [|x l Hx Hl IH]; [done|]. destruct l as [|y l]; [done|].
  by rewrite string_join_cons, !no_byte_app, Hx, Hsep, IH.
Qed.

(** A request as HTTP delivers it: no line break in the request line, the host
    and the header names. *)
Record well_formed_request (r : Request) : Prop := {
  wf_method : no_byte "010" (rq_Method r) = true;
  wf_path : no_byte "010" (rq_EscapedPath r) = true;
  wf_host : no_byte "010" (rq_Host r) = true;
  wf_names : ∀ k vs, rq_Header r !! k = Some vs → no_byte "010" k = true }.

Lemma signed_values_no_newline r k v : well_formed_request r →
  signed_header_values r !! k = Some v → no_byte "010" k = true ∧ no_byte "010" v = true.
Proof.
  intros [_ _ Hhost Hnames]. unfold signed_header_values. revert k v Hnames.
  apply (map_fold_weak_ind (λ (m : gmap string string) (h : Values), ∀ k v,
    (∀ k vs, h !! k = Some vs → no_byte "010" k = true) → m !! k = Some v → no_byte "010" k = true ∧ no_byte "010" v = true)).
  - intros k v _ Hk. apply lookup_singleton_Some in Hk as [<- <-]. done.
  - intros name headers h m Hname IH k v Hnames Hk.
    apply lookup_insert_Some in Hk as [[<- <-]|[_ Hk]].
    + split; [apply to_lower_no_newline; apply (Hnames name headers), lookup_insert_eq|].
      apply string_join_no_byte; [done|]. apply Forall_fmap, Forall_true. intros x. apply string_join_no_byte; [done|].
      eapply Forall_impl; [apply fields_free|]. intros f. by apply free_of_no_byte.
    + apply (IH k v); [|done]. intros k' vs Hk'. apply (Hnames k' vs). rewrite lookup_insert_ne; [done|]. intros ->. by rewrite Hname in Hk'.
Qed.

Lemma header_lines_inj v1 v2 parts h :
  (∀ k x, v1 !! k = Some x → no_byte "010" x = true) → (∀ k x, v2 !! k = Some x → no_byte "010" x = true) →
  header_lines v1 parts = Some h → header_lines v2 parts = Some h → ∀ part, part ∈ parts → v1 !! part = v2 !! part.
Proof.
  intros Hv1 Hv2. revert h. induction parts as [|p parts IH]; intros h H1 H2 part Hin; [by apply elem_of_nil in Hin|].
  cbn [header_lines] in H1, H2. destruct (p =? "")%string; [done|].
  destruct (v1 !! p) as [x1|] eqn:E1; [|done]. destruct (v2 !! p) as [x2|] eqn:E2; [|done]. cbn [mbind option_bind] in H1, H2.
  destruct (header_lines v1 parts) as [h1|] eqn:L1; [|done]. destruct (header_lines v2 parts) as [h2|] eqn:L2; [|done].
  cbn [mbind option_bind] in H1, H2. injection H1 as H1. rewrite <- H1 in H2. injection H2 as H2.
  apply append_inj_length in H2 as [_ H2]; [|done]. apply append_inj_length in H2 as [_ H2]; [|done].
  rewrite !append_cons, !append_nil_l in H2. apply cut_unique in H2 as [-> ->]; [|by apply (Hv2 p)|by apply (Hv1 p)].
  apply elem_of_cons in Hin as [->|Hin]; [by rewrite E1, E2|]. by apply (IH h1).
Qed.

Lemma header_lines_keys v parts h : header_lines v parts = Some h → Forall (λ p, is_Some (v !! p)) parts.
Proof.
  revert h. induction parts as [|p parts IH]; intros h H; [constructor|]. cbn [header_lines] in H.
  destruct (p =? "")%string; [done|]. destruct (v !! p) as [x|] eqn:E; [|done]. cbn [mbind option_bind] in H.
  destruct (header_lines v parts) as [l|]; [|done]. constructor; [by rewrite E|by eapply IH].
Qed.

(** The parts of a canonical request are determined by it. *)
Lemma canonical_request_inj m1 m2 p1 p2 q1 q2 h1 h2 s1 s2 payload1 payload2 :
  no_byte "010" m1 = true → no_byte "010" m2 = true → no_byte "010" p1 = true → no_byte "010" p2 = true →
  no_byte "010" q1 = true → no_byte "010" q2 = true → no_byte "010" s1 = true → no_byte "010" s2 = true →
  no_byte "010" payload1 = true → no_byte "010" payload2 = true →
  canonical_request m1 p1 q1 h1 s1 payload1 = canonical_request m2 p2 q2 h2 s2 payload2 →
  m1 = m2 ∧ canonicalURI p1 = canonicalURI p2 ∧ q1 = q2 ∧ h1 = h2 ∧ s1 = s2 ∧ payload1 = payload2.
Proof.
  intros Hm1 Hm2 Hp1 Hp2 Hq1 Hq2 Hs1 Hs2 Hl1 Hl2 H. unfold canonical_request in H.
  assert (∀ p, no_byte "010" p = true → no_byte "010" (canonicalURI p) = true) as Huri.
  { intros p Hp. unfold canonicalURI. by destruct (p =? "")%string. }
  rewrite !string_join_cons in H. unfold newline in H. rewrite !append_cons, !append_nil_l in H.
  apply cut_unique in H as [-> H]; [|done..]. apply cut_unique in H as [-> H]; [|by apply Huri..].
  apply cut_unique in H as [-> H]; [|done..].
  change (string_join newline [?x]) with x in H. cbn [string_join String.concat] in H.
  assert (∀ h s p, h +:+ String "010" (s +:+ String "010" p) = (h +:+ String "010" s) +:+ String "010" p) as Hassoc.
  { intros h s p. by rewrite <- append_assoc, append_cons. }
  rewrite !Hassoc in H. apply cut_unique_last in H as [H ->]; [|done..].
  apply cut_unique_last in H as [-> ->]; done.
Qed.

Lemma signed_list_no_newline r signed h : well_formed_request r →
  header_lines (signed_header_values r) (string_split ";" signed) = Some h → no_byte "010" signed = true.
Proof.
  intros Hwf Hl. rewrite <- (string_join_split ";" signed). apply string_join_no_byte; [done|].
  eapply Forall_impl; [by eapply header_lines_keys|]. intros k [v Hv]. by apply (signed_values_no_newline r k v).
Qed.

Lemma clone_lookup (q : Values) k : (∀ k, q !! k ≠ Some []) → k ≠ "X-Amz-Signature" → cloneQueryWithoutSignature q !! k = q !! k.
Proof.
  intros Hq Hk. unfold cloneQueryWithoutSignature. rewrite lookup_omap, lookup_delete_ne by done. specialize (Hq k).
  destruct (q !! k) as [[|]|]; done.
Qed.

(** The signed part of a presigned request. *)
Definition presigned_canonical_of (r : Request) : option string :=
  presignedCanonicalRequest r (rq_Query r) (values_get (rq_Query r) "X-Amz-SignedHeaders").

(** The messages hashed last when a presigned request is checked: the
    canonical request and the two of the HMAC. *)
Definition hashed_messages (a : Authenticator) (r : Request) (credential : AccessCredential) : list (list Z) :=
  match presigned_claim r credential, presigned_canonical_of r with
  | Some c, Some canonical =>
      bytes_of canonical ::
      hmac_messages (deriveSigningKey (ac_SecretKey credential) (cl_dateStamp c) (signing_region a (cl_region c)) "s3")
        (string_to_sign sigv4_algorithm (cl_amzDate c) (scope_text (cl_dateStamp c) (cl_region c)) canonical)
  | _, _ => []
  end.

Lemma authorize_presigned_inv `{Env} a r credential w :
  (authorizePresignedURL a r credential w).1 = true →
  ∃ c canonical, presigned_claim r credential = Some c ∧ presigned_canonical_of r = Some canonical
    ∧ to_lower (values_get (rq_Query r) "X-Amz-Signature") = expected_signature a credential c canonical.
Proof.
  unfold authorizePresignedURL, check_claim, presigned_canonical_of. destruct (presigned_claim r credential) as [c|]; [|done].
  unfold bind, ret, now. cbn [fst snd]. intros [_ Hok]%andb_true_iff.
  destruct (presignedCanonicalRequest _ _ _) as [canonical|]; [|done]. apply String.eqb_eq in Hok. by exists c, canonical.
Qed.

Lemma last_line a1 b1 c1 h1 a2 b2 c2 h2 : no_byte "010" h1 = true → no_byte "010" h2 = true →
  string_join newline [a1; b1; c1; h1] = string_join newline [a2; b2; c2; h2] → h1 = h2.
Proof.
  intros H1 H2 H. rewrite !string_join_cons in H. unfold newline in H. rewrite !append_cons, !append_nil_l in H.
  cbn [string_join String.concat] in H.
  assert (∀ x y z v, x +:+ String "010" (y +:+ String "010" (z +:+ String "010" v))
                     = (x +:+ String "010" (y +:+ String "010" z)) +:+ String "010" v) as Hassoc.
  { intros x y z v. by rewrite <- append_assoc, append_cons, <- append_assoc, append_cons. }
  rewrite !Hassoc in H. by apply cut_unique_last in H as [_ H].
Qed.

Lemma hash_no_newline canonical : no_byte "010" (hexSHA256 canonical) = true.
Proof. unfold hexSHA256. apply hex_text_no_byte; [set_solver|apply sha256_bytes_range]. Qed.

Lemma signed_text_inj algorithm amz1 amz2 scope1 scope2 canonical1 canonical2 :
  no_collision (bytes_of canonical1) (bytes_of canonical2) →
  string_to_sign algorithm amz1 scope1 canonical1 = string_to_sign algorithm amz2 scope2 canonical2 → canonical1 = canonical2.
Proof.
  intros Hcf H. apply hexSHA256_binds; [exact Hcf|]. unfold string_to_sign in H.
  exact (last_line _ _ _ _ _ _ _ _ (hash_no_newline canonical1) (hash_no_newline canonical2) H).
Qed.

Lemma signature_inj secret date1 date2 region1 region2 text1 text2 :
  Forall2 no_collision (hmac_messages (deriveSigningKey secret date1 region1 "s3") text1)
                       (hmac_messages (deriveSigningKey secret date2 region2 "s3") text2) →
  signature secret date1 region1 text1 = signature secret date2 region2 text2 → text1 = text2.
Proof.
  intros Hcf H. apply (hmac_binds _ _ _ _ Hcf). unfold signature in H.
  exact (hex_text_inj _ _ (hmac_range _ _) (hmac_range _ _) H).
Qed.

(** Two equal signatures, hash and HMAC not colliding, are of the same
    canonical request. *)
Lemma signature_binds_canonical secret date1 date2 region1 region2 amz1 amz2 scope1 scope2 canonical1 canonical2 :
  Forall2 no_collision
    (bytes_of canonical1 :: hmac_messages (deriveSigningKey secret date1 region1 "s3") (string_to_sign sigv4_algorithm amz1 scope1 canonical1))
    (bytes_of canonical2 :: hmac_messages (deriveSigningKey secret date2 region2 "s3") (string_to_sign sigv4_algorithm amz2 scope2 canonical2)) →
  signature secret date1 region1 (string_to_sign sigv4_algorithm amz1 scope1 canonical1)
    = signature secret date2 region2 (string_to_sign sigv4_algorithm amz2 scope2 canonical2) → canonical1 = canonical2.
Proof.
  intros Hcf H. apply Forall2_cons in Hcf as [Hcanonical Hcf].
  exact (signed_text_inj _ _ _ _ _ _ _ Hcanonical (signature_inj _ _ _ _ _ _ _ Hcf H)).
Qed.

(** C18. What a presigned signature is good for: two well-formed requests that
    are accepted with the same signature under the same credential have the
    same method, the same path, the same query parameters (up to the order of
    repeated ones, the signature apart) and the same value of every signed
    header, unless SHA-256 collides on the messages hashed for them. *)
Theorem presigned_signature_binds `{Env} a credential r1 r2 w1 w2 :
  well_formed_request r1 → well_formed_request r2 →
  (authorizePresignedURL a r1 credential w1).1 = true → (authorizePresignedURL a r2 credential w2).1 = true →
  to_lower (values_get (rq_Query r1) "X-Amz-Signature") = to_lower (values_get (rq_Query r2) "X-Amz-Signature") →
  Forall2 no_collision (hashed_messages a r1 credential) (hashed_messages a r2 credential) →
  rq_Method r1 = rq_Method r2 ∧ canonicalURI (rq_EscapedPath r1) = canonicalURI (rq_EscapedPath r2) ∧
  (∀ k, k ≠ "X-Amz-Signature" → default [] (rq_Query r1 !! k) ≡ₚ default [] (rq_Query r2 !! k)) ∧
  (∀ name, name ∈ string_split ";" (values_get (rq_Query r1) "X-Amz-SignedHeaders") →
     signed_header_values r1 !! name = signed_header_values r2 !! name).
Proof.
  intros Hwf1 Hwf2 (c1 & can1 & Hc1 & Hcan1 & Hs1)%authorize_presigned_inv (c2 & can2 & Hc2 & Hcan2 & Hs2)%authorize_presigned_inv.
  unfold hashed_messages. rewrite Hc1, Hc2, Hcan1, Hcan2, Hs1, Hs2. unfold expected_signature. intros Hsig Hcf.
  apply signature_binds_canonical in Hsig; [|done]. subst can2. clear Hs1 Hs2 Hcf Hc1 Hc2.
  unfold presigned_canonical_of, presignedCanonicalRequest, canonicalHeadersForSignedList in Hcan1, Hcan2.
  set (sh1 := values_get (rq_Query r1) "X-Amz-SignedHeaders") in *. set (sh2 := values_get (rq_Query r2) "X-Amz-SignedHeaders") in *.
  destruct (sorted_strings (string_split ";" sh1)); [|done]. destruct (sorted_strings (string_split ";" sh2)); [|done].
  destruct (header_lines (signed_header_values r1) _) as [h1|] eqn:L1; [|done].
  destruct (header_lines (signed_header_values r2) _) as [h2|] eqn:L2; [|done].
  cbn [mbind option_bind] in Hcan1, Hcan2. injection Hcan1 as <-. injection Hcan2 as Heq. symmetry in Heq.
  apply canonical_request_inj in Heq as (Hm & Hp & Hq & Hh & Hsh & _);
    try apply canonicalQueryString_line; try apply Hwf1; try apply Hwf2; try done;
    try exact (signed_list_no_newline _ _ _ Hwf1 L1); try exact (signed_list_no_newline _ _ _ Hwf2 L2).
  split_and!; [done|done| |].
  - intros k Hk. apply (canonicalQueryString_inj _ _ k) in Hq. by rewrite !clone_lookup in Hq by (done || intros; apply parse_query_nonempty).
  - rewrite <- Hh, <- Hsh in L2. intros name Hname.
    by apply (header_lines_inj _ _ _ _ (λ k x Hx, proj2 (signed_values_no_newline _ _ _ Hwf1 Hx))
             (λ k x Hx, proj2 (signed_values_no_newline _ _ _ Hwf2 Hx)) L1 L2).
Qed.

(** ** A concrete presigned URL *)

Lemma presign_succeeds `{Env} a method target expires w :
  valid_method (if (method =? "")%string then "GET" else method) = true →
  ∃ url w1, PresignURL a method target expires w = (Some url, w1).
Proof.
  intros Hm. unfold PresignURL, new_request, presignedCanonicalRequest. rewrite Hm. unfold bind, ret, now.
  cbn [fst snd mbind option_bind]. rewrite host_lines by (intros k vs Hk; cbn in Hk; by rewrite lookup_empty in Hk).
  cbn [mbind option_bind]. by eexists _, _.
Qed.

Definition demo_authenticator : Authenticator := NewAuthenticator quiet_config.
Definition demo_target : URL := MkURL "s3.example:8080" "/b/k%20x" "versionId=v1".
Definition demo_request (url : URL) (headers : Values) : Request :=
  MkRequest "GET" "s3.example:8080" "/b/k x" (u_EscapedPath url) (u_RawQuery url) headers 0.

Lemma demo_can_presign : can_presign demo_authenticator.
Proof. by constructor. Qed.

Lemma demo_year : year_shown demo_time.
Proof. unfold year_shown. assert (cv_year (civil_of_days (time_days demo_time)) = 2022) as -> by (vm_compute; reflexivity). lia. Qed.

Lemma demo_presigned url h : no_host_header h →
  presigned_request "GET" demo_target url hour demo_time demo_time (demo_request url h).
Proof. intros Hh. by constructor. Qed.

Definition demo_headers : Values := {[ "Accept" := ["*/*"] ]}.

Lemma demo_headers_names k vs : demo_headers !! k = Some vs → to_lower k ≠ "host" ∧ no_byte "010" k = true.
Proof. unfold demo_headers. intros H. by apply lookup_singleton_Some in H as [<- <-]. Qed.

Lemma no_headers_names (k : string) (vs : list string) : (∅ : Values) !! k = Some vs → to_lower k ≠ "host" ∧ no_byte "010" k = true.
Proof. by rewrite lookup_empty. Qed.

(** What a presigned GET of the demo gives, for any unsigned headers. *)
Lemma demo_presigned_request `{!Env} url w1 h :
  @PresignURL demo_env demo_authenticator "GET" demo_target hour (start empty_DB) = (Some url, w1) →
  (∀ k vs, h !! k = Some vs → to_lower k ≠ "host" ∧ no_byte "010" k = true) →
  well_formed_request (demo_request url h) ∧
  (@authorizePresignedURL demo_env demo_authenticator (demo_request url h) (root_credential demo_authenticator) (start empty_DB)).1 = true ∧
  presigned_canonical_of (demo_request url h) = Some (canonical_request "GET" (u_EscapedPath url)
    (canonicalQueryString (cloneQueryWithoutSignature (rq_Query (demo_request url h)))) ("host:" +:+ "s3.example:8080" +:+ newline)
    "host" "UNSIGNED-PAYLOAD").
Proof.
  intros Hrun Hh. assert (no_host_header h) as Hno by (intros k vs Hk; by apply (Hh k vs)).
  split_and!.
  - constructor; try done; [|intros k vs Hk; by apply (Hh k vs)]. cbn [demo_request rq_EscapedPath].
    by rewrite (proj1 (presign_run _ _ _ _ _ _ _ Hrun)).
  - exact (presigned_url_authorized _ _ _ _ _ _ _ _ _ Hrun demo_can_presign demo_year ltac:(discriminate) (demo_presigned _ _ Hno)).
  - unfold presigned_canonical_of, presignedCanonicalRequest.
    rewrite (presigned_query _ _ _ _ _ _ _ _ _ Hrun (demo_presigned url h Hno)).
    destruct (presign_query_get demo_authenticator demo_time hour (parse_query (u_RawQuery demo_target))
      (signature (au_secretKey demo_authenticator) (date_stamp demo_time) (au_region demo_authenticator)
       (string_to_sign sigv4_algorithm (time_stamp demo_time) (scope_text (date_stamp demo_time) (au_region demo_authenticator))
          (presigned_canonical "GET" demo_target
             (presign_query demo_authenticator demo_time hour (parse_query (u_RawQuery demo_target))))))) as (_ & _ & _ & _ & G5 & _).
    change (env_now (w_clock (start empty_DB))) with demo_time. rewrite G5. rewrite host_lines by done. done.
Qed.

Lemma presigned_url_accepted_witness :
  ∃ url, (@PresignURL demo_env demo_authenticator "GET" demo_target hour (start empty_DB)).1 = Some url
    ∧ (@Authenticate demo_env demo_authenticator (demo_request url demo_headers) (start empty_DB)).1
        = Some (principalFromCredential (root_credential demo_authenticator)).
Proof.
  destruct (@presign_succeeds demo_env demo_authenticator "GET" demo_target hour (start empty_DB)) as (url & w1 & Hrun);
    [reflexivity|].
  exists url. split; [by rewrite Hrun|].
  apply (@presigned_url_accepted demo_env demo_authenticator "GET" demo_target hour (start empty_DB) url w1
           (demo_request url demo_headers) (start empty_DB) Hrun); [exact demo_can_presign|exact demo_year|discriminate| |done|done].
  apply demo_presigned. intros k vs Hk. by apply (demo_headers_names k vs).
Defined.

(** The same URL fetched with and without a header that is not signed. *)
Lemma presigned_signature_binds_witness :
  ∃ url, (@PresignURL demo_env demo_authenticator "GET" demo_target hour (start empty_DB)).1 = Some url ∧
    ∀ name, name ∈ string_split ";" (values_get (rq_Query (demo_request url demo_headers)) "X-Amz-SignedHeaders") →
      signed_header_values (demo_request url demo_headers) !! name = signed_header_values (demo_request url ∅) !! name.
Proof.
  destruct (@presign_succeeds demo_env demo_authenticator "GET" demo_target hour (start empty_DB)) as (url & w1 & Hrun);
    [reflexivity|].
  exists url. split; [by rewrite Hrun|].
  destruct (@demo_presigned_request demo_env url w1 demo_headers Hrun demo_headers_names) as (W1 & A1 & C1).
  destruct (@demo_presigned_request demo_env url w1 ∅ Hrun no_headers_names) as (W2 & A2 & C2).
  assert (hashed_messages demo_authenticator (demo_request url demo_headers) (root_credential demo_authenticator)
          = hashed_messages demo_authenticator (demo_request url ∅) (root_credential demo_authenticator)) as Hsame.
  { unfold hashed_messages. by rewrite C1, C2. }
  refine (proj2 (proj2 (proj2 (@presigned_signature_binds demo_env demo_authenticator (root_credential demo_authenticator)
    (demo_request url demo_headers) (demo_request url ∅) (start empty_DB) (start empty_DB) W1 W2 A1 A2 eq_refl _)))).
  rewrite Hsame. apply Forall_Forall2_diag, Forall_true. by intros x.
Defined.
