(* ===== verification/S3Compat.v ===== *)
(** The adapter of S3 compatible services ([provider/s3compat.go]): requests
    signed with AWS Signature Version 4.

    An endpoint is an absolute or relative URL without user information and
    fragment. The answers' XML is read by [encoding/xml]. *)
From S2P Require Import Prelude GoTime Sha256 Json Text Url Stamp Http HttpDate Hmac Domain ProviderErrors World SigV4 Drivers.

(** ** Signing *)

Definition unsignedPayloadHash : string := "UNSIGNED-PAYLOAD".

(** The headers by lower-case name, the host with them. *)
Definition sent_header_values (r : ClientRequest) : gmap string string :=
  map_fold (λ name headers values,
    <[to_lower name := string_join "," ((λ h, string_join " " (fields h)) <$> headers)]> values)
    {[ "host" := pu_Host (cr_URL r) ]} (cr_Header r).

Definition canonicalHeaders (r : ClientRequest) : string * string :=
  let headers := sent_header_values r in
  let keys := sort_strings (map_to_list headers).*1 in
  (String.concat "" ((λ key, key +:+ ":" +:+ default "" (headers !! key) +:+ newline) <$> keys), string_join ";" keys).

Definition canonicalQuery (values : Values) : string :=
  string_join "&" ((λ kv, query_escape kv.1 +:+ "=" +:+ query_escape kv.2) <$> pairs_by sort_strings values).

Definition uriEncodePath (p : string) : string := if (p =? "")%string then "/" else p.

Definition adapter_region (account : ProviderAccount) : string :=
  if (p_Region account =? "")%string then "auto" else p_Region account.

(** The request as it is signed at a time, and the header that says so. *)
Definition dated_request (r : ClientRequest) (t : Time) (payloadHash : string) : ClientRequest :=
  with_header "X-Amz-Content-Sha256" payloadHash (with_header "X-Amz-Date" (time_stamp t) r).

Definition signing_text (r : ClientRequest) (t : Time) (region payloadHash : string) : string :=
  let '(canonicalHeaders, signedHeaders) := canonicalHeaders r in
  let canonicalRequest :=
    string_join newline
      [cr_Method r; uriEncodePath (pu_EscapedPath (cr_URL r)); canonicalQuery (parse_query (pu_RawQuery (cr_URL r)));
       canonicalHeaders; signedHeaders; payloadHash] in
  string_join newline
    ["AWS4-HMAC-SHA256"; time_stamp t; date_stamp t +:+ "/" +:+ region +:+ "/s3/aws4_request"; hexSHA256 canonicalRequest].

Definition sign_at (t : Time) (account : ProviderAccount) (payloadHash : string) (r : ClientRequest) : ClientRequest :=
  let region := adapter_region account in
  let r := dated_request r t payloadHash in
  let scope := date_stamp t +:+ "/" +:+ region +:+ "/s3/aws4_request" in
  let signingKey := deriveSigningKey (p_SecretKey account) (date_stamp t) region "s3" in
  let signature := hex_text (hmacSHA256 signingKey (signing_text r t region payloadHash)) in
  with_header "Authorization"
    ("AWS4-HMAC-SHA256 Credential=" +:+ p_AccessKey account +:+ "/" +:+ scope +:+ ", SignedHeaders=" +:+ (canonicalHeaders r).2
       +:+ ", Signature=" +:+ signature) r.

Section s3compat.
Context `{DriverHost}.

(** ** URLs *)

Definition endpoint_url (account : ProviderAccount) : result ParsedURL :=
  if (p_Endpoint account =? "")%string then Err (ErrText ("provider " +:+ p_ID account +:+ " endpoint is required"))
  else match dh_url (p_Endpoint account) with
       | Ok base => Ok base
       | Err e => Err (ErrWrap "parse provider endpoint" e)
       end.

Definition rootURL (account : ProviderAccount) : result ParsedURL :=
  try! base := endpoint_url account in
  if (pu_Scheme base =? "")%string || (pu_Host base =? "")%string
  then Err (ErrText ("provider " +:+ p_ID account +:+ " endpoint must be an absolute URL"))
  else Ok base.

Definition bucketURL (account : ProviderAccount) (bucket : string) : result ParsedURL :=
  try! base := endpoint_url account in
  Ok (with_path (filepath_join [pu_Path base; bucket]) base).

Definition objectURL (account : ProviderAccount) (bucket key : string) : result ParsedURL :=
  try! base := endpoint_url account in
  Ok (with_path (filepath_join [pu_Path base; bucket; key]) base).

Section operation.
Variable calls : list Call.

Definition signRequest (account : ProviderAccount) (payloadHash : string) (r : ClientRequest) : Op ClientRequest :=
  do! t := op_now calls in
  op_ret (sign_at t account payloadHash r).

Definition s3_do (op : string) (account : ProviderAccount) (payloadHash : string) (r : ClientRequest) : Op (result ClientResponse) :=
  do! r := signRequest account payloadHash r in
  send_or calls (unanswered op) r.

(** ** Operations *)

Definition s3_Put (account : ProviderAccount) (input : PutObjectInput) (body : Reader) : Op (result StoredObject) :=
  let op := "put s3-compatible object"%string in
  let remoteKey := trim_prefix (StorageKey input) "/" in
  do? endpoint := op_lift (objectURL account (p_Bucket account) remoteKey) in
  let r := client_request "PUT" endpoint body in
  let r := if 0 <=? i_Size input then r <| cr_ContentLength := i_Size input |> else r in
  let r := if (i_ContentType input =? "")%string then r else with_header "Content-Type" (i_ContentType input) r in
  let r := if (i_ChecksumSHA256 input =? "")%string then r
           else with_header "X-Amz-Meta-Bucketmux-Sha256" (i_ChecksumSHA256 input) r in
  do? res := s3_do op account unsignedPayloadHash r in
  if negb (success (cs_Status res)) then http_refusal calls op res
  else
    let etag := cs_header res "ETag" in
    let checksum := if (i_ChecksumSHA256 input =? "")%string then sha256_hex (string_take (cs_Sent res) (rd_data body))
                    else i_ChecksumSHA256 input in
    op_ok (MkStoredObject (p_ID account) (p_Bucket account) remoteKey (i_Size input) (i_ContentType input)
             (if (etag =? "")%string then quoted "streamed-upload" else etag) checksum).

Definition s3_object_request (method op : string) (account : ProviderAccount) (obj : ObjectRecord) : Op (result ClientResponse) :=
  do? endpoint := op_lift (objectURL account (o_RemoteBucket obj) (o_RemoteKey obj)) in
  s3_do op account emptyPayloadHash (client_request method endpoint empty_body).

Definition s3_Get (account : ProviderAccount) (obj : ObjectRecord) : Op (result (Reader * ObjectRecord)) :=
  do? res := s3_object_request "GET" "get s3-compatible object" account obj in
  if negb (cs_Status res =? 200) then http_refusal calls "get s3-compatible object" res
  else op_ok (cs_Body res, obj).

Definition s3_Head (account : ProviderAccount) (obj : ObjectRecord) : Op (result ObjectRecord) :=
  do? res := s3_object_request "HEAD" "head s3-compatible object" account obj in
  if negb (cs_Status res =? 200) then http_refusal calls "head s3-compatible object" res
  else op_ok (obj <| o_ETag := cs_header res "ETag" |> <| o_ContentType := cs_header res "Content-Type" |>
                  <| o_Size := cs_ContentLength res |> <| o_ChecksumSHA256 := cs_header res "X-Amz-Meta-Bucketmux-Sha256" |>).

Definition s3_Delete (account : ProviderAccount) (obj : ObjectRecord) : Op (result unit) :=
  do? res := s3_object_request "DELETE" "delete s3-compatible object" account obj in
  if negb (success (cs_Status res)) then http_refusal calls "delete s3-compatible object" res
  else op_ok tt.

Definition s3_Capabilities (_ : ProviderAccount) : ProviderCapabilities :=
  MkProviderCapabilities true true false true
    ["The S3 protocol does not expose a portable account quota; capacity is configured and usage is reconciled from object inventory."].

Definition s3_Health (account : ProviderAccount) : Op ProviderHealth :=
  do! started := op_now calls in
  if (p_Endpoint account =? "")%string then unhealthy calls account started "endpoint is required"
  else if (p_Bucket account =? "")%string then unhealthy calls account started "bucket is required"
  else if (p_AccessKey account =? "")%string || (p_SecretKey account =? "")%string
  then degraded calls account started "access key or secret key is empty"
  else match bucketURL account (p_Bucket account) with
       | Err e => unhealthy calls account started (error_text e)
       | Ok endpoint =>
           do! r := signRequest account emptyPayloadHash (client_request "HEAD" endpoint empty_body) in
           do! answer := op_send calls r in
           match answer with
           | Err e => unhealthy calls account started ("head bucket failed: " +:+ error_text e)
           | Ok res =>
               let status := cs_Status res in
               if (200 <=? status) && (status <? 300) then healthy calls account started "bucket responded to HeadBucket"
               else if (status =? 403) || (status =? 401) then unhealthy calls account started ("credentials rejected: status=" +:+ itoa status)
               else if status =? 404 then unhealthy calls account started ("bucket not found: status=" +:+ itoa status)
               else degraded calls account started ("unexpected HeadBucket status=" +:+ itoa status)
           end
       end.

Definition s3_DiscoverBuckets (account : ProviderAccount) : Op (result (list ProviderBucket)) :=
  let op := "discover s3-compatible buckets"%string in
  do? endpoint := op_lift (rootURL account) in
  do? res := s3_do op account emptyPayloadHash (client_request "GET" endpoint empty_body) in
  if negb (success (cs_Status res)) then http_refusal calls op res
  else op_ret (match dh_buckets (cs_Body res) with
               | Ok buckets => Ok ((λ '(name, created), MkProviderBucket name (default zero_time (parse_rfc3339 created))) <$> buckets)
               | Err e => Err (ErrWrap "decode s3-compatible bucket list" e)
               end).

Definition s3_list_query (query : Values) (prefix continuationToken : string) (limit : Z) : Values :=
  let query := values_set query "list-type" "2" in
  let query := values_set query "max-keys" (itoa limit) in
  let query := if (prefix =? "")%string then query else values_set query "prefix" prefix in
  if (continuationToken =? "")%string then query else values_set query "continuation-token" continuationToken.

Definition s3_ListObjects (account : ProviderAccount) (bucket prefix continuationToken : string) (limit : Z)
  : Op (result ProviderObjectPage) :=
  let op := "list s3-compatible objects"%string in
  let limit := if (limit <=? 0) || (1000 <? limit) then 1000 else limit in
  do? endpoint := op_lift (bucketURL account bucket) in
  let endpoint := with_query (s3_list_query (parse_query (pu_RawQuery endpoint)) prefix continuationToken limit) endpoint in
  do? res := s3_do op account emptyPayloadHash (client_request "GET" endpoint empty_body) in
  if negb (success (cs_Status res)) then http_refusal calls op res
  else op_ret (match dh_objects (cs_Body res) with
               | Ok (objects, next) =>
                   Ok (MkProviderObjectPage
                         ((λ '(key, modified, etag, size), MkProviderObject key size etag "" (default zero_time (parse_rfc3339 modified))) <$> objects)
                         next)
               | Err e => Err (ErrWrap "decode s3-compatible object list" e)
               end).
End operation.

(** [NewS3CompatAdapter()]. It keeps no state of its own. *)
Definition answered {A} (m : list Call → Op A) (calls : list Call) : A := (m calls (MkOpState dh_disk 0)).1.

Definition NewS3CompatAdapter : Adapter :=
  MkAdapter
    (λ calls account input body, answered (λ h, s3_Put h account input body) calls)
    None
    (λ calls account obj, answered (λ h, s3_Get h account obj) calls)
    (λ calls account obj, answered (λ h, s3_Head h account obj) calls)
    (λ calls account obj, answered (λ h, s3_Delete h account obj) calls)
    (λ calls account, answered (λ h, s3_Health h account) calls)
    (Some (λ calls account bucket prefix token limit, answered (λ h, s3_ListObjects h account bucket prefix token limit) calls))
    None
    (Some (λ calls account, answered (λ h, s3_DiscoverBuckets h account) calls))
    (Some s3_Capabilities).
End s3compat.
