(* ===== verification/S3CompatFacts.v ===== *)
(** The requests the S3 adapter signs are the ones the gateway's header
    authentication accepts: the two sides of Signature Version 4 agree. *)
From S2P Require Import Prelude GoTime Sha256 Json Text Url Stamp Http Hmac Domain World Placement Demo Access SigV4 SigV4Facts Drivers S3Compat.

(** ** Names and texts of token bytes *)

Definition token_text (s : string) : bool := free_of (λ a, negb (token_byte a)) s.

Lemma token_text_cons a s : token_text (String a s) = token_byte a && token_text s.
Proof. unfold token_text, free_of. cbn. by rewrite negb_involutive. Qed.

Lemma token_lower_byte a : token_byte a = true → token_byte (lower_byte a) = true ∧ byte_of a < 128.
Proof. all_bytes a; try done; intros _; split; reflexivity. Qed.

Lemma token_lower s : token_text s = true → token_text (to_lower s) = true.
Proof.
  induction s as [|a s IH]; [done|]. rewrite token_text_cons. intros [Ha Hs]%andb_true_iff.
  destruct (token_lower_byte a Ha) as [Hl Hb]. rewrite to_lower_ascii by done. by rewrite token_text_cons, Hl, IH.
Qed.

Lemma to_lower_nonempty s : token_text s = true → s ≠ "" → to_lower s ≠ "".
Proof.
  destruct s as [|a s]; [done|]. rewrite token_text_cons. intros [Ha _]%andb_true_iff _.
  rewrite to_lower_ascii by by apply token_lower_byte. done.
Qed.

Lemma token_no_byte c s : token_byte c = false → token_text s = true → no_byte c s = true.
Proof.
  intros Hc. induction s as [|a s IH]; [done|]. rewrite token_text_cons, no_byte_cons. intros [Ha Hs]%andb_true_iff.
  rewrite IH by done. destruct (Ascii.eqb_spec c a); [congruence|done].
Qed.

(** ** Trimming what needs none *)

(** A byte no white space begins or ends with. *)
Definition solid (a : ascii) : bool := negb (ascii_space (byte_of a)) && (byte_of a <? 128).

Lemma token_solid a : token_byte a = true → solid a = true.
Proof. all_bytes a; done. Qed.

Lemma solid_lead m a l : solid a = true → lead m (a :: l) = 0%nat.
Proof.
  intros [Hs%negb_true_iff Hb%Z.ltb_lt]%andb_true_iff. unfold lead. rewrite Hs. destruct l as [|b l]; [done|].
  assert (∀ x, space2 (byte_of a) x = false ∧ space2 x (byte_of a) = false) as H2.
  { intros x. unfold space2. lia. }
  assert (∀ x y, space3 (byte_of a) x y = false ∧ space3 x y (byte_of a) = false) as H3.
  { intros x y. unfold space3. lia. }
  destruct m; [rewrite (proj2 (H2 _))|rewrite (proj1 (H2 _))]; (destruct l as [|c l]; [done|]);
    [rewrite (proj2 (H3 _ _))|rewrite (proj1 (H3 _ _))]; done.
Qed.

Lemma trim_space_solid a s b : solid a = true → solid b = true → trim_space (String a (s +:+ String b "")) = String a (s +:+ String b "").
Proof.
  intros Ha Hb. unfold trim_space. cbv zeta. set (l := list_ascii_of_string (String a (s +:+ String b ""))).
  assert (l = a :: list_ascii_of_string s ++ [b]) as Hl by (unfold l; cbn [list_ascii_of_string]; by rewrite list_ascii_app).
  assert (trim_left_ascii false (List.length l) l = l) as -> by (apply trim_unspaced; rewrite Hl; by apply solid_lead).
  rewrite (trim_unspaced true) by (rewrite Hl; cbn [rev]; rewrite rev_app_distr; by apply solid_lead).
  rewrite rev_involutive. unfold l. apply string_of_list_ascii_of_string.
Qed.

Lemma trim_space_blank s : trim_space (String " " s) = trim_space s.
Proof.
  unfold trim_space. cbn [list_ascii_of_string List.length]. rewrite trim_step.
  change (lead false (" "%char :: list_ascii_of_string s)) with 1%nat. cbn [drop]. done.
Qed.

(** The last byte of a text. *)
Lemma string_last s : s ≠ "" → ∃ t b, s = t +:+ String b "".
Proof.
  induction s as [|a s IH]; [done|]. intros _. destruct s as [|c s]; [by exists "", a|].
  destruct IH as (t & b & ->); [done|]. by exists (String a t), b.
Qed.

Lemma trim_space_token p s : token_text p = true → p ≠ "" → token_text s = true → s ≠ "" → ∀ m, trim_space (p +:+ m +:+ s) = p +:+ m +:+ s.
Proof.
  intros Hp Hpne Hs Hsne m. destruct p as [|a p]; [done|]. destruct (string_last s Hsne) as (t & b & ->).
  rewrite token_text_cons in Hp. apply andb_true_iff in Hp as [Ha _]. unfold token_text in Hs.
  rewrite free_of_app in Hs. apply andb_true_iff in Hs as [_ Hb]. cbn in Hb. rewrite negb_involutive, andb_true_r in Hb.
  rewrite append_cons, !append_assoc. apply trim_space_solid; by apply token_solid.
Qed.

(** ** Headers *)

Definition clean_values (vs : list string) : string := string_join "," ((λ h, string_join " " (fields h)) <$> vs).

Definition lowered (h : Values) (m : gmap string string) : gmap string string :=
  map_fold (λ name headers values, <[to_lower name := clean_values headers]> values) m h.

Definition distinct_names (h : Values) : Prop :=
  ∀ k k' vs vs', h !! k = Some vs → h !! k' = Some vs' → to_lower k = to_lower k' → k = k'.

Lemma lowered_spec (h : Values) m : distinct_names h →
  (∀ k vs, h !! k = Some vs → lowered h m !! to_lower k = Some (clean_values vs)) ∧
  (∀ x, (∀ k vs, h !! k = Some vs → to_lower k ≠ x) → lowered h m !! x = m !! x).
Proof.
  unfold lowered. apply (map_fold_weak_ind (λ (r : gmap string string) (h : Values), distinct_names h →
    (∀ k vs, h !! k = Some vs → r !! to_lower k = Some (clean_values vs)) ∧
    (∀ x, (∀ k vs, h !! k = Some vs → to_lower k ≠ x) → r !! x = m !! x))).
  - intros _. split; [intros k vs Hk; by rewrite lookup_empty in Hk|done].
  - intros name headers h' r Hname IH Hd. destruct IH as [IH1 IH2].
    { intros k k' vs vs' Hk Hk'. apply (Hd k k' vs vs'); rewrite lookup_insert_ne; try done; intros ->; congruence. }
    split.
    + intros k vs Hk. destruct (decide (k = name)) as [->|Hne].
      * rewrite lookup_insert_eq in Hk. injection Hk as <-. by rewrite lookup_insert_eq.
      * rewrite lookup_insert_ne in Hk by done. rewrite lookup_insert_ne; [by apply IH1|].
        intros Heq. apply Hne. symmetry. apply (Hd name k headers vs); [by rewrite lookup_insert_eq|by rewrite lookup_insert_ne|done].
    + intros x Hx. rewrite lookup_insert_ne; [|by apply (Hx name headers); rewrite lookup_insert_eq].
      apply IH2. intros k vs Hk. apply (Hx k vs). rewrite lookup_insert_ne; [done|]. intros ->. congruence.
Qed.

(** The lower-case names of a request's headers, and what goes with them. *)
Lemma lowered_keys (h : Values) m x v : distinct_names h → lowered h m !! x = Some v →
  (∃ k vs, h !! k = Some vs ∧ to_lower k = x ∧ v = clean_values vs) ∨ m !! x = Some v.
Proof.
  intros Hd Hx. destruct (lowered_spec h m Hd) as [H1 H2].
  destruct (decide (Exists (λ '(k, vs), to_lower k = x) (map_to_list h))) as [Hex|Hno].
  - apply Exists_exists in Hex as ((k & vs) & Hin & Hk). apply elem_of_map_to_list in Hin. left. exists k, vs.
    split_and!; [done..|]. apply H1 in Hin. rewrite Hk, Hx in Hin. by injection Hin.
  - right. rewrite <- H2; [done|]. intros k vs Hk Heq. apply Hno, Exists_exists. exists (k, vs). split; [by apply elem_of_map_to_list|done].
Qed.

(** *** The lines of the headers signed *)

Lemma concat_cons x l : String.concat "" (x :: l) = x +:+ String.concat "" l.
Proof. destruct l; cbn [String.concat]; [by rewrite append_nil_r|by rewrite append_nil_l]. Qed.

Lemma header_lines_all (m values : gmap string string) keys :
  Forall (λ k, k ≠ ""%string ∧ values !! k = Some (default "" (m !! k))) keys →
  header_lines values keys = Some (String.concat "" ((λ k, k +:+ ":" +:+ default "" (m !! k) +:+ newline) <$> keys)).
Proof.
  induction 1 as [|k keys [Hk Hv] _ IH]; [done|]. cbn [header_lines]. rewrite (proj2 (String.eqb_neq k "")) by done.
  rewrite Hv, IH. cbn [mbind option_bind]. rewrite fmap_cons, concat_cons, <- !append_assoc. done.
Qed.

Lemma sorted_strings_sort l : sorted_strings (sort_strings l) = true.
Proof.
  pose proof (Sorted_merge_sort text_le l) as Hs. unfold sort_strings. induction Hs as [|x l' Hs IH Hd]; [done|].
  destruct l' as [|y l']; [done|]. change (negb (text_ltb y x) && sorted_strings (y :: l') = true). rewrite IH, andb_true_r. apply negb_true_iff.
  inversion Hd as [|? ? Hxy]; subst. unfold text_le, text_leb in Hxy. unfold text_ltb.
  destruct (String.leb y x) eqn:E; [|done]. by rewrite (String.leb_antisym _ _ Hxy E), String.eqb_refl.
Qed.

(** ** Requests on their way *)

(** Header names of token bytes, none of them the host; and a query that needs
    no blank and carries no credential. *)
Record plain_request (q : ClientRequest) : Prop := {
  pl_names : ∀ k vs, cr_Header q !! k = Some vs → token_text k = true ∧ k ≠ "";
  pl_query : ∀ k v, (k, v) ∈ pairs_by sort_strings (parse_query (pu_RawQuery (cr_URL q))) → no_byte " " k = true ∧ no_byte " " v = true;
  pl_unsigned : cr_Header q !! "Authorization" = None;
  pl_credential : parse_query (pu_RawQuery (cr_URL q)) !! "X-Amz-Credential" = None;
  pl_signature : parse_query (pu_RawQuery (cr_URL q)) !! "X-Amz-Signature" = None }.

(** The request a server receives: the transport may add headers, in other
    names than those it was given, and it writes an empty path as a slash. *)
Record delivered (q : ClientRequest) (r : Request) : Prop := {
  dl_method : rq_Method r = cr_Method q;
  dl_host : rq_Host r = pu_Host (cr_URL q);
  dl_path : canonicalURI (rq_EscapedPath r) = uriEncodePath (pu_EscapedPath (cr_URL q));
  dl_query : rq_RawQuery r = pu_RawQuery (cr_URL q);
  dl_headers : cr_Header q ⊆ rq_Header r;
  dl_distinct : distinct_names (rq_Header r);
  dl_no_host : no_host_header (rq_Header r) }.

Lemma aws_escape_spaceless s : no_byte " " s = true → awsQueryEscape s = query_escape s.
Proof.
  rewrite awsQueryEscape_eq. induction s as [|a s IH]; [done|]. rewrite no_byte_cons. intros [Ha Hs]%andb_true_iff.
  cbn [aws_escape]. rewrite query_escape_cons, IH by done. unfold aws_escape_byte. destruct (ascii_dec a " ") as [->|]; [done|done].
Qed.

Lemma canonical_queries_agree (q : Values) :
  (∀ k v, (k, v) ∈ pairs_by sort_strings q → no_byte " " k = true ∧ no_byte " " v = true) → canonicalQuery q = canonicalQueryString q.
Proof.
  intros Hq. unfold canonicalQuery, canonicalQueryString. f_equal. apply list_fmap_ext. intros i [k v] Hi.
  apply list_elem_of_lookup_2 in Hi. destruct (Hq k v Hi) as [Hk Hv]. unfold canonical_part. cbn [fst snd].
  by rewrite !aws_escape_spaceless.
Qed.

Lemma distinct_names_subseteq (h h' : Values) : h ⊆ h' → distinct_names h' → distinct_names h.
Proof. intros Hs Hd k k' vs vs' Hk Hk'. apply (Hd k k' vs vs'); by eapply lookup_weaken. Qed.

Definition sent_keys (q : ClientRequest) : list string := sort_strings (map_to_list (sent_header_values q)).*1.

Lemma sent_header_lowered q : sent_header_values q = lowered (cr_Header q) {[ "host" := pu_Host (cr_URL q) ]}.
Proof. done. Qed.
Lemma signed_header_lowered r : signed_header_values r = lowered (rq_Header r) {[ "host" := rq_Host r ]}.
Proof. done. Qed.

Lemma sent_key q x : x ∈ sent_keys q → is_Some (sent_header_values q !! x).
Proof.
  unfold sent_keys. rewrite sort_strings_perm, list_elem_of_fmap. intros ([k v] & -> & H%elem_of_map_to_list). by exists v.
Qed.

Section delivered.
Context (q : ClientRequest) (r : Request) (Hplain : plain_request q) (Hdel : delivered q r).

Lemma sent_distinct : distinct_names (cr_Header q).
Proof. eapply distinct_names_subseteq; apply Hdel. Qed.

Lemma sent_token x : x ∈ sent_keys q → token_text x = true ∧ x ≠ "".
Proof.
  intros [v Hv]%sent_key. rewrite sent_header_lowered in Hv. apply lowered_keys in Hv as [(k & vs & Hk & <- & _)|Hv]; [| |apply sent_distinct].
  - destruct (pl_names q Hplain k vs Hk) as [Ht Hne]. split; [by apply token_lower|by apply to_lower_nonempty].
  - by apply lookup_singleton_Some in Hv as [<- _].
Qed.

(** What the server signs for a name is what the client signed. *)
Lemma signed_value x : x ∈ sent_keys q → signed_header_values r !! x = sent_header_values q !! x.
Proof.
  intros [v Hv]%sent_key. rewrite Hv. rewrite sent_header_lowered in Hv. rewrite signed_header_lowered.
  apply lowered_keys in Hv as [(k & vs & Hk & <- & ->)|Hv]; [| |apply sent_distinct].
  - apply lowered_spec; [apply Hdel|]. eapply lookup_weaken; [done|apply Hdel].
  - apply lookup_singleton_Some in Hv as [<- <-]. rewrite (proj2 (lowered_spec _ _ (dl_distinct q r Hdel))) by apply Hdel.
    by rewrite lookup_singleton_eq, (dl_host q r Hdel).
Qed.

Lemma sent_keys_ne : sent_keys q ≠ [].
Proof.
  assert ("host" ∈ sent_keys q) as Hh; [|intros E; rewrite E in Hh; by apply elem_of_nil in Hh].
  unfold sent_keys. rewrite sort_strings_perm. apply list_elem_of_fmap. exists ("host", pu_Host (cr_URL q)). split; [done|].
  apply elem_of_map_to_list. rewrite sent_header_lowered. rewrite (proj2 (lowered_spec _ _ sent_distinct)); [by rewrite lookup_singleton_eq|].
  intros k vs Hk. apply (dl_no_host q r Hdel k vs). eapply lookup_weaken; [done|apply Hdel].
Qed.

(** The signed headers name themselves. *)
Lemma signed_lines : canonicalHeadersForSignedList r (canonicalHeaders q).2 = Some (canonicalHeaders q).1.
Proof.
  unfold canonicalHeaders. cbn [fst snd]. change (sort_strings (map_to_list (sent_header_values q)).*1) with (sent_keys q).
  unfold canonicalHeadersForSignedList. rewrite string_split_join.
  - unfold sent_keys at 1. rewrite sorted_strings_sort. apply header_lines_all, Forall_forall. intros x Hx.
    split; [by apply sent_token|]. rewrite signed_value by done. destruct (sent_key q x Hx) as [v ->]. done.
  - apply sent_keys_ne.
  - apply Forall_forall. intros x Hx. apply token_no_byte; [done|]. by apply sent_token.
Qed.
End delivered.

(** ** The Authorization header *)

Lemma string_join_last sep l k : ∃ m, string_join sep (l ++ [k]) = m +:+ k.
Proof.
  induction l as [|x l (m & IH)]; [by exists ""|]. exists (x +:+ sep +:+ m).
  destruct l as [|y l]; cbn [app] in *; rewrite string_join_cons, IH, !append_assoc; done.
Qed.

Lemma token_hex l : Forall (λ b, 0 ≤ b < 256) l → token_text (hex_text l) = true.
Proof.
  assert (∀ d, 0 ≤ d < 16 → token_byte (hex_digit d) = true) as Hd.
  { intros d Hd. assert (d = 0 ∨ d = 1 ∨ d = 2 ∨ d = 3 ∨ d = 4 ∨ d = 5 ∨ d = 6 ∨ d = 7 ∨ d = 8 ∨ d = 9 ∨ d = 10 ∨ d = 11 ∨ d = 12 ∨ d = 13 ∨ d = 14 ∨ d = 15) as Hcases by lia.
    repeat destruct Hcases as [->|Hcases]; [reflexivity..|]. by subst. }
  induction 1 as [|b l Hb _ IH]; [done|]. rewrite hex_text_cons.
  rewrite !token_text_cons, IH, !Hd; [done| |]; [apply Z.mod_pos_bound; lia|split; [apply Z.div_pos|apply Z.div_lt_upper_bound]; lia].
Qed.

Lemma header_field_text k v : k = "Credential" ∨ k = "SignedHeaders" ∨ k = "Signature" →
  (∃ m e, v = m +:+ e ∧ token_text e = true ∧ e ≠ "") →
  header_field (k +:+ "=" +:+ v) = Some (k, v) ∧ header_field (" " +:+ k +:+ "=" +:+ v) = Some (k, v).
Proof.
  intros Hk (m & e & Hv & He & Hne).
  assert (header_field (k +:+ "=" +:+ v) = Some (k, v)) as Hf.
  { unfold header_field. rewrite Hv. replace (k +:+ "=" +:+ m +:+ e) with (k +:+ ("=" +:+ m) +:+ e) by by rewrite <- append_assoc.
    rewrite trim_space_token; [|by destruct Hk as [->|[->| ->]]|by destruct Hk as [->|[->| ->]]|done|done].
    rewrite <- append_assoc, cut_escaped by by destruct Hk as [->|[->| ->]]. cbn [mbind option_bind].
    rewrite !(proj2 (String.eqb_neq _ "")); [done|destruct m; [done|by rewrite append_cons]|by destruct Hk as [->|[->| ->]]]. }
  split; [done|]. unfold header_field in *. change (" " +:+ k +:+ "=" +:+ v) with (String " " (k +:+ "=" +:+ v)). by rewrite trim_space_blank.
Qed.

Lemma three_fields (a b c : string) :
  let m : gmap string string := <["Signature" := c]> (<["SignedHeaders" := b]> (<["Credential" := a]> ∅)) in
  m !! "Credential" = Some a ∧ m !! "SignedHeaders" = Some b ∧ m !! "Signature" = Some c.
Proof. intros m. unfold m. split_and!; by simplify_map_eq. Qed.

Lemma parsed_fields (a b c : string) : (a =? "")%string = false → (b =? "")%string = false → (c =? "")%string = false →
  (fields ← Some [("Credential", a); ("SignedHeaders", b); ("Signature", c)];
   let parsed : gmap string string := fold_left (λ m kv, <[kv.1 := kv.2]> m) fields ∅ in
   let get k := default "" (parsed !! k) in
   let out := MkAuthorizationHeader (get "Credential") (get "SignedHeaders") (get "Signature") in
   if (ah_Credential out =? "")%string || (ah_SignedHeaders out =? "")%string || (ah_Signature out =? "")%string
   then None else Some out) = Some (MkAuthorizationHeader a b c).
Proof.
  intros Ha Hb Hc. cbn [mbind option_bind fold_left fst snd]. destruct (three_fields a b c) as (E1 & E2 & E3). cbv zeta.
  rewrite E1, E2, E3. cbn [from_option id ah_Credential ah_SignedHeaders ah_Signature]. by rewrite Ha, Hb, Hc.
Qed.

Lemma mapM_three {A B} (f : A → option B) x y z a b c : f x = Some a → f y = Some b → f z = Some c → mapM f [x; y; z] = Some [a; b; c].
Proof. intros Hx Hy Hz. cbn. by rewrite Hx; cbn; rewrite Hy; cbn; rewrite Hz. Qed.

Lemma parse_signed_header credential signed sig :
  no_byte "," credential = true → no_byte "," signed = true → no_byte "," sig = true →
  (∃ m e, credential = m +:+ e ∧ token_text e = true ∧ e ≠ "") → (∃ m e, signed = m +:+ e ∧ token_text e = true ∧ e ≠ "") →
  (∃ m e, sig = m +:+ e ∧ token_text e = true ∧ e ≠ "") →
  parseAuthorizationHeader ("AWS4-HMAC-SHA256 Credential=" +:+ credential +:+ ", SignedHeaders=" +:+ signed +:+ ", Signature=" +:+ sig)
    = Some (MkAuthorizationHeader credential signed sig).
Proof.
  intros Hc Hs Hg Ec Es Eg.
  set (rest := "Credential=" +:+ credential +:+ ", SignedHeaders=" +:+ signed +:+ ", Signature=" +:+ sig).
  change ("AWS4-HMAC-SHA256 Credential=" +:+ credential +:+ ", SignedHeaders=" +:+ signed +:+ ", Signature=" +:+ sig) with ("AWS4-HMAC-SHA256 " +:+ rest).
  unfold parseAuthorizationHeader. rewrite (proj2 (has_prefix_spec _ _)) by by exists rest. rewrite trim_prefix_app. cbn [negb].
  assert (string_split "," rest = ["Credential" +:+ "=" +:+ credential; " " +:+ "SignedHeaders" +:+ "=" +:+ signed; " " +:+ "Signature" +:+ "=" +:+ sig]) as ->.
  { unfold rest. replace ("Credential=" +:+ credential +:+ ", SignedHeaders=" +:+ signed +:+ ", Signature=" +:+ sig)
      with (("Credential=" +:+ credential) +:+ String "," ((" SignedHeaders=" +:+ signed) +:+ String "," (" Signature=" +:+ sig))).
    - rewrite !string_split_app, string_split_free; [done|..]; rewrite no_byte_app; by rewrite ?Hc, ?Hs, ?Hg.
    - rewrite <- !append_assoc. done. }
  rewrite (mapM_three _ _ _ _ _ _ _ (proj1 (header_field_text "Credential" credential (or_introl eq_refl) Ec))
    (proj2 (header_field_text "SignedHeaders" signed (or_intror (or_introl eq_refl)) Es))
    (proj2 (header_field_text "Signature" sig (or_intror (or_intror eq_refl)) Eg))).
  assert (∀ x : string, (∃ m e, x = m +:+ e ∧ token_text e = true ∧ e ≠ "") → (x =? "")%string = false) as Hne.
  { intros x (m & e & -> & _ & He). apply String.eqb_neq. destruct m; [done|by rewrite append_cons]. }
  apply parsed_fields; by apply Hne.
Qed.

(** ** Both sides of a signature *)

Lemma dated_headers q t payloadHash : cr_Header (dated_request q t payloadHash)
  = <["X-Amz-Content-Sha256" := [payloadHash]]> (<["X-Amz-Date" := [time_stamp t]]> (cr_Header q)).
Proof. done. Qed.

Lemma dated_plain q t payloadHash : plain_request q → plain_request (dated_request q t payloadHash).
Proof.
  intros [Hn Hq Hu Hc Hs]. split; try done.
  - intros k vs Hk. rewrite dated_headers in Hk. apply lookup_insert_Some in Hk as [[<- _]|[_ Hk]]; [done|].
    apply lookup_insert_Some in Hk as [[<- _]|[_ Hk]]; [done|]. by eapply Hn.
  - rewrite dated_headers. by rewrite !lookup_insert_ne.
Qed.

(** An account whose key can stand in a credential scope. *)
Record signable (account : ProviderAccount) : Prop := {
  sg_key : p_AccessKey account ≠ "";
  sg_key_plain : no_byte "/" (p_AccessKey account) = true ∧ no_byte "," (p_AccessKey account) = true;
  sg_region_plain : no_byte "/" (p_Region account) = true ∧ no_byte "," (p_Region account) = true }.

Lemma adapter_region_plain account : signable account →
  adapter_region account ≠ "" ∧ no_byte "/" (adapter_region account) = true ∧ no_byte "," (adapter_region account) = true.
Proof.
  intros [_ _ [H1 H2]]. unfold adapter_region. destruct (String.eqb_spec (p_Region account) ""); done.
Qed.

Lemma values_get_subseteq (h h' : Values) k v : h ⊆ h' → h !! k = Some [v] → values_get h' k = v.
Proof. intros Hs Hk. unfold values_get. by rewrite (lookup_weaken _ _ _ _ Hk Hs). Qed.

Section accepted.
Context `{Env} (a : Authenticator) (account : ProviderAccount) (payloadHash : string) (q : ClientRequest) (t : Time).
Context (Hkey : au_accessKey a = p_AccessKey account) (Hsecret : au_secretKey a = p_SecretKey account).
Context (Hsign : signable account) (Hhash : payloadHash ≠ "") (Hyear : year_shown t) (Hplain : plain_request q).

Definition dated : ClientRequest := dated_request q t payloadHash.
Definition signed_list : string := (canonicalHeaders dated).2.
Definition signature_of : string :=
  signature (p_SecretKey account) (date_stamp t) (adapter_region account) (signing_text dated t (adapter_region account) payloadHash).
Definition credential_of : string :=
  p_AccessKey account +:+ "/" +:+ date_stamp t +:+ "/" +:+ adapter_region account +:+ "/s3/aws4_request".
Definition authorization : string :=
  "AWS4-HMAC-SHA256 Credential=" +:+ credential_of +:+ ", SignedHeaders=" +:+ signed_list +:+ ", Signature=" +:+ signature_of.

Lemma dated_is_plain : plain_request dated.
Proof. by apply dated_plain. Qed.

Lemma signed_headers : cr_Header (sign_at t account payloadHash q) = <["Authorization" := [authorization]]> (cr_Header dated).
Proof.
  unfold sign_at, authorization, credential_of, with_header. cbn [cr_Header]. rewrite <- !append_assoc. reflexivity.
Qed.

Lemma dated_delivered r : delivered (sign_at t account payloadHash q) r → delivered dated r.
Proof.
  intros [Hm Hh Hp Hq Hs Hd Hn]. split; try done. rewrite signed_headers in Hs. etrans; [|exact Hs].
  apply insert_subseteq. apply (pl_unsigned _ (dated_plain q t payloadHash Hplain)).
Qed.

(** The server makes the canonical request the client signed. *)
Lemma canonical_agree r : delivered (sign_at t account payloadHash q) r →
  ∃ canonical, headerCanonicalRequest r signed_list = Some canonical
    ∧ signing_text dated t (adapter_region account) payloadHash
        = string_to_sign sigv4_algorithm (time_stamp t) (scope_text (date_stamp t) (adapter_region account)) canonical.
Proof.
  intros Hdel%dated_delivered. pose proof dated_is_plain as Hpl.
  unfold headerCanonicalRequest, signed_list. rewrite (signed_lines _ _ Hpl Hdel). cbn [mbind option_bind].
  eexists. split; [reflexivity|]. unfold signing_text. destruct (canonicalHeaders dated) as [lines names] eqn:E. cbn [fst snd].
  unfold string_to_sign, scope_text, canonical_request. do 4 f_equal; [].
  assert (rq_header r "X-Amz-Content-Sha256" = payloadHash) as ->.
  { apply (values_get_subseteq (cr_Header dated)); [apply Hdel|]. unfold dated. rewrite dated_headers. by rewrite lookup_insert_eq. }
  rewrite (proj2 (String.eqb_neq payloadHash "")) by done.
  rewrite (dl_method _ _ Hdel), <- (dl_path _ _ Hdel). unfold rq_Query. rewrite (dl_query _ _ Hdel).
  rewrite <- canonical_queries_agree by apply Hpl. reflexivity.
Qed.

Lemma credential_parts : credential_scope (p_AccessKey account) credential_of = Some (date_stamp t, adapter_region account).
Proof.
  destruct (adapter_region_plain account Hsign) as (_ & Hr & _). unfold credential_of.
  apply credential_scope_text; [apply Hsign|apply date_stamp_no_byte; [set_solver|done]|done].
Qed.

Lemma authorization_parsed r : delivered (sign_at t account payloadHash q) r →
  parseAuthorizationHeader (rq_header r "Authorization") = Some (MkAuthorizationHeader credential_of signed_list signature_of).
Proof.
  intros Hdel. assert (rq_header r "Authorization" = authorization) as ->.
  { apply (values_get_subseteq (cr_Header (sign_at t account payloadHash q))); [apply Hdel|]. rewrite signed_headers. by rewrite lookup_insert_eq. }
  pose proof (dated_delivered r Hdel) as Hdd. pose proof dated_is_plain as Hpl.
  destruct (adapter_region_plain account Hsign) as (_ & _ & Hr).
  apply parse_signed_header.
  - unfold credential_of. rewrite !no_byte_app, Hr, (proj2 (sg_key_plain account Hsign)), date_stamp_no_byte by (done || set_solver). done.
  - unfold signed_list, canonicalHeaders. cbn [snd]. apply string_join_no_byte; [done|]. apply Forall_forall. intros x Hx.
    apply token_no_byte; [done|]. by apply (sent_token dated r Hpl Hdd).
  - apply token_no_byte; [done|]. apply token_hex, hmac_range.
  - exists (p_AccessKey account +:+ "/" +:+ date_stamp t +:+ "/" +:+ adapter_region account +:+ "/s3/"), "aws4_request".
    split_and!; [|done|done]. unfold credential_of. by rewrite <- !append_assoc.
  - destruct (exists_last (sent_keys_ne dated r Hdd)) as (front & k & Hk). destruct (string_join_last ";" front k) as [m Hm].
    exists m, k. unfold signed_list, canonicalHeaders. cbn [snd]. fold (sent_keys dated). rewrite Hk. split; [done|].
    apply (sent_token dated r Hpl Hdd). rewrite Hk. apply elem_of_app. right. by left.
  - exists "", signature_of. split_and!; [done|apply token_hex, hmac_range|apply signature_nonempty].
Qed.

(** What the server makes of the claim. *)
Lemma claim_parsed r : delivered (sign_at t account payloadHash q) r →
  header_claim r (MkAuthorizationHeader credential_of signed_list signature_of) (root_credential a)
    = Some (MkClaim (date_stamp t) (adapter_region account) (time_stamp t) (t `div` second * second) skew).
Proof.
  intros Hdel%dated_delivered. unfold header_claim. cbn [ah_Credential].
  change (ac_AccessKey (root_credential a)) with (au_accessKey a). rewrite Hkey, credential_parts. cbn [mbind option_bind].
  assert (rq_header r "X-Amz-Date" = time_stamp t) as ->.
  { apply (values_get_subseteq (cr_Header dated)); [apply Hdel|]. unfold dated. rewrite dated_headers. by rewrite lookup_insert_ne, lookup_insert_eq. }
  rewrite (proj2 (String.eqb_neq (time_stamp t) "")).
  2: { intros E. destruct (parse_stamp_year t Hyear) as [x Hx]. by rewrite E in Hx. }
  unfold dated_claim. rewrite parse_time_stamp by done. cbn [mbind option_bind fst snd]. by rewrite date_stamp_second, String.eqb_refl.
Qed.

Lemma signed_request_authorized r w : delivered (sign_at t account payloadHash q) r →
  t `div` second * second - skew ≤ env_now (w_clock w) ≤ t `div` second * second + skew →
  (authorizeHeaderCredential a r (root_credential a) w).1 = true.
Proof.
  intros Hdel Hw. unfold authorizeHeaderCredential. rewrite authorization_parsed, claim_parsed by done.
  destruct (canonical_agree r Hdel) as (canonical & Hcan & Htext). unfold check_claim. cbn [ah_SignedHeaders ah_Signature]. rewrite Hcan.
  unfold bind, ret, now. cbn [fst snd cl_signedAt cl_validity]. unfold in_window, before, after, add_time.
  rewrite (proj2 (Z.ltb_ge _ _)) by lia. rewrite (proj2 (Z.ltb_ge _ _)) by lia. cbn [negb andb].
  apply String.eqb_eq. unfold signature_of. rewrite to_lower_signature, Htext. unfold expected_signature.
  cbn [cl_dateStamp cl_region cl_amzDate]. unfold signing_region.
  rewrite (proj2 (String.eqb_neq (adapter_region account) "")) by by apply adapter_region_plain.
  change (ac_SecretKey (root_credential a)) with (au_secretKey a). by rewrite Hsecret.
Qed.
End accepted.

(** C33. The S3 adapter and the gateway implement the same signature. A request
    the adapter signs for an account whose keys are the gateway's root keys is
    authenticated by the gateway as the root credential, when it is delivered
    as it was sent (the transport may add headers) and the gateway's clock is
    within a quarter of an hour of the adapter's. The access key and the region
    hold no slash and no comma, the headers' names are tokens and the query
    holds no blank and no presigning parameters. *)
Theorem s3_request_accepted `{Env} `{DriverHost} (a : Authenticator) account payloadHash q calls s r w :
  au_accessKey a = p_AccessKey account → au_secretKey a = p_SecretKey account → signable account →
  payloadHash ≠ "" → year_shown (dh_clock calls (os_step s)) → plain_request q →
  delivered (signRequest calls account payloadHash q s).1 r →
  dh_clock calls (os_step s) `div` second * second - skew ≤ env_now (w_clock w)
    ≤ dh_clock calls (os_step s) `div` second * second + skew →
  trim_space (rq_header r "X-S3LS-Access-Key") = "" → rq_header r "X-S3LS-Secret-Key" = "" →
  (Authenticate a r w).1 = Some (principalFromCredential (root_credential a)).
Proof.
  intros Hkey Hsecret Hsign Hhash Hyear Hplain Hdel Hw Hcustom Hcustom2.
  change (signRequest calls account payloadHash q s).1 with (sign_at (dh_clock calls (os_step s)) account payloadHash q) in Hdel.
  set (t := dh_clock calls (os_step s)) in *.
  assert (∀ k, parse_query (pu_RawQuery (cr_URL q)) !! k = None → values_get (rq_Query r) k = "") as Hquery.
  { intros k Hk. unfold rq_Query. rewrite (dl_query _ _ Hdel). change (pu_RawQuery (cr_URL (sign_at t account payloadHash q))) with (pu_RawQuery (cr_URL q)).
    unfold values_get. by rewrite Hk. }
  assert (requestAccessKey r = au_accessKey a) as Hak.
  { unfold requestAccessKey. rewrite Hcustom, (Hquery "X-Amz-Credential") by apply Hplain. cbn [String.eqb negb].
    rewrite (authorization_parsed a account payloadHash q t) by done. cbn [ah_Credential]. rewrite Hkey. apply before_slash_text, Hsign. }
  unfold Authenticate, resolveCredential. rewrite Hak, String.eqb_refl, (proj2 (String.eqb_neq _ "")) by (rewrite Hkey; apply Hsign).
  unfold bind at 1. cbn [ret fst snd]. rewrite Hcustom2, (Hquery "X-Amz-Signature") by apply Hplain. cbn [String.eqb negb].
  pose proof (signed_request_authorized a account payloadHash q t Hkey Hsecret Hsign Hhash Hyear Hplain r w Hdel Hw) as Hok.
  unfold bind, ret. destruct (authorizeHeaderCredential a r (root_credential a) w) as [ok w2]. cbn [fst] in *. by subst.
Qed.

(** ** A gateway behind a gateway *)

Definition s3_host : DriverHost :=
  {| dh_clock := λ _ _, demo_time; dh_fault := λ _ _, None; dh_random := λ _ n, Z.of_nat n;
     dh_send := λ _ _ _, Err (ErrText "no network"); dh_disk := ∅; dh_cwd := "srv";
     dh_statfs := λ _, (0, 0, 0, 0); dh_dir_size := λ _ _, 0; dh_mime := λ _, "";
     dh_url := λ _, Ok (MkParsedURL "https" "s3.example.com" "" "" ""); dh_zone := λ _ _, None;
     dh_buckets := λ _, Ok []; dh_objects := λ _, Ok ([], "") |}.

Definition s3_account : ProviderAccount :=
  zero_ProviderAccount <| p_ID := "s3" |> <| p_Kind := ProviderKindS3Compat |> <| p_Endpoint := "https://s3.example.com" |>
    <| p_Bucket := "remote" |> <| p_AccessKey := "root" |> <| p_SecretKey := "secret" |> <| p_Region := "eu-1" |>.

Definition s3_authenticator : Authenticator := MkAuthenticator "root" "secret" "auto" None.

Definition s3_request : ClientRequest :=
  with_header "Content-Type" "text/plain" (client_request "PUT" (MkParsedURL "https" "s3.example.com" "/remote/a b.txt" "/remote/a%20b.txt" "list-type=2&prefix=a%2Fb") (MkReader "data" None)).

Definition s3_received : Request :=
  let D := s3_host in
  let sent := (signRequest [] s3_account unsignedPayloadHash s3_request (MkOpState ∅ 0)).1 in
  MkRequest "PUT" "s3.example.com" "/remote/a b.txt" "/remote/a%20b.txt" "list-type=2&prefix=a%2Fb"
    (<["User-Agent" := ["Go-http-client/1.1"]]> (cr_Header sent)) 4.

(** Names by computation. *)
Definition lower_names (h : Values) : list string := to_lower <$> (map_to_list h).*1.

Lemma distinct_names_computed (h : Values) : bool_decide (NoDup (lower_names h)) = true → distinct_names h.
Proof.
  intros Hn%bool_decide_eq_true k k' vs vs' Hk Hk' Heq. unfold lower_names in Hn.
  apply elem_of_map_to_list, (list_elem_of_fmap_2 fst) in Hk, Hk'. cbn in Hk, Hk'.
  apply list_elem_of_lookup in Hk as [i Hi], Hk' as [j Hj].
  assert (i = j) as ->; [|congruence]. eapply (NoDup_lookup _ i j (to_lower k) Hn); rewrite list_lookup_fmap; [by rewrite Hi|by rewrite Hj, Heq].
Qed.

Lemma all_headers (P : string → bool) (h : Values) : forallb (λ '(k, _), P k) (map_to_list h) = true → ∀ k vs, h !! k = Some vs → P k = true.
Proof. intros Hf k vs Hk%elem_of_map_to_list%list_elem_of_In. rewrite forallb_forall in Hf. exact (Hf _ Hk). Qed.

Lemma s3_request_accepted_witness :
  let E := demo_env in let D := s3_host in
  (Authenticate s3_authenticator s3_received (start empty_DB)).1 = Some (principalFromCredential (root_credential s3_authenticator)).
Proof.
  intros E D.
  apply (s3_request_accepted s3_authenticator s3_account unsignedPayloadHash s3_request [] (MkOpState ∅ 0)).
  - reflexivity.
  - reflexivity.
  - split; [discriminate|split; reflexivity|split; reflexivity].
  - discriminate.
  - vm_compute. split; [discriminate|reflexivity].
  - split.
    + intros k vs Hk. assert ((token_text k && negb (k =? "")%string)%bool = true) as H.
      { revert k vs Hk. apply all_headers. vm_compute. reflexivity. }
      apply andb_true_iff in H as [H1 H2]. split; [exact H1|]. intros ->. discriminate H2.
    + intros k v Hkv. assert ((no_byte " " k && no_byte " " v)%bool = true) as H.
      { apply list_elem_of_In in Hkv. revert Hkv. match goal with |- List.In _ ?l → _ => assert (forallb (λ '(k, v), no_byte " " k && no_byte " " v) l = true) as Hall by (vm_compute; reflexivity); rewrite forallb_forall in Hall; exact (Hall (k, v)) end. }
      by apply andb_true_iff in H.
    + vm_compute. reflexivity.
    + vm_compute. reflexivity.
    + vm_compute. reflexivity.
  - split; try reflexivity.
    + apply insert_subseteq. vm_compute. reflexivity.
    + apply distinct_names_computed. vm_compute. reflexivity.
    + intros k vs Hk Heq. assert (negb (to_lower k =? "host")%string = true) as H.
      { revert k vs Hk Heq. intros k vs Hk _. revert k vs Hk. apply all_headers. vm_compute. reflexivity. }
      rewrite Heq in H. discriminate H.
  - vm_compute. split; discriminate.
  - vm_compute. reflexivity.
  - vm_compute. reflexivity.
Defined.

(** ** Remote names *)

(** The bucket of the gateway is no part of the remote name: an object put under
    the same key in another bucket is the same request, to the same remote
    object. *)
Lemma bucket_not_sent `{DriverHost} calls account input body bucket :
  s3_Put calls account (input <| i_Bucket := bucket |>) body = s3_Put calls account input body.
Proof. reflexivity. Qed.

Definition object_path (key : string) : option string :=
  let D := s3_host in match objectURL s3_account "remote" key with Ok u => Some (pu_EscapedPath u) | Err _ => None end.

(** A key with double dots leaves the remote bucket. *)
Lemma key_leaves_bucket : object_path "../other/a.txt" = Some "/other/a.txt".
Proof. vm_compute. reflexivity. Qed.

(** Keys that differ in their slashes share a remote object. *)
Lemma keys_share_an_object :
  object_path "dir/" = object_path "dir" ∧ object_path "a//b" = object_path "a/b" ∧ object_path "a/./b" = object_path "a/b".
Proof. split_and!; vm_compute; reflexivity. Qed.

(** A blank in a prefix is signed as a plus sign, which is not what Signature
    Version 4 says: the gateway itself, as any server that follows it, makes
    another canonical query of the request. *)
Lemma blank_not_canonical :
  let q := parse_query "list-type=2&prefix=a+b" in
  canonicalQuery q = "list-type=2&prefix=a+b" ∧ canonicalQueryString q = "list-type=2&prefix=a%20b".
Proof. split; vm_compute; reflexivity. Qed.
