(* ===== verification/PostPolicy.v ===== *)
(** Browser uploads: the signed POST policy of [gateway/auth.go], its
    conditions and its authorisation. *)
From S2P Require Import Prelude GoTime Sha256 Float64 Json Text Url Stamp Http Hmac Base64 Domain ProviderErrors World Access SigV4.

(** What [json.Unmarshal] puts into an [any]. *)
Inductive any : Type :=
| ANull
| ABool (b : bool)
| ANumber (f : float64)
| AString (s : string)
| AList (l : list any)
| AMap (fields : list (string * any)).

(** [postPolicyDocument] *)
Record postPolicyDocument : Type := MkPostPolicyDocument { pp_Expiration : Time; pp_Conditions : list any }.

(** The part of the Go library this file leaves open: decoding the document
    and the text of a number. *)
Class PolicyHost : Type := {
  decode_policy : list Z → result postPolicyDocument;
  sprint_number : float64 → string }.

Section policy.
Context `{!PolicyHost}.

(** [fmt.Sprint(value)]; the keys of a map come sorted. *)
Fixpoint sprint (value : any) : string :=
  match value with
  | ANull => "<nil>"
  | ABool b => if b then "true" else "false"
  | ANumber f => sprint_number f
  | AString s => s
  | AList l => "[" +:+ string_join " " (sprint <$> l) +:+ "]"
  | AMap fields =>
      "map[" +:+ string_join " " (sort_strings ((λ kv, kv.1 +:+ ":" +:+ sprint kv.2) <$> fields)) +:+ "]"
  end.

(** An integral float64 in the range of int64; a conversion out of range is
    never equal to what was converted (amd64). *)
Definition jsonNumberInt64 (value : any) : option Z :=
  match value with
  | ANumber (Finite units) =>
      let n := units `div` 2 ^ 1074 in
      if (units =? n * 2 ^ 1074) && in_int64b n then Some n else None
  | ANumber _ => None
  | _ => parse_int64 (sprint value)
  end.

Definition field (fields : gmap string string) (name : string) : string := default "" (fields !! name).

(** The fields of an object condition; with several unmet ones Go reports any
    of them. *)
Fixpoint check_fields (fields : gmap string string) (condition : list (string * any)) : result unit :=
  match condition with
  | [] => Ok tt
  | (key, expected) :: rest =>
      if negb (field fields (to_lower key) =? sprint expected)%string
      then Err (ErrText ("POST policy condition for " +:+ key +:+ " was not met"))
      else check_fields fields rest
  end.

Definition check_condition (fields : gmap string string) (contentLength : Z) (condition : any) : result unit :=
  match condition with
  | AMap kvs => check_fields fields kvs
  | AList (op :: a :: b :: _) =>
      let operator := sprint op in
      if (operator =? "starts-with")%string || (operator =? "eq")%string then
        let name := trim_prefix (to_lower (sprint a)) "$" in
        let expected := sprint b in
        let actual := field fields name in
        if ((operator =? "starts-with")%string && negb (has_prefix actual expected))
           || ((operator =? "eq")%string && negb (actual =? expected)%string)
        then Err (ErrText ("POST policy " +:+ operator +:+ " condition for " +:+ name +:+ " was not met"))
        else Ok tt
      else if (operator =? "content-length-range")%string then
        match jsonNumberInt64 a, jsonNumberInt64 b with
        | Some min, Some max =>
            if (contentLength <? min) || (max <? contentLength)
            then Err (ErrText "POST upload size is outside the policy range") else Ok tt
        | _, _ => Err (ErrText "POST upload size is outside the policy range")
        end
      else Err (ErrText ("unsupported POST policy condition " +:+ quoted operator))
  | _ => Err (ErrText "invalid POST policy condition")
  end.

Fixpoint validatePostPolicyConditions (conditions : list any) (fields : gmap string string) (contentLength : Z) : result unit :=
  match conditions with
  | [] => Ok tt
  | condition :: rest =>
      try! _ := check_condition fields contentLength condition in
      validatePostPolicyConditions rest fields contentLength
  end.

Context `{Env} (a : Authenticator).

(** What is checked once the credential and the policy are known, at the
    instants [t1], [t2] and [t3] the clock is read. *)
Definition check_policy (fields : gmap string string) (contentLength : Z) (credential : AccessCredential)
    (dateStamp region : string) (policy : postPolicyDocument) (t1 t2 t3 : Time) : result Principal :=
  try! _ := guard_err (is_zero (pp_Expiration policy) || after t1 (pp_Expiration policy)) "POST policy has expired" in
  try! _ := guard_err (match parse_stamp (field fields "x-amz-date") with
                       | None => true
                       | Some signedAt =>
                           negb (date_stamp signedAt =? dateStamp)%string || before t2 (add_time signedAt (- skew))
                           || after t3 (pp_Expiration policy)
                       end) "invalid POST policy signing date" in
  try! _ := guard_err (negb (to_lower (field fields "x-amz-signature")
                               =? signature (ac_SecretKey credential) dateStamp region (field fields "policy"))%string)
              "invalid POST policy signature" in
  try! _ := validatePostPolicyConditions (pp_Conditions policy) fields contentLength in
  let principal := principalFromCredential credential in
  try! _ := guard_err (negb (principalAllows principal "s3:PutObject" (field fields "bucket") (field fields "key")))
              "credential cannot upload this object" in
  Ok principal.

Definition AuthorizePostPolicy (fields : gmap string string) (contentLength : Z) : M (result Principal) :=
  match string_split "/" (field fields "x-amz-credential") with
  | [accessKey; dateStamp; region; service; terminal] =>
      if negb (field fields "x-amz-algorithm" =? sigv4_algorithm)%string || negb (service =? "s3")%string
         || negb (terminal =? "aws4_request")%string
      then ret_err (ErrText "invalid POST policy credential scope")
      else
        let! resolved := resolveCredential a accessKey in
        match resolved with
        | None => ret_err (ErrText "unknown or disabled access key")
        | Some credential =>
            match base64std_decode (field fields "policy") with
            | None => ret_err (ErrWrap "decode POST policy" (ErrText "illegal base64 data"))
            | Some decoded =>
                match decode_policy decoded with
                | Err e => ret_err (ErrWrap "decode POST policy JSON" e)
                | Ok policy =>
                    let! t1 := now in
                    let! t2 := now in
                    let! t3 := now in
                    lift (check_policy fields contentLength credential dateStamp region policy t1 t2 t3)
                end
            end
        end
  | _ => ret_err (ErrText "invalid POST policy credential scope")
  end.
End policy.
