(* ===== verification/PostPolicyFacts.v ===== *)
(** Signed POST policies: what an accepted form has been checked for. *)
From S2P Require Import Prelude GoTime Float64 Json Text Url Stamp Http Hmac Base64 Domain ProviderErrors World Sql Access SigV4 SigV4Facts PostPolicy.

Section policy.
Context `{!PolicyHost}.

(** ** Conditions *)

(** What a condition of a policy asks of a form and its file. *)
Inductive meets (fields : gmap string string) (contentLength : Z) : any → Prop :=
| meets_fields conditions :
    (∀ name expected, (name, expected) ∈ conditions → field fields (to_lower name) = sprint expected) →
    meets fields contentLength (AMap conditions)
| meets_eq op name expected more :
    sprint op = "eq" → field fields (trim_prefix (to_lower (sprint name)) "$") = sprint expected →
    meets fields contentLength (AList (op :: name :: expected :: more))
| meets_prefix op name expected more rest :
    sprint op = "starts-with" → field fields (trim_prefix (to_lower (sprint name)) "$") = sprint expected +:+ rest →
    meets fields contentLength (AList (op :: name :: expected :: more))
| meets_length op low high more min max :
    sprint op = "content-length-range" → jsonNumberInt64 low = Some min → jsonNumberInt64 high = Some max →
    min ≤ contentLength ≤ max →
    meets fields contentLength (AList (op :: low :: high :: more)).

Lemma check_fields_exact fields conditions :
  check_fields fields conditions = Ok tt ↔
  ∀ name expected, (name, expected) ∈ conditions → field fields (to_lower name) = sprint expected.
Proof.
  induction conditions as [|[name expected] rest IH]; cbn [check_fields].
  - split; [|done]. intros _ name expected Hin. by apply not_elem_of_nil in Hin.
  - destruct (String.eqb_spec (field fields (to_lower name)) (sprint expected)) as [E|E]; cbn [negb].
    + rewrite IH. split; intros Hin; [|intros n e Hn; apply Hin; by right].
      intros n e [[= -> ->]|Hn]%elem_of_cons; [done|by apply Hin].
    + split; [done|]. intros Hin. destruct E. apply Hin. by left.
Qed.

Lemma check_condition_exact fields n condition : check_condition fields n condition = Ok tt ↔ meets fields n condition.
Proof.
  split.
  - destruct condition as [| | | |[|op [|a [|b more]]]|conditions]; try done; cbn [check_condition]; cbv zeta.
    + destruct (String.eqb_spec (sprint op) "starts-with") as [Es|Es]; [|destruct (String.eqb_spec (sprint op) "eq") as [Ee|Ee]];
        cbn [orb andb negb].
      * rewrite Es. cbn [String.eqb Ascii.eqb Bool.eqb andb orb negb]. rewrite orb_false_r.
        destruct (has_prefix _ _) eqn:Hp; [|done]. intros _. apply has_prefix_spec in Hp as [rest Hrest].
        by eapply meets_prefix.
      * destruct (String.eqb_spec (field fields (trim_prefix (to_lower (sprint a)) "$")) (sprint b)) as [E|E]; [|done].
        intros _. by apply meets_eq.
      * destruct (String.eqb_spec (sprint op) "content-length-range") as [El|El]; [|done].
        destruct (jsonNumberInt64 a) as [min|] eqn:Ha; [|done]. destruct (jsonNumberInt64 b) as [max|] eqn:Hb; [|done].
        destruct ((n <? min) || (max <? n)) eqn:E; [done|]. intros _. eapply meets_length; [done..|]. lia.
    + intros Hin. apply meets_fields. by apply check_fields_exact.
  - destruct 1 as [conditions Hall|op name expected more Hop Hf|op name expected more rest Hop Hf|op low high more min max Hop Hl Hh Hr];
      cbn [check_condition]; cbv zeta.
    + by apply check_fields_exact.
    + rewrite Hop, Hf. cbn [String.eqb Ascii.eqb Bool.eqb andb orb]. by rewrite String.eqb_refl.
    + rewrite Hop, Hf. assert (has_prefix (sprint expected +:+ rest) (sprint expected) = true) as -> by (apply has_prefix_spec; by eexists).
      done.
    + rewrite Hop, Hl, Hh. by assert ((n <? min) || (max <? n) = false) as -> by lia.
Qed.

Lemma conditions_exact conditions fields n :
  validatePostPolicyConditions conditions fields n = Ok tt ↔ Forall (meets fields n) conditions.
Proof.
  induction conditions as [|condition rest IH]; cbn [validatePostPolicyConditions]; [by split|].
  rewrite Forall_cons, <- IH, <- check_condition_exact. destruct (check_condition fields n condition) as [[]|e]; cbn.
  - naive_solver.
  - split; [done|]. by intros [? _].
Qed.
End policy.

(** ** Authorisation *)

Section authorize.
Context `{!PolicyHost} `{Env} (a : Authenticator).

Lemma guard_err_iff c msg : guard_err c msg = Ok tt ↔ c = false.
Proof. by destruct c. Qed.

Lemma bind_guard {A} c msg (k : unit → result A) x : result_bind (guard_err c msg) k = Ok x ↔ c = false ∧ k tt = Ok x.
Proof. destruct c; cbn; naive_solver. Qed.

Lemma check_policy_exact fields n credential date region policy t1 t2 t3 principal :
  check_policy fields n credential date region policy t1 t2 t3 = Ok principal ↔
  (is_zero (pp_Expiration policy) = false ∧ after t1 (pp_Expiration policy) = false ∧ after t3 (pp_Expiration policy) = false)
  ∧ (∃ signedAt, parse_stamp (field fields "x-amz-date") = Some signedAt ∧ date_stamp signedAt = date
       ∧ before t2 (add_time signedAt (- skew)) = false)
  ∧ to_lower (field fields "x-amz-signature") = signature (ac_SecretKey credential) date region (field fields "policy")
  ∧ Forall (meets fields n) (pp_Conditions policy)
  ∧ principalAllows principal "s3:PutObject" (field fields "bucket") (field fields "key") = true
  ∧ principal = principalFromCredential credential.
Proof.
  unfold check_policy. rewrite !bind_guard, orb_false_iff, negb_false_iff, String.eqb_eq, <- conditions_exact.
  assert (∀ (r : result unit) (k : unit → result Principal) x, result_bind r k = Ok x ↔ r = Ok tt ∧ k tt = Ok x) as ->.
  { intros r k x. destruct r as [[]|e]; cbn; naive_solver. }
  cbv zeta. rewrite bind_guard, negb_false_iff. destruct (parse_stamp _) as [signedAt|].
  - rewrite !orb_false_iff, negb_false_iff, String.eqb_eq. naive_solver.
  - naive_solver.
Qed.

Lemma policy_exact fields n w principal : (AuthorizePostPolicy a fields n w).1 = Ok principal ↔
  ∃ accessKey date region credential decoded policy signedAt,
    string_split "/" (field fields "x-amz-credential") = [accessKey; date; region; "s3"; "aws4_request"]
    ∧ field fields "x-amz-algorithm" = sigv4_algorithm
    ∧ (resolveCredential a accessKey w).1 = Some credential
    ∧ base64std_decode (field fields "policy") = Some decoded ∧ decode_policy decoded = Ok policy
    ∧ (let t i := env_now (i + w_clock (resolveCredential a accessKey w).2)%nat in
       is_zero (pp_Expiration policy) = false ∧ after (t 0%nat) (pp_Expiration policy) = false
       ∧ after (t 2%nat) (pp_Expiration policy) = false ∧ before (t 1%nat) (add_time signedAt (- skew)) = false)
    ∧ parse_stamp (field fields "x-amz-date") = Some signedAt ∧ date_stamp signedAt = date
    ∧ to_lower (field fields "x-amz-signature") = signature (ac_SecretKey credential) date region (field fields "policy")
    ∧ Forall (meets fields n) (pp_Conditions policy)
    ∧ principalAllows principal "s3:PutObject" (field fields "bucket") (field fields "key") = true
    ∧ principal = principalFromCredential credential.
Proof.
  assert (∀ e, @Err Principal e = Ok principal → False) as Hno by done.
  unfold AuthorizePostPolicy.
  destruct (string_split "/" _) as [|accessKey [|date [|region [|service [|terminal [|]]]]]];
    try (split; [intros []%Hno|by intros (? & ? & ? & ? & ? & ? & ? & [=] & _)]).
  destruct (_ || _ || _) eqn:Escope.
  { split; [intros []%Hno|]. intros (? & ? & ? & ? & ? & ? & ? & [= -> -> -> -> ->] & Halg & _). by rewrite Halg in Escope. }
  apply orb_false_iff in Escope as [[Ealg Eservice]%orb_false_iff Eterminal].
  apply negb_false_iff, String.eqb_eq in Ealg, Eservice, Eterminal. subst service terminal.
  unfold bind at 1. destruct (resolveCredential a accessKey w) as [resolved w1] eqn:Hres. cbn [fst snd].
  destruct resolved as [credential|].
  2:{ split; [intros []%Hno|]. intros (? & ? & ? & ? & ? & ? & ? & [= <- <- <-] & _ & Hr & _). by rewrite Hres in Hr. }
  destruct (base64std_decode _) as [decoded|] eqn:Hdec.
  2:{ split; [intros []%Hno|]. by intros (? & ? & ? & ? & ? & ? & ? & _ & _ & _ & [=] & _). }
  destruct (decode_policy decoded) as [policy|e] eqn:Hpol.
  2:{ split; [intros []%Hno|]. intros (? & ? & ? & ? & ? & ? & ? & _ & _ & _ & [= <-] & Hp & _). by rewrite Hpol in Hp. }
  unfold bind, lift, ret, now. cbn [fst snd]. rsimpl. rewrite check_policy_exact. split.
  - intros ((E1 & E1' & E1'') & (signedAt & E2 & E2' & E2'') & E3 & E4 & E5 & E6).
    exists accessKey, date, region, credential, decoded, policy, signedAt. rewrite Hres. by split_and!.
  - intros (? & ? & ? & ? & ? & ? & signedAt & [= <- <- <-] & _ & Hr & [= <-] & Hp & E). rewrite Hres in *. cbn [fst snd] in *.
    rewrite Hpol in Hp. injection Hp as <-. injection Hr as <-. destruct E as ((E1 & E1' & E1'' & E2'') & E2 & E2' & E3 & E4 & E5 & E6).
    split_and!; try done. by exists signedAt.
Qed.

(** C27. A form upload is authorised exactly when the form carries a policy
    that the secret of an enabled credential has signed for the scope the form
    names, the policy has not expired and its date is of the day of the scope
    and at most the clock skew ahead, every condition of the policy holds of
    the fields and the size of the file, and the credential may put the object
    the fields name. *)
Theorem post_policy_enforced fields n w principal : (AuthorizePostPolicy a fields n w).1 = Ok principal ↔
  ∃ accessKey date region credential decoded policy signedAt,
    string_split "/" (field fields "x-amz-credential") = [accessKey; date; region; "s3"; "aws4_request"]
    ∧ field fields "x-amz-algorithm" = sigv4_algorithm
    ∧ (resolveCredential a accessKey w).1 = Some credential
    ∧ base64std_decode (field fields "policy") = Some decoded ∧ decode_policy decoded = Ok policy
    ∧ (let t i := env_now (i + w_clock (resolveCredential a accessKey w).2)%nat in
       is_zero (pp_Expiration policy) = false ∧ after (t 0%nat) (pp_Expiration policy) = false
       ∧ after (t 2%nat) (pp_Expiration policy) = false ∧ before (t 1%nat) (add_time signedAt (- skew)) = false)
    ∧ parse_stamp (field fields "x-amz-date") = Some signedAt ∧ date_stamp signedAt = date
    ∧ to_lower (field fields "x-amz-signature") = signature (ac_SecretKey credential) date region (field fields "policy")
    ∧ Forall (meets fields n) (pp_Conditions policy)
    ∧ principalAllows principal "s3:PutObject" (field fields "bucket") (field fields "key") = true
    ∧ principal = principalFromCredential credential.
Proof. apply policy_exact. Qed.
End authorize.
