(* ===== verification/Providers.v ===== *)
(** Provider accounts as the service sees them: settings, decryption and
    adapters ([app/service.go], [app/planner.go]), onboarding and write failures
    ([app/provider_onboarding.go]), health ([app/provider_health.go]), quota
    reconciliation ([app/provider_quota.go]), alerts and audit events
    ([app/alerts.go], [app/audit.go]). *)
From S2P Require Import Prelude GoTime Float64 Domain ProviderErrors World Sql StoreProviders StoreObjects StoreEvents Placement.

(** [strconv.ParseUint] saturates when it leaves 64 bits, before it looks at
    the rest of the text. *)
Fixpoint scan_uint (acc : Z) (s : string) : option Z :=
  match s with
  | ""%string => Some acc
  | String a s' =>
      match digit_of a with
      | Some d => if 2 ^ 64 - 1 <? acc * 10 + d then Some (2 ^ 64 - 1) else scan_uint (acc * 10 + d) s'
      | None => None
      end
  end.

(** The value [strconv.ParseInt(s, 10, 64)] returns next to its error: 0 for
    bad syntax, the nearest int64 when out of range. *)
Definition parse_int_value (s : string) : Z :=
  let unsigned (t : string) : option Z := match t with ""%string => None | _ => scan_uint 0 t end in
  match s with
  | String "-" t => match unsigned t with Some u => Z.max int64_min (- u) | None => 0 end
  | String "+" t => match unsigned t with Some u => Z.min int64_max u | None => 0 end
  | _ => match unsigned s with Some u => Z.min int64_max u | None => 0 end
  end.

(** [app.intSetting]: the error of ParseInt is dropped. *)
Definition intSetting (settings : gmap string string) (key : string) : Z :=
  let parsed := parse_int_value (trim_space (default "" (settings !! key))) in
  if parsed <? 0 then 0 else parsed.

(** [app.normalizeProviderIDs] *)
Definition normalizeProviderIDs (ids : list string) : list string :=
  fold_left (λ out id,
    let id := trim_space id in
    if (id =? "")%string || existsb (String.eqb id) out then out else out ++ [id]) ids [].

Definition non_negative_setting (settings : gmap string string) (key : string) : result unit :=
  let value := trim_space (default "" (settings !! key)) in
  if (value =? "")%string then Ok tt
  else match parse_int64 value with
       | Some parsed => guard_err (parsed <? 0) ("provider setting " +:+ key +:+ " must be a non-negative integer")
       | None => Err (ErrText ("provider setting " +:+ key +:+ " must be a non-negative integer"))
       end.

Definition validateProviderLimits (settings : gmap string string) : result unit :=
  try! _ := non_negative_setting settings "max_object_size_bytes" in
  try! _ := non_negative_setting settings "min_free_bytes" in
  try! _ := non_negative_setting settings "quota_margin_bytes" in
  try! _ := non_negative_setting settings "monthly_upload_quota_bytes" in
  try! _ := (
    let value := trim_space (default "" (settings !! "quota_alert_threshold_percent")) in
    if (value =? "")%string then Ok tt
    else match parse_int64 value with
         | Some parsed =>
             guard_err ((parsed <? 1) || (100 <? parsed)) "provider setting quota_alert_threshold_percent must be between 1 and 100"
         | None => Err (ErrText "provider setting quota_alert_threshold_percent must be between 1 and 100")
         end) in
  let value := trim_space (default "" (settings !! "cost_per_gb_month")) in
  if (value =? "")%string then Ok tt
  else match parse_float value with
       | Some parsed => guard_err (float_lt parsed float_zero) "provider setting cost_per_gb_month must be a non-negative number"
       | None => Err (ErrText "provider setting cost_per_gb_month must be a non-negative number")
       end.

(** [app.quotaForAccount] *)
Definition quotaForAccount (account : ProviderAccount) (t : Time) : ProviderQuota :=
  let period := month_text t in
  let monthlyUsed := if negb (p_MonthlyPeriod account =? period)%string then 0 else p_MonthlyUploadedBytes account in
  let unlimited := 2 ^ 62 - 1 in
  let capacity := p_CapacityBytes account in
  let used := p_UsedBytes account in
  let source := p_QuotaSource account in
  let available := if 0 <? capacity then sub64 (sub64 capacity used) (p_ReservedBytes account) else unlimited in
  let remote := 0 <? p_RemoteCapacityBytes account in
  let remoteAvailable := sub64 (sub64 (p_RemoteCapacityBytes account) (p_RemoteUsedBytes account)) (p_ReservedBytes account) in
  let available := if remote && (remoteAvailable <? available) then remoteAvailable else available in
  let reliable := (0 <? capacity) || remote in
  let source := if remote && (source =? "")%string then "remote" else source in
  let '(capacity', used') :=
    if remote && (capacity <=? 0) then (p_RemoteCapacityBytes account, p_RemoteUsedBytes account) else (capacity, used) in
  let available := if available =? unlimited then -1 else available in
  let available := if available <? -1 then 0 else available in
  let source := if (source =? "")%string && (0 <? p_CapacityBytes account) then "configured-hard-limit" else source in
  MkProviderQuota (p_ID account) capacity' used' (p_ReservedBytes account) available
    (intSetting (p_Settings account) "monthly_upload_quota_bytes") monthlyUsed period source (p_QuotaCheckedAt account) reliable.

(** The share of the capacity in use, [(capacity - available) * 100 / capacity]
    in int64. *)
Definition used_percent (quota : ProviderQuota) : Z :=
  if 0 <? pq_CapacityBytes quota
  then Z.quot (mul64 (sub64 (pq_CapacityBytes quota) (pq_AvailableBytes quota)) 100) (pq_CapacityBytes quota)
  else 100.

Section providers.
Context `{Env}.

(** *** Alerts and audit events *)

Definition raiseAlert (alert : Alert) : M unit :=
  let! alert := (if (al_ID alert =? "")%string
                 then let! id := randomIdentifier "alert-" 10 in ret (alert <| al_ID := id |>) else ret alert) in
  let alert := if (al_DedupeKey alert =? "")%string
               then alert <| al_DedupeKey := al_Type alert +:+ ":" +:+ al_ProviderAccountID alert +:+ ":"
                               +:+ al_Bucket alert +:+ ":" +:+ al_Key alert |>
               else alert in
  ignore (UpsertAlert alert).

Definition RecordAuditEvent (event : AuditEvent) : M unit :=
  let! event := (if (au_ID event =? "")%string
                 then let! id := randomIdentifier "audit-" 8 in ret (event <| au_ID := id |>) else ret event) in
  let! event := (if is_zero (au_CreatedAt event)
                 then let! t := now in ret (event <| au_CreatedAt := t |>) else ret event) in
  ignore (CreateAuditEvent event).

(** *** Adapters *)

Definition decryptAccount (account : ProviderAccount) : result ProviderAccount :=
  if (p_SecretEncrypted account =? "")%string then Ok account
  else match env_decrypt (p_SecretEncrypted account) with
       | Ok plain => Ok (account <| p_SecretKey := plain |>)
       | Err e => Err (ErrWrap ("decrypt provider " +:+ p_ID account +:+ " secret") e)
       end.

Definition providerForReplica (account : ProviderAccount) : result (ProviderAccount * Adapter) :=
  try! account := decryptAccount account in
  match env_registry (p_Kind account) with
  | Some adapter => Ok (account, adapter)
  | None => Err (ErrText ("provider kind " +:+ p_Kind account +:+ " is not registered"))
  end.

Definition providerForObject (obj : ObjectRecord) : M (result (ProviderAccount * Adapter)) :=
  let? account := GetProvider (o_ProviderAccountID obj) in
  lift (providerForReplica account).

Definition providerAccountAndAdapter (providerID : string) : M (result (ProviderAccount * Adapter)) :=
  let? account := GetProvider (trim_space providerID) in
  if negb (p_Enabled account) then ret_err (ErrText "provider is disabled")
  else lift (providerForReplica account).

Definition putOnProvider (account : ProviderAccount) (input : PutObjectInput) (body : Reader) : M (result StoredObject) :=
  match providerForReplica account with
  | Err e => ret_err e
  | Ok (account, adapter) => adapter_put adapter account input body
  end.

(** The spool is handed over as a file to an adapter that can take it. *)
Definition putUploadSpoolOnProvider (account : ProviderAccount) (input : PutObjectInput) (spool : PreparedUpload) : M (result StoredObject) :=
  match providerForReplica account with
  | Err e => ret_err e
  | Ok (account, adapter) =>
      match ad_PutPrepared adapter with
      | Some put => remote (CallPutPrepared account input spool) (λ h, put h account input spool)
      | None => adapter_put adapter account input (MkReader (pu_File spool) None)
      end
  end.

(** *** Health *)

Definition providerHealth (account : ProviderAccount) (started : Time) (status message : string) : M ProviderHealth :=
  let! t := now in
  ret (MkProviderHealth (p_ID account) status message t (Z.quot (wrap64 (t - started)) 1000000)).

Definition CheckProviderHealth (account : ProviderAccount) : M ProviderHealth :=
  let! started := now in
  if negb (p_Enabled account) then providerHealth account started ProviderHealthDisabled "provider is disabled"
  else match decryptAccount account with
       | Err e => providerHealth account started ProviderHealthUnhealthy (error_text e)
       | Ok account =>
           match env_registry (p_Kind account) with
           | None => providerHealth account started ProviderHealthUnhealthy
                       ("provider kind " +:+ p_Kind account +:+ " is not registered")
           | Some adapter => adapter_health adapter account
           end
       end.

Fixpoint check_all (accounts : list ProviderAccount) : M (list ProviderHealth) :=
  match accounts with
  | [] => ret []
  | a :: rest => let! h := CheckProviderHealth a in let! hs := check_all rest in ret (h :: hs)
  end.

Definition ListProviderHealth : M (result (list ProviderHealth)) :=
  let? providers := ListProviders false in
  let! out := check_all providers in ret_ok out.

Definition recordProviderHealth (account : ProviderAccount) (health : ProviderHealth) : M unit :=
  let degradedKey := "provider-degraded:" +:+ p_ID account in
  let credentialKey := "provider-credentials:" +:+ p_ID account in
  if (ph_Status health =? ProviderHealthHealthy)%string then
    let! _ := ignore (ClearProviderUnavailable (p_ID account)) in
    let! _ := ignore (ResolveAlert degradedKey) in
    ignore (ResolveAlert credentialKey)
  else
    let message := to_lower (ph_Message health) in
    let '(status, alertType, alertKey) :=
      if contains message "credential" || contains message "authentication"
      then ("credentials", AlertTypeCredentialsInvalid, credentialKey)
      else ("unavailable", AlertTypeProviderDegraded, degradedKey) in
    let! _ := ignore (MarkProviderUnavailable (p_ID account) status (ph_Message health) zero_time) in
    raiseAlert (zero_Alert <| al_DedupeKey := alertKey |> <| al_Type := alertType |>
      <| al_Severity := AlertSeverityCritical |> <| al_ProviderAccountID := p_ID account |>
      <| al_Message := ph_Message health |>).

(** *** Write failures *)

(** How long a failed provider is kept out of placement: throttled and
    unreachable ones for a while, the others until something clears them. *)
Definition failure_retry (kind : failure_kind) (retryAfter : Duration) : option Duration :=
  match kind with
  | FailureThrottled => Some (if retryAfter <=? 0 then minute else retryAfter)
  | FailureUnavailable => Some (if retryAfter <=? 0 then 30 * second else retryAfter)
  | _ => None
  end.

Definition recordProviderWriteFailure (account : ProviderAccount) (cause : error) : M unit :=
  match Failure cause with
  | None | Some (FailurePermanent, _) => ret tt
  | Some (kind, retryAfter) =>
      let! until := match failure_retry kind retryAfter with
                    | Some d => let! t := now in ret (add_time t d)
                    | None => ret zero_time
                    end in
      let! _ := ignore (MarkProviderUnavailable (p_ID account) (kind_text kind) (error_text cause) until) in
      let '(alertType, severity) :=
        match kind with
        | FailureQuota => (AlertTypeQuotaExhausted, AlertSeverityCritical)
        | FailureCredentials => (AlertTypeCredentialsInvalid, AlertSeverityCritical)
        | _ => (AlertTypeProviderDegraded, AlertSeverityWarning)
        end in
      raiseAlert (zero_Alert <| al_DedupeKey := "provider-write:" +:+ p_ID account +:+ ":" +:+ kind_text kind |>
        <| al_Type := alertType |> <| al_Severity := severity |> <| al_ProviderAccountID := p_ID account |>
        <| al_Message := error_text cause |>)
  end.

(** *** Quota reconciliation *)

Definition updateQuotaAlert (account : ProviderAccount) (quota : ProviderQuota) : M unit :=
  let dedupe := "quota:" +:+ p_ID account in
  if (pq_CapacityBytes quota <=? 0) || (pq_AvailableBytes quota <? 0) then ignore (ResolveAlert dedupe)
  else
    let threshold := intSetting (p_Settings account) "quota_alert_threshold_percent" in
    let threshold := if (threshold <=? 0) || (100 <? threshold) then 85 else threshold in
    let usedPercent := used_percent quota in
    if usedPercent <? threshold then ignore (ResolveAlert dedupe)
    else
      let '(severity, typeName) :=
        if pq_AvailableBytes quota =? 0 then (AlertSeverityCritical, AlertTypeQuotaExhausted)
        else (AlertSeverityWarning, AlertTypeQuotaNearLimit) in
      raiseAlert (zero_Alert <| al_DedupeKey := dedupe |> <| al_Type := typeName |> <| al_Severity := severity |>
        <| al_ProviderAccountID := p_ID account |>
        <| al_Message := "provider quota is " +:+ itoa usedPercent +:+ "% used (" +:+ itoa (pq_AvailableBytes quota)
             +:+ " bytes available)" |>).

(** The sum of the sizes of all remote objects, page by page. The loop ends
    when the token is empty or the one just sent; [fuel] bounds the pages. *)
Fixpoint remote_usage (fuel : nat) (account : ProviderAccount)
    (list_objects : list Call → ProviderAccount → string → string → string → Z → result ProviderObjectPage)
    (token : string) (used : Z) : M (result Z) :=
  match fuel with
  | O => ret_err (ErrSentinel ErrFuel)
  | S fuel =>
      let? page := remote (CallListObjects account (p_Bucket account) "" token 1000)
                     (λ h, list_objects h account (p_Bucket account) "" token 1000) in
      let used := fold_left (λ u o, add64 u (po_Size o)) (pp_Objects page) used in
      let next := pp_NextContinuationToken page in
      if (next =? "")%string || (next =? token)%string then ret_ok used
      else remote_usage fuel account list_objects next used
  end.

Definition ReconcileProviderQuota (fuel : nat) (providerID : string) : M (result ProviderQuota) :=
  let? aa := providerAccountAndAdapter providerID in
  let '(account, adapter) := aa in
  let! checkedAt := now in
  let? _ := match ad_Quota adapter with
            | None => ret_ok tt
            | Some report =>
                let? q := remote (CallQuota account) (λ h, report h account) in
                let '(capacity, used, source) := q in
                SetProviderRemoteQuota (p_ID account) capacity used source checkedAt
            end in
  let? _ := match ad_ListObjects adapter with
            | None => ret_ok tt
            | Some list_objects =>
                if (p_Bucket account =? "")%string then ret_ok tt
                else
                  let? used := remote_usage fuel account list_objects "" 0 in
                  SetProviderUsage (p_ID account) used "remote-inventory" checkedAt
            end in
  let? account := GetProvider (p_ID account) in
  let quota := quotaForAccount account checkedAt in
  let! _ := updateQuotaAlert account quota in
  ret_ok quota.

Definition ListProviderQuotas : M (result (list ProviderQuota)) :=
  let? accounts := ListProviders false in
  let! t := now in
  ret_ok ((λ a, quotaForAccount a t) <$> accounts).
End providers.

(** None of these touches the quota ledger, except through the operations of
    the store that keep it. *)
Section providers_ledger.
Context `{Env}.

Lemma raiseAlert_ledger a : pres (on_db same_ledger) (raiseAlert a).
Proof. unfold raiseAlert. pres_auto. Qed.

Lemma recordProviderHealth_ledger p h : pres (on_db same_ledger) (recordProviderHealth p h).
Proof. unfold recordProviderHealth. pres_auto; apply raiseAlert_ledger. Qed.

Lemma recordProviderWriteFailure_ledger p e : pres (on_db same_ledger) (recordProviderWriteFailure p e).
Proof. unfold recordProviderWriteFailure. pres_auto; apply raiseAlert_ledger. Qed.

Lemma providerForObject_pres R o `{!PreOrder R} : pres (on_db R) (providerForObject o).
Proof. unfold providerForObject. pres_auto. Qed.

Lemma putUploadSpool_pres R p i s `{!PreOrder R} : pres (on_db R) (putUploadSpoolOnProvider p i s).
Proof. unfold putUploadSpoolOnProvider, adapter_put. pres_auto. Qed.
End providers_ledger.

#[global] Hint Resolve raiseAlert_ledger recordProviderHealth_ledger recordProviderWriteFailure_ledger
  providerForObject_pres putUploadSpool_pres : pres.
#[global] Hint Extern 2 (pres _ (providerForObject _)) => unfold providerForObject; pres_auto : pres.
#[global] Hint Extern 2 (pres _ (adapter_put _ _ _ _)) => unfold adapter_put; pres_auto : pres.
#[global] Hint Extern 2 (pres _ (adapter_get _ _ _)) => unfold adapter_get; pres_auto : pres.
#[global] Hint Extern 2 (pres _ (adapter_head _ _ _)) => unfold adapter_head; pres_auto : pres.
#[global] Hint Extern 2 (pres _ (adapter_delete _ _ _)) => unfold adapter_delete; pres_auto : pres.
#[global] Hint Extern 2 (pres _ (adapter_health _ _)) => unfold adapter_health; pres_auto : pres.
