(* ===== verification/S3Request.v ===== *)
(** Reading an S3 request, [gateway/handler.go] and [gateway/object_compat.go]:
    paths, permissions, ranges, conditions, metadata and tags; and which ranges
    are served. *)
From S2P Require Import Prelude GoTime Json Text Url Stamp Http HttpDate Domain World Providers.

Definition hasQueryFlag (r : Request) (name : string) : bool :=
  match rq_Query r !! name with Some _ => true | None => false end.

(** [strings.SplitN(s, "/", 2)] *)
Definition splitS3Path (rawPath : string) : option (string * string) :=
  let trimmed := trim_prefix rawPath "/" in
  if (trimmed =? "")%string then None
  else
    let '(bucket, key) := match string_cut trimmed "/" with Some bk => bk | None => (trimmed, ""%string) end in
    if (bucket =? "")%string || has_prefix bucket "admin" then None else Some (bucket, key).

Definition s3PermissionForRequest (r : Request) (bucket key : string) : string :=
  let method m := (rq_Method r =? m)%string in
  if (bucket =? "")%string then "s3:ListAllMyBuckets"
  else if (key =? "")%string && method "PUT" then "s3:CreateBucket"
  else if (key =? "")%string && (method "GET" || method "HEAD") then "s3:ListBucket"
  else if (key =? "")%string && method "POST" then "s3:DeleteObject"
  else if method "GET" || method "HEAD" then "s3:GetObject"
  else if method "PUT" || method "POST" then "s3:PutObject"
  else if method "DELETE" then "s3:DeleteObject"
  else "s3:*".

Definition limitOrDefault (limit : Z) : Z := if (limit <=? 0) || (1000 <? limit) then 1000 else limit.

(** ** Ranges *)

Definition parseSingleRange (header : string) (size : Z) : option (Z * Z) :=
  if (size <? 0) || negb (has_prefix header "bytes=") then None
  else
    let spec := trim_prefix header "bytes=" in
    if negb (no_byte "," spec) then None
    else
      '(startRaw, endRaw) ← string_cut spec "-";
      if (startRaw =? "")%string then
        suffix ← parse_int64 endRaw;
        if suffix <=? 0 then None
        else
          let suffix := if size <? suffix then size else suffix in
          if 0 <? size then Some (size - suffix, size - 1) else None
      else
        start ← parse_int64 startRaw;
        if (start <? 0) || (size <=? start) then None
        else if (endRaw =? "")%string then Some (start, size - 1)
        else
          parsedEnd ← parse_int64 endRaw;
          if parsedEnd <? start then None
          else Some (start, if parsedEnd <? size - 1 then parsedEnd else size - 1).

(** ** Conditions *)

Definition etagListContains (list etag : string) : bool :=
  existsb (λ candidate, (trim_space candidate =? etag)%string) (string_split "," list).

(** The status of a request whose condition stops it. [local] is as in
    [ParseTime]. *)
Definition evaluateObjectConditions (local : string → Time → option Z) (r : Request) (object : ObjectRecord) : option Z :=
  let etag := trim_space (o_ETag object) in
  let header name := trim_space (rq_header r name) in
  let reading := (rq_Method r =? "GET")%string || (rq_Method r =? "HEAD")%string in
  let dated name (P : Time → bool) :=
    match ParseTime local (rq_header r name) with
    | Some t => negb (is_zero (o_UpdatedAt object)) && P t
    | None => false
    end in
  if negb (header "If-Match" =? "")%string && negb (header "If-Match" =? "*")%string
     && negb (etagListContains (header "If-Match") etag) then Some 412
  else if negb (header "If-None-Match" =? "")%string
          && ((header "If-None-Match" =? "*")%string || etagListContains (header "If-None-Match") etag)
  then Some (if reading then 304 else 412)
  else if dated "If-Modified-Since" (λ t, negb (after (o_UpdatedAt object) t)) then Some 304
  else if dated "If-Unmodified-Since" (λ t, after (o_UpdatedAt object) t) then Some 412
  else None.

(** ** Metadata and tags *)

(** Headers of one name in different spellings do not occur: the server
    canonicalises names. *)
Definition objectMetadataFromHeaders (header : Values) : gmap string string :=
  map_fold (λ name values metadata,
    let lower := to_lower name in
    if has_prefix lower "x-amz-meta-" then <[trim_prefix lower "x-amz-meta-" := string_join "," values]> metadata else metadata)
    ∅ header.

Definition parseTaggingHeader (raw : string) : gmap string string :=
  if query_malformed raw then ∅
  else omap (λ values, match values with v :: _ => Some v | [] => None end) (parse_query raw).

(** ** Which ranges are served *)

(** RFC 9110 byte ranges: a first byte with an optional last one, or the length
    of a suffix. Bytes past the end are left out. *)
Inductive byte_range (size : Z) : string → Z → Z → Prop :=
| range_from first a : parse_int64 first = Some a → no_byte "-" first = true → first ≠ "" → 0 ≤ a < size →
    byte_range size (first +:+ "-") a (size - 1)
| range_closed first last a b : parse_int64 first = Some a → parse_int64 last = Some b → no_byte "-" first = true →
    first ≠ "" → last ≠ "" → 0 ≤ a < size → a ≤ b → byte_range size (first +:+ "-" +:+ last) a (Z.min b (size - 1))
| range_suffix last n : parse_int64 last = Some n → 0 < n → 0 < size →
    byte_range size ("-" +:+ last) (Z.max 0 (size - n)) (size - 1).

Lemma string_cut_byte_spec c s a b : string_cut s (String c "") = Some (a, b) ↔ s = a +:+ String c b ∧ no_byte c a = true.
Proof.
  revert a. induction s as [|x s IH]; intros a.
  - split; [done|]. intros [H _]. by destruct a.
  - cbn [string_cut has_prefix]. destruct (ascii_dec c x) as [<-|Hne]; cbn [String.prefix].
    + destruct (ascii_dec c c); [|done]. cbn. split.
      * intros [= <- <-]. by destruct s.
      * intros [Heq Ha]. destruct a as [|y a]; rewrite ?append_cons, ?append_nil_l in Heq; injection Heq as Heq.
        -- subst b. by destruct s.
        -- subst y. by rewrite no_byte_cons, Ascii.eqb_refl in Ha.
    + destruct (ascii_dec c x); [done|]. split.
      * destruct (string_cut s (String c "")) as [[u v]|] eqn:E; [|done]. intros [= <- <-].
        destruct (proj1 (IH u) eq_refl) as [-> Hu].
        rewrite append_cons, no_byte_cons, Hu. split; [done|]. destruct (Ascii.eqb_spec c x); done.
      * intros [Heq Ha]. destruct a as [|y a]; rewrite ?append_cons, ?append_nil_l in Heq; injection Heq as -> Heq; [done|].
        rewrite no_byte_cons in Ha. apply andb_true_iff in Ha as [_ Ha]. by rewrite (proj2 (IH a)).
Qed.

Lemma parse_digits_plain acc s n : parse_digits acc s = Some n → no_byte "," s = true.
Proof.
  revert acc. induction s as [|a s IH]; intros acc; [done|]. cbn [parse_digits]. destruct (digit_of a) as [d|] eqn:Hd; [|done].
  intros Hs. rewrite no_byte_cons, (IH _ Hs). destruct (Ascii.eqb_spec "," a) as [<-|]; [done|done].
Qed.

Lemma parse_int64_plain s n : parse_int64 s = Some n → no_byte "," s = true ∧ s ≠ "".
Proof.
  assert (∀ t k, parse_magnitude t = Some k → no_byte "," t = true ∧ t ≠ "") as Hm.
  { intros t k Hk. destruct t as [|a t]; [done|]. split; [by eapply parse_digits_plain|done]. }
  unfold parse_int64. intros H. destruct s as [|a s]; [done|]. split; [|done]. rewrite no_byte_cons.
  destruct (decide (a = "-"%char)) as [->|]; [|destruct (decide (a = "+"%char)) as [->|]].
  - destruct (parse_magnitude s) eqn:E; [|done]. by apply Hm in E as [-> _].
  - destruct (parse_magnitude s) eqn:E; [|done]. by apply Hm in E as [-> _].
  - rewrite <- no_byte_cons. assert (∃ k, parse_magnitude (String a s) = Some k) as [k Hk]; [|by apply Hm in Hk as [-> _]].
    destruct a as [[] [] [] [] [] [] [] []]; try done; destruct (parse_magnitude _); by eexists.
Qed.

Lemma parse_range_spec header size first last :
  parseSingleRange header size = Some (first, last) ↔ ∃ spec, header = "bytes=" +:+ spec ∧ byte_range size spec first last.
Proof.
  unfold parseSingleRange. split.
  - destruct (Z.ltb_spec size 0) as [|Hsize]; [done|]. destruct (has_prefix header "bytes=") eqn:Hp; [|done]. cbn [orb negb].
    apply has_prefix_spec in Hp as [spec ->]. rewrite trim_prefix_app.
    destruct (no_byte "," spec); [|done]. cbn [negb].
    destruct (string_cut spec "-") as [[first_raw last_raw]|] eqn:Hcut; [|done]. cbn [mbind option_bind].
    apply string_cut_byte_spec in Hcut as [-> Hdash]. intros Hrun. exists (first_raw +:+ String "-" last_raw). split; [done|].
    destruct (String.eqb_spec first_raw "") as [->|Hne].
    + destruct (parse_int64 last_raw) as [n|] eqn:Hn; [|done]. cbn [mbind option_bind] in Hrun.
      destruct (Z.leb_spec n 0); [done|]. destruct (Z.ltb_spec 0 size); [|done]. injection Hrun as <- <-.
      assert (size - (if size <? n then size else n) = Z.max 0 (size - n)) as -> by (destruct (Z.ltb_spec size n); lia).
      rewrite append_nil_l. by apply (range_suffix size last_raw).
    + destruct (parse_int64 first_raw) as [a|] eqn:Ha; [|done]. cbn [mbind option_bind] in Hrun.
      destruct ((a <? 0) || (size <=? a)) eqn:Hrange; [done|]. destruct (String.eqb_spec last_raw "") as [->|Hlast].
      * injection Hrun as <- <-. apply (range_from size first_raw); [done..|lia].
      * destruct (parse_int64 last_raw) as [b|] eqn:Hb; [|done]. cbn [mbind option_bind] in Hrun.
        destruct (Z.ltb_spec b a); [done|]. injection Hrun as <- <-.
        assert ((if b <? size - 1 then b else size - 1) = Z.min b (size - 1)) as -> by (destruct (Z.ltb_spec b (size - 1)); lia).
        apply (range_closed size first_raw last_raw a b); [done..|lia|lia].
  - intros (spec & -> & Hrange). rewrite trim_prefix_app, (proj2 (has_prefix_spec _ _)) by (by exists spec). rewrite orb_false_r.
    assert (∀ a b, string_cut (a +:+ String "-" b) "-" = Some (a, b) ↔ no_byte "-" a = true) as Hcut.
    { intros a b. rewrite string_cut_byte_spec. naive_solver. }
    destruct Hrange as [x a Hx Hdash Hne Ha|x y a b Hx Hy Hdash Hne Hney Ha Hab|y n Hy Hn Hsize].
    + destruct (parse_int64_plain _ _ Hx) as [Hcomma _]. rewrite no_byte_app, Hcomma. assert ((size <? 0) = false) as -> by lia. cbn [andb negb].
      change (x +:+ "-") with (x +:+ String "-" ""). rewrite (proj2 (Hcut x "")) by done. cbn [mbind option_bind].
      rewrite (proj2 (String.eqb_neq x "")), Hx by done. cbn [mbind option_bind].
      by assert ((a <? 0) || (size <=? a) = false) as -> by lia.
    + destruct (parse_int64_plain _ _ Hx) as [Hcomma _]. destruct (parse_int64_plain _ _ Hy) as [Hcommay _].
      rewrite append_cons, append_nil_l, no_byte_app, no_byte_cons, Hcomma, Hcommay.
      assert ((size <? 0) = false) as -> by lia. cbn [andb negb]. rewrite (proj2 (Hcut x y)) by done. cbn [mbind option_bind].
      rewrite (proj2 (String.eqb_neq x "")), (proj2 (String.eqb_neq y "")), Hx, Hy by done. cbn [mbind option_bind].
      assert ((a <? 0) || (size <=? a) = false) as -> by lia. assert ((b <? a) = false) as -> by lia.
      do 2 f_equal. destruct (Z.ltb_spec b (size - 1)); lia.
    + destruct (parse_int64_plain _ _ Hy) as [Hcomma _]. rewrite append_cons, append_nil_l, no_byte_cons, Hcomma.
      assert ((size <? 0) = false) as -> by lia. cbn [andb negb]. change (String "-" y) with ("" +:+ String "-" y).
      rewrite (proj2 (Hcut "" y)) by done. cbn [mbind option_bind String.eqb]. rewrite Hy. cbn [mbind option_bind].
      assert ((n <=? 0) = false) as -> by lia. assert ((0 <? size) = true) as -> by lia.
      do 2 f_equal. destruct (Z.ltb_spec size n); lia.
Qed.

Lemma byte_range_bounds size spec first last : byte_range size spec first last → 0 ≤ first ≤ last ∧ last < size.
Proof. destruct 1; lia. Qed.

(** The ranges served are those of RFC 9110: a range header is accepted
    exactly when it is one byte range that the object satisfies, and then the
    first and last byte are the ones the range means. *)
Theorem parse_range_exact header size first last :
  parseSingleRange header size = Some (first, last) ↔ ∃ spec, header = "bytes=" +:+ spec ∧ byte_range size spec first last.
Proof. apply parse_range_spec. Qed.
