(* ===== verification/Authority.v ===== *)
(** Who a request speaks for, said without the program's own tests: which
    credentials there are, how a request proves that it holds one, what a signed
    form proves, and what an operation needs. The theorems about [SigV4] and
    [PostPolicy] at the end say that whoever those accept has proven it. *)
From S2P Require Import Prelude GoTime Sha256 Json Text Url Stamp Http Hmac Base64 Domain ProviderErrors World Sql StoreProviders StoreEvents Access SigV4 SigV4Facts PostPolicy PostPolicyFacts S3Request.

Section authority.
Context `{Env}.

(** A reading of the clock while a request is authenticated. *)
Definition reading (w : World) (t : Time) : Prop := ∃ n, (w_clock w ≤ n ≤ w_clock w + 3)%nat ∧ t = env_now n.

(** The credentials of a deployment: access key, secret and principal. They are
    the configured pair and, if [stored], the rows of the table that are enabled
    and have not expired; their secrets are encrypted there. *)
Inductive known (stored : bool) (w : World) : string → string → Principal → Prop :=
| known_root :
    cfg_AccessKey env_config ≠ "" →
    known stored w (cfg_AccessKey env_config) (cfg_SecretKey env_config)
      (MkPrincipal "config-root" (cfg_AccessKey env_config) "admin" [] ["*"] ["*"])
| known_stored id row secret :
    stored = true → db_credentials (w_db w) !! id = Some row → ac_AccessKey row ≠ cfg_AccessKey env_config →
    ac_Enabled row = true → env_decrypt (ac_SecretEncrypted row) = Ok secret → secret ≠ "" →
    (ac_ExpiresAt row = 0 ∨ ∃ t, reading w t ∧ t ≤ ac_ExpiresAt row) →
    known stored w (ac_AccessKey row) secret
      (MkPrincipal (ac_ID row) (ac_AccessKey row) (ac_Role row) (ac_Permissions row) (ac_BucketPatterns row) (ac_PrefixPatterns row)).

(** The signature of a canonical request made at the time [amzDate] for the
    scope of [date] and [region]; the region of the deployment stands for an
    empty one. *)
Definition request_signature (secret date region amzDate canonical : string) : string :=
  signature secret date (if (region =? "")%string then au_region (NewAuthenticator env_config) else region)
    (string_to_sign "AWS4-HMAC-SHA256" amzDate (string_join "/" [date; region; "s3"; "aws4_request"]) canonical).

(** Signed at the instant that [amzDate] names, on the day of the scope; the
    clock shows at most [validity] later, and at most a quarter of an hour
    earlier. *)
Definition signed_in_time (w : World) (amzDate date : string) (validity : Duration) : Prop :=
  ∃ signedAt t, parse_stamp amzDate = Some signedAt ∧ date_stamp signedAt = date ∧
    reading w t ∧ signedAt - 15 * minute ≤ t ≤ signedAt + validity.

(** How a request shows that its sender holds the secret of an access key: the
    secret itself, the signature of a presigned URL, or that of the
    Authorization header. *)
Inductive proven (w : World) (r : Request) (accessKey secret : string) : Prop :=
| proven_secret :
    requestAccessKey r = accessKey → secret ≠ "" → rq_header r "X-S3LS-Secret-Key" = secret → proven w r accessKey secret
| proven_presigned date region expires headers :
    let get := values_get (rq_Query r) in
    string_split "/" (get "X-Amz-Credential") = [accessKey; date; region; "s3"; "aws4_request"] →
    parse_int64 (get "X-Amz-Expires") = Some expires → 1 ≤ expires ≤ 604800 →
    signed_in_time w (get "X-Amz-Date") date (expires * second) →
    canonicalHeadersForSignedList r (get "X-Amz-SignedHeaders") = Some headers →
    to_lower (get "X-Amz-Signature") = request_signature secret date region (get "X-Amz-Date")
      (canonical_request (rq_Method r) (rq_EscapedPath r) (canonicalQueryString (cloneQueryWithoutSignature (rq_Query r)))
         headers (get "X-Amz-SignedHeaders") "UNSIGNED-PAYLOAD") →
    proven w r accessKey secret
| proven_header parsed date region headers :
    parseAuthorizationHeader (rq_header r "Authorization") = Some parsed →
    string_split "/" (ah_Credential parsed) = [accessKey; date; region; "s3"; "aws4_request"] →
    let amzDate := (if (rq_header r "X-Amz-Date" =? "")%string then rq_header r "Date" else rq_header r "X-Amz-Date") in
    let payload := rq_header r "X-Amz-Content-Sha256" in
    signed_in_time w amzDate date (15 * minute) →
    canonicalHeadersForSignedList r (ah_SignedHeaders parsed) = Some headers →
    to_lower (ah_Signature parsed) = request_signature secret date region amzDate
      (canonical_request (rq_Method r) (rq_EscapedPath r) (canonicalQueryString (rq_Query r)) headers (ah_SignedHeaders parsed)
         (if (payload =? "")%string then hexSHA256 "" else payload)) →
    proven w r accessKey secret.

(** A request that speaks for a principal. *)
Definition speaks_for (stored : bool) (w : World) (r : Request) (principal : Principal) : Prop :=
  ∃ accessKey secret, known stored w accessKey secret principal ∧ proven w r accessKey secret.

(** The operation a request asks for. *)
Inductive asks_for (bucket key : string) : string → string → Prop :=
| asks_buckets method : bucket = "" → asks_for bucket key method "s3:ListAllMyBuckets"
| asks_create : bucket ≠ "" → key = "" → asks_for bucket key "PUT" "s3:CreateBucket"
| asks_list method : bucket ≠ "" → key = "" → method = "GET" ∨ method = "HEAD" → asks_for bucket key method "s3:ListBucket"
| asks_delete_many : bucket ≠ "" → key = "" → asks_for bucket key "POST" "s3:DeleteObject"
| asks_get method : bucket ≠ "" → key ≠ "" → method = "GET" ∨ method = "HEAD" → asks_for bucket key method "s3:GetObject"
| asks_put method : bucket ≠ "" → key ≠ "" → method = "PUT" ∨ method = "POST" → asks_for bucket key method "s3:PutObject"
| asks_delete : bucket ≠ "" → asks_for bucket key "DELETE" "s3:DeleteObject"
| asks_other method : bucket ≠ "" → method ∉ ["GET"; "HEAD"; "PUT"; "POST"; "DELETE"] → asks_for bucket key method "s3:*".

(** ** What the program accepts *)

Lemma reading_at w n : (w_clock w ≤ n ≤ w_clock w + 3)%nat → reading w (env_now n).
Proof. intros Hn. by exists n. Qed.

(** The authenticator of the gateway ([stored]), or that of the helper of the
    browser uploader, which knows the configured pair only. *)
Definition authenticator (stored : bool) : Authenticator :=
  if stored then NewAuthenticatorWithResolver env_config ResolveS3Credential else NewAuthenticator env_config.

Lemma authenticator_keys stored :
  au_accessKey (authenticator stored) = cfg_AccessKey env_config ∧ au_secretKey (authenticator stored) = cfg_SecretKey env_config
  ∧ au_region (authenticator stored) = au_region (NewAuthenticator env_config).
Proof. by destruct stored. Qed.

Lemma resolve_inv accessKey w credential w1 :
  ResolveS3Credential accessKey w = (Ok credential, w1) →
  w_clock w1 = w_clock w ∧ ∃ id row secret, db_credentials (w_db w) !! id = Some row ∧ ac_AccessKey row = accessKey ∧
    env_decrypt (ac_SecretEncrypted row) = Ok secret ∧ credential = row <| ac_SecretKey := secret |>.
Proof.
  unfold ResolveS3Credential, GetAccessCredentialByAccessKey. intros Hrun. run_inv Hrun as row w2 Hget.
  assert (w_clock w2 = w_clock w) as Hclock.
  { unfold sql_read, sql in Hget. destruct (env_db_fault _); [done|]. destruct (result_map _ _) as [[a d]|]; [|done]. by injection Hget as _ <-. }
  apply sql_read_inv in Hget as [Hfind _]. destruct (find_row _ _) as [found|] eqn:Hf; [|done]. injection Hfind as ->.
  apply find_some in Hf as [Hin Hkey%String.eqb_eq]. apply list_elem_of_In, elem_of_rows in Hin as [id Hid].
  destruct (env_decrypt (ac_SecretEncrypted row)) as [secret|] eqn:Hs; [|discriminate]. injection Hrun as <- <-.
  split; [done|]. by exists id, row, secret.
Qed.

Lemma resolveCredential_known stored accessKey w credential w1 :
  resolveCredential (authenticator stored) accessKey w = (Some credential, w1) →
  known stored w accessKey (ac_SecretKey credential) (principalFromCredential credential)
  ∧ ac_AccessKey credential = accessKey ∧ (w_clock w ≤ w_clock w1 ≤ w_clock w + 1)%nat.
Proof.
  unfold resolveCredential. destruct (authenticator_keys stored) as (Ekey & Esecret & _). rewrite Ekey.
  destruct (String.eqb_spec accessKey "") as [|Hne]; [done|]. destruct (String.eqb_spec accessKey (cfg_AccessKey env_config)) as [->|Hroot].
  { intros [= <- <-]. unfold root_credential, principalFromCredential. rsimpl. rewrite Ekey, Esecret. split; [by constructor|]. split; [done|lia]. }
  destruct stored; [|done]. cbn [authenticator NewAuthenticatorWithResolver au_resolver]. intros Hrun. run_inv Hrun as found w2 Hfound.
  destruct found as [c|e]; [|done]. apply resolve_inv in Hfound as (Hclock & id & row & secret & Hid & Hkey & Hdec & ->).
  destruct (negb _ || _) eqn:Hbad; [done|]. apply orb_false_iff in Hbad as [Hen%negb_false_iff Hsec%String.eqb_neq]. revert Hen Hsec Hrun. rsimpl.
  intros Hen Hsec Hrun. subst accessKey.
  destruct (is_zero (ac_ExpiresAt row)) eqn:Hz.
  - injection Hrun as <- <-. unfold principalFromCredential. rsimpl. split; [|split; [done|lia]].
    econstructor; try done. left. by apply Z.eqb_eq.
  - unfold bind, now, ret in Hrun. destruct (after _ _) eqn:Hafter; [done|]. injection Hrun as <- <-. unfold principalFromCredential. rsimpl.
    split; [|split; [done|lia]]. econstructor; try done. right. exists (env_now (w_clock w2)).
    split; [apply reading_at; lia|]. unfold after in Hafter. apply Z.ltb_ge in Hafter. done.
Qed.

Lemma check_claim_in_time stored w w1 credential c canonical given w2 :
  (w_clock w ≤ w_clock w1 ≤ w_clock w + 3)%nat →
  check_claim (authenticator stored) credential c canonical given w1 = (true, w2) →
  date_stamp (cl_signedAt c) = cl_dateStamp c → parse_stamp (cl_amzDate c) = Some (cl_signedAt c) →
  signed_in_time w (cl_amzDate c) (cl_dateStamp c) (cl_validity c) ∧
  ∃ text, canonical = Some text ∧
    to_lower given = request_signature (ac_SecretKey credential) (cl_dateStamp c) (cl_region c) (cl_amzDate c) text.
Proof.
  intros Hclock. unfold check_claim, bind, now, ret. intros [= Hok _] Hdate Hparse. apply andb_true_iff in Hok as [Hwin Hsig]. split.
  - exists (cl_signedAt c), (env_now (w_clock w1)). split_and!; [done|done|by apply reading_at|..];
      unfold in_window, before, after, add_time, skew in Hwin; lia.
  - destruct canonical as [text|]; [|done]. exists text. split; [done|]. apply String.eqb_eq in Hsig.
    rewrite Hsig. unfold expected_signature, request_signature, signing_region, scope_text.
    by destruct (authenticator_keys stored) as (_ & _ & ->).
Qed.
Lemma credential_scope_inv accessKey credential date region :
  credential_scope accessKey credential = Some (date, region) → string_split "/" credential = [accessKey; date; region; "s3"; "aws4_request"].
Proof.
  unfold credential_scope. destruct (string_split "/" credential) as [|key [|d [|reg [|service [|terminal [|]]]]]]; try done.
  destruct (String.eqb_spec key accessKey), (String.eqb_spec service "s3"), (String.eqb_spec terminal "aws4_request"); try done.
  intros [= -> ->]. by subst.
Qed.

Lemma dated_claim_inv scope amzDate validity c : dated_claim scope amzDate validity = Some c →
  cl_dateStamp c = scope.1 ∧ cl_region c = scope.2 ∧ cl_amzDate c = amzDate ∧ cl_validity c = validity
  ∧ parse_stamp amzDate = Some (cl_signedAt c) ∧ date_stamp (cl_signedAt c) = cl_dateStamp c.
Proof.
  unfold dated_claim. destruct (parse_stamp amzDate) as [signedAt|]; [cbn [mbind option_bind]|done].
  destruct (String.eqb_spec (date_stamp signedAt) scope.1); [|done]. by intros [= <-].
Qed.

Lemma presigned_proven stored w w1 r credential w2 :
  (w_clock w ≤ w_clock w1 ≤ w_clock w + 3)%nat →
  authorizePresignedURL (authenticator stored) r credential w1 = (true, w2) → proven w r (ac_AccessKey credential) (ac_SecretKey credential).
Proof.
  intros Hclock. unfold authorizePresignedURL. destruct (presigned_claim r credential) as [c|] eqn:Hc; [|done]. intros Hrun.
  unfold presigned_claim in Hc. destruct (_ || _) in Hc; [done|].
  destruct (credential_scope _ _) as [[date region]|] eqn:Hs; [cbn [mbind option_bind] in Hc|done].
  destruct (parse_int64 _) as [expires|] eqn:He; [cbn [mbind option_bind] in Hc|done]. destruct (_ || _) eqn:Hr in Hc; [done|].
  apply dated_claim_inv in Hc as (E1 & E2 & E3 & E4 & Hp & Hd). cbn [fst snd] in E1, E2.
  apply (check_claim_in_time stored w) in Hrun as [Htime (text & Htext & Hsig)]; [|done|done|by rewrite E3].
  rewrite E1, E2, E3 in Hsig. rewrite E1, E3, E4 in Htime. unfold presignedCanonicalRequest in Htext.
  destruct (canonicalHeadersForSignedList _ _) as [headers|] eqn:Hh; [|done]. injection Htext as <-.
  assert (duration_mul expires second = expires * second) as Em.
  { unfold duration_mul, mul64, second in *. apply wrap64_id. unfold in_int64, int64_min, int64_max. lia. }
  rewrite Em in Htime. eapply (proven_presigned w r _ _ date region expires headers); try done; [by apply credential_scope_inv|lia].
Qed.

Lemma header_proven stored w w1 r credential w2 :
  (w_clock w ≤ w_clock w1 ≤ w_clock w + 3)%nat →
  authorizeHeaderCredential (authenticator stored) r credential w1 = (true, w2) → proven w r (ac_AccessKey credential) (ac_SecretKey credential).
Proof.
  intros Hclock. unfold authorizeHeaderCredential. destruct (parseAuthorizationHeader _) as [parsed|] eqn:Hparsed; [|done].
  destruct (header_claim r parsed credential) as [c|] eqn:Hc; [|done]. intros Hrun. unfold header_claim in Hc.
  destruct (credential_scope _ _) as [[date region]|] eqn:Hs; [cbn [mbind option_bind] in Hc|done].
  apply dated_claim_inv in Hc as (E1 & E2 & E3 & E4 & Hp & Hd). cbn [fst snd] in E1, E2.
  apply (check_claim_in_time stored w) in Hrun as [Htime (text & Htext & Hsig)]; [|done|done|by rewrite E3].
  rewrite E1, E2, E3 in Hsig. rewrite E1, E3, E4 in Htime. unfold headerCanonicalRequest in Htext.
  destruct (canonicalHeadersForSignedList _ _) as [headers|] eqn:Hh; [|done]. injection Htext as <-.
  eapply (proven_header w r _ _ parsed date region headers); try done. by apply credential_scope_inv.
Qed.

Lemma Authenticate_speaks stored r w principal :
  (Authenticate (authenticator stored) r w).1 = Some principal → speaks_for stored w r principal.
Proof.
  intros Hrun%run_pair. unfold Authenticate in Hrun. run_inv Hrun as resolved w1 Hres. destruct resolved as [credential|]; [|done].
  apply resolveCredential_known in Hres as (Hknown & Hkey & Hclock). cbv zeta in Hrun. run_inv Hrun as ok w2 Hok.
  destruct ok; [|done]. injection Hrun as <- _. exists (requestAccessKey r), (ac_SecretKey credential). split; [done|]. rewrite <- Hkey.
  destruct (String.eqb_spec (rq_header r "X-S3LS-Secret-Key") "") as [_|Hsecret]; cbn [negb] in Hok.
  - destruct (negb _); [eapply presigned_proven|eapply header_proven]; try exact Hok; lia.
  - injection Hok as Hok _. apply String.eqb_eq in Hok. apply proven_secret; [done|congruence|done].
Qed.

Lemma asks_permission r bucket key : asks_for bucket key (rq_Method r) (s3PermissionForRequest r bucket key).
Proof.
  unfold s3PermissionForRequest. cbv zeta. destruct (String.eqb_spec bucket "") as [|Hb]; [by constructor|].
  destruct (String.eqb_spec (rq_Method r) "PUT") as [->|H1], (String.eqb_spec (rq_Method r) "GET") as [E2|H2],
    (String.eqb_spec (rq_Method r) "HEAD") as [E3|H3], (String.eqb_spec (rq_Method r) "POST") as [E4|H4],
    (String.eqb_spec (rq_Method r) "DELETE") as [E5|H5], (String.eqb_spec key "") as [->|Hk];
    cbn [andb orb]; try congruence; rewrite ?E2, ?E3, ?E4, ?E5; try (constructor; by auto).
  all: apply asks_other; [done|]; rewrite !elem_of_cons; intros [?|[?|[?|[?|[?|[]%elem_of_nil]]]]]; congruence.
Qed.

Context `{!PolicyHost}.

(** What the fields of a form show: a policy in force that the secret of a known
    access key has signed, and whose conditions the fields and the file meet. *)
Definition form_speaks_for (stored : bool) (w : World) (fields : gmap string string) (size : Z) (principal : Principal) : Prop :=
  ∃ accessKey secret date region decoded policy signedAt, known stored w accessKey secret principal
    ∧ string_split "/" (field fields "x-amz-credential") = [accessKey; date; region; "s3"; "aws4_request"]
    ∧ base64std_decode (field fields "policy") = Some decoded ∧ decode_policy decoded = Ok policy
    ∧ pp_Expiration policy ≠ 0 ∧ (∃ t, reading w t ∧ t ≤ pp_Expiration policy)
    ∧ parse_stamp (field fields "x-amz-date") = Some signedAt ∧ date_stamp signedAt = date
    ∧ (∃ t, reading w t ∧ signedAt - 15 * minute ≤ t)
    ∧ to_lower (field fields "x-amz-signature") = signature secret date region (field fields "policy")
    ∧ Forall (meets fields size) (pp_Conditions policy).

Lemma AuthorizePostPolicy_speaks stored fields size w principal :
  (AuthorizePostPolicy (authenticator stored) fields size w).1 = Ok principal →
  form_speaks_for stored w fields size principal ∧ permits principal "s3:PutObject" (field fields "bucket") (field fields "key").
Proof.
  intros (accessKey & date & region & credential & decoded & policy & signedAt & Hs & _ & Hres & Hdec & Hpol & Ht & Hp & Hd & Hsig & Hmeets & Hallow & ->)%policy_exact.
  destruct (resolveCredential _ accessKey w) as [resolved w1] eqn:Hrun. cbn [fst snd] in *. subst resolved.
  apply resolveCredential_known in Hrun as (Hknown & _ & Hclock). cbv zeta in Ht. destruct Ht as (Hz & Hexp & _ & Hskew).
  split.
  - exists accessKey, (ac_SecretKey credential), date, region, decoded, policy, signedAt. split_and!; try done.
    + by apply Z.eqb_neq in Hz.
    + exists (env_now (0 + w_clock w1)). split; [apply reading_at; lia|]. unfold after in Hexp. by apply Z.ltb_ge in Hexp.
    + exists (env_now (1 + w_clock w1)). split; [apply reading_at; lia|]. unfold before, add_time, skew in Hskew. apply Z.ltb_ge in Hskew. lia.
  - by apply principal_permits.
Qed.
End authority.
