(* ===== verification/Hooks.v ===== *)
(** Webhooks, [app/hooks.go]: which hooks an object event reaches, the payload
    they get, and the delivery of queued events with retries. *)
From S2P Require Import Prelude GoTime Json Text Url Http Domain ProviderErrors World Sql StoreProviders StoreObjects StoreEvents Providers.

Definition defaultHookMaxAttempts : Z := 3.

(** [json.Marshal] of a map: its keys are sorted. *)
Definition json_map (m : gmap string string) : json :=
  JObject ((λ k, (k, JString (default "" (m !! k)))) <$> sort_strings (map_to_list m).*1).

Definition json_time (t : Time) : json := JString (time_text t).

(** [json.Marshal(HookPayload{...})] *)
Definition hook_payload (event : string) (obj : ObjectRecord) (timestamp : Time) : string :=
  json_text (JObject [
    ("event", JString event); ("bucket", JString (o_Bucket obj)); ("key", JString (o_Key obj));
    ("providerAccountId", JString (o_ProviderAccountID obj)); ("remoteBucket", JString (o_RemoteBucket obj));
    ("remoteKey", JString (o_RemoteKey obj)); ("size", JInt (o_Size obj)); ("contentType", JString (o_ContentType obj));
    ("etag", JString (o_ETag obj)); ("checksumSHA256", JString (o_ChecksumSHA256 obj));
    ("objectUpdatedAt", json_time (o_UpdatedAt obj)); ("replicaStatus", JString (o_ReplicaStatus obj));
    ("timestamp", json_time timestamp)]).

(** [json.Marshal(s3NotificationPayload(...))]: the keys of Go maps are sorted. *)
Definition s3_notification_json (notification : BucketNotification) (event : string) (object : ObjectRecord)
    (eventTime : Time) (sequencer : string) : string :=
  let eventName := if (event =? HookEventObjectDeleted)%string then "ObjectRemoved:Delete" else "ObjectCreated:Put" in
  json_text (JObject [("Records", JArray [JObject [
    ("awsRegion", JString "auto"); ("eventName", JString eventName); ("eventSource", JString "aws:s3");
    ("eventTime", json_time eventTime); ("eventVersion", JString "2.1");
    ("s3", JObject [
      ("bucket", JObject [("arn", JString ("arn:aws:s3:::" +:+ o_Bucket object)); ("name", JString (o_Bucket object))]);
      ("configurationId", JString (bn_ID notification));
      ("object", JObject [("eTag", JString (trim_byte "034" (o_ETag object))); ("key", JString (query_escape (o_Key object)));
                          ("sequencer", JString (upper_ascii sequencer)); ("size", JInt (o_Size object))]);
      ("s3SchemaVersion", JString "1.0")]);
    ("userIdentity", JObject [("principalId", JString "bucketmux")])]])]).

Definition matchingBucketNotifications (notifications : list BucketNotification) (hookID event key : string) : list BucketNotification :=
  List.filter (λ n, (bn_HookID n =? hookID)%string && (bn_Event n =? event)%string
                    && has_prefix key (bn_Prefix n) && has_suffix key (bn_Suffix n)) notifications.

Definition hookMatchesEvent (hook : Hook) (event : string) : bool :=
  match h_Events hook with [] => true | events => existsb (String.eqb event) events end.

(** Is the hook a target of the event? With notifications of the bucket that
    name the hook, one of them has to match; without, the hook's own events
    decide alone. *)
Definition hook_selected (notifications : list BucketNotification) (hook : Hook) (event key : string) : bool :=
  (h_Kind hook =? HookKindHTTP)%string && hookMatchesEvent hook event
  && negb (existsb (λ n, (bn_HookID n =? h_ID hook)%string) notifications
           && match matchingBucketNotifications notifications (h_ID hook) event key with [] => true | _ => false end).

Definition normalizeHookHeaders (headers : gmap string string) : gmap string string :=
  map_fold (λ name value out,
    let name := canonical_header_key (trim_space name) in
    let value := trim_space value in
    if (name =? "")%string || (value =? "")%string then out else <[name := value]> out) ∅ headers.

(** [1 << min(attempts-1, 5)] seconds, at most a minute. *)
Definition hookRetryDelay (attempts : Z) : Duration :=
  let attempts := if attempts <? 1 then 1 else attempts in
  let delay := duration_mul (2 ^ Z.min (attempts - 1) 5) second in
  if minute <? delay then minute else delay.

Section hooks.
Context `{Env}.

(** [json.Unmarshal] of the decrypted headers into a map. *)
Variable decode_headers : string → result (gmap string string).

Definition decryptHookHeaders (hook : Hook) : result (gmap string string) :=
  if negb (bool_decide (h_Headers hook = ∅)) then Ok (normalizeHookHeaders (h_Headers hook))
  else if (h_HeadersEncrypted hook =? "")%string then Ok ∅
  else match env_decrypt (h_HeadersEncrypted hook) with
       | Err e => Err (ErrWrap "decrypt hook headers" e)
       | Ok plain => match decode_headers plain with
                     | Err e => Err (ErrWrap "decode hook headers" e)
                     | Ok headers => Ok (normalizeHookHeaders headers)
                     end
       end.

(** *** Queueing an event *)

Definition hook_delivery (hook : Hook) (event : string) (obj : ObjectRecord) (notifications : list BucketNotification)
    (payload : string) : M unit :=
  let! payloadJSON :=
    match matchingBucketNotifications notifications (h_ID hook) event (o_Key obj) with
    | [] => ret payload
    | n :: _ =>
        let! t := now in
        let! sequencer := randomIdentifier "" 8 in
        ret (s3_notification_json n event obj t sequencer)
    end in
  let! deliveryID := randomIdentifier "" 16 in
  let! t := now in
  ignore (CreateHookDelivery (zero_HookDelivery <| hd_ID := deliveryID |> <| hd_HookID := h_ID hook |>
    <| hd_Event := event |> <| hd_Bucket := o_Bucket obj |> <| hd_Key := o_Key obj |>
    <| hd_PayloadJSON := payloadJSON |> <| hd_Status := HookDeliveryStatusPending |>
    <| hd_MaxAttempts := defaultHookMaxAttempts |> <| hd_NextAttemptAt := t |>)).

Definition dispatchObjectHook (event : string) (obj : ObjectRecord) : M unit :=
  let! hooks := ListHooks true in
  match hooks with
  | Err _ | Ok [] => ret tt
  | Ok hooks =>
      let! persisted := (if (event =? HookEventObjectCreated)%string
                         then GetObject_store (o_Bucket obj) (o_Key obj) else ret (Ok obj)) in
      match persisted with
      | Err _ => ret tt
      | Ok obj =>
          let! timestamp := now in
          let payload := hook_payload event obj timestamp in
          let! listed := ListBucketNotifications (o_Bucket obj) in
          let notifications := match listed with Ok l => l | Err _ => [] end in
          for_each hooks (λ hook,
            if hook_selected notifications hook event (o_Key obj)
            then hook_delivery hook event obj notifications payload
            else ret tt)
      end
  end.

(** *** Delivering it *)

(** The status code and the text of the error, empty on success. *)
Definition deliverHTTPHook (hook : Hook) (body : string) : M (Z * string) :=
  match decryptHookHeaders hook with
  | Err e => ret (0, error_text e)
  | Ok headers =>
      let method := upper_ascii (trim_space (h_Method hook)) in
      let method := if (method =? "")%string then "POST" else method in
      let payload := if (method =? "GET")%string then "" else body in
      let! r := remote (CallHTTP method (h_URL hook) payload headers)
                  (λ h, env_http h method (h_URL hook) payload headers) in
      ret (match r with
           | Err e => (0, error_text e)
           | Ok status =>
               if (status <? 200) || (300 <=? status) then (status, "hook returned HTTP " +:+ itoa status)
               else (status, "")
           end)
  end.

(** What an attempt makes of a claimed delivery, at the instant [t]. *)
Definition after_attempt (delivery : HookDelivery) (statusCode : Z) (errText : string) (t : Time) : HookDelivery :=
  let delivery := delivery <| hd_Attempts ::= λ a, add64 a 1 |> <| hd_LastStatusCode := statusCode |>
                           <| hd_LastError := errText |> in
  if (errText =? "")%string && (200 <=? statusCode) && (statusCode <? 300)
  then delivery <| hd_Status := HookDeliveryStatusSucceeded |> <| hd_NextAttemptAt := t |>
  else if hd_MaxAttempts delivery <=? hd_Attempts delivery
  then delivery <| hd_Status := HookDeliveryStatusFailed |> <| hd_NextAttemptAt := t |>
  else delivery <| hd_Status := HookDeliveryStatusPending |>
                <| hd_NextAttemptAt := add_time t (hookRetryDelay (hd_Attempts delivery)) |>.

(** The attempt itself, up to the row that is written back. *)
Definition attempt_delivery (delivery : HookDelivery) : M (result HookDelivery) :=
  if negb (hd_Status delivery =? HookDeliveryStatusRunning)%string
  then ret_err (ErrText ("hook delivery " +:+ hd_ID delivery +:+ " is not claimed"))
  else
    let no_hook := delivery <| hd_Status := HookDeliveryStatusFailed |>
                     <| hd_LastError := "hook not found, disabled or not http" |> in
    let! found := GetHook (hd_HookID delivery) in
    match found with
    | Ok hook =>
        if negb (h_Enabled hook) || negb (h_Kind hook =? HookKindHTTP)%string then ret_ok no_hook
        else
          let! sent := deliverHTTPHook hook (hd_PayloadJSON delivery) in
          let '(statusCode, errText) := sent in
          let! t := now in
          ret_ok (after_attempt delivery statusCode errText t)
    | Err _ => ret_ok no_hook
    end.

Definition deliverHookDelivery (delivery : HookDelivery) : M (result unit) :=
  let? delivery := attempt_delivery delivery in UpdateHookDelivery delivery.

Fixpoint process_deliveries (n : nat) : M (result unit) :=
  match n with
  | O => ret_ok tt
  | S n =>
      let! t := now in
      let? claimed := ClaimNextHookDelivery t in
      match claimed with
      | None => ret_ok tt
      | Some delivery => let? _ := deliverHookDelivery delivery in process_deliveries n
      end
  end.

Definition ProcessPendingHookDeliveries (lim : Z) : M (result unit) :=
  process_deliveries (Z.to_nat (if (lim <=? 0) || (200 <? lim) then 50 else lim)).
End hooks.

(** ** Lemmas *)

Section hooks_ledger.
Context `{Env}.

Lemma dispatchObjectHook_ledger event obj : pres (on_db same_ledger) (dispatchObjectHook event obj).
Proof. unfold dispatchObjectHook, hook_delivery. pres_auto. Qed.

Lemma dispatchObjectHook_calls event obj : pres same_calls (dispatchObjectHook event obj).
Proof.
  unfold dispatchObjectHook, hook_delivery. pres_auto.
  all: unfold CreateHookDelivery; pres_auto.
Qed.
End hooks_ledger.
#[global] Hint Resolve dispatchObjectHook_ledger dispatchObjectHook_calls : pres.
