(* ===== verification/HooksFacts.v ===== *)
(** What the delivery of webhooks guarantees, over every interleaving of the
    statements of any number of workers: a delivery has one worker at a time,
    and it is posted a bounded number of times. *)
From S2P Require Import Prelude GoTime Domain World Sql StoreProviders StoreObjects StoreEvents Demo Providers Hooks.

(** ** Workers

    What a worker is about to do: look for work, try the deliveries it found
    due, read the one it took, post it, write the outcome. *)
Inductive worker :=
| Idle
| Choosing (due : Time) (ids : list string)
| Taken (id : string)
| Holding (x : HookDelivery)
| Reporting (y : HookDelivery).

(** The delivery a worker is on. *)
Definition on (wk : worker) : option string :=
  match wk with
  | Idle | Choosing _ _ => None
  | Taken id => Some id
  | Holding x => Some (hd_ID x)
  | Reporting y => Some (hd_ID y)
  end.

Section workers.
Context `{Env}.
Variable decode_headers : string → result (gmap string string).

(** Its next step: one statement on the deliveries, or the post. *)
Definition work (wk : worker) : M worker :=
  match wk with
  | Idle => let! t := now in let! r := list_claimable t in
            ret (match r with Ok ids => Choosing t ids | Err _ => Idle end)
  | Choosing _ [] => ret Idle
  | Choosing due (id :: ids) =>
      let! r := claim_delivery id due in
      ret (match r with Ok true => Taken id | Ok false => Choosing due ids | Err _ => Idle end)
  | Taken id => let! r := GetHookDelivery id in ret (match r with Ok x => Holding x | Err _ => Idle end)
  | Holding x =>
      let! r := attempt_delivery decode_headers x in
      ret (match r with Ok y => Reporting y | Err _ => Idle end)
  | Reporting y => let! _ := ignore (UpdateHookDelivery y) in ret Idle
  end.

(** [n] steps of one worker that nothing interrupts. *)
Fixpoint work_alone (n : nat) (wk : worker) : M worker :=
  match n with O => ret wk | S n => let! wk := work wk in work_alone n wk end.

Lemma alone_step n wk w wk' w1 : work wk w = (wk', w1) → work_alone (S n) wk w = work_alone n wk' w1.
Proof. intros E. cbn [work_alone]. by rewrite (bind_run _ _ _ _ _ E). Qed.

Lemma alone_reports y w : work_alone 1 (Reporting y) w = (Idle, (UpdateHookDelivery y w).2).
Proof. by erewrite alone_step by done. Qed.

Lemma alone_delivers x w : ∃ n, work_alone n (Holding x) w = (Idle, (deliverHookDelivery decode_headers x w).2).
Proof.
  unfold deliverHookDelivery. destruct (attempt_delivery decode_headers x w) as [[y|e] w1] eqn:E.
  - exists 2%nat. rewrite (alone_step _ _ _ (Reporting y) w1) by (cbn [work]; by rewrite (bind_run _ _ _ _ _ E)).
    by rewrite alone_reports, (bind_ok_run _ _ _ _ _ E).
  - exists 1%nat. rewrite (alone_step _ _ _ Idle w1) by (cbn [work]; by rewrite (bind_run _ _ _ _ _ E)).
    by rewrite (bind_err_run _ _ _ _ _ E).
Qed.

Lemma bind_ok_skip {A B} (m m' : M (result A)) (k : A → M (result B)) w w1 :
  m w = m' w1 → bind_ok m k w = bind_ok m' k w1.
Proof. unfold bind_ok, bind. by intros ->. Qed.

Lemma alone_chooses due ids w :
  ∃ n, work_alone n (Choosing due ids) w =
       (Idle, (bind_ok (claim_deliveries ids due)
                 (λ claimed, match claimed with None => ret_ok tt | Some x => deliverHookDelivery decode_headers x end) w).2).
Proof.
  revert w. induction ids as [|id ids IH]; intros w; [by exists 1%nat|]. cbn [claim_deliveries].
  destruct (claim_delivery id due w) as [[[|]|e] w1] eqn:E1.
  - destruct (GetHookDelivery id w1) as [[x|e] w2] eqn:E2.
    + destruct (alone_delivers x w2) as [n Hn]. exists (S (S n)).
      rewrite (alone_step _ _ _ (Taken id) w1) by (cbn [work]; by rewrite (bind_run _ _ _ _ _ E1)).
      rewrite (alone_step _ _ _ (Holding x) w2) by (cbn [work]; by rewrite (bind_run _ _ _ _ _ E2)).
      rewrite Hn. by erewrite bind_ok_run by (rewrite (bind_ok_run _ _ _ _ _ E1), (bind_ok_run _ _ _ _ _ E2); reflexivity).
    + exists 2%nat. rewrite (alone_step _ _ _ (Taken id) w1) by (cbn [work]; by rewrite (bind_run _ _ _ _ _ E1)).
      rewrite (alone_step _ _ _ Idle w2) by (cbn [work]; by rewrite (bind_run _ _ _ _ _ E2)).
      by erewrite bind_err_run by (rewrite (bind_ok_run _ _ _ _ _ E1), (bind_err_run _ _ _ _ _ E2); reflexivity).
  - destruct (IH w1) as [n Hn]. exists (S n).
    rewrite (alone_step _ _ _ (Choosing due ids) w1) by (cbn [work]; by rewrite (bind_run _ _ _ _ _ E1)).
    rewrite Hn. do 2 f_equal. symmetry. apply bind_ok_skip. by rewrite (bind_ok_run _ _ _ _ _ E1).
  - exists 1%nat. rewrite (alone_step _ _ _ Idle w1) by (cbn [work]; by rewrite (bind_run _ _ _ _ _ E1)).
    by erewrite bind_err_run by (rewrite (bind_err_run _ _ _ _ _ E1); reflexivity).
Qed.

(** A worker that is left alone does what one round of the code does: the claim
    and the delivery of [ProcessPendingHookDeliveries]. *)
Theorem work_is_the_code w :
  ∃ n, work_alone n Idle w = (Idle, (process_deliveries decode_headers 1 w).2).
Proof.
  cbn [process_deliveries]. destruct (now w) as [t w1] eqn:Et. rewrite (bind_run _ _ _ _ _ Et). cbv beta.
  unfold ClaimNextHookDelivery. destruct (list_claimable t w1) as [[ids|e] w2] eqn:El.
  - destruct (alone_chooses t ids w2) as [n Hn]. exists (S n).
    rewrite (alone_step _ _ _ (Choosing t ids) w2)
      by (cbn [work]; rewrite (bind_run _ _ _ _ _ Et); by rewrite (bind_run _ _ _ _ _ El)).
    rewrite Hn. f_equal. destruct (claim_deliveries ids t w2) as [[c|e] w3] eqn:Ec.
    + rewrite (bind_ok_run _ _ _ _ _ Ec). erewrite bind_ok_run by (by rewrite (bind_ok_run _ _ _ _ _ El)).
      destruct c as [x|]; [|done]. destruct (deliverHookDelivery decode_headers x w3) as [[[]|e] w4] eqn:Ed.
      * by rewrite (bind_ok_run _ _ _ _ _ Ed).
      * by rewrite (bind_err_run _ _ _ _ _ Ed).
    + rewrite (bind_err_run _ _ _ _ _ Ec). by erewrite bind_err_run by (by rewrite (bind_ok_run _ _ _ _ _ El)).
  - exists 1%nat. rewrite (alone_step _ _ _ Idle w2)
      by (cbn [work]; rewrite (bind_run _ _ _ _ _ Et); by rewrite (bind_run _ _ _ _ _ El)).
    by erewrite bind_err_run by (by rewrite (bind_err_run _ _ _ _ _ El)).
Qed.
End workers.
(** ** What the statements do to the deliveries *)

Definition running (d : DB) (id : string) : Prop :=
  ∃ x, db_deliveries d !! id = Some x ∧ hd_Status x = HookDeliveryStatusRunning.

Definition waiting (d : DB) (id : string) (due : Time) : Prop :=
  ∃ x, db_deliveries d !! id = Some x ∧ hd_Status x = HookDeliveryStatusPending ∧ sql_time_le (hd_NextAttemptAt x) due = true.

(** Every row is under its own identifier. *)
Definition keyed (d : DB) : Prop := ∀ k x, db_deliveries d !! k = Some x → hd_ID x = k.

(** A row up to the columns that only the clock writes. *)
Definition view (x : HookDelivery) : string * string * Z * Z * Z * string :=
  (hd_ID x, hd_Status x, hd_Attempts x, hd_MaxAttempts x, hd_LastStatusCode x, hd_LastError x).

(** What a worker that held [x] writes back. *)
Definition outcome (x y : HookDelivery) : Prop :=
  (∃ code err t, y = after_attempt x code err t) ∨
  (∃ err, y = x <| hd_Status := HookDeliveryStatusFailed |> <| hd_LastError := err |>).

(** The deliveries after [UpdateHookDelivery y]. *)
Definition written (y : HookDelivery) (d d' : DB) : Prop :=
  ∀ x, db_deliveries d !! hd_ID y = Some x →
    ∃ x', db_deliveries d' = <[hd_ID y := x']> (db_deliveries d) ∧
      view x' = (hd_ID x, hd_Status y, hd_Attempts y, hd_MaxAttempts x, hd_LastStatusCode y, hd_LastError y).

Section effects.
Context `{Env}.

Definition same_deliveries (w w' : World) : Prop := db_deliveries (w_db w') = db_deliveries (w_db w).

Lemma list_claimable_same t w r w' : list_claimable t w = (r, w') → same_deliveries w w' ∧ w_calls w' = w_calls w.
Proof.
  unfold list_claimable. intros Hrun. apply wrap_err_cases in Hrun as [(a & _ & Hrun)|(e & _ & Hrun)];
    unfold sql_read, sql in Hrun; destruct (env_db_fault _); by injection Hrun as _ <-.
Qed.

Lemma claim_delivery_run id due w r w' :
  claim_delivery id due w = (r, w') →
  w_calls w' = w_calls w ∧
  match r with
  | Ok true => waiting (w_db w) id due ∧ ∃ x t, db_deliveries (w_db w) !! id = Some x ∧
      db_deliveries (w_db w') = <[id := x <| hd_Status := HookDeliveryStatusRunning |> <| hd_UpdatedAt := t |>]> (db_deliveries (w_db w))
  | _ => same_deliveries w w'
  end.
Proof.
  unfold claim_delivery. intros Hrun. apply bind_inv in Hrun as (t & w1 & Ht & Hrun). injection Ht as <- <-.
  unfold bind_ok in Hrun. apply bind_inv in Hrun as (c & w2 & Hc & Hrun).
  apply wrap_err_cases in Hc as [(n & -> & Hc)|(e & -> & Hc)]; unfold sql in Hc; simpl in Hc;
    destruct (env_db_fault _); [done| |by injection Hc as _ <-; injection Hrun as <- <-|].
  2: { unfold claim_delivery_row in Hc. destruct (update_row _ _ _ _). simpl in Hc. done. }
  unfold claim_delivery_row in Hc. destruct (update_row _ _ _ _) as [m tbl] eqn:Hrow. injection Hc as <- <-.
  injection Hrun as <- <-. split; [done|].
  apply update_row_spec in Hrow as [(x & Hx & Hp & -> & ->) | (_ & -> & ->)]; simpl; [|done].
  apply andb_true_iff in Hp as [Hp%String.eqb_eq Hdue]. split; [by exists x|]. by eexists x, _.
Qed.

Lemma GetHookDelivery_run id w r w' :
  GetHookDelivery id w = (r, w') → same_deliveries w w' ∧ w_calls w' = w_calls w ∧
  match r with Ok x => db_deliveries (w_db w) !! id = Some x | Err _ => True end.
Proof.
  unfold GetHookDelivery, sql_read, sql. destruct (env_db_fault _); [by intros [= <- <-]|].
  destruct (db_deliveries (w_db w) !! id) as [x|]; by intros [= <- <-].
Qed.

Lemma attempt_delivery_run decode x w r w' :
  attempt_delivery decode x w = (r, w') → same_deliveries w w' ∧
  match r with
  | Ok y => outcome x y ∧ (w_calls w' = w_calls w ∨
      hd_Attempts y = add64 (hd_Attempts x) 1 ∧ ∃ c, w_calls w' = c :: w_calls w)
  | Err _ => w_calls w' = w_calls w
  end.
Proof.
  unfold attempt_delivery. destruct (negb _); [by intros [= <- <-]|]. cbv zeta. intros Hrun.
  apply bind_inv in Hrun as (found & w1 & Hf & Hrun).
  assert (same_deliveries w w1 ∧ w_calls w1 = w_calls w) as [D1 C1].
  { unfold GetHook, sql_read, sql in Hf. destruct (env_db_fault _); [by injection Hf as _ <-|].
    destruct (db_hooks (w_db w) !! hd_HookID x); by injection Hf as _ <-. }
  assert (∀ y, outcome x y → ret_ok y w1 = (r, w') → same_deliveries w w' ∧
    match r with
    | Ok y => outcome x y ∧ (w_calls w' = w_calls w ∨ hd_Attempts y = add64 (hd_Attempts x) 1 ∧ ∃ c, w_calls w' = c :: w_calls w)
    | Err _ => w_calls w' = w_calls w
    end) as Hno.
  { intros y Hy [= <- <-]. split_and!; [done|done|by left]. }
  destruct found as [hook|e]; [|apply (Hno _ ltac:(right; by eexists) Hrun)].
  destruct (negb (h_Enabled hook) || _); [apply (Hno _ ltac:(right; by eexists) Hrun)|]. clear Hno.
  apply bind_inv in Hrun as ([code err] & w2 & Hs & Hrun). apply bind_inv in Hrun as (t & w3 & Ht & Hrun).
  injection Ht as <- <-. injection Hrun as <- <-. unfold same_deliveries in *. simpl.
  assert (hd_Attempts (after_attempt x code err (env_now (w_clock w2))) = add64 (hd_Attempts x) 1) as Ha.
  { unfold after_attempt. cbv zeta. repeat (case_match; rsimpl); done. }
  assert (outcome x (after_attempt x code err (env_now (w_clock w2)))) as Ho by (left; by eexists _, _, _).
  unfold deliverHTTPHook in Hs. destruct (decryptHookHeaders decode hook) as [headers|e].
  - apply bind_inv in Hs as (a & w4 & Hr & Hs). injection Hr as _ <-. injection Hs as _ <-. simpl.
    split; [done|]. split; [done|]. right. rewrite C1. split; [done|]. by eexists.
  - injection Hs as _ _ <-. split; [done|]. split; [done|]. by left.
Qed.

Lemma UpdateHookDelivery_run y w r w' :
  UpdateHookDelivery y w = (r, w') → w_calls w' = w_calls w ∧ (same_deliveries w w' ∨ written y (w_db w) (w_db w')).
Proof.
  unfold UpdateHookDelivery. intros Hrun. apply bind_inv in Hrun as (t & w1 & Ht & Hrun). injection Ht as <- <-.
  apply wrap_err_cases in Hrun as [(a & _ & Hrun)|(e & _ & Hrun)]; unfold sql_write, sql in Hrun; simpl in Hrun;
    destruct (env_db_fault _); injection Hrun as _ <-; split; try done; try by left.
  all: right; intros x Hx; simpl; unfold update_row; rewrite Hx; by eexists.
Qed.
End effects.

(** ** The workshop

    The database and the outside world, the workers of all instances, and, for
    one delivery that is watched, how often it was posted and how often it was
    recovered. *)
Record Shop := MkShop { shop_world : World; shop_workers : list worker; shop_posts : nat; shop_recoveries : nat }.

Section shop.
Context `{Env}.
Variable decode_headers : string → result (gmap string string).
Variable watched : string.

(** The calls a worker makes for the watched delivery. *)
Definition posts (wk : worker) (w w' : World) : nat :=
  match wk with
  | Holding x => if (hd_ID x =? watched)%string then List.length (w_calls w') - List.length (w_calls w) else 0
  | _ => 0
  end.

Definition is_running (d : DB) (id : string) : bool :=
  match db_deliveries d !! id with Some x => (hd_Status x =? HookDeliveryStatusRunning)%string | None => false end.

(** Any worker takes its next step; a worker dies, at whatever point; it renews
    a delivery it is on; deliveries whose worker was not heard of are
    recovered; events are queued; the rest of the service goes on. A recovery
    leaves the deliveries alone that a live worker is on, which is what the
    renewals are for. *)
Inductive step : Shop → Shop → Prop :=
| step_work i wk wk' w w' ws p r :
    ws !! i = Some wk → work decode_headers wk w = (wk', w') →
    step (MkShop w ws p r) (MkShop w' (<[i := wk']> ws) (p + posts wk w w') r)
| step_die i w ws p r :
    step (MkShop w ws p r) (MkShop w (<[i := Idle]> ws) p r)
| step_renew id w ws p r :
    step (MkShop w ws p r) (MkShop (TouchHookDelivery id w).2 ws p r)
| step_recover cutoff w w' n ws p r :
    RecoverStaleHookDeliveries cutoff w = (n, w') →
    (∀ wk id, wk ∈ ws → on wk = Some id → is_running (w_db w') id = true) →
    step (MkShop w ws p r)
         (MkShop w' ws p (r + (if is_running (w_db w) watched && negb (is_running (w_db w') watched) then 1 else 0)))
| step_queue event obj w ws p r :
    step (MkShop w ws p r) (MkShop (dispatchObjectHook event obj w).2 ws p r)
| step_elsewhere w w' ws p r :
    same_deliveries w w' → step (MkShop w ws p r) (MkShop w' ws p r).

(** What a worker holds is what the row says. *)
Definition carries (wk : worker) (x : HookDelivery) : Prop :=
  match wk with
  | Holding y => view y = view x
  | Reporting y => ∃ z, view z = view x ∧ outcome z y
  | _ => True
  end.

(** Every delivery a worker is on is running, and the worker is the only one. *)
Definition orderly (d : DB) (ws : list worker) : Prop :=
  keyed d ∧
  (∀ i wk id, ws !! i = Some wk → on wk = Some id →
     ∃ x, db_deliveries d !! id = Some x ∧ hd_Status x = HookDeliveryStatusRunning ∧ carries wk x) ∧
  (∀ i j wi wj id, ws !! i = Some wi → ws !! j = Some wj → on wi = Some id → on wj = Some id → i = j).

Lemma view_carries wk x x' : view x' = view x → carries wk x → carries wk x'.
Proof. intros Hv. unfold carries. destruct wk; try done; rewrite Hv; done. Qed.

(** The rows the workers are on keep their views. *)
Definition leaves (ws : list worker) (d d' : DB) : Prop :=
  keyed d' ∧ ∀ wk id, wk ∈ ws → on wk = Some id → view <$> db_deliveries d' !! id = view <$> db_deliveries d !! id.

Lemma orderly_leaves ws d d' : orderly d ws → leaves ws d d' → orderly d' ws.
Proof.
  intros (Hk & Hon & Hex) (Hk' & Hv). split; [done|]. split; [|done]. intros i wk id Hi Hid.
  destruct (Hon _ _ _ Hi Hid) as (x & Hx & Hs & Hc). specialize (Hv wk id (list_elem_of_lookup_2 _ _ _ Hi) Hid).
  rewrite Hx in Hv. simpl in Hv. destruct (db_deliveries d' !! id) as [x'|]; [|done]. injection Hv as H1 H2 H3 H4 H5 H6.
  exists x'. assert (view x' = view x) as Hvx by (unfold view; congruence). split_and!; [done|congruence|by eapply view_carries].
Qed.

Lemma leaves_same ws d d' : keyed d → db_deliveries d' = db_deliveries d → leaves ws d d'.
Proof. intros Hk E. unfold leaves, keyed. rewrite E. by split. Qed.

(** A worker that goes on with what it is on, or to something nobody is on. *)
Lemma orderly_insert ws d i wk wk' :
  orderly d ws → ws !! i = Some wk →
  (∀ id, on wk' = Some id →
     (on wk = Some id ∨ ∀ j wj, ws !! j = Some wj → on wj ≠ Some id) ∧
     ∃ x, db_deliveries d !! id = Some x ∧ hd_Status x = HookDeliveryStatusRunning ∧ carries wk' x) →
  orderly d (<[i := wk']> ws).
Proof.
  intros (Hk & Hon & Hex) Hi Hnew. split; [done|]. assert (i < List.length ws)%nat as Hlen by by eapply lookup_lt_Some.
  assert (∀ j w, <[i := wk']> ws !! j = Some w → (j = i ∧ w = wk') ∨ (j ≠ i ∧ ws !! j = Some w)) as Hins.
  { intros j w Hj. destruct (decide (j = i)) as [->|Hne]; [rewrite list_lookup_insert_eq in Hj by done|rewrite list_lookup_insert_ne in Hj by done];
      naive_solver. }
  split.
  - intros j w id Hj Hid. apply Hins in Hj as [[-> ->]|[_ Hj]]; [by apply Hnew|by eapply Hon].
  - intros j k wj wk0 id Hj Hk0 Hoj Hok. apply Hins in Hj as [[-> ->]|[Hnj Hj]], Hk0 as [[-> ->]|[Hnk Hk0]]; [done|..|by eapply Hex].
    + destruct (Hnew _ Hoj) as [[Ho|Ho] _]; [by eapply Hex|by destruct (Ho _ _ Hk0)].
    + destruct (Hnew _ Hok) as [[Ho|Ho] _]; [by eapply Hex|by destruct (Ho _ _ Hj)].
Qed.

Lemma orderly_idle ws d i : orderly d ws → orderly d (<[i := Idle]> ws).
Proof.
  intros Hok. destruct (ws !! i) as [wk|] eqn:Hi.
  - by eapply orderly_insert.
  - by rewrite list_insert_ge by (by apply lookup_ge_None).
Qed.

(** *** Every step keeps the order *)

(** Deliveries are only added. *)
Definition queued (d d' : DB) : Prop :=
  ∀ k, db_deliveries d' !! k = db_deliveries d !! k ∨
       (db_deliveries d !! k = None ∧ ∃ x, db_deliveries d' !! k = Some x ∧ hd_ID x = k).

#[local] Instance queued_preorder : PreOrder queued.
Proof.
  split; [intros d k; by left|]. intros d1 d2 d3 H12 H23 k.
  destruct (H12 k) as [E1|(N1 & x & Hx & Hid)], (H23 k) as [E2|(N2 & y & Hy & Hid')].
  - left. congruence.
  - right. split; [congruence|]. by exists y.
  - right. split; [done|]. exists x. split; [congruence|done].
  - congruence.
Qed.

Lemma create_delivery_queued x d d' : create_delivery_row x d = Ok d' → queued d d'.
Proof.
  unfold create_delivery_row. destruct (db_hooks d !! hd_HookID x); [|done].
  destruct (db_deliveries d !! hd_ID x) eqn:Hnone; [done|]. intros [= <-] k. simpl.
  destruct (decide (k = hd_ID x)) as [->|Hne]; [right; split; [done|]; exists x; by rewrite lookup_insert_eq|].
  left. by rewrite lookup_insert_ne.
Qed.

Lemma CreateHookDelivery_queued x : pres (on_db queued) (CreateHookDelivery x).
Proof.
  unfold CreateHookDelivery. apply pres_bind; [apply _|pres_auto|]. intros t. cbv zeta. apply pres_wrap_err; [apply _|].
  apply pres_sql_write; [apply _|]. intros d d'. apply create_delivery_queued.
Qed.

Lemma dispatchObjectHook_queued event obj : pres (on_db queued) (dispatchObjectHook event obj).
Proof. unfold dispatchObjectHook, hook_delivery. pres_auto; apply CreateHookDelivery_queued. Qed.

Lemma queued_leaves ws d d' : orderly d ws → queued d d' → leaves ws d d'.
Proof.
  intros (Hk & Hon & _) Hq. split.
  - intros k x Hx. destruct (Hq k) as [E|(_ & y & Hy & Hid)]; [apply Hk; congruence|congruence].
  - intros wk id Hin Hid. apply list_elem_of_lookup_1 in Hin as [i Hi].
    destruct (Hon _ _ _ Hi Hid) as (x & Hx & _). destruct (Hq id) as [->|[? _]]; [done|congruence].
Qed.

(** One row changes, that nobody is on or that keeps its view. *)
Lemma insert_leaves ws d d' k x x' :
  keyed d → db_deliveries d !! k = Some x → db_deliveries d' = <[k := x']> (db_deliveries d) → hd_ID x' = hd_ID x →
  (view x' = view x ∨ ∀ wk, wk ∈ ws → on wk ≠ Some k) → leaves ws d d'.
Proof.
  intros Hk Hx HD Hid Hor. unfold leaves, keyed. rewrite HD. split.
  - intros j y. destruct (decide (j = k)) as [->|Hne]; [rewrite lookup_insert_eq|rewrite lookup_insert_ne by done; apply Hk].
    intros [= <-]. rewrite Hid. by apply Hk.
  - intros wk id Hin Ho. destruct (decide (id = k)) as [->|Hne]; [|by rewrite lookup_insert_ne].
    rewrite lookup_insert_eq, Hx. destruct Hor as [Hv|Hno]; [cbn; by rewrite Hv|by destruct (Hno _ Hin)].
Qed.

Lemma touch_leaves id ws w : keyed (w_db w) → leaves ws (w_db w) (w_db (TouchHookDelivery id w).2).
Proof.
  intros Hk. destruct (TouchHookDelivery id w) as [r w'] eqn:Hrun. simpl. unfold TouchHookDelivery in Hrun.
  apply bind_inv in Hrun as (t & w1 & Ht & Hrun). injection Ht as <- <-. unfold bind_ok in Hrun.
  apply bind_inv in Hrun as (c & w2 & Hc & Hrun).
  assert (w_db w' = w_db w2) as -> by (destruct c; [destruct (negb _)|]; by injection Hrun as _ <-).
  apply wrap_err_cases in Hc as [(n & -> & Hc)|(e & -> & Hc)]; unfold sql in Hc; simpl in Hc;
    destruct (env_db_fault _); [done| |injection Hc as _ <-; by apply leaves_same|];
    destruct (update_row _ _ _ _) as [m tbl] eqn:Hrow; [|done].
  injection Hc as _ <-. apply update_row_spec in Hrow as [(x & Hx & _ & _ & ->) | (_ & _ & ->)]; [|by apply leaves_same].
  eapply insert_leaves; [done|exact Hx|reflexivity|done|by left].
Qed.

(** A recovery queues rows again that were running, and keeps their attempts. *)
Lemma recover_rows cutoff w n w' k :
  RecoverStaleHookDeliveries cutoff w = (n, w') →
  db_deliveries (w_db w') !! k = db_deliveries (w_db w) !! k ∨
  ∃ x err t, db_deliveries (w_db w) !! k = Some x ∧ hd_Status x = HookDeliveryStatusRunning ∧
    db_deliveries (w_db w') !! k = Some (x <| hd_Status := HookDeliveryStatusPending |> <| hd_LastError := err |> <| hd_UpdatedAt := t |>).
Proof.
  unfold RecoverStaleHookDeliveries. intros Hrun. apply bind_inv in Hrun as (t & w1 & Ht & Hrun). injection Ht as <- <-.
  apply wrap_err_cases in Hrun as [(m & -> & Hc)|(e & -> & Hc)]; unfold sql in Hc; simpl in Hc;
    destruct (env_db_fault _); try done; injection Hc as _ <-; [|by left].
  simpl. unfold update_where. rewrite lookup_fmap. destruct (db_deliveries (w_db w) !! k) as [x|] eqn:Hx; [|by left]. simpl.
  destruct (_ && _) eqn:Hst; [right|by left]. apply andb_true_iff in Hst as [Hst%String.eqb_eq _]. by eexists x, _, _.
Qed.

Lemma recover_leaves cutoff ws w n w' :
  RecoverStaleHookDeliveries cutoff w = (n, w') → keyed (w_db w) →
  (∀ wk id, wk ∈ ws → on wk = Some id → is_running (w_db w') id = true) → leaves ws (w_db w) (w_db w').
Proof.
  intros Hrun Hk Hlive. split.
  - intros k x Hx. destruct (recover_rows _ _ _ _ k Hrun) as [E|(y & err & t & Hy & _ & Hy')]; [apply Hk; congruence|].
    rewrite Hy' in Hx. injection Hx as <-. apply (Hk _ _ Hy).
  - intros wk id Hin Ho. destruct (recover_rows _ _ _ _ id Hrun) as [->|(y & err & t & Hy & _ & Hy')]; [done|].
    specialize (Hlive wk id Hin Ho). unfold is_running in Hlive. by rewrite Hy' in Hlive.
Qed.

(** A worker whose delivery is written back is the only one that was on it. *)
Lemma written_leaves ws d d' i y :
  orderly d ws → ws !! i = Some (Reporting y) → written y d d' → leaves (<[i := Idle]> ws) d d'.
Proof.
  intros Ho Hi Hw. pose proof (orderly_idle ws d i Ho) as Ho'. destruct Ho as (Hk & Hon & Hex).
  destruct (Hon _ _ _ Hi eq_refl) as (x & Hx & _ & z & Hz & Hy). destruct (Hw _ Hx) as (x' & HD & Hv).
  injection Hv as Hid _ _ _ _ _. eapply insert_leaves; [done|exact Hx|exact HD|done|]. right.
  intros wk Hin Ho. apply list_elem_of_lookup_1 in Hin as [j Hj].
  destruct (decide (j = i)) as [->|Hne].
  - rewrite list_lookup_insert_eq in Hj by (by eapply lookup_lt_Some). by injection Hj as <-.
  - rewrite list_lookup_insert_ne in Hj by done. by pose proof (Hex _ _ _ _ _ Hj Hi Ho eq_refl).
Qed.

Lemma outcome_id x y : outcome x y → hd_ID y = hd_ID x.
Proof.
  intros [(code & err & t & ->)|(err & ->)]; [|done]. unfold after_attempt. cbv zeta. by repeat (case_match; rsimpl).
Qed.

Lemma work_orderly ws i wk wk' w w' :
  orderly (w_db w) ws → ws !! i = Some wk → work decode_headers wk w = (wk', w') →
  orderly (w_db w') (<[i := wk']> ws).
Proof.
  intros Ho Hi Hrun. pose proof Ho as (Hk & Hon & _).
  assert (∀ w1, same_deliveries w w1 → orderly (w_db w1) ws) as Hsame.
  { intros w1 Hs. by eapply orderly_leaves, leaves_same. }
  destruct wk as [|due ids|id|x|y]; cbn [work] in Hrun.
  - run_inv Hrun as t w1 Ht. injection Ht as <- <-. run_inv Hrun as r w2 Hl. apply list_claimable_same in Hl as [Hs _].
    injection Hrun as <- <-. eapply orderly_insert; [by apply Hsame|done|]. by destruct r.
  - destruct ids as [|id ids]; [injection Hrun as <- <-; by apply orderly_idle|].
    run_inv Hrun as r w1 Hc. injection Hrun as <- <-. apply claim_delivery_run in Hc as [_ Hc].
    destruct r as [[|]|e]; [|eapply orderly_insert; [by apply Hsame|done|done]..].
    destruct Hc as [(x & Hx & Hp & _) (x0 & t & Hx0 & HD)]. rewrite Hx in Hx0. injection Hx0 as <-.
    assert (∀ j wj, ws !! j = Some wj → on wj ≠ Some id) as Hfree.
    { intros j wj Hj Hoj. destruct (Hon _ _ _ Hj Hoj) as (z & Hz & Hr & _). rewrite Hx in Hz. injection Hz as <-. by rewrite Hp in Hr. }
    eapply orderly_insert; [|done|].
    + eapply orderly_leaves; [done|]. eapply insert_leaves; [done|exact Hx|exact HD|done|]. right.
      intros wk Hin Hoj. apply list_elem_of_lookup_1 in Hin as [j Hj]. by apply (Hfree _ _ Hj).
    + intros k [= <-]. split; [by right|]. rewrite HD, lookup_insert_eq. by eexists.
  - run_inv Hrun as r w1 Hg. injection Hrun as <- <-. apply GetHookDelivery_run in Hg as (Hs & _ & Hx).
    eapply orderly_insert; [by apply Hsame|done|]. destruct r as [x|e]; [|done]. intros k [= <-].
    rewrite (Hk _ _ Hx). destruct (Hon _ _ _ Hi eq_refl) as (x' & Hx' & Hr & _). rewrite Hx in Hx'. injection Hx' as <-.
    split; [by left|]. exists x. unfold same_deliveries in Hs. by rewrite Hs.
  - run_inv Hrun as r w1 Ha. injection Hrun as <- <-. apply attempt_delivery_run in Ha as [Hs Ha].
    eapply orderly_insert; [by apply Hsame|done|]. destruct r as [y|e]; [|done]. intros k [= <-]. destruct Ha as [Hy _].
    rewrite (outcome_id _ _ Hy). split; [by left|]. destruct (Hon _ _ _ Hi eq_refl) as (x' & Hx' & Hr & Hv).
    exists x'. unfold same_deliveries in Hs. rewrite Hs. split_and!; [done|done|]. by exists x.
  - run_inv Hrun as r w1 Hu. injection Hrun as <- <-. unfold ignore in Hu. apply bind_inv in Hu as (u & w2 & Hu & E).
    injection E as _ <-. apply UpdateHookDelivery_run in Hu as [_ [Hs|Hw]].
    + by apply orderly_idle, Hsame.
    + eapply orderly_leaves; [by apply orderly_idle|]. by eapply written_leaves.
Qed.

Lemma step_orderly s s' :
  step s s' → orderly (w_db (shop_world s)) (shop_workers s) → orderly (w_db (shop_world s')) (shop_workers s').
Proof.
  intros Hstep. destruct Hstep; simpl; intros Ho.
  - by eapply work_orderly.
  - by apply orderly_idle.
  - eapply orderly_leaves; [done|]. apply touch_leaves, Ho.
  - eapply orderly_leaves; [done|]. eapply recover_leaves; [done|apply Ho|done].
  - eapply orderly_leaves; [done|]. apply queued_leaves; [done|]. apply (dispatchObjectHook_queued event obj w).
  - eapply orderly_leaves; [done|]. apply leaves_same; [apply Ho|done].
Qed.

Lemma steps_orderly s s' :
  rtc step s s' → orderly (w_db (shop_world s)) (shop_workers s) → orderly (w_db (shop_world s')) (shop_workers s').
Proof. induction 1; [done|]. intros. by apply IHrtc, (step_orderly x). Qed.

(** Before anybody is at work. *)
Lemma orderly_start d ws : keyed d → Forall (λ wk, on wk = None) ws → orderly d ws.
Proof.
  intros Hk Hws. rewrite Forall_lookup in Hws. split; [done|].
  split; [intros i wk id Hi Hid|intros i j wi wj id Hi _ Hid _]; by rewrite (Hws _ _ Hi) in Hid.
Qed.
(** *** Every step keeps the budget *)

Definition known_status (s : string) : Prop :=
  s = HookDeliveryStatusPending ∨ s = HookDeliveryStatusRunning ∨ s = HookDeliveryStatusSucceeded
  ∨ s = HookDeliveryStatusFailed.

(** [max] is what the delivery was queued with. *)
Definition delivery_ok (max : Z) (x : HookDelivery) : Prop :=
  hd_MaxAttempts x = max ∧ 0 ≤ hd_Attempts x ≤ max ∧
  (hd_Status x = HookDeliveryStatusPending ∨ hd_Status x = HookDeliveryStatusRunning → hd_Attempts x < max) ∧
  (hd_Status x = HookDeliveryStatusSucceeded → hd_LastError x = "" ∧ 200 ≤ hd_LastStatusCode x < 300) ∧
  known_status (hd_Status x).

Ltac delivery_solve :=
  split_and!; try done; try lia; unfold known_status; try tauto; try (intros [?|?]; done).

(** What an attempt leaves, written over a row that says what the worker held. *)
Lemma outcome_ok max x y z z' :
  max < int64_max → delivery_ok max x → hd_Status x = HookDeliveryStatusRunning → view z = view x → outcome z y →
  view z' = (hd_ID x, hd_Status y, hd_Attempts y, hd_MaxAttempts x, hd_LastStatusCode y, hd_LastError y) →
  delivery_ok max z' ∧ hd_Status z' ≠ HookDeliveryStatusRunning ∧ hd_Attempts z' = hd_Attempts y ∧
  hd_Attempts x ≤ hd_Attempts y.
Proof.
  intros Hmax (Hm & Ha & Hlive & Hsucc & Hst) Hs Hz Hy Hz'. injection Hz as _ Zs Za Zm _ _. injection Hz' as _ Es Ea Em Ec Ee.
  assert (hd_Attempts x < max) as Hlt by tauto.
  assert (add64 (hd_Attempts x) 1 = hd_Attempts x + 1) as Hadd by (apply wrap64_id; unfold in_int64, int64_min; lia).
  unfold delivery_ok. rewrite Em, Es, Ea, Ee, Ec. destruct Hy as [(code & err & t & ->)|(err & ->)].
  - unfold after_attempt. cbv zeta. destruct (_ && _ && _) eqn:Hok; rsimpl; rewrite ?Za, ?Hadd, ?Zm, ?Hm.
    + rewrite !andb_true_iff, String.eqb_eq, Z.leb_le, Z.ltb_lt in Hok. delivery_solve.
    + destruct (Z.leb_spec max (hd_Attempts x + 1)); rsimpl; rewrite ?Za, ?Hadd, ?Hm; delivery_solve.
  - rsimpl. rewrite Za. delivery_solve.
Qed.

Lemma delivery_ok_view max x x' : view x' = view x → delivery_ok max x → delivery_ok max x'.
Proof. intros Hv. injection Hv as _ H1 H2 H3 H4 H5. unfold delivery_ok. by rewrite H1, H2, H3, H4, H5. Qed.

(** The attempts that will be on record when the worker is through. *)
Definition charged (wk : worker) (x : HookDelivery) : Z :=
  match wk with Reporting y => hd_Attempts y | _ => hd_Attempts x end.

(** The posts of the watched delivery are on record, but for one whose worker
    did not come to write it down, and those the recoveries stand for. *)
Definition budget (max : Z) (d : DB) (ws : list worker) (p r : nat) : Prop :=
  ∃ x, db_deliveries d !! watched = Some x ∧ delivery_ok max x ∧
    Z.of_nat p ≤ hd_Attempts x + Z.of_nat r + 1 ∧
    (hd_Status x ≠ HookDeliveryStatusRunning → Z.of_nat p ≤ hd_Attempts x + Z.of_nat r) ∧
    (∀ wk, wk ∈ ws → on wk = Some watched → Z.of_nat p ≤ charged wk x + Z.of_nat r).

(** The row keeps its view, and new workers on it are accounted for. *)
Lemma budget_frame max d d' ws ws' p r :
  view <$> db_deliveries d' !! watched = view <$> db_deliveries d !! watched →
  (∀ wk, wk ∈ ws' → on wk = Some watched →
     wk ∈ ws ∨ ∃ wk0, wk0 ∈ ws ∧ on wk0 = Some watched ∧ ∀ x, charged wk x = hd_Attempts x ∧ charged wk0 x = hd_Attempts x) →
  budget max d ws p r → budget max d' ws' p r.
Proof.
  intros Hv Hws (x & Hx & Hok & H1 & H2 & H3). rewrite Hx in Hv. simpl in Hv.
  destruct (db_deliveries d' !! watched) as [x'|] eqn:Hx'; [|done]. simpl in Hv. assert (view x' = view x) as E by congruence.
  exists x'. split; [done|]. split; [by eapply delivery_ok_view|]. injection E as _ Es Ea _ _ _. rewrite Es, Ea. split_and!; [done|done|].
  assert (∀ wk, charged wk x' = charged wk x) as Hc by (intros []; simpl; congruence).
  intros wk Hin Ho. rewrite Hc. destruct (Hws wk Hin Ho) as [Hin'|(wk0 & Hin' & Ho' & Hch)]; [by apply H3|].
  destruct (Hch x) as [-> E0]. rewrite <- E0. by apply H3.
Qed.

Lemma in_insert {A} (l : list A) i x y : y ∈ <[i := x]> l → y = x ∨ y ∈ l.
Proof.
  intros [j Hj]%list_elem_of_lookup_1. destruct (decide (j = i)) as [->|Hne].
  - rewrite list_lookup_insert_eq in Hj; [left; congruence|]. apply lookup_lt_Some in Hj. by rewrite length_insert in Hj.
  - rewrite list_lookup_insert_ne in Hj by done. right. by eapply list_elem_of_lookup_2.
Qed.

Lemma budget_insert max d d' ws i wk' p r :
  view <$> db_deliveries d' !! watched = view <$> db_deliveries d !! watched →
  on wk' ≠ Some watched → budget max d ws p r → budget max d' (<[i := wk']> ws) p r.
Proof.
  intros Hv Hno. apply budget_frame; [done|]. intros wk Hin Ho. left.
  apply in_insert in Hin as [->|Hin]; [by rewrite Ho in Hno|done].
Qed.

(** The worker that gets the watched delivery. *)
Lemma budget_claimed max d d' ws i x t p r :
  orderly d ws → budget max d ws p r → db_deliveries d !! watched = Some x → hd_Status x = HookDeliveryStatusPending →
  db_deliveries d' = <[watched := x <| hd_Status := HookDeliveryStatusRunning |> <| hd_UpdatedAt := t |>]> (db_deliveries d) →
  budget max d' (<[i := Taken watched]> ws) p r.
Proof.
  intros (_ & Hon & _) (x0 & Hx0 & Hok & _ & Hidle & _) Hx Hp HD. rewrite Hx in Hx0. injection Hx0 as <-.
  destruct Hok as (Hm & Ha & Hlive & _ & _). specialize (Hidle ltac:(by rewrite Hp)).
  unfold budget. rewrite HD, lookup_insert_eq. eexists. split; [done|]. unfold delivery_ok. rsimpl. delivery_solve.
  intros wk [->|Hin]%in_insert Ho; [done|]. apply list_elem_of_lookup_1 in Hin as [j Hj].
  destruct (Hon _ _ _ Hj Ho) as (z & Hz & Hr & _). rewrite Hx in Hz. injection Hz as <-. by rewrite Hp in Hr.
Qed.

(** The worker that posted it. *)
Lemma budget_posted max d d' ws i x y p r n :
  max < int64_max → orderly d ws → ws !! i = Some (Holding x) → hd_ID x = watched → db_deliveries d' = db_deliveries d →
  outcome x y → (n = 0%nat ∨ n = 1%nat ∧ hd_Attempts y = add64 (hd_Attempts x) 1) →
  budget max d ws p r → budget max d' (<[i := Reporting y]> ws) (p + n) r.
Proof.
  intros Hmax (_ & Hon & Hex) Hi Hid HD Hy Hn (z & Hz & Hok & _ & _ & Hch).
  pose proof (Hch _ (list_elem_of_lookup_2 _ _ _ Hi) ltac:(simpl; congruence)) as Hp. simpl in Hp.
  destruct (Hon _ _ _ Hi eq_refl) as (z0 & Hz0 & Hr & Hv). rewrite Hid, Hz in Hz0. injection Hz0 as <-. simpl in Hv.
  destruct (outcome_ok max z y x (z <| hd_Status := hd_Status y |> <| hd_Attempts := hd_Attempts y |>
              <| hd_LastStatusCode := hd_LastStatusCode y |> <| hd_LastError := hd_LastError y |>)) as (_ & _ & _ & Hle); try done.
  assert (Z.of_nat (p + n) ≤ hd_Attempts y + Z.of_nat r ∧ Z.of_nat n ≤ 1) as [Hpn Hn1].
  { injection Hv as _ _ Ha _ _ _. destruct Hok as (_ & Hb & Hlive & _). destruct Hn as [->|[-> E]]; [lia|].
    rewrite E, Ha. unfold add64. rewrite wrap64_id; [lia|]. unfold in_int64, int64_min. specialize (Hlive ltac:(by right)). lia. }
  exists z. rewrite HD. split_and!; [done|done|lia|by intros ?|].
  intros wk Hin Ho. apply list_elem_of_lookup_1 in Hin as [j Hj]. destruct (decide (j = i)) as [->|Hne].
  - rewrite list_lookup_insert_eq in Hj by (by eapply lookup_lt_Some). by injection Hj as <-.
  - rewrite list_lookup_insert_ne in Hj by done. exfalso. apply Hne. eapply Hex; [exact Hj|exact Hi|exact Ho|simpl; congruence].
Qed.

(** The worker that wrote it down. *)
Lemma budget_written max d d' ws i y p r :
  max < int64_max → orderly d ws → ws !! i = Some (Reporting y) → hd_ID y = watched → written y d d' →
  budget max d ws p r → budget max d' (<[i := Idle]> ws) p r.
Proof.
  intros Hmax (_ & Hon & Hex) Hi Hid Hw (x & Hx & Hok & _ & _ & Hch).
  pose proof (Hch _ (list_elem_of_lookup_2 _ _ _ Hi) ltac:(simpl; congruence)) as Hp. simpl in Hp.
  destruct (Hon _ _ _ Hi eq_refl) as (x0 & Hx0 & Hr & z & Hz & Hy). rewrite Hid, Hx in Hx0. injection Hx0 as <-.
  destruct (Hw x ltac:(congruence)) as (x' & HD & Hv).
  destruct (outcome_ok _ _ _ _ _ Hmax Hok Hr Hz Hy Hv) as (Hok' & Hnr & Ha & _).
  exists x'. rewrite HD, Hid, lookup_insert_eq, Ha. split_and!; [done|done|lia|done|].
  intros wk Hin Ho. apply list_elem_of_lookup_1 in Hin as [j Hj]. destruct (decide (j = i)) as [->|Hne].
  - rewrite list_lookup_insert_eq in Hj by (by eapply lookup_lt_Some). by injection Hj as <-.
  - rewrite list_lookup_insert_ne in Hj by done. exfalso. apply Hne. eapply Hex; [exact Hj|exact Hi|exact Ho|simpl; congruence].
Qed.

Lemma same_view d d' : db_deliveries d' = db_deliveries d → view <$> db_deliveries d' !! watched = view <$> db_deliveries d !! watched.
Proof. by intros ->. Qed.

Lemma work_budget max ws i wk wk' w w' p r :
  max < int64_max → orderly (w_db w) ws → ws !! i = Some wk → work decode_headers wk w = (wk', w') →
  budget max (w_db w) ws p r → budget max (w_db w') (<[i := wk']> ws) (p + posts wk w w') r.
Proof.
  intros Hmax Ho Hi Hrun Hb. destruct wk as [|due ids|id|x|y]; cbn [work] in Hrun; cbn [posts]; rewrite ?Nat.add_0_r.
  - run_inv Hrun as t w1 Ht. injection Ht as <- <-. run_inv Hrun as l w2 Hl. apply list_claimable_same in Hl as [Hs _].
    injection Hrun as <- <-. eapply budget_insert; [by apply same_view| |done]. by destruct l.
  - destruct ids as [|id ids]; [injection Hrun as <- <-; by eapply budget_insert|].
    run_inv Hrun as c w1 Hc. injection Hrun as <- <-. apply claim_delivery_run in Hc as [_ Hc].
    destruct c as [[|]|e]; [|by eapply budget_insert; [apply same_view|..]..].
    destruct Hc as [(x & Hx & Hp & _) (x0 & t & Hx0 & HD)]. rewrite Hx in Hx0. injection Hx0 as <-.
    destruct (decide (id = watched)) as [->|Hne]; [by eapply budget_claimed|].
    eapply budget_insert; [|simpl; congruence|done]. by rewrite HD, lookup_insert_ne.
  - run_inv Hrun as g w1 Hg. injection Hrun as <- <-. apply GetHookDelivery_run in Hg as (Hs & _ & Hx).
    destruct g as [x|e]; [|by eapply budget_insert; [apply same_view|..]].
    eapply budget_frame; [by apply same_view| |done]. intros wk [->|Hin]%in_insert Hon; [|by left]. right.
    exists (Taken id). split_and!; [by eapply list_elem_of_lookup_2| |done].
    simpl in *. destruct Ho as [Hk _]. rewrite (Hk _ _ Hx) in Hon. done.
  - run_inv Hrun as a w1 Ha. injection Hrun as <- <-. apply attempt_delivery_run in Ha as [Hs Ha].
    destruct (String.eqb_spec (hd_ID x) watched) as [Hid|Hid].
    + destruct a as [y|e].
      * destruct Ha as [Hy Hcalls]. eapply budget_posted; try done.
        destruct Hcalls as [->|(E & c & ->)]; [left|right; split; [|done]]; simpl; lia.
      * rewrite Ha, Nat.sub_diag, Nat.add_0_r. by eapply budget_insert; [apply same_view|..].
    + rewrite Nat.add_0_r. destruct a as [y|e]; [|by eapply budget_insert; [apply same_view|..]].
      eapply budget_insert; [by apply same_view| |done]. simpl. destruct Ha as [Hy _]. rewrite (outcome_id _ _ Hy). congruence.
  - run_inv Hrun as u w1 Hu. injection Hrun as <- <-. unfold ignore in Hu. apply bind_inv in Hu as (v & w2 & Hu & E).
    injection E as _ <-. apply UpdateHookDelivery_run in Hu as [_ [Hs|Hw]]; [by eapply budget_insert; [apply same_view|..]|].
    destruct (decide (hd_ID y = watched)) as [Hid|Hid]; [by eapply budget_written|].
    eapply budget_insert; [|done|done]. destruct Ho as (_ & Hon & _). destruct (Hon _ _ _ Hi eq_refl) as (x & Hx & _).
    destruct (Hw _ Hx) as (x' & -> & _). by rewrite lookup_insert_ne.
Qed.

Lemma recover_budget max cutoff w n w' ws p r :
  RecoverStaleHookDeliveries cutoff w = (n, w') → budget max (w_db w) ws p r →
  budget max (w_db w') ws p (r + (if is_running (w_db w) watched && negb (is_running (w_db w') watched) then 1 else 0)).
Proof.
  intros Hrun (x & Hx & Hok & H1 & H2 & H3). unfold budget, is_running.
  destruct (recover_rows _ _ _ _ watched Hrun) as [E|(x0 & err & t & Hx0 & Hr & Hx')].
  - rewrite E, Hx. rewrite andb_negb_r, Nat.add_0_r. by exists x.
  - rewrite Hx in Hx0. injection Hx0 as <-. rewrite Hx', Hx, Hr. rsimpl.
    change (negb (HookDeliveryStatusPending =? HookDeliveryStatusRunning)%string) with true.
    change (HookDeliveryStatusRunning =? HookDeliveryStatusRunning)%string with true. cbn [andb].
    eexists. split; [done|]. destruct Hok as (Hm & Ha & Hlive & _ & _). unfold delivery_ok. rsimpl.
    assert (hd_Attempts x < max) by tauto. rewrite Nat2Z.inj_add. delivery_solve.
    intros wk Hin Ho. specialize (H3 wk Hin Ho). destruct wk; simpl in *; lia.
Qed.

Lemma step_budget max s s' :
  max < int64_max → step s s' → orderly (w_db (shop_world s)) (shop_workers s) →
  budget max (w_db (shop_world s)) (shop_workers s) (shop_posts s) (shop_recoveries s) →
  budget max (w_db (shop_world s')) (shop_workers s') (shop_posts s') (shop_recoveries s').
Proof.
  intros Hmax Hstep. destruct Hstep; simpl; intros Ho Hb.
  - by eapply work_budget.
  - by eapply budget_insert.
  - eapply budget_frame; [|by left|done]. destruct (touch_leaves id [Taken watched] w) as [_ Hv]; [apply Ho|].
    apply (Hv (Taken watched)); [by apply list_elem_of_singleton|done].
  - by eapply recover_budget.
  - eapply budget_frame; [|by left|done]. destruct Hb as (x & Hx & _).
    destruct (dispatchObjectHook_queued event obj w watched) as [->|[? _]]; [done|congruence].
  - eapply budget_frame; [|by left|done]. by apply same_view.
Qed.

(** *** Properties *)

(** Nobody is on a delivery yet. *)
Definition at_rest (s : Shop) : Prop := keyed (w_db (shop_world s)) ∧ Forall (λ wk, on wk = None) (shop_workers s).

(** C34. The posts of a webhook are bounded: from a queued delivery on, through
    every interleaving of the steps of any number of workers, their deaths
    (after the post as well), failing statements, recoveries and new events, it
    is posted at most [max] times and once more for each time it was recovered
    after its worker died. On record, attempts stay within [max], a queued or
    running delivery has one left, and "succeeded" means a 2xx answer without an
    error. *)
Theorem delivery_attempts_bounded max x s s' :
  0 < max < int64_max → at_rest s → shop_posts s = 0%nat → shop_recoveries s = 0%nat →
  db_deliveries (w_db (shop_world s)) !! watched = Some x →
  hd_Status x = HookDeliveryStatusPending → hd_Attempts x = 0 → hd_MaxAttempts x = max →
  rtc step s s' →
  Z.of_nat (shop_posts s') ≤ max + Z.of_nat (shop_recoveries s') ∧
  ∃ y, db_deliveries (w_db (shop_world s')) !! watched = Some y ∧ delivery_ok max y.
Proof.
  intros Hmax [Hk Hws] Hp Hr Hx Hs Ha Hm Hsteps. pose proof (orderly_start _ _ Hk Hws) as Ho.
  assert (budget max (w_db (shop_world s)) (shop_workers s) (shop_posts s) (shop_recoveries s)) as Hb.
  { exists x. unfold delivery_ok. rewrite Hs, Ha, Hm, Hp, Hr. delivery_solve.
    intros wk Hin Hon. rewrite Forall_forall in Hws. by rewrite (Hws _ Hin) in Hon. }
  clear Hk Hws Hp Hr Hx Hs Ha Hm. induction Hsteps as [s|s s1 s' Hstep _ IH].
  - destruct Hb as (y & Hy & Hok & H1 & H2 & _). split; [|by exists y]. destruct Hok as (_ & Hb & Hlive & _).
    destruct (decide (hd_Status y = HookDeliveryStatusRunning)) as [Hr|Hr]; [specialize (Hlive ltac:(by right)); lia|].
    specialize (H2 Hr). lia.
  - apply IH; [by eapply step_orderly|]. eapply step_budget; [lia|done..].
Qed.

(** C35. Mutual exclusion of workers: through every interleaving of the
    statements of any number of workers, their deaths, failing statements,
    recoveries that spare the deliveries of live workers, and new events, no two
    workers are on the same delivery, and it is running while one is on it. A
    claim that succeeds takes a delivery that was pending, due, and nobody's. *)
Theorem claims_are_exclusive s s' :
  at_rest s → rtc step s s' →
  (∀ i j wi wj id, shop_workers s' !! i = Some wi → shop_workers s' !! j = Some wj → on wi = Some id → on wj = Some id →
     i = j ∧ running (w_db (shop_world s')) id) ∧
  (∀ i due ids w1 id, shop_workers s' !! i = Some (Choosing due ids) →
     work decode_headers (Choosing due ids) (shop_world s') = (Taken id, w1) →
     waiting (w_db (shop_world s')) id due ∧ ∀ j wj, shop_workers s' !! j = Some wj → on wj ≠ Some id).
Proof.
  intros [Hk Hws] Hsteps. destruct (steps_orderly _ _ Hsteps (orderly_start _ _ Hk Hws)) as (_ & Hon & Hex). split.
  - intros i j wi wj id Hi Hj Hoi Hoj. split; [by eapply Hex|]. destruct (Hon _ _ _ Hi Hoi) as (x & Hx & Hr & _). by exists x.
  - intros i due ids w1 id Hi Hrun. destruct ids as [|k ids]; [done|]. cbn [work] in Hrun.
    run_inv Hrun as c w2 Hc. apply claim_delivery_run in Hc as [_ Hc]. destruct c as [[|]|e]; try done.
    injection Hrun as -> <-. destruct Hc as [Hwait _]. split; [done|]. intros j wj Hj Hoj.
    destruct Hwait as (x & Hx & Hp & _), (Hon _ _ _ Hj Hoj) as (y & Hy & Hr & _). rewrite Hx in Hy. injection Hy as <-.
    by rewrite Hp in Hr.
Qed.

(** The step of worker [i], as a function. *)
Definition turn (i : nat) (s : Shop) : Shop :=
  let wk := default Idle (shop_workers s !! i) in
  let '(wk', w') := work decode_headers wk (shop_world s) in
  MkShop w' (<[i := wk']> (shop_workers s)) (shop_posts s + posts wk (shop_world s) w') (shop_recoveries s).

Lemma turn_step i s : is_Some (shop_workers s !! i) → step s (turn i s).
Proof.
  intros [wk Hi]. destruct s as [w ws p r]. unfold turn. simpl in *. rewrite Hi. simpl.
  destruct (work decode_headers wk w) as [wk' w'] eqn:Hrun. by eapply step_work.
Qed.
End shop.

(** ** Retries *)

Lemma hookRetryDelay_bounds attempts : second ≤ hookRetryDelay attempts ≤ 32 * second.
Proof.
  unfold hookRetryDelay, duration_mul, mul64.
  set (a := if attempts <? 1 then 1 else attempts).
  assert (1 ≤ a) as Ha by (subst a; destruct (Z.ltb_spec attempts 1); lia).
  assert (2 ^ 0 ≤ 2 ^ Z.min (a - 1) 5 ≤ 2 ^ 5) as Hp.
  { split; apply Z.pow_le_mono_r; lia. }
  unfold second in *. rewrite wrap64_id by (unfold in_int64, int64_min, int64_max; lia).
  destruct (Z.ltb_spec minute (2 ^ Z.min (a - 1) 5 * 1000000000)); unfold minute, second in *; lia.
Qed.

(** After a failed attempt that is not the last one the delivery is queued
    again, between 1 and 32 seconds later; the one-minute cap of the code is
    never reached. *)
Theorem retry_is_scheduled x code err t :
  hd_Attempts x + 1 < hd_MaxAttempts x ≤ int64_max → 0 ≤ hd_Attempts x →
  (err ≠ "" ∨ code < 200 ∨ 300 ≤ code) →
  hd_Status (after_attempt x code err t) = HookDeliveryStatusPending ∧
  hd_Attempts (after_attempt x code err t) = hd_Attempts x + 1 ∧
  t + second ≤ hd_NextAttemptAt (after_attempt x code err t) ≤ t + 32 * second.
Proof.
  intros Hmax Hpos Hfail. unfold after_attempt. cbv zeta.
  assert (add64 (hd_Attempts x) 1 = hd_Attempts x + 1) as Hadd.
  { apply wrap64_id. unfold in_int64, int64_min. lia. }
  assert ((err =? "")%string && (200 <=? code) && (code <? 300) = false) as ->.
  { apply not_true_iff_false. rewrite !andb_true_iff, String.eqb_eq, Z.leb_le, Z.ltb_lt. naive_solver lia. }
  rsimpl. rewrite Hadd. rewrite (proj2 (Z.leb_gt _ _)) by lia. rsimpl. rewrite Hadd.
  pose proof (hookRetryDelay_bounds (hd_Attempts x + 1)). unfold add_time. split_and!; [done|done|lia..].
Qed.

(** ** Two workers and one delivery *)

Definition demo_delivery : HookDelivery :=
  zero_HookDelivery <| hd_ID := "d1" |> <| hd_HookID := "h1" |> <| hd_Status := HookDeliveryStatusPending |> <| hd_MaxAttempts := 3 |>.

Definition no_headers (s : string) : result (gmap string string) := Ok ∅.

Definition demo_shop : Shop :=
  MkShop (start ((demo_db demo_bucket)
    <| db_hooks := {[ "h1" := zero_Hook <| h_ID := "h1" |> <| h_Kind := HookKindHTTP |> <| h_Enabled := true |> ]} |>
    <| db_deliveries := {[ "d1" := demo_delivery ]} |>)) [Idle; Idle] 0 0.

Definition demo_turns (l : list nat) : Shop :=
  fold_left (λ s i, @turn demo_env no_headers "d1" i s) l demo_shop.

Lemma demo_turns_steps l : Forall (λ i, i < 2)%nat l → rtc (@step demo_env no_headers "d1") demo_shop (demo_turns l).
Proof.
  unfold demo_turns. assert (List.length (shop_workers demo_shop) = 2%nat) as Hlen by done. revert Hlen. generalize demo_shop.
  induction l as [|i l IH]; intros s Hlen Hall; [done|]. inversion Hall; subst. simpl. eapply rtc_l.
  - apply (@turn_step demo_env no_headers "d1" i). apply lookup_lt_is_Some. lia.
  - apply IH; [|done]. unfold turn. destruct (work _ _ _). simpl. by rewrite length_insert.
Qed.

Lemma demo_shop_rest : at_rest demo_shop.
Proof.
  split; [|by repeat constructor]. intros k x Hx. simpl in Hx. apply lookup_singleton_Some in Hx as [<- <-]. done.
Qed.

Lemma delivery_attempts_bounded_witness : Z.of_nat (shop_posts (demo_turns [0;1;0;1;0;0;1;0]%nat)) ≤ 3 + 0.
Proof.
  apply (@delivery_attempts_bounded demo_env no_headers "d1" 3 demo_delivery demo_shop).
  - split; reflexivity.
  - exact demo_shop_rest.
  - reflexivity.
  - reflexivity.
  - vm_compute. reflexivity.
  - reflexivity.
  - reflexivity.
  - reflexivity.
  - apply demo_turns_steps. repeat constructor.
Defined.

(** Both looked, the first one got it. *)
Lemma claims_are_exclusive_witness :
  shop_workers (demo_turns [0;1;0]%nat) !! 0%nat = Some (Taken "d1") ∧ running (w_db (shop_world (demo_turns [0;1;0]%nat))) "d1".
Proof.
  assert (shop_workers (demo_turns [0;1;0]%nat) !! 0%nat = Some (Taken "d1")) as E by (vm_compute; reflexivity).
  split; [exact E|].
  apply (proj1 (@claims_are_exclusive demo_env no_headers "d1" demo_shop (demo_turns [0;1;0]%nat) demo_shop_rest
           (demo_turns_steps [0;1;0]%nat ltac:(repeat constructor))) 0%nat 0%nat (Taken "d1") (Taken "d1") "d1" E E); reflexivity.
Defined.

Lemma retry_is_scheduled_witness :
  hd_Status (after_attempt demo_delivery 500 "hook returned HTTP 500" 1000) = HookDeliveryStatusPending.
Proof.
  apply (retry_is_scheduled demo_delivery 500 "hook returned HTTP 500" 1000);
    [vm_compute; split; [reflexivity | discriminate] | vm_compute; discriminate | left; discriminate].
Defined.
