(* ===== verification/Jobs.v ===== *)
(** Durable jobs: the tables of migration, inventory and repair jobs
    ([store/store.go], [store/access_inventory.go], [store/repair_jobs.go]) share
    one life cycle, stated once as an interface; [app/workers.go] is the loop
    that claims and runs the work of such a table. *)
From S2P Require Import Prelude GoTime Domain ProviderErrors World Sql StoreProviders StoreObjects StoreEvents.

(** ** The interface of a job table *)

Class JobTable (J : Type) : Type := {
  job_ID : J → string;
  job_Status : J → string;
  job_CreatedAt : J → Time;
  job_UpdatedAt : J → Time;
  job_table : DB → gmap string J;
  set_job_table : (gmap string J → gmap string J) → DB → DB;
  job_reference : DB → J → bool;              (* the foreign keys of a row *)
  job_created : Time → J → J;                 (* what the INSERT fills in *)
  job_claimed : Time → J → J;
  job_touched : Time → J → J;
  job_recovered : Time → J → J;
  job_saved : Time → J → J → J }.             (* the row, what is written *)

Definition job_pending : string := "pending".
Definition job_running : string := "running".

(** What every table promises. *)
Class JobLaws (J : Type) `{!JobTable J} : Prop := {
  job_table_set f d : job_table (set_job_table f d) = f (job_table d);
  job_created_ID t j : job_ID (job_created t j) = job_ID j;
  job_claimed_ID t j : job_ID (job_claimed t j) = job_ID j;
  job_touched_ID t j : job_ID (job_touched t j) = job_ID j;
  job_recovered_ID t j : job_ID (job_recovered t j) = job_ID j;
  job_saved_ID t old j : job_ID (job_saved t old j) = job_ID old;
  job_claimed_Status t j : job_Status (job_claimed t j) = job_running;
  job_touched_Status t j : job_Status (job_touched t j) = job_Status j;
  job_recovered_Status t j : job_Status (job_recovered t j) = job_pending;
  job_saved_Status t old j : job_Status (job_saved t old j) = job_Status j }.

Section table.
Context {J : Type} `{!JobTable J}.

Definition is_pending_job (j : J) : bool := (job_Status j =? job_pending)%string.
Definition is_running_job (j : J) : bool := (job_Status j =? job_running)%string.

Definition create_job_row (j : J) (d : DB) : result DB :=
  if negb (job_reference d j) then Err (constraint_failed "FOREIGN KEY")
  else match job_table d !! job_ID j with
       | Some _ => Err (constraint_failed "UNIQUE")
       | None => Ok (set_job_table (insert (job_ID j) j) d)
       end.

(** UPDATE ... WHERE id = ? AND ..., and the number of rows it changed. *)
Definition update_job_row (id : string) (P : J → bool) (f : J → J) (d : DB) : Z * DB :=
  let changed := update_row id P f (job_table d) in
  (changed.1, set_job_table (λ _, changed.2) d).

Definition claim_job_row (id : string) (t : Time) : DB → Z * DB := update_job_row id is_pending_job (job_claimed t).

(** The five oldest jobs that wait. *)
Definition claimable_jobs (d : DB) : list string :=
  job_ID <$> limit 5 (order_by (by_time job_CreatedAt) (where_ is_pending_job (rows (job_table d)))).

Definition stale_job (cutoff : Time) (j : J) : bool := is_running_job j && sql_time_lt (job_UpdatedAt j) cutoff.

(** ** The operations on a table *)

Context `{Env}.

Definition create_job (j : J) : M (result unit) :=
  let! t := now in sql_write (create_job_row (job_created t j)).

Definition get_job (id : string) : M (result J) :=
  sql_read (λ d, match job_table d !! id with Some j => Ok j | None => not_found end).

Definition list_jobs (lim : Z) : M (result (list J)) :=
  let lim := if (lim <=? 0) || (100 <? lim) then 25 else lim in
  sql_read (λ d, Ok (limit lim (order_by (desc (by_time job_CreatedAt)) (rows (job_table d))))).

(** The first of the candidates that is still pending. *)
Fixpoint claim_jobs (ids : list string) : M (result (option J)) :=
  match ids with
  | [] => ret_ok None
  | id :: rest =>
      let! t := now in
      let? changed := sql (λ d, Ok (claim_job_row id t d)) in
      if changed =? 1 then let? j := get_job id in ret_ok (Some j) else claim_jobs rest
  end.

Definition claim_next_job : M (result (option J)) :=
  let? ids := sql_read (λ d, Ok (claimable_jobs d)) in
  claim_jobs ids.

Definition update_job (j : J) : M (result unit) :=
  let! t := now in
  sql_write (λ d, Ok (update_job_row (job_ID j) (λ _, true) (λ old, job_saved t old j) d).2).

Definition touch_job (wrap : M (result Z) → M (result Z)) (id : string) : M (result unit) :=
  let! t := now in
  let? changed := wrap (sql (λ d, Ok (update_job_row id is_running_job (job_touched t) d))) in
  if negb (changed =? 1) then ret not_found else ret_ok tt.

Definition recover_jobs (cutoff : Time) : M (result Z) :=
  let! t := now in
  sql (λ d, Ok (count_where (stale_job cutoff) (job_table d),
                set_job_table (update_where (stale_job cutoff) (job_recovered t)) d)).
End table.

(** ** Workers *)

Section workers.
Context `{Env}.

(** [ctx.Err()]: whether the context is done is a function of the world. *)
Definition ctx_err (ctx : World → option error) : M (result unit) := λ w, (match ctx w with Some e => Err e | None => Ok tt end, w).

(** [durableWorkItem]; its heartbeat only touches the claimed row, while the
    work runs, and is left out. *)
Definition durableWorkItem : Type := M (result unit).

(** [durableWorker], but for its timers. *)
Record durableWorker : Type := MkDurableWorker {
  dw_name : string;
  dw_staleAfter : Duration;
  dw_recover : option (Time → M (result unit));
  dw_claim : M (result (option durableWorkItem)) }.

(** A lease on the right to claim, where a coordinator is configured: nothing
    when another process has it, otherwise how to give it back. *)
Definition Coordinator : Type := string → M (result (option (M (result unit)))).

Definition claimDurableWork (coordinator : option Coordinator) (name : string) (claim : M (result (option durableWorkItem)))
    : M (result (option durableWorkItem)) :=
  match coordinator with
  | None => claim
  | Some acquire =>
      let? lease := acquire (name +:+ ":claim") in
      match lease with
      | None => ret_ok None
      | Some release =>
          let! claimed := claim in
          let! released := release in
          match released with
          | Ok _ => ret claimed
          | Err releaseErr =>
              match claimed with
              | Err e => ret_err (ErrJoin e releaseErr)
              | Ok (Some item) =>
                  let! _ := recordWorkerFailure name (ErrWrap "release claim lease" releaseErr) in
                  ret_ok (Some item)
              | Ok None => ret_err releaseErr
              end
          end
      end
  end.

(** Claim and run, until nothing is left to claim. *)
Fixpoint drain (fuel : nat) (ctx : World → option error) (coordinator : option Coordinator) (worker : durableWorker) : M (result unit) :=
  match fuel with
  | O => ret_err (ErrSentinel ErrFuel)
  | S fuel =>
      let! done := ctx_err ctx in
      match done with
      | Err _ => ret_ok tt
      | Ok _ =>
          let! claimed := claimDurableWork coordinator (dw_name worker) (dw_claim worker) in
          match claimed with
          | Err e => let! _ := recordWorkerFailure (dw_name worker) e in ret_ok tt
          | Ok None => ret_ok tt
          | Ok (Some run) =>
              let! r := run in
              let! _ := (match r with
                         | Err e => recordWorkerFailure (dw_name worker) e
                         | Ok _ => recordWorkerSuccess (dw_name worker)
                         end) in
              drain fuel ctx coordinator worker
          end
      end
  end.

(** One pass of [runDurableWorker]. *)
Definition process (fuel : nat) (ctx : World → option error) (coordinator : option Coordinator) (worker : durableWorker) : M (result unit) :=
  let! recovered := (match dw_recover worker with
                     | Some recover =>
                         if 0 <? dw_staleAfter worker
                         then let! t := now in recover (add_time t (- dw_staleAfter worker))
                         else ret_ok tt
                     | None => ret_ok tt
                     end) in
  match recovered with
  | Err e => let! _ := recordWorkerFailure (dw_name worker) e in ret_ok tt
  | Ok _ => drain fuel ctx coordinator worker
  end.
End workers.
