(* ===== verification/JobsFacts.v ===== *)
(** Job tables and workers: whatever the table, a claim takes one waiting job
    and a pass of the worker leaves none waiting. *)
From S2P Require Import Prelude GoTime Domain ProviderErrors World Sql StoreProviders StoreObjects StoreEvents Jobs.

Lemma pres_ctx_err ctx (R : World → World → Prop) `{!PreOrder R} : pres R (ctx_err ctx).
Proof. intros w. apply (reflexivity w). Qed.
#[export] Hint Resolve pres_ctx_err : pres.

Section table.
Context {J : Type} `{!JobTable J} `{!JobLaws J} `{Env}.

(** Every row is found under its identifier. *)
Definition jobs_wf (d : DB) : Prop := map_Forall (λ id j, job_ID j = id) (job_table d).

(** The jobs that wait. *)
Definition pending_jobs (d : DB) : gset string := dom (filter (λ kv, is_pending_job kv.2 = true) (job_table d)).

Lemma elem_of_pending id d : id ∈ pending_jobs d ↔ ∃ j, job_table d !! id = Some j ∧ job_Status j = job_pending.
Proof.
  unfold pending_jobs, is_pending_job. rewrite elem_of_dom. unfold is_Some. setoid_rewrite map_lookup_filter_Some. cbn [snd].
  by setoid_rewrite String.eqb_eq.
Qed.

(** Rows that change in place, none of them to waiting. *)
Definition none_added (d d' : DB) : Prop := (jobs_wf d → jobs_wf d') ∧ pending_jobs d' ⊆ pending_jobs d.

#[global] Instance none_added_preorder : PreOrder none_added.
Proof. unfold none_added. split; [done|]. intros ??? [] []. split; [auto|set_solver]. Qed.

Lemma same_none_added d d' : same job_table d d' → none_added d d'.
Proof. unfold same, none_added, jobs_wf, pending_jobs. by intros ->. Qed.

Lemma pres_same_none_added {A} (m : M A) : pres (on_db (same job_table)) m → pres (on_db none_added) m.
Proof. intros Hm w. apply same_none_added, Hm. Qed.

Lemma update_row_none_added id P f d : (∀ j, job_ID (f j) = job_ID j) → (∀ j, job_Status (f j) ≠ job_pending) →
  none_added d (update_job_row id P f d).2.
Proof.
  intros HID Hf. unfold update_job_row. destruct (update_row id P f (job_table d)) as [n m] eqn:E. cbn [fst snd].
  apply update_row_spec in E as [(j & Hj & _ & _ & ->)|(_ & _ & ->)].
  - split.
    + unfold jobs_wf. rewrite job_table_set. intros Hwf. apply map_Forall_insert_2; [|done]. rewrite HID. by apply Hwf.
    + intros k (j' & Hj' & Hs)%elem_of_pending. apply elem_of_pending. rewrite job_table_set in Hj'.
      apply lookup_insert_Some in Hj' as [[<- <-]|[_ Hk]]; [|by exists j']. by apply Hf in Hs.
  - apply same_none_added. unfold same. apply job_table_set.
Qed.

(** A job is saved as anything but waiting. *)
Lemma update_job_none_added j : job_Status j ≠ job_pending → pres (on_db none_added) (update_job j).
Proof.
  intros Hj. unfold update_job. apply pres_bind; [apply _|apply pres_now, _|]. intros t w. unfold sql_write, sql, on_db.
  destruct (env_db_fault _); [apply reflexivity|]. cbn. apply update_row_none_added; intros old.
  - apply job_saved_ID.
  - by rewrite job_saved_Status.
Qed.

(** ** Claims *)

Lemma claimable_pending d id : jobs_wf d → id ∈ claimable_jobs d → id ∈ pending_jobs d.
Proof.
  intros Hwf. unfold claimable_jobs. intros (j & -> & Hj%elem_of_limit)%list_elem_of_fmap.
  apply elem_of_order_by, elem_of_where in Hj as [(k & Hk)%elem_of_rows Hp]. apply elem_of_pending. exists j.
  rewrite (Hwf _ _ Hk). split; [done|]. by apply String.eqb_eq.
Qed.

Lemma claimable_nil d : claimable_jobs d = [] → pending_jobs d = ∅.
Proof.
  intros Hnil. apply leibniz_equiv, elem_of_equiv_empty. intros id (j & Hj & Hp)%elem_of_pending.
  unfold claimable_jobs in Hnil. apply fmap_nil_inv in Hnil. unfold limit in Hnil.
  assert (j ∈ order_by (by_time job_CreatedAt) (where_ is_pending_job (rows (job_table d)))) as Hin.
  { apply elem_of_order_by, elem_of_where. split; [apply elem_of_rows; by exists id|]. by apply String.eqb_eq. }
  destruct (order_by _ _); [by apply not_elem_of_nil in Hin|]. by cbn in Hnil.
Qed.

(** With an undisturbed database a claim fails only for want of a waiting
    job; otherwise it takes one and changes nothing else. *)
Lemma claim_next_job_run w : no_db_faults → jobs_wf (w_db w) →
  (pending_jobs (w_db w) = ∅ ∧ ∃ w', claim_next_job w = (Ok None, w') ∧ w_db w' = w_db w) ∨
  (∃ id j t w', id ∈ pending_jobs (w_db w) ∧ job_table (w_db w) !! id = Some j ∧ claim_next_job w = (Ok (Some (job_claimed t j)), w')
     ∧ job_table (w_db w') = <[id := job_claimed t j]> (job_table (w_db w))).
Proof.
  intros Hq Hwf. unfold claim_next_job. destruct (claimable_jobs (w_db w)) as [|id rest] eqn:Hc.
  - left. split; [by apply claimable_nil|]. erewrite bind_ok_run by (rewrite sql_read_quiet, Hc by done; reflexivity).
    eexists. split; [reflexivity|]. done.
  - right. assert (id ∈ pending_jobs (w_db w)) as Hid by (apply claimable_pending; [done|rewrite Hc; by left]).
    pose proof Hid as (j & Hj & Hs)%elem_of_pending. exists id, j.
    erewrite bind_ok_run by (rewrite sql_read_quiet, Hc by done; reflexivity). cbn [claim_jobs].
    unfold now. erewrite bind_run by reflexivity. rsimpl.
    set (w1 := w <| w_stmts ::= S |> <| w_clock ::= S |>). set (t := env_now _). exists t.
    assert (claim_job_row id t (w_db w) = (1, set_job_table (λ _, <[id := job_claimed t j]> (job_table (w_db w))) (w_db w))) as Erow.
    { unfold claim_job_row, update_job_row, update_row. rewrite Hj. unfold is_pending_job. by rewrite Hs. }
    erewrite bind_ok_run.
    2:{ unfold sql. rewrite Hq. subst w1. rsimpl. rewrite Erow. reflexivity. }
    rewrite Z.eqb_refl. erewrite bind_ok_run.
    2:{ unfold get_job. rewrite sql_read_quiet by done. rsimpl. rewrite job_table_set, lookup_insert_eq. reflexivity. }
    eexists. split; [done|]. split; [done|]. split; [reflexivity|]. rsimpl. by rewrite job_table_set.
Qed.

(** ** Workers *)

(** The same rows, whatever became of them. *)
Definition rows_kept (d d' : DB) : Prop := (jobs_wf d → jobs_wf d') ∧ dom (job_table d') = dom (job_table d).

Lemma recover_jobs_run cutoff w : no_db_faults →
  ∃ n w', recover_jobs (J := J) cutoff w = (Ok n, w') ∧ rows_kept (w_db w) (w_db w').
Proof.
  intros Hq. unfold recover_jobs. unfold now. erewrite bind_run by reflexivity. unfold sql. rewrite Hq. rsimpl.
  eexists _, _. split; [reflexivity|]. rsimpl. unfold rows_kept, jobs_wf. rewrite job_table_set. unfold update_where. split.
  - intros Hwf id j Hj. apply lookup_fmap_Some in Hj as (old & <- & Hold). case_match; [rewrite job_recovered_ID|]; by apply Hwf.
  - by rewrite dom_fmap_L.
Qed.

(** A worker that claims the jobs of the table; a run adds no waiting job. *)
Record works_on (run : string → M (result unit)) (worker : durableWorker) : Prop := {
  wo_claim : dw_claim worker = (let? claimed := claim_next_job (J := J) in
               ret_ok (match claimed with Some j => Some (run (job_ID j)) | None => None end));
  wo_run : ∀ id, pres (on_db none_added) (run id);
  wo_recover : ∀ recover cutoff w, dw_recover worker = Some recover → no_db_faults →
    ∃ w', recover cutoff w = (Ok tt, w') ∧ rows_kept (w_db w) (w_db w') }.

Lemma drain_empties run worker ctx fuel w : works_on run worker → no_db_faults → (∀ w, ctx w = None) → jobs_wf (w_db w) →
  (size (pending_jobs (w_db w)) < fuel)%nat →
  (drain fuel ctx None worker w).1 = Ok tt ∧ pending_jobs (w_db (drain fuel ctx None worker w).2) = ∅.
Proof.
  intros [Hclaim Hrun] Hq Hctx. revert w. induction fuel as [|fuel IH]; intros w Hwf Hsize; [lia|].
  cbn [drain]. rewrite Hclaim. unfold claimDurableWork. erewrite (bind_run _ _ w) by (unfold ctx_err; rewrite Hctx; reflexivity). cbn [fst snd].
  destruct (claim_next_job_run w Hq Hwf) as [(Hp & w' & E & Hd)|(id & j & t & w1 & Hid & Hj & E & Htab)].
  - rewrite (bind_run _ _ _ (Ok None) w') by (erewrite bind_ok_run by exact E; reflexivity). cbn [ret_ok ret fst snd]. split; [done|]. by rewrite Hd.
  - rewrite (bind_run _ _ _ (Ok (Some (run (job_ID (job_claimed t j))))) w1) by (erewrite bind_ok_run by exact E; reflexivity).
    assert (jobs_wf (w_db w1) ∧ pending_jobs (w_db w1) ⊆ pending_jobs (w_db w) ∖ {[ id ]}) as [Hwf1 Hsub1].
    { split.
      - unfold jobs_wf. rewrite Htab. apply map_Forall_insert_2; [|done]. rewrite job_claimed_ID. by apply Hwf.
      - intros k (j' & Hj' & Hs)%elem_of_pending. rewrite Htab in Hj'. apply lookup_insert_Some in Hj' as [[<- <-]|[Hne Hk]].
        + by rewrite job_claimed_Status in Hs.
        + apply elem_of_difference. split; [|set_solver]. apply elem_of_pending. by exists j'. }
    destruct (run (job_ID (job_claimed t j)) w1) as [r w2] eqn:Er. rewrite (bind_run _ _ _ _ _ Er).
    pose proof (pres_run _ _ _ _ _ (Hrun _) Er) as [Hwf2 Hsub2].
    set (record := match r with Ok _ => _ | Err _ => _ end). destruct (record w2) as [u w3] eqn:Erec. rewrite (bind_run _ _ _ _ _ Erec).
    assert (w_db w3 = w_db w2) as Hd3. { subst record. destruct r; cbn in Erec; by injection Erec as _ <-. }
    apply IH.
    + rewrite Hd3. by apply Hwf2.
    + rewrite Hd3. assert (size (pending_jobs (w_db w2)) < size (pending_jobs (w_db w)))%nat; [|lia].
      apply subset_size. set_solver.
Qed.

Lemma process_empties run worker ctx fuel w : works_on run worker → no_db_faults → (∀ w, ctx w = None) → jobs_wf (w_db w) →
  (size (job_table (w_db w)) < fuel)%nat →
  (process fuel ctx None worker w).1 = Ok tt ∧ pending_jobs (w_db (process fuel ctx None worker w).2) = ∅.
Proof.
  intros Hw Hq Hctx Hwf Hsize. unfold process.
  assert (∀ d, size (pending_jobs d) ≤ size (job_table d))%nat as Hle.
  { intros d. rewrite <- size_dom. apply subseteq_size, dom_filter_subseteq. }
  assert (∀ m : M (result unit), (∃ w', m w = (Ok tt, w') ∧ rows_kept (w_db w) (w_db w')) →
    (bind m (λ recovered, match recovered with
       | Ok _ => drain fuel ctx None worker
       | Err e => bind (recordWorkerFailure (dw_name worker) e) (λ _, ret_ok tt)
       end) w).1 = Ok tt ∧
    pending_jobs (w_db (bind m (λ recovered, match recovered with
       | Ok _ => drain fuel ctx None worker
       | Err e => bind (recordWorkerFailure (dw_name worker) e) (λ _, ret_ok tt)
       end) w).2) = ∅) as Hrest.
  { intros m (w' & E & Hwf' & Hdom). rewrite (bind_run _ _ _ _ _ E). apply (drain_empties run); try done; [by apply Hwf'|].
    eapply Nat.le_lt_trans; [apply Hle|]. by rewrite <- size_dom, Hdom, size_dom. }
  apply Hrest. destruct (dw_recover worker) as [recover|] eqn:Hr; [|by exists w].
  destruct (0 <? dw_staleAfter worker); [|by exists w]. unfold now. erewrite bind_run by reflexivity.
  destruct (wo_recover _ _ Hw recover (add_time (env_now (w_clock w)) (- dw_staleAfter worker)) (w <| w_clock ::= S |>) Hr Hq) as (w' & E & Hk).
  by exists w'.
Qed.
End table.
