(* ===== verification/Service.v ===== *)
(** The object service, [app/service.go]: uploading with placement, quota
    reservation and failover, reading with fallback to replicas, and what an
    overwrite cleans up. *)
From S2P Require Import Prelude GoTime Sha256 Json Text Domain ProviderErrors World Sql StoreProviders StoreObjects StoreEvents Placement Providers Hooks.

(** The router reads the providers from the store. *)
#[global] Instance store_lister `{Env} : ProviderLister := {| lister_ListProviders := ListProviders |}.

(** What the service asks of the plugin pipelines: to queue jobs for an event.
    Queueing touches neither the ledger nor a remote service nor a local file
    nor the tables of objects and multipart uploads. *)
Definition same_objects (d d' : DB) : Prop :=
  db_objects d' = db_objects d ∧ db_attributes d' = db_attributes d ∧ db_versions d' = db_versions d
  ∧ db_trash d' = db_trash d ∧ db_buckets d' = db_buckets d ∧ db_replicas d' = db_replicas d.

#[global] Instance same_objects_preorder : PreOrder same_objects.
Proof. unfold same_objects. split; [done | intros d1 d2 d3 (?&?&?&?&?&?) (?&?&?&?&?&?); split_and!; congruence]. Qed.

Class Pipelines `{Env} : Type := {
  enqueueWASMPlugins : string → ObjectRecord → M (result unit);
  enqueue_ledger : ∀ event obj, pres (on_db same_ledger) (enqueueWASMPlugins event obj);
  enqueue_calls : ∀ event obj, pres same_calls (enqueueWASMPlugins event obj);
  enqueue_objects : ∀ event obj, pres (on_db same_objects) (enqueueWASMPlugins event obj);
  enqueue_uploads : ∀ event obj, pres (on_db (same (λ d, (db_uploads d, db_parts d)))) (enqueueWASMPlugins event obj);
  enqueue_files : ∀ event obj, pres same_files (enqueueWASMPlugins event obj) }.

#[global] Hint Resolve enqueue_ledger enqueue_calls enqueue_objects enqueue_uploads enqueue_files : pres.

(** No plugin is installed. *)
#[global] Program Instance no_pipelines `{Env} : Pipelines | 100 :=
  {| enqueueWASMPlugins := λ _ _, ret_ok tt |}.
Solve Obligations with (intros; apply pres_ret, _).

Definition hasPersistentObjectAttributes (object : ObjectRecord) : bool :=
  negb (bool_decide (o_Metadata object = ∅)) || negb (bool_decide (o_Tags object = ∅))
  || negb (o_VersionID object =? "")%string || negb (o_RetentionMode object =? "")%string
  || negb (is_zero (o_RetainUntil object)) || o_LegalHold object.

Definition replicaTargets (bucket : Bucket) (primaryProviderID : string) : list string :=
  List.filter (λ id, negb (id =? primaryProviderID)%string) (normalizeProviderIDs (b_ReplicationProviderIDs bucket)).

Definition objectRecordForReplica (primary : ObjectRecord) (replica : ObjectReplica) : ObjectRecord :=
  let primary := primary <| o_ProviderAccountID := rp_ProviderAccountID replica |>
                         <| o_RemoteBucket := rp_RemoteBucket replica |> <| o_RemoteKey := rp_RemoteKey replica |> in
  let primary := if 0 <? rp_Size replica then primary <| o_Size := rp_Size replica |> else primary in
  let primary := if negb (rp_ETag replica =? "")%string then primary <| o_ETag := rp_ETag replica |> else primary in
  if negb (rp_ChecksumSHA256 replica =? "")%string
  then primary <| o_ChecksumSHA256 := rp_ChecksumSHA256 replica |> else primary.

(** [errors.Join] of a non-empty list. *)
Fixpoint join_errors (e : error) (es : list error) : error :=
  match es with [] => e | e' :: es => ErrJoin e (join_errors e' es) end.

(** The margin a reservation leaves free. *)
Definition reservation_margin (account : ProviderAccount) : Z :=
  let margin := intSetting (p_Settings account) "quota_margin_bytes" in
  let minFree := intSetting (p_Settings account) "min_free_bytes" in
  if margin <? minFree then minFree else margin.

(** [time.Duration(days) * 24 * time.Hour] *)
Definition days_duration (days : Z) : Duration := mul64 (mul64 days 24) hour.

(** The checks on the retention an upload asks for, at the instant [t]. *)
Definition check_retention (bucket : Bucket) (input : PutObjectInput) (t : Time) : result unit :=
  if (negb (i_RetentionMode input =? "")%string || negb (is_zero (i_RetainUntil input)) || i_LegalHold input)
     && negb (b_ObjectLockEnabled bucket)
  then Err (ErrText "object lock is not enabled for bucket")
  else if negb (i_RetentionMode input =? "")%string && negb (i_RetentionMode input =? "GOVERNANCE")%string
          && negb (i_RetentionMode input =? "COMPLIANCE")%string
  then Err (ErrText "retention mode must be GOVERNANCE or COMPLIANCE")
  else if negb (i_RetentionMode input =? "")%string && negb (after (i_RetainUntil input) t)
  then Err (ErrText "retain-until date must be in the future")
  else Ok tt.

Section service.
Context `{Env}.

Definition max_upload : Z := cfg_MaxUploadBytes env_config.

Definition too_large {A} : result A :=
  Err (ErrAnnotate (ErrSentinel ErrUploadTooLarge) ("maximum is " +:+ itoa max_upload +:+ " bytes")).

(** *** Spooling *)

Definition rewind : M (result unit) := wrap_err "rewind upload spool" file_op.

(** [io.Copy] through [io.LimitReader(body, max+1)]: the bytes that get
    through, and the read error if it comes before the limit. *)
Definition limited (max : Z) (body : Reader) : string * option error :=
  let bound := add64 max 1 in
  if Z.of_nat (String.length (rd_data body)) <? bound then (rd_data body, rd_err body)
  else (string_take (Z.to_nat bound) (rd_data body), None).

Definition spoolUpload (body : Reader) : M (result PreparedUpload) :=
  let? _ := wrap_err "create upload spool" file_op in
  let '(data, failed) := limited max_upload body in
  let? _ := wrap_err "spool upload"
              (let? _ := file_op in lift (match failed with Some e => Err e | None => Ok tt end)) in
  let written := Z.of_nat (String.length data) in
  if max_upload <? written then ret too_large
  else
    let? _ := rewind in
    ret_ok (MkPreparedUpload data written (sha256_hex data)).

(** *** Buckets *)

Definition ensureBucket (name : string) : M (result Bucket) :=
  let! found := GetBucket name in
  match found with
  | Ok bucket => ret_ok bucket
  | Err e =>
      if errors_is e ErrNotFound
      then let bucket := zero_Bucket <| b_Name := name |> in
           let? _ := UpsertBucket bucket in ret_ok bucket
      else ret_err e
  end.

Definition ListObjectsAfter (bucket prefix startAfter : string) (lim : Z) : M (result (list ObjectRecord)) :=
  let? _ := ensureBucket bucket in ListObjectsAfter_store bucket prefix startAfter lim.

(** *** Replicas of an object *)

Definition enqueueObjectReplicas (primary : ObjectRecord) (targets : list string) : M (result unit) :=
  for_each_ok targets (λ providerID,
    UpsertObjectReplica (zero_ObjectReplica <| rp_Bucket := o_Bucket primary |> <| rp_Key := o_Key primary |>
      <| rp_ProviderAccountID := providerID |> <| rp_Size := o_Size primary |>
      <| rp_ChecksumSHA256 := o_ChecksumSHA256 primary |> <| rp_Status := "pending" |> <| rp_MaxAttempts := 5 |>)).

(** The record of the copy a replica row stands for. *)
Definition replica_object (replica : ObjectReplica) : ObjectRecord :=
  zero_ObjectRecord <| o_Bucket := rp_Bucket replica |> <| o_Key := rp_Key replica |>
    <| o_ProviderAccountID := rp_ProviderAccountID replica |> <| o_RemoteBucket := rp_RemoteBucket replica |>
    <| o_RemoteKey := rp_RemoteKey replica |> <| o_Size := rp_Size replica |> <| o_ETag := rp_ETag replica |>.

Definition delete_replica (replica : ObjectReplica) : M unit :=
  let! found := GetProvider (rp_ProviderAccountID replica) in
  match found with
  | Err _ => ret tt
  | Ok account =>
      match providerForReplica account with
      | Err _ => ret tt
      | Ok (account, adapter) =>
          let! deleted := adapter_delete adapter account (replica_object replica) in
          match deleted with
          | Ok _ => ignore (AddProviderUsage (rp_ProviderAccountID replica) (wrap64 (- rp_Size replica)))
          | Err _ => ret tt
          end
      end
  end.

Definition deleteObjectReplicas (obj : ObjectRecord) : M unit :=
  let! listed := ListObjectReplicas (o_Bucket obj) (o_Key obj) in
  match listed with
  | Err _ | Ok [] => ret tt
  | Ok replicas =>
      let! _ := for_each replicas delete_replica in
      ignore (DeleteObjectReplicas (o_Bucket obj) (o_Key obj))
  end.

(** *** Overwrites *)

Definition same_remote (a b : ObjectRecord) : bool :=
  (o_ProviderAccountID a =? o_ProviderAccountID b)%string && (o_RemoteBucket a =? o_RemoteBucket b)%string
  && (o_RemoteKey a =? o_RemoteKey b)%string.

Definition cleanupOverwrittenObject (previous current : ObjectRecord) : M (result unit) :=
  let! _ := ignore (AddProviderUsage (o_ProviderAccountID previous) (wrap64 (- o_Size previous))) in
  if same_remote previous current then ret_ok tt
  else
    let? aa := providerForObject previous in
    let '(account, adapter) := aa in
    adapter_delete adapter account previous.

(** *** Uploading *)

(** One pass of the loop after a provider was chosen: [inl] leaves the loop
    with the function's outcome, [inr] excludes the provider and goes on. *)
Definition try_provider (input : PutObjectInput) (spool : PreparedUpload) (primary : ProviderAccount)
    : M (result (ProviderAccount * StoredObject) + unit) :=
  let! resID := randomIdentifier "res-" 12 in
  let! t := now in
  let reservation := zero_ProviderReservation <| rs_ID := resID |> <| rs_ProviderAccountID := p_ID primary |>
    <| rs_Bytes := i_Size input |> <| rs_ExpiresAt := add_time t hour |> in
  let! t := now in
  let! reserved := ReserveProviderCapacity reservation (reservation_margin primary)
                     (intSetting (p_Settings primary) "monthly_upload_quota_bytes") (month_text t) in
  match reserved with
  | Err e => ret (inl (Err (ErrWrap "reserve provider capacity" e)))
  | Ok false => ret (inr tt)
  | Ok true =>
      let! rewound := rewind in
      match rewound with
      | Err e =>
          let! _ := ignore (ReleaseProviderReservation resID) in ret (inl (Err e))
      | Ok _ =>
          let! put := putUploadSpoolOnProvider primary input spool in
          match put with
          | Err e =>
              let! _ := ignore (ReleaseProviderReservation resID) in
              let! _ := recordProviderWriteFailure primary e in
              ret (if FailoverEligible e then inr tt else inl (Err e))
          | Ok stored =>
              let! committed := CommitProviderReservation resID (st_Size stored) in
              match committed with
              | Ok _ => ret (inl (Ok (primary, stored)))
              | Err e =>
                  let! _ := ignore (ReleaseProviderReservation resID) in
                  let! _ := match providerForReplica primary with
                            | Err _ => ret tt
                            | Ok (account, adapter) =>
                                ignore (adapter_delete adapter account
                                  (zero_ObjectRecord <| o_ProviderAccountID := p_ID primary |>
                                     <| o_RemoteBucket := st_RemoteBucket stored |>
                                     <| o_RemoteKey := st_RemoteKey stored |> <| o_Size := st_Size stored |>))
                            end in
                  ret (inl (Err (ErrWrap "commit provider reservation" e)))
              end
          end
      end
  end.

(** The placement loop; [None] is a loop that ran out of fuel. *)
Fixpoint place (fuel : nat) (input : PutObjectInput) (spool : PreparedUpload) (excluded : gset string)
    : M (option (result (ProviderAccount * StoredObject))) :=
  match fuel with
  | O => ret None
  | S fuel =>
      let! chosen := Choose input excluded in
      match chosen with
      | Err e => ret (Some (Err e))
      | Ok primary =>
          let! r := try_provider input spool primary in
          match r with
          | inl outcome => ret (Some outcome)
          | inr _ => place fuel input spool ({[ p_ID primary ]} ∪ excluded)
          end
      end
  end.

Definition place_upload (input : PutObjectInput) (spool : PreparedUpload) : M (result (ProviderAccount * StoredObject)) :=
  λ w, (let! r := place (S (size (db_providers (w_db w)))) input spool ∅ in
        ret (match r with Some outcome => outcome | None => Err (ErrSentinel ErrFuel) end)) w.

(** The record of a stored upload. *)
Definition stored_object (bucket : Bucket) (input : PutObjectInput) (stored : StoredObject) (targets : list string)
    (created updated : Time) : ObjectRecord :=
  zero_ObjectRecord <| o_Bucket := i_Bucket input |> <| o_Key := i_Key input |>
    <| o_ProviderAccountID := st_ProviderAccountID stored |> <| o_RemoteBucket := st_RemoteBucket stored |>
    <| o_RemoteKey := st_RemoteKey stored |> <| o_Size := st_Size stored |> <| o_ContentType := st_ContentType stored |>
    <| o_ETag := st_ETag stored |>
    <| o_ChecksumSHA256 := if (st_ChecksumSHA256 stored =? "")%string then i_ChecksumSHA256 input else st_ChecksumSHA256 stored |>
    <| o_Metadata := i_Metadata input |> <| o_Tags := i_Tags input |> <| o_RetentionMode := i_RetentionMode input |>
    <| o_RetainUntil := i_RetainUntil input |> <| o_LegalHold := i_LegalHold input |>
    <| o_ReplicaStatus := match targets with [] => "none" | _ => "pending" end |>
    <| o_CreatedAt := created |> <| o_UpdatedAt := updated |>.

Context `{!Pipelines}.

(** Everything after the upload reached a provider. *)
Definition index_upload (bucket : Bucket) (input : PutObjectInput) (existing : result ObjectRecord)
    (primary : ProviderAccount) (stored : StoredObject) : M (result ObjectRecord) :=
  let isNewObject := match existing with Err e => errors_is e ErrNotFound | Ok _ => false end in
  let targets := replicaTargets bucket (p_ID primary) in
  let! created := now in
  let! updated := now in
  let obj := stored_object bucket input stored targets created updated in
  let! obj := (if b_VersioningEnabled bucket
               then let! v := randomIdentifier "v-" 12 in ret (obj <| o_VersionID := v |>) else ret obj) in
  let? _ := match existing with
            | Ok previous =>
                if b_VersioningEnabled bucket
                then PutObjectVersion (if (o_VersionID previous =? "")%string
                                       then previous <| o_VersionID := "null" |> else previous)
                else ret_ok tt
            | Err _ => ret_ok tt
            end in
  let? _ := PutObject_store obj in
  let? _ := (if negb isNewObject
             then wrap_err "invalidate object embeddings" (DeleteObjectEmbeddings (o_Bucket obj) (o_Key obj))
             else ret_ok tt) in
  let? _ := (if negb isNewObject || hasPersistentObjectAttributes obj then PutObjectAttributes obj else ret_ok tt) in
  let? _ := (if b_VersioningEnabled bucket then PutObjectVersion obj else ret_ok tt) in
  let! _ := match existing with
            | Ok previous =>
                let! _ := (if negb (b_VersioningEnabled bucket)
                           then ignore (cleanupOverwrittenObject previous obj) else ret tt) in
                deleteObjectReplicas previous
            | Err _ => ret tt
            end in
  let! _ := match targets with [] => ret tt | _ => ignore (enqueueObjectReplicas obj targets) end in
  let! _ := dispatchObjectHook HookEventObjectCreated obj in
  let! _ := (if cfg_WASMEnabled env_config && negb (i_SkipWASMPipelines input)
             then let! queued := enqueueWASMPlugins WASMPluginEventObjectCreated obj in
                  match queued with
                  | Ok _ => ret tt
                  | Err e => recordWorkerFailure "wasm-plugins"
                               (ErrWrap ("enqueue object " +:+ o_Bucket obj +:+ "/" +:+ o_Key obj) e)
                  end
             else ret tt) in
  ret_ok obj.

Definition PutObject (input : PutObjectInput) (body : Reader) : M (result ObjectRecord) :=
  if max_upload <? i_Size input then ret too_large
  else
    let? bucket := ensureBucket (i_Bucket input) in
    let! found := GetObject_store (i_Bucket input) (i_Key input) in
    let! existing := match found with
                     | Ok o => let! o := hydrated o in ret (Ok o)
                     | Err e => ret (Err e)
                     end in
    let! input := (if b_VersioningEnabled bucket
                   then let! r := randomIdentifier "" 12 in
                        ret (input <| i_RemoteKey := ".bucketmux/versions/" +:+ r +:+ "/" +:+ trim_left_byte "/" (i_Key input) |>)
                   else ret input) in
    let! input := (if b_ObjectLockEnabled bucket && (i_RetentionMode input =? "")%string && (0 <? b_DefaultRetentionDays bucket)
                   then let! t := now in
                        ret (input <| i_RetentionMode := to_upper (b_DefaultRetentionMode bucket) |>
                                   <| i_RetainUntil := add_time t (days_duration (b_DefaultRetentionDays bucket)) |>)
                   else ret input) in
    let! t := (if negb (i_RetentionMode input =? "")%string then now else ret zero_time) in
    let? _ := lift (check_retention bucket input t) in
    let? spool := spoolUpload body in
    let input := input <| i_Size := pu_Size spool |> <| i_ChecksumSHA256 := pu_ChecksumSHA256 spool |> in
    let? placed := place_upload input spool in
    let '(primary, stored) := placed in
    index_upload bucket input existing primary stored.

(** *** Reading *)

(** The replicas in order, until one answers; the others' failures. *)
Fixpoint from_replicas {A} (read : Adapter → ProviderAccount → ObjectRecord → M (result A)) (primary : ObjectRecord)
    (replicas : list ObjectReplica) (failures : list error) : M (A + list error) :=
  match replicas with
  | [] => ret (inr failures)
  | replica :: rest =>
      if negb (rp_Status replica =? "succeeded")%string then from_replicas read primary rest failures
      else
        let fail e := from_replicas read primary rest (failures ++ [e]) in
        let name := "replica " +:+ rp_ProviderAccountID replica in
        let! found := GetProvider (rp_ProviderAccountID replica) in
        match found with
        | Err e => fail (ErrWrap (name +:+ " unavailable") e)
        | Ok account =>
            if negb (p_Enabled account) then fail (ErrText (name +:+ " is disabled"))
            else match providerForReplica account with
                 | Err e => fail (ErrWrap name e)
                 | Ok (account, adapter) =>
                     let! served := read adapter account (objectRecordForReplica primary replica) in
                     match served with
                     | Ok a => ret (inl a)
                     | Err e => fail (ErrWrap name e)
                     end
                 end
        end
  end.

Definition read_from_replica {A} (read : Adapter → ProviderAccount → ObjectRecord → M (result A)) (primary : ObjectRecord) : M (result A) :=
  let? replicas := ListObjectReplicas (o_Bucket primary) (o_Key primary) in
  let! r := from_replicas read primary replicas [] in
  ret (match r with
       | inl a => Ok a
       | inr [] => Err (ErrText "no completed replicas are available")
       | inr (e :: es) => Err (join_errors e es)
       end).

Definition getObjectFromReplica : ObjectRecord → M (result (Reader * ObjectRecord)) := read_from_replica adapter_get.
Definition headObjectFromReplica : ObjectRecord → M (result ObjectRecord) := read_from_replica adapter_head.

Definition GetObject (bucket key : string) : M (result (Reader * ObjectRecord)) :=
  let? oa := GetObjectWithProvider bucket key in
  let '(obj, account) := oa in
  let! primary := match providerForReplica account with
                  | Ok (account, adapter) => adapter_get adapter account obj
                  | Err e => ret_err e
                  end in
  match primary with
  | Ok (body, served) => let! served := hydrated served in ret_ok (body, served)
  | Err primaryErr =>
      let! fallback := getObjectFromReplica obj in
      match fallback with
      | Ok (body, served) => let! served := hydrated served in ret_ok (body, served)
      | Err fallbackErr => ret_err (ErrWrap "read primary and replicas" (ErrJoin primaryErr fallbackErr))
      end
  end.

Definition HeadObject (bucket key : string) : M (result ObjectRecord) :=
  let? oa := GetObjectWithProvider bucket key in
  let '(obj, account) := oa in
  let! primary := match providerForReplica account with
                  | Ok (account, adapter) => adapter_head adapter account obj
                  | Err e => ret_err e
                  end in
  match primary with
  | Ok head => let! head := hydrated head in ret_ok head
  | Err primaryErr =>
      let! fallback := headObjectFromReplica obj in
      match fallback with
      | Ok head => let! head := hydrated head in ret_ok head
      | Err fallbackErr => ret_err (ErrWrap "head primary and replicas" (ErrJoin primaryErr fallbackErr))
      end
  end.
End service.
