(* ===== verification/Runtime.v ===== *)
(** Running a WASM plugin, [wasmplugin/runtime.go]: the sandbox is the wazero
    library and an argument here; what BucketMux checks before and after a run
    is not. *)
From S2P Require Import Prelude GoTime Float64 FloatArith Text Domain ProviderErrors World Sql StoreProviders StoreObjects Embeddings Operations Placement Service.

Definition wasmPageBytes : Z := 65536.
Definition maxResultJSONBytes : Z := 2 ^ 20.
Definition maxStderrBytes : Z := 64 * 2 ^ 10.
Definition maxDerivedObjects : Z := 32.
Definition maxEmbeddings : Z := 128.
Definition maxEmbeddingDims : Z := 4096.
Definition maximumMemoryPages : Z := 65536.

(** ** The sandbox *)

(** [wazero.CompiledModule], as far as it is asked. *)
Record CompiledModule : Type := MkCompiledModule {
  cm_exports : list string;                   (* ExportedFunctions *)
  cm_imports : list (string * string);        (* ImportedFunctions: module, name *)
  cm_importedMemories : nat }.

(** What the output directory holds at a path. *)
Inductive OutputNode : Type :=
| RegularFile (data : string)
| SymbolicLink
| OtherFile.

(** A run of a module: the error of [InstantiateModule] with its exit code if
    it is an [*sys.ExitError], the writes to its two streams, and the output
    directory it leaves, by the elements of relative paths. *)
Record RunOutcome : Type := MkRunOutcome {
  ro_err : option (error * option Z);
  ro_stdout : list string;
  ro_stderr : list string;
  ro_files : gmap (list string) OutputNode }.

Class WasmHost : Type := {
  wz_tempRoot : string;
  wz_compile : Z → string → result CompiledModule;         (* pages, module *)
  wz_instantiateWASI : result unit;
  wz_instantiateAssemblyScript : result unit;
  wz_run : Z → string → WASMPluginInvocation → string → RunOutcome;  (* milliseconds, module, stdin, input file *)
  wz_decode : string → result WASMPluginResult }.           (* json.Unmarshal of the result *)

(** ** Buffers and copies *)

(** [limitedBuffer] *)
Record limitedBuffer : Type := MkLimitedBuffer { lb_buffer : string; lb_remaining : Z; lb_overflowed : bool }.

Definition newLimitedBuffer (limit : Z) : limitedBuffer := MkLimitedBuffer "" limit false.

(** [limitedBuffer.Write]; it always reports success. *)
Definition Write (b : limitedBuffer) (data : string) : limitedBuffer :=
  if lb_remaining b <? Z.of_nat (String.length data) then
    if 0 <? lb_remaining b
    then MkLimitedBuffer (lb_buffer b +:+ string_take (Z.to_nat (lb_remaining b)) data) 0 true
    else MkLimitedBuffer (lb_buffer b) (lb_remaining b) true
  else MkLimitedBuffer (lb_buffer b +:+ data) (lb_remaining b - Z.of_nat (String.length data)) (lb_overflowed b).

Definition copyWithLimit (input : Reader) (limit : Z) : result string :=
  if limit <=? 0 then Err (ErrText "plugin input limit must be positive")
  else
    let '(data, failed) := limited limit input in
    match failed with
    | Some e => Err (ErrWrap "copy plugin input" e)
    | None =>
        if limit <? Z.of_nat (String.length data) then Err (ErrText ("plugin input exceeds " +:+ itoa limit +:+ " bytes"))
        else Ok data
    end.

(** ** Paths *)

Fixpoint strip_common (a b : list string) : list string * list string :=
  match a, b with
  | x :: a', y :: b' => if (x =? y)%string then strip_common a' b' else (a, b)
  | _, _ => (a, b)
  end.

(** [filepath.Rel] *)
Definition filepath_rel (base target : string) : option string :=
  if (path_clean base =? path_clean target)%string then Some "."
  else if negb (Bool.eqb (has_prefix base "/") (has_prefix target "/")) then None
  else
    let '(b, t) := strip_common (clean_elements base) (clean_elements target) in
    match b with
    | ".." :: _ => None
    | _ => Some (string_join "/" (replicate (List.length b) ".." ++ t))
    end.

Definition safeOutputPath (outputDir relativePath : string) : result string :=
  let clean := path_clean (trim_space relativePath) in
  if (clean =? ".")%string || has_prefix clean "/" || (clean =? "..")%string || has_prefix clean "../"
  then Err (ErrText ("unsafe derived object path " +:+ quoted relativePath))
  else
    let full := filepath_join [outputDir; clean] in
    let escapes := Err (ErrText ("derived object path escapes output directory: " +:+ quoted relativePath)) in
    match filepath_rel outputDir full with
    | None => escapes
    | Some relative => if (relative =? "..")%string || has_prefix relative "../" then escapes else Ok full
    end.

(** ** Executions *)

(** [Execution]: the files of its directory by the elements of their path. *)
Record Execution : Type := MkExecution {
  ex_Result : WASMPluginResult;
  ex_OutputDir : string;
  ex_files : gmap (list string) OutputNode }.

(** [Execution.OpenDerived]: the content of the file, followed through a
    symbolic link to anything, that is to no known content. *)
Definition OpenDerived (e : Execution) (relativePath : string) : result string :=
  try! path := safeOutputPath (ex_OutputDir e) relativePath in
  match ex_files e !! clean_elements path with
  | Some (RegularFile data) => Ok data
  | _ => Err (ErrText ("open " +:+ path +:+ ": no such file or directory"))
  end.

Fixpoint declared_paths (outputDir : string) (files : gmap (list string) OutputNode) (declared : list WASMPluginDerivedObject)
    : result (gset (list string)) :=
  match declared with
  | [] => Ok ∅
  | output :: rest =>
      try! path := safeOutputPath outputDir (wd_Path output) in
      match files !! clean_elements path with
      | None => Err (ErrWrap ("stat derived object " +:+ quoted (wd_Path output)) (ErrText "no such file or directory"))
      | Some (RegularFile _) => try! paths := declared_paths outputDir files rest in Ok ({[clean_elements path]} ∪ paths)
      | Some _ => Err (ErrText ("derived object " +:+ quoted (wd_Path output) +:+ " is not a regular file"))
      end
  end.

(** The order of [filepath.WalkDir]. *)
Fixpoint compare_elements (a b : list string) : comparison :=
  match a, b with
  | [], [] => Eq
  | [], _ => Lt
  | _, [] => Gt
  | x :: a, y :: b => match String.compare x y with Eq => compare_elements a b | c => c end
  end.

Definition walk (files : gmap (list string) OutputNode) : list (list string * OutputNode) :=
  order_by (λ x y, compare_elements x.1 y.1) (map_to_list files).

Fixpoint check_outputs (declared : gset (list string)) (limit total : Z) (entries : list (list string * OutputNode)) : result unit :=
  match entries with
  | [] => Ok tt
  | (path, node) :: rest =>
      let name := String "/" (string_join "/" path) in
      match node with
      | SymbolicLink => Err (ErrText ("plugin output contains a symbolic link: " +:+ name))
      | _ =>
          if negb (bool_decide (path ∈ declared)) then Err (ErrText ("plugin wrote undeclared output " +:+ quoted name))
          else
            let total := add64 total (match node with RegularFile data => Z.of_nat (String.length data) | _ => 0 end) in
            if limit <? total then Err (ErrText ("plugin output exceeds " +:+ itoa limit +:+ " bytes"))
            else check_outputs declared limit total rest
      end
  end.

Definition validateOutputs (outputDir : string) (files : gmap (list string) OutputNode) (declared : list WASMPluginDerivedObject) (limit : Z)
    : result unit :=
  if limit <=? 0 then Err (ErrText "plugin output limit must be positive")
  else
    try! paths := declared_paths outputDir files declared in
    match check_outputs paths limit 0 (walk files) with
    | Ok _ => Ok tt
    | Err e => Err (ErrWrap "validate plugin output" e)
    end.

(** ** Embeddings of a result *)

Definition normalize_embedding (e : WASMPluginEmbedding) : WASMPluginEmbedding :=
  let e := e <| we_Kind ::= trim_space |> <| we_Model ::= trim_space |> <| we_ModelVersion ::= trim_space |>
             <| we_Metric ::= λ m, to_lower (trim_space m) |> in
  let e := if (we_Kind e =? "")%string then e <| we_Kind := "generic" |> else e in
  let e := if (we_Metric e =? "")%string then e <| we_Metric := "cosine" |> else e in
  if we_Dimensions e =? 0 then e <| we_Dimensions := Z.of_nat (List.length (we_Values e)) |> else e.

Fixpoint first_not_finite (j : Z) (values : list float32) : option Z :=
  match values with
  | [] => None
  | value :: rest => if not_finite value then Some j else first_not_finite (j + 1) rest
  end.

Definition validate_embedding (i : Z) (e : WASMPluginEmbedding) : result WASMPluginEmbedding :=
  let e := normalize_embedding e in
  let name := "embedding " +:+ itoa i in
  try! _ := guard_err ((we_Model e =? "")%string || (we_ModelVersion e =? "")%string) (name +:+ " requires model and model_version") in
  try! _ := guard_err (negb (known_metric (we_Metric e))) (name +:+ " uses unsupported metric " +:+ quoted (we_Metric e)) in
  try! _ := guard_err ((we_Dimensions e <=? 0) || (maxEmbeddingDims <? we_Dimensions e)
                       || negb (we_Dimensions e =? Z.of_nat (List.length (we_Values e))))
              (name +:+ " has dimensions " +:+ itoa (we_Dimensions e) +:+ " and " +:+ itoa (Z.of_nat (List.length (we_Values e)))
               +:+ " values; maximum dimensions is 4096") in
  try! _ := match first_not_finite 0 (we_Values e) with
            | Some j => Err (ErrText (name +:+ " value " +:+ itoa j +:+ " is not finite"))
            | None => Ok tt
            end in
  try! _ := guard_err ((we_Metric e =? "cosine")%string && float_eq (vectorSquaredNorm (we_Values e)) float_zero)
              (name +:+ " is a zero vector, which cosine search cannot index") in
  Ok e.

Fixpoint validate_embeddings_from (i : Z) (embeddings : list WASMPluginEmbedding) : result (list WASMPluginEmbedding) :=
  match embeddings with
  | [] => Ok []
  | e :: rest =>
      try! e := validate_embedding i e in
      try! rest := validate_embeddings_from (i + 1) rest in
      Ok (e :: rest)
  end.

(** The function normalises the slice in place; its result is that slice. *)
Definition validateEmbeddings (embeddings : list WASMPluginEmbedding) : result (list WASMPluginEmbedding) :=
  if maxEmbeddings <? Z.of_nat (List.length embeddings)
  then Err (ErrText ("plugin declared " +:+ itoa (Z.of_nat (List.length embeddings)) +:+ " embeddings; maximum is 128"))
  else validate_embeddings_from 0 embeddings.

(** ** Modules *)

(** [uint32((memoryLimitBytes + wasmPageBytes - 1) / wasmPageBytes)], bounded. *)
Definition memory_pages (memoryLimitBytes : Z) : Z :=
  let pages := Z.quot (sub64 (add64 memoryLimitBytes wasmPageBytes) 1) wasmPageBytes `mod` 2 ^ 32 in
  let pages := if pages =? 0 then 1024 else pages in
  if maximumMemoryPages <? pages then maximumMemoryPages else pages.

Definition allowedAssemblyScriptImport (name : string) : bool :=
  (name =? "abort")%string || (name =? "trace")%string || (name =? "seed")%string.

Definition bad_import (function : string * string) : bool :=
  negb (function.1 =? "wasi_snapshot_preview1")%string
  && (negb (function.1 =? "env")%string || negb (allowedAssemblyScriptImport function.2)).

Definition validateCompiledModule (compiled : CompiledModule) : result unit :=
  if negb (existsb (String.eqb "_start") (cm_exports compiled)) then Err (ErrText "WASI command must export _start")
  else match List.find bad_import (cm_imports compiled) with
       | Some f => Err (ErrText ("unsupported import " +:+ f.1 +:+ "." +:+ f.2 +:+ ": only WASI Preview 1 is allowed"))
       | None =>
           if negb (Nat.eqb (cm_importedMemories compiled) 0) then Err (ErrText "imported host memory is not allowed") else Ok tt
       end.

Section runtime.
Context `{!WasmHost}.

Definition compile (module : string) (memoryLimitBytes : Z) : result CompiledModule :=
  match wz_compile (memory_pages memoryLimitBytes) module with
  | Ok compiled => Ok compiled
  | Err e => Err (ErrWrap "compile wasm module" e)
  end.

Definition wasm_magic : string := String "000" "asm".

Definition Validate (module : string) (plugin : WASMPlugin) : result unit :=
  if Nat.ltb (String.length module) 8 || negb (string_take 4 module =? wasm_magic)%string
  then Err (ErrText "module is not a WebAssembly binary")
  else try! compiled := compile module (wp_MemoryLimitBytes plugin) in validateCompiledModule compiled.

(** The error of a run that did not exit with code 0. *)
Definition run_error (outcome : RunOutcome) (stderr : limitedBuffer) : option error :=
  match ro_err outcome with
  | None => None
  | Some (_, Some 0) => None
  | Some (e, _) =>
      let message := trim_space (lb_buffer stderr) in
      Some (if negb (message =? "")%string then ErrWrap "execute wasm plugin" (ErrAnnotate e message)
            else ErrWrap "execute wasm plugin" e)
  end.

(** After the run: the result is decoded and checked, its slices normalised. *)
Definition check_result (plugin : WASMPlugin) (object : WASMPluginObject) (outputDir : string) (files : gmap (list string) OutputNode)
    (stdout : limitedBuffer) : result Execution :=
  try! _ := guard_err (lb_overflowed stdout) ("plugin result exceeds " +:+ itoa maxResultJSONBytes +:+ " bytes") in
  try! r := annotate "decode plugin result" (wz_decode (lb_buffer stdout)) in
  try! _ := guard_err (negb (wr_ABIVersion r =? WASMPluginABIV1)%string)
              ("plugin result abi_version " +:+ quoted (wr_ABIVersion r) +:+ " does not match " +:+ quoted WASMPluginABIV1) in
  try! operations := ValidateOperations plugin (MkPluginSource (wb_Bucket object) (wb_Key object)) (wr_Operations r) in
  try! _ := guard_err (maxDerivedObjects <? Z.of_nat (List.length (wr_DerivedObjects r)))
              ("plugin declared " +:+ itoa (Z.of_nat (List.length (wr_DerivedObjects r))) +:+ " derived objects; maximum is 32") in
  try! embeddings := validateEmbeddings (wr_Embeddings r) in
  try! _ := validateOutputs outputDir files (wr_DerivedObjects r) (wp_MaxOutputBytes plugin) in
  Ok (MkExecution (r <| wr_Operations := operations |> <| wr_Embeddings := embeddings |>) outputDir files).

(** The module on its invocation and the bytes of its input file. *)
Definition run_module (module : string) (plugin : WASMPlugin) (invocation : WASMPluginInvocation) (outputDir data : string) : result Execution :=
  let invocation := invocation <| wi_ABIVersion := WASMPluginABIV1 |>
    <| wi_Object := (wi_Object invocation) <| wb_InputPath := "/input/object" |> |>
    <| wi_OutputDir := "/output" |> <| wi_Operations := wp_OperationPolicy plugin |> in
  try! compiled := compile module (wp_MemoryLimitBytes plugin) in
  try! _ := annotate "validate module" (validateCompiledModule compiled) in
  try! _ := annotate "instantiate WASI" wz_instantiateWASI in
  try! _ := annotate "instantiate AssemblyScript imports" wz_instantiateAssemblyScript in
  let outcome := wz_run (if wp_TimeoutMillis plugin <=? 0 then 5000 else wp_TimeoutMillis plugin) module invocation data in
  let stdout := fold_left Write (ro_stdout outcome) (newLimitedBuffer maxResultJSONBytes) in
  let stderr := fold_left Write (ro_stderr outcome) (newLimitedBuffer maxStderrBytes) in
  match run_error outcome stderr with
  | Some e => Err e
  | None => check_result plugin (wi_Object invocation) outputDir (kmap (app (clean_elements outputDir)) (ro_files outcome)) stdout
  end.

(** [execution.OutputDir], in the fresh directory of that name. *)
Definition output_dir (name : string) : string := filepath_join [filepath_join [wz_tempRoot; name]; "output"].

Context `{Env}.

Definition Execute (module : string) (plugin : WASMPlugin) (invocation : WASMPluginInvocation) (input : Reader) : M (result Execution) :=
  let? _ := wrap_err "create wasm workspace" file_op in
  let! name := randomIdentifier "bucketmux-wasm-" 5 in
  let outputDir := output_dir name in
  let? _ := wrap_err "create wasm input" file_op in
  let? _ := wrap_err "create wasm output" file_op in
  let? _ := wrap_err "create wasm object input" file_op in
  let? data := lift (copyWithLimit input (wp_MaxInputBytes plugin)) in
  let? _ := file_op in
  let size := wb_Size (wi_Object invocation) in
  let written := Z.of_nat (String.length data) in
  if (0 <=? size) && negb (written =? size)
  then ret_err (ErrText ("source size changed while preparing plugin input: read " +:+ itoa written +:+ " bytes, expected " +:+ itoa size))
  else lift (run_module module plugin invocation outputDir data).
End runtime.
