(* ===== verification/RuntimeFacts.v ===== *)
(** What the plugin runtime guarantees: output buffers are bounded, output
    paths stay in their directory, and an accepted execution is well-formed,
    so that the store and the service can use it without further checks. *)
From S2P Require Import Prelude GoTime Float64 FloatArith Text Domain ProviderErrors World Sql StoreProviders StoreObjects Embeddings EmbeddingsFacts Operations Placement Demo Service Runtime.

(** ** Buffers *)

Lemma string_take_all n s : (String.length s ≤ n)%nat → string_take n s = s.
Proof. revert n. induction s as [|a s IH]; intros [|n]; cbn; try done; [lia|]. intros. by rewrite IH by lia. Qed.

Lemma string_take_more n s t : string_take n (s +:+ t) = string_take n s +:+ string_take (n - String.length s) t.
Proof.
  revert n. induction s as [|a s IH]; intros n; [rewrite append_nil_l; cbn; by rewrite Nat.sub_0_r; destruct n|].
  destruct n as [|n]; cbn [string_take String.length Nat.sub]; [done|]. rewrite !append_cons. cbn. by rewrite IH.
Qed.

(** A buffer that has kept the first [limit] bytes of [written]. *)
Definition buffered (limit : nat) (written : string) (b : limitedBuffer) : Prop :=
  lb_buffer b = string_take limit written ∧
  lb_overflowed b = bool_decide (limit < String.length written)%nat ∧
  lb_remaining b = Z.of_nat (limit - String.length written).

Lemma Write_buffered limit written b data : buffered limit written b → buffered limit (written +:+ data) (Write b data).
Proof.
  intros (Hb & Ho & Hr). unfold Write, buffered. rewrite Hr, string_length_app, string_take_more.
  destruct (Z.ltb_spec (Z.of_nat (limit - String.length written)) (Z.of_nat (String.length data))) as [Hlt|Hge].
  - destruct (Z.ltb_spec 0 (Z.of_nat (limit - String.length written))) as [Hpos|Hz]; cbn; rewrite Nat2Z.id || idtac.
    + split_and!; [by rewrite Hb|by rewrite bool_decide_true by lia|lia].
    + replace (limit - String.length written)%nat with O by lia. split_and!; [by rewrite Hb; destruct data; rewrite append_nil_r|by rewrite bool_decide_true by lia|lia].
  - cbn. split_and!; [by rewrite Hb, (string_take_all _ data) by lia| |lia]. rewrite Ho. apply bool_decide_ext. lia.
Qed.

(** However the output comes in pieces, the buffer keeps its first bytes and
    reports what is lost. *)
Lemma buffer_exact limit writes : 0 <= limit →
  buffered (Z.to_nat limit) (string_join "" writes) (fold_left Write writes (newLimitedBuffer limit)).
Proof.
  intros Hl. assert (∀ written b, buffered (Z.to_nat limit) written b → buffered (Z.to_nat limit) (written +:+ string_join "" writes) (fold_left Write writes b)) as Hfold.
  { induction writes as [|x writes IH]; intros written b Hb; [by rewrite append_nil_r|]. cbn [fold_left].
    replace (written +:+ string_join "" (x :: writes)) with ((written +:+ x) +:+ string_join "" writes).
    - apply IH. by apply Write_buffered.
    - rewrite <- append_assoc. f_equal. destruct writes; [by rewrite append_nil_r|]. by rewrite string_join_cons, append_nil_l. }
  rewrite <- (append_nil_l (string_join "" writes)). apply Hfold. unfold buffered, newLimitedBuffer. cbn. split_and!; [by destruct (Z.to_nat limit)|done|lia].
Qed.

(** ** Paths *)

Definition rooted (dir : string) : Prop := has_prefix dir "/" = true.

Lemma rooted_elements cwd path : rooted path → path_elements cwd path = clean_elements path.
Proof. unfold rooted, path_elements. by intros ->. Qed.

Lemma clean_rooted path : rooted path → rooted (path_clean path).
Proof. unfold rooted, path_clean. intros ->. apply has_prefix_root. Qed.

(** A derived object is a file of the output directory, at a path without
    empty, dot or double dot elements. *)
Lemma safeOutputPath_inside dir rel full : rooted dir → safeOutputPath dir rel = Ok full →
  rooted full ∧ ∃ elems, elems ≠ [] ∧ Forall (λ e, proper_element e = true) elems ∧ clean_elements full = clean_elements dir ++ elems.
Proof.
  intros Hdir. unfold safeOutputPath. set (text := trim_space rel). destruct (_ || _ || _ || _) eqn:Hbad; [discriminate|].
  apply orb_false_iff in Hbad as [Hbad Hup]. apply orb_false_iff in Hbad as [Hbad Hdd]. apply orb_false_iff in Hbad as [Hdot Habs].
  destruct (filepath_rel _ _); [|discriminate]. destruct (_ || _); [discriminate|]. intros Hfull.
  assert (full = filepath_join [dir; path_clean text]) as -> by congruence. clear Hfull.
  assert (dir ≠ "") as Hne by (intros ->; done).
  assert (rooted (filepath_join [dir; path_clean text])) as Hroot.
  { cbn [filepath_join]. rewrite (proj2 (String.eqb_neq _ _) Hne). apply clean_rooted. rewrite string_join_cons. unfold rooted. by rewrite has_prefix_byte. }
  split; [done|]. rewrite <- (rooted_elements "" _ Hroot), path_elements_join by done. cbn [string_join].
  assert (has_prefix text "/" = false) as Hrel.
  { destruct (has_prefix text "/") eqn:E; [|done]. unfold path_clean in Habs. rewrite E in Habs. by rewrite has_prefix_root in Habs. }
  destruct (path_clean_relative text Hrel) as [[_ Hc]|[Hnil Hsplit]]; [by rewrite Hc in Hdot|]. change (string_join "/" [path_clean text]) with (path_clean text).
  rewrite Hsplit. destruct (clean_elements_shape text) as (up & proper & Hshape & Hp). destruct up as [|up].
  - rewrite Hshape in *. cbn [replicate app] in *. exists proper. split_and!; [done|done|].
    rewrite clean_push_all by done. by rewrite rev_app_distr, !rev_involutive, rooted_elements.
  - exfalso. unfold path_clean in Hdd, Hup. rewrite Hrel, Hshape in Hdd, Hup. cbn [replicate app] in Hdd, Hup.
    destruct (replicate up ".." ++ proper) as [|x l]; [done|]. rewrite string_join_cons in Hup, Hdd.
    rewrite !append_cons in Hup. done.
Qed.

(** ** Embeddings *)

Lemma first_not_finite_none j values : first_not_finite j values = None → ∀ i, ∃ data, encode_from i values = Ok data.
Proof.
  revert j. induction values as [|v values IH]; intros j; cbn [first_not_finite encode_from]; [by eexists|].
  destruct (not_finite v); [discriminate|]. intros Hn i. destruct (IH _ Hn (i + 1)) as (data & ->). by eexists.
Qed.

(** Whatever the runtime accepts, the store accepts. *)
Lemma validate_embedding_stored i e e' : validate_embedding i e = Ok e' → validateStoredEmbedding e' = Ok tt.
Proof.
  unfold validate_embedding. cbv zeta. set (n := normalize_embedding e). intros H.
  split_ok H as u1 Hmodel. split_ok H as u2 Hmetric. split_ok H as u3 Hdim. split_ok H as u4 Hfin. split_ok H as u5 Hzero. injection H as <-.
  apply orb_false_iff in Hmodel as [Hm Hv]. apply orb_false_iff in Hdim as [Hdim Hlen]. apply orb_false_iff in Hdim as [Hpos Hmax].
  unfold validateStoredEmbedding, maximumEmbeddingDimensions. unfold maxEmbeddingDims in Hmax. rewrite Hmetric, Hpos, Hmax, Hlen, Hzero. cbn [orb].
  assert (we_Model n = trim_space (we_Model e) ∧ we_ModelVersion n = trim_space (we_ModelVersion e) ∧
          (we_Kind n = "generic" ∨ (we_Kind n = trim_space (we_Kind e) ∧ we_Kind n ≠ ""))) as (Em & Ev & Ek).
  { subst n. unfold normalize_embedding. cbv zeta.
    destruct (String.eqb_spec (trim_space (we_Kind e)) "") as [Ekind|Ekind]; rsimpl;
      rewrite ?(proj2 (String.eqb_eq _ _) Ekind), ?(proj2 (String.eqb_neq _ _) Ekind); repeat case_match; rsimpl; split_and!; try done; auto. }
  rewrite Em, Ev, !trim_space_idem, <- Em, <- Ev, Hm, Hv. cbn [orb].
  assert ((trim_space (we_Kind n) =? "")%string = false) as ->.
  { apply String.eqb_neq. destruct Ek as [->|[-> Hne]]; [done|]. rewrite trim_space_idem. intros E. by rewrite E in Hne. }
  destruct (first_not_finite 0 (we_Values n)) eqn:Hf; [discriminate|].
  unfold encodeFloat32Vector. by destruct (first_not_finite_none _ _ Hf 0) as (data & ->).
Qed.

Lemma validate_embeddings_stored i l l' : validate_embeddings_from i l = Ok l' →
  List.length l' = List.length l ∧ Forall (λ e, validateStoredEmbedding e = Ok tt) l'.
Proof.
  revert i l'. induction l as [|e l IH]; intros i l'; cbn [validate_embeddings_from]; [by intros [= <-]|].
  intros (e' & He & (r & Hr & [= <-])%result_bind_Ok)%result_bind_Ok. apply IH in Hr as [Hlen Hall]. split; [by cbn; rewrite Hlen|].
  constructor; [by eapply validate_embedding_stored|done].
Qed.

(** ** Output files *)

Definition node_size (node : OutputNode) : Z := match node with RegularFile data => Z.of_nat (String.length data) | _ => 0 end.

Lemma node_size_nonneg node : 0 <= node_size node.
Proof. destruct node; cbn; lia. Qed.

Definition output_size (files : gmap (list string) OutputNode) : Z := sum_of node_size files.

Lemma output_size_kmap (f : list string → list string) `{!Inj eq eq f} files : output_size (kmap f files) = output_size files.
Proof.
  unfold output_size, sum_of, rows. apply sum_Z_perm. rewrite map_to_list_kmap by done. rewrite <- !list_fmap_compose.
  match goal with |- ?a ≡ₚ ?b => assert (a = b) as ->; [|done] end. apply list_fmap_ext. by intros i [].
Qed.

(** A path that a derived object declares. *)
Definition declared_as (dir : string) (ds : list WASMPluginDerivedObject) (path : list string) : Prop :=
  ∃ d full, d ∈ ds ∧ safeOutputPath dir (wd_Path d) = Ok full ∧ path = clean_elements full.

Lemma declared_paths_ok dir files ds paths : declared_paths dir files ds = Ok paths →
  Forall (λ d, ∃ full data, safeOutputPath dir (wd_Path d) = Ok full ∧ files !! clean_elements full = Some (RegularFile data)) ds ∧
  ∀ p, p ∈ paths → declared_as dir ds p ∧ ∃ data, files !! p = Some (RegularFile data).
Proof.
  revert paths. induction ds as [|d ds IH]; intros paths; cbn [declared_paths]; [intros [= <-]; split; [constructor|set_solver]|].
  intros (full & Hfull & H)%result_bind_Ok. cbv beta in H. destruct (files !! clean_elements full) as [[data| |]|] eqn:Hnode; try discriminate.
  apply result_bind_Ok in H as (rest & Hrest & [= <-]). apply IH in Hrest as [Hall Hin]. split; [constructor; [by exists full, data|done]|].
  intros p [->%elem_of_singleton|Hp]%elem_of_union.
  - split; [|by exists data]. exists d, full. split_and!; [by left|done|done].
  - destruct (Hin p Hp) as [(d' & f & Hd & Hf & ->) Hreg]. split; [|done]. exists d', f. split_and!; [by right|done|done].
Qed.

Lemma check_outputs_ok declared lim total entries : 0 <= total → total + sum_Z (node_size <$> entries.*2) <= int64_max →
  check_outputs declared lim total entries = Ok tt →
  Forall (λ e, e.1 ∈ declared) entries ∧ (entries = [] ∨ total + sum_Z (node_size <$> entries.*2) <= lim).
Proof.
  revert total. induction entries as [|[p n] entries IH]; intros total Ht Hsum; [intros _; split; [constructor|by left]|].
  cbn [check_outputs fmap list_fmap snd] in *. rewrite sum_Z_cons in *. pose proof (node_size_nonneg n).
  assert (0 <= sum_Z (node_size <$> entries.*2)) as Hpos.
  { clear. induction (entries.*2) as [|x l IH]; [done|]. cbn [fmap list_fmap]. rewrite sum_Z_cons. pose proof (node_size_nonneg x). lia. }
  assert (add64 total (node_size n) = total + node_size n) as Hadd by (apply wrap64_id; unfold in_int64, int64_min; lia).
  assert ((if negb (bool_decide (p ∈ declared)) then Err (ErrText ("plugin wrote undeclared output " +:+ quoted (String "/" (string_join "/" p))))
           else if lim <? add64 total (node_size n) then Err (ErrText ("plugin output exceeds " +:+ itoa lim +:+ " bytes"))
                else check_outputs declared lim (add64 total (node_size n)) entries) = Ok tt →
          Forall (λ e, e.1 ∈ declared) ((p, n) :: entries) ∧ ((p, n) :: entries = [] ∨ total + (node_size n + sum_Z (node_size <$> entries.*2)) <= lim)) as Hstep.
  { rewrite Hadd. destruct (bool_decide_reflect (p ∈ declared)) as [Hin|]; [|discriminate]. cbn [negb].
    destruct (Z.ltb_spec lim (total + node_size n)) as [|Hle]; [discriminate|]. intros Hrest. apply IH in Hrest as [Hall Hlim]; [|lia|lia].
    split; [by constructor|]. right. destruct Hlim as [->|Hlim]; [cbn; lia|lia]. }
  destruct n; [exact Hstep|discriminate|exact Hstep].
Qed.

Lemma walk_perm files : walk files ≡ₚ map_to_list files.
Proof. apply order_by_perm. Qed.

Lemma validateOutputs_ok dir files ds lim : output_size files <= int64_max → validateOutputs dir files ds lim = Ok tt →
  Forall (λ d, ∃ full data, safeOutputPath dir (wd_Path d) = Ok full ∧ files !! clean_elements full = Some (RegularFile data)) ds ∧
  map_Forall (λ p n, declared_as dir ds p ∧ ∃ data, n = RegularFile data) files ∧ output_size files <= lim.
Proof.
  intros Hsize. unfold validateOutputs. destruct (Z.leb_spec lim 0); [discriminate|].
  intros (paths & Hpaths & H1)%result_bind_Ok. cbv beta in H1. apply declared_paths_ok in Hpaths as [Hall Hin].
  destruct (check_outputs paths lim 0 (walk files)) as [[]|] eqn:Hcheck; [|discriminate]. clear H1.
  assert (sum_Z (node_size <$> (walk files).*2) = output_size files) as Hsum.
  { unfold output_size, sum_of, rows. apply sum_Z_perm. by rewrite walk_perm. }
  apply check_outputs_ok in Hcheck as [Hdecl Hlim]; [|done|lia]. split_and!; [done| |].
  - intros p n Hp. rewrite Forall_forall in Hdecl. assert (p ∈ paths) as Hpp.
    { apply (Hdecl (p, n)). rewrite walk_perm. by apply elem_of_map_to_list. }
    destruct (Hin p Hpp) as [Hd (data & Hdata)]. split; [done|]. exists data. congruence.
  - rewrite Hsum in Hlim. destruct Hlim as [Hnil|]; [|lia]. rewrite <- Hsum, Hnil. cbn. lia.
Qed.

(** ** Executions *)

(** What the service relies on when it applies the result of a plugin. *)
Record well_formed (plugin : WASMPlugin) (source : PluginSource) (e : Execution) : Prop := {
  wf_version : wr_ABIVersion (ex_Result e) = WASMPluginABIV1;
  wf_operations : Forall (accepted_operation (wp_OperationPolicy plugin) source) (wr_Operations (ex_Result e));
  wf_operation_count : (List.length (wr_Operations (ex_Result e)) ≤ 32)%nat;
  wf_derived_count : (List.length (wr_DerivedObjects (ex_Result e)) ≤ 32)%nat;
  wf_derived : Forall (λ d, is_ok (OpenDerived e (wd_Path d)) = true) (wr_DerivedObjects (ex_Result e));
  wf_embedding_count : (List.length (wr_Embeddings (ex_Result e)) ≤ 128)%nat;
  wf_embeddings : Forall (λ x, validateStoredEmbedding x = Ok tt) (wr_Embeddings (ex_Result e));
  wf_files : map_Forall (λ p n, declared_as (ex_OutputDir e) (wr_DerivedObjects (ex_Result e)) p ∧ ∃ data, n = RegularFile data) (ex_files e);
  wf_inside : map_Forall (λ p _, ∃ rest, rest ≠ [] ∧ Forall (λ x, proper_element x = true) rest ∧ p = clean_elements (ex_OutputDir e) ++ rest) (ex_files e);
  wf_size : output_size (ex_files e) <= wp_MaxOutputBytes plugin }.

Section runtime.
Context `{!WasmHost}.

Lemma check_result_wf plugin object dir files stdout e : rooted dir → output_size files <= int64_max →
  check_result plugin object dir files stdout = Ok e → well_formed plugin (MkPluginSource (wb_Bucket object) (wb_Key object)) e.
Proof.
  intros Hdir Hsize Hok. unfold check_result in Hok. split_ok Hok as u0 E0. split_ok Hok as r E1. split_ok Hok as u2 E2. split_ok Hok as ops Hops.
  split_ok Hok as u3 Hderived. split_ok Hok as embs Hemb. split_ok Hok as u4 Hout. injection Hok as <-. destruct u4.
  apply negb_false_iff, String.eqb_eq in E2. apply validateOutputs_ok in Hout as (Hopen & Hfiles & Hlim); [|done].
  assert (List.length ops ≤ 32 ∧ Forall (accepted_operation (wp_OperationPolicy plugin) (MkPluginSource (wb_Bucket object) (wb_Key object))) ops)%nat as [Hlen Hacc].
  { unfold ValidateOperations in Hops. destruct (wr_Operations r) as [|o os]; [injection Hops as <-; split; [cbn; lia|constructor]|].
    destruct (operation_limit _ <? _) eqn:Hmax; [discriminate|]. apply validate_operations_ok in Hops as (Hl & _ & _ & Ha). split; [|done].
    rewrite Hl. unfold operation_limit, maxOperations in Hmax. lia. }
  unfold validateEmbeddings, maxEmbeddings in Hemb. destruct (Z.ltb_spec 128 (Z.of_nat (List.length (wr_Embeddings r)))); [discriminate|].
  apply validate_embeddings_stored in Hemb as [Hel Hstored]. unfold maxDerivedObjects in Hderived.
  split; cbn [ex_Result ex_OutputDir ex_files]; rsimpl; try done; try lia.
  - eapply Forall_impl; [exact Hopen|]. intros d (full & data & Hf & Hn). unfold OpenDerived. cbn [ex_OutputDir ex_files]. rewrite Hf. cbn [result_bind]. by rewrite Hn.
  - intros p n Hp. destruct (Hfiles p n Hp) as [(d & full & _ & Hf & ->) _].
    apply safeOutputPath_inside in Hf as [_ (rest & ?)]; [by exists rest|done].
Qed.

Lemma workspace_rooted name : rooted wz_tempRoot → rooted (output_dir name).
Proof.
  intros Hroot. unfold output_dir. assert (∀ d x, rooted d → rooted (filepath_join [d; x])) as Hjoin; [|by do 2 apply Hjoin].
  intros d x Hd. assert (d ≠ "") as Hne by (intros ->; done). cbn [filepath_join]. rewrite (proj2 (String.eqb_neq _ _) Hne).
  apply clean_rooted. rewrite string_join_cons. unfold rooted. by rewrite has_prefix_byte.
Qed.

(** C22. An execution that the runtime returns is well-formed, whatever the module
    did: the result has the supported version, its operations stay in the
    policy of the plugin, the store accepts every embedding, every derived
    object can be opened, and the output directory holds nothing but the
    declared regular files, inside of it and within the size limit. *)
Theorem execution_well_formed `{Env} module plugin invocation input w e w' :
  rooted wz_tempRoot → (∀ ms i data, output_size (ro_files (wz_run ms module i data)) <= int64_max) →
  Execute module plugin invocation input w = (Ok e, w') →
  well_formed plugin (MkPluginSource (wb_Bucket (wi_Object invocation)) (wb_Key (wi_Object invocation))) e.
Proof.
  intros Hroot Hsize Hrun. unfold Execute in Hrun.
  run_inv Hrun as [] w1 _. run_inv Hrun as name w2 _. run_inv Hrun as [] w3 _. run_inv Hrun as [] w4 _. run_inv Hrun as [] w5 _.
  run_inv Hrun as data w6 _. run_inv Hrun as [] w7 _. destruct (_ && _); [discriminate|]. unfold lift, ret in Hrun. injection Hrun as Hrun _.
  revert Hrun. set (dir := output_dir name). assert (rooted dir) as Hdir by (by apply workspace_rooted). clearbody dir.
  unfold run_module. set (inv := invocation <| wi_ABIVersion := _ |> <| wi_Object := _ |> <| wi_OutputDir := _ |> <| wi_Operations := _ |>).
  intros H1. split_ok H1 as c E1. split_ok H1 as u2 E2. split_ok H1 as u3 E3. split_ok H1 as u4 E4. cbv zeta in H1.
  destruct (run_error _ _); [discriminate|]. apply check_result_wf in H1; [|done|].
  - exact H1.
  - by rewrite output_size_kmap by apply _.
Qed.
End runtime.

(** A plugin that writes one derived object. *)
Definition demo_host : WasmHost :=
  {| wz_tempRoot := "/tmp";
     wz_compile := λ _ _, Ok (MkCompiledModule ["_start"] [("wasi_snapshot_preview1", "fd_write")] 0);
     wz_instantiateWASI := Ok tt;
     wz_instantiateAssemblyScript := Ok tt;
     wz_run := λ _ _ _ data, MkRunOutcome None ["{}"] [] {[ ["thumb"; "a.txt"] := RegularFile "abc" ]};
     wz_decode := λ _, Ok (zero_WASMPluginResult <| wr_ABIVersion := WASMPluginABIV1 |>
                             <| wr_DerivedObjects := [MkWASMPluginDerivedObject "thumb/./a.txt" "" ".thumb" "" ∅ ∅] |>) |}.

Definition demo_plugin : WASMPlugin :=
  zero_WASMPlugin <| wp_ID := "thumbs" |> <| wp_MaxInputBytes := 10 |> <| wp_MaxOutputBytes := 10 |> <| wp_MemoryLimitBytes := 65536 |>.

Definition demo_invocation : WASMPluginInvocation :=
  MkWASMPluginInvocation "" WASMPluginEventObjectCreated "job" (MkWASMPluginObject "b" "k" 2 "" "" "" ∅ ∅ "") "" ∅ zero_WASMPluginOperationPolicy.

Lemma execution_well_formed_witness :
  let E := demo_env in let H := demo_host in
  ∃ e w', Execute "module" demo_plugin demo_invocation (MkReader "hi" None) (start empty_DB) = (Ok e, w') ∧
          well_formed demo_plugin (MkPluginSource "b" "k") e.
Proof.
  intros E H. assert (∃ e w', Execute "module" demo_plugin demo_invocation (MkReader "hi" None) (start empty_DB) = (Ok e, w')) as (e & w' & Hrun).
  { do 2 eexists. vm_compute. reflexivity. }
  exists e, w'. split; [exact Hrun|].
  refine (execution_well_formed "module" demo_plugin demo_invocation (MkReader "hi" None) (start empty_DB) e w' _ _ Hrun); [reflexivity|].
  intros ms i data. vm_compute. discriminate.
Defined.
