(* ===== verification/Plugins.v ===== *)
(** WASM plugins, [store/wasm_plugins.go] and the registration and queueing
    half of [app/wasm_plugins.go]: what a valid plugin is, which plugins an
    object event reaches, and the jobs queued for it, once per generation. *)
From S2P Require Import Prelude GoTime Sha256 Json Text Base64 Mime Domain ProviderErrors World Sql StoreProviders StoreObjects StoreEvents Embeddings Operations Placement Providers Hooks Service Runtime.

Definition wasmPluginMaxTimeout : Duration := 10 * minute.
Definition wasmPluginMaxMemoryBytes : Z := 2 ^ 30.
Definition wasmPluginMaxOperations : Z := 32.

(** ** The tables *)

Definition upsert_plugin_row (plugin : WASMPlugin) (d : DB) : DB :=
  d <| db_plugins ::= λ m,
    <[wp_ID plugin := match m !! wp_ID plugin with
                      | Some old => plugin <| wp_CreatedAt := wp_CreatedAt old |>
                      | None => plugin
                      end]> m |>.

(** The transaction; the jobs of the plugin go with its row. *)
Definition delete_plugin_tx (id : string) (d : DB) : DB :=
  d <| db_embeddings ::= delete_where (λ e, (oe_PluginID (er_embedding e) =? id)%string) |>
    <| db_plugins ::= delete id |>
    <| db_jobs ::= delete_where (λ j, (wj_PluginID j =? id)%string) |>.

(** INSERT ... ON CONFLICT(dedupe_key) DO NOTHING, and whether it inserted. *)
Definition create_plugin_job_row (job : WASMPluginJob) (d : DB) : result (bool * DB) :=
  if existsb (λ j, (wj_DedupeKey j =? wj_DedupeKey job)%string) (rows (db_jobs d)) then Ok (false, d)
  else match db_jobs d !! wj_ID job, db_plugins d !! wj_PluginID job with
       | Some _, _ => Err (constraint_failed "UNIQUE")
       | _, None => Err (constraint_failed "FOREIGN KEY")
       | None, Some _ => Ok (true, d <| db_jobs ::= insert (wj_ID job) job |>)
       end.

Definition claimable_plugin_jobs (t : Time) (d : DB) : list string :=
  wj_ID <$> limit 5 (order_by (by_time wj_NextAttemptAt)
    (where_ (λ j, (wj_Status j =? WASMPluginStatusPending)%string && sql_time_le (wj_NextAttemptAt j) t) (rows (db_jobs d)))).

Definition update_plugin_job_row (id : string) (P : WASMPluginJob → bool) (f : WASMPluginJob → WASMPluginJob) (d : DB) : Z * DB :=
  let changed := update_row id P f (db_jobs d) in
  (changed.1, d <| db_jobs := changed.2 |>).

Definition claim_plugin_job_row (id : string) (t : Time) : DB → Z * DB :=
  update_plugin_job_row id (λ j, (wj_Status j =? WASMPluginStatusPending)%string)
    (λ j, j <| wj_Status := WASMPluginStatusRunning |> <| wj_Attempts ::= Z.add 1 |> <| wj_UpdatedAt := t |>).

Definition save_plugin_job (t : Time) (job old : WASMPluginJob) : WASMPluginJob :=
  old <| wj_Status := wj_Status job |> <| wj_Attempts := wj_Attempts job |> <| wj_MaxAttempts := wj_MaxAttempts job |>
      <| wj_NextAttemptAt := wj_NextAttemptAt job |> <| wj_LastError := wj_LastError job |> <| wj_ResultJSON := wj_ResultJSON job |>
      <| wj_FinishedAt := wj_FinishedAt job |> <| wj_UpdatedAt := t |>.

Section store.
Context `{Env}.

Definition UpsertWASMPlugin_store (plugin : WASMPlugin) : M (result unit) :=
  let! t := now in
  let plugin := if is_zero (wp_CreatedAt plugin) then plugin <| wp_CreatedAt := t |> else plugin in
  wrap_err "upsert wasm plugin" (sql_write (λ d, Ok (upsert_plugin_row (plugin <| wp_UpdatedAt := t |>) d))).

Definition GetWASMPlugin (id : string) : M (result WASMPlugin) :=
  sql_read (λ d, match db_plugins d !! id with Some p => Ok p | None => not_found end).

Definition ListWASMPlugins (enabledOnly : bool) : M (result (list WASMPlugin)) :=
  sql_read (λ d, Ok (order_by (then_by (by_text wp_Name) (by_text wp_ID))
    (where_ (λ p, negb enabledOnly || wp_Enabled p) (rows (db_plugins d))))).

Definition DeleteWASMPlugin (id : string) : M (result unit) := sql_write (λ d, Ok (delete_plugin_tx id d)).

Definition CreateWASMPluginJob (job : WASMPluginJob) : M (result bool) :=
  let! t := now in
  let job := if is_zero (wj_CreatedAt job) then job <| wj_CreatedAt := t |> else job in
  let job := job <| wj_UpdatedAt := t |> in
  let job := if is_zero (wj_NextAttemptAt job) then job <| wj_NextAttemptAt := t |> else job in
  let job := if (wj_Status job =? "")%string then job <| wj_Status := WASMPluginStatusPending |> else job in
  sql (create_plugin_job_row job).

Definition GetWASMPluginJob (id : string) : M (result WASMPluginJob) :=
  sql_read (λ d, match db_jobs d !! id with Some j => Ok j | None => not_found end).

Definition ListWASMPluginJobs (lim : Z) : M (result (list WASMPluginJob)) :=
  let lim := if (lim <=? 0) || (200 <? lim) then 50 else lim in
  sql_read (λ d, Ok (limit lim (order_by (desc (by_time wj_CreatedAt)) (rows (db_jobs d))))).

(** The first of the candidates that is still pending. *)
Fixpoint claim_plugin_jobs (ids : list string) (t : Time) : M (result (option WASMPluginJob)) :=
  match ids with
  | [] => ret_ok None
  | id :: rest =>
      let? changed := sql (λ d, Ok (claim_plugin_job_row id t d)) in
      if changed =? 1 then let? j := GetWASMPluginJob id in ret_ok (Some j) else claim_plugin_jobs rest t
  end.

Definition ClaimNextWASMPluginJob (t : Time) : M (result (option WASMPluginJob)) :=
  let? ids := sql_read (λ d, Ok (claimable_plugin_jobs t d)) in
  claim_plugin_jobs ids t.

Definition UpdateWASMPluginJob (job : WASMPluginJob) : M (result unit) :=
  let! t := now in
  sql_write (λ d, Ok (update_plugin_job_row (wj_ID job) (λ _, true) (save_plugin_job t job) d).2).

Definition TouchWASMPluginJob (id : string) : M (result unit) :=
  let! t := now in
  let? changed := sql (λ d, Ok (update_plugin_job_row id (λ j, (wj_Status j =? WASMPluginStatusRunning)%string)
                                  (λ j, j <| wj_UpdatedAt := t |>) d)) in
  if negb (changed =? 1) then ret not_found else ret_ok tt.

Definition stale_plugin_job (cutoff : Time) (j : WASMPluginJob) : bool :=
  (wj_Status j =? WASMPluginStatusRunning)%string && sql_time_lt (wj_UpdatedAt j) cutoff.

Definition RecoverStaleWASMPluginJobs (cutoff : Time) : M (result Z) :=
  let! next := now in
  let! updated := now in
  sql (λ d, Ok (count_where (stale_plugin_job cutoff) (db_jobs d),
    d <| db_jobs ::= update_where (stale_plugin_job cutoff) (λ j, j <| wj_Status := WASMPluginStatusPending |>
           <| wj_LastError := "recovered after worker interruption" |> <| wj_NextAttemptAt := next |> <| wj_UpdatedAt := updated |>) |>)).
End store.

(** ** Registration *)

Fixpoint unique_strings (seen values : list string) : list string :=
  match values with
  | [] => []
  | value :: rest =>
      let value := trim_space value in
      if (value =? "")%string || existsb (String.eqb value) seen then unique_strings seen rest
      else value :: unique_strings (value :: seen) rest
  end.

Definition uniqueStrings (values : list string) : list string := unique_strings [] values.

Definition mergeStringMaps (base additions : gmap string string) : gmap string string := additions ∪ base.

Definition patchStringMap (base additions : gmap string string) (removals : list string) : gmap string string :=
  fold_left (λ m key, delete key m) removals (mergeStringMaps base additions).

Definition known_operation (op : string) : bool :=
  (op =? WASMPluginOperationMetadataPatch)%string || (op =? WASMPluginOperationTagsPatch)%string
  || (op =? WASMPluginOperationObjectCopy)%string || (op =? WASMPluginOperationObjectDelete)%string.

Definition bad_pattern (pattern : string) : bool := match path_match pattern "bucket" with None => true | Some _ => false end.

Definition clean_key_prefix (prefix : string) : string := trim_left_byte "/" (trim_space prefix).

Definition bad_key_prefix (prefix : string) : bool :=
  (prefix =? "")%string || (prefix =? ".")%string || (prefix =? "..")%string || has_prefix (path_clean prefix) "../".

Definition syntax_error : error := ErrText "syntax error in pattern".

(** [for _, x := range l { if bad(x) { return error } }] *)
Definition no_bad {A} (bad : A → bool) (msg : A → error) (l : list A) : result unit :=
  match List.find bad l with Some x => Err (msg x) | None => Ok tt end.

Section registration.
Context `{Env}.

Definition trim_plugin (plugin : WASMPlugin) : WASMPlugin :=
  plugin <| wp_ID ::= trim_space |> <| wp_Name ::= trim_space |> <| wp_ABIVersion ::= trim_space |>
         <| wp_BucketPattern ::= trim_space |> <| wp_KeyPrefix ::= λ p, trim_left_byte "/" (trim_space p) |>
         <| wp_KeySuffix ::= trim_space |>.

(** The limits that are not set come from the configuration. *)
Definition default_limits (plugin : WASMPlugin) : WASMPlugin :=
  let max := cfg_MaxUploadBytes env_config in
  let plugin := if wp_TimeoutMillis plugin <=? 0 then plugin <| wp_TimeoutMillis := cfg_DefaultTimeoutMillis env_config |> else plugin in
  let plugin := if wp_MemoryLimitBytes plugin <=? 0 then plugin <| wp_MemoryLimitBytes := cfg_DefaultMemoryLimitBytes env_config |> else plugin in
  let plugin := if wp_MaxInputBytes plugin <=? 0 then plugin <| wp_MaxInputBytes := Z.min (cfg_DefaultMaxInputBytes env_config) max |> else plugin in
  let plugin := if wp_MaxOutputBytes plugin <=? 0 then plugin <| wp_MaxOutputBytes := Z.min (cfg_DefaultMaxOutputBytes env_config) max |> else plugin in
  if wp_MaxAttempts plugin <=? 0 then plugin <| wp_MaxAttempts := cfg_DefaultMaxAttempts env_config |> else plugin.

Definition check_limits (plugin : WASMPlugin) : result unit :=
  let max := cfg_MaxUploadBytes env_config in
  if wasmPluginMaxTimeout <? duration_mul (wp_TimeoutMillis plugin) 1000000 then Err (ErrText "plugin timeout cannot exceed 10m0s")
  else if wasmPluginMaxMemoryBytes <? wp_MemoryLimitBytes plugin then Err (ErrText "plugin memory limit cannot exceed 1073741824 bytes")
  else if (max <? wp_MaxInputBytes plugin) || (max <? wp_MaxOutputBytes plugin)
  then Err (ErrText "plugin input and output limits cannot exceed server.max_upload_bytes")
  else Ok tt.

Definition normalize_policy (policy : WASMPluginOperationPolicy) : result WASMPluginOperationPolicy :=
  let policy := policy <| wpp_AllowedOperations ::= uniqueStrings |> in
  try! _ := no_bad (λ op, negb (known_operation op)) (λ op, ErrText ("unsupported plugin operation " +:+ quoted op)) (wpp_AllowedOperations policy) in
  let policy := policy <| wpp_BucketPatterns ::= uniqueStrings |> in
  try! _ := no_bad bad_pattern (λ p, ErrWrap ("invalid operation bucket pattern " +:+ quoted p) syntax_error) (wpp_BucketPatterns policy) in
  let policy := policy <| wpp_KeyPrefixes ::= λ l, map clean_key_prefix (uniqueStrings l) |> in
  try! _ := no_bad bad_key_prefix (λ p, ErrText ("invalid operation key prefix " +:+ quoted p)) (wpp_KeyPrefixes policy) in
  let policy := if wpp_MaxOperations policy <=? 0 then policy <| wpp_MaxOperations := 16 |> else policy in
  if wasmPluginMaxOperations <? wpp_MaxOperations policy then Err (ErrText "plugin operation maximum cannot exceed 32")
  else Ok policy.

(** What the fields that are not set become. *)
Definition default_abi (plugin : WASMPlugin) : WASMPlugin :=
  if (wp_ABIVersion plugin =? "")%string then plugin <| wp_ABIVersion := WASMPluginABIV1 |> else plugin.
Definition default_pattern (plugin : WASMPlugin) : WASMPlugin :=
  if (wp_BucketPattern plugin =? "")%string then plugin <| wp_BucketPattern := "*" |> else plugin.
Definition default_events (plugin : WASMPlugin) : WASMPlugin :=
  match wp_Events plugin with [] => plugin <| wp_Events := [WASMPluginEventObjectCreated] |> | _ => plugin end.

Definition normalizeWASMPlugin (plugin : WASMPlugin) : result WASMPlugin :=
  let plugin := trim_plugin plugin in
  try! _ := guard_err ((wp_ID plugin =? "")%string || (wp_Name plugin =? "")%string || (wp_ModuleBase64 plugin =? "")%string)
              "plugin id, name and module_base64 are required" in
  let plugin := default_abi plugin in
  try! _ := guard_err (negb (wp_ABIVersion plugin =? WASMPluginABIV1)%string) ("unsupported wasm ABI " +:+ quoted (wp_ABIVersion plugin)) in
  let plugin := default_pattern plugin in
  try! _ := (if bad_pattern (wp_BucketPattern plugin) then Err (ErrWrap "invalid bucket pattern" syntax_error) else Ok tt) in
  let plugin := default_events plugin in
  try! _ := no_bad (λ e, negb (e =? WASMPluginEventObjectCreated)%string) (λ e, ErrText ("unsupported plugin event " +:+ quoted e)) (wp_Events plugin) in
  let plugin := default_limits plugin in
  try! _ := check_limits plugin in
  let plugin := plugin <| wp_Events ::= uniqueStrings |> <| wp_ContentTypes ::= uniqueStrings |> in
  try! policy := normalize_policy (wp_OperationPolicy plugin) in
  Ok (plugin <| wp_OperationPolicy := policy |>).

Context `{!WasmHost}.

(** The module of a plugin, decoded and within the limit. *)
Definition plugin_module (plugin : WASMPlugin) : result string :=
  let limit := cfg_MaxModuleBytes env_config in
  if add64 (Z.quot (mul64 limit 4) 3) 4 <? Z.of_nat (String.length (wp_ModuleBase64 plugin))
  then Err (ErrText "base64 wasm module exceeds the configured module limit")
  else match base64std_decode (wp_ModuleBase64 plugin) with
       | None => Err (ErrWrap "decode wasm module" (ErrText "illegal base64 data"))
       | Some bytes =>
           if limit <? Z.of_nat (List.length bytes) then Err (ErrText ("wasm module exceeds " +:+ itoa limit +:+ " bytes"))
           else Ok (text_of_bytes bytes)
       end.

Definition validateWASMModule (module : string) (plugin : WASMPlugin) : result unit := Validate module plugin.

Definition ValidateWASMPlugin (plugin : WASMPlugin) : result unit :=
  try! plugin := normalizeWASMPlugin plugin in
  try! module := plugin_module plugin in
  validateWASMModule module plugin.

Definition UpsertWASMPlugin (plugin : WASMPlugin) : M (result unit) :=
  let? plugin := lift (normalizeWASMPlugin plugin) in
  let? module := lift (plugin_module plugin) in
  let plugin := plugin <| wp_ModuleSHA256 := sha256_hex module |> in
  let? _ := lift (validateWASMModule module plugin) in
  UpsertWASMPlugin_store plugin.
End registration.

(** ** Queueing *)

Definition content_type_matches (contentType pattern : string) : bool :=
  (pattern =? "*/*")%string || equal_fold pattern contentType
  || has_suffix pattern "/*" && has_prefix (to_lower contentType) (trim_suffix (to_lower pattern) "*").

Definition wasmPluginMatches (plugin : WASMPlugin) (event : string) (object : ObjectRecord) : bool :=
  if negb (existsb (String.eqb event) (wp_Events plugin)) || negb (has_prefix (o_Key object) (wp_KeyPrefix plugin))
     || negb (has_suffix (o_Key object) (wp_KeySuffix plugin)) then false
  else match path_match (wp_BucketPattern plugin) (o_Bucket object) with
       | Some true =>
           match wp_ContentTypes plugin with
           | [] => true
           | patterns => existsb (content_type_matches (media_type (o_ContentType object))) patterns
           end
       | _ => false
       end.

(** What identifies the work of a plugin on one generation of an object. *)
Definition plugin_dedupe_key (pluginID event : string) (object : ObjectRecord) : string :=
  sha256_hex (string_join nul [pluginID; event; o_Bucket object; o_Key object;
    o_ChecksumSHA256 object +:+ nul +:+ o_ETag object +:+ nul +:+ time_text (o_UpdatedAt object)]).

Section queueing.
Context `{Env}.

Definition plugin_job (plugin : WASMPlugin) (event : string) (object : ObjectRecord) (id : string) : WASMPluginJob :=
  zero_WASMPluginJob <| wj_ID := id |> <| wj_PluginID := wp_ID plugin |> <| wj_Event := event |>
    <| wj_Bucket := o_Bucket object |> <| wj_Key := o_Key object |> <| wj_SourceChecksum := o_ChecksumSHA256 object |>
    <| wj_SourceUpdatedAt := o_UpdatedAt object |> <| wj_DedupeKey := plugin_dedupe_key (wp_ID plugin) event object |>
    <| wj_MaxAttempts := wp_MaxAttempts plugin |>.

(** The jobs of the plugins that match; the worker is woken afterwards. *)
Definition enqueue_plugins (event : string) (object : ObjectRecord) (plugins : list WASMPlugin) : M (result unit) :=
  for_each_ok plugins (λ plugin,
    if wasmPluginMatches plugin event object then
      let! id := randomIdentifier "wasm-job-" 12 in
      let? _ := CreateWASMPluginJob (plugin_job plugin event object id) in ret_ok tt
    else ret_ok tt).

Definition enqueueWASMPlugins_service (event : string) (object : ObjectRecord) : M (result unit) :=
  let? persisted := GetObject_store (o_Bucket object) (o_Key object) in
  let object := object <| o_CreatedAt := o_CreatedAt persisted |> <| o_UpdatedAt := o_UpdatedAt persisted |> in
  let? plugins := ListWASMPlugins true in
  enqueue_plugins event object plugins.
End queueing.

(** ** The pipelines of the service *)

Section frames.
Context `{Env}.

Lemma create_plugin_job_frame (R : DB → DB → Prop) `{!PreOrder R} job :
  (∀ d f, R d (d <| db_jobs ::= f |>)) → pres (on_db R) (CreateWASMPluginJob job).
Proof.
  intros HR. unfold CreateWASMPluginJob. apply pres_bind; [apply _|apply pres_now, _|]. intros t. apply pres_sql; [apply _|].
  intros d b d'. unfold create_plugin_job_row. destruct (existsb _ _); [by intros [= _ <-]|].
  destruct (db_jobs d !! _); [discriminate|]. destruct (db_plugins d !! _); [|discriminate]. intros [= _ <-]. apply HR.
Qed.

Lemma enqueue_frame (R : DB → DB → Prop) `{!PreOrder R} event object :
  (∀ d f, R d (d <| db_jobs ::= f |>)) → pres (on_db R) (enqueueWASMPlugins_service event object).
Proof.
  intros HR. unfold enqueueWASMPlugins_service, enqueue_plugins, ListWASMPlugins. pres_auto. by apply create_plugin_job_frame.
Qed.

Lemma enqueue_only_jobs event object : pres (on_db (same (λ d, (db_providers d, db_reservations d, db_objects d, db_attributes d, db_versions d,
    db_trash d, db_buckets d, db_replicas d, db_uploads d, db_parts d)))) (enqueueWASMPlugins_service event object).
Proof. apply enqueue_frame; [apply _|]. done. Qed.

Lemma enqueue_same_calls event object : pres same_calls (enqueueWASMPlugins_service event object).
Proof. unfold enqueueWASMPlugins_service, enqueue_plugins, ListWASMPlugins, CreateWASMPluginJob. pres_auto. Qed.

Lemma enqueue_same_files event object : pres same_files (enqueueWASMPlugins_service event object).
Proof. unfold enqueueWASMPlugins_service, enqueue_plugins, ListWASMPlugins, CreateWASMPluginJob. pres_auto. Qed.

Lemma enqueue_part (R : DB → DB → Prop) event object :
  (∀ d d', same (λ d, (db_providers d, db_reservations d, db_objects d, db_attributes d, db_versions d,
    db_trash d, db_buckets d, db_replicas d, db_uploads d, db_parts d)) d d' → R d d') →
  pres (on_db R) (enqueueWASMPlugins_service event object).
Proof. intros HR w. apply HR, enqueue_only_jobs. Qed.
End frames.

(** Queueing the jobs of plugins is what the service needs of its pipelines. *)
#[global] Program Instance plugin_pipelines `{Env} : Pipelines | 10 := {| enqueueWASMPlugins := enqueueWASMPlugins_service |}.
Next Obligation. intros. apply enqueue_part. intros d d' [= E1 E2 _ _ _ _ _ _ _ _]. split; congruence. Qed.
Next Obligation. intros. apply enqueue_same_calls. Qed.
Next Obligation. intros. apply enqueue_part. intros d d' [= _ _ E3 E4 E5 E6 E7 E8 _ _]. unfold same_objects. split_and!; congruence. Qed.
Next Obligation. intros. apply enqueue_part. intros d d' [= _ _ _ _ _ _ _ _ E9 E10]. unfold same. congruence. Qed.
Next Obligation. intros. apply enqueue_same_files. Qed.
