(* ===== verification/PluginsFacts.v ===== *)
(** Theorems about plugins: what a registered plugin is, and that an event is
    queued exactly once for each plugin it reaches. *)
From S2P Require Import Prelude GoTime Sha256 Json Text Base64 Mime Domain ProviderErrors World Sql StoreProviders StoreObjects StoreEvents Operations Placement Demo Providers Hooks Service Embeddings Runtime RuntimeFacts Plugins.

(** ** Queueing *)

(** A job for this work is in the table. *)
Definition queued (key : string) (d : DB) : Prop := ∃ id j, db_jobs d !! id = Some j ∧ wj_DedupeKey j = key.

(** No work is queued twice. *)
Definition jobs_deduped (d : DB) : Prop :=
  ∀ i j a b, db_jobs d !! i = Some a → db_jobs d !! j = Some b → wj_DedupeKey a = wj_DedupeKey b → i = j.

Lemma queued_existsb key d : existsb (λ j, (wj_DedupeKey j =? key)%string) (rows (db_jobs d)) = true ↔ queued key d.
Proof.
  split.
  - intros (j & Hj & Hk%String.eqb_eq)%existsb_elem. apply elem_of_rows in Hj as [id Hj]. by exists id, j.
  - intros (id & j & Hj & Hk). apply existsb_exists. exists j. split; [|by apply String.eqb_eq].
    apply list_elem_of_In, elem_of_rows. by exists id.
Qed.

Lemma queued_row job d b d' : create_plugin_job_row job d = Ok (b, d') →
  queued (wj_DedupeKey job) d' ∧ (∀ key, queued key d → queued key d') ∧ (jobs_deduped d → jobs_deduped d').
Proof.
  unfold create_plugin_job_row. destruct (existsb _ _) eqn:Hex; [intros [= _ <-]; by apply queued_existsb in Hex|].
  assert (¬ queued (wj_DedupeKey job) d) as Hnew by (intros Hq%queued_existsb; congruence).
  destruct (db_jobs d !! wj_ID job) eqn:Hid; [discriminate|]. destruct (db_plugins d !! _); [|discriminate].
  intros [= _ <-]. split_and!.
  - exists (wj_ID job), job. rsimpl. by rewrite lookup_insert_eq.
  - intros key (id & j & Hj & Hk). exists id, j. rsimpl. rewrite lookup_insert_ne by congruence. done.
  - intros Hd i j a c. rsimpl. rewrite !lookup_insert_Some. intros [[<- <-]|[Hi Ha]] [[<- <-]|[Hj Hc]] Heq; [done| | |by eapply Hd].
    + exfalso. apply Hnew. by exists j, c.
    + exfalso. apply Hnew. by exists i, a.
Qed.

(** What tells the work of a plugin on one generation of an object from all
    other work: the plugin, the event, the place, and what the place holds. *)
Definition work_text (pluginID event : string) (object : ObjectRecord) : string :=
  string_join nul [pluginID; event; o_Bucket object; o_Key object; o_ChecksumSHA256 object; o_ETag object; time_text (o_UpdatedAt object)].

(** A job is for this work. *)
Definition work_of (pluginID event : string) (object : ObjectRecord) (j : WASMPluginJob) : Prop :=
  wj_PluginID j = pluginID ∧ wj_Event j = event ∧ wj_Bucket j = o_Bucket object ∧ wj_Key j = o_Key object
  ∧ wj_SourceChecksum j = o_ChecksumSHA256 object ∧ time_text (wj_SourceUpdatedAt j) = time_text (o_UpdatedAt object).

(** No text of it has a NUL, which separates them. *)
Definition plain_work (pluginID event : string) (object : ObjectRecord) : Prop :=
  Forall (λ s, no_byte "000" s = true) [pluginID; event; o_Bucket object; o_Key object; o_ChecksumSHA256 object; o_ETag object].

(** Every job is filed under the hash of its own work. *)
Definition jobs_keyed (d : DB) : Prop :=
  ∀ id j, db_jobs d !! id = Some j → ∃ object, work_of (wj_PluginID j) (wj_Event j) object j
    ∧ plain_work (wj_PluginID j) (wj_Event j) object
    ∧ wj_DedupeKey j = sha256_hex (work_text (wj_PluginID j) (wj_Event j) object).

Lemma join_nul a b l : string_join nul (a :: b :: l) = a +:+ String "000" (string_join nul (b :: l)).
Proof. rewrite string_join_cons. done. Qed.

Lemma work_text_inj id1 event1 o1 id2 event2 o2 : plain_work id1 event1 o1 → plain_work id2 event2 o2 →
  work_text id1 event1 o1 = work_text id2 event2 o2 →
  id1 = id2 ∧ event1 = event2 ∧ o_Bucket o1 = o_Bucket o2 ∧ o_Key o1 = o_Key o2 ∧ o_ChecksumSHA256 o1 = o_ChecksumSHA256 o2
  ∧ time_text (o_UpdatedAt o1) = time_text (o_UpdatedAt o2).
Proof.
  unfold plain_work, work_text. rewrite !Forall_cons. intros (?&?&?&?&?&?&_) (?&?&?&?&?&?&_) Heq. rewrite !join_nul in Heq.
  apply (f_equal (string_split "000")) in Heq. rewrite !string_split_app in Heq by done.
  injection Heq as -> -> -> -> -> _ Ht. apply (f_equal (string_join nul)) in Ht. unfold nul in Ht.
  rewrite !string_join_split in Ht. by split_and!.
Qed.

Lemma dedupe_key_text pluginID event object : plugin_dedupe_key pluginID event object = sha256_hex (work_text pluginID event object).
Proof. reflexivity. Qed.

Section queueing.
Context `{Env}.

(** Everything but the table of jobs. *)
Definition not_jobs (d : DB) : DB := d <| db_jobs := ∅ |>.

Lemma create_job_other job : pres (on_db (same not_jobs)) (CreateWASMPluginJob job).
Proof. apply create_plugin_job_frame; [apply _|]. by intros d f. Qed.

Lemma create_job_queued job : pres (on_db (λ d d', (∀ key, queued key d → queued key d') ∧ (jobs_deduped d → jobs_deduped d'))) (CreateWASMPluginJob job).
Proof.
  assert (PreOrder (λ d d', (∀ key, queued key d → queued key d') ∧ (jobs_deduped d → jobs_deduped d'))).
  { split; [by intros d|]. intros d1 d2 d3 [] []. split; eauto. }
  unfold CreateWASMPluginJob. apply pres_bind; [apply _ | apply pres_now, _ |]. intros t. apply pres_sql; [apply _|].
  intros d b d' Hrow. by apply queued_row in Hrow as (_ & ? & ?).
Qed.

Lemma create_job_keyed p event object id : plain_work (wp_ID p) event object →
  pres (on_db (keeps jobs_keyed)) (CreateWASMPluginJob (plugin_job p event object id)).
Proof.
  intros Hplain. unfold CreateWASMPluginJob. apply pres_bind; [apply _ | apply pres_now, _ |]. intros t. apply pres_sql; [apply _|].
  set (row := if (wj_Status _ =? "")%string then _ else _). intros d b d' Hrow Hk.
  assert (work_of (wp_ID p) event object row ∧ wj_DedupeKey row = sha256_hex (work_text (wp_ID p) event object)) as [Hwork Hkey].
  { rewrite <- dedupe_key_text. unfold row, work_of, plugin_job. clear Hrow. repeat case_match; rsimpl; done. }
  unfold create_plugin_job_row in Hrow. destruct (existsb _ _); [by injection Hrow as _ <-|].
  destruct (db_jobs d !! _); [done|]. destruct (db_plugins d !! _); [|done]. injection Hrow as _ <-.
  intros i j. rsimpl. intros [[_ <-]|[_ Hj]]%lookup_insert_Some; [|by eapply Hk].
  exists object. pose proof Hwork as (-> & -> & _). done.
Qed.

(** The row that is written has the dedupe key of the job. *)
Lemma create_job_run job w : ∃ row w1, wj_DedupeKey row = wj_DedupeKey job ∧ w_db w1 = w_db w ∧
  CreateWASMPluginJob job w = sql (create_plugin_job_row row) w1.
Proof. unfold CreateWASMPluginJob, bind, now. do 2 eexists. split; [|by split; [|reflexivity]]. repeat case_match; done. Qed.

Lemma create_job_done job w b w' : CreateWASMPluginJob job w = (Ok b, w') → queued (wj_DedupeKey job) (w_db w').
Proof.
  destruct (create_job_run job w) as (row & w1 & <- & _ & ->). unfold sql. destruct (env_db_fault _); [discriminate|].
  destruct (create_plugin_job_row row (w_db w1)) as [[c d]|e] eqn:Hrow; [|discriminate]. intros [= _ <-].
  by apply queued_row in Hrow as [? _].
Qed.

Lemma create_job_again job w : queued (wj_DedupeKey job) (w_db w) → db_jobs (w_db (CreateWASMPluginJob job w).2) = db_jobs (w_db w).
Proof.
  destruct (create_job_run job w) as (row & w1 & <- & <- & ->). intros Hq%queued_existsb. unfold sql.
  destruct (env_db_fault _); [done|]. unfold create_plugin_job_row. by rewrite Hq.
Qed.

Context (event : string) (object : ObjectRecord).

(** Every plugin that matches has its work queued. *)
Definition all_queued (plugins : list WASMPlugin) (d : DB) : Prop :=
  ∀ p, p ∈ plugins → wasmPluginMatches p event object = true → queued (plugin_dedupe_key (wp_ID p) event object) d.

Lemma enqueue_plugins_done plugins w w' : enqueue_plugins event object plugins w = (Ok tt, w') →
  all_queued plugins (w_db w') ∧ (∀ key, queued key (w_db w) → queued key (w_db w')) ∧ (jobs_deduped (w_db w) → jobs_deduped (w_db w')).
Proof.
  unfold enqueue_plugins. revert w. induction plugins as [|p plugins IH]; intros w Hrun; cbn [for_each_ok] in Hrun.
  { injection Hrun as <-. split_and!; try done. intros q Hq. by apply elem_of_nil in Hq. }
  run_inv Hrun as u w1 H1. apply IH in Hrun as (Hall & Hmore & Hdedup). destruct (wasmPluginMatches p event object) eqn:Hp.
  - run_inv H1 as id w2 H2. run_inv H1 as b w3 H3. injection H1 as <- <-. injection H2 as _ Hw2.
    pose proof (create_job_done _ _ _ _ H3) as Hdone. destruct (pres_run _ _ _ _ _ (create_job_queued _) H3) as [Hmore3 Hdedup3].
    assert (w_db w2 = w_db w) as Hdb by (by rewrite <- Hw2). rewrite Hdb in *. split_and!; [|auto|auto].
    intros q Hq Hm. apply elem_of_cons in Hq as [->|Hq]; [by apply Hmore | by apply Hall].
  - injection H1 as <- <-. split_and!; [|done|done].
    intros q Hq Hm. apply elem_of_cons in Hq as [->|Hq]; [congruence | by apply Hall].
Qed.

Lemma enqueue_plugins_keyed plugins : (∀ p, p ∈ plugins → plain_work (wp_ID p) event object) →
  pres (on_db (keeps jobs_keyed)) (enqueue_plugins event object plugins).
Proof.
  intros Hplain. unfold enqueue_plugins. apply pres_for_each_ok; [apply _|]. intros p Hp. destruct (wasmPluginMatches _ _ _); [|apply pres_ret, _].
  apply pres_bind; [apply _|apply pres_randomIdentifier, _|]. intros id. apply pres_bind_ok; [apply _|by apply create_job_keyed, Hplain|]. intros b. apply pres_ret, _.
Qed.

(** One plugin, whose work is queued already. *)
Lemma enqueue_plugin_again p w (m := let! id := randomIdentifier "wasm-job-" 12 in
    let? _ := CreateWASMPluginJob (plugin_job p event object id) in ret_ok tt) :
  queued (plugin_dedupe_key (wp_ID p) event object) (w_db w) →
  db_jobs (w_db (m w).2) = db_jobs (w_db w) ∧ (∀ key, queued key (w_db w) → queued key (w_db (m w).2)).
Proof.
  intros Hq. set (w1 := w <| w_draws ::= S |>). set (job := plugin_job p event object (randomIdentifier "wasm-job-" 12 w).1).
  change (m w) with (bind_ok (CreateWASMPluginJob job) (λ _, ret_ok tt) w1).
  pose proof (create_job_again job w1 Hq) as Hagain. pose proof (create_job_queued job w1) as [Hmore _].
  assert ((bind_ok (CreateWASMPluginJob job) (λ _, ret_ok tt) w1).2 = (CreateWASMPluginJob job w1).2) as ->
    by (unfold bind_ok, bind; by destruct (CreateWASMPluginJob job w1) as [[b|e] w2]).
  exact (conj Hagain Hmore).
Qed.

Lemma enqueue_plugins_again plugins w :
  all_queued plugins (w_db w) → db_jobs (w_db (enqueue_plugins event object plugins w).2) = db_jobs (w_db w).
Proof.
  unfold enqueue_plugins. revert w. induction plugins as [|p plugins IH]; intros w Hall; [done|]. cbn [for_each_ok].
  destruct (wasmPluginMatches p event object) eqn:Hp.
  - destruct (enqueue_plugin_again p w (Hall p (list_elem_of_here _ _) Hp)) as [Hsame Hmore].
    unfold bind_ok at 1, bind at 1. rewrite <- Hsame. destruct (bind _ _ w) as [[u|e] w1]; [|done]. cbn [fst snd] in *.
    apply IH. intros q Hq Hm. apply Hmore, Hall; [by constructor | done].
  - apply IH. intros q Hq. apply Hall. by constructor.
Qed.
End queueing.

(** The object as the index has it, with the content of the event. *)
Definition indexed_event (d : DB) (object : ObjectRecord) : option ObjectRecord :=
  row ← db_objects d !! (o_Bucket object, o_Key object);
  Some (object <| o_CreatedAt := o_CreatedAt row |> <| o_UpdatedAt := o_UpdatedAt row |>).

Lemma sql_read_db `{Env} {A} (f : DB → result A) w r w' : sql_read f w = (r, w') → w_db w' = w_db w.
Proof. intros Hrun. pose proof (pres_sql_read eq f w) as Hdb. by rewrite Hrun in Hdb. Qed.

Lemma enqueue_run `{Env} event object w r w' (o : ObjectRecord) : indexed_event (w_db w) object = Some o →
  enqueueWASMPlugins_service event object w = (r, w') →
  (w_db w' = w_db w ∧ ∃ e, r = Err e) ∨
  ∃ w1, w_db w1 = w_db w ∧
    enqueue_plugins event o (order_by (then_by (by_text wp_Name) (by_text wp_ID)) (where_ wp_Enabled (rows (db_plugins (w_db w))))) w1 = (r, w').
Proof.
  unfold indexed_event. destruct (db_objects (w_db w) !! _) as [row|] eqn:Hrow; cbn; [|discriminate]. intros [= <-] Hrun.
  unfold enqueueWASMPlugins_service in Hrun. apply bind_ok_cases in Hrun as [(e & He & ->)|(row' & w1 & H1 & Hrun)].
  { left. split; [|eauto]. by apply sql_read_db in He. }
  apply sql_read_inv in H1 as [Hr Hdb1]. rewrite Hrow in Hr. injection Hr as <-.
  apply bind_ok_cases in Hrun as [(e & He & ->)|(plugins & w2 & H2 & Hrun)].
  { left. split; [|eauto]. apply sql_read_db in He. congruence. }
  apply sql_read_inv in H2 as [[= <-] Hdb2]. right. exists w2. split; [congruence|]. by rewrite <- Hdb1.
Qed.

(** A job of the table is for this work; or, a SHA-256 collision, one
    is filed under the same hash although its own work is another. *)
Definition has_job (pluginID event : string) (object : ObjectRecord) (d : DB) : Prop :=
  (∃ id j, db_jobs d !! id = Some j ∧ work_of pluginID event object j) ∨
  (∃ id j other, db_jobs d !! id = Some j ∧ work_of (wj_PluginID j) (wj_Event j) other j
     ∧ work_text (wj_PluginID j) (wj_Event j) other ≠ work_text pluginID event object
     ∧ sha256_hex (work_text (wj_PluginID j) (wj_Event j) other) = sha256_hex (work_text pluginID event object)).

(** C24. Queueing plugin work for an event is exactly once: after it succeeds
    every enabled plugin that the event matches has a job of its own for this
    generation of the object (SHA-256 collisions of the texts that are filed
    apart), every job stays filed under the hash of its own work, no two jobs of
    the table are for the same work, and repeating the event, with whatever
    failures, changes no job. *)
Theorem plugin_work_queued_once `{Env} event object o w w' :
  indexed_event (w_db w) object = Some o → jobs_keyed (w_db w) →
  (∀ id p, db_plugins (w_db w) !! id = Some p → plain_work (wp_ID p) event o) →
  enqueueWASMPlugins_service event object w = (Ok tt, w') →
  (∀ id p, db_plugins (w_db w) !! id = Some p → wp_Enabled p = true → wasmPluginMatches p event o = true →
     has_job (wp_ID p) event o (w_db w')) ∧
  jobs_keyed (w_db w') ∧
  (jobs_deduped (w_db w) → jobs_deduped (w_db w')) ∧
  (∀ r w'', enqueueWASMPlugins_service event object w' = (r, w'') → db_jobs (w_db w'') = db_jobs (w_db w')).
Proof.
  intros Ho Hkeyed Hplain Hrun. pose proof (enqueue_frame (same not_jobs) event object (λ d f, eq_refl) w) as Hother. rewrite Hrun in Hother.
  unfold on_db, same, not_jobs in Hother. cbn [snd] in Hother.
  pose proof (f_equal db_objects Hother) as Hobjects. pose proof (f_equal db_plugins Hother) as Hplugins. rsimpl.
  apply (enqueue_run _ _ _ _ _ o Ho) in Hrun as [[_ [e [=]]]|(w1 & Hdb & Hrun)].
  set (plugins := order_by _ _) in Hrun. assert (∀ p, p ∈ plugins → plain_work (wp_ID p) event o) as Hplain'.
  { intros p (Hp & _)%elem_of_order_by%elem_of_where. apply elem_of_rows in Hp as [id Hp]. by eapply Hplain. }
  pose proof (enqueue_plugins_keyed event o plugins Hplain' w1) as Hkeyed'. rewrite Hrun in Hkeyed'. unfold on_db, keeps in Hkeyed'. rewrite Hdb in Hkeyed'.
  specialize (Hkeyed' Hkeyed). cbn [snd] in Hkeyed'.
  apply enqueue_plugins_done in Hrun as (Hall & _ & Hdedup). rewrite Hdb in Hdedup. split_and!; [|done|done|].
  - intros id p Hp Hen Hm. destruct (Hall p) as (jid & j & Hj & Hkey); [|done|].
    { apply elem_of_order_by, elem_of_where. split; [|done]. apply elem_of_rows. by exists id. }
    rewrite dedupe_key_text in Hkey. destruct (Hkeyed' jid j Hj) as (other & Hwork & Hpl & Hk). rewrite Hk in Hkey.
    destruct (decide (work_text (wj_PluginID j) (wj_Event j) other = work_text (wp_ID p) event o)) as [Heq|Hne].
    + left. exists jid, j. split; [done|]. apply work_text_inj in Heq as (Hid & Hev & Hb & Hkk & Hc & Ht); [|done|by eapply Hplain].
      destruct Hwork as (_ & _ & ? & ? & ? & ?). unfold work_of. split_and!; congruence.
    + right. by exists jid, j, other.
  - intros r w'' Hrun. assert (indexed_event (w_db w') object = Some o) as Ho' by (unfold indexed_event in *; by rewrite Hobjects).
    apply (enqueue_run _ _ _ _ _ o Ho') in Hrun as [[-> _]|(w2 & Hdb2 & Hrun)]; [done|].
    rewrite Hplugins, <- Hdb2 in *. change w'' with ((r, w'').2). rewrite <- Hrun. apply enqueue_plugins_again. done.
Qed.

(** ** Registration *)

(** The operations a policy can allow. *)
Definition known_name (op : string) : Prop := op ∈ ["metadata.patch"; "tags.patch"; "object.copy"; "object.delete"].

(** A key prefix that is relative and names something below the bucket. *)
Definition inside (k : string) : Prop :=
  k ∉ [""; "."; ".."] ∧ (∀ rest, k ≠ "/" +:+ rest) ∧ (∀ rest, path_clean k ≠ "../" +:+ rest).

Lemma known_operation_name op : known_operation op = true → known_name op.
Proof.
  unfold known_operation, known_name. rewrite !orb_true_iff, !String.eqb_eq. rewrite !elem_of_cons. tauto.
Qed.

Lemma prefix_inside k : bad_key_prefix (clean_key_prefix k) = false → inside (clean_key_prefix k).
Proof.
  unfold bad_key_prefix. rewrite !orb_false_iff, !String.eqb_neq. intros (((H1 & H2) & H3) & H4). split_and!.
  - rewrite !elem_of_cons. intros [?|[?|[?|[]%elem_of_nil]]]; congruence.
  - intros rest. unfold clean_key_prefix. generalize (trim_space k). clear. intros s Hs.
    induction s as [|a s IH]; [done|]. cbn [trim_left_byte] in Hs. destruct (ascii_dec a "/") as [->|Hne]; [by apply IH|]. rewrite append_cons in Hs. by injection Hs as ->.
  - intros rest Hc. assert (has_prefix (path_clean (clean_key_prefix k)) "../" = true) by (apply has_prefix_spec; by exists rest). congruence.
Qed.

(** A registered plugin can be run as it is: it is named, its ABI and events
    are known, its patterns can be matched, its limits are set and within
    those of the service, and its policy is one the checks understand. *)
Record plugin_wf `{Env} (p : WASMPlugin) : Prop := {
  pw_named : wp_ID p ≠ "" ∧ wp_Name p ≠ "" ∧ wp_ModuleBase64 p ≠ "";
  pw_abi : wp_ABIVersion p = WASMPluginABIV1;
  pw_events : wp_Events p = [WASMPluginEventObjectCreated];
  pw_pattern : is_Some (path_match (wp_BucketPattern p) "bucket");
  pw_memory : 0 < wp_MemoryLimitBytes p ≤ 2 ^ 30;
  pw_input : 0 < wp_MaxInputBytes p ≤ cfg_MaxUploadBytes env_config;
  pw_output : 0 < wp_MaxOutputBytes p ≤ cfg_MaxUploadBytes env_config;
  pw_attempts : 0 < wp_MaxAttempts p;
  pw_timeout : 0 < wp_TimeoutMillis p ∧ mul64 (wp_TimeoutMillis p) 1000000 ≤ 10 * minute;
  pw_operations : NoDup (wpp_AllowedOperations (wp_OperationPolicy p))
                  ∧ Forall known_name (wpp_AllowedOperations (wp_OperationPolicy p));
  pw_buckets : Forall (λ b, is_Some (path_match b "bucket")) (wpp_BucketPatterns (wp_OperationPolicy p));
  pw_prefixes : Forall inside (wpp_KeyPrefixes (wp_OperationPolicy p));
  pw_count : 0 < wpp_MaxOperations (wp_OperationPolicy p) ≤ 32 }.

(** The defaults of a configuration that was validated. *)
Record defaults_ok `{Env} : Prop := {
  def_timeout : 0 < cfg_DefaultTimeoutMillis env_config;
  def_memory : 0 < cfg_DefaultMemoryLimitBytes env_config;
  def_input : 0 < cfg_DefaultMaxInputBytes env_config;
  def_output : 0 < cfg_DefaultMaxOutputBytes env_config;
  def_attempts : 0 < cfg_DefaultMaxAttempts env_config;
  def_upload : 0 < cfg_MaxUploadBytes env_config }.

Lemma no_bad_ok {A} (bad : A → bool) msg l u : no_bad bad msg l = Ok u → Forall (λ x, bad x = false) l.
Proof.
  unfold no_bad. destruct (List.find bad l) eqn:Hf; [discriminate|]. intros _. apply Forall_forall. intros x Hx.
  apply (List.find_none _ _ Hf). by apply list_elem_of_In.
Qed.

Lemma bad_pattern_ok p : bad_pattern p = false → is_Some (path_match p "bucket").
Proof. unfold bad_pattern. destruct (path_match p "bucket"); [eauto|done]. Qed.

Lemma unique_strings_fresh seen l : NoDup (unique_strings seen l) ∧ Forall (λ x, x ∉ seen) (unique_strings seen l).
Proof.
  revert seen. induction l as [|v l IH]; intros seen; cbn [unique_strings]; [by repeat constructor|].
  destruct ((trim_space v =? "")%string || existsb _ seen) eqn:Hv; [apply IH|]. apply orb_false_iff in Hv as [_ Hv].
  destruct (IH (trim_space v :: seen)) as [Hd Hf]. split; constructor; [|done| |].
  - intros Hin. eapply Forall_forall in Hf; [|exact Hin]. apply Hf. by constructor.
  - intros Hin. apply Bool.not_true_iff_false in Hv. apply Hv, existsb_exists. exists (trim_space v).
    split; [by apply list_elem_of_In | apply String.eqb_refl].
  - eapply Forall_impl; [exact Hf|]. intros x Hx Hin. apply Hx. by constructor.
Qed.

Lemma uniqueStrings_nodup l : NoDup (uniqueStrings l).
Proof. apply unique_strings_fresh. Qed.

Lemma normalize_policy_ok policy q : normalize_policy policy = Ok q →
  NoDup (wpp_AllowedOperations q) ∧ Forall known_name (wpp_AllowedOperations q)
  ∧ Forall (λ b, is_Some (path_match b "bucket")) (wpp_BucketPatterns q)
  ∧ Forall inside (wpp_KeyPrefixes q) ∧ 0 < wpp_MaxOperations q ≤ 32.
Proof.
  unfold normalize_policy. cbv zeta. rsimpl. intros H. split_ok H as u1 E1. split_ok H as u2 E2. split_ok H as u3 E3.
  apply no_bad_ok in E1, E2, E3. destruct (wasmPluginMaxOperations <? _) eqn:Hmax; [discriminate|]. injection H as <-.
  unfold wasmPluginMaxOperations in Hmax. apply Z.ltb_ge in Hmax. destruct (wpp_MaxOperations policy <=? 0) eqn:H0; rsimpl.
  all: split_and!; try done; try apply uniqueStrings_nodup; try lia.
  all: first [ eapply Forall_impl; [exact E1|]; intros op Hop%negb_false_iff; by apply known_operation_name
             | eapply Forall_impl; [exact E2|]; apply bad_pattern_ok
             | apply Forall_map; rewrite Forall_map in E3; eapply Forall_impl; [exact E3|]; intros k; apply prefix_inside ].
Qed.

Section registered.
Context `{Env}.

Lemma limits_ok p u : defaults_ok → check_limits (default_limits p) = Ok u → let q := default_limits p in
  0 < wp_MemoryLimitBytes q ≤ 2 ^ 30 ∧ 0 < wp_MaxInputBytes q ≤ cfg_MaxUploadBytes env_config
  ∧ 0 < wp_MaxOutputBytes q ≤ cfg_MaxUploadBytes env_config ∧ 0 < wp_MaxAttempts q ∧ 0 < wp_TimeoutMillis q
  ∧ mul64 (wp_TimeoutMillis q) 1000000 ≤ 10 * minute.
Proof.
  intros []. unfold check_limits, wasmPluginMaxMemoryBytes, wasmPluginMaxTimeout, duration_mul.
  destruct (_ <? mul64 _ _) eqn:Htime; [discriminate|]. apply Z.ltb_ge in Htime.
  destruct (2 ^ 30 <? _) eqn:Hmem; [discriminate|]. destruct (_ || _) eqn:Hio; [discriminate|]. intros _.
  apply orb_false_iff in Hio as [Hi Ho]. apply Z.ltb_ge in Hmem, Hi, Ho. cbv zeta. split_and!; try done.
  all: unfold default_limits; repeat case_match; rsimpl; lia.
Qed.

(** The fields a stage does not set. *)
Lemma default_limits_fields p (q := default_limits p) :
  wp_ID q = wp_ID p ∧ wp_Name q = wp_Name p ∧ wp_ModuleBase64 q = wp_ModuleBase64 p ∧ wp_ABIVersion q = wp_ABIVersion p
  ∧ wp_Events q = wp_Events p ∧ wp_BucketPattern q = wp_BucketPattern p.
Proof. subst q. unfold default_limits. cbv zeta. by repeat case_match. Qed.

Lemma default_fields p (q := default_events (default_pattern (default_abi p))) :
  wp_ID q = wp_ID p ∧ wp_Name q = wp_Name p ∧ wp_ModuleBase64 q = wp_ModuleBase64 p ∧ wp_ABIVersion q = wp_ABIVersion (default_abi p)
  ∧ wp_BucketPattern q = wp_BucketPattern (default_pattern (default_abi p)) ∧ wp_Events q ≠ [].
Proof.
  subst q. unfold default_events, default_pattern, default_abi.
  destruct (wp_ABIVersion p =? "")%string, (_ =? "")%string; rsimpl; destruct (wp_Events p) eqn:He; rsimpl; rewrite ?He; by split_and!.
Qed.

Lemma only_created l : l ≠ [] → Forall (λ e, negb (e =? WASMPluginEventObjectCreated)%string = false) l →
  uniqueStrings l = [WASMPluginEventObjectCreated].
Proof.
  intros Hne Hl. destruct l as [|e l]; [done|]. clear Hne. apply Forall_cons in Hl as [He Hl].
  apply negb_false_iff, String.eqb_eq in He as ->. unfold uniqueStrings. cbn [unique_strings].
  change (trim_space WASMPluginEventObjectCreated) with WASMPluginEventObjectCreated. cbn [orb existsb String.eqb].
  f_equal. induction Hl as [|e l He _ IH]; [done|]. apply negb_false_iff, String.eqb_eq in He as ->. exact IH.
Qed.

Lemma normalized_plugin_wf p q : defaults_ok → normalizeWASMPlugin p = Ok q → plugin_wf q ∧ wp_ID q = trim_space (wp_ID p).
Proof.
  intros Hdef. unfold normalizeWASMPlugin. cbv zeta. set (p0 := trim_plugin p). set (p1 := default_abi p0). set (p2 := default_pattern p1).
  set (p3 := default_events p2). set (p4 := default_limits p3). intros H0. split_ok H0 as u1 E1. split_ok H0 as u2 E2.
  split_ok H0 as u3 E3. split_ok H0 as u4 E4. split_ok H0 as u5 E5. split_ok H0 as policy E6. injection H0 as <-.
  apply limits_ok in E5 as (L1 & L2 & L3 & L4 & L5 & L6); [|done]. apply normalize_policy_ok in E6 as (P1 & P2 & P3 & P4 & P5). apply no_bad_ok in E4.
  destruct (default_limits_fields p3) as (F1 & F2 & F3 & F4 & F5 & F6). destruct (default_fields p0) as (G1 & G2 & G3 & G4 & G5 & G6).
  change (default_limits p3) with p4 in F1, F2, F3, F4, F5, F6. change (default_events (default_pattern (default_abi p0))) with p3 in G1, G2, G3, G4, G5, G6.
  apply orb_false_iff in E1 as [[Hid Hname]%orb_false_iff Hmodule]. apply negb_false_iff, String.eqb_eq in E2.
  apply String.eqb_neq in Hid, Hname, Hmodule. split; [|change (wp_ID p4 = wp_ID p0); congruence]. split; rsimpl; try done.
  - rewrite F1, F2, F3, G1, G2, G3. by split_and!.
  - rewrite F4, G4. exact E2.
  - rewrite F5. by apply only_created.
  - rewrite F6, G5. apply bad_pattern_ok. fold p1 p2. by destruct (bad_pattern (wp_BucketPattern p2)).
Qed.

Lemma lift_inv {A} (r : result A) w a w' : lift r w = (Ok a, w') → r = Ok a ∧ w' = w.
Proof. unfold lift, ret. intros Hr. split; congruence. Qed.

(** The row of a plugin after an upsert. *)
Lemma upsert_plugin_run plugin w w' : UpsertWASMPlugin_store plugin w = (Ok tt, w') →
  ∃ row, db_plugins (w_db w') = <[wp_ID plugin := row]> (db_plugins (w_db w)) ∧
         ∃ created updated, row = (plugin <| wp_CreatedAt := created |>) <| wp_UpdatedAt := updated |>.
Proof.
  unfold UpsertWASMPlugin_store. intros Hrun. run_inv Hrun as t w1 H1. injection H1 as <- <-.
  apply wrap_err_cases in Hrun as [(u & [= <-] & Hrun)|(e & [=] & _)]. apply sql_write_inv in Hrun. injection Hrun as Hrun.
  rewrite <- Hrun. unfold upsert_plugin_row. destruct (is_zero (wp_CreatedAt plugin)); rsimpl;
    (destruct (db_plugins (w_db w) !! wp_ID plugin) as [old|]; eexists; (split; [reflexivity|]); by do 2 eexists).
Qed.

(** What the store and the hash add changes neither. *)
Lemma plugin_wf_stamped q sum created updated :
  plugin_wf q → plugin_wf ((q <| wp_ModuleSHA256 := sum |> <| wp_CreatedAt := created |>) <| wp_UpdatedAt := updated |>).
Proof. intros []. by split; rsimpl. Qed.

Lemma Validate_stamped `{!WasmHost} text q created updated :
  Validate text ((q <| wp_CreatedAt := created |>) <| wp_UpdatedAt := updated |>) = Validate text q.
Proof. unfold Validate. by rsimpl. Qed.

(** Three checks and then the statement. *)
Lemma checks_inv {A B} (n : result A) (m : A → result B) (v : A → B → result unit) (k : A → B → M (result unit)) w w' :
  (let? a := lift n in let? b := lift (m a) in let? _ := lift (v a b) in k a b) w = (Ok tt, w') →
  ∃ a b, n = Ok a ∧ m a = Ok b ∧ v a b = Ok tt ∧ k a b w = (Ok tt, w').
Proof.
  unfold bind_ok, bind, lift, ret. destruct n as [a|e]; cbn; [|discriminate]. destruct (m a) as [b|e] eqn:Hm; cbn; [|discriminate].
  destruct (v a b) as [[]|e] eqn:Hv; cbn; [|discriminate]. eauto 10.
Qed.

Lemma upsert_inv `{!WasmHost} plugin w w' : UpsertWASMPlugin plugin w = (Ok tt, w') →
  ∃ q text, normalizeWASMPlugin plugin = Ok q ∧ plugin_module q = Ok text
    ∧ Validate text (q <| wp_ModuleSHA256 := sha256_hex text |>) = Ok tt
    ∧ UpsertWASMPlugin_store (q <| wp_ModuleSHA256 := sha256_hex text |>) w = (Ok tt, w').
Proof.
  exact (checks_inv (normalizeWASMPlugin plugin) plugin_module (λ q text, Validate text (q <| wp_ModuleSHA256 := sha256_hex text |>))
    (λ q text, UpsertWASMPlugin_store (q <| wp_ModuleSHA256 := sha256_hex text |>)) w w').
Qed.

Lemma plugin_module_inv p text : plugin_module p = Ok text →
  ∃ module, base64std_decode (wp_ModuleBase64 p) = Some module ∧ Z.of_nat (List.length module) ≤ cfg_MaxModuleBytes env_config
    ∧ text = text_of_bytes module.
Proof.
  unfold plugin_module. destruct (_ <? _); [discriminate|]. destruct (base64std_decode _) as [module|]; [|discriminate].
  destruct (_ <? Z.of_nat _) eqn:Hmax; [discriminate|]. apply Z.ltb_ge in Hmax. intros Ht. exists module. split_and!; [done|done|congruence].
Qed.

End registered.

Definition sent_plugin : WASMPlugin :=
  zero_WASMPlugin <| wp_ID := " thumbs " |> <| wp_Name := "Thumbnails" |> <| wp_ModuleBase64 := "AGFzbQEAAAA=" |> <| wp_Enabled := true |>.


(** The check of the timeout can be passed by a number of milliseconds so large
    that the product wraps: the plugin is registered with a timeout that is long
    over when it is run. *)
Lemma timeout_wraps : let E := demo_env in let H := demo_host in
  is_ok (UpsertWASMPlugin (sent_plugin <| wp_TimeoutMillis := 9223372036855 |>) (start empty_DB)).1 = true
  ∧ mul64 9223372036855 1000000 < 0.
Proof. split; vm_compute; reflexivity. Qed.

(** The plugin of a deployment and an object it is for. *)
Definition queue_plugin : WASMPlugin :=
  zero_WASMPlugin <| wp_ID := "thumbs" |> <| wp_Enabled := true |> <| wp_BucketPattern := "*" |>
    <| wp_Events := [WASMPluginEventObjectCreated] |>.

Definition queue_db : DB :=
  empty_DB <| db_objects := {[ ("b", "k") := zero_ObjectRecord <| o_Bucket := "b" |> <| o_Key := "k" |> ]} |>
           <| db_plugins := {[ "thumbs" := queue_plugin ]} |>.

Lemma plugin_work_queued_once_witness : let E := demo_env in let object := zero_ObjectRecord <| o_Bucket := "b" |> <| o_Key := "k" |> in
  ∃ w', enqueueWASMPlugins_service WASMPluginEventObjectCreated object (start queue_db) = (Ok tt, w')
    ∧ has_job (wp_ID queue_plugin) WASMPluginEventObjectCreated object (w_db w') ∧ jobs_deduped (w_db w').
Proof.
  intros E object. assert (∃ w', enqueueWASMPlugins_service WASMPluginEventObjectCreated object (start queue_db) = (Ok tt, w')) as (w' & Hrun)
    by (eexists; vm_compute; reflexivity).
  destruct (plugin_work_queued_once WASMPluginEventObjectCreated object object (start queue_db) w' eq_refl) as (Hjob & _ & Hdedup & _).
  - intros i j Hj. by destruct (lookup_empty_Some i j Hj).
  - intros id p Hp. destruct (proj1 (lookup_singleton_Some "thumbs" id queue_plugin p) Hp) as [_ <-]. unfold plain_work. repeat (constructor; [vm_compute; reflexivity|]). constructor.
  - exact Hrun.
  - exists w'. split_and!; [exact Hrun | |].
    + assert (wasmPluginMatches queue_plugin WASMPluginEventObjectCreated object = true) as Hm by (vm_compute; reflexivity).
      exact (Hjob "thumbs" queue_plugin (lookup_singleton_eq _ _) eq_refl Hm).
    + apply Hdedup. intros i j a b Ha. by destruct (lookup_empty_Some i a Ha).
Defined.
