(* ===== verification/Onboarding.v ===== *)
(** Onboarding: what an administrator's provider or hook has to pass before it
    is stored ([app/provider_onboarding.go], [UpsertProviderFromAdmin] of
    [app/service.go], [TestProviderConnection] and [DiscoverProviderBuckets] of
    [app/inventory.go], the administrative part of [app/hooks.go]), and the
    readings that help to choose ([app/planner.go]). *)
From S2P Require Import Prelude GoTime Float64 FloatArith Json Text Url Http Domain ProviderErrors World Sql StoreProviders StoreObjects StoreEvents Access Placement Providers Hooks.

(** ** Planning *)

Definition bytesPerGiB : Z := 1024 * 1024 * 1024.

Record ProviderPlacementPlan : Type := MkProviderPlacementPlan {
  pp_ProviderAccountID : string;
  pp_ProviderName : string;
  pp_Eligible : bool;
  pp_Reason : string;
  pp_Priority : Z;
  pp_UsedBytes : Z;
  pp_ReservedBytes : Z;
  pp_CapacityBytes : Z;
  pp_RemainingBytes : Z;
  pp_CostPerGiBMonth : float64;
  pp_CurrentMonthlyCost : float64;
  pp_ProjectedMonthlyCost : float64;
  pp_Recommended : bool }.
#[global] Instance ProviderPlacementPlan_settable : Settable ProviderPlacementPlan := settable! MkProviderPlacementPlan
  < pp_ProviderAccountID ; pp_ProviderName ; pp_Eligible ; pp_Reason ; pp_Priority ; pp_UsedBytes ; pp_ReservedBytes
  ; pp_CapacityBytes ; pp_RemainingBytes ; pp_CostPerGiBMonth ; pp_CurrentMonthlyCost ; pp_ProjectedMonthlyCost ; pp_Recommended >.

Record PlacementPlan : Type := MkPlacementPlan {
  pl_Bucket : string; pl_ObjectSize : Z; pl_Providers : list ProviderPlacementPlan }.

Record CostOptimization : Type := MkCostOptimization {
  cp_SourceProviderID : string; cp_TargetProviderID : string; cp_Bytes : Z; cp_EstimatedMonthlySaving : float64 }.

(** [app.floatSetting]: the error of ParseFloat is dropped. *)
Definition floatSetting (settings : gmap string string) (key : string) : float64 :=
  let parsed := parse_float_value (trim_space (default "" (settings !! key))) in
  if float_lt parsed float_zero then float_zero else parsed.

(** [a <= b] *)
Definition float_le (a b : float64) : bool := float_lt a b || float_eq a b.

(** A stable insertion sort by a comparator of Go. *)
Section insertion.
Context {A : Type} (lt : A → A → bool).

Fixpoint insert_left (x : A) (rev_prefix : list A) : list A :=
  match rev_prefix with
  | y :: ys => if lt x y then y :: insert_left x ys else x :: y :: ys
  | [] => [x]
  end.

Definition insertion_sort (l : list A) : list A := rev (fold_left (λ acc x, insert_left x acc) l []).
End insertion.

(** What is left on a provider, as the planner counts it. *)
Definition planned_remaining (p : ProviderAccount) : Z :=
  let local := if 0 <? p_CapacityBytes p then sub64 (sub64 (p_CapacityBytes p) (p_UsedBytes p)) (p_ReservedBytes p) else int64_max in
  if 0 <? p_RemoteCapacityBytes p
  then Z.min local (sub64 (sub64 (p_RemoteCapacityBytes p) (p_RemoteUsedBytes p)) (p_ReservedBytes p))
  else local.

(** [float64(bytes) / bytesPerGiB * cost] *)
Definition monthly_cost (bytes : Z) (cost : float64) : float64 :=
  float_mul (float_div (float_of_int bytes) (float_of_int bytesPerGiB)) cost.

Definition plan_entry (p : ProviderAccount) (size : Z) : ProviderPlacementPlan :=
  let cost := floatSetting (p_Settings p) "cost_per_gb_month" in
  MkProviderPlacementPlan (p_ID p) (p_Name p) true "" (p_Priority p) (p_UsedBytes p) (p_ReservedBytes p) (p_CapacityBytes p)
    (planned_remaining p) cost (monthly_cost (p_UsedBytes p) cost) (monthly_cost (add64 (p_UsedBytes p) size) cost) false.

(** The reason of the policies that keep an object out. *)
Definition policy_reason (p : ProviderAccount) (size : Z) : option string :=
  let remaining := planned_remaining p in
  let maxObjectSize := intSetting (p_Settings p) "max_object_size_bytes" in
  let minFree := intSetting (p_Settings p) "min_free_bytes" in
  if remaining <? size then Some "insufficient capacity"
  else if (0 <? maxObjectSize) && (maxObjectSize <? size) then Some "object exceeds provider size policy"
  else if (0 <? minFree) && (sub64 remaining size <? minFree) then Some "minimum free capacity policy would be violated"
  else None.

(** The comparator of [sort.SliceStable]. *)
Definition plan_before (left right : ProviderPlacementPlan) : bool :=
  if negb (Bool.eqb (pp_Eligible left) (pp_Eligible right)) then pp_Eligible left
  else if negb (pp_Priority left =? pp_Priority right) then pp_Priority left <? pp_Priority right
  else if float_ne (pp_CostPerGiBMonth left) (pp_CostPerGiBMonth right)
  then float_lt (pp_CostPerGiBMonth left) (pp_CostPerGiBMonth right)
  else pp_RemainingBytes right <? pp_RemainingBytes left.

(** The first eligible entry is the recommended one. *)
Fixpoint recommend (l : list ProviderPlacementPlan) : list ProviderPlacementPlan :=
  match l with
  | [] => []
  | e :: l => if pp_Eligible e then (e <| pp_Recommended := true |>) :: l else e :: recommend l
  end.

(** The cheapest provider the data of [source] could move to, the first of
    equals. *)
Definition better_target (source : ProviderAccount) (sourceCost : float64) (best : option ProviderAccount) (target : ProviderAccount)
    : option ProviderAccount :=
  let cost p := floatSetting (p_Settings p) "cost_per_gb_month" in
  if (p_ID target =? p_ID source)%string || float_le sourceCost (cost target)
     || ((0 <? p_CapacityBytes target) && (sub64 (p_CapacityBytes target) (p_UsedBytes target) <? p_UsedBytes source))
  then best
  else match best with
       | None => Some target
       | Some b => if float_lt (cost target) (cost b) then Some target else best
       end.

Definition optimization (providers : list ProviderAccount) (source : ProviderAccount) : option CostOptimization :=
  let cost p := floatSetting (p_Settings p) "cost_per_gb_month" in
  let sourceCost := cost source in
  if (p_UsedBytes source <=? 0) || float_le sourceCost float_zero then None
  else
    best ← fold_left (better_target source sourceCost) providers None;
    Some (MkCostOptimization (p_ID source) (p_ID best) (p_UsedBytes source)
            (float_mul (float_div (float_of_int (p_UsedBytes source)) (float_of_int bytesPerGiB)) (float_sub sourceCost (cost best)))).

Section planner.
Context `{Env}.

Definition plan_provider (size : Z) (p : ProviderAccount) : M ProviderPlacementPlan :=
  let entry := plan_entry p size in
  let refused reason := entry <| pp_Eligible := false |> <| pp_Reason := reason |> in
  let policies := match policy_reason p size with Some reason => refused reason | None => entry end in
  let unavailable := refused ("provider is temporarily unavailable: " +:+ p_AvailabilityStatus p) in
  if negb (p_Enabled p) then ret (refused "provider is disabled")
  else if (p_AvailabilityStatus p =? "")%string then ret policies
  else if is_zero (p_UnavailableUntil p) then ret unavailable
  else let! t := now in ret (if after (p_UnavailableUntil p) t then unavailable else policies).

Fixpoint plan_providers (size : Z) (providers : list ProviderAccount) : M (list ProviderPlacementPlan) :=
  match providers with
  | [] => ret []
  | p :: rest => let! entry := plan_provider size p in let! l := plan_providers size rest in ret (entry :: l)
  end.

Definition PlanPlacement (bucket : string) (size : Z) : M (result PlacementPlan) :=
  let? providers := ListProviders false in
  let! entries := plan_providers size providers in
  ret_ok (MkPlacementPlan bucket size (recommend (insertion_sort plan_before entries))).

(** [sort.Slice] with up to twelve elements is this insertion sort; with more
    the order of equal savings is not specified. *)
Definition CostOptimizations : M (result (list CostOptimization)) :=
  let? providers := ListProviders true in
  ret_ok (insertion_sort (λ x y, float_lt (cp_EstimatedMonthlySaving y) (cp_EstimatedMonthlySaving x))
            (omap (optimization providers) providers)).
End planner.

(** ** Providers *)

Section providers.
Context `{Env}.

(** What an adapter can do: what it reports, or which optional interfaces it has. *)
Definition adapter_capabilities (adapter : Adapter) (account : ProviderAccount) : ProviderCapabilities :=
  match ad_Capabilities adapter with
  | Some report => report account
  | None => zero_ProviderCapabilities
      <| pc_ListObjects := match ad_ListObjects adapter with Some _ => true | None => false end |>
      <| pc_DiscoverBuckets := match ad_DiscoverBuckets adapter with Some _ => true | None => false end |>
      <| pc_RemoteQuota := match ad_Quota adapter with Some _ => true | None => false end |>
  end.

(** The checks of [ValidateProvider] that ask nobody. *)
Definition check_account (account : ProviderAccount) : result unit :=
  try! _ := guard_err ((trim_space (p_ID account) =? "")%string || (p_Kind account =? "")%string || (trim_space (p_Bucket account) =? "")%string)
              "provider id, kind and bucket are required" in
  try! _ := guard_err (p_CapacityBytes account <? 0) "provider capacity_bytes cannot be negative" in
  validateProviderLimits (p_Settings account).

Definition ValidateProvider (account : ProviderAccount) : M (result ProviderValidation) :=
  let? _ := lift (check_account account) in
  let? found := lift (providerForReplica account) in
  let '(decrypted, adapter) := found in
  let! health := adapter_health adapter decrypted in
  ret_ok (MkProviderValidation (p_ID account) health (adapter_capabilities adapter decrypted)).

(** The stored secret of an account that is sent without one. *)
Definition stored_secret (account : ProviderAccount) : M ProviderAccount :=
  let! existing := GetProvider (p_ID account) in
  ret (match existing with
       | Ok existing => account <| p_SecretEncrypted := p_SecretEncrypted existing |>
       | Err _ => account
       end).

Definition UpsertProviderFromAdmin (account : ProviderAccount) (secretKey : string) : M (result unit) :=
  let? account := (if (secretKey =? "")%string then let! account := stored_secret account in ret_ok account
                   else let? sealed := encrypt secretKey in ret_ok (account <| p_SecretEncrypted := sealed |>)) in
  let? validation := ValidateProvider account in
  let health := pv_Health validation in
  if p_Enabled account && negb (ph_Status health =? ProviderHealthHealthy)%string
  then ret_err (ErrText ("provider cannot be enabled before onboarding succeeds: " +:+ ph_Message health))
  else
    let? _ := UpsertProvider account in
    if p_Enabled account then let! _ := recordProviderHealth account health in ret_ok tt else ret_ok tt.

Definition TestProviderConnection (providerID : string) : M (result ProviderHealth) :=
  let? account := GetProvider (trim_space providerID) in
  let? validation := ValidateProvider account in
  let! _ := recordProviderHealth account (pv_Health validation) in
  ret_ok (pv_Health validation).

Definition DiscoverProviderBuckets (providerID : string) : M (result (list ProviderBucket)) :=
  let? found := providerAccountAndAdapter providerID in
  let '(account, adapter) := found in
  match ad_DiscoverBuckets adapter with
  | None => ret_err (ErrAnnotate (ErrSentinel ErrProviderCapabilityUnsupported) (p_Kind account +:+ " does not expose bucket discovery"))
  | Some discover => remote (CallDiscover account) (λ h, discover h account)
  end.
End providers.

(** ** Hooks *)

Definition isValidHookHeaderName (name : string) : bool := negb (name =? "")%string && forallb token_byte (list_ascii_of_string name).

Section hooks.
Context `{Env}.

(** [url.Parse]: the scheme and the host of a URL that parses. *)
Variable parse_url : string → option (string * string).

(** [json.Unmarshal] of the decrypted headers into a map. *)
Variable decode_headers : string → result (gmap string string).

(** Of several bad header names Go reports whichever its map yields first. *)
Definition validateHook (hook : Hook) : result unit :=
  try! _ := guard_err (trim_space (h_ID hook) =? "")%string "hook id is required" in
  try! _ := guard_err (negb (h_Kind hook =? "")%string && negb (h_Kind hook =? HookKindHTTP)%string) "only http hooks are supported" in
  try! _ := match parse_url (trim_space (h_URL hook)) with
            | Some (scheme, host) =>
                try! _ := guard_err ((scheme =? "")%string || (host =? "")%string) "hook url must be an absolute http or https URL" in
                guard_err (negb (scheme =? "http")%string && negb (scheme =? "https")%string) "hook url scheme must be http or https"
            | None => Err (ErrText "hook url must be an absolute http or https URL")
            end in
  let method := to_upper (trim_space (h_Method hook)) in
  try! _ := guard_err (negb (existsb (String.eqb method) [""; "GET"; "POST"; "PUT"; "PATCH"])) "hook method must be GET, POST, PUT or PATCH" in
  try! _ := match List.find (λ event, negb (event =? HookEventObjectCreated)%string && negb (event =? HookEventObjectDeleted)%string) (h_Events hook) with
            | Some event => Err (ErrText ("unsupported hook event " +:+ quoted event))
            | None => Ok tt
            end in
  match List.find (λ name, negb (isValidHookHeaderName name)) (map_to_list (h_Headers hook)).*1 with
  | Some name => Err (ErrText ("invalid hook header name " +:+ quoted name))
  | None => Ok tt
  end.

(** What [UpsertHookFromAdmin] fills in. *)
Definition complete_hook (hook : Hook) : Hook :=
  hook <| h_Name ::= default_text (h_ID hook) |> <| h_Kind ::= default_text HookKindHTTP |> <| h_Method ::= default_text "POST" |>
       <| h_Events ::= λ events, match events with [] => [HookEventObjectCreated] | _ => events end |>.

Definition trim_hook (hook : Hook) : Hook :=
  hook <| h_ID ::= trim_space |> <| h_Name ::= trim_space |> <| h_URL ::= trim_space |>
       <| h_Method ::= λ m, to_upper (trim_space m) |> <| h_Headers ::= normalizeHookHeaders |>.

Definition UpsertHookFromAdmin (hook : Hook) : M (result unit) :=
  let hook := trim_hook hook in
  let? _ := lift (validateHook hook) in
  let hook := complete_hook hook in
  let? hook := (
    if negb (bool_decide (h_Headers hook = ∅))
    then let? sealed := wrap_err "encrypt hook headers" (encrypt (json_text (json_map (h_Headers hook)))) in
         ret_ok (hook <| h_HeadersEncrypted := sealed |>)
    else
      let! existing := GetHook (h_ID hook) in
      ret_ok (match existing with
              | Ok existing => hook <| h_HeadersEncrypted := h_HeadersEncrypted existing |>
              | Err _ => hook
              end)) in
  UpsertHook hook.

Definition hookHeaderNames (hook : Hook) : result (list string) :=
  match decryptHookHeaders decode_headers hook with
  | Ok headers => Ok (sort_strings (map_to_list headers).*1)
  | Err e => Err e
  end.

(** A hook as an administrator sees it: names of headers, no values. *)
Definition shown_hook (hook : Hook) : Hook :=
  hook <| h_HeaderNames := match hookHeaderNames hook with Ok names => names | Err _ => [] end |>
       <| h_Headers := ∅ |> <| h_HeadersEncrypted := "" |>.

Definition ListHooksForAdmin : M (result (list Hook)) :=
  let? hooks := ListHooks false in
  ret_ok (shown_hook <$> hooks).
End hooks.
