(* ===== verification/Configuration.v ===== *)
(** The configuration, [config/config.go]: its sections, the defaults, what the
    environment overrides, normalisation and validation; and what the service
    makes of it when it starts ([Bootstrap] of [app/service.go]).

    The file system, the environment variables, the YAML decoder and the URL
    parser are a [ConfigHost]. *)
From S2P Require Import Prelude GoTime Text Domain ProviderErrors World Sql StoreProviders StoreObjects Providers.

(** ** The sections *)

Record ServerConfig : Type := MkServerConfig {
  sv_Addr : string;
  sv_DataDir : string;
  sv_MultipartStagingDir : string;
  sv_DBPath : string;
  sv_MasterKey : string;
  sv_PublicBaseURL : string;
  sv_MaxUploadBytes : Z;
  sv_MaxMultipartPartBytes : Z;
  sv_MaxAdminBodyBytes : Z }.
#[global] Instance ServerConfig_settable : Settable ServerConfig := settable! MkServerConfig
  < sv_Addr ; sv_DataDir ; sv_MultipartStagingDir ; sv_DBPath ; sv_MasterKey ; sv_PublicBaseURL ; sv_MaxUploadBytes ;
    sv_MaxMultipartPartBytes ; sv_MaxAdminBodyBytes >.

Record VectorSearchConfig : Type := MkVectorSearchConfig {
  vs_Backend : string;
  vs_HNSWM : Z;
  vs_EFConstruction : Z;
  vs_EFSearch : Z;
  vs_MaxScanTuples : Z;
  vs_MaxProfiles : Z }.
#[global] Instance VectorSearchConfig_settable : Settable VectorSearchConfig := settable! MkVectorSearchConfig
  < vs_Backend ; vs_HNSWM ; vs_EFConstruction ; vs_EFSearch ; vs_MaxScanTuples ; vs_MaxProfiles >.

Record SQLiteStoreConfig : Type := MkSQLiteStoreConfig { sq_Path : string; sq_MaxOpenConns : Z; sq_MaxIdleConns : Z }.
#[global] Instance SQLiteStoreConfig_settable : Settable SQLiteStoreConfig :=
  settable! MkSQLiteStoreConfig < sq_Path ; sq_MaxOpenConns ; sq_MaxIdleConns >.

Record PostgresStoreConfig : Type := MkPostgresStoreConfig { pg_DSN : string; pg_MaxOpenConns : Z; pg_MaxIdleConns : Z }.
#[global] Instance PostgresStoreConfig_settable : Settable PostgresStoreConfig :=
  settable! MkPostgresStoreConfig < pg_DSN ; pg_MaxOpenConns ; pg_MaxIdleConns >.

Record StoreConfig : Type := MkStoreConfig {
  so_Kind : string;
  so_SQLite : SQLiteStoreConfig;
  so_Postgres : PostgresStoreConfig;
  so_VectorSearch : VectorSearchConfig }.
#[global] Instance StoreConfig_settable : Settable StoreConfig :=
  settable! MkStoreConfig < so_Kind ; so_SQLite ; so_Postgres ; so_VectorSearch >.

Record RedisConfig : Type := MkRedisConfig {
  rd_Addr : string;
  rd_Password : string;
  rd_DB : Z;
  rd_KeyPrefix : string;
  rd_LeaseTTLSeconds : Z }.
#[global] Instance RedisConfig_settable : Settable RedisConfig :=
  settable! MkRedisConfig < rd_Addr ; rd_Password ; rd_DB ; rd_KeyPrefix ; rd_LeaseTTLSeconds >.

Record CoordinationConfig : Type := MkCoordinationConfig { co_Kind : string; co_Redis : RedisConfig }.
#[global] Instance CoordinationConfig_settable : Settable CoordinationConfig := settable! MkCoordinationConfig < co_Kind ; co_Redis >.

Record S3Config : Type := MkS3Config { s3_AccessKey : string; s3_SecretKey : string; s3_Region : string }.
#[global] Instance S3Config_settable : Settable S3Config := settable! MkS3Config < s3_AccessKey ; s3_SecretKey ; s3_Region >.

Record OIDCConfig : Type := MkOIDCConfig {
  oi_Enabled : bool;
  oi_IssuerURL : string;
  oi_ClientID : string;
  oi_ClientSecret : string;
  oi_RedirectURL : string;
  oi_Scopes : list string;
  oi_AllowedGroups : list string;
  oi_SessionHours : Z }.
#[global] Instance OIDCConfig_settable : Settable OIDCConfig := settable! MkOIDCConfig
  < oi_Enabled ; oi_IssuerURL ; oi_ClientID ; oi_ClientSecret ; oi_RedirectURL ; oi_Scopes ; oi_AllowedGroups ; oi_SessionHours >.

Record AdminConfig : Type := MkAdminConfig { ad_Enabled : bool; ad_Username : string; ad_Password : string; ad_OIDC : OIDCConfig }.
#[global] Instance AdminConfig_settable : Settable AdminConfig :=
  settable! MkAdminConfig < ad_Enabled ; ad_Username ; ad_Password ; ad_OIDC >.

Record WASMPluginConfig : Type := MkWASMPluginConfig {
  wc_Enabled : bool;
  wc_MaxModuleBytes : Z;
  wc_DefaultTimeoutMillis : Z;
  wc_DefaultMemoryLimitBytes : Z;
  wc_DefaultMaxInputBytes : Z;
  wc_DefaultMaxOutputBytes : Z;
  wc_DefaultMaxAttempts : Z }.
#[global] Instance WASMPluginConfig_settable : Settable WASMPluginConfig := settable! MkWASMPluginConfig
  < wc_Enabled ; wc_MaxModuleBytes ; wc_DefaultTimeoutMillis ; wc_DefaultMemoryLimitBytes ; wc_DefaultMaxInputBytes ;
    wc_DefaultMaxOutputBytes ; wc_DefaultMaxAttempts >.

Record ProviderConfig : Type := MkProviderConfig {
  pc_ID : string;
  pc_Name : string;
  pc_Kind : string;
  pc_Endpoint : string;
  pc_Region : string;
  pc_Bucket : string;
  pc_AccessKey : string;
  pc_SecretKey : string;
  pc_CapacityBytes : Z;
  pc_Priority : Z;
  pc_Enabled : option bool;
  pc_Settings : gmap string string }.

Record LifecycleRuleConfig : Type := MkLifecycleRuleConfig {
  lc_ID : string;
  lc_Prefix : string;
  lc_ExpireAfterDays : Z;
  lc_PurgeTrashAfterDays : Z;
  lc_Enabled : bool }.

(** [None] is a nil pointer, and a nil slice of rules. *)
Record BucketConfig : Type := MkBucketConfig {
  bc_Name : string;
  bc_ReplicationEnabled : bool;
  bc_ReplicationProviderIDs : list string;
  bc_VersioningEnabled : option bool;
  bc_TrashEnabled : option bool;
  bc_TrashRetentionDays : option Z;
  bc_ObjectLockEnabled : option bool;
  bc_DefaultRetentionMode : option string;
  bc_DefaultRetentionDays : option Z;
  bc_LifecycleRules : option (list LifecycleRuleConfig) }.

(** [config.Config]. *)
Record Configuration : Type := MkConfiguration {
  c_Server : ServerConfig;
  c_Store : StoreConfig;
  c_Coordination : CoordinationConfig;
  c_S3 : S3Config;
  c_Admin : AdminConfig;
  c_WASMPlugins : WASMPluginConfig;
  c_Providers : list ProviderConfig;
  c_Buckets : list BucketConfig }.
#[global] Instance Configuration_settable : Settable Configuration := settable! MkConfiguration
  < c_Server ; c_Store ; c_Coordination ; c_S3 ; c_Admin ; c_WASMPlugins ; c_Providers ; c_Buckets >.

Definition bucket_named (name : string) : BucketConfig := MkBucketConfig name false [] None None None None None None None.

(** [Default] *)
Definition Default : Configuration :=
  MkConfiguration
    (MkServerConfig ":8080" "/data" "" "/data/switcher.db" "" "" (Z.shiftl 5 30) (Z.shiftl 512 20) (Z.shiftl 1 20))
    (MkStoreConfig "sqlite" (MkSQLiteStoreConfig "/data/switcher.db" 4 4) (MkPostgresStoreConfig "" 25 10)
       (MkVectorSearchConfig "auto" 16 64 100 20000 64))
    (MkCoordinationConfig "database" (MkRedisConfig "127.0.0.1:6379" "" 0 "bucketmux" 5))
    (MkS3Config "" "" "auto")
    (MkAdminConfig false "admin" "" (MkOIDCConfig false "" "" "" "" [] [] 0))
    (MkWASMPluginConfig true (Z.shiftl 16 20) 30000 (Z.shiftl 128 20) (Z.shiftl 512 20) (Z.shiftl 512 20) 3)
    [] [bucket_named "images"].

(** ** Normalisation *)

Definition default_int (d v : Z) : Z := if v =? 0 then d else v.

Definition normalize_server (s : ServerConfig) : ServerConfig :=
  let s := s <| sv_DataDir ::= default_text "/data" |> in
  s <| sv_MultipartStagingDir ::= default_text (trim_right_byte "/" (sv_DataDir s) +:+ "/multipart") |>
    <| sv_MaxUploadBytes ::= default_int (Z.shiftl 5 30) |> <| sv_MaxMultipartPartBytes ::= default_int (Z.shiftl 512 20) |>
    <| sv_MaxAdminBodyBytes ::= default_int (Z.shiftl 1 20) |>.

Definition normalize_wasm (w : WASMPluginConfig) : WASMPluginConfig :=
  w <| wc_MaxModuleBytes ::= default_int (Z.shiftl 16 20) |> <| wc_DefaultTimeoutMillis ::= default_int 30000 |>
    <| wc_DefaultMemoryLimitBytes ::= default_int (Z.shiftl 128 20) |> <| wc_DefaultMaxInputBytes ::= default_int (Z.shiftl 512 20) |>
    <| wc_DefaultMaxOutputBytes ::= default_int (Z.shiftl 512 20) |> <| wc_DefaultMaxAttempts ::= default_int 3 |>.

Definition normalize_vector (v : VectorSearchConfig) : VectorSearchConfig :=
  v <| vs_Backend ::= λ b, default_text "auto" (to_lower (trim_space b)) |> <| vs_HNSWM ::= default_int 16 |>
    <| vs_EFConstruction ::= default_int 64 |> <| vs_EFSearch ::= default_int 100 |>
    <| vs_MaxScanTuples ::= default_int 20000 |> <| vs_MaxProfiles ::= default_int 64 |>.

Definition normalize_store (dbPath : string) (s : StoreConfig) : StoreConfig :=
  s <| so_Kind ::= λ k, default_text "sqlite" (trim_space k) |>
    <| so_Postgres ::= λ p, p <| pg_MaxOpenConns ::= default_int 25 |> <| pg_MaxIdleConns ::= default_int 10 |> |>
    <| so_VectorSearch ::= normalize_vector |>
    <| so_SQLite ::= λ q, q <| sq_MaxOpenConns ::= default_int 4 |> <| sq_MaxIdleConns ::= default_int 4 |>
                            <| sq_Path ::= default_text dbPath |> |>.

Definition normalize_redis (r : RedisConfig) : RedisConfig :=
  r <| rd_Addr ::= default_text "127.0.0.1:6379" |> <| rd_KeyPrefix ::= default_text "bucketmux" |>
    <| rd_LeaseTTLSeconds ::= default_int 5 |>.

Definition normalize_oidc (o : OIDCConfig) : OIDCConfig :=
  o <| oi_Scopes ::= λ l, match l with [] => ["openid"; "profile"; "email"] | _ => l end |>
    <| oi_SessionHours ::= λ h, if h <=? 0 then 8 else h |>.

Definition Normalize (c : Configuration) : Configuration :=
  let c := c <| c_Server ::= normalize_server |> <| c_WASMPlugins ::= normalize_wasm |> in
  let c := c <| c_Store ::= normalize_store (sv_DBPath (c_Server c)) |> in
  let c := c <| c_Server ::= λ s, s <| sv_DBPath ::= default_text (sq_Path (so_SQLite (c_Store c))) |> |> in
  c <| c_Coordination ::= λ k, k <| co_Kind ::= λ n, default_text "database" (trim_space n) |> <| co_Redis ::= normalize_redis |> |>
    <| c_Admin ::= λ a, a <| ad_OIDC ::= normalize_oidc |> |>.

(** ** What the host provides *)

(** [os.Getenv]; [os.ReadFile], [None] being a file that does not exist;
    [yaml.Unmarshal] into the defaults, which it may
    have changed when it fails; [url.Parse], the scheme and the host of
    a URL that parses; and the order in which a map of two entries is walked. *)
Class ConfigHost : Type := {
  ch_getenv : string → string;
  ch_read : string → result (option string);
  ch_yaml : string → Configuration → Configuration * result unit;
  ch_parse_url : string → option (string * string);
  ch_issuer_first : bool }.

(** ** Validation *)

Definition not_positive (l : list Z) : bool := existsb (λ v, v <=? 0) l.

Definition validate_paths (c : Configuration) : result unit :=
  guard_err ((sv_DBPath (c_Server c) =? "")%string
             && ((so_Kind (c_Store c) =? "")%string || (so_Kind (c_Store c) =? "sqlite")%string)
             && (sq_Path (so_SQLite (c_Store c)) =? "")%string)
    "server.db_path or store.sqlite.path is required".

(** [kind] is the kind of the store, the empty one read as SQLite. *)
Definition validate_kind (c : Configuration) (kind : string) : result unit :=
  if (kind =? "sqlite")%string
  then guard_err ((sq_Path (so_SQLite (c_Store c)) =? "")%string && (sv_DBPath (c_Server c) =? "")%string)
         "store.sqlite.path or server.db_path is required"
  else if (kind =? "postgres")%string
  then guard_err (trim_space (pg_DSN (so_Postgres (c_Store c))) =? "")%string
         "store.postgres.dsn or POSTGRES_DSN is required when store.kind=postgres"
  else Err (ErrText ("unknown store.kind " +:+ quoted kind)).

Definition validate_backend (kind backend : string) : result unit :=
  if (backend =? "")%string || (backend =? "auto")%string || (backend =? "exact")%string then Ok tt
  else if (backend =? "pgvector")%string
  then guard_err (negb (kind =? "postgres")%string) "store.vector_search.backend=pgvector requires store.kind=postgres"
  else Err (ErrText ("unknown store.vector_search.backend " +:+ quoted backend)).

Definition vector_out_of_bounds (v : VectorSearchConfig) : bool :=
  (vs_HNSWM v <? 2) || (100 <? vs_HNSWM v) || (vs_EFConstruction v <? 4) || (10000 <? vs_EFConstruction v)
  || (vs_EFSearch v <? 1) || (10000 <? vs_EFSearch v) || (vs_MaxScanTuples v <? 1) || (vs_MaxProfiles v <? 1) || (1024 <? vs_MaxProfiles v).

Definition validate_coordination (k : CoordinationConfig) : result unit :=
  if (co_Kind k =? "")%string || (co_Kind k =? "database")%string then Ok tt
  else if (co_Kind k =? "redis")%string
  then guard_err (trim_space (rd_Addr (co_Redis k)) =? "")%string "coordination.redis.addr is required when coordination.kind=redis"
  else Err (ErrText ("unknown coordination.kind " +:+ quoted (co_Kind k))).

Definition validate_server (s : ServerConfig) : result unit :=
  try! _ := guard_err (sv_MasterKey s =? "")%string "server.master_key or MASTER_KEY is required" in
  try! _ := guard_err (sv_MaxUploadBytes s <=? 0) "server.max_upload_bytes must be greater than zero" in
  try! _ := guard_err ((sv_MaxMultipartPartBytes s <=? 0) || (sv_MaxUploadBytes s <? sv_MaxMultipartPartBytes s))
              "server.max_multipart_part_bytes must be greater than zero and no larger than max_upload_bytes" in
  guard_err (sv_MaxAdminBodyBytes s <=? 0) "server.max_admin_body_bytes must be greater than zero".

Definition validate_wasm (w : WASMPluginConfig) : result unit :=
  try! _ := guard_err (not_positive [wc_MaxModuleBytes w; wc_DefaultTimeoutMillis w; wc_DefaultMemoryLimitBytes w; wc_DefaultMaxInputBytes w;
                                     wc_DefaultMaxOutputBytes w; wc_DefaultMaxAttempts w])
              "wasm plugin limits must be greater than zero" in
  guard_err ((Z.shiftl 128 20 <? wc_MaxModuleBytes w) || (Z.shiftl 1 30 <? wc_DefaultMemoryLimitBytes w) || (600000 <? wc_DefaultTimeoutMillis w))
    "wasm plugin defaults exceed the hard module, memory, or timeout ceiling".

Definition validate_bucket (b : BucketConfig) : result unit :=
  try! _ := guard_err (bc_Name b =? "")%string "every bucket must define a name" in
  let name := "bucket " +:+ quoted (bc_Name b) in
  try! _ := guard_err (match bc_TrashRetentionDays b with Some d => d <? 0 | None => false end)
              (name +:+ " trash_retention_days cannot be negative") in
  try! _ := guard_err (match bc_DefaultRetentionDays b with Some d => d <? 0 | None => false end)
              (name +:+ " default_retention_days cannot be negative") in
  try! _ := guard_err (match bc_DefaultRetentionMode b with
                       | Some m => negb (m =? "")%string && negb (equal_fold m "governance") && negb (equal_fold m "compliance")
                       | None => false
                       end) (name +:+ " default_retention_mode must be governance or compliance") in
  guard_err (existsb (λ r, (lc_ID r =? "")%string || (lc_ExpireAfterDays r <? 0) || (lc_PurgeTrashAfterDays r <? 0))
               (default [] (bc_LifecycleRules b)))
    (name +:+ " lifecycle rules require an id and non-negative day values").

(** [for _, x := range l { if err := f(x); err != nil { return err } }] *)
Fixpoint validate_each {A} (f : A → result unit) (l : list A) : result unit :=
  match l with [] => Ok tt | x :: l => try! _ := f x in validate_each f l end.

Definition validate_provider (p : ProviderConfig) : result unit :=
  guard_err ((pc_ID p =? "")%string || (pc_Kind p =? "")%string || (pc_Bucket p =? "")%string)
    ("provider " +:+ quoted (pc_Name p) +:+ " must define id, kind and bucket").

Section host.
Context `{!ConfigHost}.

Definition absolute_url (raw : string) : bool :=
  match ch_parse_url raw with
  | Some (scheme, host) => negb (scheme =? "")%string && negb (host =? "")%string
  | None => false
  end.

Definition validate_url (entry : string * string) : result unit :=
  guard_err (negb (absolute_url entry.2)) ("admin OIDC " +:+ entry.1 +:+ " must be an absolute URL").

Definition validate_oidc (o : OIDCConfig) : result unit :=
  if oi_Enabled o then
    try! _ := guard_err ((oi_IssuerURL o =? "")%string || (oi_ClientID o =? "")%string || (oi_ClientSecret o =? "")%string || (oi_RedirectURL o =? "")%string)
                "admin OIDC issuer_url, client_id, client_secret and redirect_url are required" in
    let issuer := ("issuer_url", oi_IssuerURL o) in
    let redirect := ("redirect_url", oi_RedirectURL o) in
    validate_each validate_url (if ch_issuer_first then [issuer; redirect] else [redirect; issuer])
  else Ok tt.

Definition validate_admin (a : AdminConfig) : result unit :=
  try! _ := guard_err (ad_Enabled a && ((ad_Username a =? "")%string || (ad_Password a =? "")%string) && negb (oi_Enabled (ad_OIDC a)))
              "admin username/password or OIDC are required when admin is enabled" in
  validate_oidc (ad_OIDC a).

(** [Config.Validate] *)
Definition Validate_config (c : Configuration) : result unit :=
  try! _ := guard_err (sv_Addr (c_Server c) =? "")%string "server.addr is required" in
  try! _ := validate_paths c in
  let kind := default_text "sqlite" (so_Kind (c_Store c)) in
  try! _ := validate_kind c kind in
  let vector := so_VectorSearch (c_Store c) in
  try! _ := validate_backend kind (vs_Backend vector) in
  try! _ := guard_err (vector_out_of_bounds vector) "store.vector_search HNSW/search limits are outside supported bounds" in
  try! _ := validate_coordination (c_Coordination c) in
  try! _ := validate_server (c_Server c) in
  try! _ := validate_wasm (c_WASMPlugins c) in
  try! _ := guard_err ((s3_AccessKey (c_S3 c) =? "")%string || (s3_SecretKey (c_S3 c) =? "")%string)
              "s3.access_key and s3.secret_key are required" in
  try! _ := validate_admin (c_Admin c) in
  try! _ := validate_each validate_provider (c_Providers c) in
  validate_each validate_bucket (c_Buckets c).

(** ** The environment *)

(** [strings.TrimSpace(os.Getenv(env))]; [None] when it is empty. *)
Definition env_value (env : string) : option string :=
  let value := trim_space (ch_getenv env) in if (value =? "")%string then None else Some value.

Definition setString (env : string) (target : string) : string := default target (env_value env).
Definition setInt64 (env : string) (target : Z) : Z := default target (env_value env ≫= parse_int64).
Definition setInt : string → Z → Z := setInt64.

(** [strconv.ParseBool] *)
Definition parse_bool (s : string) : option bool :=
  if existsb (String.eqb s) ["1"; "t"; "T"; "true"; "TRUE"; "True"] then Some true
  else if existsb (String.eqb s) ["0"; "f"; "F"; "false"; "FALSE"; "False"] then Some false
  else None.

(** The error of the parse is dropped, and its value is false then. *)
Definition set_bool (env : string) (target : bool) : bool :=
  match env_value env with Some value => default false (parse_bool value) | None => target end.

(** The error of the parse keeps the target. *)
Definition set_bool_checked (env : string) (target : bool) : bool := default target (env_value env ≫= parse_bool).

Definition splitCSV (value : string) : list string :=
  List.filter (λ item, negb (item =? "")%string) (trim_space <$> string_split "," value).

Definition server_env (s : ServerConfig) : ServerConfig :=
  s <| sv_Addr ::= setString "ADDR" |> <| sv_DataDir ::= setString "DATA_DIR" |>
    <| sv_MultipartStagingDir ::= setString "MULTIPART_STAGING_DIR" |> <| sv_DBPath ::= setString "DB_PATH" |>
    <| sv_MasterKey ::= setString "MASTER_KEY" |> <| sv_PublicBaseURL ::= setString "PUBLIC_BASE_URL" |>
    <| sv_MaxUploadBytes ::= setInt64 "MAX_UPLOAD_BYTES" |> <| sv_MaxMultipartPartBytes ::= setInt64 "MAX_MULTIPART_PART_BYTES" |>
    <| sv_MaxAdminBodyBytes ::= setInt64 "MAX_ADMIN_BODY_BYTES" |>.

Definition sqlite_env (q : SQLiteStoreConfig) : SQLiteStoreConfig :=
  q <| sq_Path ::= λ p, setString "SQLITE_PATH" (setString "DB_PATH" p) |>
    <| sq_MaxOpenConns ::= setInt "SQLITE_MAX_OPEN_CONNS" |> <| sq_MaxIdleConns ::= setInt "SQLITE_MAX_IDLE_CONNS" |>.

Definition postgres_env (p : PostgresStoreConfig) : PostgresStoreConfig :=
  p <| pg_DSN ::= setString "POSTGRES_DSN" |> <| pg_MaxOpenConns ::= setInt "POSTGRES_MAX_OPEN_CONNS" |>
    <| pg_MaxIdleConns ::= setInt "POSTGRES_MAX_IDLE_CONNS" |>.

Definition vector_env (v : VectorSearchConfig) : VectorSearchConfig :=
  v <| vs_Backend ::= setString "VECTOR_SEARCH_BACKEND" |> <| vs_HNSWM ::= setInt "VECTOR_SEARCH_HNSW_M" |>
    <| vs_EFConstruction ::= setInt "VECTOR_SEARCH_EF_CONSTRUCTION" |> <| vs_EFSearch ::= setInt "VECTOR_SEARCH_EF_SEARCH" |>
    <| vs_MaxScanTuples ::= setInt "VECTOR_SEARCH_MAX_SCAN_TUPLES" |> <| vs_MaxProfiles ::= setInt "VECTOR_SEARCH_MAX_PROFILES" |>.

Definition store_env (s : StoreConfig) : StoreConfig :=
  s <| so_Kind ::= setString "STORE_KIND" |> <| so_SQLite ::= sqlite_env |> <| so_Postgres ::= postgres_env |>
    <| so_VectorSearch ::= vector_env |>.

Definition redis_env (r : RedisConfig) : RedisConfig :=
  r <| rd_Addr ::= setString "REDIS_ADDR" |> <| rd_Password ::= setString "REDIS_PASSWORD" |> <| rd_DB ::= setInt "REDIS_DB" |>
    <| rd_KeyPrefix ::= setString "REDIS_KEY_PREFIX" |> <| rd_LeaseTTLSeconds ::= setInt "REDIS_LEASE_TTL_SECONDS" |>.

Definition coordination_env (k : CoordinationConfig) : CoordinationConfig :=
  k <| co_Kind ::= setString "COORDINATION_KIND" |> <| co_Redis ::= redis_env |>.

Definition s3_env (s : S3Config) : S3Config :=
  s <| s3_AccessKey ::= setString "S3_ACCESS_KEY" |> <| s3_SecretKey ::= setString "S3_SECRET_KEY" |> <| s3_Region ::= setString "S3_REGION" |>.

Definition oidc_env (o : OIDCConfig) : OIDCConfig :=
  o <| oi_IssuerURL ::= setString "ADMIN_OIDC_ISSUER_URL" |> <| oi_ClientID ::= setString "ADMIN_OIDC_CLIENT_ID" |>
    <| oi_ClientSecret ::= setString "ADMIN_OIDC_CLIENT_SECRET" |> <| oi_RedirectURL ::= setString "ADMIN_OIDC_REDIRECT_URL" |>
    <| oi_SessionHours ::= setInt "ADMIN_OIDC_SESSION_HOURS" |> <| oi_Enabled ::= set_bool "ADMIN_OIDC_ENABLED" |>
    <| oi_AllowedGroups ::= λ groups, match env_value "ADMIN_OIDC_ALLOWED_GROUPS" with Some value => splitCSV value | None => groups end |>.

Definition admin_env (a : AdminConfig) : AdminConfig :=
  a <| ad_Username ::= setString "ADMIN_USER" |> <| ad_Password ::= setString "ADMIN_PASSWORD" |> <| ad_OIDC ::= oidc_env |>
    <| ad_Enabled ::= set_bool_checked "ADMIN_ENABLED" |>.

Definition wasm_env (w : WASMPluginConfig) : WASMPluginConfig :=
  w <| wc_MaxModuleBytes ::= setInt64 "WASM_PLUGIN_MAX_MODULE_BYTES" |>
    <| wc_DefaultTimeoutMillis ::= setInt "WASM_PLUGIN_DEFAULT_TIMEOUT_MILLIS" |>
    <| wc_DefaultMemoryLimitBytes ::= setInt64 "WASM_PLUGIN_DEFAULT_MEMORY_LIMIT_BYTES" |>
    <| wc_DefaultMaxInputBytes ::= setInt64 "WASM_PLUGIN_DEFAULT_MAX_INPUT_BYTES" |>
    <| wc_DefaultMaxOutputBytes ::= setInt64 "WASM_PLUGIN_DEFAULT_MAX_OUTPUT_BYTES" |>
    <| wc_DefaultMaxAttempts ::= setInt "WASM_PLUGIN_DEFAULT_MAX_ATTEMPTS" |> <| wc_Enabled ::= set_bool "WASM_PLUGINS_ENABLED" |>.

(** [applyEnv] *)
Definition applyEnv (c : Configuration) : Configuration :=
  c <| c_Server ::= server_env |> <| c_Store ::= store_env |> <| c_Coordination ::= coordination_env |> <| c_S3 ::= s3_env |>
    <| c_Admin ::= admin_env |> <| c_WASMPlugins ::= wasm_env |>.

(** [Load]: the configuration, and the error next to it. *)
Definition Load (path : string) : Configuration * result unit :=
  let read := if (path =? "")%string then Ok None else ch_read path in
  match read with
  | Err e => (Default, Err (ErrWrap "read config" e))
  | Ok data =>
      let '(c, parsed) := match data with Some text => ch_yaml text Default | None => (Default, Ok tt) end in
      match parsed with
      | Err e => (c, Err (ErrWrap "parse config" e))
      | Ok _ => let c := Normalize (applyEnv c) in (c, Validate_config c)
      end
  end.
End host.
