(* ===== verification/Bootstrap.v ===== *)
(** The start of the service, [Bootstrap] and the part of [NewService] of
    [app/service.go] that changes state: the buckets and providers of the
    configuration are written to the store, and what it validates is what the
    service runs with ([load_valid]). *)
From S2P Require Import Prelude GoTime Text Domain ProviderErrors World Sql StoreProviders StoreObjects Providers Operations Access Configuration Plugins PluginsFacts.

(** The part of the configuration the service reads. *)
Definition service_config (c : Configuration) : Config :=
  MkConfig (sv_MaxUploadBytes (c_Server c)) (wc_Enabled (c_WASMPlugins c)) (sv_MultipartStagingDir (c_Server c))
    (sv_MaxMultipartPartBytes (c_Server c)) (wc_MaxModuleBytes (c_WASMPlugins c)) (wc_DefaultTimeoutMillis (c_WASMPlugins c))
    (wc_DefaultMemoryLimitBytes (c_WASMPlugins c)) (wc_DefaultMaxInputBytes (c_WASMPlugins c)) (wc_DefaultMaxOutputBytes (c_WASMPlugins c))
    (wc_DefaultMaxAttempts (c_WASMPlugins c)) (s3_AccessKey (c_S3 c)) (s3_SecretKey (c_S3 c)) (s3_Region (c_S3 c)).

Definition lifecycle_rule (r : LifecycleRuleConfig) : LifecycleRule :=
  MkLifecycleRule (lc_ID r) (lc_Prefix r) (lc_ExpireAfterDays r) (lc_PurgeTrashAfterDays r) (lc_Enabled r).

(** What the configuration says of a bucket, over what it was. *)
Definition configured_bucket (b : BucketConfig) (bucket : Bucket) : Bucket :=
  let ids := normalizeProviderIDs (bc_ReplicationProviderIDs b) in
  bucket <| b_ReplicationEnabled := negb (Nat.eqb (List.length ids) 0) || bc_ReplicationEnabled b |>
         <| b_ReplicationProviderIDs := ids |>
         <| b_VersioningEnabled ::= λ old, default old (bc_VersioningEnabled b) |>
         <| b_TrashEnabled ::= λ old, default old (bc_TrashEnabled b) |>
         <| b_TrashRetentionDays ::= λ old, default old (bc_TrashRetentionDays b) |>
         <| b_ObjectLockEnabled ::= λ old, default old (bc_ObjectLockEnabled b) |>
         <| b_DefaultRetentionMode ::= λ old, default old (option_map to_upper (bc_DefaultRetentionMode b)) |>
         <| b_DefaultRetentionDays ::= λ old, default old (bc_DefaultRetentionDays b) |>
         <| b_LifecycleRules ::= λ old, default old (option_map (map lifecycle_rule) (bc_LifecycleRules b)) |>.

Definition configured_account (p : ProviderConfig) (secret : string) : ProviderAccount :=
  zero_ProviderAccount <| p_ID := pc_ID p |> <| p_Name := pc_Name p |> <| p_Kind := pc_Kind p |> <| p_Endpoint := pc_Endpoint p |>
    <| p_Region := pc_Region p |> <| p_Bucket := pc_Bucket p |> <| p_AccessKey := pc_AccessKey p |> <| p_SecretEncrypted := secret |>
    <| p_CapacityBytes := pc_CapacityBytes p |> <| p_Priority := pc_Priority p |> <| p_Enabled := default true (pc_Enabled p) |>
    <| p_Settings := pc_Settings p |>.

Section bootstrap.
Context `{Env}.

Definition bootstrap_bucket (b : BucketConfig) : M (result unit) :=
  if (bc_Name b =? "")%string then ret_ok tt
  else
    let! found := GetBucket (bc_Name b) in
    match found with
    | Err e =>
        if errors_is e ErrNotFound
        then wrap_err ("bootstrap bucket " +:+ bc_Name b) (UpsertBucket (configured_bucket b (zero_Bucket <| b_Name := bc_Name b |>)))
        else ret_err (ErrWrap ("load bucket " +:+ bc_Name b) e)
    | Ok bucket => wrap_err ("bootstrap bucket " +:+ bc_Name b) (UpsertBucket (configured_bucket b bucket))
    end.

Definition bootstrap_provider (p : ProviderConfig) : M (result unit) :=
  let? secret := (if (pc_SecretKey p =? "")%string then ret_ok ""
                  else wrap_err ("encrypt provider " +:+ pc_ID p +:+ " secret") (encrypt (pc_SecretKey p))) in
  wrap_err ("bootstrap provider " +:+ pc_ID p) (UpsertProvider (configured_account p secret)).

Definition Bootstrap (c : Configuration) : M (result unit) :=
  let? _ := for_each_ok (c_Buckets c) bootstrap_bucket in
  for_each_ok (c_Providers c) bootstrap_provider.

(** What [NewService] does to the store, for a normalised configuration. *)
Definition start_service (c : Configuration) : M (result unit) :=
  let? _ := Bootstrap (Normalize c) in
  let! t := now in
  let? _ := wrap_err "recover provider reservations" (RecoverExpiredProviderReservations t) in
  ret_ok tt.
End bootstrap.

(** ** A loaded configuration *)

(** What a configuration that passed validation promises. *)
Record configuration_wf (c : Configuration) : Prop := {
  cw_addr : sv_Addr (c_Server c) ≠ "" ∧ sv_MasterKey (c_Server c) ≠ "";
  cw_store : (so_Kind (c_Store c) = "sqlite" ∧ sq_Path (so_SQLite (c_Store c)) ≠ "")
             ∨ (so_Kind (c_Store c) = "postgres" ∧ pg_DSN (so_Postgres (c_Store c)) ≠ "");
  cw_backend : vs_Backend (so_VectorSearch (c_Store c)) ∈ ["auto"; "exact"; "pgvector"]
               ∧ (vs_Backend (so_VectorSearch (c_Store c)) = "pgvector" → so_Kind (c_Store c) = "postgres");
  cw_vector : let v := so_VectorSearch (c_Store c) in
    2 ≤ vs_HNSWM v ≤ 100 ∧ 4 ≤ vs_EFConstruction v ≤ 10000 ∧ 1 ≤ vs_EFSearch v ≤ 10000 ∧ 1 ≤ vs_MaxScanTuples v ∧ 1 ≤ vs_MaxProfiles v ≤ 1024;
  cw_coordination : co_Kind (c_Coordination c) = "database"
                    ∨ (co_Kind (c_Coordination c) = "redis" ∧ rd_Addr (co_Redis (c_Coordination c)) ≠ "");
  cw_upload : 0 < sv_MaxMultipartPartBytes (c_Server c) ≤ sv_MaxUploadBytes (c_Server c);
  cw_admin_body : 0 < sv_MaxAdminBodyBytes (c_Server c);
  cw_staging : sv_DataDir (c_Server c) ≠ "" ∧ sv_MultipartStagingDir (c_Server c) ≠ "";
  cw_wasm : let w := c_WASMPlugins c in
    0 < wc_MaxModuleBytes w ≤ 2 ^ 27 ∧ 0 < wc_DefaultTimeoutMillis w ≤ 600000 ∧ 0 < wc_DefaultMemoryLimitBytes w ≤ 2 ^ 30
    ∧ 0 < wc_DefaultMaxInputBytes w ∧ 0 < wc_DefaultMaxOutputBytes w ∧ 0 < wc_DefaultMaxAttempts w;
  cw_s3 : s3_AccessKey (c_S3 c) ≠ "" ∧ s3_SecretKey (c_S3 c) ≠ "";
  cw_admin : ad_Enabled (c_Admin c) = true →
    (ad_Username (c_Admin c) ≠ "" ∧ ad_Password (c_Admin c) ≠ "") ∨ oi_Enabled (ad_OIDC (c_Admin c)) = true;
  cw_oidc : oi_Enabled (ad_OIDC (c_Admin c)) = true →
    oi_ClientID (ad_OIDC (c_Admin c)) ≠ "" ∧ oi_ClientSecret (ad_OIDC (c_Admin c)) ≠ "" ∧ 0 < oi_SessionHours (ad_OIDC (c_Admin c));
  cw_providers : Forall (λ p, pc_ID p ≠ "" ∧ pc_Kind p ≠ "" ∧ pc_Bucket p ≠ "") (c_Providers c);
  cw_buckets : Forall (λ b, bc_Name b ≠ "" ∧ 0 ≤ default 0 (bc_TrashRetentionDays b) ∧ 0 ≤ default 0 (bc_DefaultRetentionDays b)
                        ∧ Forall (λ r, lc_ID r ≠ "" ∧ 0 ≤ lc_ExpireAfterDays r ∧ 0 ≤ lc_PurgeTrashAfterDays r) (default [] (bc_LifecycleRules b)))
                 (c_Buckets c) }.

Lemma validate_each_ok {A} (f : A → result unit) l u : validate_each f l = Ok u → Forall (λ x, f x = Ok tt) l.
Proof.
  revert u. induction l as [|x l IH]; intros u H; [constructor|]. cbn in H. split_ok H as v Hx. destruct v. constructor; [done|]. by eapply IH.
Qed.

Lemma default_text_ne d v : d ≠ "" → default_text d v ≠ "".
Proof. intros Hd. unfold default_text. destruct (String.eqb_spec v ""); congruence. Qed.

Lemma or_false_ne s b : (s =? "")%string || b = false → s ≠ "" ∧ b = false.
Proof. intros [Hs Hb]%orb_false_iff. by apply String.eqb_neq in Hs. Qed.

Lemma trim_ne s : (trim_space s =? "")%string = false → s ≠ "".
Proof. intros H%String.eqb_neq ->. by apply H. Qed.

(** The part of the conditions that normalisation gives. *)
Record normal (c : Configuration) : Prop := {
  nm_kind : so_Kind (c_Store c) ≠ "";
  nm_backend : vs_Backend (so_VectorSearch (c_Store c)) ≠ "";
  nm_coordination : co_Kind (c_Coordination c) ≠ "";
  nm_dirs : sv_DataDir (c_Server c) ≠ "" ∧ sv_MultipartStagingDir (c_Server c) ≠ "";
  nm_session : 0 < oi_SessionHours (ad_OIDC (c_Admin c));
  nm_path : sv_DBPath (c_Server c) ≠ "" → sq_Path (so_SQLite (c_Store c)) ≠ "" }.

Lemma Normalize_normal c : normal (Normalize c).
Proof.
  split; unfold Normalize, normalize_store, normalize_vector, normalize_server, normalize_oidc; cbv zeta; rsimpl.
  - by apply default_text_ne.
  - by apply default_text_ne.
  - by apply default_text_ne.
  - split; apply default_text_ne; [done|]. destruct (trim_right_byte _ _); done.
  - destruct (_ <=? 0) eqn:Hh; lia.
  - unfold default_text. repeat case_match; rewrite ?String.eqb_eq, ?String.eqb_neq in *; congruence.
Qed.

Section load.
Context `{!ConfigHost}.

Lemma valid_kind c u : normal c → validate_kind c (default_text "sqlite" (so_Kind (c_Store c))) = Ok u →
  (so_Kind (c_Store c) = "sqlite" ∧ sq_Path (so_SQLite (c_Store c)) ≠ "")
  ∨ (so_Kind (c_Store c) = "postgres" ∧ pg_DSN (so_Postgres (c_Store c)) ≠ "").
Proof.
  intros Hn. unfold default_text. destruct (String.eqb_spec (so_Kind (c_Store c)) "") as [|_]; [by destruct (nm_kind _ Hn)|].
  unfold validate_kind. destruct (String.eqb_spec (so_Kind (c_Store c)) "sqlite") as [->|_].
  - intros Hv%guard_err_Ok. left. split; [done|]. apply andb_false_iff in Hv as [Hv%String.eqb_neq|Hv%String.eqb_neq]; [done|]. by apply (nm_path _ Hn).
  - destruct (String.eqb_spec (so_Kind (c_Store c)) "postgres") as [->|_]; [|discriminate]. intros Hv%guard_err_Ok. right. split; [done|]. by apply trim_ne.
Qed.

Lemma valid_backend kind backend u : backend ≠ "" → validate_backend kind backend = Ok u →
  backend ∈ ["auto"; "exact"; "pgvector"] ∧ (backend = "pgvector" → kind = "postgres").
Proof.
  intros Hne. unfold validate_backend. destruct (String.eqb_spec backend ""); [done|].
  destruct (String.eqb_spec backend "auto") as [->|]; [intros _; split; [set_solver|done]|].
  destruct (String.eqb_spec backend "exact") as [->|]; [intros _; split; [set_solver|done]|]. cbn.
  destruct (String.eqb_spec backend "pgvector") as [->|]; [|discriminate].
  intros Hv%guard_err_Ok. split; [set_solver|]. intros _. by apply negb_false_iff, String.eqb_eq in Hv.
Qed.

Lemma valid_vector v : vector_out_of_bounds v = false →
  2 ≤ vs_HNSWM v ≤ 100 ∧ 4 ≤ vs_EFConstruction v ≤ 10000 ∧ 1 ≤ vs_EFSearch v ≤ 10000 ∧ 1 ≤ vs_MaxScanTuples v ∧ 1 ≤ vs_MaxProfiles v ≤ 1024.
Proof. unfold vector_out_of_bounds. rewrite !orb_false_iff, !Z.ltb_ge. lia. Qed.

Lemma valid_coordination k u : co_Kind k ≠ "" → validate_coordination k = Ok u →
  co_Kind k = "database" ∨ (co_Kind k = "redis" ∧ rd_Addr (co_Redis k) ≠ "").
Proof.
  intros Hne. unfold validate_coordination. destruct (String.eqb_spec (co_Kind k) ""); [done|].
  destruct (String.eqb_spec (co_Kind k) "database") as [->|]; [by left|]. cbn.
  destruct (String.eqb_spec (co_Kind k) "redis") as [->|]; [|discriminate]. intros Hv%guard_err_Ok. right. split; [done|]. by apply trim_ne.
Qed.

Lemma valid_server s u : validate_server s = Ok u →
  sv_MasterKey s ≠ "" ∧ 0 < sv_MaxMultipartPartBytes s ≤ sv_MaxUploadBytes s ∧ 0 < sv_MaxAdminBodyBytes s.
Proof.
  unfold validate_server. intros Hv. split_ok Hv as u1 E1. split_ok Hv as u2 E2. split_ok Hv as u3 E3. apply guard_err_Ok in Hv.
  apply String.eqb_neq in E1. apply orb_false_iff in E3 as [E3 E4]. split; [done|]. lia.
Qed.

Lemma valid_wasm w u : validate_wasm w = Ok u →
  0 < wc_MaxModuleBytes w ≤ 2 ^ 27 ∧ 0 < wc_DefaultTimeoutMillis w ≤ 600000 ∧ 0 < wc_DefaultMemoryLimitBytes w ≤ 2 ^ 30
  ∧ 0 < wc_DefaultMaxInputBytes w ∧ 0 < wc_DefaultMaxOutputBytes w ∧ 0 < wc_DefaultMaxAttempts w.
Proof.
  unfold validate_wasm, not_positive. intros Hv. split_ok Hv as u1 E1. apply guard_err_Ok in Hv. cbn [existsb] in E1.
  rewrite !orb_false_iff in E1, Hv. change (Z.shiftl 128 20) with (2 ^ 27) in Hv. change (Z.shiftl 1 30) with (2 ^ 30) in Hv. lia.
Qed.

Lemma valid_admin a u : validate_admin a = Ok u →
  (ad_Enabled a = true → (ad_Username a ≠ "" ∧ ad_Password a ≠ "") ∨ oi_Enabled (ad_OIDC a) = true)
  ∧ (oi_Enabled (ad_OIDC a) = true → oi_ClientID (ad_OIDC a) ≠ "" ∧ oi_ClientSecret (ad_OIDC a) ≠ "").
Proof.
  unfold validate_admin, validate_oidc. intros Hv. split_ok Hv as u1 E1. split.
  - intros Hen. rewrite Hen in E1. destruct (oi_Enabled (ad_OIDC a)); [by right|]. rewrite andb_true_r in E1. cbn in E1.
    apply orb_false_iff in E1 as [E1%String.eqb_neq E2%String.eqb_neq]. by left.
  - intros Ho. rewrite Ho in Hv. split_ok Hv as u2 E2. rewrite !orb_false_iff, !String.eqb_neq in E2. tauto.
Qed.

Lemma valid_provider p : validate_provider p = Ok tt → pc_ID p ≠ "" ∧ pc_Kind p ≠ "" ∧ pc_Bucket p ≠ "".
Proof. intros Hv%guard_err_Ok. rewrite !orb_false_iff, !String.eqb_neq in Hv. tauto. Qed.

Lemma valid_bucket b : validate_bucket b = Ok tt →
  bc_Name b ≠ "" ∧ 0 ≤ default 0 (bc_TrashRetentionDays b) ∧ 0 ≤ default 0 (bc_DefaultRetentionDays b)
  ∧ Forall (λ r, lc_ID r ≠ "" ∧ 0 ≤ lc_ExpireAfterDays r ∧ 0 ≤ lc_PurgeTrashAfterDays r) (default [] (bc_LifecycleRules b)).
Proof.
  unfold validate_bucket. intros Hv. split_ok Hv as u1 E1. cbv zeta in Hv. split_ok Hv as u2 E2. split_ok Hv as u3 E3. split_ok Hv as u4 E4.
  apply guard_err_Ok in Hv. apply String.eqb_neq in E1. split_and!; [done| | |].
  - destruct (bc_TrashRetentionDays b); cbn; lia.
  - destruct (bc_DefaultRetentionDays b); cbn; lia.
  - apply Forall_forall. intros r Hr. apply Bool.not_true_iff_false in Hv. apply not_true_is_false in Hv.
    destruct (((lc_ID r =? "")%string || (lc_ExpireAfterDays r <? 0) || (lc_PurgeTrashAfterDays r <? 0))) eqn:Hbad.
    + exfalso. eapply eq_true_false_abs; [|exact Hv]. apply existsb_exists. exists r. split; [by apply list_elem_of_In|done].
    + rewrite !orb_false_iff, String.eqb_neq in Hbad. split_and!; [tauto|lia|lia].
Qed.

Lemma validate_wf c : normal c → Validate_config c = Ok tt → configuration_wf c.
Proof.
  intros Hn. unfold Validate_config. cbv zeta. intros Hv. split_ok Hv as u1 E1. split_ok Hv as u2 E2. split_ok Hv as u3 E3.
  split_ok Hv as u4 E4. split_ok Hv as u5 E5. split_ok Hv as u6 E6. split_ok Hv as u7 E7. split_ok Hv as u8 E8. split_ok Hv as u9 E9.
  split_ok Hv as u10 E10. split_ok Hv as u11 E11. apply validate_each_ok in E11, Hv. apply String.eqb_neq in E1. apply or_false_ne in E9 as [S1 S2%String.eqb_neq].
  apply valid_server in E7 as (V1 & V2 & V3). apply valid_admin in E10 as [A1 A2]. split; try done.
  - by eapply valid_kind.
  - apply valid_backend in E4 as [B1 B2]; [|by apply nm_backend]. split; [done|]. intros Hb. specialize (B2 Hb). unfold default_text in B2.
    destruct (String.eqb_spec (so_Kind (c_Store c)) ""); [discriminate|done].
  - by apply valid_vector.
  - eapply valid_coordination; [by apply nm_coordination|done].
  - by apply nm_dirs.
  - by eapply valid_wasm.
  - intros Ho. destruct (A2 Ho). split_and!; [done|done|by apply nm_session].
  - eapply Forall_impl; [exact E11|]. apply valid_provider.
  - eapply Forall_impl; [exact Hv|]. apply valid_bucket.
Qed.
End load.

(** ** Normalising twice *)

Lemma default_text_idem d v : default_text d (default_text d v) = default_text d v.
Proof. unfold default_text. destruct (String.eqb_spec v "") as [->|Hv]; [by destruct (String.eqb_spec d "")|]. by destruct (String.eqb_spec v ""). Qed.

Lemma default_text_id d v : v ≠ "" → default_text d v = v.
Proof. unfold default_text. by destruct (String.eqb_spec v ""). Qed.

Lemma default_int_idem d v : d ≠ 0 → default_int d (default_int d v) = default_int d v.
Proof. unfold default_int. intros Hd. destruct (Z.eqb_spec v 0) as [->|Hv]; [by destruct (Z.eqb_spec d 0)|]. by destruct (Z.eqb_spec v 0). Qed.

(** Two records with the same fields are equal. *)
Ltac record_eq inst := match goal with |- ?a = ?b =>
    transitivity (inst a); [generalize a; by intros []|]; transitivity (inst b); [|generalize b; by intros []];
    unfold inst; f_equal; rsimpl end.

Lemma normalize_server_idem s : normalize_server (normalize_server s) = normalize_server s.
Proof.
  record_eq ServerConfig_settable; unfold normalize_server; cbv zeta; rsimpl;
    rewrite ?default_text_idem; try done; by apply default_int_idem.
Qed.

Lemma normalize_wasm_idem w : normalize_wasm (normalize_wasm w) = normalize_wasm w.
Proof. record_eq WASMPluginConfig_settable; unfold normalize_wasm; rsimpl; try done; by apply default_int_idem. Qed.

Lemma normalize_redis_idem r : normalize_redis (normalize_redis r) = normalize_redis r.
Proof. record_eq RedisConfig_settable; unfold normalize_redis; rsimpl; first [done | apply default_text_idem | by apply default_int_idem]. Qed.

Lemma normalize_oidc_idem o : normalize_oidc (normalize_oidc o) = normalize_oidc o.
Proof.
  record_eq OIDCConfig_settable; unfold normalize_oidc; rsimpl; try done; [by destruct (oi_Scopes o)|].
  destruct (oi_SessionHours o <=? 0) eqn:Hh; [done|by rewrite Hh].
Qed.

Lemma normal_backend b : b ∈ ["auto"; "exact"; "pgvector"] → default_text "auto" (to_lower (trim_space b)) = b.
Proof. rewrite !elem_of_cons, elem_of_nil. intros [->|[->|[->|[]]]]; reflexivity. Qed.

Lemma normalize_vector_idem v : vs_Backend v ∈ ["auto"; "exact"; "pgvector"] →
  (∃ u, v = normalize_vector u) → normalize_vector v = v.
Proof.
  intros Hb [u ->]. record_eq VectorSearchConfig_settable; try (unfold normalize_vector; rsimpl; by apply default_int_idem).
  set (v := normalize_vector u) in *. replace (vs_Backend (normalize_vector v)) with (default_text "auto" (to_lower (trim_space (vs_Backend v))))
    by (unfold normalize_vector; by rsimpl).
  by apply normal_backend.
Qed.

Lemma dbpath_stable d s : default_text (default_text (default_text d s) d) (default_text d s) = default_text d s.
Proof. unfold default_text. destruct (String.eqb_spec s "") as [->|Hs]; destruct (String.eqb_spec d "") as [->|Hd]; cbn; repeat case_match; rewrite ?String.eqb_eq, ?String.eqb_neq in *; congruence. Qed.

Lemma dbpath_stable' d s :
  default_text (default_text (default_text (default_text d s) d) (default_text d s)) (default_text (default_text d s) d) = default_text (default_text d s) d.
Proof. unfold default_text. destruct (String.eqb_spec s "") as [->|Hs]; destruct (String.eqb_spec d "") as [->|Hd]; cbn; repeat case_match; rewrite ?String.eqb_eq, ?String.eqb_neq in *; congruence. Qed.

Lemma Configuration_eq a b : c_Server a = c_Server b → c_Store a = c_Store b → c_Coordination a = c_Coordination b → c_S3 a = c_S3 b →
  c_Admin a = c_Admin b → c_WASMPlugins a = c_WASMPlugins b → c_Providers a = c_Providers b → c_Buckets a = c_Buckets b → a = b.
Proof. destruct a, b. cbn. by intros -> -> -> -> -> -> -> ->. Qed.

Section twice.
Variable c0 : Configuration.
Local Abbreviation c := (Normalize c0).
Hypothesis Hkind : so_Kind (c_Store c) ∈ ["sqlite"; "postgres"].
Hypothesis Hback : vs_Backend (so_VectorSearch (c_Store c)) ∈ ["auto"; "exact"; "pgvector"].
Hypothesis Hcoord : co_Kind (c_Coordination c) ∈ ["database"; "redis"].

Lemma twice_server : c_Server (Normalize c) = c_Server c.
Proof.
  unfold Normalize, normalize_store, normalize_server. cbv zeta. rsimpl. record_eq ServerConfig_settable; try by rewrite ?default_text_idem.
  all: try by apply default_int_idem.
  apply dbpath_stable'.
Qed.

Lemma twice_wasm : c_WASMPlugins (Normalize c) = c_WASMPlugins c.
Proof. unfold Normalize. cbv zeta. rsimpl. apply normalize_wasm_idem. Qed.

Lemma twice_admin : c_Admin (Normalize c) = c_Admin c.
Proof. unfold Normalize. cbv zeta. rsimpl. record_eq AdminConfig_settable; try done. apply normalize_oidc_idem. Qed.

Lemma twice_coordination : c_Coordination (Normalize c) = c_Coordination c.
Proof.
  revert Hcoord. unfold Normalize. cbv zeta. rsimpl. intros Hc. record_eq CoordinationConfig_settable; [|apply normalize_redis_idem].
  set (k := default_text "database" _) in *. clearbody k. revert Hc. rewrite !elem_of_cons, elem_of_nil. intros [->|[->|[]]]; reflexivity.
Qed.

Lemma twice_store : c_Store (Normalize c) = c_Store c.
Proof.
  revert Hkind Hback. unfold Normalize, normalize_store, normalize_server. cbv zeta. rsimpl. intros Hk Hb. record_eq StoreConfig_settable.
  - set (k := default_text "sqlite" _) in *. clearbody k. revert Hk. rewrite !elem_of_cons, elem_of_nil. intros [->|[->|[]]]; reflexivity.
  - record_eq SQLiteStoreConfig_settable; try by apply default_int_idem. apply dbpath_stable.
  - record_eq PostgresStoreConfig_settable; try done; by apply default_int_idem.
  - apply normalize_vector_idem; eauto.
Qed.

Lemma Normalize_twice : Normalize c = c.
Proof.
  apply Configuration_eq; [apply twice_server | apply twice_store | apply twice_coordination | | apply twice_admin | apply twice_wasm | |];
    unfold Normalize; cbv zeta; by rsimpl.
Qed.
End twice.

Section valid.
Context `{!ConfigHost}.

Lemma validated_fixed c0 : Validate_config (Normalize c0) = Ok tt → configuration_wf (Normalize c0) ∧ Normalize (Normalize c0) = Normalize c0.
Proof.
  intros Hv. pose proof (validate_wf _ (Normalize_normal c0) Hv) as Hwf. split; [done|].
  apply Normalize_twice.
  - destruct (cw_store _ Hwf) as [[-> _]|[-> _]]; set_solver.
  - apply (cw_backend _ Hwf).
  - destruct (cw_coordination _ Hwf) as [->|[-> _]]; set_solver.
Qed.

(** C26. A configuration that [Load] accepts is one the service can run: every
    promise of [configuration_wf] holds of it, the second normalisation that
    [NewService] does changes nothing, so that what runs is what was
    validated, and the defaults it gives to plugins are all set. *)
Theorem load_valid path c : Load path = (c, Ok tt) →
  configuration_wf c ∧ Normalize c = c
  ∧ ∀ E : Env, @env_config E = service_config c → @defaults_ok E.
Proof.
  intros Hl. assert (∃ c0, c = Normalize c0 ∧ Validate_config c = Ok tt) as (c0 & -> & Hv).
  { unfold Load in Hl. destruct (if (path =? "")%string then _ else _) as [data|e]; [|discriminate].
    destruct (match data with Some text => _ | None => _ end) as [c0 [[]|e]]; [|discriminate].
    exists (applyEnv c0). cbv zeta in Hl. split; congruence. }
  apply validated_fixed in Hv as [Hwf Hn]. split_and!; [done..|]. intros E HE.
  destruct (cw_wasm _ Hwf) as (? & ? & ? & ? & ? & ?). pose proof (cw_upload _ Hwf).
  split; rewrite HE; unfold service_config; cbn; lia.
Qed.
End valid.

(** A host with the keys in its environment and no file. *)
Definition example_config_host : ConfigHost := {|
  ch_getenv k := if (k =? "MASTER_KEY")%string then "0123456789abcdef"
                 else if (k =? "S3_ACCESS_KEY")%string then "ak" else if (k =? "S3_SECRET_KEY")%string then " sk " else "";
  ch_read _ := Ok None;
  ch_yaml _ c := (c, Ok tt);
  ch_parse_url _ := None;
  ch_issuer_first := true |}.

Lemma load_valid_witness : let c := (@Load example_config_host "config.yaml").1 in configuration_wf c ∧ s3_SecretKey (c_S3 c) = "sk".
Proof.
  split; [|vm_compute; reflexivity].
  apply (@load_valid example_config_host "config.yaml"). assert ((@Load example_config_host "config.yaml").2 = Ok tt) as Hok by (vm_compute; reflexivity).
  destruct (Load "config.yaml") as [c r]. cbn in *. by rewrite Hok.
Defined.
