(* ===== verification/Migration.v ===== *)
(** Moving and copying objects between providers: [app/migration.go] and the
    job table of [store/store.go]. *)
From S2P Require Import Prelude GoTime Json Text Domain ProviderErrors World Sql StoreProviders StoreObjects StoreEvents Placement Providers Hooks Jobs Service.

(** ** The table *)

#[global] Instance migration_table : JobTable MigrationJob := {
  job_ID := mj_ID; job_Status := mj_Status; job_CreatedAt := mj_CreatedAt; job_UpdatedAt := mj_UpdatedAt;
  job_table := db_migrations; set_job_table f d := d <| db_migrations ::= f |>;
  job_reference _ _ := true;
  job_created t j :=
    let j := if is_zero (mj_CreatedAt j) then j <| mj_CreatedAt := t |> else j in
    let j := j <| mj_UpdatedAt := t |> in
    if (mj_Status j =? "")%string then j <| mj_Status := MigrationStatusPending |> else j;
  job_claimed t j :=
    let j := if is_zero (mj_StartedAt j) then j <| mj_StartedAt := t |> else j in
    j <| mj_Status := MigrationStatusRunning |> <| mj_UpdatedAt := t |>;
  job_touched t j := j <| mj_UpdatedAt := t |>;
  job_recovered t j :=
    j <| mj_Status := MigrationStatusPending |> <| mj_TotalObjects := 0 |> <| mj_ProcessedObjects := 0 |>
      <| mj_SucceededObjects := 0 |> <| mj_FailedObjects := 0 |> <| mj_CurrentKey := "" |> <| mj_FinishedAt := zero_time |>
      <| mj_LastError := "recovered after worker interruption" |> <| mj_UpdatedAt := t |>;
  job_saved t old j :=
    old <| mj_Status := mj_Status j |> <| mj_TotalObjects := mj_TotalObjects j |> <| mj_ProcessedObjects := mj_ProcessedObjects j |>
      <| mj_SucceededObjects := mj_SucceededObjects j |> <| mj_FailedObjects := mj_FailedObjects j |>
      <| mj_CurrentKey := mj_CurrentKey j |> <| mj_LastError := mj_LastError j |> <| mj_StartedAt := mj_StartedAt j |>
      <| mj_FinishedAt := mj_FinishedAt j |> <| mj_UpdatedAt := t |> }.

#[global] Instance migration_laws : JobLaws MigrationJob.
Proof.
  split; try done; cbn; intros t j; repeat (case_match; rsimpl); done.
Qed.

(** [MigrationMoveConfirmationPhrase] *)
Definition MigrationMoveConfirmationPhrase : string := "Migrate permanently".

Record CreateMigrationJobInput : Type := MkCreateMigrationJobInput {
  cm_Bucket : string; cm_Prefix : string; cm_SourceProviderID : string; cm_TargetProviderID : string;
  cm_Mode : string; cm_Confirm : string }.

Section migration.
Context `{Env}.

Definition CreateMigrationJob_store : MigrationJob → M (result unit) := create_job.
Definition GetMigrationJob : string → M (result MigrationJob) := get_job.
Definition ListMigrationJobs : Z → M (result (list MigrationJob)) := list_jobs.
Definition ClaimNextMigrationJob : M (result (option MigrationJob)) := claim_next_job.
Definition RecoverStaleMigrationJobs (cutoff : Time) : M (result Z) :=
  wrap_err "recover stale migration jobs" (recover_jobs (J := MigrationJob) cutoff).
Definition TouchMigrationJob : string → M (result unit) := touch_job (J := MigrationJob) (wrap_err "touch migration job").
Definition UpdateMigrationJob : MigrationJob → M (result unit) := update_job.

(** ** Requests *)

(** The job a request asks for, and what it must say. *)
Definition migration_request (input : CreateMigrationJobInput) (id : string) : result MigrationJob :=
  let mode := trim_space (cm_Mode input) in
  let job := zero_MigrationJob <| mj_ID := id |> <| mj_Bucket := trim_space (cm_Bucket input) |>
    <| mj_Prefix := trim_byte "/" (trim_space (cm_Prefix input)) |>
    <| mj_SourceProviderID := trim_space (cm_SourceProviderID input) |>
    <| mj_TargetProviderID := trim_space (cm_TargetProviderID input) |>
    <| mj_Mode := if (mode =? "")%string then MigrationModeCopy else mode |> <| mj_Status := MigrationStatusPending |> in
  try! _ := guard_err ((mj_Bucket job =? "")%string || (mj_SourceProviderID job =? "")%string || (mj_TargetProviderID job =? "")%string)
              "bucket, source_provider_id and target_provider_id are required" in
  try! _ := guard_err (mj_SourceProviderID job =? mj_TargetProviderID job)%string "source and target providers must be different" in
  try! _ := guard_err (negb (mj_Mode job =? MigrationModeCopy)%string && negb (mj_Mode job =? MigrationModeMove)%string)
              "mode must be copy or move" in
  try! _ := guard_err ((mj_Mode job =? MigrationModeMove)%string && negb (cm_Confirm input =? MigrationMoveConfirmationPhrase)%string)
              ("confirmation must exactly match " +:+ quoted MigrationMoveConfirmationPhrase) in
  Ok job.

(** A side of the migration: a provider that exists and is enabled. *)
Definition migration_side (side id : string) : M (result unit) :=
  let? account := wrap_err (side +:+ " provider not found") (GetProvider id) in
  if negb (p_Enabled account) then ret_err (ErrText (side +:+ " provider is disabled")) else ret_ok tt.

Definition CreateMigrationJob (input : CreateMigrationJobInput) : M (result MigrationJob) :=
  let! id := randomIdentifier "mig-" 8 in
  let? job := lift (migration_request input id) in
  let? _ := wrap_err "bucket not found" (GetBucket (mj_Bucket job)) in
  let? _ := migration_side "source" (mj_SourceProviderID job) in
  let? _ := migration_side "target" (mj_TargetProviderID job) in
  let? _ := CreateMigrationJob_store job in
  GetMigrationJob (mj_ID job).

(** ** The work *)

(** The objects of the source, page by page. *)
Fixpoint migration_pages (fuel : nat) (job : MigrationJob) (startAfter : string) : M (result (list ObjectRecord)) :=
  match fuel with
  | O => ret_err (ErrSentinel ErrFuel)
  | S fuel =>
      let? objects := ListObjectsAfter_store (mj_Bucket job) (mj_Prefix job) startAfter 1000 in
      let chosen := List.filter (λ o, (o_ProviderAccountID o =? mj_SourceProviderID job)%string) objects in
      match last objects with
      | None => ret_ok []
      | Some o =>
          if Nat.ltb (List.length objects) 1000 then ret_ok chosen
          else let? rest := migration_pages fuel job (o_Key o) in ret_ok (chosen ++ rest)
      end
  end.

Definition migrationObjects (fuel : nat) (job : MigrationJob) : M (result (list ObjectRecord)) := migration_pages fuel job "".

(** The bytes of the replica that a copy is about to replace are given back. *)
Definition subtractExistingReplicaUsage (bucket key providerID : string) : M (result unit) :=
  let? replicas := ListObjectReplicas bucket key in
  match List.find (λ r, (rp_ProviderAccountID r =? providerID)%string && (0 <? rp_Size r) && (rp_Status r =? "succeeded")%string) replicas with
  | Some replica => AddProviderUsage providerID (- rp_Size replica)
  | None => ret_ok tt
  end.

Definition migration_margin (target : ProviderAccount) : Z :=
  let margin := intSetting (p_Settings target) "quota_margin_bytes" in
  let minFree := intSetting (p_Settings target) "min_free_bytes" in
  if margin <? minFree then minFree else margin.

Definition migrated_object (obj : ObjectRecord) (targetProviderID : string) (stored : StoredObject) : ObjectRecord :=
  obj <| o_ProviderAccountID := targetProviderID |> <| o_RemoteBucket := st_RemoteBucket stored |>
    <| o_RemoteKey := st_RemoteKey stored |> <| o_Size := st_Size stored |> <| o_ContentType := st_ContentType stored |>
    <| o_ETag := st_ETag stored |> <| o_ChecksumSHA256 := st_ChecksumSHA256 stored |>.

Definition migrated_replica (obj : ObjectRecord) (targetProviderID : string) (stored : StoredObject) : ObjectReplica :=
  zero_ObjectReplica <| rp_Bucket := o_Bucket obj |> <| rp_Key := o_Key obj |> <| rp_ProviderAccountID := targetProviderID |>
    <| rp_RemoteBucket := st_RemoteBucket stored |> <| rp_RemoteKey := st_RemoteKey stored |> <| rp_Size := st_Size stored |>
    <| rp_ETag := st_ETag stored |> <| rp_ChecksumSHA256 := st_ChecksumSHA256 stored |> <| rp_Status := "succeeded" |>.

(** What happens to the index once the copy is stored and paid for. *)
Definition index_migrated (sourceAccount : ProviderAccount) (sourceAdapter : Adapter) (obj : ObjectRecord)
    (targetProviderID mode : string) (stored : StoredObject) : M (result unit) :=
  if (mode =? MigrationModeCopy)%string then
    let! _ := ignore (subtractExistingReplicaUsage (o_Bucket obj) (o_Key obj) targetProviderID) in
    UpsertObjectReplica (migrated_replica obj targetProviderID stored)
  else
    let? _ := PutObject_store (migrated_object obj targetProviderID stored) in
    let! deleted := adapter_delete sourceAdapter sourceAccount obj in
    match deleted with
    | Ok _ => let! _ := ignore (AddProviderUsage (p_ID sourceAccount) (- o_Size obj)) in ret_ok tt
    | Err _ => ret_ok tt
    end.

Definition migration_input (obj : ObjectRecord) : PutObjectInput :=
  zero_PutObjectInput <| i_Bucket := o_Bucket obj |> <| i_Key := o_Key obj |> <| i_Size := o_Size obj |>
    <| i_ContentType := o_ContentType obj |> <| i_ChecksumSHA256 := o_ChecksumSHA256 obj |>.

(** The copy itself, on a reservation that is held. *)
Definition copy_to_target (sourceAccount : ProviderAccount) (sourceAdapter : Adapter) (targetAccount : ProviderAccount)
    (obj : ObjectRecord) (reservationID : string) : M (result StoredObject) :=
  let release (e : error) : M (result StoredObject) := let! _ := ignore (ReleaseProviderReservation reservationID) in ret_err e in
  let! got := adapter_get sourceAdapter sourceAccount obj in
  match got with
  | Err e => release e
  | Ok (body, _) =>
      let! put := putOnProvider targetAccount (migration_input obj) body in
      match put with
      | Err e =>
          let! _ := ignore (ReleaseProviderReservation reservationID) in
          let! _ := recordProviderWriteFailure targetAccount e in
          ret_err e
      | Ok stored =>
          let stored := if (st_ChecksumSHA256 stored =? "")%string
                        then stored <| st_ChecksumSHA256 := o_ChecksumSHA256 obj |> else stored in
          let! committed := CommitProviderReservation reservationID (st_Size stored) in
          match committed with
          | Err e => release e
          | Ok _ => ret_ok stored
          end
      end
  end.

(** What a migration needs: both sides, and room at the target. *)
Definition prepare_migration (obj : ObjectRecord) (targetProviderID : string)
    : M (result (ProviderAccount * Adapter * ProviderAccount * string)) :=
  let? source := providerForObject obj in
  let? targetAccount := GetProvider targetProviderID in
  if negb (p_Enabled targetAccount) then ret_err (ErrText "target provider is disabled")
  else
    let! reservationID := randomIdentifier "migration-res-" 10 in
    let! t := now in
    let reservation := zero_ProviderReservation <| rs_ID := reservationID |> <| rs_ProviderAccountID := targetProviderID |>
                         <| rs_Bytes := o_Size obj |> <| rs_ExpiresAt := add_time t hour |> in
    let! t := now in
    let? reserved := ReserveProviderCapacity reservation (migration_margin targetAccount)
                       (intSetting (p_Settings targetAccount) "monthly_upload_quota_bytes") (month_text t) in
    if negb reserved then ret_err (ErrText "target provider has insufficient quota")
    else ret_ok (source.1, source.2, targetAccount, reservationID).

Definition migrateObjectToProvider (obj : ObjectRecord) (targetProviderID mode : string) : M (result unit) :=
  let? prepared := prepare_migration obj targetProviderID in
  let '(sourceAccount, sourceAdapter, targetAccount, reservationID) := prepared in
  let? stored := copy_to_target sourceAccount sourceAdapter targetAccount obj reservationID in
  index_migrated sourceAccount sourceAdapter obj targetProviderID mode stored.

(** One object of the job, and the job after it. *)
Definition migrate_one (job : MigrationJob) (obj : ObjectRecord) : M (result MigrationJob) :=
  let job := job <| mj_CurrentKey := o_Key obj |> in
  let? _ := UpdateMigrationJob job in
  let! r := migrateObjectToProvider obj (mj_TargetProviderID job) (mj_Mode job) in
  let job := job <| mj_ProcessedObjects ::= λ n, add64 n 1 |> in
  let job := match r with
             | Err e => job <| mj_FailedObjects ::= λ n, add64 n 1 |> <| mj_LastError := o_Key obj +:+ ": " +:+ error_text e |>
             | Ok _ => job <| mj_SucceededObjects ::= λ n, add64 n 1 |>
             end in
  let? _ := UpdateMigrationJob job in
  ret_ok job.

Context (ctx : World → option error).

Fixpoint migrate_all (job : MigrationJob) (objects : list ObjectRecord) : M (result MigrationJob) :=
  match objects with
  | [] => ret_ok job
  | obj :: rest =>
      let? _ := ctx_err ctx in
      let? job := migrate_one job obj in
      migrate_all job rest
  end.

(** The start of a run: the job is marked as running. *)
Definition start_migration (job : MigrationJob) : M (result MigrationJob) :=
  let job := job <| mj_Status := MigrationStatusRunning |> in
  let! job := (if is_zero (mj_StartedAt job) then let! t := now in ret (job <| mj_StartedAt := t |>) else ret job) in
  let? _ := UpdateMigrationJob job in
  ret_ok job.

(** The job once all of its objects have been tried. *)
Definition finished_migration (job : MigrationJob) (t : Time) : MigrationJob :=
  job <| mj_CurrentKey := "" |> <| mj_FinishedAt := t |>
    <| mj_Status := if 0 <? mj_FailedObjects job then MigrationStatusFailed else MigrationStatusCompleted |>.

Definition RunMigrationJob (fuel : nat) (id : string) : M (result unit) :=
  let? job := GetMigrationJob id in
  if (mj_Status job =? MigrationStatusCompleted)%string || (mj_Status job =? MigrationStatusFailed)%string then ret_ok tt
  else
    let? job := start_migration job in
    let! listed := migrationObjects fuel job in
    match listed with
    | Err e =>
        let! t := now in
        let! _ := ignore (UpdateMigrationJob (job <| mj_Status := MigrationStatusFailed |> <| mj_LastError := error_text e |>
                                                 <| mj_FinishedAt := t |>)) in
        ret_err e
    | Ok objects =>
        let job := job <| mj_TotalObjects := Z.of_nat (List.length objects) |> in
        let? _ := UpdateMigrationJob job in
        let? job := migrate_all job objects in
        let! t := now in
        UpdateMigrationJob (finished_migration job t)
    end.

(** [StartMigrationWorker] *)
Definition migration_worker (fuel : nat) : durableWorker :=
  MkDurableWorker "migration" (15 * minute)
    (Some (λ cutoff, let? _ := RecoverStaleMigrationJobs cutoff in ret_ok tt))
    (let? claimed := ClaimNextMigrationJob in
     ret_ok (match claimed with Some job => Some (RunMigrationJob fuel (mj_ID job)) | None => None end)).
End migration.
