(* ===== verification/Repair.v ===== *)
(** Restoring primary copies from replicas: [app/repair.go] and
    [store/repair_jobs.go]. *)
From S2P Require Import Prelude GoTime Json Text Domain ProviderErrors World Sql StoreProviders StoreObjects StoreEvents Placement Providers Hooks Jobs Service Migration.

(** ** The table *)

#[global] Instance repair_table : JobTable RepairJob := {
  job_ID := rj_ID; job_Status := rj_Status; job_CreatedAt := rj_CreatedAt; job_UpdatedAt := rj_UpdatedAt;
  job_table := db_repairs; set_job_table f d := d <| db_repairs ::= f |>;
  job_reference d j := match db_buckets d !! rj_Bucket j with Some _ => true | None => false end;
  job_created t j :=
    let j := if is_zero (rj_CreatedAt j) then j <| rj_CreatedAt := t |> else j in
    let j := j <| rj_UpdatedAt := t |> in
    if (rj_Status j =? "")%string then j <| rj_Status := RepairStatusPending |> else j;
  job_claimed t j := j <| rj_Status := RepairStatusRunning |> <| rj_UpdatedAt := t |>;
  job_touched t j := j <| rj_UpdatedAt := t |>;
  job_recovered t j :=
    j <| rj_Status := RepairStatusPending |> <| rj_LastError := "recovered after worker interruption" |> <| rj_UpdatedAt := t |>;
  job_saved t old j :=
    old <| rj_Status := rj_Status j |> <| rj_CheckedObjects := rj_CheckedObjects j |> <| rj_RepairedObjects := rj_RepairedObjects j |>
      <| rj_FailedObjects := rj_FailedObjects j |> <| rj_CurrentKey := rj_CurrentKey j |> <| rj_LastError := rj_LastError j |>
      <| rj_FinishedAt := rj_FinishedAt j |> <| rj_UpdatedAt := t |> }.

#[global] Instance repair_laws : JobLaws RepairJob.
Proof. split; try done; cbn; intros t j; repeat (case_match; rsimpl); done. Qed.

Record RepairResult : Type := MkRepairResult { rr_Bucket : string; rr_Key : string; rr_Repaired : bool; rr_Message : string }.

Section repair.
Context `{Env}.

Definition CreateRepairJob_store : RepairJob → M (result unit) := create_job.
Definition GetRepairJob : string → M (result RepairJob) := get_job.
Definition ListRepairJobs : Z → M (result (list RepairJob)) := list_jobs.
Definition ClaimNextRepairJob : M (result (option RepairJob)) := claim_next_job.
Definition RecoverStaleRepairJobs : Time → M (result Z) := recover_jobs (J := RepairJob).
Definition TouchRepairJob : string → M (result unit) := touch_job (J := RepairJob) id.
Definition UpdateRepairJob : RepairJob → M (result unit) := update_job.

(** ** One object *)

(** Whether the provider still answers for the primary copy. *)
Definition primary_healthy (object : ObjectRecord) (account : ProviderAccount) : M bool :=
  match providerForReplica account with
  | Err _ => ret false
  | Ok (decrypted, adapter) =>
      let! head := adapter_head adapter decrypted object in
      ret (match head with Ok _ => true | Err _ => false end)
  end.

Definition restored_object (object : ObjectRecord) (stored : StoredObject) : ObjectRecord :=
  object <| o_RemoteBucket := st_RemoteBucket stored |> <| o_RemoteKey := st_RemoteKey stored |>
    <| o_ETag := st_ETag stored |> <| o_Size := st_Size stored |>.

Definition restore_input (object : ObjectRecord) : PutObjectInput :=
  zero_PutObjectInput <| i_Bucket := o_Bucket object |> <| i_Key := o_Key object |> <| i_RemoteKey := o_RemoteKey object |>
    <| i_Size := o_Size object |> <| i_ContentType := o_ContentType object |> <| i_Metadata := o_Metadata object |>
    <| i_Tags := o_Tags object |> <| i_ChecksumSHA256 := o_ChecksumSHA256 object |>.

Definition RepairObject (bucket key : string) : M (result RepairResult) :=
  let? found := GetObjectWithProvider bucket key in
  let '(object, account) := found in
  let! healthy := primary_healthy object account in
  if healthy : bool then ret_ok (MkRepairResult bucket key false "primary object is healthy")
  else
    let? copy := wrap_err "no readable replica is available" (getObjectFromReplica object) in
    let? stored := wrap_err "restore primary object" (putOnProvider account (restore_input object) copy.1) in
    let? _ := PutObject_store (restored_object object stored) in
    ret_ok (MkRepairResult bucket key true "primary object restored from a replica").

(** ** Jobs *)

Definition CreateRepairJob (bucket prefix : string) : M (result RepairJob) :=
  let bucket := trim_space bucket in
  let prefix := trim_left_byte "/" (trim_space prefix) in
  if (bucket =? "")%string then ret_err (ErrText "bucket is required")
  else
    let? _ := ensureBucket bucket in
    let! id := randomIdentifier "repair-" 8 in
    let? _ := CreateRepairJob_store (zero_RepairJob <| rj_ID := id |> <| rj_Bucket := bucket |> <| rj_Prefix := prefix |>
                                       <| rj_Status := RepairStatusPending |>) in
    GetRepairJob id.

Definition failRepairJob (job : RepairJob) (cause : error) : M (result unit) :=
  let! t := now in
  let! _ := ignore (UpdateRepairJob (job <| rj_Status := RepairStatusFailed |> <| rj_LastError := error_text cause |>
                                        <| rj_FinishedAt := t |>)) in
  ret_err cause.

(** The job after one object. *)
Definition repaired_one (job : RepairJob) (object : ObjectRecord) (r : result RepairResult) : RepairJob :=
  let job := job <| rj_CurrentKey := o_Key object |> <| rj_CheckedObjects ::= λ n, add64 n 1 |> in
  match r with
  | Err e => job <| rj_FailedObjects ::= λ n, add64 n 1 |> <| rj_LastError := o_Key object +:+ ": " +:+ error_text e |>
  | Ok result => if rr_Repaired result then job <| rj_RepairedObjects ::= λ n, add64 n 1 |> else job
  end.

Context (ctx : World → option error).

Fixpoint repair_page (job : RepairJob) (objects : list ObjectRecord) : M (result RepairJob) :=
  match objects with
  | [] => ret_ok job
  | object :: rest =>
      let? _ := ctx_err ctx in
      let! r := RepairObject (o_Bucket object) (o_Key object) in
      repair_page (repaired_one job object r) rest
  end.

Definition complete_repair (job : RepairJob) : M (result unit) :=
  let! t := now in
  UpdateRepairJob (job <| rj_Status := RepairStatusCompleted |> <| rj_CurrentKey := "" |> <| rj_FinishedAt := t |>).

(** The pages of the bucket; the error of a page fails the job, that of the
    context leaves it running. *)
Fixpoint repair_pages (fuel : nat) (job : RepairJob) (startAfter : string) : M (result unit) :=
  match fuel with
  | O => ret_err (ErrSentinel ErrFuel)
  | S fuel =>
      let! listed := ListObjectsAfter_store (rj_Bucket job) (rj_Prefix job) startAfter 500 in
      match listed with
      | Err e => failRepairJob job e
      | Ok objects =>
          let? job := repair_page job objects in
          let! saved := UpdateRepairJob job in
          match saved with
          | Err e => failRepairJob job e
          | Ok _ =>
              match last objects with
              | Some o => if Nat.ltb (List.length objects) 500 then complete_repair job else repair_pages fuel job (o_Key o)
              | None => complete_repair job
              end
          end
      end
  end.

Definition RunRepairJob (fuel : nat) (id : string) : M (result unit) :=
  let? job := GetRepairJob id in
  if (rj_Status job =? RepairStatusCompleted)%string || (rj_Status job =? RepairStatusFailed)%string then ret_ok tt
  else
    let job := job <| rj_Status := RepairStatusRunning |> in
    let? _ := UpdateRepairJob job in
    repair_pages fuel job "".

(** [StartRepairWorker] *)
Definition repair_worker (fuel : nat) : durableWorker :=
  MkDurableWorker "repair" (15 * minute)
    (Some (λ cutoff, let? _ := RecoverStaleRepairJobs cutoff in ret_ok tt))
    (let? claimed := ClaimNextRepairJob in
     ret_ok (match claimed with Some job => Some (RunRepairJob fuel (rj_ID job)) | None => None end)).
End repair.
