(* ===== verification/Inventory.v ===== *)
(** Importing and comparing what a provider already stores: [app/inventory.go]
    and the job table of [store/access_inventory.go]. *)
From S2P Require Import Prelude GoTime Json Text Domain ProviderErrors World Sql StoreProviders StoreObjects StoreEvents Placement Providers Hooks Jobs Service Migration.

(** ** The table *)

#[global] Instance inventory_table : JobTable InventoryJob := {
  job_ID := ij_ID; job_Status := ij_Status; job_CreatedAt := ij_CreatedAt; job_UpdatedAt := ij_UpdatedAt;
  job_table := db_inventories; set_job_table f d := d <| db_inventories ::= f |>;
  job_reference d j := match db_providers d !! ij_ProviderAccountID j with Some _ => true | None => false end;
  job_created t j :=
    let j := if is_zero (ij_CreatedAt j) then j <| ij_CreatedAt := t |> else j in
    let j := j <| ij_UpdatedAt := t |> in
    if (ij_Status j =? "")%string then j <| ij_Status := InventoryStatusPending |> else j;
  job_claimed t j := j <| ij_Status := InventoryStatusRunning |> <| ij_UpdatedAt := t |>;
  job_touched t j := j <| ij_UpdatedAt := t |>;
  job_recovered t j :=
    j <| ij_Status := InventoryStatusPending |> <| ij_LastError := "recovered after worker interruption" |> <| ij_UpdatedAt := t |>;
  job_saved t old j :=
    old <| ij_RemoteBucket := ij_RemoteBucket j |> <| ij_Status := ij_Status j |> <| ij_DiscoveredObjects := ij_DiscoveredObjects j |>
      <| ij_ImportedObjects := ij_ImportedObjects j |> <| ij_MissingObjects := ij_MissingObjects j |>
      <| ij_LastError := ij_LastError j |> <| ij_FinishedAt := ij_FinishedAt j |> <| ij_UpdatedAt := t |> }.

#[global] Instance inventory_laws : JobLaws InventoryJob.
Proof. split; try done; cbn; intros t j; repeat (case_match; rsimpl); done. Qed.

Record CreateInventoryJobInput : Type := MkCreateInventoryJobInput {
  ci_ProviderAccountID : string; ci_Bucket : string; ci_RemoteBucket : string; ci_Prefix : string; ci_Mode : string }.

Section inventory.
Context `{Env}.

Definition CreateInventoryJob_store : InventoryJob → M (result unit) := create_job.
Definition GetInventoryJob : string → M (result InventoryJob) := get_job.
Definition ListInventoryJobs : Z → M (result (list InventoryJob)) := list_jobs.
Definition ClaimNextInventoryJob : M (result (option InventoryJob)) := claim_next_job.
Definition RecoverStaleInventoryJobs : Time → M (result Z) := recover_jobs (J := InventoryJob).
Definition TouchInventoryJob : string → M (result unit) := touch_job (J := InventoryJob) id.
Definition UpdateInventoryJob : InventoryJob → M (result unit) := update_job.

(** ** Requests *)

(** The job a request asks for. *)
Definition inventory_request (input : CreateInventoryJobInput) (id : string) : result InventoryJob :=
  let mode := trim_space (ci_Mode input) in
  let job := zero_InventoryJob <| ij_ID := id |> <| ij_ProviderAccountID := trim_space (ci_ProviderAccountID input) |>
    <| ij_Bucket := trim_space (ci_Bucket input) |> <| ij_RemoteBucket := trim_space (ci_RemoteBucket input) |>
    <| ij_Prefix := trim_left_byte "/" (trim_space (ci_Prefix input)) |>
    <| ij_Mode := if (mode =? "")%string then InventoryModeImport else mode |> <| ij_Status := InventoryStatusPending |> in
  try! _ := guard_err ((ij_ProviderAccountID job =? "")%string || (ij_Bucket job =? "")%string)
              "provider_account_id and bucket are required" in
  try! _ := guard_err (negb (ij_Mode job =? InventoryModeImport)%string && negb (ij_Mode job =? InventoryModeReconcile)%string)
              "mode must be import or reconcile" in
  Ok job.

Definition with_remote_bucket (account : ProviderAccount) (job : InventoryJob) : InventoryJob :=
  if (ij_RemoteBucket job =? "")%string then job <| ij_RemoteBucket := p_Bucket account |> else job.

Definition CreateInventoryJob (input : CreateInventoryJobInput) : M (result InventoryJob) :=
  let! id := randomIdentifier "inv-" 8 in
  let? job := lift (inventory_request input id) in
  let? found := providerAccountAndAdapter (ij_ProviderAccountID job) in
  let '(account, adapter) := found in
  match ad_ListObjects adapter with
  | None => ret_err (ErrAnnotate (ErrSentinel ErrProviderCapabilityUnsupported) (p_Kind account +:+ " does not expose object inventory"))
  | Some _ =>
      let job := with_remote_bucket account job in
      if (ij_RemoteBucket job =? "")%string
      then ret_err (ErrText "remote_bucket is required when the provider has no configured bucket")
      else
        let? _ := ensureBucket (ij_Bucket job) in
        let? _ := CreateInventoryJob_store job in
        GetInventoryJob (ij_ID job)
  end.

(** ** The work *)

Definition failInventoryJob (job : InventoryJob) (cause : error) : M (result unit) :=
  let! t := now in
  let! _ := ignore (UpdateInventoryJob (job <| ij_Status := InventoryStatusFailed |> <| ij_LastError := error_text cause |>
                                           <| ij_FinishedAt := t |>)) in
  ret_err cause.

(** The row that an object found at the provider gets. *)
Definition imported_row (account : ProviderAccount) (job : InventoryJob) (remote : ProviderObject) (createdAt : Time) : ObjectRecord :=
  zero_ObjectRecord <| o_Bucket := ij_Bucket job |> <| o_Key := po_Key remote |> <| o_ProviderAccountID := p_ID account |>
    <| o_RemoteBucket := ij_RemoteBucket job |> <| o_RemoteKey := po_Key remote |> <| o_Size := po_Size remote |>
    <| o_ContentType := po_ContentType remote |> <| o_ETag := po_ETag remote |> <| o_ReplicaStatus := "none" |>
    <| o_CreatedAt := createdAt |>.

(** Why a run stops: the context is done, or an error fails the job. *)
Inductive stop : Type := Cancelled (e : error) | Failed (e : error).

(** The row of a remote object is written; a new one adds to the usage. *)
Definition import_row (account : ProviderAccount) (job : InventoryJob) (remote : ProviderObject) (isNew : bool) : M (InventoryJob * option stop) :=
  let! createdAt := (if is_zero (po_LastModified remote) then now else ret (po_LastModified remote)) in
  let! put := PutObject_store (imported_row account job remote createdAt) in
  match put with
  | Err e => ret (job, Some (Failed e))
  | Ok _ =>
      if isNew
      then let! _ := ignore (AddProviderUsage (p_ID account) (po_Size remote)) in
           ret (job <| ij_ImportedObjects ::= λ n, add64 n 1 |>, None)
      else ret (job, None)
  end.

Context (ctx : World → option error).

(** One object found at the provider; a key of another provider is left alone. *)
Definition import_object (account : ProviderAccount) (job : InventoryJob) (remote : ProviderObject) : M (InventoryJob * option stop) :=
  let! done := ctx_err ctx in
  match done with
  | Err e => ret (job, Some (Cancelled e))
  | Ok _ =>
      let job := job <| ij_DiscoveredObjects ::= λ n, add64 n 1 |> in
      let! existing := GetObject_store (ij_Bucket job) (po_Key remote) in
      match existing with
      | Ok object => if negb (o_ProviderAccountID object =? p_ID account)%string then ret (job, None) else import_row account job remote false
      | Err e => if errors_is e ErrNotFound then import_row account job remote true else ret (job, Some (Failed e))
      end
  end.

Fixpoint import_page (account : ProviderAccount) (job : InventoryJob) (objects : list ProviderObject) : M (InventoryJob * option stop) :=
  match objects with
  | [] => ret (job, None)
  | remote :: rest =>
      let! imported := import_object account job remote in
      match imported with
      | (job, None) => import_page account job rest
      | stopped => ret stopped
      end
  end.

Definition list_remote (account : ProviderAccount)
    (list_objects : list Call → ProviderAccount → string → string → string → Z → result ProviderObjectPage)
    (job : InventoryJob) (token : string) : M (result ProviderObjectPage) :=
  remote (CallListObjects account (ij_RemoteBucket job) (ij_Prefix job) token 1000)
    (λ h, list_objects h account (ij_RemoteBucket job) (ij_Prefix job) token 1000).

(** The pages of the provider, and the keys seen in them. *)
Fixpoint import_pages (fuel : nat) (account : ProviderAccount)
    (list_objects : list Call → ProviderAccount → string → string → string → Z → result ProviderObjectPage)
    (job : InventoryJob) (seen : list string) (token : string) : M (InventoryJob * (stop + list string)) :=
  match fuel with
  | O => ret (job, inl (Failed (ErrSentinel ErrFuel)))
  | S fuel =>
      let! listed := list_remote account list_objects job token in
      match listed with
      | Err e => ret (job, inl (Failed e))
      | Ok page =>
          let! imported := import_page account job (pp_Objects page) in
          let '(job, stopped) := imported in
          match stopped with
          | Some s => ret (job, inl s)
          | None =>
              let seen := seen ++ (po_Key <$> pp_Objects page) in
              let! _ := ignore (UpdateInventoryJob job) in
              let next := pp_NextContinuationToken page in
              if (next =? "")%string || (next =? token)%string then ret (job, inr seen)
              else import_pages fuel account list_objects job seen next
          end
      end
  end.

(** The indexed objects of the account that the provider did not list. *)
Definition count_missing (account : ProviderAccount) (seen : list string) (indexed : list ObjectRecord) : Z :=
  Z.of_nat (List.length (List.filter (λ o, (o_ProviderAccountID o =? p_ID account)%string
    && negb (existsb (String.eqb (o_RemoteKey o)) seen)) indexed)).

Fixpoint reconcile_pages (fuel : nat) (account : ProviderAccount) (seen : list string) (job : InventoryJob) (startAfter : string)
    : M (InventoryJob * option error) :=
  match fuel with
  | O => ret (job, Some (ErrSentinel ErrFuel))
  | S fuel =>
      let! listed := ListObjectsAfter_store (ij_Bucket job) (ij_Prefix job) startAfter 1000 in
      match listed with
      | Err e => ret (job, Some e)
      | Ok indexed =>
          let job := job <| ij_MissingObjects ::= λ n, add64 n (count_missing account seen indexed) |> in
          match last indexed with
          | Some o => if Nat.ltb (List.length indexed) 1000 then ret (job, None) else reconcile_pages fuel account seen job (o_Key o)
          | None => ret (job, None)
          end
      end
  end.

Definition finish_inventory (fuel : nat) (account : ProviderAccount) (seen : list string) (job : InventoryJob) : M (result unit) :=
  let! compared := (if (ij_Mode job =? InventoryModeReconcile)%string then reconcile_pages fuel account seen job "" else ret (job, None)) in
  let '(job, failed) := compared in
  match failed with
  | Some e => failInventoryJob job e
  | None =>
      let! t := now in
      UpdateInventoryJob (job <| ij_Status := InventoryStatusCompleted |> <| ij_FinishedAt := t |> <| ij_LastError := "" |>)
  end.

(** The run once its provider is known. *)
Definition run_inventory (fuel : nat) (account : ProviderAccount) (adapter : Adapter) (job : InventoryJob) : M (result unit) :=
  let job := with_remote_bucket account job in
  if (ij_RemoteBucket job =? "")%string then failInventoryJob job (ErrText "remote bucket is not configured")
  else match ad_ListObjects adapter with
       | None => failInventoryJob job (ErrAnnotate (ErrSentinel ErrProviderCapabilityUnsupported) (p_Kind account))
       | Some list_objects =>
           let! imported := import_pages fuel account list_objects job [] "" in
           let '(job, r) := imported in
           match r with
           | inl (Cancelled e) => ret_err e
           | inl (Failed e) => failInventoryJob job e
           | inr seen => finish_inventory fuel account seen job
           end
       end.

Definition RunInventoryJob (fuel : nat) (id : string) : M (result unit) :=
  let? job := GetInventoryJob id in
  if (ij_Status job =? InventoryStatusCompleted)%string || (ij_Status job =? InventoryStatusFailed)%string then ret_ok tt
  else
    let job := job <| ij_Status := InventoryStatusRunning |> in
    let? _ := UpdateInventoryJob job in
    let! found := providerAccountAndAdapter (ij_ProviderAccountID job) in
    match found with
    | Err e => failInventoryJob job e
    | Ok (account, adapter) => run_inventory fuel account adapter job
    end.

(** [StartInventoryWorker] *)
Definition inventory_worker (fuel : nat) : durableWorker :=
  MkDurableWorker "inventory" (15 * minute)
    (Some (λ cutoff, let? _ := RecoverStaleInventoryJobs cutoff in ret_ok tt))
    (let? claimed := ClaimNextInventoryJob in
     ret_ok (match claimed with Some job => Some (RunInventoryJob fuel (ij_ID job)) | None => None end)).
End inventory.
