(* ===== verification/ServiceFacts.v ===== *)
(** What the object service guarantees: the quota ledger through an upload, the
    end of the placement loop, what a stored object reads back as, uploads that
    are too large, and where a read comes from. *)
From S2P Require Import Prelude GoTime Sha256 Json Text Domain ProviderErrors World Sql StoreProviders Placement Demo StoreObjects StoreEvents Providers Hooks Service.

(** ** Reservations in flight

    [reserved r d d']: the database [d'] is [d] with the reservation [r] granted. *)
Record reserved (r : ProviderReservation) (d d' : DB) : Prop := {
  reserved_fresh : db_reservations d !! rs_ID r = None;
  reserved_row : db_reservations d' = <[rs_ID r := r]> (db_reservations d);
  reserved_bytes : 0 ≤ rs_Bytes r;
  reserved_account : ∃ p p', db_providers d !! rs_ProviderAccountID r = Some p ∧
    db_providers d' = <[rs_ProviderAccountID r := p']> (db_providers d) ∧
    p_ID p' = p_ID p ∧ p_ReservedBytes p' = p_ReservedBytes p + rs_Bytes r }.

Lemma reserve_tx_reserved r margin monthly period t d b d' :
  0 ≤ rs_Bytes r → reserve_tx r margin monthly period t d = Ok (b, d') →
  (b = false ∧ d' = d) ∨ (b = true ∧ reserved r d d').
Proof.
  intros Hb [[-> ->] | (-> & p & Hp & _ & Hr & ->)]%reserve_tx_inv; [by left|right].
  split; [done|]. destruct (reset_month_ledger period p) as [Hid Hres].
  split; rsimpl; [done | done | done |]. exists p. eexists. split_and!; [done | done | |]; rsimpl; congruence.
Qed.

(** Giving the bytes back and deleting the row is the ledger of before. *)
Lemma settled_ledger r d d1 f :
  quota_ok d → reserved r d d1 →
  (∀ p, p_ID (f p) = p_ID p ∧ p_ReservedBytes (f p) = release_bytes (rs_Bytes r) (p_ReservedBytes p)) →
  same_ledger d ((d1 <| db_providers := (update_row (rs_ProviderAccountID r) (λ _, true) f (db_providers d1)).2 |>)
                   <| db_reservations ::= delete (rs_ID r) |>).
Proof.
  intros Hok [Hfresh Hrow Hb (p & p' & Hp & Hp' & Hid & Hres)] Hf.
  pose proof Hok as [HP _]. destruct (HP _ _ Hp) as [_ Hsum].
  assert (0 ≤ p_ReservedBytes p) as Hnn.
  { rewrite Hsum. apply sum_of_nonneg. intros k v Hk. by eapply held_nonneg. }
  split; rsimpl.
  - rewrite Hrow, delete_insert_eq. by apply delete_id.
  - rewrite Hp'. unfold update_row. rewrite lookup_insert_eq. simpl. rewrite insert_insert_eq.
    unfold ledger_view. rewrite fmap_insert. apply insert_id. rewrite lookup_fmap, Hp. simpl.
    destruct (Hf p') as [-> ->]. rewrite Hid, Hres, release_bytes_le by lia. do 2 f_equal. lia.
Qed.

Lemma reserved_update r d d1 f :
  reserved r d d1 →
  update_reserving_provider (rs_ID r) f d1
  = (1, d1 <| db_providers := (update_row (rs_ProviderAccountID r) (λ _, true) f (db_providers d1)).2 |>).
Proof.
  intros [_ Hrow _ (p & p' & _ & Hp' & _)]. unfold update_reserving_provider.
  rewrite Hrow, lookup_insert_eq, Hp'. unfold update_row. by rewrite lookup_insert_eq.
Qed.

Lemma reserved_reservation_bytes r d d1 : reserved r d d1 → reservation_bytes (rs_ID r) d1 = rs_Bytes r.
Proof. intros [_ Hrow _ _]. unfold reservation_bytes. by rewrite Hrow, lookup_insert_eq. Qed.

Lemma release_tx_reserved r t d d1 :
  quota_ok d → reserved r d d1 → ∃ d2, release_tx (rs_ID r) t d1 = Ok (tt, d2) ∧ same_ledger d d2.
Proof.
  intros Hok Hr. unfold release_tx. rewrite (reserved_reservation_bytes _ _ _ Hr), (reserved_update _ _ _ _ Hr). simpl.
  eexists. split; [done|]. apply settled_ledger; [done..|]. intros p. split; by rsimpl.
Qed.

Lemma commit_tx_reserved r n t d d1 :
  quota_ok d → reserved r d d1 → ∃ d2, commit_tx (rs_ID r) n t d1 = Ok (tt, d2) ∧ same_ledger d d2.
Proof.
  intros Hok Hr. unfold commit_tx. rewrite (reserved_reservation_bytes _ _ _ Hr), (reserved_update _ _ _ _ Hr). simpl.
  eexists. split; [done|]. apply settled_ledger; [done..|]. intros p. split; by rsimpl.
Qed.

(** ** The ledger through an upload *)

(** Starting from a consistent ledger, the ledger is the same. *)
Definition keeps_ledger (d d' : DB) : Prop := quota_ok d → same_ledger d d'.

#[global] Instance keeps_ledger_preorder : PreOrder keeps_ledger.
Proof.
  unfold keeps_ledger. split; [done|]. intros d1 d2 d3 H1 H2 Hok. specialize (H1 Hok).
  etrans; [done|]. by apply H2, (same_ledger_ok d1).
Qed.

Lemma pres_same_keeps `{Env} {A} (m : M A) : pres (on_db same_ledger) m → pres (on_db keeps_ledger) m.
Proof. intros Hm w _. apply Hm. Qed.

(** [settles id m]: started while the reservation [id] is in flight, [m] ends
    with the ledger of before the reservation. *)
Definition settles {A} (id : string) (m : M A) : Prop :=
  ∀ r d w, rs_ID r = id → quota_ok d → reserved r d (w_db w) → same_ledger d (w_db (m w).2).

Section upload_ledger.
Context `{Env}.

Lemma settles_frame {A B} id (m : M A) (k : A → M B) :
  pres (on_db eq) m → (∀ a, settles id (k a)) → settles id (bind m k).
Proof.
  intros Hm Hk r d w Hid Hok Hr. apply (Hk _ r d); [done..|]. unfold pres, on_db in Hm. by rewrite <- Hm.
Qed.

Context (Hquiet : no_db_faults).

Lemma settles_release {B} id (k : unit → M B) :
  (∀ a, pres (on_db keeps_ledger) (k a)) → settles id (bind (ignore (ReleaseProviderReservation id)) k).
Proof.
  intros Hk r d w <- Hok Hr.
  destruct (release_tx_reserved r (env_now (w_clock w)) d (w_db w) Hok Hr) as (d2 & Htx & Hs).
  unfold ignore, ReleaseProviderReservation, bind, sql, now. simpl. rsimpl. rewrite Hquiet, Htx.
  etrans; [exact Hs|]. eapply (Hk tt); rsimpl. by eapply same_ledger_ok.
Qed.

Lemma settles_commit {B} id n (k : result unit → M B) :
  pres (on_db keeps_ledger) (k (Ok tt)) → (∀ e, settles id (k (Err e))) →
  settles id (bind (CommitProviderReservation id n) k).
Proof.
  intros Hk He r d w <- Hok Hr. unfold CommitProviderReservation, bind. destruct (n <? 0); [by eapply He|].
  destruct (commit_tx_reserved r n (env_now (w_clock w)) d (w_db w) Hok Hr) as (d2 & Htx & Hs).
  unfold sql, now. simpl. rsimpl. rewrite Hquiet, Htx. simpl.
  etrans; [exact Hs|]. apply Hk; rsimpl. by eapply same_ledger_ok.
Qed.

(** A granted reservation that the rest of the function settles. *)
Lemma settles_reserve {B} r margin monthly period (k : result bool → M B) :
  settles (rs_ID r) (k (Ok true)) → (∀ x, x ≠ Ok true → pres (on_db keeps_ledger) (k x)) →
  pres (on_db keeps_ledger) (bind (ReserveProviderCapacity r margin monthly period) k).
Proof.
  intros Hs Hk w Hok. unfold bind.
  destruct (ReserveProviderCapacity r margin monthly period w) as [x w'] eqn:Hrun. simpl.
  destruct x as [[|]|e].
  - apply reserve_run in Hrun as (r' & t & Hid & _ & Hb & Hpos & Htx). rewrite <- Hb in Hpos.
    apply reserve_tx_reserved in Htx as [[? _]|[_ Hr]]; [done | | done].
    by eapply (Hs r').
  - rewrite <- (reserve_not_granted r margin monthly period w), Hrun in Hok |- * by by rewrite Hrun. by apply Hk.
  - rewrite <- (reserve_not_granted r margin monthly period w), Hrun in Hok |- * by by rewrite Hrun. by apply Hk.
Qed.

Lemma try_provider_ledger input spool primary : pres (on_db keeps_ledger) (try_provider input spool primary).
Proof.
  unfold try_provider. apply pres_bind; [apply _ | pres_auto |]. intros resID.
  apply pres_bind; [apply _ | pres_auto |]. intros t. apply pres_bind; [apply _ | pres_auto |]. intros t'.
  apply settles_reserve; rsimpl; [|intros [[|]|e] Hx; [done | pres_auto | pres_auto]].
  apply settles_frame; [unfold rewind; pres_auto|]. intros [[]|e].
  - apply settles_frame; [pres_auto|]. intros [stored|e].
    + apply settles_commit; [pres_auto|]. intros e. apply settles_release. intros []. pres_auto.
    + apply settles_release. intros []. apply pres_same_keeps. pres_auto.
  - apply settles_release. intros []. pres_auto.
Qed.

Lemma place_ledger fuel input spool excluded : pres (on_db keeps_ledger) (place fuel input spool excluded).
Proof.
  revert excluded. induction fuel as [|fuel IH]; intros excluded; simpl; [pres_auto|].
  apply pres_bind; [apply _ | apply pres_same_keeps; apply Choose_pres; [apply _ | simpl; pres_auto] |]. intros [primary|e]; [|pres_auto].
  apply pres_bind; [apply _ | apply try_provider_ledger |]. intros [r|[]]; [pres_auto | apply IH].
Qed.

Lemma place_upload_ledger input spool : pres (on_db keeps_ledger) (place_upload input spool).
Proof.
  intros w. unfold place_upload. apply pres_bind; [apply _ | apply place_ledger |].
  intros r. pres_auto.
Qed.
End upload_ledger.

Section frames.
Context `{Env} `{!Pipelines}.

(** What holds of every step but the reservation itself. *)
Lemma ensureBucket_ledger name : pres (on_db same_ledger) (ensureBucket name).
Proof. unfold ensureBucket. pres_auto. Qed.

Lemma spoolUpload_pres R `{!PreOrder R} body : pres (on_db R) (spoolUpload body).
Proof. unfold spoolUpload, rewind, too_large. pres_auto. Qed.

Lemma cleanupOverwrittenObject_ledger a b : pres (on_db same_ledger) (cleanupOverwrittenObject a b).
Proof. unfold cleanupOverwrittenObject. pres_auto. Qed.

Lemma deleteObjectReplicas_ledger o : pres (on_db same_ledger) (deleteObjectReplicas o).
Proof. unfold deleteObjectReplicas, delete_replica. pres_auto. Qed.

Lemma enqueueObjectReplicas_ledger o l : pres (on_db same_ledger) (enqueueObjectReplicas o l).
Proof. unfold enqueueObjectReplicas. pres_auto. Qed.
End frames.

#[global] Hint Resolve ensureBucket_ledger cleanupOverwrittenObject_ledger deleteObjectReplicas_ledger
  enqueueObjectReplicas_ledger : pres.

Section upload.
Context `{Env} `{!Pipelines}.

Lemma index_upload_ledger bucket input existing primary stored :
  pres (on_db same_ledger) (index_upload bucket input existing primary stored).
Proof. unfold index_upload. pres_auto. Qed.

(** C2. No upload leaks a reservation: with a database that answers, however
    the remote services behave and whichever way the upload ends, the
    reservations and every provider's reserved bytes are after it what they
    were before it. *)
Theorem put_object_leaks_nothing input body w :
  no_db_faults → quota_ok (w_db w) → same_ledger (w_db w) (w_db (PutObject input body w).2).
Proof.
  intros Hquiet Hok. revert w Hok. change (pres (on_db keeps_ledger) (PutObject input body)).
  unfold PutObject. destruct (_ <? _); [unfold too_large; pres_auto|].
  repeat first [ pres_step | solve [apply pres_same_keeps; pres_auto] | solve [apply spoolUpload_pres; apply _]
               | solve [apply pres_same_keeps, index_upload_ledger] | solve [by apply place_upload_ledger] ].
Qed.
End upload.

(** ** The placement loop ends

    Every pass of the loop excludes one more of the listed accounts, and no
    step of it creates or deletes an account. *)

Definition account_ids (d : DB) : gmap string string := p_ID <$> db_providers d.

(** Every account is stored under its own identifier. *)
Definition keyed (d : DB) : Prop := ∀ k p, db_providers d !! k = Some p → p_ID p = k.

Lemma same_ledger_ids d d' : same_ledger d d' → same account_ids d d'.
Proof.
  intros [_ Hv]. unfold same, account_ids. unfold ledger_view in Hv.
  apply (f_equal (fmap (M := gmap string) fst)) in Hv. by rewrite <- !map_fmap_compose in Hv.
Qed.

Lemma same_ids_keyed d d' : same account_ids d d' → keyed d → keyed d'.
Proof.
  unfold same, account_ids, keyed. intros Hs Hk k p Hp.
  assert ((p_ID <$> db_providers d) !! k = Some (p_ID p)) as Hd by (rewrite <- Hs, lookup_fmap, Hp; done).
  rewrite lookup_fmap in Hd. destruct (db_providers d !! k) eqn:Hq; [|done]. simpl in Hd.
  injection Hd as <-. by apply Hk.
Qed.

Lemma pres_ledger_ids {A} (m : M A) : pres (on_db same_ledger) m → pres (on_db (same account_ids)) m.
Proof. intros Hm w. apply same_ledger_ids, Hm. Qed.

Section termination.
Context `{Env}.

Lemma ids_reserve r margin monthly period : pres (on_db (same account_ids)) (ReserveProviderCapacity r margin monthly period).
Proof.
  intros w. destruct (ReserveProviderCapacity r margin monthly period w).1 as [[|]|e] eqn:Hrun.
  2,3: unfold on_db; rewrite reserve_not_granted by (by rewrite Hrun); done.
  destruct (ReserveProviderCapacity r margin monthly period w) as [x w'] eqn:Hw; simpl in Hrun; subst x.
  apply reserve_run in Hw as (r' & t & _ & _ & _ & _ & Htx).
  apply reserve_tx_inv in Htx as [[? _] | (_ & p & Hp & _ & _ & Hd)]; [done|].
  unfold on_db, same, account_ids. simpl. rewrite Hd. rsimpl. rewrite fmap_insert. apply insert_id.
  rewrite lookup_fmap, Hp. simpl. rsimpl. by destruct (reset_month_ledger period p) as [-> _].
Qed.

Lemma ids_update_reserving id f d :
  (∀ p, p_ID (f p) = p_ID p) → same account_ids d (update_reserving_provider id f d).2.
Proof.
  intros Hf. unfold update_reserving_provider. destruct (db_reservations d !! id) as [r|]; [|done].
  destruct (update_row _ _ _ _) as [n m] eqn:Hrow. unfold same, account_ids. simpl. rsimpl.
  apply update_row_spec in Hrow as [(q & Hq & _ & -> & ->) | (_ & -> & ->)]; [|done].
  rewrite fmap_insert. apply insert_id. rewrite lookup_fmap, Hq. simpl. by rewrite Hf.
Qed.

Lemma ids_release id : pres (on_db (same account_ids)) (ReleaseProviderReservation id).
Proof.
  unfold ReleaseProviderReservation. pres_auto. apply pres_sql; [apply _|]. intros d [] d'. unfold release_tx.
  match goal with |- context [update_reserving_provider id ?f d] =>
    pose proof (ids_update_reserving id f d ltac:(intros; by rsimpl)) as Hs; destruct (update_reserving_provider id f d) as [n d1] end.
  destruct (n =? 0); by intros [= <-].
Qed.

Lemma ids_commit id n : pres (on_db (same account_ids)) (CommitProviderReservation id n).
Proof.
  unfold CommitProviderReservation. pres_auto. apply pres_sql; [apply _|]. intros d [] d'. unfold commit_tx.
  match goal with |- context [update_reserving_provider id ?f d] =>
    pose proof (ids_update_reserving id f d ltac:(intros; by rsimpl)) as Hs; destruct (update_reserving_provider id f d) as [m d1] end.
  destruct (negb (m =? 1)); [done|]. by intros [= <-].
Qed.

Lemma ids_try_provider input spool primary : pres (on_db (same account_ids)) (try_provider input spool primary).
Proof.
  unfold try_provider.
  repeat first [ pres_step | apply ids_reserve | apply ids_release | apply ids_commit
               | solve [apply pres_ledger_ids; unfold rewind; pres_auto] ].
Qed.

Lemma place_ends fuel input spool excluded w :
  keyed (w_db w) → (size (dom (db_providers (w_db w)) ∖ excluded) < fuel)%nat →
  (place fuel input spool excluded w).1 ≠ None.
Proof.
  revert excluded w. induction fuel as [|fuel IH]; intros excluded w Hk Hsize; [lia|]. simpl. unfold bind.
  destruct (Choose input excluded w).1 as [p|e] eqn:Hc; [|done].
  pose proof (Choose_listed _ _ _ _ Hc) as (Hex & ps & Hlist & Hp).
  assert (p_ID p ∈ dom (db_providers (w_db w))) as Hdom.
  { revert Hlist. simpl. unfold ListProviders, wrap_err, bind, sql_read, sql. destruct (env_db_fault _); [done|]. simpl.
    intros [= <-]. apply elem_of_order_by, elem_of_where in Hp as [Hp _].
    apply elem_of_rows in Hp as [k Hkp]. rewrite (Hk _ _ Hkp). by eapply elem_of_dom_2. }
  assert (pres (on_db (same account_ids)) (Choose input excluded)) as H1
    by (apply Choose_pres; [apply _ | simpl; pres_auto]).
  specialize (H1 w).
  destruct (Choose input excluded w) as [x w1]; simpl in *; clear Hc Hlist.
  pose proof (ids_try_provider input spool p w1) as H2.
  destruct (try_provider input spool p w1) as [[r|[]] w2]; simpl in *; [done|].
  assert (same account_ids (w_db w) (w_db w2)) as Hs by (unfold on_db in *; by etrans).
  assert (dom (db_providers (w_db w2)) = dom (db_providers (w_db w))) as Hd.
  { unfold same, account_ids in Hs. rewrite <- (dom_fmap_L p_ID (db_providers (w_db w))), <- Hs. by rewrite dom_fmap_L. }
  apply IH; [by eapply same_ids_keyed|]. rewrite Hd. eapply Nat.lt_le_trans; [|apply Nat.lt_succ_r, Hsize].
  apply subset_size. set_solver.
Qed.

(** More fuel than it takes changes nothing. *)
Lemma place_more fuel k input spool excluded w :
  (place fuel input spool excluded w).1 ≠ None →
  place (k + fuel) input spool excluded w = place fuel input spool excluded w.
Proof.
  revert excluded w. induction fuel as [|fuel IH]; intros excluded w Hne; [done|].
  rewrite Nat.add_succ_r. simpl in *. unfold bind in *. destruct (Choose input excluded w) as [[p|e] w1]; simpl in *; [|done].
  destruct (try_provider input spool p w1) as [[r|[]] w2]; simpl in *; [done|]. by apply IH.
Qed.

(** C17. The placement loop of an upload ends within one pass per account and
    one more, whatever the remote services and the database do; the fuel
    [place_upload] gives it is enough, and more makes no difference. *)
Theorem placement_loop_ends fuel input spool w :
  keyed (w_db w) → (size (db_providers (w_db w)) < fuel)%nat →
  ∃ outcome w', place fuel input spool ∅ w = (Some outcome, w') ∧ place_upload input spool w = (outcome, w').
Proof.
  intros Hk Hfuel. set (n := S (size (db_providers (w_db w)))).
  pose proof (place_ends n input spool ∅ w Hk) as Hends.
  rewrite difference_empty_L, size_dom in Hends. specialize (Hends ltac:(subst n; lia)).
  replace fuel with ((fuel - n) + n)%nat by (subst n; lia). rewrite place_more by done.
  unfold place_upload, bind. fold n. destruct (place n input spool ∅ w) as [[outcome|] w']; [|done].
  exists outcome, w'. done.
Qed.
End termination.

(** ** What an upload leaves in the index *)

Definition index_view (d : DB) : gmap (string * string) ObjectRecord * gmap (string * string) AttributesRow := (db_objects d, db_attributes d).

Section index.
Context `{Env} `{!Pipelines}.

Lemma try_provider_index input spool primary : pres (on_db (same index_view)) (try_provider input spool primary).
Proof. unfold try_provider. frame_auto. Qed.

Lemma place_upload_index input spool : pres (on_db (same index_view)) (place_upload input spool).
Proof.
  intros w. unfold place_upload. apply pres_bind; [apply _ | | intros; pres_auto].
  generalize (S (size (db_providers (w_db w)))), (∅ : gset string). intros fuel.
  induction fuel as [|fuel IH]; intros excluded; simpl; [pres_auto|].
  apply pres_bind; [apply _ | apply Choose_pres; [apply _ | simpl; pres_auto] |]. intros [p|e]; [|pres_auto].
  apply pres_bind; [apply _ | apply try_provider_index |]. intros [r|[]]; [pres_auto | apply IH].
Qed.

(** The index is touched by two statements of the last part only. *)
Lemma index_frames (a b : ObjectRecord) (l : list string) :
  pres (on_db (same index_view)) (cleanupOverwrittenObject a b) ∧
  pres (on_db (same index_view)) (deleteObjectReplicas a) ∧
  pres (on_db (same index_view)) (enqueueObjectReplicas a l) ∧
  pres (on_db (same index_view)) (dispatchObjectHook HookEventObjectCreated a) ∧
  pres (on_db (same index_view)) (PutObjectVersion a) ∧
  pres (on_db (same index_view)) (DeleteObjectEmbeddings (o_Bucket a) (o_Key a)).
Proof. split_and!; frame_auto. Qed.

Lemma plugins_index event obj : pres (on_db (same index_view)) (enqueueWASMPlugins event obj).
Proof.
  intros w. destruct (enqueue_objects event obj w) as (Ho & Ha & _). unfold on_db, same, index_view. by rewrite Ho, Ha.
Qed.

Lemma PutObject_store_run obj w w' :
  PutObject_store obj w = (Ok tt, w') →
  ∃ c u, db_objects (w_db w') = <[object_key obj := (object_row obj) <| o_CreatedAt := c |> <| o_UpdatedAt := u |>]> (db_objects (w_db w))
    ∧ db_attributes (w_db w') = db_attributes (w_db w).
Proof.
  unfold PutObject_store. intros Hrun. run_inv Hrun as t w1 Ht. injection Ht as <- <-.
  apply sql_write_inv in Hrun. revert Hrun. rsimpl. unfold put_object_row.
  destruct (db_providers _ !! _); [|done]. intros [= <-]. rsimpl. 
  exists (match db_objects (w_db w) !! object_key obj with Some old => o_CreatedAt old
          | None => if is_zero (o_CreatedAt obj) then env_now (w_clock w) else o_CreatedAt obj end), (env_now (w_clock w)).
  split; [|done].
  destruct (is_zero (o_CreatedAt obj)) eqn:Hz; unfold object_key, object_row, object_conflict in *; rsimpl;
    destruct (db_objects (w_db w) !! _) as [old|]; try done.
Qed.

Lemma PutObjectAttributes_run obj w w' :
  PutObjectAttributes obj w = (Ok tt, w') →
  ∃ t, db_attributes (w_db w') !! object_key obj = Some (MkAttributesRow (o_Metadata obj) (o_Tags obj) (o_VersionID obj)
         (o_RetentionMode obj) (o_RetainUntil obj) (o_LegalHold obj) t) ∧ db_objects (w_db w') = db_objects (w_db w).
Proof.
  unfold PutObjectAttributes. intros Hrun. run_inv Hrun as t w1 Ht. injection Ht as <- <-.
  apply sql_write_inv in Hrun. revert Hrun. rsimpl. unfold put_attributes_row.
  destruct (db_objects (w_db w) !! _); [|done]. intros [= <-]. rsimpl. rewrite lookup_insert_eq. eauto.
Qed.

(** What a reader of the index finds: the row with its attributes. *)
Definition lookup_object (v : gmap (string * string) ObjectRecord * gmap (string * string) AttributesRow) (k : string * string) : option ObjectRecord :=
  (λ o, hydrate o (v.2 !! k)) <$> v.1 !! k.

Lemma hydrate_row obj c u t :
  o_IsDeleteMarker obj = false →
  hydrate ((object_row obj) <| o_CreatedAt := c |> <| o_UpdatedAt := u |>)
    (Some (MkAttributesRow (o_Metadata obj) (o_Tags obj) (o_VersionID obj) (o_RetentionMode obj) (o_RetainUntil obj) (o_LegalHold obj) t))
  = obj <| o_CreatedAt := c |> <| o_UpdatedAt := u |>.
Proof.
  intros Hd. destruct obj as [b k p rb rk s ct et cs m tg v dm rm ru lh rs cr up]; simpl in Hd; subst.
  transitivity (MkObjectRecord b k p rb rk s ct et cs (m ∪ ∅) (tg ∪ ∅) v false rm ru lh rs c u); [reflexivity|].
  by rewrite !(right_id_L ∅ (∪)).
Qed.

Lemma hydrate_plain obj c u :
  o_IsDeleteMarker obj = false → hasPersistentObjectAttributes obj = false →
  hydrate ((object_row obj) <| o_CreatedAt := c |> <| o_UpdatedAt := u |>) None
  = obj <| o_CreatedAt := c |> <| o_UpdatedAt := u |>.
Proof.
  unfold hasPersistentObjectAttributes. rewrite !orb_false_iff, !negb_false_iff.
  intros Hd (((((Hm & Ht) & Hv) & Hr) & Hu) & Hl).
  apply bool_decide_eq_true in Hm, Ht. apply String.eqb_eq in Hv, Hr. apply Z.eqb_eq in Hu.
  destruct obj; simpl in *; subst. reflexivity.
Qed.

Lemma index_upload_run bucket input existing primary stored w obj w' :
  index_upload bucket input existing primary stored w = (Ok obj, w') →
  (∀ e, existing = Err e → errors_is e ErrNotFound = true → db_attributes (w_db w) !! (i_Bucket input, i_Key input) = None) →
  ∃ c u, lookup_object (index_view (w_db w')) (i_Bucket input, i_Key input) = Some (obj <| o_CreatedAt := c |> <| o_UpdatedAt := u |>).
Proof.
  unfold index_upload. intros Hrun Hnew. run_inv Hrun as created w1 H1. run_inv Hrun as updated w2 H2. run_inv Hrun as o w3 H3.
  assert (object_key o = (i_Bucket input, i_Key input) ∧ o_IsDeleteMarker o = false ∧ w_db w3 = w_db w) as (Hkey & Hmark & Hdb).
  { injection H1 as _ <-. injection H2 as _ <-. destruct (b_VersioningEnabled bucket); [run_inv H3 as v w4 Hv; injection Hv as _ <-|];
      injection H3 as <- <-; by rsimpl. }
  run_inv Hrun as u1 w4 H4. run_inv Hrun as [] w5 H5. run_inv Hrun as u2 w6 H6. run_inv Hrun as u3 w7 H7.
  assert (on_db (same index_view) w7 w' ∧ obj = o) as [Htail ->].
  { run_inv Hrun as u4 w8 H8. run_inv Hrun as u5 w9 H9. run_inv Hrun as u6 w10 H10. run_inv Hrun as u7 w11 H11.
    run_inv Hrun as u8 w12 H12. injection Hrun as <- <-. split; [|done].
    pose proof (index_frames o o (replicaTargets bucket (p_ID primary))) as (_ & _ & F3 & F4 & F5 & _).
    etrans; [eapply pres_run; [|exact H8]; destruct (b_VersioningEnabled bucket); [exact F5 | pres_auto]|].
    etrans; [eapply pres_run; [|exact H9]|]; [destruct existing as [prev|]; pres_auto; apply (index_frames _ o [])|].
    etrans; [eapply pres_run; [|exact H10]|]; [pres_auto|].
    etrans; [eapply pres_run; [|exact H11]; exact F4|].
    eapply pres_run; [|exact H12]. pres_auto. apply plugins_index. }
  assert (on_db (same index_view) w3 w4) as Hhead.
  { eapply pres_run; [|exact H4]. destruct existing; pres_auto; apply (index_frames _ o []). }
  apply PutObject_store_run in H5 as (c & u & Ho5 & Ha5).
  assert (on_db (same index_view) w5 w6) as H56.
  { eapply pres_run; [|exact H6]. pres_auto. apply (index_frames o o []). }
  unfold on_db, same, index_view in *. injection Htail as Ho Ha. injection Hhead as Ho4 Ha4. injection H56 as Ho6 Ha6.
  exists c, u. unfold lookup_object. simpl. rewrite Ho, Ha, <- Hkey. destruct (negb _ || _) eqn:Hattr.
  - destruct u3; apply PutObjectAttributes_run in H7 as (t & Ht & ->). rewrite Ho6, Ho5, lookup_insert_eq. cbn [fmap option_fmap option_map]. rewrite Ht.
    by rewrite hydrate_row.
  - injection H7 as _ <-. apply orb_false_iff in Hattr as [Hex Hpers]. rewrite Ho6, Ho5, lookup_insert_eq. cbn [fmap option_fmap option_map]. rewrite Ha6, Ha5, Ha4, Hdb.
    destruct existing as [prev|e]; [done|]. apply negb_false_iff in Hex.
    rewrite Hkey, (Hnew e) by done. by rewrite hydrate_plain.
Qed.

(** A failing statement does not report a missing row. *)
Definition faults_distinct : Prop := ∀ n e, env_db_fault n = Some e → errors_is e ErrNotFound = false.

Lemma GetObject_store_missing bucket key w e w' :
  faults_distinct → GetObject_store bucket key w = (Err e, w') → errors_is e ErrNotFound = true →
  db_objects (w_db w) !! (bucket, key) = None.
Proof.
  unfold faults_distinct, GetObject_store, sql_read, sql. intros Hf.
  destruct (env_db_fault _) eqn:Hn; [intros [= <- _]; by rewrite (Hf _ _ Hn)|].
  destruct (db_objects (w_db w) !! _); simpl; done.
Qed.

(** C3. Read your writes: when an upload succeeds, the index holds under its
    bucket and key the object that was returned, with its metadata, tags,
    version and retention, whatever was stored there before. *)
Theorem put_object_indexed input body w obj w' :
  faults_distinct → db_wf (w_db w) → PutObject input body w = (Ok obj, w') →
  ∃ c u, lookup_object (index_view (w_db w')) (i_Bucket input, i_Key input) = Some (obj <| o_CreatedAt := c |> <| o_UpdatedAt := u |>).
Proof.
  intros Hf Hfk. unfold PutObject. destruct (_ <? _); [done|]. intros Hrun.
  run_inv Hrun as bucket w1 H1. run_inv Hrun as found w2 H2. run_inv Hrun as existing w3 H3.
  run_inv Hrun as input1 w4 H4. run_inv Hrun as input2 w5 H5. run_inv Hrun as t w6 H6. run_inv Hrun as u1 w7 H7.
  run_inv Hrun as spool w8 H8. run_inv Hrun as placed w9 H9. destruct placed as [primary stored].
  assert (i_Bucket input2 = i_Bucket input ∧ i_Key input2 = i_Key input) as [Hb Hk].
  { revert H4 H5. unfold bind, ret. repeat case_match; intros [= <- _] [= <- _]; by rsimpl. }
  assert (on_db (same index_view) w w1) as F1 by (eapply pres_run; [|exact H1]; frame_auto).
  assert (on_db (same index_view) w1 w9) as F9.
  { etrans; [eapply pres_run; [|exact H2]; pres_auto|]. etrans; [eapply pres_run; [|exact H3]; pres_auto|].
    etrans; [eapply pres_run; [|exact H4]; pres_auto|]. etrans; [eapply pres_run; [|exact H5]; pres_auto|].
    etrans; [eapply pres_run; [|exact H6]; pres_auto|]. etrans; [eapply pres_run; [|exact H7]; pres_auto|].
    etrans; [eapply pres_run; [|exact H8]; apply spoolUpload_pres, _|]. eapply pres_run; [|exact H9]. apply place_upload_index. }
  rewrite <- Hb, <- Hk. eapply index_upload_run in Hrun; [exact Hrun|]. intros e -> He.
  change (db_attributes (w_db w9) !! (i_Bucket input2, i_Key input2) = None). rewrite Hb, Hk.
  unfold on_db, same, index_view in F1, F9. injection F9 as _ ->. injection F1 as Ho1 ->. apply wf_attributes_none; [done|]. rewrite <- Ho1.
  destruct found as [o|e']; [apply bind_inv in H3 as (x & wx & _ & H3); discriminate H3|]. injection H3 as -> _.
  by eapply GetObject_store_missing.
Qed.
End index.


(** ** Reading *)

Section reading.
Context `{Env}.

Lemma from_replicas_pres {A} R `{!PreOrder R} (read : Adapter → ProviderAccount → ObjectRecord → M (result A)) primary l failures :
  (∀ a p o, pres (on_db R) (read a p o)) → pres (on_db R) (from_replicas read primary l failures).
Proof.
  intros Hread. revert failures. induction l as [|r l IH]; intros failures; simpl; pres_auto; apply IH || apply Hread.
Qed.

Lemma GetObject_pres R `{!PreOrder R} bucket key : pres (on_db R) (GetObject bucket key).
Proof.
  unfold GetObject, getObjectFromReplica, read_from_replica. pres_auto; apply from_replicas_pres; [apply _|]; pres_auto.
Qed.

Lemma HeadObject_pres R `{!PreOrder R} bucket key : pres (on_db R) (HeadObject bucket key).
Proof.
  unfold HeadObject, headObjectFromReplica, read_from_replica. pres_auto; apply from_replicas_pres; [apply _|]; pres_auto.
Qed.

Lemma providerForReplica_kind account account' adapter :
  providerForReplica account = Ok (account', adapter) →
  env_registry (p_Kind account) = Some adapter ∧ p_ID account' = p_ID account.
Proof.
  unfold providerForReplica, decryptAccount, result_bind. intros Hrun. repeat case_match; simplify_eq; rsimpl; split; congruence.
Qed.

(** A successful fallback read used one completed replica on an enabled account. *)
Lemma from_replicas_source {A} (read : Adapter → ProviderAccount → ObjectRecord → M (result A)) primary l failures w a w' :
  (∀ ad p o, pres (on_db eq) (read ad p o)) →
  from_replicas read primary l failures w = (inl a, w') →
  ∃ replica account account' adapter w1 w2, replica ∈ l ∧ rp_Status replica = "succeeded" ∧
    db_providers (w_db w) !! rp_ProviderAccountID replica = Some account ∧ p_Enabled account = true ∧
    providerForReplica account = Ok (account', adapter) ∧
    read adapter account' (objectRecordForReplica primary replica) w1 = (Ok a, w2).
Proof.
  intros Hread. revert failures w. induction l as [|r l IH]; intros failures w; simpl; [done|].
  assert (∀ failures w1, w_db w1 = w_db w → from_replicas read primary l failures w1 = (inl a, w') →
    ∃ replica account account' adapter w1 w2, replica ∈ r :: l ∧ rp_Status replica = "succeeded" ∧
      db_providers (w_db w) !! rp_ProviderAccountID replica = Some account ∧ p_Enabled account = true ∧
      providerForReplica account = Ok (account', adapter) ∧
      read adapter account' (objectRecordForReplica primary replica) w1 = (Ok a, w2)) as Hrest.
  { intros fs w1 <- Hrun. destruct (IH fs w1 Hrun) as (r' & p & p' & ad & v1 & v2 & Hr' & Hx).
    exists r', p, p', ad, v1, v2. split; [by right|done]. }
  destruct (String.eqb_spec (rp_Status r) "succeeded") as [Hst|]; simpl; [|by apply Hrest].
  intros Hrun. run_inv Hrun as found w1 H1. destruct found as [account|e].
  2: { eapply (Hrest _ w1) in Hrun; [done|]. symmetry. eapply (pres_run (on_db eq)); [|exact H1]. pres_auto. }
  apply sql_read_inv in H1 as [Hacc Hdb]. destruct (db_providers (w_db w) !! _) as [acc|] eqn:Hp; [|done]. injection Hacc as ->.
  destruct (p_Enabled account) eqn:Hen; simpl in Hrun; [|by eapply (Hrest _ w1)].
  destruct (providerForReplica account) as [[account' adapter]|e] eqn:Hpr; [|by eapply (Hrest _ w1)].
  run_inv Hrun as served w2 H2. destruct served as [a'|e].
  - injection Hrun as <- <-. exists r, account, account', adapter, w1, w2. split_and!; try done. by left.
  - eapply (Hrest _ w2) in Hrun; [done|]. rewrite <- Hdb. symmetry. by eapply (pres_run (on_db eq)).
Qed.

(** C30. Where a read comes from: a successful read changes nothing in the
    database, and its body was served by the adapter of the account that the
    index names for the object or, when that failed, by the adapter of an
    enabled account that holds a replica whose copy was completed. *)
Theorem get_object_source bucket key w body served w' :
  GetObject bucket key w = (Ok (body, served), w') →
  w_db w' = w_db w ∧
  ∃ primary, db_objects (w_db w) !! (bucket, key) = Some primary ∧
  ∃ account account' adapter h obj o,
    providerForReplica account = Ok (account', adapter) ∧ ad_Get adapter h account' obj = Ok (body, o) ∧
    ((obj = primary ∧ db_providers (w_db w) !! o_ProviderAccountID primary = Some account) ∨
     (∃ replica, replica ∈ rows (db_replicas (w_db w)) ∧ rp_Bucket replica = o_Bucket primary ∧
        rp_Key replica = o_Key primary ∧ rp_Status replica = "succeeded" ∧
        db_providers (w_db w) !! rp_ProviderAccountID replica = Some account ∧ p_Enabled account = true ∧
        obj = objectRecordForReplica primary replica)).
Proof.
  intros Hrun. split; [symmetry; by eapply (pres_run (on_db eq)); [apply GetObject_pres, _|]|].
  unfold GetObject in Hrun. run_inv Hrun as oa w1 H1. destruct oa as [obj account].
  apply sql_read_inv in H1 as [Hread Hdb]. destruct (db_objects (w_db w) !! _) as [primary|] eqn:Ho; [|done].
  destruct (db_providers (w_db w) !! _) as [acc|] eqn:Hp; [|done]. injection Hread as -> ->.
  exists obj. split; [done|].
  run_inv Hrun as got w2 H2. destruct got as [[b s]|primaryErr].
  - run_inv Hrun as s' w3 H3. injection Hrun as <- _ _.
    destruct (providerForReplica account) as [[account' adapter]|e] eqn:Hpr; [|done].
    exists account, account', adapter, (w_calls w1), obj, s. split_and!; [done| |by left]. by injection H2.
  - assert (w_db w2 = w_db w1) as Hdb2.
    { symmetry. eapply (pres_run (on_db eq)); [|exact H2]. destruct (providerForReplica account) as [[? ?]|]; pres_auto. }
    run_inv Hrun as fallback w3 H3. destruct fallback as [[b s]|e]; [|done]. run_inv Hrun as s' w4 H4. injection Hrun as <- _ _.
    unfold getObjectFromReplica, read_from_replica in H3. run_inv H3 as replicas w5 H5. run_inv H3 as r w6 H6.
    destruct r as [a|[|]]; [|done..]. injection H3 as -> _.
    apply from_replicas_source in H6 as (replica & acc & acc' & ad & v1 & v2 & Hr & Hst & Hacc & Hen & Hpr & Hget); [|intros; pres_auto].
    apply sql_read_inv in H5 as [Hl Hdb5]. injection Hl as <-. rewrite Hdb5, Hdb2, Hdb in Hacc.
    apply elem_of_order_by, elem_of_where in Hr as [Hr Hm]. apply andb_true_iff in Hm as [Hb Hk].
    apply String.eqb_eq in Hb, Hk. rewrite Hdb2, Hdb in Hr.
    exists acc, acc', ad, (w_calls v1), (objectRecordForReplica obj replica), s. split_and!; [done| by injection Hget |].
    right. exists replica. done.
Qed.
End reading.

(** ** Uploads that are too large *)

(** What an upload that is refused leaves alone: every table but that of the
    buckets, where the bucket may have been created. *)
Definition not_buckets (d : DB) : DB := d <| db_buckets := ∅ |>.

Section too_large.
Context `{Env} `{!Pipelines}.

Lemma limited_too_large body :
  0 ≤ max_upload < int64_max → max_upload < Z.of_nat (String.length (rd_data body)) →
  max_upload < Z.of_nat (String.length (limited max_upload body).1) ∧ (limited max_upload body).2 = None.
Proof.
  intros Hmax Hlen. unfold limited.
  assert (add64 max_upload 1 = max_upload + 1) as -> by (apply wrap64_id; unfold in_int64, int64_min, int64_max in *; lia).
  destruct (Z.ltb_spec (Z.of_nat (String.length (rd_data body))) (max_upload + 1)); [lia|]. simpl.
  rewrite string_take_length, Nat.min_l by lia. split; [lia|done].
Qed.

Lemma spoolUpload_too_large body w :
  0 ≤ max_upload < int64_max → max_upload < Z.of_nat (String.length (rd_data body)) →
  is_ok (spoolUpload body w).1 = false ∧
  ((∀ n, env_fs_fault n = None) → (spoolUpload body w).1 = too_large).
Proof.
  intros Hmax Hlen. destruct (limited_too_large body Hmax Hlen) as [Hbig Hnone].
  unfold spoolUpload. destruct (limited max_upload body) as [data failed]. simpl in *. subst failed.
  unfold bind_ok, wrap_err, bind, file_op. simpl.
  destruct (env_fs_fault (w_files w)) eqn:Hf1; simpl; [split; [done|]; intros Hf; by rewrite Hf in Hf1|].
  rsimpl. destruct (env_fs_fault (S (w_files w))) eqn:Hf2; simpl; [split; [done|]; intros Hf; by rewrite Hf in Hf2|].
  destruct (Z.ltb_spec max_upload (Z.of_nat (String.length data))); [by split|lia].
Qed.

(** An upload larger than the limit is refused before anything leaves the
    process: one that says so at once and without any effect, one that turns
    out to be when its body is read with no remote call and no change but the
    creation of its bucket; and the error is ErrUploadTooLarge. *)
Theorem too_large_is_refused input body w :
  0 ≤ max_upload < int64_max →
  (max_upload < i_Size input → PutObject input body w = (too_large, w)) ∧
  (max_upload < Z.of_nat (String.length (rd_data body)) →
     is_ok (PutObject input body w).1 = false ∧
     w_calls (PutObject input body w).2 = w_calls w ∧
     not_buckets (w_db (PutObject input body w).2) = not_buckets (w_db w) ∧
     ((∀ n, env_fs_fault n = None) → (spoolUpload body w).1 = too_large)).
Proof.
  intros Hmax. split; [intros Hsize; unfold PutObject; by rewrite (proj2 (Z.ltb_lt _ _) Hsize)|].
  intros Hlen. pose proof (λ w, spoolUpload_too_large body w Hmax Hlen) as Hspool.
  assert (∀ R, PreOrder R → pres R (ensureBucket (i_Bucket input)) → pres R now → (∀ n, pres R (randomIdentifier "" n)) →
    (∀ b k, pres R (GetObject_store b k)) → (∀ o, pres R (hydrated o)) → pres R (spoolUpload body) → pres R (PutObject input body)) as Hpres.
  { intros R HR He Hn Hr Hg Hh Hs. unfold PutObject. destruct (_ <? _); [unfold too_large; pres_auto|].
    repeat first [ eassumption | apply Hg | apply Hh | apply Hr
      | lazymatch goal with |- pres _ (bind_ok (spoolUpload _) _) => idtac end;
        apply (pres_bind_post _ (λ r, is_ok r = false)); [done | intros w'; apply Hspool | intros [?|?] ?; [done|pres_auto]]
      | pres_step ]. }
  split_and!.
  - destruct (PutObject input body w) as [[obj|e] w'] eqn:Hrun; [exfalso|done]. revert Hrun. unfold PutObject.
    destruct (_ <? _); [done|]. intros Hrun.
    do 6 (let x := fresh in let v := fresh in let E := fresh in run_inv Hrun as x v E).
    run_inv Hrun as u wret Hret. run_inv Hrun as spool wspool Hsp.
    destruct (Hspool wret) as [Hno _]. by rewrite Hsp in Hno.
  - apply (Hpres same_calls); try apply _; try (intros; frame_auto). 
  - apply (Hpres (on_db (same not_buckets))); try apply _; try (intros; frame_auto).
  - apply Hspool.
Qed.
End too_large.

(** ** Concrete uploads *)

Definition first_upload : result ObjectRecord * World :=
  @PutObject demo_env _ (demo_upload "b" "k" 3) (MkReader "abc" None) (start (demo_db demo_bucket)).

Lemma demo_db_wf : db_wf (demo_db demo_bucket).
Proof. apply db_wfb_sound. vm_compute. reflexivity. Qed.

Lemma put_object_leaks_nothing_witness : same_ledger (demo_db demo_bucket) (w_db first_upload.2).
Proof.
  apply (@put_object_leaks_nothing demo_env no_pipelines (demo_upload "b" "k" 3) (MkReader "abc" None) (start (demo_db demo_bucket))).
  - intros n. reflexivity.
  - exact (wf_ledger _ demo_db_wf).
Defined.

Lemma placement_loop_ends_witness :
  ∃ outcome w', @place demo_env 3 (demo_upload "b" "k" 3) (MkPreparedUpload "abc" 3 "") ∅ (start (demo_db demo_bucket)) = (Some outcome, w').
Proof.
  destruct (@placement_loop_ends demo_env 3 (demo_upload "b" "k" 3) (MkPreparedUpload "abc" 3 "") (start (demo_db demo_bucket)))
    as (outcome & w' & Hrun & _).
  - intros k p Hp. exact (proj1 (ledger_provider _ _ (wf_ledger _ demo_db_wf) k p Hp)).
  - apply Nat.leb_le. vm_compute. reflexivity.
  - exists outcome, w'. exact Hrun.
Defined.

Definition first_record : ObjectRecord := match first_upload.1 with Ok o => o | Err _ => zero_ObjectRecord end.

Lemma put_object_indexed_witness :
  ∃ c u, lookup_object (index_view (w_db first_upload.2)) ("b", "k") = Some (first_record <| o_CreatedAt := c |> <| o_UpdatedAt := u |>).
Proof.
  apply (@put_object_indexed demo_env no_pipelines (demo_upload "b" "k" 3) (MkReader "abc" None) (start (demo_db demo_bucket))
              first_record first_upload.2).
  - intros n e He. discriminate He.
  - exact demo_db_wf.
  - apply (run_pair (@PutObject demo_env no_pipelines (demo_upload "b" "k" 3) (MkReader "abc" None))). vm_compute. reflexivity.
Defined.

Lemma get_object_source_witness :
  w_db (@GetObject demo_env "b" "k" first_upload.2).2 = w_db first_upload.2.
Proof.
  destruct (@get_object_source demo_env "b" "k" first_upload.2
              (match (@GetObject demo_env "b" "k" first_upload.2).1 with Ok x => x.1 | Err _ => MkReader "" None end)
              (match (@GetObject demo_env "b" "k" first_upload.2).1 with Ok x => x.2 | Err _ => zero_ObjectRecord end)
              (@GetObject demo_env "b" "k" first_upload.2).2) as [Hdb _].
  - apply (run_pair (@GetObject demo_env "b" "k")). vm_compute. reflexivity.
  - exact Hdb.
Defined.

Lemma too_large_is_refused_witness :
  @PutObject demo_env no_pipelines (demo_upload "b" "k" 2000000) (MkReader "abc" None) (start (demo_db demo_bucket))
  = (@too_large demo_env _, start (demo_db demo_bucket)).
Proof.
  apply (@too_large_is_refused demo_env no_pipelines (demo_upload "b" "k" 2000000) (MkReader "abc" None)).
  - vm_compute. split; [discriminate | reflexivity].
  - vm_compute. reflexivity.
Defined.
