(* ===== verification/MigrationFacts.v ===== *)
(** Migrations: the source is deleted last, and a run that is left
    alone does exactly its job. *)
From S2P Require Import Prelude GoTime Json Text Domain ProviderErrors World Sql StoreProviders StoreObjects Pages StoreEvents Placement Demo Providers Hooks Jobs JobsFacts Service ServiceFacts Migration.

Section safety.
Context `{Env}.

(** ** No object is lost *)

Definition not_delete (c : Call) : Prop := match c with CallDelete _ _ => False | _ => True end.

Lemma not_delete_same {A} (m : M A) : pres same_calls m → pres (calls_only not_delete) m.
Proof. apply pres_same_calls_only. Qed.

(** What the calls before the index is written have been. *)
Lemma copy_to_target_calls account adapter target obj id : pres (calls_only not_delete) (copy_to_target account adapter target obj id).
Proof.
  unfold copy_to_target, adapter_get, putOnProvider, adapter_put.
  repeat first [ solve [apply calls_remote; exact I] | pres_step | solve [apply not_delete_same; frame_auto] ].
Qed.

(** A copy that the code goes on with: what the source answered is what the
    target was given and has stored, and nothing else was asked. *)
Definition copied (source : ProviderAccount) (sourceAdapter : Adapter) (target : ProviderAccount) (obj : ObjectRecord)
    (stored : StoredObject) (w w' : World) : Prop :=
  ∃ body meta decrypted adapter answered,
    ad_Get sourceAdapter (w_calls w) source obj = Ok (body, meta) ∧ providerForReplica target = Ok (decrypted, adapter)
    ∧ ad_Put adapter (CallGet source obj :: w_calls w) decrypted (migration_input obj) body = Ok answered
    ∧ st_RemoteBucket stored = st_RemoteBucket answered ∧ st_RemoteKey stored = st_RemoteKey answered ∧ st_Size stored = st_Size answered
    ∧ w_calls w' = CallPut decrypted (migration_input obj) body :: CallGet source obj :: w_calls w.

Lemma copy_to_target_ok source adapter target obj id w stored w' :
  copy_to_target source adapter target obj id w = (Ok stored, w') → copied source adapter target obj stored w w'.
Proof.
  unfold copy_to_target. intros (got & w1 & Hget & Hrun)%bind_inv. unfold adapter_get, remote in Hget. injection Hget as <- <-.
  destruct (ad_Get adapter (w_calls w) source obj) as [[body meta]|e] eqn:Eget.
  2:{ apply bind_inv in Hrun as (u & w2 & _ & [=]). }
  apply bind_inv in Hrun as (put & w2 & Hput & Hrun). unfold putOnProvider in Hput.
  destruct (providerForReplica target) as [[decrypted tadapter]|e] eqn:Et.
  2:{ injection Hput as <- <-. apply bind_inv in Hrun as (u & w3 & _ & Hrun). apply bind_inv in Hrun as (u' & w4 & _ & [=]). }
  unfold adapter_put, remote in Hput. rsimpl. injection Hput as <- <-.
  destruct (ad_Put tadapter _ decrypted (migration_input obj) body) as [answered|e] eqn:Eput.
  2:{ apply bind_inv in Hrun as (u & w3 & _ & Hrun). apply bind_inv in Hrun as (u' & w4 & _ & [=]). }
  cbv zeta in Hrun. apply bind_inv in Hrun as (committed & w3 & Hcommit & Hrun). frame same_calls Hcommit as Hcalls.
  destruct committed as [u|e]; [|apply bind_inv in Hrun as (u & w4 & _ & [=])]. injection Hrun as <- <-.
  unfold same_calls in Hcalls. rsimpl. exists body, meta, decrypted, tadapter, answered. rewrite Hcalls.
  split_and!; try done; by destruct (_ =? _)%string.
Qed.

(** The index names a copy of the object on the target. *)
Definition indexed_at (d d' : DB) (obj : ObjectRecord) (targetProviderID : string) (stored : StoredObject) : Prop :=
  ∃ row, db_objects d' = <[object_key obj := row]> (db_objects d) ∧ object_key row = object_key obj
    ∧ o_ProviderAccountID row = targetProviderID ∧ o_RemoteBucket row = st_RemoteBucket stored
    ∧ o_RemoteKey row = st_RemoteKey stored ∧ o_Size row = st_Size stored.

Lemma put_migrated obj target stored w u w' : PutObject_store (migrated_object obj target stored) w = (Ok u, w') →
  indexed_at (w_db w) (w_db w') obj target stored.
Proof.
  unfold PutObject_store. intros (t & w1 & Ht & Hrun)%bind_inv. injection Ht as <- <-. destruct u. cbv zeta in Hrun.
  apply sql_write_inv in Hrun. unfold put_object_row in Hrun. destruct (db_providers _ !! _); [|done]. injection Hrun as <-. rsimpl.
  unfold object_key. destruct (is_zero (o_CreatedAt _)); rsimpl;
    (eexists; split; [reflexivity|]; destruct (db_objects (w_db w) !! _) as [old|]; done).
Qed.

Lemma index_migrated_cases source adapter obj target mode stored w r w' :
  index_migrated source adapter obj target mode stored w = (r, w') →
  (db_objects (w_db w') = db_objects (w_db w) ∧ w_calls w' = w_calls w ∧ (r = Ok tt → mode = MigrationModeCopy)) ∨
  (r = Ok tt ∧ mode ≠ MigrationModeCopy ∧ indexed_at (w_db w) (w_db w') obj target stored
    ∧ w_calls w' = CallDelete source obj :: w_calls w).
Proof.
  unfold index_migrated. destruct (String.eqb_spec mode MigrationModeCopy) as [->|Hmode]; intros Hrun.
  - left. frame (on_db (same db_objects)) Hrun as Hd. frame same_calls Hrun as Hc. done.
  - apply bind_ok_cases in Hrun as [(e & Hput & ->)|(u & w1 & Hput & Hrun)].
    + left. frame same_calls Hput as Hc. split; [|by split]. unfold PutObject_store in Hput. apply bind_inv in Hput as (t & w1 & Ht & Hput).
      injection Ht as <- <-. unfold sql_write, sql in Hput. cbv zeta in Hput. destruct (env_db_fault _); [by injection Hput as _ <-|].
      destruct (put_object_row _ _); [done|]. by injection Hput as _ <-.
    + right. frame same_calls Hput as Hc. apply put_migrated in Hput as Hindex.
      apply bind_inv in Hrun as (deleted & w2 & Hdel & Hrun). unfold adapter_delete, remote in Hdel. injection Hdel as <- <-.
      assert (r = Ok tt ∧ db_objects (w_db w') = db_objects (w_db w1) ∧ w_calls w' = CallDelete source obj :: w_calls w1) as (-> & Hd & Hc').
      { destruct (ad_Delete _ _ _ _); [|by injection Hrun as <- <-]. apply bind_inv in Hrun as (u' & w3 & Huse & Hrun). injection Hrun as <- <-.
        frame (on_db (same db_objects)) Huse as Hd. by frame same_calls Huse as Hc'. }
      split_and!; [done|done| |by rewrite Hc', Hc]. destruct Hindex as (row & Hrow & Hrest). exists row. by rewrite Hd.
Qed.

Lemma prepare_migration_ok obj target w source adapter account id w' :
  prepare_migration obj target w = (Ok (source, adapter, account, id), w') →
  db_providers (w_db w) !! target = Some account ∧
  ∃ row, db_providers (w_db w) !! o_ProviderAccountID obj = Some row ∧ providerForReplica row = Ok (source, adapter).
Proof.
  unfold prepare_migration. intros (s & w1 & H1 & Hrun)%bind_ok_inv. frame (on_db (same db_providers)) H1 as P1.
  assert (∃ row, db_providers (w_db w) !! o_ProviderAccountID obj = Some row ∧ providerForReplica row = Ok s) as Hsource.
  { unfold providerForObject in H1. apply bind_ok_inv in H1 as (row & w0 & H0 & H1). apply sql_read_inv in H0 as [H0 _].
    destruct (db_providers (w_db w) !! _) as [p|]; [|done]. injection H0 as ->. exists row. by injection H1 as ->. }
  apply bind_ok_inv in Hrun as (account' & w2 & H2 & Hrun). apply sql_read_inv in H2 as [H2 _].
  unfold on_db, same in P1. rewrite P1 in H2. destruct (negb _); [done|].
  do 3 (apply bind_inv in Hrun as (? & ? & _ & Hrun)). apply bind_ok_inv in Hrun as (reserved & w3 & _ & Hrun).
  destruct (negb reserved); [done|]. injection Hrun as E1 E2 E _ _. destruct s as [s1 s2]. cbn in E1, E2. subst s1 s2.
  destruct (db_providers (w_db w) !! target) as [p|]; [|discriminate H2]. split; [congruence|done].
Qed.

(** The calls of a move, made to the providers the rows name, with their
    secrets: the source's answer is given to the target, which stores it; last
    the object is deleted at the source. *)
Definition moved (obj : ObjectRecord) (targetProviderID : string) (stored : StoredObject) (w w' : World) : Prop :=
  ∃ sourceRow source sourceAdapter targetRow target targetAdapter body meta,
    db_providers (w_db w) !! o_ProviderAccountID obj = Some sourceRow ∧ providerForReplica sourceRow = Ok (source, sourceAdapter) ∧
    db_providers (w_db w) !! targetProviderID = Some targetRow ∧ providerForReplica targetRow = Ok (target, targetAdapter) ∧
    ad_Get sourceAdapter (w_calls w) source obj = Ok (body, meta) ∧
    ad_Put targetAdapter (CallGet source obj :: w_calls w) target (migration_input obj) body = Ok stored ∧
    w_calls w' = [CallDelete source obj; CallPut target (migration_input obj) body; CallGet source obj] ++ w_calls w.

Lemma migrate_object_cases obj target mode w r w' : migrateObjectToProvider obj target mode w = (r, w') →
  (db_objects (w_db w') = db_objects (w_db w) ∧ calls_only not_delete w w' ∧ (r = Ok tt → mode = MigrationModeCopy)) ∨
  (r = Ok tt ∧ mode ≠ MigrationModeCopy ∧ ∃ stored, moved obj target stored w w' ∧ indexed_at (w_db w) (w_db w') obj target stored).
Proof.
  unfold migrateObjectToProvider. intros [(e & H1 & ->)|([[[source adapter] account] id] & w1 & H1 & Hrun)]%bind_ok_cases;
    frame (on_db (same db_objects)) H1 as D1; frame same_calls H1 as C1; unfold on_db, same, same_calls in D1, C1.
  { left. split_and!; [done|by apply same_calls_only|done]. }
  apply prepare_migration_ok in H1 as (Haccount & row & Hrow & Hsource).
  apply bind_ok_cases in Hrun as [(e & H2 & ->)|(stored & w2 & H2 & Hrun)]; frame (on_db (same db_objects)) H2 as D2;
    pose proof (pres_run _ _ _ _ _ (copy_to_target_calls _ _ _ _ _) H2) as C2; unfold on_db, same in D2.
  { left. split_and!; [by rewrite D2, D1|etrans; [by apply same_calls_only|exact C2]|done]. }
  apply index_migrated_cases in Hrun as [(D3 & C3 & Hr)|(-> & Hmode & Hindex & C3)].
  - left. split_and!; [by rewrite D3, D2, D1| |done]. etrans; [by apply same_calls_only|]. etrans; [exact C2|]. by apply same_calls_only.
  - right. split_and!; [done|done|].
    apply copy_to_target_ok in H2 as (body & meta & decrypted & tadapter & answered & Hget & Ht & Hput & Eb & Ek & Es & Hcalls).
    rewrite C1 in Hget, Hput, Hcalls. exists answered. split.
    + exists row, source, adapter, account, decrypted, tadapter, body, meta. split_and!; try done. rewrite C3, Hcalls. done.
    + destruct Hindex as (new & Hnew & Hkey & Hp & Hb & Hk & Hs). exists new. rewrite Hnew, D2, D1. split_and!; congruence.
Qed.
End safety.

(** C38. The migration of one object deletes last: whatever fails on the way,
    either the index is as it was and nothing has been deleted, or, only in a
    move that succeeds, the calls were exactly these: the bytes the source
    provider answered for the object were stored by the target provider, and
    then the object was deleted at the source; and the index names, for this
    object alone, the target and the place and size the target answered. *)
Theorem migration_deletes_last `{Env} obj target mode w r w' : migrateObjectToProvider obj target mode w = (r, w') →
  (db_objects (w_db w') = db_objects (w_db w) ∧ calls_only not_delete w w' ∧ (r = Ok tt → mode = MigrationModeCopy)) ∨
  (r = Ok tt ∧ mode ≠ MigrationModeCopy ∧ ∃ stored, moved obj target stored w w' ∧ indexed_at (w_db w) (w_db w') obj target stored).
Proof. apply migrate_object_cases. Qed.

(** One object on the first of two providers. *)
Definition moving_object : ObjectRecord :=
  zero_ObjectRecord <| o_Bucket := "b" |> <| o_Key := "k" |> <| o_ProviderAccountID := "p1" |> <| o_RemoteBucket := "remote" |>
    <| o_RemoteKey := "b/k" |> <| o_Size := 3 |>.
Definition moving_db : DB := (demo_db demo_bucket) <| db_objects := {[ ("b", "k") := moving_object ]} |>.

Lemma migration_deletes_last_witness : let run := @migrateObjectToProvider demo_env moving_object "p2" MigrationModeMove (start moving_db) in
  run.1 = Ok tt ∧ ∃ stored, indexed_at moving_db (w_db run.2) moving_object "p2" stored.
Proof.
  intros run. destruct (@migration_deletes_last demo_env moving_object "p2" MigrationModeMove (start moving_db) run.1 run.2 (surjective_pairing _))
    as [(_ & _ & Hcopy)|(Hr & _ & stored & _ & Hindex)].
  - assert (run.1 = Ok tt) as Hr by (vm_compute; reflexivity). specialize (Hcopy Hr). discriminate Hcopy.
  - split; [exact Hr|]. exists stored. exact Hindex.
Defined.

(** ** What a run does *)

Section run.
Context `{Env} (Hq : no_db_faults).

Lemma db_wf_migrations f d : db_wf d → db_wf (d <| db_migrations ::= f |>).
Proof. intros [H1 H2 H3 H4 H5]. by split. Qed.

(** The pages of the source add up to its objects. *)
Lemma migration_pages_all fuel job key w (l := after_key key (listed (mj_Bucket job) (mj_Prefix job) (w_db w))) :
  db_wf (w_db w) → (List.length l < fuel)%nat →
  ∃ w', migration_pages fuel job key w = (Ok (List.filter (λ o, (o_ProviderAccountID o =? mj_SourceProviderID job)%string) l), w')
    ∧ w_db w' = w_db w.
Proof.
  subst l. revert key w. induction fuel as [|fuel IH]; intros key w Hwf Hfuel; [lia|]. cbn [migration_pages].
  set (l := after_key key (listed _ _ (w_db w))) in *.
  erewrite bind_ok_run by (apply ListObjectsAfter_page; [done|done|lia]). fold l. cbv zeta.
  change (Z.to_nat 1000) with 1000%nat. destruct (last (take 1000 l)) as [o|] eqn:Hlast.
  2:{ apply last_None in Hlast. assert (l = []) as -> by by destruct l. eexists. by split. }
  destruct (Nat.ltb_spec (List.length (take 1000 l)) 1000) as [Hshort|Hlong].
  - rewrite length_take in Hshort. rewrite take_ge by lia. eexists. by split.
  - rewrite length_take in Hlong. assert (after_key (o_Key o) (listed (mj_Bucket job) (mj_Prefix job) (w_db w)) = drop 1000 l) as Hrest.
    { apply (after_page _ _ _ _ 999); [done|fold l; lia|done]. }
    destruct (IH (o_Key o) (w <| w_stmts ::= S |>)) as (w' & E & Hd).
    + done.
    + rsimpl. rewrite Hrest, length_drop. lia.
    + rsimpl. rewrite Hrest in E. erewrite bind_ok_run by exact E. eexists. split; [|exact Hd].
      unfold ret_ok, ret. f_equal. f_equal. rewrite <- List.filter_app. by rewrite take_drop.
Qed.

(** The row says what the job says. *)
Definition recorded (job : MigrationJob) (d : DB) : Prop :=
  ∃ old t, db_migrations d !! mj_ID job = Some (job_saved t old job).

Definition has_row (job : MigrationJob) (d : DB) : Prop := is_Some (db_migrations d !! mj_ID job).

(** What is left alone when a job is saved. *)
Definition rest_of (d : DB) : DB := d <| db_migrations := ∅ |>.

Lemma update_migration_run job w : has_row job (w_db w) →
  ∃ w', UpdateMigrationJob job w = (Ok tt, w') ∧ recorded job (w_db w') ∧ rest_of (w_db w') = rest_of (w_db w).
Proof.
  intros [old Hold]. unfold UpdateMigrationJob, update_job, now. erewrite bind_run by reflexivity.
  set (t := env_now _). eexists. split.
  { apply sql_write_quiet; [done|]. reflexivity. }
  unfold update_job_row, update_row. cbn [job_table migration_table job_ID set_job_table]. rsimpl. rewrite Hold. cbn [fst snd]. rsimpl.
  split; [|by destruct (w_db w)]. exists old, t. rsimpl. apply lookup_insert_eq.
Qed.

Lemma recorded_has_row job d : recorded job d → has_row job d.
Proof. intros (old & t & E). by exists (job_saved t old job). Qed.

(** The job after one object: tried, and counted as one or the other. *)
Definition counted (job job' : MigrationJob) (ok failed : Z) : Prop :=
  mj_ID job' = mj_ID job ∧ mj_Mode job' = mj_Mode job ∧ mj_TargetProviderID job' = mj_TargetProviderID job
  ∧ mj_TotalObjects job' = mj_TotalObjects job
  ∧ mj_ProcessedObjects job' = mj_ProcessedObjects job + ok + failed
  ∧ mj_SucceededObjects job' = mj_SucceededObjects job + ok ∧ mj_FailedObjects job' = mj_FailedObjects job + failed.

Lemma migrate_one_run job obj w : has_row job (w_db w) → 0 ≤ mj_ProcessedObjects job < int64_max →
  0 ≤ mj_SucceededObjects job < int64_max → 0 ≤ mj_FailedObjects job < int64_max →
  ∃ job' w' w1 r w2, migrate_one job obj w = (Ok job', w') ∧ has_row job' (w_db w')
    ∧ migrateObjectToProvider obj (mj_TargetProviderID job) (mj_Mode job) w1 = (r, w2)
    ∧ rest_of (w_db w1) = rest_of (w_db w) ∧ rest_of (w_db w') = rest_of (w_db w2)
    ∧ counted job job' (match r with Ok _ => 1 | Err _ => 0 end) (match r with Ok _ => 0 | Err _ => 1 end).
Proof.
  intros Hrow Hp Hs Hf. unfold migrate_one. cbv zeta.
  assert (has_row (job <| mj_CurrentKey := o_Key obj |>) (w_db w)) as Hrow' by exact Hrow.
  destruct (update_migration_run _ w Hrow') as (w1 & E1 & R1%recorded_has_row & D1).
  destruct (migrateObjectToProvider obj (mj_TargetProviderID job) (mj_Mode job) w1) as [r w2] eqn:E2.
  frame (on_db (same db_migrations)) E2 as D2. unfold on_db, same in D2.
  set (job' := match r with
               | Err e => job <| mj_CurrentKey := o_Key obj |> <| mj_ProcessedObjects ::= λ n, add64 n 1 |>
                            <| mj_FailedObjects ::= λ n, add64 n 1 |> <| mj_LastError := o_Key obj +:+ ": " +:+ error_text e |>
               | Ok _ => job <| mj_CurrentKey := o_Key obj |> <| mj_ProcessedObjects ::= λ n, add64 n 1 |>
                           <| mj_SucceededObjects ::= λ n, add64 n 1 |>
               end).
  assert (mj_ID job' = mj_ID job) as HID by by destruct r.
  assert (has_row job' (w_db w2)) as R2. { unfold has_row. rewrite HID, D2. exact R1. }
  destruct (update_migration_run job' w2 R2) as (w3 & E3 & R3%recorded_has_row & D3).
  exists job', w3, w1, r, w2. split_and!; try done.
  - rewrite (bind_ok_run _ _ _ _ _ E1). rsimpl. rewrite (bind_run _ _ _ _ _ E2). fold job'. by rewrite (bind_ok_run _ _ _ _ _ E3).
  - unfold counted. unfold int64_max in *.
    destruct r; subst job'; rsimpl; unfold add64; rewrite !wrap64_id by (unfold in_int64, int64_min, int64_max; lia); split_and!; (done || lia).
Qed.

(** What is in the index once all objects have moved. *)
Definition moved_rows (target : string) (objects : list ObjectRecord) (d d' : DB) : Prop :=
  ∀ k row, db_objects d' !! k = Some row →
    o_ProviderAccountID row = target ∨ (k ∉ object_key <$> objects ∧ db_objects d !! k = Some row).

Lemma rest_objects d d' : rest_of d = rest_of d' → db_objects d = db_objects d'.
Proof. intros E. exact (f_equal db_objects E). Qed.

Lemma migrate_all_run ctx job objects w : (∀ w, ctx w = None) → has_row job (w_db w) →
  0 ≤ mj_ProcessedObjects job → mj_ProcessedObjects job + Z.of_nat (List.length objects) ≤ int64_max →
  0 ≤ mj_SucceededObjects job ≤ mj_ProcessedObjects job → 0 ≤ mj_FailedObjects job ≤ mj_ProcessedObjects job →
  ∃ job' w' ok failed, migrate_all ctx job objects w = (Ok job', w') ∧ has_row job' (w_db w') ∧ counted job job' ok failed
    ∧ 0 ≤ ok ∧ 0 ≤ failed ∧ ok + failed = Z.of_nat (List.length objects)
    ∧ (failed = 0 → mj_Mode job ≠ MigrationModeCopy → moved_rows (mj_TargetProviderID job) objects (w_db w) (w_db w')).
Proof.
  intros Hctx. revert job w. induction objects as [|obj rest IH]; intros job w Hrow Hp0 Hp Hs Hf; cbn [migrate_all List.length] in *.
  - exists job, w, 0, 0. unfold counted. split_and!; try done; try lia. intros _ _ k row Hk. right. split; [apply not_elem_of_nil|done].
  - destruct (migrate_one_run job obj w Hrow) as (job1 & w1 & v1 & r & v2 & E1 & Hrow1 & E2 & D1 & D2 & Hc1); [lia..|].
    apply migrate_object_cases in E2. apply rest_objects in D1, D2.
    set (ok1 := match r with Ok _ => 1 | Err _ => 0 end) in Hc1. set (failed1 := match r with Ok _ => 0 | Err _ => 1 end) in Hc1.
    assert (0 ≤ ok1 ∧ 0 ≤ failed1 ∧ ok1 + failed1 = 1) as (? & ? & ?) by (subst ok1 failed1; destruct r; lia).
    pose proof Hc1 as (I1 & M1 & T1 & Tot1 & P1 & S1 & F1).
    destruct (IH job1 w1 Hrow1) as (job2 & w2 & ok2 & failed2 & E3 & Hrow2 & Hc2 & ? & ? & ? & Hmoved); [lia..|].
    destruct Hc2 as (I2 & M2 & T2 & Tot2 & P2 & S2 & F2).
    exists job2, w2, (ok1 + ok2), (failed1 + failed2). split_and!; try done; try lia.
    + erewrite bind_ok_run by (unfold ctx_err; rewrite Hctx; reflexivity). by rewrite (bind_ok_run _ _ _ _ _ E1).
    + unfold counted. split_and!; (congruence || lia).
    + intros Hfail Hmode k row Hk. rewrite M1, T1 in Hmoved. destruct (Hmoved ltac:(lia) Hmode k row Hk) as [Ht|[Hnot Hk1]]; [by left|].
      rewrite D2 in Hk1. destruct E2 as [(_ & _ & Hr)|(_ & _ & stored & _ & Hindex)].
      { destruct r as [[]|e]; [by specialize (Hr eq_refl)|]. subst failed1. lia. }
      destruct Hindex as (new & Hnew & Hkey & Hprov & _). rewrite Hnew, D1 in Hk1.
      apply lookup_insert_Some in Hk1 as [[<- <-]|[Hne Hk1]]; [by left|]. right. split; [|done].
      cbn. rewrite not_elem_of_cons. by split.
Qed.

Lemma start_migration_run job w : has_row job (w_db w) →
  ∃ job' w', start_migration job w = (Ok job', w') ∧ has_row job' (w_db w') ∧ rest_of (w_db w') = rest_of (w_db w)
    ∧ counted job job' 0 0 ∧ mj_Bucket job' = mj_Bucket job ∧ mj_Prefix job' = mj_Prefix job
    ∧ mj_SourceProviderID job' = mj_SourceProviderID job.
Proof.
  intros Hrow. unfold start_migration. cbv zeta. set (running := job <| mj_Status := MigrationStatusRunning |>).
  assert (∃ job' w1, (if is_zero (mj_StartedAt running) then let! t := now in ret (running <| mj_StartedAt := t |>) else ret running) w
    = (job', w1) ∧ has_row job' (w_db w1) ∧ w_db w1 = w_db w ∧ counted job job' 0 0 ∧ mj_Bucket job' = mj_Bucket job
    ∧ mj_Prefix job' = mj_Prefix job ∧ mj_SourceProviderID job' = mj_SourceProviderID job) as (job' & w1 & E1 & Hrow1 & D1 & Hrest).
  { destruct (is_zero _); (eexists _, _; split; [reflexivity|]); unfold counted, has_row, running; rsimpl; split_and!; (done || lia). }
  destruct (update_migration_run job' w1 Hrow1) as (w2 & E2 & R2%recorded_has_row & D2).
  exists job', w2. rewrite (bind_run _ _ _ _ _ E1). rewrite (bind_ok_run _ _ _ _ _ E2). split_and!; try done; [by rewrite D2, D1|apply Hrest..].
Qed.

(** The steps of a run, put together. *)
Lemma RunMigrationJob_run ctx fuel id w job w0 job1 w1 objects w2 w3 job3 w4 t w5 w6 :
  GetMigrationJob id w = (Ok job, w0) →
  (mj_Status job =? MigrationStatusCompleted)%string || (mj_Status job =? MigrationStatusFailed)%string = false →
  start_migration job w0 = (Ok job1, w1) → migrationObjects fuel job1 w1 = (Ok objects, w2) →
  UpdateMigrationJob (job1 <| mj_TotalObjects := Z.of_nat (List.length objects) |>) w2 = (Ok tt, w3) →
  migrate_all ctx (job1 <| mj_TotalObjects := Z.of_nat (List.length objects) |>) objects w3 = (Ok job3, w4) →
  now w4 = (t, w5) → UpdateMigrationJob (finished_migration job3 t) w5 = (Ok tt, w6) →
  RunMigrationJob ctx fuel id w = (Ok tt, w6).
Proof.
  intros E0 Hs E1 E2 E3 E4 E5 E6. unfold RunMigrationJob. rewrite (bind_ok_run _ _ _ _ _ E0), Hs, (bind_ok_run _ _ _ _ _ E1).
  rewrite (bind_run _ _ _ _ _ E2). cbv zeta. rewrite (bind_ok_run _ _ _ _ _ E3), (bind_ok_run _ _ _ _ _ E4), (bind_run _ _ _ _ _ E5).
  exact E6.
Qed.

Lemma get_migration_run job w : db_migrations (w_db w) !! mj_ID job = Some job → GetMigrationJob (mj_ID job) w = (Ok job, w <| w_stmts ::= S |>).
Proof.
  intros Hjob. unfold GetMigrationJob, get_job. rewrite sql_read_quiet by done. cbn [job_table migration_table]. by rewrite Hjob.
Qed.

Lemma saved_migration t old job (row := job_saved t old job) :
  mj_TotalObjects row = mj_TotalObjects job ∧ mj_ProcessedObjects row = mj_ProcessedObjects job
  ∧ mj_SucceededObjects row = mj_SucceededObjects job ∧ mj_FailedObjects row = mj_FailedObjects job ∧ mj_Status row = mj_Status job.
Proof. done. Qed.

Lemma finished_migration_fields job t (j := finished_migration job t) :
  mj_ID j = mj_ID job ∧ mj_TotalObjects j = mj_TotalObjects job ∧ mj_ProcessedObjects j = mj_ProcessedObjects job
  ∧ mj_SucceededObjects j = mj_SucceededObjects job ∧ mj_FailedObjects j = mj_FailedObjects job
  ∧ mj_Status j = (if 0 <? mj_FailedObjects job then MigrationStatusFailed else MigrationStatusCompleted).
Proof. done. Qed.

Lemma listed_objects bucket prefix d d' : db_objects d = db_objects d' → listed bucket prefix d = listed bucket prefix d'.
Proof. unfold listed. by intros ->. Qed.

Lemma db_wf_rest d d' : rest_of d = rest_of d' → db_wf d → db_wf d'.
Proof.
  intros E Hwf. apply (db_wf_migrations (λ _, ∅)) in Hwf. change (db_wf (rest_of d)) in Hwf. rewrite E in Hwf.
  apply (db_wf_migrations (λ _, db_migrations d')) in Hwf. by destruct d'.
Qed.
End run.

(** The objects a migration is about. *)
Definition to_migrate (job : MigrationJob) (d : DB) : list ObjectRecord :=
  List.filter (λ o, (o_ProviderAccountID o =? mj_SourceProviderID job)%string)
    (after_key "" (listed (mj_Bucket job) (mj_Prefix job) d)).

(** C39. A run of a fresh migration job that is left alone ends, and its row
    says what it did: as many objects tried as the source had under the prefix,
    each of them counted once as a success or a failure, and the job is
    completed when none failed and failed otherwise. A completed move leaves
    no object of the bucket under the prefix with the source. *)
Theorem migration_run_exact `{Env} ctx fuel job w (d := w_db w) (n := Z.of_nat (List.length (to_migrate job d))) :
  no_db_faults → (∀ w, ctx w = None) → db_wf d → db_migrations d !! mj_ID job = Some job →
  mj_Status job = MigrationStatusPending ∨ mj_Status job = MigrationStatusRunning →
  mj_ProcessedObjects job = 0 → mj_SucceededObjects job = 0 → mj_FailedObjects job = 0 →
  (List.length (listed (mj_Bucket job) (mj_Prefix job) d) < fuel)%nat → n ≤ int64_max →
  ∃ w' row, RunMigrationJob ctx fuel (mj_ID job) w = (Ok tt, w') ∧ db_migrations (w_db w') !! mj_ID job = Some row
    ∧ mj_TotalObjects row = n ∧ mj_ProcessedObjects row = n ∧ mj_SucceededObjects row + mj_FailedObjects row = n
    ∧ 0 ≤ mj_SucceededObjects row ∧ 0 ≤ mj_FailedObjects row
    ∧ mj_Status row = (if 0 <? mj_FailedObjects row then MigrationStatusFailed else MigrationStatusCompleted)
    ∧ (mj_Status row = MigrationStatusCompleted → mj_Mode job ≠ MigrationModeCopy → mj_SourceProviderID job ≠ mj_TargetProviderID job →
       ∀ k o, db_objects (w_db w') !! k = Some o → o_Bucket o = mj_Bucket job → like (mj_Prefix job +:+ "%") (o_Key o) = true →
         o_Key o ≠ "" → o_ProviderAccountID o ≠ mj_SourceProviderID job).
Proof.
  intros Hq Hctx Hwf Hjob Hstatus HP HS HF Hfuel Hn.
  assert ((mj_Status job =? MigrationStatusCompleted)%string || (mj_Status job =? MigrationStatusFailed)%string = false) as Hopen
    by (destruct Hstatus as [->| ->]; reflexivity).
  pose proof (get_migration_run Hq job w Hjob) as E0. set (w0 := w <| w_stmts ::= S |>) in E0.
  destruct (start_migration_run Hq job w0) as (job1 & w1 & E1 & Row1 & D1 & Hc1 & HB & HPre & HSrc); [by exists job|].
  destruct Hc1 as (I1 & M1 & T1 & Tot1 & P1 & S1 & F1). change (rest_of (w_db w0)) with (rest_of d) in D1. clearbody w0.
  assert (listed (mj_Bucket job1) (mj_Prefix job1) (w_db w1) = listed (mj_Bucket job) (mj_Prefix job) d) as Hlisted
    by (rewrite HB, HPre; apply listed_objects, rest_objects, D1).
  destruct (migration_pages_all Hq fuel job1 "" w1) as (w2 & E2 & D2).
  { by apply (db_wf_rest d). }
  { rewrite Hlisted. eapply Nat.le_lt_trans; [|exact Hfuel]. unfold after_key, where_. apply List.filter_length_le. }
  rewrite Hlisted, HSrc in E2. fold (to_migrate job d) in E2. set (objects := to_migrate job d) in *.
  set (job2 := job1 <| mj_TotalObjects := Z.of_nat (List.length objects) |>).
  assert (mj_ProcessedObjects job2 = 0 ∧ mj_SucceededObjects job2 = 0 ∧ mj_FailedObjects job2 = 0 ∧ mj_TotalObjects job2 = n
    ∧ mj_ID job2 = mj_ID job ∧ mj_Mode job2 = mj_Mode job ∧ mj_TargetProviderID job2 = mj_TargetProviderID job) as (P2 & S2 & F2 & Tot2 & I2 & M2 & T2).
  { subst job2. rsimpl. split_and!; (done || lia). }
  assert (has_row job2 (w_db w2)) as Row2 by (unfold has_row; rewrite I2, <- I1, D2; exact Row1).
  destruct (update_migration_run Hq job2 w2 Row2) as (w3 & E3 & R3%recorded_has_row & D3).
  destruct (migrate_all_run Hq ctx job2 objects w3 Hctx R3) as (job3 & w4 & ok & failed & E4 & Row4 & Hc4 & Hok & Hfailed & Hsum & Hmoved); [lia..|].
  destruct Hc4 as (I4 & M4 & T4 & Tot4 & P4 & S4 & F4). destruct (now w4) as [t w5] eqn:E5.
  assert (w_db w5 = w_db w4) as D5 by (by injection E5 as _ <-).
  destruct (finished_migration_fields job3 t) as (I5 & Tot5 & P5 & S5 & F5 & St5). set (job5 := finished_migration job3 t) in *.
  assert (has_row job5 (w_db w5)) as Row5 by (unfold has_row; by rewrite I5, D5).
  destruct (update_migration_run Hq job5 w5 Row5) as (w6 & E6 & (old & t6 & Row6) & D6).
  destruct (saved_migration t6 old job5) as (Tot6 & P6 & S6 & F6 & St6). set (row := job_saved t6 old job5) in *.
  assert (mj_ID job5 = mj_ID job) as I6 by congruence. rewrite I6 in Row6. exists w6, row. clearbody row.
  split; [exact (RunMigrationJob_run ctx fuel _ w job w0 job1 w1 objects w2 w3 job3 w4 t w5 w6 E0 Hopen E1 E2 E3 E4 E5 E6)|]. clearbody job5.
  assert (n = Z.of_nat (List.length objects)) as Hcount by reflexivity. clearbody n.
  split; [done|]. split_and!; [lia..|by rewrite St6, St5, F6, F5|].
  intros Hdone Hmode Hne k o Hk Hbucket Hlike Hkey Hsource. rewrite St6, St5, F4, F2 in Hdone. destruct (Z.ltb_spec 0 (0 + failed)); [done|].
  rewrite (rest_objects _ _ D6), D5 in Hk. rewrite M2, T2 in Hmoved. destruct (Hmoved ltac:(lia) Hmode k o Hk) as [Ht|[Hnot Hold]]; [congruence|].
  rewrite (rest_objects _ _ D3), D2, (rest_objects _ _ D1) in Hold.
  apply Hnot. destruct (wf_object _ Hwf _ _ Hold) as [<- _]. apply list_elem_of_fmap_2. subst objects. unfold to_migrate.
  apply elem_of_where. unfold after_key, listed. rewrite elem_of_where, elem_of_order_by, elem_of_where, elem_of_rows.
  split_and!; [by exists (object_key o)|by rewrite Hbucket, String.eqb_refl, Hlike|by destruct (o_Key o)|by apply String.eqb_eq].
Qed.

Definition moving_job : MigrationJob :=
  zero_MigrationJob <| mj_ID := "m1" |> <| mj_Bucket := "b" |> <| mj_SourceProviderID := "p1" |> <| mj_TargetProviderID := "p2" |>
    <| mj_Mode := MigrationModeMove |> <| mj_Status := MigrationStatusPending |>.
Definition moving_jobs_db : DB := moving_db <| db_migrations := {[ "m1" := moving_job ]} |>.

Lemma migration_run_exact_witness :
  ∃ w' row, @RunMigrationJob demo_env (λ _, None) 2 "m1" (start moving_jobs_db) = (Ok tt, w') ∧ db_migrations (w_db w') !! "m1" = Some row
    ∧ mj_TotalObjects row = 1.
Proof.
  destruct (@migration_run_exact demo_env (λ _, None) 2 moving_job (start moving_jobs_db)) as (w' & row & Hrun & Hrow & Htotal & _).
  - intros n. reflexivity.
  - intros w. reflexivity.
  - apply db_wfb_sound. vm_compute. reflexivity.
  - vm_compute. reflexivity.
  - left. reflexivity.
  - reflexivity.
  - reflexivity.
  - reflexivity.
  - apply Nat.ltb_lt. vm_compute. reflexivity.
  - vm_compute. discriminate.
  - exists w', row. split; [exact Hrun|]. split; [exact Hrow|]. rewrite Htotal. vm_compute. reflexivity.
Defined.
