(* ===== verification/WorkersFacts.v ===== *)
(** The workers of migration, repair and inventory jobs: a pass leaves no job
    waiting. *)
From S2P Require Import Prelude GoTime Json Text Domain ProviderErrors World Sql StoreProviders StoreObjects Pages StoreEvents Placement Demo Providers Hooks Jobs JobsFacts Service ServiceFacts Migration MigrationFacts Repair Inventory.

(** ** The page loops end

    From a number of pages on that the keys of the index bound (and, for an
    inventory, the listings of the provider), the runs of [RunMigrationJob],
    [RunRepairJob] and [RunInventoryJob], and the passes of their workers, do
    not depend on how many pages are allowed. *)

(** The adapter of an account is the one of its kind. *)
Lemma providerAccountAndAdapter_known `{Env} id w aa :
  (providerAccountAndAdapter id w).1 = Ok aa → ∃ kind, env_registry kind = Some aa.2.
Proof.
  unfold providerAccountAndAdapter, bind_ok, bind. destruct (GetProvider _ w) as [[account|e] w1]; [|done]. cbn [fst snd].
  destruct (negb _); [done|]. unfold lift. cbn [ret fst]. unfold providerForReplica. destruct (decryptAccount account) as [a|e]; [|done].
  cbn. destruct (env_registry (p_Kind a)) as [adapter|] eqn:E; [|done]. intros [= <-]. by exists (p_Kind a).
Qed.

Section pages.
Context `{Env} (ctx : World → option error) (names : gset string).

(** The rows of the index are under their keys, and those keys are known. *)
Definition named (d : DB) : Prop :=
  map_Forall (λ k o, object_key o = k ∧ o_Key o ∈ names) (db_objects d).

Lemma named_same d d' : same db_objects d d' → named d → named d'.
Proof. unfold same, named. by intros ->. Qed.

Lemma pres_named {A} (m : M A) : pres (on_db (same db_objects)) m → pres (on_db (keeps named)) m.
Proof. intros Hm w. exact (named_same _ _ (Hm w)). Qed.

(** The names after a key: the walk along the index gets through them. *)
Definition ahead (key : string) : nat := size (filter (λ n, text_ltb key n = true) names).

Lemma ahead_all key : (ahead key ≤ size names)%nat.
Proof. unfold ahead. apply subseteq_size. intros n [_ Hn]%elem_of_filter. done. Qed.

Lemma ahead_less key key' : key' ∈ names → text_ltb key key' = true → (ahead key' < ahead key)%nat.
Proof.
  intros Hin Hlt. unfold ahead. apply subset_size. split.
  - intros n [Hn Hnin]%elem_of_filter. apply elem_of_filter. split; [|done]. rewrite text_ltb_lt in *. by eapply string_compare_lt_trans.
  - intros Hsub. specialize (Hsub key' ltac:(by apply elem_of_filter)). apply elem_of_filter in Hsub as [Hk _].
    rewrite text_ltb_lt in Hk. pose proof (cmp_refl (by_text (λ x : string, x)) key'). unfold by_text in *. congruence.
Qed.

(** A page of the index: known rows after the key. *)
Lemma listing_page bucket prefix key lim w r w' :
  ListObjectsAfter_store bucket prefix key lim w = (r, w') → named (w_db w) →
  w_db w' = w_db w ∧ ∀ objects, r = Ok objects →
    ∀ o, o ∈ objects → o_Key o ∈ names ∧ text_ltb key (o_Key o) = true.
Proof.
  unfold ListObjectsAfter_store. intros Hrun Hn. frame (on_db eq) Hrun as Hd. split; [done|]. intros objects -> o Ho.
  apply sql_read_inv in Hrun as [[= <-] _]. apply elem_of_limit, elem_of_order_by, elem_of_where in Ho as [(k & Hk)%elem_of_rows Hw].
  apply andb_true_iff in Hw as [_ Hlt]. split; [|done]. by apply (Hn _ _ Hk).
Qed.

Lemma last_in {A} (l : list A) x : last l = Some x → x ∈ l.
Proof. rewrite last_lookup. by intros ?%list_elem_of_lookup_2. Qed.

(** Two runs that do the same from a named index on, and leave it named. *)
Definition agree {A} (m' m : M A) : Prop := ∀ w, named (w_db w) → m' w = m w ∧ named (w_db (m w).2).

Lemma agree_refl {A} (m : M A) : pres (on_db (keeps named)) m → agree m m.
Proof. intros Hm w Hn. split; [done|]. by apply Hm. Qed.

Lemma agree_same {A} (m : M A) : pres (on_db (same db_objects)) m → agree m m.
Proof. intros Hm. by apply agree_refl, pres_named. Qed.

(** [P]: what is known of the first result. *)
Lemma agree_bind_post {A B} (P : A → Prop) (m' m : M A) (k' k : A → M B) :
  agree m' m → (∀ w, named (w_db w) → P (m w).1) → (∀ a, P a → agree (k' a) (k a)) → agree (bind m' k') (bind m k).
Proof.
  intros Hm HP Hk w Hn. destruct (Hm w Hn) as [E Hn']. unfold bind. rewrite E. by apply Hk; [apply HP|].
Qed.

Lemma agree_bind {A B} (m' m : M A) (k' k : A → M B) :
  agree m' m → (∀ a, agree (k' a) (k a)) → agree (bind m' k') (bind m k).
Proof. intros Hm Hk. by apply (agree_bind_post (λ _, True)). Qed.

Lemma agree_bind_ok {A B} (m' m : M (result A)) (k' k : A → M (result B)) :
  agree m' m → (∀ a, agree (k' a) (k a)) → agree (bind_ok m' k') (bind_ok m k).
Proof. intros Hm Hk. apply agree_bind; [done|]. intros [a|e]; [apply Hk|]. apply agree_refl, pres_ret, _. Qed.

Lemma agree_ret {A} (a : A) : agree (ret a) (ret a).
Proof. apply agree_refl, pres_ret, _. Qed.

Lemma agree_pres {A} (m' m : M A) : agree m' m → pres (on_db (keeps named)) m.
Proof. intros Hm w Hn. by apply Hm. Qed.

(** Saved rows of known keys. *)
Lemma put_named o : o_Key o ∈ names → pres (on_db (keeps named)) (PutObject_store o).
Proof.
  intros Hin. unfold PutObject_store. apply pres_bind; [apply _|apply pres_now, _|]. intros t. cbv zeta.
  apply pres_sql_write; [apply _|]. intros d d' Hput Hn. unfold put_object_row in Hput. destruct (db_providers d !! _); [|done].
  injection Hput as <-. unfold named. rsimpl. apply map_Forall_insert_2; [|done].
  destruct (is_zero (o_CreatedAt o)); rsimpl; destruct (db_objects d !! _); done.
Qed.

(** *** Migrations *)

Definition known (objects : list ObjectRecord) : Prop := Forall (λ o, o_Key o ∈ names) objects.

Lemma known_where (P : ObjectRecord → bool) objects : known objects → known (List.filter P objects).
Proof.
  unfold known. rewrite !Forall_forall. intros Hall o Ho. apply (elem_of_where P objects o) in Ho as [Ho _]. by apply Hall.
Qed.

Lemma migration_pages_end p p' job key : (ahead key < p)%nat → (p ≤ p')%nat →
  agree (migration_pages p' job key) (migration_pages p job key)
  ∧ ∀ w objects, named (w_db w) → (migration_pages p job key w).1 = Ok objects → known objects.
Proof.
  revert p' key. induction p as [|p IH]; intros p' key Hp Hpp; [lia|]. destruct p' as [|p']; [lia|]. cbn [migration_pages].
  set (page (r : result (list ObjectRecord)) := ∀ objects, r = Ok objects → ∀ o, o ∈ objects → o_Key o ∈ names ∧ text_ltb key (o_Key o) = true).
  assert (∀ objects, page (Ok objects) → known objects) as Hknown.
  { intros objects Hr. apply Forall_forall. intros o Ho. by apply (Hr _ eq_refl). }
  assert (∀ objects o, page (Ok objects) → last objects = Some o → (ahead (o_Key o) < p)%nat) as Hnext.
  { intros objects o Hr Hl. destruct (Hr _ eq_refl o (last_in _ _ Hl)) as [Hin Hlt]. pose proof (ahead_less _ _ Hin Hlt). lia. }
  split.
  - unfold bind_ok at 1 3. apply (agree_bind_post page).
    + apply agree_same. frame_auto.
    + intros w Hn. destruct (ListObjectsAfter_store _ _ _ _ w) as [r w1] eqn:E. by apply listing_page in E as [_ Hpage].
    + intros [objects|e] Hr; [|apply agree_ret]. cbv zeta. destruct (last objects) as [o|] eqn:Hl; [|apply agree_ret].
      destruct (Nat.ltb _ _); [apply agree_ret|]. apply agree_bind_ok; [|intros; apply agree_ret].
      apply IH; [by eapply Hnext|lia].
  - intros w objects Hn Hrun. unfold bind_ok at 1, bind at 1 in Hrun.
    destruct (ListObjectsAfter_store _ _ _ _ w) as [r w1] eqn:E. apply listing_page in E as [Hd Hpage]; [|done]. cbn [fst snd] in Hrun.
    destruct r as [l|e]; [|done]. cbv zeta in Hrun. pose proof (known_where (λ o, (o_ProviderAccountID o =? mj_SourceProviderID job)%string) l (Hknown _ Hpage)) as Hkl.
    destruct (last l) as [o|] eqn:Hl; [|injection Hrun as <-; by constructor]. destruct (Nat.ltb _ _); [by injection Hrun as <-|].
    unfold bind_ok, bind in Hrun. destruct (migration_pages p job (o_Key o) w1) as [[rest|e] w2] eqn:E2; [|done].
    injection Hrun as <-. apply Forall_app. split; [done|]. destruct (IH p (o_Key o)) as [_ Hrest]; [by eapply Hnext|lia|].
    apply (Hrest w1 rest); [by rewrite Hd|by rewrite E2].
Qed.

Lemma migrate_named obj target mode : o_Key obj ∈ names → pres (on_db (keeps named)) (migrateObjectToProvider obj target mode).
Proof.
  intros Hin w. destruct (migrateObjectToProvider obj target mode w) as [r w'] eqn:E.
  apply migrate_object_cases in E as [(Hd & _ & _)|(_ & _ & stored & _ & (row & Hrow & Hk & _))];
    cbn [snd]; intros Hn; [by apply (named_same _ _ Hd)|].
  unfold named. rewrite Hrow. apply map_Forall_insert_2; [|done]. split; [done|]. unfold object_key in Hk. by injection Hk as _ ->.
Qed.

Lemma migrate_all_named job objects : known objects → pres (on_db (keeps named)) (migrate_all ctx job objects).
Proof.
  intros Hall. revert job. induction Hall as [|o rest Ho _ IH]; intros job; cbn [migrate_all]; [apply pres_ret, _|].
  apply pres_bind_ok; [apply _|apply pres_ctx_err, _|]. intros _. apply pres_bind_ok; [apply _| |apply IH].
  unfold migrate_one. apply pres_bind_ok; [apply _|apply pres_named; frame_auto|]. intros _.
  apply pres_bind; [apply _|by apply migrate_named|]. intros r. apply pres_named. frame_auto.
Qed.

Lemma RunMigrationJob_end p p' id : (size names < p)%nat → (p ≤ p')%nat → agree (RunMigrationJob ctx p' id) (RunMigrationJob ctx p id).
Proof.
  intros Hp Hpp. pose proof (ahead_all "") as Ha. unfold RunMigrationJob, migrationObjects.
  apply agree_bind_ok; [apply agree_same; frame_auto|]. intros job. destruct (_ || _); [apply agree_ret|].
  apply agree_bind_ok; [apply agree_same; unfold start_migration; frame_auto|]. intros job'.
  destruct (migration_pages_end p p' job' "") as [Hpages Hknown]; [lia|done|].
  apply (agree_bind_post (λ r, ∀ objects, r = Ok objects → known objects)); [done|by intros w Hn objects; apply Hknown|].
  intros [objects|e] Hk; [|apply agree_same; frame_auto]. cbv zeta. apply agree_bind_ok; [apply agree_same; frame_auto|]. intros _.
  apply agree_bind_ok; [apply agree_refl, migrate_all_named, Hk; done|]. intros j. apply agree_same. frame_auto.
Qed.

(** *** Repairs *)

Lemma RepairObject_named bucket key : agree (RepairObject bucket key) (RepairObject bucket key).
Proof.
  unfold RepairObject. unfold bind_ok at 1 4.
  apply (agree_bind_post (λ r : result (ObjectRecord * ProviderAccount), ∀ oa, r = Ok oa → o_Key oa.1 ∈ names)).
  - apply agree_same. frame_auto.
  - intros w Hn oa Hr. unfold GetObjectWithProvider in Hr. apply run_pair in Hr. apply sql_read_inv in Hr as [Hr _].
    destruct (db_objects (w_db w) !! (bucket, key)) as [o|] eqn:Ho; [|done]. destruct (db_providers (w_db w) !! _); [|done].
    injection Hr as <-. by apply (Hn _ _ Ho).
  - intros [[object account]|e] Hr; [|apply agree_ret]. specialize (Hr _ eq_refl). cbn [fst] in Hr.
    apply agree_bind; [apply agree_same; unfold primary_healthy; frame_auto|]. intros [|]; [apply agree_ret|].
    apply agree_bind_ok.
    { apply agree_same. apply pres_wrap_err; [apply _|]. unfold getObjectFromReplica, read_from_replica.
      frame_auto; apply from_replicas_pres; [apply _|]; intros; frame_auto. }
    intros copy. apply agree_bind_ok; [apply agree_same; frame_auto|]. intros stored.
    apply agree_bind_ok; [by apply agree_refl, put_named|]. intros u. apply agree_ret.
Qed.

Lemma repair_page_named job objects : agree (repair_page ctx job objects) (repair_page ctx job objects).
Proof.
  revert job. induction objects as [|o rest IH]; intros job; cbn [repair_page]; [apply agree_ret|].
  apply agree_bind_ok; [apply agree_refl, pres_ctx_err, _|]. intros _. apply agree_bind; [apply RepairObject_named|]. intros r. apply IH.
Qed.

Lemma repair_pages_end p p' job key : (ahead key < p)%nat → (p ≤ p')%nat →
  agree (repair_pages ctx p' job key) (repair_pages ctx p job key).
Proof.
  revert p' job key. induction p as [|p IH]; intros p' job key Hp Hpp; [lia|]. destruct p' as [|p']; [lia|]. cbn [repair_pages].
  apply (agree_bind_post (λ r : result (list ObjectRecord), ∀ objects, r = Ok objects →
           ∀ o, o ∈ objects → o_Key o ∈ names ∧ text_ltb key (o_Key o) = true)).
  - apply agree_same. frame_auto.
  - intros w Hn. destruct (ListObjectsAfter_store _ _ _ _ w) as [r w1] eqn:E. by apply listing_page in E as [_ Hpage].
  - intros [objects|e] Hr; [|apply agree_same; unfold failRepairJob; frame_auto].
    apply agree_bind_ok; [apply repair_page_named|]. intros job'. apply agree_bind; [apply agree_same; frame_auto|].
    intros [u|e]; [|apply agree_same; unfold failRepairJob; frame_auto].
    destruct (last objects) as [o|] eqn:Hl; [|apply agree_same; unfold complete_repair; frame_auto].
    destruct (Nat.ltb _ _); [apply agree_same; unfold complete_repair; frame_auto|].
    destruct (Hr _ eq_refl o (last_in _ _ Hl)) as [Hin Hlt]. pose proof (ahead_less _ _ Hin Hlt). apply IH; lia.
Qed.

Lemma RunRepairJob_end p p' id : (size names < p)%nat → (p ≤ p')%nat → agree (RunRepairJob ctx p' id) (RunRepairJob ctx p id).
Proof.
  intros Hp Hpp. pose proof (ahead_all "") as Ha. unfold RunRepairJob.
  apply agree_bind_ok; [apply agree_same; frame_auto|]. intros job. destruct (_ || _); [apply agree_ret|]. cbv zeta.
  apply agree_bind_ok; [apply agree_same; frame_auto|]. intros _. apply repair_pages_end; lia.
Qed.

(** *** Inventories *)

(** The listings of the providers end: whatever was asked before, an answer
    names known keys, and its token is the last one, the one that was sent (at
    which the code stops too), or one further on in some order. *)
Definition listings_end (pages : nat) : Prop :=
  ∀ kind adapter list_objects, env_registry kind = Some adapter → ad_ListObjects adapter = Some list_objects →
  ∃ rank : string → nat, (rank ""%string < pages)%nat ∧
    ∀ h account bucket prefix token page, list_objects h account bucket prefix token 1000 = Ok page →
      (∀ o, o ∈ pp_Objects page → po_Key o ∈ names) ∧
      (pp_NextContinuationToken page = ""%string ∨ pp_NextContinuationToken page = token ∨
       (rank (pp_NextContinuationToken page) < rank token)%nat).

Lemma import_object_named account job o : po_Key o ∈ names → pres (on_db (keeps named)) (import_object ctx account job o).
Proof.
  intros Hin. assert (∀ job isNew, pres (on_db (keeps named)) (import_row account job o isNew)) as Hrow.
  { intros j isNew. unfold import_row. apply pres_bind; [apply _|apply pres_named; frame_auto|]. intros t.
    apply pres_bind; [apply _|by apply put_named|]. intros put. apply pres_named. frame_auto. }
  unfold import_object. apply pres_bind; [apply _|apply pres_ctx_err, _|]. intros [u|e]; [|apply pres_ret, _]. cbv zeta.
  apply pres_bind; [apply _|apply pres_named; frame_auto|]. intros [x|e].
  - destruct (negb _); [apply pres_ret, _|apply Hrow].
  - destruct (errors_is e ErrNotFound); [apply Hrow|apply pres_ret, _].
Qed.

Lemma import_page_named account job objects : (∀ o, o ∈ objects → po_Key o ∈ names) →
  pres (on_db (keeps named)) (import_page ctx account job objects).
Proof.
  revert job. induction objects as [|o rest IH]; intros job Hin; cbn [import_page]; [apply pres_ret, _|].
  apply pres_bind; [apply _|apply import_object_named, Hin; by left|]. intros [j [s|]]; [apply pres_ret, _|].
  apply IH. intros x Hx. apply Hin. by right.
Qed.

Lemma import_pages_end p p' account list_objects rank job seen token :
  (∀ h account bucket prefix token page, list_objects h account bucket prefix token 1000 = Ok page →
      (∀ o, o ∈ pp_Objects page → po_Key o ∈ names) ∧
      (pp_NextContinuationToken page = ""%string ∨ pp_NextContinuationToken page = token ∨
       (rank (pp_NextContinuationToken page) < rank token)%nat)) →
  (rank token < p)%nat → (p ≤ p')%nat →
  agree (import_pages ctx p' account list_objects job seen token) (import_pages ctx p account list_objects job seen token).
Proof.
  intros Hlist. revert p' job seen token. induction p as [|p IH]; intros p' job seen token Hp Hpp; [lia|]. destruct p' as [|p']; [lia|].
  cbn [import_pages].
  apply (agree_bind_post (λ r, ∀ page, r = Ok page → ∃ h, list_objects h account (ij_RemoteBucket job) (ij_Prefix job) token 1000 = Ok page)).
  - apply agree_same. frame_auto.
  - intros w Hn page Hr. unfold list_remote, remote in Hr. cbn [fst] in Hr. by exists (w_calls w).
  - intros [page|e] Hr; [|apply agree_ret]. destruct (Hr _ eq_refl) as [h Hpage]. destruct (Hlist _ _ _ _ _ _ Hpage) as [Hin Hnext].
    apply agree_bind; [by apply agree_refl, import_page_named|]. intros [job' [s|]]; [apply agree_ret|]. cbv zeta.
    apply agree_bind; [apply agree_same; frame_auto|]. intros _.
    destruct (String.eqb_spec (pp_NextContinuationToken page) ""); [apply agree_ret|].
    destruct (String.eqb_spec (pp_NextContinuationToken page) token); [apply agree_ret|]. cbn [orb].
    destruct Hnext as [|[|Hnext]]; [done|done|]. apply IH; lia.
Qed.

Lemma reconcile_pages_end p p' account seen job key : (ahead key < p)%nat → (p ≤ p')%nat →
  agree (reconcile_pages p' account seen job key) (reconcile_pages p account seen job key).
Proof.
  revert p' job key. induction p as [|p IH]; intros p' job key Hp Hpp; [lia|]. destruct p' as [|p']; [lia|]. cbn [reconcile_pages].
  apply (agree_bind_post (λ r : result (list ObjectRecord), ∀ objects, r = Ok objects →
           ∀ o, o ∈ objects → o_Key o ∈ names ∧ text_ltb key (o_Key o) = true)).
  - apply agree_same. frame_auto.
  - intros w Hn. destruct (ListObjectsAfter_store _ _ _ _ w) as [r w1] eqn:E. by apply listing_page in E as [_ Hpage].
  - intros [objects|e] Hr; [|apply agree_ret]. cbv zeta. destruct (last objects) as [o|] eqn:Hl; [|apply agree_ret].
    destruct (Nat.ltb _ _); [apply agree_ret|].
    destruct (Hr _ eq_refl o (last_in _ _ Hl)) as [Hin Hlt]. pose proof (ahead_less _ _ Hin Hlt). apply IH; lia.
Qed.

Lemma RunInventoryJob_end p p' id : listings_end p → (size names < p)%nat → (p ≤ p')%nat →
  agree (RunInventoryJob ctx p' id) (RunInventoryJob ctx p id).
Proof.
  intros Hends Hp Hpp. pose proof (ahead_all "") as Ha. unfold RunInventoryJob.
  apply agree_bind_ok; [apply agree_same; frame_auto|]. intros job. destruct (_ || _); [apply agree_ret|]. cbv zeta.
  apply agree_bind_ok; [apply agree_same; frame_auto|]. intros _.
  apply (agree_bind_post (λ r, ∀ aa, r = Ok aa → ∃ kind, env_registry kind = Some aa.2)).
  - apply agree_same. frame_auto.
  - intros w Hn [a adapter] Hr. apply providerAccountAndAdapter_known in Hr. done.
  - intros [[account adapter]|e] Hr; [|apply agree_same; frame_auto]. destruct (Hr _ eq_refl) as [kind Hkind]. cbn [snd] in Hkind.
    unfold run_inventory. cbv zeta. destruct (_ =? _)%string; [apply agree_same; frame_auto|].
    destruct (ad_ListObjects adapter) as [list_objects|] eqn:Hlo; [|apply agree_same; frame_auto].
    destruct (Hends _ _ _ Hkind Hlo) as (rank & Hrank & Hlist). apply agree_bind; [by eapply import_pages_end|].
    intros [job' [[e|e]|seen]]; [apply agree_ret|apply agree_same; frame_auto|]. unfold finish_inventory.
    apply agree_bind; [destruct (_ =? _)%string; [apply reconcile_pages_end; lia|apply agree_ret]|].
    intros [job2 [e|]]; apply agree_same; frame_auto.
Qed.

(** *** Passes *)

Lemma claim_next_job_objects {J} `{!JobTable J} : (∀ f d, db_objects (set_job_table f d) = db_objects d) →
  pres (on_db (same db_objects)) (claim_next_job (J := J)).
Proof.
  intros Hset. unfold claim_next_job. apply pres_bind_ok; [apply _|frame_auto|]. intros ids.
  induction ids as [|id ids IH]; cbn [claim_jobs]; [apply pres_ret, _|]. apply pres_bind; [apply _|apply pres_now, _|]. intros t.
  apply pres_bind_ok; [apply _| |].
  - apply pres_sql; [apply _|]. intros d n d' E. unfold claim_job_row, update_job_row in E. injection E as _ <-. apply Hset.
  - intros n. destruct (n =? 1); [|exact IH]. unfold get_job. frame_auto.
Qed.

(** Two workers that differ in the pages their runs are allowed. *)
Record same_work {J} (worker' worker : durableWorker) (claim : M (result (option J))) (run' run : J → M (result unit)) : Prop := {
  sw_name : dw_name worker' = dw_name worker;
  sw_stale : dw_staleAfter worker' = dw_staleAfter worker;
  sw_recover : dw_recover worker' = dw_recover worker;
  sw_recover_same : ∀ recover cutoff, dw_recover worker = Some recover → pres (on_db (same db_objects)) (recover cutoff);
  sw_claim_same : pres (on_db (same db_objects)) claim;
  sw_claim' : dw_claim worker' = (let? claimed := claim in ret_ok (match claimed with Some j => Some (run' j) | None => None end));
  sw_claim : dw_claim worker = (let? claimed := claim in ret_ok (match claimed with Some j => Some (run j) | None => None end));
  sw_run : ∀ j, agree (run' j) (run j) }.

Lemma bind_ok_assoc {A B C} (m : M (result A)) (f : A → B) (k : result B → M C) w :
  bind (bind_ok m (λ a, ret_ok (f a))) k w = bind m (λ r, match r with Ok a => k (Ok (f a)) | Err e => k (Err e) end) w.
Proof. unfold bind_ok, bind. by destruct (m w) as [[a|e] w1]. Qed.

Lemma agree_ext {A} (m1' m1 m' m : M A) : (∀ w, m1' w = m' w) → (∀ w, m1 w = m w) → agree m' m → agree m1' m1.
Proof. intros E' E Ha w Hn. rewrite E', E. by apply Ha. Qed.

Lemma drain_end {J} worker' worker (claim : M (result (option J))) run' run fuel :
  same_work worker' worker claim run' run → agree (drain fuel ctx None worker') (drain fuel ctx None worker).
Proof.
  intros Hw. induction fuel as [|fuel IH]; cbn [drain]; [apply agree_ret|].
  apply agree_bind; [apply agree_refl, pres_ctx_err, _|]. intros [u|e]; [|apply agree_ret].
  unfold claimDurableWork. rewrite (sw_claim' _ _ _ _ _ Hw), (sw_claim _ _ _ _ _ Hw), (sw_name _ _ _ _ _ Hw).
  eapply agree_ext; [intros w; apply bind_ok_assoc|intros w; apply bind_ok_assoc|].
  apply agree_bind; [apply agree_same, (sw_claim_same _ _ _ _ _ Hw)|]. intros [[j|]|e].
  - apply agree_bind; [apply (sw_run _ _ _ _ _ Hw)|]. intros r. apply agree_bind; [|intros _; exact IH].
    apply agree_same. intros w. by destruct r.
  - apply agree_ret.
  - apply agree_bind; [|intros; apply agree_ret]. apply agree_same. intros w. done.
Qed.

Lemma process_end {J} worker' worker (claim : M (result (option J))) run' run fuel :
  same_work worker' worker claim run' run → agree (process fuel ctx None worker') (process fuel ctx None worker).
Proof.
  intros Hw. unfold process. rewrite (sw_recover _ _ _ _ _ Hw), (sw_stale _ _ _ _ _ Hw), (sw_name _ _ _ _ _ Hw).
  apply agree_bind.
  - destruct (dw_recover worker) as [recover|] eqn:Hr; [|apply agree_ret]. destruct (0 <? _); [|apply agree_ret].
    apply agree_bind; [apply agree_same; frame_auto|]. intros t. apply agree_same. by apply (sw_recover_same _ _ _ _ _ Hw).
  - intros [u|e]; [by eapply drain_end|]. apply agree_bind; [|intros; apply agree_ret]. apply agree_same. intros w. done.
Qed.

Lemma migration_pass_end p p' fuel : (size names < p)%nat → (p ≤ p')%nat →
  agree (process fuel ctx None (migration_worker ctx p')) (process fuel ctx None (migration_worker ctx p)).
Proof.
  intros Hp Hpp. eapply (process_end _ _ ClaimNextMigrationJob (λ j, RunMigrationJob ctx p' (mj_ID j)) (λ j, RunMigrationJob ctx p (mj_ID j))).
  split; try done; [intros recover cutoff [= <-]; frame_auto|by apply claim_next_job_objects|]. intros j. by apply RunMigrationJob_end.
Qed.

Lemma repair_pass_end p p' fuel : (size names < p)%nat → (p ≤ p')%nat →
  agree (process fuel ctx None (repair_worker ctx p')) (process fuel ctx None (repair_worker ctx p)).
Proof.
  intros Hp Hpp. eapply (process_end _ _ ClaimNextRepairJob (λ j, RunRepairJob ctx p' (rj_ID j)) (λ j, RunRepairJob ctx p (rj_ID j))).
  split; try done; [intros recover cutoff [= <-]; frame_auto|by apply claim_next_job_objects|]. intros j. by apply RunRepairJob_end.
Qed.

Lemma inventory_pass_end p p' fuel : listings_end p → (size names < p)%nat → (p ≤ p')%nat →
  agree (process fuel ctx None (inventory_worker ctx p')) (process fuel ctx None (inventory_worker ctx p)).
Proof.
  intros Hends Hp Hpp.
  eapply (process_end _ _ ClaimNextInventoryJob (λ j, RunInventoryJob ctx p' (ij_ID j)) (λ j, RunInventoryJob ctx p (ij_ID j))).
  split; try done; [intros recover cutoff [= <-]; frame_auto|by apply claim_next_job_objects|]. intros j. by apply RunInventoryJob_end.
Qed.
End pages.

(** ** A pass leaves no job waiting *)

Section workers.
Context `{Env} (ctx : World → option error).

(** Recovery as the workers call it. *)
Lemma recover_job_run {J} `{!JobTable J} `{!JobLaws J} (recover : M (result Z)) w :
  (∃ n w', recover w = (Ok n, w') ∧ rows_kept (J := J) (w_db w) (w_db w')) →
  ∃ w', (let? _ := recover in ret_ok tt) w = (Ok tt, w') ∧ rows_kept (J := J) (w_db w) (w_db w').
Proof. intros (n & w' & E & Hk). exists w'. split; [|done]. by erewrite bind_ok_run by exact E. Qed.

Lemma wrap_err_run {A} msg (m : M (result A)) w a w' : m w = (Ok a, w') → wrap_err msg m w = (Ok a, w').
Proof. intros E. unfold wrap_err. by rewrite (bind_run _ _ _ _ _ E). Qed.

Lemma ok_run {A} (m : M (result A)) w a : (m w).1 = Ok a → m w = (Ok a, (m w).2).
Proof. intros <-. apply surjective_pairing. Qed.

(** Everything but the saving of a job keeps its table. *)
Ltac job_frame :=
  repeat first
    [ lazymatch goal with
      | |- pres _ (update_job _) => apply update_job_none_added; cbn [job_Status migration_table repair_table inventory_table]; rsimpl
      | |- pres _ (UpdateMigrationJob _) => unfold UpdateMigrationJob
      | |- pres _ (UpdateRepairJob _) => unfold UpdateRepairJob
      | |- pres _ (UpdateInventoryJob _) => unfold UpdateInventoryJob
      end
    | pres_step
    | solve [ apply pres_same_none_added; frame_auto ] ].

(** *** Migration *)

Lemma migrateObject_frame obj target mode : pres (on_db (same db_migrations)) (migrateObjectToProvider obj target mode).
Proof. frame_auto. Qed.

Lemma migrate_one_status job obj w j w' : migrate_one job obj w = (Ok j, w') → mj_Status j = mj_Status job.
Proof.
  unfold migrate_one. intros E. apply bind_ok_inv in E as (u & w1 & _ & E). apply bind_inv in E as (r & w2 & _ & E).
  apply bind_ok_inv in E as (u' & w3 & _ & [= <- _]). by destruct r.
Qed.

Lemma migrate_one_table job obj : mj_Status job ≠ job_pending → pres (on_db (none_added (J := MigrationJob))) (migrate_one job obj).
Proof.
  intros Hj. unfold migrate_one. job_frame; try done. by destruct a0.
Qed.

Lemma migrate_all_table job objects : mj_Status job ≠ job_pending →
  pres (on_db (none_added (J := MigrationJob))) (migrate_all ctx job objects).
Proof.
  revert job. induction objects as [|obj rest IH]; intros job Hj; cbn [migrate_all]; [job_frame|].
  apply pres_bind_ok; [apply _|apply pres_ctx_err, _|]. intros _.
  apply (pres_bind_post _ (λ r, ∀ j, r = Ok j → mj_Status j ≠ job_pending)).
  - by apply migrate_one_table.
  - intros w j Hr. by rewrite (migrate_one_status _ _ _ _ _ (ok_run _ _ _ Hr)).
  - intros [j|e] Hr; [apply IH; by apply Hr|job_frame].
Qed.

Lemma migrate_all_status job objects w j w' : migrate_all ctx job objects w = (Ok j, w') → mj_Status j = mj_Status job.
Proof.
  revert job w. induction objects as [|obj rest IH]; intros job w; cbn [migrate_all]; [by intros [= <- _]|].
  intros (u & w1 & _ & Hrun)%bind_ok_inv. apply bind_ok_inv in Hrun as (job' & w2 & E & Hrun). rewrite (IH _ _ Hrun).
  by apply migrate_one_status in E.
Qed.

Lemma migrationObjects_table fuel job : pres (on_db (same db_migrations)) (migrationObjects fuel job).
Proof.
  unfold migrationObjects. generalize "". induction fuel as [|fuel IH]; intros startAfter; cbn [migration_pages]; [frame_auto|].
  apply pres_bind_ok; [apply _|frame_auto|]. intros objects. cbv zeta. destruct (last objects) as [o|]; [|frame_auto].
  destruct (Nat.ltb _ _); [frame_auto|]. apply pres_bind_ok; [apply _|apply IH|frame_auto].
Qed.

Lemma finished_not_pending job t : mj_Status (finished_migration job t) ≠ job_pending.
Proof. unfold finished_migration. rsimpl. destruct (0 <? mj_FailedObjects job); discriminate. Qed.

Lemma RunMigrationJob_table fuel id : pres (on_db (none_added (J := MigrationJob))) (RunMigrationJob ctx fuel id).
Proof.
  unfold RunMigrationJob. apply pres_bind_ok; [apply _|apply pres_same_none_added; frame_auto|]. intros job.
  destruct (_ || _); [job_frame|]. apply (pres_bind_post _ (λ r, ∀ j, r = Ok j → mj_Status j ≠ job_pending)).
  - unfold start_migration. cbv zeta. apply (pres_bind_post _ (λ j, mj_Status j ≠ job_pending)); [job_frame| |intros j Hj; job_frame; done].
    intros w. destruct (is_zero _); cbn; rsimpl; done.
  - intros w j E%ok_run. unfold start_migration in E. apply bind_inv in E as (j' & w1 & E & Hrun).
    apply bind_ok_inv in Hrun as (u & w2 & _ & Hret%(f_equal fst)). injection Hret as <-.
    destruct (is_zero _); cbn in E; inversion E; done.
  - intros [j|e] Hj; [|job_frame]. specialize (Hj j eq_refl).
    apply pres_bind; [apply _|apply pres_same_none_added, migrationObjects_table|]. intros [objects|e]; [|job_frame; done].
    apply pres_bind_ok; [apply _|job_frame; done|]. intros _. apply pres_bind_ok; [apply _|by apply migrate_all_table|].
    intros j'. job_frame. apply finished_not_pending.
Qed.

Lemma migration_works fuel : works_on (J := MigrationJob) (RunMigrationJob ctx fuel) (migration_worker ctx fuel).
Proof.
  split; [reflexivity|apply RunMigrationJob_table|]. intros recover cutoff w [= <-] Hq. apply recover_job_run.
  destruct (recover_jobs_run (J := MigrationJob) cutoff w Hq) as (n & w' & E & Hk). exists n, w'. split; [|done].
  by apply wrap_err_run.
Qed.

(** *** Repair *)

Lemma RepairObject_table bucket key : pres (on_db (same db_repairs)) (RepairObject bucket key).
Proof.
  unfold RepairObject, getObjectFromReplica, read_from_replica.
  repeat first [apply from_replicas_pres; [apply _|intros; frame_auto] | pres_step | solve [frame_auto]].
Qed.

Lemma repair_page_table job objects : pres (on_db (none_added (J := RepairJob))) (repair_page ctx job objects).
Proof.
  apply pres_same_none_added. revert job. induction objects as [|o rest IH]; intros job; cbn [repair_page]; [frame_auto|].
  apply pres_bind_ok; [apply _|apply pres_ctx_err, _|]. intros _. apply pres_bind; [apply _|apply RepairObject_table|]. intros r. apply IH.
Qed.

Lemma repair_page_status job objects w j w' : repair_page ctx job objects w = (Ok j, w') → rj_Status j = rj_Status job.
Proof.
  revert job w. induction objects as [|o rest IH]; intros job w; cbn [repair_page]; [by intros [= <- _]|].
  intros (u & w1 & _ & Hrun)%bind_ok_inv. apply bind_inv in Hrun as (r & w2 & _ & Hrun). rewrite (IH _ _ Hrun). unfold repaired_one.
  destruct r as [r|e]; [destruct (rr_Repaired r)|]; done.
Qed.

Lemma repair_pages_table fuel job startAfter : rj_Status job ≠ job_pending →
  pres (on_db (none_added (J := RepairJob))) (repair_pages ctx fuel job startAfter).
Proof.
  revert job startAfter. induction fuel as [|fuel IH]; intros job startAfter Hj; cbn [repair_pages]; [job_frame|].
  apply pres_bind; [apply _|apply pres_same_none_added; frame_auto|]. intros [objects|e]; [|unfold failRepairJob; job_frame; done].
  apply (pres_bind_post _ (λ r, ∀ j, r = Ok j → rj_Status j ≠ job_pending)); [apply repair_page_table| |].
  - intros w j Hr. by rewrite (repair_page_status _ _ _ _ _ (ok_run _ _ _ Hr)).
  - intros [j|e] Hr; [|job_frame]. specialize (Hr j eq_refl). apply pres_bind; [apply _|job_frame; done|].
    intros [u|e]; [|unfold failRepairJob; job_frame; done]. destruct (last objects) as [o|]; [destruct (Nat.ltb _ _)|];
      [unfold complete_repair; job_frame; done|by apply IH|unfold complete_repair; job_frame; done].
Qed.

Lemma RunRepairJob_table fuel id : pres (on_db (none_added (J := RepairJob))) (RunRepairJob ctx fuel id).
Proof.
  unfold RunRepairJob. apply pres_bind_ok; [apply _|apply pres_same_none_added; frame_auto|]. intros job.
  destruct (_ || _); [job_frame|]. cbv zeta. apply pres_bind_ok; [apply _|job_frame; done|]. intros _. by apply repair_pages_table.
Qed.

Lemma repair_works fuel : works_on (J := RepairJob) (RunRepairJob ctx fuel) (repair_worker ctx fuel).
Proof.
  split; [reflexivity|apply RunRepairJob_table|]. intros recover cutoff w [= <-] Hq. apply recover_job_run.
  apply (recover_jobs_run (J := RepairJob) cutoff w Hq).
Qed.

(** *** Inventory *)

Lemma import_object_table account job o : pres (on_db (same db_inventories)) (import_object ctx account job o).
Proof. unfold import_object. frame_auto. Qed.

Lemma import_page_table account job objects : pres (on_db (same db_inventories)) (import_page ctx account job objects).
Proof.
  revert job. induction objects as [|o rest IH]; intros job; cbn [import_page]; [frame_auto|].
  apply pres_bind; [apply _|apply import_object_table|]. intros [job' [s|]]; [frame_auto|apply IH].
Qed.

Lemma import_row_status account job o isNew w r w' : import_row account job o isNew w = (r, w') → ij_Status r.1 = ij_Status job.
Proof.
  unfold import_row. intros (t & w4 & _ & Hi)%bind_inv. apply bind_inv in Hi as (put & w5 & _ & Hi).
  destruct put as [u'|e]; [|by injection Hi as <- _]. destruct isNew; [|by injection Hi as <- _].
  apply bind_inv in Hi as (u'' & w6 & _ & Hi). by injection Hi as <- _.
Qed.

Lemma import_object_status account job o w r w' : import_object ctx account job o w = (r, w') → ij_Status r.1 = ij_Status job.
Proof.
  unfold import_object. intros (done & w1 & _ & Hrun)%bind_inv. destruct done as [u|e]; [|by injection Hrun as <- _].
  apply bind_inv in Hrun as (existing & w2 & _ & Hrun). destruct existing as [object|e].
  - destruct (negb _); [by injection Hrun as <- _|by apply import_row_status in Hrun].
  - destruct (errors_is e ErrNotFound); [by apply import_row_status in Hrun|by injection Hrun as <- _].
Qed.

Lemma import_page_status account job objects w r w' : import_page ctx account job objects w = (r, w') → ij_Status r.1 = ij_Status job.
Proof.
  revert job w. induction objects as [|o rest IH]; intros job w; cbn [import_page]; [by intros [= <- _]|].
  intros ([job' s] & w1 & E & Hrun)%bind_inv. apply import_object_status in E. cbn [fst] in E.
  destruct s as [s|]; [injection Hrun as <- _; exact E|]. by rewrite (IH _ _ Hrun).
Qed.

(** The job stays in a state that is not waiting while pages are read. *)
Definition not_waiting {A} (r : InventoryJob * A) : Prop := ij_Status r.1 ≠ job_pending.

Lemma import_pages_table fuel account list_objects job seen token : ij_Status job ≠ job_pending →
  pres (on_db (none_added (J := InventoryJob))) (import_pages ctx fuel account list_objects job seen token)
  ∧ ∀ w, not_waiting (import_pages ctx fuel account list_objects job seen token w).1.
Proof.
  revert job seen token. induction fuel as [|fuel IH]; intros job seen token Hj; cbn [import_pages]; [split; [job_frame|done]|].
  split.
  - apply pres_bind; [apply _|apply pres_same_none_added; frame_auto|]. intros [page|e]; [|job_frame].
    apply (pres_bind_post _ not_waiting); [apply pres_same_none_added, import_page_table| |].
    + intros w. destruct (import_page _ _ _ _ w) as [r w'] eqn:E. apply import_page_status in E. unfold not_waiting. cbn [fst]. by rewrite E.
    + intros [job' [s|]] Hj'; [job_frame|]. cbv zeta. apply pres_bind; [apply _|job_frame; done|]. intros u.
      destruct (_ || _); [job_frame|]. by apply IH.
  - intros w. unfold bind at 1. destruct (list_remote _ _ _ _ w) as [[page|e] w1]; cbn [fst snd]; [|done].
    unfold bind at 1. destruct (import_page _ _ _ _ w1) as [[job' s] w2] eqn:E. apply import_page_status in E. cbn [fst snd] in *.
    assert (ij_Status job' ≠ job_pending) as Hj' by by rewrite E. destruct s as [s|]; [done|]. cbv zeta.
    unfold bind at 1. destruct (_ || _); [done|]. by apply IH.
Qed.

Lemma reconcile_pages_table fuel account seen job startAfter : ij_Status job ≠ job_pending →
  pres (on_db (same db_inventories)) (reconcile_pages fuel account seen job startAfter)
  ∧ ∀ w, not_waiting (reconcile_pages fuel account seen job startAfter w).1.
Proof.
  revert job startAfter. induction fuel as [|fuel IH]; intros job startAfter Hj; cbn [reconcile_pages]; [split; [frame_auto|done]|].
  split.
  - apply pres_bind; [apply _|frame_auto|]. intros [indexed|e]; [|frame_auto]. cbv zeta.
    destruct (last indexed) as [o|]; [|frame_auto]. destruct (Nat.ltb _ _); [frame_auto|]. by apply IH.
  - intros w. unfold bind at 1. destruct (ListObjectsAfter_store _ _ _ _ w) as [[indexed|e] w1]; cbn [fst snd]; [|done].
    cbv zeta. destruct (last indexed) as [o|]; [|done]. destruct (Nat.ltb _ _); [done|]. by apply IH.
Qed.

Lemma failInventoryJob_table job e : pres (on_db (none_added (J := InventoryJob))) (failInventoryJob job e).
Proof. unfold failInventoryJob. job_frame. done. Qed.

Lemma finish_inventory_table fuel account seen job : ij_Status job ≠ job_pending →
  pres (on_db (none_added (J := InventoryJob))) (finish_inventory fuel account seen job).
Proof.
  intros Hj. unfold finish_inventory. apply pres_bind; [apply _| |].
  - destruct (ij_Mode job =? _)%string; [|job_frame]. apply pres_same_none_added, reconcile_pages_table, Hj.
  - intros [job' [e|]]; [apply failInventoryJob_table|]. job_frame. done.
Qed.

Lemma RunInventoryJob_table fuel id : pres (on_db (none_added (J := InventoryJob))) (RunInventoryJob ctx fuel id).
Proof.
  unfold RunInventoryJob. apply pres_bind_ok; [apply _|apply pres_same_none_added; frame_auto|]. intros job.
  destruct (_ || _); [job_frame|]. cbv zeta. apply pres_bind_ok; [apply _|job_frame; done|]. intros _.
  apply pres_bind; [apply _|apply pres_same_none_added; frame_auto|]. intros [[account adapter]|e]; [|apply failInventoryJob_table].
  unfold run_inventory. cbv zeta. set (running := with_remote_bucket _ _).
  assert (ij_Status running ≠ job_pending) as Hrunning by (unfold running, with_remote_bucket; by destruct (_ =? _)%string).
  destruct (_ =? _)%string; [apply failInventoryJob_table|]. destruct (ad_ListObjects adapter) as [list_objects|]; [|apply failInventoryJob_table].
  apply (pres_bind_post _ not_waiting); [by apply import_pages_table|by apply import_pages_table|].
  intros [job' [[e|e]|seen]] Hj'; [job_frame|apply failInventoryJob_table|by apply finish_inventory_table].
Qed.

Lemma inventory_works fuel : works_on (J := InventoryJob) (RunInventoryJob ctx fuel) (inventory_worker ctx fuel).
Proof.
  split; [reflexivity|apply RunInventoryJob_table|]. intros recover cutoff w [= <-] Hq. apply recover_job_run.
  apply (recover_jobs_run (J := InventoryJob) cutoff w Hq).
Qed.
End workers.

(** Rows by their own name. *)
Lemma none_waiting {J} `{!JobTable J} d : pending_jobs (J := J) d = ∅ → ∀ id j, job_table d !! id = Some j → job_Status j ≠ job_pending.
Proof. intros Hp id j Hj Hs. assert (id ∈ pending_jobs (J := J) d) as Hin by (apply elem_of_pending; by exists j). set_solver. Qed.

(** Of a pass that ends by itself, what it leaves. *)
Lemma pass_left {J} `{!JobTable J} `{Env} names (pass : nat → M (result unit)) pages w : named names (w_db w) →
  (∀ pages', (pages ≤ pages')%nat → agree names (pass pages') (pass pages)) →
  (pass pages w).1 = Ok tt ∧ pending_jobs (J := J) (w_db (pass pages w).2) = ∅ →
  ∃ w', (∀ pages', (pages ≤ pages')%nat → pass pages' w = (Ok tt, w')) ∧
    ∀ id j, job_table (w_db w') !! id = Some j → job_Status j ≠ job_pending.
Proof.
  intros Hn Hend [Hr Hp]. exists (pass pages w).2. split; [|by apply none_waiting]. intros pages' Hle.
  destruct (Hend pages' Hle w Hn) as [-> _]. by apply run_pair.
Qed.


(** Two waiting migrations, one of them of a provider that does not exist. *)
Definition waiting_job (id target : string) : MigrationJob :=
  zero_MigrationJob <| mj_ID := id |> <| mj_Bucket := "b" |> <| mj_SourceProviderID := "p1" |> <| mj_TargetProviderID := target |>
    <| mj_Mode := MigrationModeCopy |> <| mj_Status := MigrationStatusPending |>.
Definition waiting_db : DB :=
  (demo_db demo_bucket) <| db_migrations := {[ "m1" := waiting_job "m1" "p2"; "m2" := waiting_job "m2" "p9" ]} |>.

(** An inventory that waits, of a provider that lists two pages. *)
Definition two_pages (_ : list Call) (_ : ProviderAccount) (_ _ token : string) (_ : Z) : result ProviderObjectPage :=
  if (token =? "")%string then Ok (MkProviderObjectPage [zero_ProviderObject <|po_Key := "a"|>] "next")
  else Ok (MkProviderObjectPage [zero_ProviderObject <|po_Key := "b"|>] "").

Definition paged_adapter : Adapter :=
  MkAdapter (ad_Put demo_adapter) None (ad_Get demo_adapter) (ad_Head demo_adapter) (ad_Delete demo_adapter)
    (ad_Health demo_adapter) (Some two_pages) None None None.

Definition paged_env : Env := quiet_env demo_time (λ kind, match demo_registry kind with Some _ => Some paged_adapter | None => None end).

Lemma paged_listings_end : @listings_end paged_env {[ "a"; "b" ]} 3.
Proof.
  intros kind adapter f Hk Hf. simpl in Hk. destruct (demo_registry kind); [|done]. injection Hk as <-. injection Hf as <-.
  exists (λ token, if (token =? "")%string then 2%nat else if (token =? "next")%string then 1%nat else 0%nat). split; [simpl; lia|].
  intros h account bucket prefix token page. unfold two_pages. destruct (String.eqb_spec token "") as [->|Hne]; intros [= <-]; cbn.
  - split; [|right; right; lia]. intros o ->%list_elem_of_singleton. set_solver.
  - split; [|by left]. intros o ->%list_elem_of_singleton. set_solver.
Qed.

Definition waiting_inventory : InventoryJob :=
  zero_InventoryJob <| ij_ID := "i1" |> <| ij_ProviderAccountID := "p1" |> <| ij_Bucket := "b" |> <| ij_RemoteBucket := "remote" |>
    <| ij_Mode := InventoryModeReconcile |> <| ij_Status := InventoryStatusPending |>.

Definition inventory_world : World := start (waiting_db <| db_inventories := {[ "i1" := waiting_inventory ]} |>).

