(* ===== verification/Multipart.v ===== *)
(** Multipart uploads, [app/multipart.go] and their tables in
    [store/store.go]: parts staged on the local disk, put together and uploaded
    on completion. *)
From S2P Require Import Prelude GoTime Sha256 Json Text Domain ProviderErrors World Sql StoreProviders StoreObjects StoreEvents Placement Providers Hooks Service.

(** ** The tables *)

Definition part_conflict (old new : MultipartPart) : MultipartPart := new <| mp_CreatedAt := mp_CreatedAt old |>.

Definition create_upload_row (upload : MultipartUpload) (d : DB) : result DB :=
  match db_uploads d !! mu_UploadID upload with
  | Some _ => Err (constraint_failed "UNIQUE")
  | None => Ok (d <| db_uploads ::= insert (mu_UploadID upload) upload |>)
  end.

Definition upsert_part_row (part : MultipartPart) (d : DB) : result DB :=
  match db_uploads d !! mp_UploadID part with
  | None => Err (constraint_failed "FOREIGN KEY")
  | Some _ =>
      let key := (mp_UploadID part, mp_PartNumber part) in
      Ok (d <| db_parts ::= insert key (match db_parts d !! key with
                                        | Some old => part_conflict old part
                                        | None => part
                                        end) |>)
  end.

(** ON DELETE CASCADE *)
Definition delete_upload_row (uploadID : string) (d : DB) : DB :=
  d <| db_uploads ::= delete uploadID |>
    <| db_parts ::= delete_where (λ x, (mp_UploadID x =? uploadID)%string) |>.

Section store.
Context `{Env}.

Definition CreateMultipartUpload_store (upload : MultipartUpload) : M (result unit) :=
  let! t := now in
  let upload := if is_zero (mu_CreatedAt upload) then upload <| mu_CreatedAt := t |> else upload in
  sql_write (create_upload_row (upload <| mu_UpdatedAt := t |>)).

Definition GetMultipartUpload (uploadID : string) : M (result MultipartUpload) :=
  sql_read (λ d, match db_uploads d !! uploadID with Some u => Ok u | None => not_found end).

Definition UpsertMultipartPart (part : MultipartPart) : M (result unit) :=
  let! t := now in
  let part := if is_zero (mp_CreatedAt part) then part <| mp_CreatedAt := t |> else part in
  sql_write (upsert_part_row (part <| mp_UpdatedAt := t |>)).

Definition ListMultipartParts_store (uploadID : string) : M (result (list MultipartPart)) :=
  sql_read (λ d, Ok (order_by (by_int mp_PartNumber)
    (where_ (λ x, (mp_UploadID x =? uploadID)%string) (rows (db_parts d))))).

Definition DeleteMultipartUpload (uploadID : string) : M (result unit) :=
  sql_write (λ d, Ok (delete_upload_row uploadID d)).

(** ** Local files *)

Definition locate (path : string) : list string := path_elements env_cwd path.

(** A change of the file system, unless it fails. *)
Definition edit_files (f : gmap (list string) string → gmap (list string) string) : M (result unit) :=
  let? _ := file_op in λ w, (Ok tt, w <| w_staging ::= f |>).

(** [os.Rename] of a file written with this content. *)
Definition write_file (path data : string) : M (result unit) := edit_files (insert (locate path) data).

(** [os.Open], the content being read later from the open file. *)
Definition open_file (path : string) : M (result string) :=
  let? _ := file_op in
  λ w, (match w_staging w !! locate path with
        | Some data => Ok data
        | None => Err (ErrText ("open " +:+ path +:+ ": no such file or directory"))
        end, w).

(** [_ = os.Remove(path)]; a removal that fails removes nothing. *)
Definition remove_file (path : string) : M unit :=
  ignore (edit_files (delete (locate path))).

(** The files that are not under a directory. *)
Definition files_outside (dir : list string) (files : gmap (list string) string) : gmap (list string) string :=
  filter (λ kv, ¬ dir `prefix_of` kv.1) files.

(** [_ = os.RemoveAll(path)], which refuses to remove [.]. *)
Definition remove_all (path : string) : M unit :=
  ignore (if (path =? ".")%string then ret_err (ErrText "invalid argument")
          else edit_files (files_outside (locate path))).

Lemma edit_files_pres R `{!PreOrder R} f : pres (on_db R) (edit_files f).
Proof. intros w. unfold edit_files, bind_ok, bind, file_op. destruct (env_fs_fault _); by unfold on_db. Qed.

Lemma edit_files_calls f : pres same_calls (edit_files f).
Proof. intros w. unfold edit_files, bind_ok, bind, file_op. by destruct (env_fs_fault _). Qed.
End store.

#[global] Hint Resolve edit_files_pres edit_files_calls : pres.

(** ** The order of the parts *)

Fixpoint order_parts (byNumber : gmap Z MultipartPart) (previous : Z) (total : Z) (requested : list Z)
    : result (list MultipartPart * Z) :=
  match requested with
  | [] => Ok ([], total)
  | partNumber :: rest =>
      if partNumber <=? previous then Err (ErrText "multipart parts must be in strictly ascending order")
      else match byNumber !! partNumber with
           | None => Err (ErrText ("multipart part " +:+ itoa partNumber +:+ " was not uploaded"))
           | Some part =>
               try! r := order_parts byNumber partNumber (add64 total (mp_Size part)) rest in
               Ok (part :: r.1, r.2)
           end
  end.

Definition orderMultipartParts (parts : list MultipartPart) (requested : list Z) : result (list MultipartPart * Z) :=
  let byNumber : gmap Z MultipartPart := fold_left (λ m part, <[mp_PartNumber part := part]> m) parts ∅ in
  let requested := match requested with [] => merge_sort Z.le (mp_PartNumber <$> parts) | _ => requested end in
  try! r := order_parts byNumber 0 0 requested in
  match r.1 with
  | [] => Err (ErrText "multipart upload has no parts")
  | _ => Ok r
  end.

(** ** The service *)

Section multipart.
Context `{Env} `{!Pipelines}.

Definition CreateMultipartUpload (bucket key contentType : string) : M (result MultipartUpload) :=
  let? _ := ensureBucket bucket in
  let! uploadID := randomIdentifier "" 16 in
  let upload := zero_MultipartUpload <| mu_UploadID := uploadID |> <| mu_Bucket := bucket |> <| mu_Key := key |>
                  <| mu_ContentType := contentType |> in
  let? _ := CreateMultipartUpload_store upload in
  ret_ok upload.

Definition part_file (partNumber : Z) : string := padded 5 partNumber +:+ ".part".
Definition part_path (uploadID : string) (partNumber : Z) : string :=
  filepath_join [cfg_MultipartStagingDir env_config; uploadID; part_file partNumber].

Definition max_part : Z := cfg_MaxMultipartPartBytes env_config.

(** The part is written to a temporary file, which is removed again unless it
    is renamed to its place. *)
Definition receive_part (body : Reader) : M (result string) :=
  let? _ := wrap_err "create multipart dir" file_op in
  let? _ := wrap_err "create multipart part" file_op in
  let '(data, failed) := limited max_part body in
  let? _ := wrap_err "write multipart part"
              (let? _ := file_op in lift (match failed with Some e => Err e | None => Ok tt end)) in
  if max_part <? Z.of_nat (String.length data)
  then ret_err (ErrAnnotate (ErrSentinel ErrUploadTooLarge) ("multipart part maximum is " +:+ itoa max_part +:+ " bytes"))
  else
    let? _ := wrap_err "sync multipart part" file_op in
    let? _ := wrap_err "close multipart part" file_op in
    ret_ok data.

Definition staged_part (uploadID : string) (partNumber : Z) (data : string) : MultipartPart :=
  zero_MultipartPart <| mp_UploadID := uploadID |> <| mp_PartNumber := partNumber |>
    <| mp_Path := part_path uploadID partNumber |> <| mp_Size := Z.of_nat (String.length data) |>
    <| mp_ETag := quoted (sha256_hex data) |> <| mp_ChecksumSHA256 := sha256_hex data |>.

Definition UploadPart (uploadID : string) (partNumber : Z) (body : Reader) : M (result MultipartPart) :=
  if (partNumber <? 1) || (10000 <? partNumber) then ret_err (ErrText "partNumber must be between 1 and 10000")
  else
    let? _ := GetMultipartUpload uploadID in
    let? data := receive_part body in
    let? _ := wrap_err "commit multipart part" (write_file (part_path uploadID partNumber) data) in
    let part := staged_part uploadID partNumber data in
    let? _ := UpsertMultipartPart part in
    ret_ok part.

Definition cleanupMultipart (uploadID : string) (parts : list MultipartPart) : M (result unit) :=
  let! _ := for_each parts (λ part, remove_file (mp_Path part)) in
  let! _ := remove_all (filepath_join [cfg_MultipartStagingDir env_config; uploadID]) in
  DeleteMultipartUpload uploadID.

(** The contents of the parts' files, in order. *)
Fixpoint openMultipartReader (parts : list MultipartPart) : M (result (list string)) :=
  match parts with
  | [] => ret_ok []
  | part :: rest =>
      let? data := wrap_err ("open multipart part " +:+ itoa (mp_PartNumber part)) (open_file (mp_Path part)) in
      let? l := openMultipartReader rest in
      ret_ok (data :: l)
  end.

(** The upload, its parts in order, their size and their contents. *)
Definition collect_parts (uploadID : string) (requestedParts : list Z)
    : M (result (MultipartUpload * list MultipartPart * Z * list string)) :=
  let? upload := GetMultipartUpload uploadID in
  let? parts := ListMultipartParts_store uploadID in
  let? ot := lift (orderMultipartParts parts requestedParts) in
  let '(ordered, totalSize) := ot in
  if max_upload <? totalSize then ret too_large
  else
    let? contents := openMultipartReader ordered in
    ret_ok (upload, ordered, totalSize, contents).

Definition CompleteMultipartUpload (uploadID : string) (requestedParts : list Z) : M (result ObjectRecord) :=
  let? collected := collect_parts uploadID requestedParts in
  let '(upload, ordered, totalSize, contents) := collected in
  let? obj := PutObject (zero_PutObjectInput <| i_Bucket := mu_Bucket upload |> <| i_Key := mu_Key upload |>
                           <| i_Size := totalSize |> <| i_ContentType := mu_ContentType upload |>)
                        (MkReader (String.concat "" contents) None) in
  let! _ := ignore (cleanupMultipart uploadID ordered) in
  ret_ok obj.

Definition AbortMultipartUpload (uploadID : string) : M (result unit) :=
  let! listed := ListMultipartParts_store uploadID in
  cleanupMultipart uploadID (match listed with Ok parts => parts | Err _ => [] end).

Definition ListMultipartParts (uploadID : string) : M (result (list MultipartPart)) :=
  let? _ := GetMultipartUpload uploadID in ListMultipartParts_store uploadID.
End multipart.
