(* ===== verification/MultipartFacts.v ===== *)
(** Theorems about multipart uploads: the tables and the staging directory
    implement a map from uploads to numbered parts, a completed upload sends
    the parts in ascending order, and what an upload identifier can reach on
    the disk. *)
From S2P Require Import Prelude GoTime Sha256 Json Text Stamp Domain ProviderErrors World Sql StoreProviders StoreObjects StoreEvents Placement Demo Providers Hooks Service ServiceFacts Multipart.

(** ** What an upload hands to the providers *)

(** A remote call that uploads, uploads this text. *)
Definition puts (text : string) (c : Call) : Prop :=
  match c with
  | CallPut _ _ body => rd_data body = text
  | CallPutPrepared _ _ upload => pu_File upload = text
  | _ => True
  end.

Lemma limited_whole max body data :
  max < int64_max → limited max body = (data, None) → Z.of_nat (String.length data) ≤ max → data = rd_data body ∧ rd_err body = None.
Proof.
  intros Hmax. unfold limited, add64. destruct (Z.ltb_spec max (-1)) as [Hneg|Hneg].
  { intros _ Hlen. lia. }
  rewrite wrap64_id by (unfold in_int64, int64_min, int64_max in *; lia).
  (* a text as long as the bound is longer than the maximum *)
  destruct (Z.ltb_spec (Z.of_nat (String.length (rd_data body))) (max + 1)); [by intros [= <- ?]|intros [= <-]].
  rewrite string_take_length, Nat.min_l by lia. lia.
Qed.

Section puts.
Context `{Env} `{!Pipelines} (Hmax : max_upload < int64_max).

Lemma spool_content body w spool : (spoolUpload body w).1 = Ok spool → pu_File spool = rd_data body.
Proof.
  intros Hrun. apply run_pair in Hrun. unfold spoolUpload in Hrun.
  run_inv Hrun as [] w1 _. destruct (limited max_upload body) as [data failed] eqn:Hl.
  run_inv Hrun as [] w2 Hcopy.
  assert (failed = None) as ->.
  { unfold wrap_err in Hcopy. apply bind_inv in Hcopy as (r & w3 & Hcopy & Hr). destruct r as [[]|e]; [|done].
    run_inv Hcopy as [] w4 _. unfold lift, ret in Hcopy. by destruct failed. }
  destruct (Z.ltb_spec max_upload (Z.of_nat (String.length data))) as [|Hle]; [done|].
  run_inv Hrun as [] w3 _. injection Hrun as <- _. simpl. by apply (limited_whole max_upload body data).
Qed.

Lemma put_spool_puts primary input spool : pres (calls_only (puts (pu_File spool))) (putUploadSpoolOnProvider primary input spool).
Proof.
  unfold putUploadSpoolOnProvider, adapter_put. destruct (providerForReplica primary) as [[account adapter]|e]; [|pres_auto].
  destruct (ad_PutPrepared adapter); by apply calls_remote.
Qed.

(** Deletions put nothing. *)
Lemma delete_puts text adapter account o : pres (calls_only (puts text)) (adapter_delete adapter account o).
Proof. by apply calls_remote. Qed.

Ltac puts_auto :=
  repeat first [ pres_step | apply put_spool_puts | apply delete_puts | solve [apply pres_same_calls_only; eauto 3 with pres typeclass_instances]
    | open_op ].

Lemma try_provider_puts input spool primary : pres (calls_only (puts (pu_File spool))) (try_provider input spool primary).
Proof. unfold try_provider. puts_auto. Qed.
End puts.

(** ** Uploading does not touch multipart uploads *)

(** Rows and files of multipart uploads. *)
Definition upload_tables (d : DB) : gmap string MultipartUpload * gmap (string * Z) MultipartPart := (db_uploads d, db_parts d).

Definition same_uploads (w w' : World) : Prop := on_db (same upload_tables) w w' ∧ same_files w w'.

#[global] Instance same_uploads_preorder : PreOrder same_uploads.
Proof. unfold same_uploads. split; [done|]. intros w1 w2 w3 [H1 H2] [H3 H4]. split; by etrans. Qed.

Section frames.
Context `{Env} `{!Pipelines}.

Lemma place_frame (R : World → World → Prop) `{!PreOrder R} fuel input spool excluded :
  (∀ e, pres R (Choose input e)) → (∀ p, pres R (try_provider input spool p)) → pres R (place fuel input spool excluded).
Proof.
  intros Hc Ht. revert excluded. induction fuel as [|fuel IH]; intros excluded; simpl; [by apply pres_ret|].
  apply pres_bind; [apply _|apply Hc|]. intros [p|e]; [|by apply pres_ret].
  apply pres_bind; [apply _|apply Ht|]. intros [r|[]]; [by apply pres_ret|apply IH].
Qed.

Lemma place_upload_frame (R : World → World → Prop) `{!PreOrder R} input spool :
  pres R now → pres R (ListProviders true) → (∀ p, pres R (try_provider input spool p)) → pres R (place_upload input spool).
Proof.
  intros Hnow Hl Ht w. unfold place_upload. apply pres_bind; [apply _| |intros r; by apply pres_ret].
  apply place_frame; [apply _| |done]. intros e. by apply Choose_frame; [apply _|..].
Qed.

(** A relation that every statement keeps is kept by an upload when its remote
    calls keep it. *)
Ltac upload_frame :=
  repeat first [ pres_step | solve [eauto 3 with pres typeclass_instances] | solve [frame_tx]
    | solve [apply place_upload_frame; [apply _|frame_auto..]] | open_op ].

Lemma PutObject_tables input body : pres (on_db (same upload_tables)) (PutObject input body).
Proof. unfold PutObject. upload_frame. Qed.

Lemma PutObject_files input body : pres same_files (PutObject input body).
Proof. unfold PutObject. upload_frame. Qed.
End frames.

(** Whatever an upload hands to a provider is the text it was given. *)
Lemma PutObject_puts `{Env} `{!Pipelines} input body : max_upload < int64_max → pres (calls_only (puts (rd_data body))) (PutObject input body).
Proof.
  intros Hmax. unfold PutObject. destruct (_ <? _); [unfold too_large; pres_auto|].
  assert (∀ A (m : M A), pres same_calls m → pres (calls_only (puts (rd_data body))) m) as Hsame
    by (intros A m Hm; by apply pres_same_calls_only).
  repeat first [ lazymatch goal with |- pres _ (bind_ok (spoolUpload _) _) => fail 1 | _ => pres_step end
               | solve [apply Hsame; frame_auto] ].
  apply (pres_bind_post _ (λ r, ∀ spool, r = Ok spool → pu_File spool = rd_data body)).
  - apply Hsame. frame_auto.
  - intros w spool. by apply spool_content.
  - intros [spool|e] Hspool; [|pres_auto]. rewrite <- (Hspool spool) by done.
    apply pres_bind_ok; [apply _| |].
    + apply place_upload_frame; [apply _|apply pres_same_calls_only; pres_auto|apply pres_same_calls_only; frame_auto|].
      intros p. by apply try_provider_puts.
    + intros [primary stored]. unfold index_upload, cleanupOverwrittenObject, deleteObjectReplicas, delete_replica.
      repeat first [ pres_step | apply delete_puts | solve [apply pres_same_calls_only; frame_auto] ].
Qed.

(** ** The abstract uploads

    An upload in progress is a map from part numbers to contents. *)
Abbreviation Uploads := (gmap string (gmap Z string)).

Definition part_of (s : Uploads) (u : string) (n : Z) : option string := parts ← s !! u; parts !! n.

Lemma part_of_put s u n parts data u' n' : s !! u = Some parts →
  part_of (<[u := <[n := data]> parts]> s) u' n' = if decide ((u', n') = (u, n)) then Some data else part_of s u' n'.
Proof.
  intros Hs. unfold part_of. destruct (decide (u' = u)) as [->|Hu].
  - rewrite lookup_insert_eq, Hs. unfold mbind, option_bind. destruct (decide (n' = n)) as [->|Hn].
    + by rewrite lookup_insert_eq, decide_True.
    + by rewrite lookup_insert_ne, decide_False by congruence.
  - rewrite lookup_insert_ne by done. rewrite decide_False by congruence. done.
Qed.

Definition part_numbers (parts : gmap Z string) : list Z := merge_sort Z.le (map_to_list parts).*1.

(** Some parts put together. *)
Definition assembled (parts : gmap Z string) (numbers : list Z) : string :=
  String.concat "" (omap (λ n, parts !! n) numbers).

(** The tables and the files implement the uploads [s]. *)
Section staged.
Context `{Env}.

Record staged_row (w : World) (s : Uploads) (u : string) (n : Z) (row : MultipartPart) (data : string) : Prop := {
  sr_number : 1 ≤ n ≤ 10000;
  sr_UploadID : mp_UploadID row = u;
  sr_PartNumber : mp_PartNumber row = n;
  sr_Path : mp_Path row = part_path u n;
  sr_Size : mp_Size row = Z.of_nat (String.length data);
  sr_Checksum : mp_ChecksumSHA256 row = sha256_hex data;
  sr_file : w_staging w !! locate (part_path u n) = Some data }.

Record staged (w : World) (s : Uploads) : Prop := {
  st_uploads : ∀ u, is_Some (db_uploads (w_db w) !! u) ↔ is_Some (s !! u);
  st_ids : ∀ u, is_Some (s !! u) → proper_element u = true;
  st_rows : ∀ u n, match part_of s u n with
                   | Some data => ∃ row, db_parts (w_db w) !! (u, n) = Some row ∧ staged_row w s u n row data
                   | None => db_parts (w_db w) !! (u, n) = None
                   end }.

(** The staging directory is configured. *)
Definition has_staging : Prop := cfg_MultipartStagingDir env_config ≠ "".

Lemma part_file_proper n : proper_element (part_file n) = true.
Proof.
  assert (String.length (part_file n) = 10%nat) as Hlen by (unfold part_file; by rewrite string_length_app, padded_length).
  unfold proper_element. rewrite !(proj2 (String.eqb_neq (part_file n) _)) by (intros E; by rewrite E in Hlen).
  unfold part_file. by rewrite no_byte_app, padded_no_byte by set_solver.
Qed.

Lemma part_file_inj n n' : 1 ≤ n ≤ 10000 → 1 ≤ n' ≤ 10000 → part_file n = part_file n' → n = n'.
Proof.
  intros Hn Hn' E. unfold part_file in E.
  pose proof (take_number_padded 5 0 n ".part" ltac:(simpl; lia)) as Ht.
  rewrite E, (take_number_padded 5 0 n' ".part" ltac:(simpl; lia)) in Ht. injection Ht as Ht. lia.
Qed.

Context (Hstaging : has_staging).

Lemma locate_part u n : proper_element u = true →
  locate (part_path u n) = locate (cfg_MultipartStagingDir env_config) ++ [u; part_file n].
Proof.
  intros Hu. unfold locate, part_path. apply path_elements_join_proper; [done|done|].
  repeat constructor; [done|apply part_file_proper].
Qed.

Lemma locate_part_inj u n u' n' : proper_element u = true → proper_element u' = true → 1 ≤ n ≤ 10000 → 1 ≤ n' ≤ 10000 →
  locate (part_path u n) = locate (part_path u' n') → u = u' ∧ n = n'.
Proof.
  intros Hu Hu' Hn Hn' E. rewrite !locate_part in E by done. apply app_inv_head in E.
  split; [congruence|]. apply part_file_inj; [done..|congruence].
Qed.

Lemma staged_same w w' s : same_uploads w w' → staged w s → staged w' s.
Proof.
  intros [Hdb Hfiles] [Hu Hi Hr]. unfold on_db, same, upload_tables in Hdb. injection Hdb as Hups Hparts. unfold same_files in Hfiles.
  split; [intros u; rewrite Hups; apply Hu|done|]. intros u n. specialize (Hr u n). rewrite Hparts.
  destruct (part_of s u n); [|done]. destruct Hr as (row & Hrow & [? ? ? ? ? ? Hf]). exists row. split; [done|].
  split; try done. by rewrite Hfiles.
Qed.

(** A part renamed to its place and recorded. *)
Lemma staged_put w w' s u n row parts data :
  staged w s → s !! u = Some parts → staged_row w' s u n row data →
  db_uploads (w_db w') = db_uploads (w_db w) → db_parts (w_db w') = <[(u, n) := row]> (db_parts (w_db w)) →
  w_staging w' = <[locate (part_path u n) := data]> (w_staging w) →
  staged w' (<[u := <[n := data]> parts]> s).
Proof.
  intros [Hu Hi Hr] Hs Hrow Hups Hparts Hfiles. split.
  - intros u'. rewrite Hups, Hu. destruct (decide (u' = u)) as [->|Hne]; [rewrite lookup_insert_eq, Hs; by split|].
    by rewrite lookup_insert_ne.
  - intros u'. destruct (decide (u' = u)) as [->|Hne]; [intros _; apply Hi; by rewrite Hs|].
    rewrite lookup_insert_ne by done. apply Hi.
  - intros u' n'. rewrite Hparts, (part_of_put _ _ _ _ _ _ _ Hs). case_decide as Hdec.
    + injection Hdec as -> ->. rewrite lookup_insert_eq. exists row. split; [done|]. by destruct Hrow.
    + rewrite lookup_insert_ne by done. specialize (Hr u' n'). destruct (part_of s u' n') as [data'|] eqn:Epart; [|done].
      destruct Hr as (row' & Hrow' & [? ? ? ? ? ? Hf]). exists row'. split; [done|]. split; try done.
      rewrite Hfiles, lookup_insert_ne; [done|]. intros Heq.
      apply locate_part_inj in Heq as [<- <-]; [done| | |by destruct Hrow|done].
      * apply Hi. by rewrite Hs.
      * apply Hi. unfold part_of in Epart. by destruct (s !! u').
Qed.
End staged.

(** ** Uploading a part *)

Lemma same_uploads_pres {A} (m : M A) : pres (on_db (same upload_tables)) m → pres same_files m → pres same_uploads m.
Proof. intros Hdb Hf w. split; [apply Hdb|apply Hf]. Qed.

Section parts.
Context `{Env} (Hquiet : no_db_faults) (Hmax : max_part < int64_max).

Lemma receive_part_same body : pres same_uploads (receive_part body).
Proof. apply same_uploads_pres; unfold receive_part; pres_auto. Qed.

Lemma receive_part_whole body w data w' : receive_part body w = (Ok data, w') → data = rd_data body.
Proof.
  unfold receive_part. intros Hrun. run_inv Hrun as [] w1 _. run_inv Hrun as [] w2 _.
  destruct (limited max_part body) as [text failed] eqn:Hl. run_inv Hrun as [] w3 Hcopy.
  assert (failed = None) as ->.
  { apply wrap_err_cases in Hcopy as [([] & _ & Hcopy)|(e & He & _)]; [|done].
    run_inv Hcopy as [] w4 _. unfold lift, ret in Hcopy. by destruct failed. }
  destruct (Z.ltb_spec max_part (Z.of_nat (String.length text))) as [|Hle]; [done|].
  run_inv Hrun as [] w4 _. run_inv Hrun as [] w5 _. injection Hrun as -> _. by apply (limited_whole max_part body data).
Qed.

(** Recording a part of an upload that is there. *)
Lemma UpsertMultipartPart_quiet u n data w : is_Some (db_uploads (w_db w) !! u) →
  ∃ w', UpsertMultipartPart (staged_part u n data) w = (Ok tt, w') ∧ w_staging w' = w_staging w
    ∧ db_uploads (w_db w') = db_uploads (w_db w)
    ∧ ∃ row, db_parts (w_db w') = <[(u, n) := row]> (db_parts (w_db w))
        ∧ mp_UploadID row = u ∧ mp_PartNumber row = n ∧ mp_Path row = part_path u n
        ∧ mp_Size row = Z.of_nat (String.length data) ∧ mp_ChecksumSHA256 row = sha256_hex data.
Proof.
  intros [upload Hup]. unfold UpsertMultipartPart, bind, now. cbn [fst snd].
  set (part := (if is_zero _ then _ else _) <| mp_UpdatedAt := _ |>).
  assert (mp_UploadID part = u ∧ mp_PartNumber part = n ∧ mp_Path part = part_path u n
    ∧ mp_Size part = Z.of_nat (String.length data) ∧ mp_ChecksumSHA256 part = sha256_hex data) as (H1 & H2 & H3 & H4 & H5).
  { unfold part. by destruct (is_zero _). }
  clearbody part. unfold sql_write, sql, upsert_part_row. rewrite Hquiet. rsimpl. rewrite H1, H2, Hup. cbn [result_map].
  eexists. split; [reflexivity|]. rsimpl. split_and!; [done|done|]. eexists. split; [reflexivity|].
  unfold part_conflict. destruct (db_parts (w_db w) !! (u, n)); rsimpl; done.
Qed.

(** What an [UploadPart] does: nothing when it fails, else it stores the part. *)
Lemma UploadPart_cases u n body w r w' : UploadPart u n body w = (r, w') →
  (is_ok r = false ∧ same_uploads w w') ∨
  (is_ok r = true ∧ 1 ≤ n ≤ 10000 ∧ is_Some (db_uploads (w_db w) !! u)
   ∧ w_staging w' = <[locate (part_path u n) := rd_data body]> (w_staging w)
   ∧ db_uploads (w_db w') = db_uploads (w_db w)
   ∧ ∃ row, db_parts (w_db w') = <[(u, n) := row]> (db_parts (w_db w))
     ∧ (staged_row w' ∅ u n row (rd_data body))).
Proof.
  unfold UploadPart. destruct ((n <? 1) || (10000 <? n)) eqn:Hn; [intros [= <- <-]; by left|].
  assert (1 ≤ n ≤ 10000) as Hnum by lia. clear Hn. intros Hrun.
  apply bind_ok_cases in Hrun as [(e & Hget & ->)|(upload & w1 & Hget & Hrun)].
  { left. split; [done|]. eapply (pres_run same_uploads); [|exact Hget]. apply same_uploads_pres; unfold GetMultipartUpload; pres_auto. }
  assert (w1 = w <| w_stmts ::= S |> ∧ is_Some (db_uploads (w_db w) !! u)) as [-> Hup].
  { unfold GetMultipartUpload in Hget. rewrite sql_read_quiet in Hget by done. destruct (db_uploads (w_db w) !! u); [|done]. by injection Hget as _ <-. }
  apply bind_ok_cases in Hrun as [(e & Hrecv & ->)|(data & w1 & Hrecv & Hrun)];
    pose proof (pres_run _ _ _ _ _ (receive_part_same body) Hrecv) as Hsame; [by left|].
  apply receive_part_whole in Hrecv as ->.
  assert (same_uploads w w1) as Hsame1 by exact Hsame. clear Hsame.
  apply bind_ok_cases in Hrun as [(e & Hwrite & ->)|([] & w2 & Hwrite & Hrun)];
    apply wrap_err_cases in Hwrite as [(a & Ha & Hwrite)|(e' & Ha & Hwrite)]; try done;
    unfold write_file, edit_files in Hwrite;
    apply bind_ok_cases in Hwrite as [(e'' & Hfile & He)|([] & w3 & Hfile & Hset)];
    try discriminate He; try discriminate Hset.
  { left. split; [done|]. etrans; [exact Hsame1|]. by injection Hfile as _ <-. }
  injection Hfile as _ <-. injection Hset as _ <-.
  destruct Hsame1 as [Htables Hfiles]. unfold on_db, same, upload_tables in Htables. injection Htables as Hups Hparts.
  unfold same_files in Hfiles. right. cbv zeta in Hrun.
  match type of Hrun with bind_ok _ _ ?w2 = _ => destruct (UpsertMultipartPart_quiet u n (rd_data body) w2) as (w4 & Hrow & Hst & Hup4 & row & Hp4 & Hr) end.
  { rsimpl. by rewrite Hups. }
  rewrite (bind_ok_run _ _ _ _ _ Hrow) in Hrun. injection Hrun as <- <-. rsimpl.
  split_and!; [done|lia|lia|done|by rewrite Hst, Hfiles|by rewrite Hup4|]. exists row. split; [by rewrite Hp4, Hparts|].
  destruct Hr as (H1 & H2 & H3 & H4 & H5). split; try done. by rewrite Hst, lookup_insert_eq.
Qed.
End parts.

(** ** Starting and ending an upload *)

(** The places of the parts of the other uploads. *)
Definition other_files `{Env} (u : string) (w w' : World) : Prop :=
  ∀ u' n, proper_element u' = true → u' ≠ u → 1 ≤ n ≤ 10000 →
    w_staging w' !! locate (part_path u' n) = w_staging w !! locate (part_path u' n).

#[global] Instance other_files_preorder `{Env} u : PreOrder (other_files u).
Proof. unfold other_files. split; [done|]. intros w1 w2 w3 H1 H2 u' n ???. by rewrite H2, H1. Qed.

Section cleanup.
Context `{Env} (Hquiet : no_db_faults) (Hstaging : has_staging).

Lemma edit_files_other u f : (∀ m u' n, proper_element u' = true → u' ≠ u → 1 ≤ n ≤ 10000 →
    f m !! locate (part_path u' n) = m !! locate (part_path u' n)) → pres (other_files u) (edit_files f).
Proof.
  intros Hf w. unfold edit_files, bind_ok, bind, file_op. destruct (env_fs_fault _); [done|]. intros u' n ???.
  cbn [fst snd]. rsimpl. by rewrite Hf.
Qed.

Lemma cleanup_other u parts : proper_element u = true →
  Forall (λ part, ∃ n, 1 ≤ n ≤ 10000 ∧ mp_Path part = part_path u n) parts → pres (other_files u) (cleanupMultipart u parts).
Proof.
  intros Hu Hparts. unfold cleanupMultipart, DeleteMultipartUpload, remove_file, remove_all.
  repeat pres_step; try (apply edit_files_other).
  - intros m u' n Hu' Hne Hn. match goal with Hx : _ ∈ parts |- _ => rewrite Forall_forall in Hparts; destruct (Hparts _ Hx) as (k & Hk & ->) end.
    apply lookup_delete_ne. intros Heq. by apply locate_part_inj in Heq as [-> _].
  - intros m u' n Hu' Hne Hn. destruct (m !! locate (part_path u' n)) as [data|] eqn:Hm.
    + apply map_lookup_filter_Some. split; [done|]. cbn [fst]. rewrite locate_part by done.
      unfold locate. rewrite path_elements_join_proper by (done || by repeat constructor).
      intros [rest Hrest]. rewrite <- app_assoc in Hrest. apply app_inv_head in Hrest. cbn in Hrest. by injection Hrest as <- _.
    + apply map_lookup_filter_None. by left.
  - intros w. unfold sql_write, sql, other_files. by destruct (env_db_fault _).
Qed.

Lemma cleanup_quiet u parts w : ∃ w', cleanupMultipart u parts w = (Ok tt, w')
  ∧ db_uploads (w_db w') = delete u (db_uploads (w_db w))
  ∧ db_parts (w_db w') = delete_where (λ x, (mp_UploadID x =? u)%string) (db_parts (w_db w)).
Proof.
  unfold cleanupMultipart. set (m1 := for_each _ _). set (m2 := remove_all _).
  assert (pres (on_db eq) m1) as P1 by (unfold m1, remove_file; pres_auto).
  assert (pres (on_db eq) m2) as P2 by (unfold m2, remove_all; pres_auto).
  unfold bind at 1. destruct (m1 w) as [[] w1] eqn:E1. unfold bind. cbn [fst snd]. destruct (m2 w1) as [[] w2] eqn:E2. cbn [fst snd].
  apply (pres_run _ _ _ _ _ P1) in E1. apply (pres_run _ _ _ _ _ P2) in E2. unfold on_db in *.
  unfold DeleteMultipartUpload, sql_write, sql. rewrite Hquiet. cbn [result_map].
  eexists. split; [reflexivity|]. rsimpl. unfold delete_upload_row. rsimpl. by rewrite <- E2, <- E1.
Qed.
End cleanup.

Section endings.
Context `{Env} `{!Pipelines} (Hquiet : no_db_faults) (Hstaging : has_staging).

Lemma staged_delete w w' u s : staged w s → other_files u w w' →
  db_uploads (w_db w') = delete u (db_uploads (w_db w)) →
  db_parts (w_db w') = delete_where (λ x, (mp_UploadID x =? u)%string) (db_parts (w_db w)) →
  staged w' (delete u s).
Proof.
  intros [Hu Hi Hr] Hfiles Hups Hparts. split.
  - intros u'. rewrite Hups. destruct (decide (u' = u)) as [->|Hne]; [by rewrite !lookup_delete_eq|].
    by rewrite !lookup_delete_ne.
  - intros u' [parts Hs]. apply lookup_delete_Some in Hs as [_ Hs]. apply Hi. by rewrite Hs.
  - intros u' n. specialize (Hr u' n). rewrite Hparts. unfold delete_where. unfold part_of at 1.
    destruct (decide (u' = u)) as [->|Hne].
    + rewrite lookup_delete_eq. cbn [mbind option_bind]. apply map_lookup_filter_None.
      destruct (part_of s u n); [|by left]. destruct Hr as (row & Hrow & [_ Hid _ _ _ _ _]). right.
      intros row' Hrow'. rewrite Hrow in Hrow'. injection Hrow' as <-. cbn [snd]. by rewrite Hid, String.eqb_refl.
    + rewrite lookup_delete_ne by done. fold (part_of s u' n).
      destruct (part_of s u' n) as [data|] eqn:Epart; [|apply map_lookup_filter_None; by left].
      destruct Hr as (row & Hrow & [? Hid ? ? ? ? Hf]). exists row. split.
      * apply map_lookup_filter_Some. split; [done|]. cbn [snd]. rewrite Hid. by apply String.eqb_neq.
      * split; try done. rewrite Hfiles; [done| |done|done]. apply Hi. unfold part_of in Epart. by destruct (s !! u').
Qed.

Lemma staged_create w w' u upload s : staged w s → proper_element u = true → db_uploads (w_db w) !! u = None →
  w_staging w' = w_staging w → db_parts (w_db w') = db_parts (w_db w) →
  db_uploads (w_db w') = <[u := upload]> (db_uploads (w_db w)) → staged w' (<[u := ∅]> s).
Proof.
  intros [Hu Hi Hr] Hproper Hnew Hfiles Hparts Hups.
  assert (s !! u = None) as Hs.
  { apply eq_None_not_Some. intros [parts Hs]. assert (is_Some (s !! u)) as Hsome by by rewrite Hs.
    apply Hu in Hsome as [x Hx]. by rewrite Hx in Hnew. }
  split.
  - intros u'. rewrite Hups. destruct (decide (u' = u)) as [->|]; [by rewrite !lookup_insert_eq|].
    by rewrite !lookup_insert_ne.
  - intros u'. destruct (decide (u' = u)) as [->|]; [done|]. rewrite lookup_insert_ne by done. apply Hi.
  - intros u' n. specialize (Hr u' n). rewrite Hparts.
    assert (part_of (<[u := ∅]> s) u' n = part_of s u' n) as ->.
    { unfold part_of. destruct (decide (u' = u)) as [->|]; [|by rewrite lookup_insert_ne]. rewrite lookup_insert_eq, Hs.
      unfold mbind, option_bind. apply lookup_empty. }
    destruct (part_of s u' n); [|done]. destruct Hr as (row & Hrow & [? ? ? ? ? ? Hf]). exists row. split; [done|].
    split; try done. by rewrite Hfiles.
Qed.

(** The rows listed for an upload are its parts. *)
Record listed_parts (s : Uploads) (u : string) (parts : list MultipartPart) : Prop := {
  lp_row : ∀ row, row ∈ parts → 1 ≤ mp_PartNumber row ≤ 10000 ∧ mp_Path row = part_path u (mp_PartNumber row);
  lp_unique : NoDup (mp_PartNumber <$> parts);
  lp_numbers : ∀ n, is_Some (part_of s u n) ↔ n ∈ mp_PartNumber <$> parts }.

Lemma staged_row_key w s u n row : staged w s → db_parts (w_db w) !! (u, n) = Some row → ∃ data, part_of s u n = Some data ∧ staged_row w s u n row data.
Proof.
  intros [_ _ Hr] Hrow. specialize (Hr u n). destruct (part_of s u n) as [data|]; [|by rewrite Hr in Hrow].
  destruct Hr as (row' & Hrow' & Hst). rewrite Hrow in Hrow'. injection Hrow' as <-. by exists data.
Qed.

Lemma ListMultipartParts_staged u w s parts w' : staged w s → ListMultipartParts_store u w = (Ok parts, w') → listed_parts s u parts.
Proof.
  intros Hst Hl. unfold ListMultipartParts_store in Hl. apply sql_read_inv in Hl as [[= <-] _].
  set (l := order_by _ _).
  assert (∀ row, row ∈ l ↔ ∃ n, db_parts (w_db w) !! (u, n) = Some row) as Hin.
  { intros row. unfold l. rewrite elem_of_order_by, elem_of_where, elem_of_rows, String.eqb_eq. split.
    - intros [([u' n] & Hrow) Hid]. destruct (staged_row_key _ _ _ _ _ Hst Hrow) as (data & _ & [_ Hid' _ _ _ _ _]).
      exists n. by rewrite <- Hid, Hid'.
    - intros (n & Hrow). destruct (staged_row_key _ _ _ _ _ Hst Hrow) as (data & _ & [_ Hid' _ _ _ _ _]). split; [by eexists|done]. }
  assert (∀ row n, db_parts (w_db w) !! (u, n) = Some row → mp_PartNumber row = n) as Hkey.
  { intros row n Hrow. by destruct (staged_row_key _ _ _ _ _ Hst Hrow) as (data & _ & []). }
  split.
  - intros row (n & Hrow)%Hin. destruct (staged_row_key _ _ _ _ _ Hst Hrow) as (data & _ & [Hn _ -> Hp _ _ _]). done.
  - apply NoDup_fmap_2_strong.
    + intros x y Hx Hy Heq. apply Hin in Hx as (n & Hx). apply Hin in Hy as (k & Hy). rewrite (Hkey _ _ Hx), (Hkey _ _ Hy) in Heq. subst k. by rewrite Hx in Hy; injection Hy.
    + unfold l. rewrite order_by_perm. unfold where_. apply NoDup_ListNoDup, List.NoDup_filter, NoDup_ListNoDup.
      apply (rows_NoDup (λ row, (mp_UploadID row, mp_PartNumber row))). intros [u' n] row Hrow.
      by destruct (staged_row_key _ _ _ _ _ Hst Hrow) as (data & _ & [_ -> -> _ _ _ _]).
  - intros n. rewrite list_elem_of_fmap. destruct Hst as [Hu Hi Hr]. split.
    + intros [data Hd]. specialize (Hr u n). rewrite Hd in Hr. destruct Hr as (row & Hrow & [? ? ? ? ? ? ?]).
      exists row. split; [done|]. apply Hin. by exists n.
    + intros (row & -> & Hrow). apply Hin in Hrow as (k & Hrow). rewrite (Hkey _ _ Hrow).
      destruct (staged_row_key w s u k row ltac:(by split) Hrow) as (data & -> & _). by eexists.
Qed.
End endings.

(** ** The order of the parts *)

Lemma order_parts_spec byNumber previous total requested ordered total' :
  order_parts byNumber previous total requested = Ok (ordered, total') →
  Forall2 (λ n row, byNumber !! n = Some row) requested ordered ∧ StronglySorted Z.lt (previous :: requested).
Proof.
  revert previous total ordered. induction requested as [|n requested IH]; intros previous total ordered; cbn [order_parts].
  - intros [= <- _]. split; [constructor|]. repeat constructor.
  - destruct (Z.leb_spec n previous) as [|Hlt]; [done|]. destruct (byNumber !! n) as [row|] eqn:Hrow; [|done]. intros Hrun.
    apply result_bind_Ok in Hrun as ([l t] & Hrest & [= <- <-]). apply IH in Hrest as [Hl Hs]. split; [by constructor|].
    constructor; [done|]. constructor; [done|]. apply StronglySorted_inv in Hs as [_ Hs]. eapply Forall_impl; [exact Hs|]. simpl. lia.
Qed.

Lemma parts_by_number (parts : list MultipartPart) n row : NoDup (mp_PartNumber <$> parts) →
  (fold_left (λ m part, <[mp_PartNumber part := part]> m) parts (∅ : gmap Z MultipartPart)) !! n = Some row →
  row ∈ parts ∧ mp_PartNumber row = n.
Proof.
  intros _. assert (∀ m : gmap Z MultipartPart, (∀ k r, m !! k = Some r → mp_PartNumber r = k) →
    fold_left (λ m part, <[mp_PartNumber part := part]> m) parts m !! n = Some row → (row ∈ parts ∨ m !! n = Some row) ∧ mp_PartNumber row = n) as Hgen.
  { induction parts as [|part parts IH]; intros m Hm Hrow; cbn [fold_left] in Hrow; [split; [by right|by apply Hm]|].
    apply IH in Hrow as [[Hin|Hrow] Hn].
    - split; [left; by constructor|done].
    - split; [|done]. apply lookup_insert_Some in Hrow as [[_ ->]|[_ Hrow]]; [left; constructor|by right].
    - intros k r [[<- <-]|[_ Hk]]%lookup_insert_Some; [done|by apply Hm]. }
  intros Hrow. destruct (Hgen ∅) as [[Hin|Hrow'] Hn]; [by intros k r Hk; rewrite lookup_empty in Hk|done|done|by rewrite lookup_empty in Hrow'].
Qed.

(** The requested numbers, or all of them. *)
Definition chosen (parts : gmap Z string) (requested : list Z) : list Z :=
  match requested with [] => part_numbers parts | _ => requested end.

Lemma sorted_numbers_unique l k : l ≡ₚ k → merge_sort Z.le l = merge_sort Z.le k.
Proof.
  intros Hp. assert (∀ l, StronglySorted Z.le (merge_sort Z.le l)) as Hs by (intros l'; apply StronglySorted_merge_sort; apply _).
  apply (StronglySorted_unique Z.le); [by apply Hs..|]. by rewrite !merge_sort_Permutation.
Qed.

Section complete.
Context `{Env} `{!Pipelines} (Hquiet : no_db_faults) (Hstaging : has_staging).

(** The numbers of an ordered list of rows are the chosen ones, in ascending
    order, and every row is one of the listed ones. *)
Lemma orderMultipartParts_staged s u m parts requested ordered total :
  s !! u = Some m → listed_parts s u parts → orderMultipartParts parts requested = Ok (ordered, total) →
  mp_PartNumber <$> ordered = chosen m requested ∧ (∀ row, row ∈ ordered → row ∈ parts) ∧ StronglySorted Z.lt (chosen m requested)
    ∧ ordered ≠ [].
Proof.
  intros Hs [Hrow Huniq Hnum] Hrun. unfold orderMultipartParts in Hrun. cbv zeta in Hrun.
  apply result_bind_Ok in Hrun as ([l t] & Hrun & Hne). cbn [fst] in Hne.
  assert (l = ordered ∧ ordered ≠ []) as [-> Hnonempty] by (destruct l; [done|by injection Hne as <- _]).
  apply order_parts_spec in Hrun as [Hl Hsorted]. apply StronglySorted_inv in Hsorted as [Hsorted _].
  assert (match requested with [] => merge_sort Z.le (mp_PartNumber <$> parts) | _ => requested end = chosen m requested) as Hchosen.
  { destruct requested as [|]; [|done]. apply sorted_numbers_unique. apply NoDup_Permutation; [done|apply NoDup_fst_map_to_list|].
    intros n. rewrite <- Hnum. unfold part_of. rewrite Hs. cbn [mbind option_bind]. rewrite list_elem_of_fmap. split.
    - intros [data Hd]. exists (n, data). split; [done|]. by apply elem_of_map_to_list.
    - intros ([n' data] & -> & Hd%elem_of_map_to_list). by exists data. }
  rewrite Hchosen in Hl, Hsorted. split_and!; [|..|done|done].
  - clear Hsorted Hne Hnonempty Hchosen. induction Hl as [|n row ns rows Hn _ IH]; [done|].
    apply parts_by_number in Hn as [_ Hn]; [|done]. rewrite fmap_cons, Hn. f_equal. done.
  - intros row Hin. apply list_elem_of_lookup in Hin as [i Hi]. destruct (Forall2_lookup_r _ _ _ _ _ Hl Hi) as (n & _ & Hn).
    by apply parts_by_number in Hn as [Hn _].
Qed.

Lemma openMultipartReader_same parts : pres same_uploads (openMultipartReader parts).
Proof.
  induction parts as [|part parts IH]; cbn [openMultipartReader]; [pres_auto|].
  apply pres_bind_ok; [apply _| |intros data; apply pres_bind_ok; [apply _|exact IH|intros l; pres_auto]].
  apply pres_wrap_err; [apply _|]. unfold open_file. apply pres_bind_ok; [apply _|apply same_uploads_pres; pres_auto|].
  intros [] w. cbn [snd]. apply reflexivity.
Qed.

Lemma openMultipartReader_content parts w l w' : openMultipartReader parts w = (Ok l, w') →
  Forall2 (λ part data, w_staging w !! locate (mp_Path part) = Some data) parts l.
Proof.
  revert w l w'. induction parts as [|part parts IH]; intros w l w' Hrun; cbn [openMultipartReader] in Hrun.
  - injection Hrun as <- _. constructor.
  - run_inv Hrun as data w1 Hopen. run_inv Hrun as rest w2 Hrest. injection Hrun as <- _.
    apply wrap_err_cases in Hopen as [(a & [= <-] & Hopen)|(e & He & _)]; [|done].
    unfold open_file in Hopen. run_inv Hopen as [] w3 Hfile. injection Hopen as Hdata <-.
    assert (w_staging w3 = w_staging w) as Hst by (unfold file_op in Hfile; by injection Hfile as _ <-).
    apply IH in Hrest. rewrite Hst in Hdata, Hrest. constructor; [|exact Hrest].
    destruct (w_staging w !! _); [by injection Hdata as ->|done].
Qed.
End complete.

(** ** The operations and what they promise *)

Inductive UploadOp : Type :=
| CreateUpload (bucket key contentType : string)
| PutPart (uploadID : string) (partNumber : Z) (body : Reader)
| AbortUpload (uploadID : string)
| CompleteUpload (uploadID : string) (requested : list Z).

(** The texts an operation may hand to a provider. *)
Definition sent (op : UploadOp) (s : Uploads) : list string :=
  match op with
  | CompleteUpload u requested => let parts := default ∅ (s !! u) in [assembled parts (chosen parts requested)]
  | _ => []
  end.

(** The promise: an operation that fails changes nothing, and one that succeeds
    does this. *)
Inductive spec_step : UploadOp → result string → Uploads → Uploads → Prop :=
| spec_create b k ct id s : s !! id = None → spec_step (CreateUpload b k ct) (Ok id) s (<[id := ∅]> s)
| spec_part u n body parts s : s !! u = Some parts → 1 ≤ n ≤ 10000 →
    spec_step (PutPart u n body) (Ok "") s (<[u := <[n := rd_data body]> parts]> s)
| spec_abort u s : spec_step (AbortUpload u) (Ok "") s (delete u s)
| spec_complete u requested parts s : s !! u = Some parts →
    chosen parts requested ≠ [] → StronglySorted Z.lt (chosen parts requested) →
    Forall (λ n, is_Some (parts !! n)) (chosen parts requested) →
    spec_step (CompleteUpload u requested) (Ok "") s (delete u s)
| spec_refused op e s : spec_step op (Err e) s s.

Inductive spec_run : list UploadOp → list (result string) → list string → Uploads → Uploads → Prop :=
| spec_done s : spec_run [] [] [] s s
| spec_more op outcome ops outcomes texts s1 s2 s3 :
    spec_step op outcome s1 s2 → spec_run ops outcomes texts s2 s3 →
    spec_run (op :: ops) (outcome :: outcomes) (sent op s1 ++ texts) s1 s3.

Section refinement.
Context `{Env} `{!Pipelines}.

Definition run_upload_op (op : UploadOp) : M (result string) :=
  match op with
  | CreateUpload b k ct => let? upload := CreateMultipartUpload b k ct in ret_ok (mu_UploadID upload)
  | PutPart u n body => let? _ := UploadPart u n body in ret_ok ""
  | AbortUpload u => let? _ := AbortMultipartUpload u in ret_ok ""
  | CompleteUpload u requested => let? _ := CompleteMultipartUpload u requested in ret_ok ""
  end.

Fixpoint run_upload_ops (ops : list UploadOp) : M (list (result string)) :=
  match ops with
  | [] => ret []
  | op :: ops => let! outcome := run_upload_op op in let! outcomes := run_upload_ops ops in ret (outcome :: outcomes)
  end.

(** An abort names an upload as the service names them: one proper path
    element. *)
Definition names_upload (op : UploadOp) : Prop := match op with AbortUpload u => proper_element u = true | _ => True end.

(** What the environment is assumed to give: a database that answers, a staging
    directory, limits below the largest integer, random identifiers that are
    file names. *)
Record upload_env : Prop := {
  ue_quiet : no_db_faults;
  ue_staging : has_staging;
  ue_part : max_part < int64_max;
  ue_upload : max_upload < int64_max;
  ue_random : ∀ n bytes, proper_element (env_random n bytes) = true }.

Context (Henv : upload_env).

Lemma create_step b k ct w s r w' : staged w s → CreateMultipartUpload b k ct w = (r, w') →
  same_calls w w' ∧ match r with
                    | Ok upload => s !! mu_UploadID upload = None ∧ staged w' (<[mu_UploadID upload := ∅]> s)
                    | Err _ => staged w' s
                    end.
Proof.
  intros Hst Hrun. destruct Henv as [Hq _ _ _ Hrandom]. unfold CreateMultipartUpload in Hrun. split.
  { eapply (pres_run same_calls); [|exact Hrun]. unfold CreateMultipartUpload_store. pres_auto. frame_auto. }
  apply bind_ok_cases in Hrun as [(e & Hb & ->)|(bucket & w1 & Hb & Hrun)];
    apply (pres_run same_uploads) in Hb; try (apply same_uploads_pres; frame_auto); [by apply (staged_same w)|].
  apply (staged_same w w1) in Hst; [|done]. clear Hb. apply bind_inv in Hrun as (id & w2 & Hid & Hrun).
  injection Hid as <- <-. cbv zeta in Hrun. unfold CreateMultipartUpload_store in Hrun.
  apply bind_ok_cases in Hrun as [(e & Hc & ->)|([] & w2 & Hc & Hrun)];
    apply bind_inv in Hc as (t & w3 & Hnow & Hc); injection Hnow as <- <-;
    unfold sql_write, sql, create_upload_row in Hc; rewrite Hq in Hc;
    set (upload := (if is_zero _ then _ else _) <| mu_UpdatedAt := _ |>) in Hc;
    assert (mu_UploadID upload = env_random (w_draws w1) 16) as Hid by (unfold upload; by destruct (is_zero _)); rewrite Hid in Hc;
    clearbody upload; rsimpl; destruct (db_uploads (w_db w1) !! env_random (w_draws w1) 16) as [old|] eqn:Hold; try discriminate Hc.
  - injection Hc as _ <-. apply (staged_same w1); [done|exact Hst].
  - injection Hc as <-. injection Hrun as <- <-. rsimpl. change ("" +:+ ?x) with x. split.
    + apply eq_None_not_Some. intros Hs. apply (st_uploads _ _ Hst) in Hs as [x Hx]. by rewrite Hx in Hold.
    + by apply (staged_create w1 _ _ upload); [| |exact Hold|..].
Qed.

Lemma part_step u n body w s r w' : staged w s → UploadPart u n body w = (r, w') →
  same_calls w w' ∧ match r with
                    | Ok _ => 1 ≤ n ≤ 10000 ∧ ∃ parts, s !! u = Some parts ∧ staged w' (<[u := <[n := rd_data body]> parts]> s)
                    | Err _ => staged w' s
                    end.
Proof.
  intros Hst Hrun. destruct Henv as [Hq Hstaging Hmax _ _]. split.
  { eapply (pres_run same_calls); [|exact Hrun]. unfold UploadPart, GetMultipartUpload, receive_part, write_file, UpsertMultipartPart. pres_auto. }
  apply UploadPart_cases in Hrun as [[Hr Hsame]|(Hr & Hn & Hup & Hfiles & Hups & row & Hparts & Hrow)]; [..|done|done].
  - destruct r; [done|]. by apply (staged_same w).
  - destruct r as [part|]; [|done]. split; [done|]. apply (st_uploads _ _ Hst) in Hup as [parts Hs]. exists parts. split; [done|].
    apply (staged_put Hstaging w w' s u n row); [done..|by destruct Hrow|done|done|done].
Qed.

Lemma abort_step u w s r w' : staged w s → proper_element u = true → AbortMultipartUpload u w = (r, w') →
  same_calls w w' ∧ r = Ok tt ∧ staged w' (delete u s).
Proof.
  intros Hst Hu Hrun. destruct Henv as [Hq Hstaging _ _ _]. split.
  { eapply (pres_run same_calls); [|exact Hrun]. unfold AbortMultipartUpload, cleanupMultipart, remove_file, remove_all, DeleteMultipartUpload, ListMultipartParts_store. pres_auto. }
  unfold AbortMultipartUpload in Hrun. apply bind_inv in Hrun as (listed & w1 & Hl & Hrun).
  assert (Forall (λ part, ∃ n, 1 ≤ n ≤ 10000 ∧ mp_Path part = part_path u n) (match listed with Ok parts => parts | Err _ => [] end)) as Hparts.
  { destruct listed as [parts|]; [|constructor]. apply Forall_forall. intros row Hin.
    destruct (ListMultipartParts_staged _ _ _ _ _ Hst Hl) as [Hrow _ _]. exists (mp_PartNumber row). by apply Hrow. }
  apply (pres_run same_uploads) in Hl; [|apply same_uploads_pres; unfold ListMultipartParts_store; pres_auto].
  apply (staged_same w w1) in Hst; [|done].
  destruct (cleanup_quiet Hq u (match listed with Ok parts => parts | Err _ => [] end) w1) as (w2 & Hclean & Hups & Hrows).
  pose proof (pres_run _ _ _ _ _ (cleanup_other Hstaging u _ Hu Hparts) Hclean) as Hother.
  rewrite Hclean in Hrun. injection Hrun as <- <-. split; [done|]. by apply (staged_delete w1).
Qed.

(** What reading the rows and the files of the parts gives. *)
Lemma read_parts_step u requested w s parts ordered total contents w1 w2 :
  staged w s → ListMultipartParts_store u w = (Ok parts, w1) → orderMultipartParts parts requested = Ok (ordered, total) →
  openMultipartReader ordered w1 = (Ok contents, w2) → is_Some (s !! u) →
  ∃ m, s !! u = Some m ∧ chosen m requested ≠ [] ∧ StronglySorted Z.lt (chosen m requested)
    ∧ Forall (λ n, is_Some (m !! n)) (chosen m requested)
    ∧ String.concat "" contents = assembled m (chosen m requested)
    ∧ Forall (λ part, ∃ n, 1 ≤ n ≤ 10000 ∧ mp_Path part = part_path u n) ordered.
Proof.
  intros Hst Hl Ho Hopen [m Hs]. exists m. pose proof (ListMultipartParts_staged _ _ _ _ _ Hst Hl) as Hlisted.
  destruct (orderMultipartParts_staged s u m parts requested ordered total Hs Hlisted Ho) as (Hnum & Hin & Hsorted & Hne).
  apply (pres_run same_files) in Hl; [|unfold ListMultipartParts_store; pres_auto].
  apply openMultipartReader_content in Hopen. unfold same_files in Hl. rewrite Hl in Hopen.
  assert (Forall (λ row, ∃ data, m !! mp_PartNumber row = Some data ∧ w_staging w !! locate (mp_Path row) = Some data
            ∧ 1 ≤ mp_PartNumber row ≤ 10000 ∧ mp_Path row = part_path u (mp_PartNumber row)) ordered) as Hrows.
  { apply Forall_forall. intros row Hrow. destruct Hlisted as [Hr _ Hn]. destruct (Hr row (Hin _ Hrow)) as [Hrange Hpath].
    assert (is_Some (part_of s u (mp_PartNumber row))) as [data Hd] by (apply Hn; apply list_elem_of_fmap; eauto).
    pose proof (st_rows _ _ Hst u (mp_PartNumber row)) as Hrow'. rewrite Hd in Hrow'. destruct Hrow' as (row' & _ & [_ _ _ _ _ _ Hfile]).
    exists data. split_and!; [|by rewrite Hpath|lia|lia|done]. unfold part_of in Hd. by rewrite Hs in Hd. }
  rewrite <- Hnum. split_and!; [done|by destruct ordered|by rewrite Hnum| | |].
  - apply Forall_fmap. eapply Forall_impl; [exact Hrows|]. intros row (data & Hd & _). by exists data.
  - unfold assembled. f_equal. clear Hnum Hin Hsorted Hne Ho. induction Hopen as [|row data ordered contents Hfile _ IH]; [done|].
    apply Forall_cons in Hrows as [(data' & Hd & Hfile' & _) Hrows]. rewrite Hfile in Hfile'. injection Hfile' as <-.
    rewrite fmap_cons. cbn [omap list_omap]. rewrite Hd. f_equal. by apply IH.
  - eapply Forall_impl; [exact Hrows|]. intros row (data & _ & _ & Hrange & Hpath). by exists (mp_PartNumber row).
Qed.

Lemma openMultipartReader_calls parts : pres same_calls (openMultipartReader parts).
Proof.
  induction parts as [|part parts IH]; cbn [openMultipartReader]; [pres_auto|].
  apply pres_bind_ok; [apply _| |intros data; apply pres_bind_ok; [apply _|exact IH|intros l; pres_auto]].
  apply pres_wrap_err; [apply _|]. unfold open_file. apply pres_bind_ok; [apply _|pres_auto|]. by intros [] w.
Qed.

Lemma collect_parts_pres R u requested `{!PreOrder R} :
  (∀ parts, pres R (openMultipartReader parts)) → pres R (GetMultipartUpload u) → pres R (ListMultipartParts_store u) →
  pres R (collect_parts u requested).
Proof. intros Hopen Hget Hl. unfold collect_parts, too_large. pres_auto; done. Qed.

Lemma collect_parts_same u requested : pres same_uploads (collect_parts u requested).
Proof.
  apply collect_parts_pres; [apply _|apply openMultipartReader_same|..]; apply same_uploads_pres;
    unfold GetMultipartUpload, ListMultipartParts_store; pres_auto.
Qed.

Lemma collect_parts_calls u requested : pres same_calls (collect_parts u requested).
Proof.
  apply collect_parts_pres; [apply _|apply openMultipartReader_calls|..]; unfold GetMultipartUpload, ListMultipartParts_store; pres_auto.
Qed.

Lemma collect_parts_run u requested w s upload ordered total contents w' :
  staged w s → collect_parts u requested w = (Ok (upload, ordered, total, contents), w') →
  ∃ m, s !! u = Some m ∧ chosen m requested ≠ [] ∧ StronglySorted Z.lt (chosen m requested)
    ∧ Forall (λ n, is_Some (m !! n)) (chosen m requested)
    ∧ String.concat "" contents = assembled m (chosen m requested)
    ∧ Forall (λ part, ∃ n, 1 ≤ n ≤ 10000 ∧ mp_Path part = part_path u n) ordered.
Proof.
  intros Hst Hrun. unfold collect_parts in Hrun. run_inv Hrun as x w1 Hget.
  assert (is_Some (s !! u)) as Hup.
  { unfold GetMultipartUpload in Hget. apply sql_read_inv in Hget as [Hget _]. apply (st_uploads _ _ Hst). by destruct (db_uploads (w_db w) !! u). }
  apply (pres_run same_uploads) in Hget; [|apply same_uploads_pres; unfold GetMultipartUpload; pres_auto].
  apply (staged_same w w1) in Hst; [|done]. run_inv Hrun as parts w2 Hl. run_inv Hrun as [o t] w3 Ho.
  injection Ho as Ho <-. destruct (max_upload <? t); [done|]. run_inv Hrun as l w3 Hopen. injection Hrun as <- <- <- <- _.
  by eapply read_parts_step.
Qed.

Lemma complete_step u requested w s r w' : staged w s → CompleteMultipartUpload u requested w = (r, w') →
  calls_only (λ c, Exists (λ text, puts text c) (sent (CompleteUpload u requested) s)) w w' ∧
  match r with
  | Ok _ => ∃ parts, s !! u = Some parts ∧ chosen parts requested ≠ [] ∧ StronglySorted Z.lt (chosen parts requested)
            ∧ Forall (λ n, is_Some (parts !! n)) (chosen parts requested) ∧ staged w' (delete u s)
  | Err _ => staged w' s
  end.
Proof.
  intros Hst Hrun. destruct Henv as [Hq Hstaging _ Hmax _]. unfold CompleteMultipartUpload in Hrun.
  apply bind_ok_cases in Hrun as [(e & Hc & ->)|([[[upload ordered] total] contents] & w1 & Hc & Hrun)];
    pose proof (pres_run _ _ _ _ _ (collect_parts_same u requested) Hc) as Hsame;
    pose proof (pres_run _ _ _ _ _ (collect_parts_calls u requested) Hc) as Hcalls.
  { split; [by apply same_calls_only|by apply (staged_same w)]. }
  destruct (collect_parts_run _ _ _ _ _ _ _ _ _ Hst Hc) as (m & Hs & Hne & Hsorted & Hall & Htext & Hparts).
  apply (staged_same w w1) in Hst; [|done]. cbn [sent]. rewrite Hs. cbn [default from_option id].
  set (text := assembled m (chosen m requested)) in *.
  assert (∀ v v', calls_only (puts text) v v' → calls_only (λ c, Exists (λ t, puts t c) [text]) v v') as Hputs.
  { intros v v' (l & Hl & Hall'). exists l. split; [done|]. eapply Forall_impl; [exact Hall'|]. intros c Hx. by constructor. }
  apply bind_ok_cases in Hrun as [(e & Hput & ->)|(obj & w2 & Hput & Hrun)];
    pose proof (pres_run _ _ _ _ _ (same_uploads_pres _ (PutObject_tables _ _) (PutObject_files _ _)) Hput) as Hsame2;
    pose proof (pres_run _ _ _ _ _ (PutObject_puts _ _ Hmax) Hput) as Hputs2; cbn [rd_data] in Hputs2; rewrite Htext in Hputs2.
  { split; [|by apply (staged_same w1)]. apply Hputs. etrans; [by apply same_calls_only|done]. }
  apply (staged_same w1 w2) in Hst; [|done]. apply bind_inv in Hrun as ([] & w3 & Hclean & Hrun). injection Hrun as <- <-.
  unfold ignore in Hclean. apply bind_inv in Hclean as (rc & w4 & Hclean & Hend). injection Hend as <-.
  destruct (cleanup_quiet Hq u ordered w2) as (w5 & Hrun & Hups & Hrows).
  assert (proper_element u = true) as Hu by (apply (st_ids _ _ Hst); by rewrite Hs).
  pose proof (pres_run _ _ _ _ _ (cleanup_other Hstaging u ordered Hu Hparts) Hclean) as Hother.
  assert (same_calls w2 w4) as Hcalls4.
  { eapply (pres_run same_calls); [|exact Hclean]. unfold cleanupMultipart, remove_file, remove_all, DeleteMultipartUpload. pres_auto. }
  rewrite Hclean in Hrun. injection Hrun as -> ->. split.
  - apply Hputs. etrans; [by apply same_calls_only|]. etrans; [done|]. by apply same_calls_only.
  - exists m. split_and!; try done. by apply (staged_delete w2).
Qed.

Lemma upload_step op w s outcome w' : staged w s → names_upload op → run_upload_op op w = (outcome, w') →
  calls_only (λ c, Exists (λ text, puts text c) (sent op s)) w w' ∧ ∃ s', spec_step op outcome s s' ∧ staged w' s'.
Proof.
  intros Hst Hop Hrun. destruct op as [b k ct|u n body|u|u requested]; cbn [run_upload_op sent] in *;
    apply bind_ok_cases in Hrun as [(e & Hrun & ->)|(x & w1 & Hrun & Hend)]; try (injection Hend as <- <-).
  - apply (create_step _ _ _ _ s) in Hrun as [Hc Hst']; [|done]. split; [by apply same_calls_only|]. exists s. by split; [constructor|].
  - apply (create_step _ _ _ _ s) in Hrun as [Hc [Hnew Hst']]; [|done]. split; [by apply same_calls_only|]. eexists. split; [by constructor|done].
  - apply (part_step _ _ _ _ s) in Hrun as [Hc Hst']; [|done]. split; [by apply same_calls_only|]. exists s. by split; [constructor|].
  - apply (part_step _ _ _ _ s) in Hrun as [Hc (Hn & parts & Hs & Hst')]; [|done]. split; [by apply same_calls_only|].
    eexists. split; [by econstructor|done].
  - apply (abort_step _ _ s) in Hrun as (_ & He & _); done.
  - apply (abort_step _ _ s) in Hrun as (Hc & _ & Hst'); [|done..]. split; [by apply same_calls_only|]. eexists. split; [constructor|done].
  - apply (complete_step _ _ _ s) in Hrun as [Hc Hst']; [|done]. split; [done|]. exists s. by split; [constructor|].
  - apply (complete_step _ _ _ s) in Hrun as [Hc (parts & Hs & Hne & Hsorted & Hall & Hst')]; [|done]. split; [done|].
    eexists. split; [by econstructor|done].
Qed.

(** C4. Multipart uploads refine the map they stand for: whatever clients do
    (create, put parts in any order and again, complete, abort), in any order
    and with any file faults, the outcomes are those of a map from uploads to
    numbered parts, and the only texts handed to providers are, for every
    completion, the chosen parts put together in ascending order. *)
Theorem multipart_refines ops w s outcomes w' : staged w s → Forall names_upload ops →
  run_upload_ops ops w = (outcomes, w') →
  ∃ texts s', spec_run ops outcomes texts s s' ∧ staged w' s'
    ∧ calls_only (λ c, Exists (λ text, puts text c) texts) w w'.
Proof.
  revert w s outcomes. induction ops as [|op ops IH]; intros w s outcomes Hst Hops Hrun; cbn [run_upload_ops] in Hrun.
  - injection Hrun as <- <-. exists [], s. split; [constructor|]. split; [done|apply reflexivity].
  - apply Forall_cons in Hops as [Hop Hops]. apply bind_inv in Hrun as (outcome & w1 & H1 & Hrun).
    apply bind_inv in Hrun as (rest & w2 & H2 & Hrun). injection Hrun as <- <-.
    apply (upload_step _ _ s) in H1 as [Hc (s1 & Hstep & Hst1)]; [|done..].
    destruct (IH _ _ _ Hst1 Hops H2) as (texts & s2 & Hspec & Hst2 & Hc2). exists (sent op s ++ texts), s2.
    split; [by econstructor|]. split; [done|].
    etrans; (eapply calls_only_impl; [|eassumption]); intros c Hx; apply Exists_app; [by left|by right].
Qed.
End refinement.

Lemma staged_empty `{Env} w : db_uploads (w_db w) = ∅ → db_parts (w_db w) = ∅ → staged w ∅.
Proof.
  intros Hu Hp. split.
  - intros u. by rewrite Hu, !lookup_empty.
  - intros u. rewrite lookup_empty. by intros [? [=]].
  - intros u n. by rewrite Hp, lookup_empty.
Qed.

(** The demo environment with upload identifiers of five digits. *)
Definition numbered_env : Env :=
  MkEnv quiet_config (λ _, demo_time) (λ n _, padded 5 (Z.of_nat n)) (λ _, None) (λ _, None) "" demo_registry
    (λ s, Ok s) (λ _ s, Ok s) (λ _ _ _ _ _, Ok 200).

Lemma numbered_upload_env : @upload_env numbered_env.
Proof.
  split; [done|done|done|done|]. intros n bytes. change (env_random n bytes) with (padded 5 (Z.of_nat n)).
  pose proof (padded_length 5 (Z.of_nat n)) as Hlen. unfold proper_element.
  rewrite !(proj2 (String.eqb_neq (padded 5 _) _)) by (intros E; by rewrite E in Hlen). by rewrite padded_no_byte by set_solver.
Qed.

Definition demo_uploads : list UploadOp :=
  [CreateUpload "b" "k" "text/plain"; PutPart "00000" 2 (MkReader "world" None); PutPart "00000" 1 (MkReader "hello " None);
   CompleteUpload "00000" []].

Lemma multipart_refines_witness :
  let run := @run_upload_ops numbered_env _ demo_uploads (start (single_db demo_bucket)) in
  ∃ texts s', spec_run demo_uploads run.1 texts ∅ s' ∧ @staged numbered_env run.2 s'
    ∧ calls_only (λ c, Exists (λ text, puts text c) texts) (start (single_db demo_bucket)) run.2.
Proof.
  cbv zeta. apply (@multipart_refines numbered_env _ numbered_upload_env); [by apply staged_empty|by repeat constructor|apply surjective_pairing].
Defined.

(** Completing hands over the parts in ascending order. *)
Example demo_assembled : sent (CompleteUpload "00000" []) {[ "00000" := {[ 2 := "world"; 1 := "hello " ]} ]} = ["hello world"].
Proof. vm_compute. reflexivity. Qed.

(** Aborting needs no upload: the identifier of the request is joined to
    the staging directory as it is, so the identifier [..] removes every local
    file under the directory above the staging directory, the files of other
    uploads and whatever else is there, without looking at any table. *)
Theorem abort_reaches_other_files `{Env} w parent d loc :
  has_staging → (∀ n, env_fs_fault n = None) →
  locate (cfg_MultipartStagingDir env_config) = parent ++ [d] →
  filepath_join [cfg_MultipartStagingDir env_config; ".."] ≠ "." →
  parent `prefix_of` loc → w_staging (AbortMultipartUpload ".." w).2 !! loc = None.
Proof.
  intros Hstaging Hfs Hparent Hdot Hloc. unfold AbortMultipartUpload, cleanupMultipart. unfold bind at 1.
  set (parts := match _ with Ok _ => _ | Err _ => _ end). set (w1 := (ListMultipartParts_store ".." w).2).
  unfold bind at 1. set (w2 := (for_each parts _ w1).2). unfold bind at 1.
  set (path := filepath_join _) in *.
  assert ((remove_all path w2).2 = (w2 <| w_files ::= S |>) <| w_staging ::= files_outside (locate path) |>) as ->.
  { unfold remove_all. rewrite (proj2 (String.eqb_neq _ ".")) by done. unfold ignore, edit_files, bind_ok, bind, file_op.
    by rewrite Hfs. }
  match goal with |- w_staging (DeleteMultipartUpload _ ?w3).2 !! _ = _ =>
    assert (same_files w3 (DeleteMultipartUpload ".." w3).2) as -> by (apply files_sql_write) end.
  rsimpl. unfold files_outside. apply map_lookup_filter_None. right. intros data _. cbn [fst]. intros Hn. apply Hn.
  assert (locate path = parent) as ->; [|done]. unfold path, locate. rewrite path_elements_join by done.
  change (path_elements env_cwd ?p) with (locate p). rewrite Hparent, rev_app_distr.
  change (string_split "/" (string_join "/" [".."])) with [".."]. cbn [rev app fold_left].
  assert (proper_element d = true) as Hd.
  { pose proof (path_elements_proper env_cwd (cfg_MultipartStagingDir env_config)) as Hp. change (path_elements env_cwd ?p) with (locate p) in Hp.
    rewrite Hparent in Hp. apply Forall_app in Hp as [_ Hp]. by inversion Hp. }
  unfold clean_push. cbn [String.eqb orb]. destruct (String.eqb_spec d ".."); [by subst|]. apply rev_involutive.
Qed.

(** With the staging directory [/data/multipart] the database next to it goes. *)
Definition data_env : Env :=
  MkEnv (MkConfig 1000000 false "/data/multipart" 100000 1000 30000 1000000 1000 1000 3 "root" "secret" "auto")
    (λ _, demo_time) (λ n _, padded 5 (Z.of_nat n)) (λ _, None) (λ _, None) "" demo_registry
    (λ s, Ok s) (λ _ s, Ok s) (λ _ _ _ _ _, Ok 200).

Lemma abort_reaches_other_files_witness :
  w_staging (@AbortMultipartUpload data_env ".." ((start empty_DB) <| w_staging := {[ ["data"; "bucketmux.db"] := "rows" ]} |>)).2
    !! ["data"; "bucketmux.db"] = None.
Proof.
  apply (@abort_reaches_other_files data_env _ ["data"] "multipart"); [done|done|reflexivity|done|].
  by exists ["bucketmux.db"].
Defined.
