(* ===== verification/Replication.v ===== *)
(** Copying objects to their replica accounts, [app/replication_queue.go]: one
    claimed job, its verification, its retries and the status of the object. *)
From S2P Require Import Prelude GoTime Sha256 Text Domain ProviderErrors World Sql StoreProviders StoreObjects StoreEvents Placement Providers Service.

(** The status of an object from those of its replicas. *)
Definition count_status (status : string) (replicas : list ObjectReplica) : nat :=
  List.length (List.filter (λ r, (rp_Status r =? status)%string) replicas).

Definition object_replica_status (replicas : list ObjectReplica) : string :=
  match replicas with
  | [] => "none"
  | _ =>
      let n := List.length replicas in
      let succeeded := count_status "succeeded" replicas in
      let failed := count_status "failed" replicas in
      if Nat.eqb succeeded n then "completed"
      else if Nat.ltb 0 succeeded then "partial"
      else if Nat.eqb failed n then "failed"
      else "pending"
  end.

(** [time.Duration(1<<min(attempts, 8)) * time.Second] *)
Definition replica_retry_delay (attempts : Z) : Duration := duration_mul (2 ^ Z.min attempts 8) second.

(** What a failure makes of a replica row; the next attempt is set from [t]. *)
Definition failed_replica (replica : ObjectReplica) (cause : error) : ObjectReplica :=
  let replica := if rp_Attempts replica =? 0 then replica <| rp_Attempts := 1 |> else replica in
  let replica := if rp_MaxAttempts replica <=? 0 then replica <| rp_MaxAttempts := 5 |> else replica in
  let replica := replica <| rp_Error := error_text cause |> in
  if rp_Attempts replica <? rp_MaxAttempts replica then replica <| rp_Status := "pending" |>
  else replica <| rp_Status := "failed" |>.

Definition replica_alert (obj : ObjectRecord) (providerID : string) (cause : error) : Alert :=
  zero_Alert <| al_DedupeKey := "replica:" +:+ o_Bucket obj +:+ ":" +:+ o_Key obj +:+ ":" +:+ providerID |>
    <| al_Type := AlertTypeReplicaFailed |> <| al_Severity := AlertSeverityCritical |>
    <| al_ProviderAccountID := providerID |> <| al_Bucket := o_Bucket obj |> <| al_Key := o_Key obj |>
    <| al_Message := error_text cause |>.

Section replication.
Context `{Env}.

Definition refreshObjectReplicaStatus (bucket key : string) : M (result unit) :=
  let? obj := GetObject_store bucket key in
  let? replicas := ListObjectReplicas bucket key in
  PutObject_store (obj <| o_ReplicaStatus := object_replica_status replicas |>).

Definition failObjectReplica (obj : ObjectRecord) (providerID : string) (cause : error) : M (result unit) :=
  let! listed := ListObjectReplicas (o_Bucket obj) (o_Key obj) in
  let found := match listed with
               | Ok replicas => List.find (λ r, (rp_ProviderAccountID r =? providerID)%string) replicas
               | Err _ => None
               end in
  let fresh := zero_ObjectReplica <| rp_Bucket := o_Bucket obj |> <| rp_Key := o_Key obj |>
    <| rp_ProviderAccountID := providerID |> <| rp_Size := o_Size obj |>
    <| rp_ChecksumSHA256 := o_ChecksumSHA256 obj |> <| rp_MaxAttempts := 5 |> in
  let replica := failed_replica (default fresh found) cause in
  let! replica := (if (rp_Status replica =? "pending")%string
                   then let! t := now in
                        ret (replica <| rp_NextAttemptAt := add_time t (replica_retry_delay (rp_Attempts replica)) |>)
                   else let! _ := raiseAlert (replica_alert obj providerID cause) in ret replica) in
  let! _ := ignore (UpsertObjectReplica replica) in
  let! _ := ignore (refreshObjectReplicaStatus (o_Bucket obj) (o_Key obj)) in
  ret_err cause.

Definition failObjectReplicaPermanently (obj : ObjectRecord) (providerID : string) (cause : error) : M (result unit) :=
  let! _ := ignore (UpsertObjectReplica (zero_ObjectReplica <| rp_Bucket := o_Bucket obj |> <| rp_Key := o_Key obj |>
    <| rp_ProviderAccountID := providerID |> <| rp_Size := o_Size obj |> <| rp_ChecksumSHA256 := o_ChecksumSHA256 obj |>
    <| rp_Status := "failed" |> <| rp_Error := error_text cause |> <| rp_Attempts := 1 |> <| rp_MaxAttempts := 1 |>)) in
  let! _ := raiseAlert (replica_alert obj providerID cause) in
  let! _ := ignore (refreshObjectReplicaStatus (o_Bucket obj) (o_Key obj)) in
  ret_err cause.

(** The checksum of the copy: the one the provider reports, or the hash of the
    bytes it serves. *)
Definition replica_checksum (adapter : Adapter) (account : ProviderAccount) (replica head : ObjectRecord) : M (result string) :=
  if negb (o_ChecksumSHA256 head =? "")%string then ret_ok (o_ChecksumSHA256 head)
  else
    let? got := wrap_err "read replica for checksum verification" (adapter_get adapter account replica) in
    let '(body, _) := got in
    match rd_err body with
    | Some e => ret_err (ErrWrap "hash replica for verification" e)
    | None => ret_ok (sha256_hex (rd_data body))
    end.

Definition verifyReplica (adapter : Adapter) (account : ProviderAccount) (replica : ObjectRecord)
    (expectedSize : Z) (expectedChecksum : string) : M (result unit) :=
  let? head := wrap_err "head replica for verification" (adapter_head adapter account replica) in
  if negb (o_Size head =? expectedSize)
  then ret_err (ErrText ("replica verification mismatch: size=" +:+ itoa (o_Size head) +:+ " want=" +:+ itoa expectedSize))
  else if (expectedChecksum =? "")%string then ret_ok tt
  else
    let? checksum := replica_checksum adapter account replica head in
    if negb (equal_fold checksum expectedChecksum) 
    then ret_err (ErrText ("replica checksum mismatch: checksum=" +:+ quoted checksum +:+ " want=" +:+ quoted expectedChecksum))
    else ret_ok tt.

(** The attempts the row of the copy has on record. *)
Definition recorded_attempts (obj : ObjectRecord) (providerID : string) : M (Z * Z) :=
  let! listed := ListObjectReplicas (o_Bucket obj) (o_Key obj) in
  ret (match listed with
       | Ok replicas =>
           match List.find (λ r, (rp_ProviderAccountID r =? providerID)%string) replicas with
           | Some current => (Z.max (rp_Attempts current) 1, Z.max (rp_MaxAttempts current) 1)
           | None => (1, 5)
           end
       | Err _ => (1, 5)
       end).

Definition stored_replica (obj : ObjectRecord) (providerID : string) (stored : StoredObject) : ObjectRecord :=
  zero_ObjectRecord <| o_Bucket := o_Bucket obj |> <| o_Key := o_Key obj |> <| o_ProviderAccountID := providerID |>
    <| o_RemoteBucket := st_RemoteBucket stored |> <| o_RemoteKey := st_RemoteKey stored |> <| o_Size := st_Size stored |>
    <| o_ETag := st_ETag stored |> <| o_ChecksumSHA256 := st_ChecksumSHA256 stored |>.

(** After the bytes reached the account: verify, commit, record. *)
Definition finish_replica (obj : ObjectRecord) (providerID resID : string) (account : ProviderAccount) (stored : StoredObject)
    : M (result unit) :=
  let stored := if (st_ChecksumSHA256 stored =? "")%string then stored <| st_ChecksumSHA256 := o_ChecksumSHA256 obj |> else stored in
  let abandon cause := let! _ := ignore (ReleaseProviderReservation resID) in failObjectReplica obj providerID cause in
  match providerForReplica account with
  | Err e => abandon e
  | Ok (decrypted, adapter) =>
      let record := stored_replica obj providerID stored in
      let! verified := verifyReplica adapter decrypted record (o_Size obj) (o_ChecksumSHA256 obj) in
      match verified with
      | Err e => let! _ := adapter_delete adapter decrypted record in abandon e
      | Ok _ =>
          let! committed := CommitProviderReservation resID (st_Size stored) in
          match committed with
          | Err e => abandon e
          | Ok _ =>
              let! a := recorded_attempts obj providerID in
              let '(attempts, maxAttempts) := a in
              let? _ := UpsertObjectReplica (zero_ObjectReplica <| rp_Bucket := o_Bucket obj |> <| rp_Key := o_Key obj |>
                <| rp_ProviderAccountID := providerID |> <| rp_RemoteBucket := st_RemoteBucket stored |>
                <| rp_RemoteKey := st_RemoteKey stored |> <| rp_Size := st_Size stored |> <| rp_ETag := st_ETag stored |>
                <| rp_ChecksumSHA256 := st_ChecksumSHA256 stored |> <| rp_Status := "succeeded" |>
                <| rp_Attempts := attempts |> <| rp_MaxAttempts := maxAttempts |>) in
              refreshObjectReplicaStatus (o_Bucket obj) (o_Key obj)
          end
      end
  end.

(** With the reservation granted: read the source and write the copy. *)
Definition copy_replica (obj : ObjectRecord) (providerID resID : string) (account : ProviderAccount) : M (result unit) :=
  let! source := GetObject (o_Bucket obj) (o_Key obj) in
  match source with
  | Err e => let! _ := ignore (ReleaseProviderReservation resID) in failObjectReplica obj providerID e
  | Ok (body, _) =>
      let! put := putOnProvider account
        (zero_PutObjectInput <| i_Bucket := o_Bucket obj |> <| i_Key := o_Key obj |> <| i_Size := o_Size obj |>
           <| i_ContentType := o_ContentType obj |> <| i_ChecksumSHA256 := o_ChecksumSHA256 obj |>) body in
      match put with
      | Err e =>
          let! _ := ignore (ReleaseProviderReservation resID) in
          let! _ := recordProviderWriteFailure account e in
          failObjectReplica obj providerID e
      | Ok stored => finish_replica obj providerID resID account stored
      end
  end.

Definition replicate (obj : ObjectRecord) (providerID : string) (account : ProviderAccount) : M (result unit) :=
  let! resID := randomIdentifier "replica-res-" 10 in
  let! t := now in
  let reservation := zero_ProviderReservation <| rs_ID := resID |> <| rs_ProviderAccountID := providerID |>
    <| rs_Bytes := o_Size obj |> <| rs_ExpiresAt := add_time t hour |> in
  let! t := now in
  let! reserved := ReserveProviderCapacity reservation (reservation_margin account)
                     (intSetting (p_Settings account) "monthly_upload_quota_bytes") (month_text t) in
  match reserved with
  | Err e => failObjectReplica obj providerID e
  | Ok false => failObjectReplica obj providerID
                  (ErrProvider "reserve replica capacity" FailureQuota 0 0 (ErrText "provider has insufficient quota"))
  | Ok true => copy_replica obj providerID resID account
  end.

Definition RunObjectReplication (bucket key providerID : string) : M (result unit) :=
  let! found := GetObject_store bucket key in
  match found with
  | Err _ =>
      let? _ := UpsertObjectReplica (zero_ObjectReplica <| rp_Bucket := bucket |> <| rp_Key := key |>
        <| rp_ProviderAccountID := providerID |> <| rp_Status := "failed" |> <| rp_Error := "source object not found" |>
        <| rp_Attempts := 1 |> <| rp_MaxAttempts := 1 |>) in
      refreshObjectReplicaStatus bucket key
  | Ok obj =>
      let! found := GetProvider providerID in
      match found with
      | Err e => failObjectReplica obj providerID e
      | Ok account =>
          if negb (p_Enabled account) then failObjectReplicaPermanently obj providerID (ErrText "provider is disabled")
          else replicate obj providerID account
      end
  end.
End replication.
