(* ===== verification/ReplicationFacts.v ===== *)
(** What replication guarantees: a copy counts only when it was verified, no
    reservation is leaked, retries are bounded and spaced, and the status of an
    object says what its replicas are. *)
From S2P Require Import Prelude GoTime Sha256 Domain ProviderErrors World Sql StoreProviders StoreObjects StoreEvents Placement Demo Providers Service ServiceFacts Replication.

Section ledger.
Context `{Env}.

Lemma refresh_ledger b k : pres (on_db same_ledger) (refreshObjectReplicaStatus b k).
Proof. unfold refreshObjectReplicaStatus. pres_auto. Qed.

Lemma failObjectReplica_ledger o id e : pres (on_db same_ledger) (failObjectReplica o id e).
Proof. unfold failObjectReplica. pres_auto; apply refresh_ledger. Qed.

Lemma failPermanently_ledger o id e : pres (on_db same_ledger) (failObjectReplicaPermanently o id e).
Proof. unfold failObjectReplicaPermanently. pres_auto; apply refresh_ledger. Qed.

Lemma verifyReplica_pres R `{!PreOrder R} a p r n c : pres (on_db R) (verifyReplica a p r n c).
Proof. unfold verifyReplica, replica_checksum. pres_auto. Qed.

Context (Hquiet : no_db_faults).

Lemma settles_finish o id resID account stored : settles resID (finish_replica o id resID account stored).
Proof.
  unfold finish_replica. cbv zeta. destruct (providerForReplica account) as [[decrypted adapter]|e].
  2: { apply settles_release; [done|]. intros []. apply pres_same_keeps, failObjectReplica_ledger. }
  apply settles_frame; [apply verifyReplica_pres, _|]. intros [[]|e].
  - apply settles_commit; [done| |].
    + apply pres_same_keeps. unfold recorded_attempts. pres_auto; apply refresh_ledger.
    + intros e. apply settles_release; [done|]. intros []. apply pres_same_keeps, failObjectReplica_ledger.
  - apply settles_frame; [pres_auto|]. intros _.
    apply settles_release; [done|]. intros []. apply pres_same_keeps, failObjectReplica_ledger.
Qed.

Lemma settles_copy o id resID account : settles resID (copy_replica o id resID account).
Proof.
  unfold copy_replica. apply settles_frame; [apply GetObject_pres, _|]. intros [[body served]|e].
  - apply settles_frame; [unfold putOnProvider; pres_auto|]. intros [stored|e]; [apply settles_finish|].
    apply settles_release; [done|]. intros []. apply pres_same_keeps. pres_auto. apply failObjectReplica_ledger.
  - apply settles_release; [done|]. intros []. apply pres_same_keeps, failObjectReplica_ledger.
Qed.

Lemma replicate_ledger o id account : pres (on_db keeps_ledger) (replicate o id account).
Proof.
  unfold replicate. do 3 (apply pres_bind; [apply _ | pres_auto | intros ?]).
  apply settles_reserve; [apply settles_copy|].
  intros [[|]|e] Hx; [done | apply pres_same_keeps, failObjectReplica_ledger..].
Qed.

(** No replication job leaks a reservation: with a database that answers,
    however the providers behave and whichever way the job ends, the
    reservations and every account's reserved bytes are after it what they
    were before it. *)
Theorem replication_leaks_nothing bucket key providerID w :
  quota_ok (w_db w) → same_ledger (w_db w) (w_db (RunObjectReplication bucket key providerID w).2).
Proof.
  intros Hok. revert w Hok. change (pres (on_db keeps_ledger) (RunObjectReplication bucket key providerID)).
  unfold RunObjectReplication. apply pres_bind; [apply _ | pres_auto |]. intros [obj|e].
  - apply pres_bind; [apply _ | pres_auto |]. intros [account|e]; [|apply pres_same_keeps, failObjectReplica_ledger].
    destruct (negb _); [apply pres_same_keeps, failPermanently_ledger | apply replicate_ledger].
  - apply pres_same_keeps. pres_auto. apply refresh_ledger.
Qed.
End ledger.

(** ** The status of an object *)

Lemma count_status_all s l : count_status s l = List.length l ↔ Forall (λ r, rp_Status r = s) l.
Proof.
  unfold count_status. induction l as [|r l IH]; simpl; [done|]. rewrite Forall_cons, <- IH.
  assert (List.length (List.filter (λ r, (rp_Status r =? s)%string) l) ≤ List.length l)%nat as Hle by apply filter_length_le.
  destruct (String.eqb_spec (rp_Status r) s); simpl; naive_solver lia.
Qed.

Lemma count_status_some s l : (0 < count_status s l)%nat ↔ Exists (λ r, rp_Status r = s) l.
Proof.
  unfold count_status. induction l as [|r l IH]; simpl; [split; [lia | by intros ?%Exists_nil]|].
  rewrite Exists_cons, <- IH. destruct (String.eqb_spec (rp_Status r) s); simpl; naive_solver lia.
Qed.

(** The status of an object tells its replicas: "none" without replicas,
    "completed" exactly when all copies succeeded, "partial" when some did and
    some did not, "failed" exactly when all failed, "pending" otherwise. *)
Theorem replica_status_exact l :
  (object_replica_status l = "none" ↔ l = []) ∧
  (object_replica_status l = "completed" ↔ l ≠ [] ∧ Forall (λ r, rp_Status r = "succeeded") l) ∧
  (object_replica_status l = "partial" ↔
     Exists (λ r, rp_Status r = "succeeded") l ∧ ¬ Forall (λ r, rp_Status r = "succeeded") l) ∧
  (object_replica_status l = "failed" ↔ l ≠ [] ∧ Forall (λ r, rp_Status r = "failed") l).
Proof.
  destruct l as [|r l]; [simpl; split_and!; split; try done; [by intros [? _] | by intros [?%Exists_nil _] | by intros [? _]]|].
  rewrite <- !count_status_all, <- count_status_some. unfold object_replica_status.
  set (n := List.length (r :: l)). assert (0 < n)%nat as Hn by (subst n; simpl; lia).
  assert (count_status "failed" (r :: l) = n → count_status "succeeded" (r :: l) ≠ n ∧ ¬ (0 < count_status "succeeded" (r :: l))%nat) as Hexcl.
  { intros Hf. apply count_status_all in Hf. assert (count_status "succeeded" (r :: l) = 0)%nat as ->; [|lia].
    unfold count_status. clear -Hf. induction Hf as [|x xs Hx _ IH]; [done|]. simpl. rewrite Hx. done. }
  destruct (Nat.eqb_spec (count_status "succeeded" (r :: l)) n) as [Hs|Hs];
    [|destruct (Nat.ltb_spec 0 (count_status "succeeded" (r :: l))) as [Hp|Hp];
      [|destruct (Nat.eqb_spec (count_status "failed" (r :: l)) n) as [Hf|Hf]]];
    split_and!; split; intros; try done; try lia; naive_solver lia.
Qed.

(** ** Retries *)

(** A failed copy is retried a bounded number of times: the row keeps
    its count of attempts, it is "failed" exactly when they are used up and
    "pending" otherwise, and the delay to the next attempt is between two
    seconds and 256 seconds and doubles with the attempts. *)
Theorem replica_retry_policy replica cause :
  0 ≤ rp_Attempts replica →
  let r := failed_replica replica cause in
  (rp_Status r = "failed" ↔ rp_MaxAttempts r ≤ rp_Attempts r) ∧
  (rp_Status r = "pending" ↔ rp_Attempts r < rp_MaxAttempts r) ∧
  rp_Attempts r = Z.max 1 (rp_Attempts replica) ∧ 0 < rp_MaxAttempts r ∧
  2 * second ≤ replica_retry_delay (rp_Attempts r) ≤ 256 * second ∧
  (rp_Attempts r < 8 → replica_retry_delay (rp_Attempts r + 1) = 2 * replica_retry_delay (rp_Attempts r)).
Proof.
  intros Ha. unfold failed_replica.
  set (r1 := if rp_Attempts replica =? 0 then replica <| rp_Attempts := 1 |> else replica).
  assert (rp_Attempts r1 = Z.max 1 (rp_Attempts replica)) as H1.
  { subst r1. destruct (Z.eqb_spec (rp_Attempts replica) 0) as [E|]; rsimpl; lia. }
  set (r2 := if rp_MaxAttempts r1 <=? 0 then r1 <| rp_MaxAttempts := 5 |> else r1).
  assert (rp_Attempts r2 = Z.max 1 (rp_Attempts replica) ∧ 0 < rp_MaxAttempts r2) as [H2 H3].
  { subst r2. destruct (Z.leb_spec (rp_MaxAttempts r1) 0); rsimpl; lia. }
  cbv zeta. rsimpl. set (a := rp_Attempts r2) in *.
  assert (∀ n, 1 ≤ n → replica_retry_delay n = 2 ^ Z.min n 8 * second) as Hd.
  { intros n Hn. unfold replica_retry_delay, duration_mul. apply wrap64_id.
    assert (2 ^ Z.min n 8 ≤ 2 ^ 8) by (apply Z.pow_le_mono_r; lia). assert (0 < 2 ^ Z.min n 8) by (apply Z.pow_pos_nonneg; lia).
    unfold in_int64, int64_min, int64_max, second in *. lia. }
  assert (2 ^ 1 ≤ 2 ^ Z.min a 8 ≤ 2 ^ 8) as Hb by (split; apply Z.pow_le_mono_r; lia).
  assert (a < 8 → 2 ^ Z.min (a + 1) 8 = 2 * 2 ^ Z.min a 8) as Hdbl
    by (intros; rewrite !Z.min_l by lia; rewrite Z.pow_add_r by lia; lia).
  destruct (Z.ltb_spec a (rp_MaxAttempts r2)); rsimpl; fold a; rewrite !Hd by lia;
    (split_and!; [naive_solver lia | naive_solver lia | done | done | unfold second in *; lia..| intros; rewrite Hdbl by lia; lia]).
Qed.

(** ** Verification *)

Section verified.
Context `{Env}.

Lemma wrap_err_inv {A} msg (m : M (result A)) w a w' : wrap_err msg m w = (Ok a, w') → m w = (Ok a, w').
Proof. unfold wrap_err, bind. destruct (m w) as [[x|e] w1]; simpl; [|done]. by intros [= -> ->]. Qed.

(** The provider vouched for a copy: asked for it after the calls [h], it
    reported the size, and the checksum too, or else served bytes that have it
    (an object without a checksum on record has only its size compared). These
    are the last calls of the history [calls]. *)
Definition vouched (adapter : Adapter) (account : ProviderAccount) (record : ObjectRecord) (size : Z) (checksum : string)
    (h calls : list Call) : Prop :=
  ∃ head, ad_Head adapter h account record = Ok head ∧ o_Size head = size ∧
    ((calls = CallHead account record :: h ∧ (checksum = "" ∨ equal_fold (o_ChecksumSHA256 head) checksum = true)) ∨
     (calls = CallGet account record :: CallHead account record :: h ∧
      ∃ body o, ad_Get adapter (CallHead account record :: h) account record = Ok (body, o) ∧ rd_err body = None ∧
        equal_fold (sha256_hex (rd_data body)) checksum = true)).

Lemma verifyReplica_vouched adapter account record size checksum w w' :
  verifyReplica adapter account record size checksum w = (Ok tt, w') →
  vouched adapter account record size checksum (w_calls w) (w_calls w').
Proof.
  unfold verifyReplica. intros Hrun. run_inv Hrun as head w1 H1. apply wrap_err_inv in H1. injection H1 as Hh <-.
  destruct (Z.eqb_spec (o_Size head) size) as [Hs|]; [|done]. exists head. split_and!; [done|done|].
  cbn [negb] in Hrun. destruct (String.eqb_spec checksum "") as [|Hc].
  { injection Hrun as <-. left. split; [done | by left]. }
  run_inv Hrun as sum w2 H2. destruct (equal_fold sum checksum) eqn:He; [|done]. injection Hrun as <-.
  unfold replica_checksum in H2. destruct (String.eqb_spec (o_ChecksumSHA256 head) "") as [|Hne]; cbn [negb] in H2.
  - right. run_inv H2 as got w3 H3. apply wrap_err_inv in H3. injection H3 as Hg <-. destruct got as [body o].
    destruct (rd_err body) eqn:Hb; [done|]. injection H2 as <- <-. split; [done|]. by exists body, o.
  - left. injection H2 as <- <-. split; [done | by right].
Qed.

(** The place and the content of a copy, and its state. *)
Definition replica_view (r : ObjectReplica) : string * string * string * Z * string :=
  (rp_Status r, rp_RemoteBucket r, rp_RemoteKey r, rp_Size r, rp_ChecksumSHA256 r).

Lemma replica_defaults_view r t :
  replica_key (replica_defaults r t) = replica_key r ∧ replica_view (replica_defaults r t) = replica_view r.
Proof.
  unfold replica_defaults. destruct (is_zero (rp_CreatedAt r)); cbv zeta;
    match goal with |- context [if ?a then ?b else _] => destruct a end;
    match goal with |- context [if ?a then ?b else _] => destruct a end; done.
Qed.

Lemma UpsertObjectReplica_run r w w' :
  UpsertObjectReplica r w = (Ok tt, w') →
  ∃ row, db_replicas (w_db w') !! replica_key r = Some row ∧ replica_view row = replica_view r.
Proof.
  unfold UpsertObjectReplica. intros Hrun. run_inv Hrun as t w1 Ht. injection Ht as <- <-. apply sql_write_inv in Hrun.
  injection Hrun as <-. destruct (replica_defaults_view r (env_now (w_clock w))) as [Hk Hv].
  unfold upsert_replica_row. rsimpl. rewrite Hk, lookup_insert_eq. eexists. split; [done|].
  rewrite <- Hv. by destruct (db_replicas (w_db w) !! _).
Qed.

Lemma failObjectReplica_fails o id e w w' : failObjectReplica o id e w ≠ (Ok tt, w').
Proof.
  intros Hf. unfold failObjectReplica in Hf. repeat (let x := fresh in let v := fresh in let E := fresh in run_inv Hf as x v E). done.
Qed.

(** Once the bytes were taken for the place in [stored], only the checks of the
    verification go out. *)
Lemma finish_replica_run o id resID account stored w w' :
  finish_replica o id resID account stored w = (Ok tt, w') →
  ∃ decrypted adapter record row,
    providerForReplica account = Ok (decrypted, adapter) ∧
    db_replicas (w_db w') !! (o_Bucket o, o_Key o, id) = Some row ∧ rp_Status row = "succeeded" ∧
    rp_RemoteBucket row = st_RemoteBucket stored ∧ rp_RemoteKey row = st_RemoteKey stored ∧
    o_RemoteBucket record = st_RemoteBucket stored ∧ o_RemoteKey record = st_RemoteKey stored ∧
    vouched adapter decrypted record (o_Size o) (o_ChecksumSHA256 o) (w_calls w) (w_calls w').
Proof.
  unfold finish_replica. cbv zeta. intros Hrun. destruct (providerForReplica account) as [[decrypted adapter]|e].
  2: { run_inv Hrun as u w8 H8. by apply failObjectReplica_fails in Hrun. }
  run_inv Hrun as ver w8 H8. destruct ver as [[]|e].
  2: { run_inv Hrun as u w9 H9. run_inv Hrun as u' w10 H10. by apply failObjectReplica_fails in Hrun. }
  apply verifyReplica_vouched in H8.
  run_inv Hrun as committed w9 H9. destruct committed as [[]|e].
  2: { run_inv Hrun as u w10 H10. by apply failObjectReplica_fails in Hrun. }
  frame same_calls H9 as C9. run_inv Hrun as a w10 H10. frame same_calls H10 as C10. destruct a as [attempts maxAttempts].
  run_inv Hrun as u w11 H11. destruct u. frame same_calls H11 as C11. frame same_calls Hrun as C12.
  frame (on_db (same db_replicas)) Hrun as Hsame. unfold on_db, same in Hsame.
  apply UpsertObjectReplica_run in H11 as (row & Hrow & Hview). rewrite <- Hsame in Hrow.
  unfold same_calls in *. rewrite <- C9, <- C10, <- C11, <- C12 in H8.
  eexists decrypted, adapter, _, row. split; [done|]. split; [exact Hrow|]. injection Hview as -> -> -> _ _.
  split; [done|]. split_and!; [..|exact H8]; by destruct (st_ChecksumSHA256 stored =? "")%string.
Qed.

(** C31. A copy counts only when it was verified: when the replication of an
    indexed object succeeds, the last calls of the run to a provider are these,
    to the adapter of the replica account and with its secret: it took the
    upload of the object's key and size, and asked about the very place its
    answer named it reported the object's size and its checksum, or served bytes
    with that checksum. That place is on the row of the copy, which is
    "succeeded". *)
Theorem replica_counts_when_verified bucket key providerID obj w w' :
  (GetObject_store bucket key w).1 = Ok obj →
  RunObjectReplication bucket key providerID w = (Ok tt, w') →
  ∃ account decrypted adapter input body h stored record row,
    db_providers (w_db w) !! providerID = Some account ∧ providerForReplica account = Ok (decrypted, adapter) ∧
    i_Key input = o_Key obj ∧ i_Size input = o_Size obj ∧ ad_Put adapter h decrypted input body = Ok stored ∧
    vouched adapter decrypted record (o_Size obj) (o_ChecksumSHA256 obj)
      (CallPut decrypted input body :: h) (w_calls w') ∧
    o_RemoteBucket record = st_RemoteBucket stored ∧ o_RemoteKey record = st_RemoteKey stored ∧
    db_replicas (w_db w') !! (o_Bucket obj, o_Key obj, providerID) = Some row ∧ rp_Status row = "succeeded" ∧
    rp_RemoteBucket row = st_RemoteBucket stored ∧ rp_RemoteKey row = st_RemoteKey stored.
Proof.
  intros Hobj. unfold RunObjectReplication. intros Hrun. run_inv Hrun as found w1 H1.
  rewrite H1 in Hobj. simpl in Hobj. subst found. apply sql_read_inv in H1 as [_ D1].
  run_inv Hrun as found w2 H2. destruct found as [account|e]; [|by apply failObjectReplica_fails in Hrun].
  apply sql_read_inv in H2 as [Hacc _]. rewrite D1 in Hacc.
  destruct (db_providers (w_db w) !! providerID) as [p|] eqn:Hp; [|done]. injection Hacc as ->.
  destruct (negb (p_Enabled account)).
  { unfold failObjectReplicaPermanently in Hrun. repeat (let x := fresh in let v := fresh in let E := fresh in run_inv Hrun as x v E). done. }
  unfold replicate in Hrun. run_inv Hrun as resID w3 H3. run_inv Hrun as t w4 H4. run_inv Hrun as t' w5 H5.
  run_inv Hrun as reserved w6 H6. destruct reserved as [[|]|e]; [|by apply failObjectReplica_fails in Hrun..].
  unfold copy_replica in Hrun. run_inv Hrun as source w7 H7. destruct source as [[body served]|e].
  2: { run_inv Hrun as u w8 H8. by apply failObjectReplica_fails in Hrun. }
  run_inv Hrun as put w8 H8. destruct put as [stored|e].
  2: { run_inv Hrun as u w9 H9. run_inv Hrun as u' w10 H10. by apply failObjectReplica_fails in Hrun. }
  apply finish_replica_run in Hrun as (decrypted & adapter & record & row & Had & Hrow & Hst & Hb & Hk & Hrb & Hrk & Hv).
  unfold putOnProvider in H8. rewrite Had in H8. injection H8 as Hput <-.
  eexists account, decrypted, adapter, _, body, (w_calls w7), stored, record, row.
  split; [done|]. split; [exact Had|]. do 2 (split; [shelve|]). split; [exact Hput|].
  split; [exact Hv|]. done.
  Unshelve. all: done.
Qed.
End verified.

(** ** A concrete replication *)

Definition replicated_bucket : Bucket := demo_bucket <| b_ReplicationProviderIDs := ["p2"] |>.

Definition uploaded_world : World :=
  (@PutObject demo_env _ (demo_upload "b" "k" 3) (MkReader "abc" None) (start (demo_db replicated_bucket))).2.

Definition uploaded_record : ObjectRecord := default zero_ObjectRecord (db_objects (w_db uploaded_world) !! ("b", "k")).

Lemma demo_env_quiet : @no_db_faults demo_env.
Proof. intros n. reflexivity. Qed.

Lemma replication_leaks_nothing_witness :
  same_ledger (w_db uploaded_world) (w_db (@RunObjectReplication demo_env "b" "k" "p2" uploaded_world).2).
Proof.
  apply (@replication_leaks_nothing demo_env demo_env_quiet). apply wf_ledger, db_wfb_sound. vm_compute. reflexivity.
Defined.

Lemma replica_retry_policy_witness :
  rp_Attempts (failed_replica (zero_ObjectReplica <| rp_Attempts := 3 |>) (ErrText "timeout")) = 3.
Proof.
  destruct (replica_retry_policy (zero_ObjectReplica <| rp_Attempts := 3 |>) (ErrText "timeout")) as (_ & _ & H & _);
    [vm_compute; discriminate | exact H].
Defined.

Lemma replica_counts_when_verified_witness :
  ∃ row, db_replicas (w_db (@RunObjectReplication demo_env "b" "k" "p2" uploaded_world).2) !! ("b", "k", "p2") = Some row
    ∧ rp_Status row = "succeeded".
Proof.
  destruct (@replica_counts_when_verified demo_env "b" "k" "p2" uploaded_record uploaded_world
    (@RunObjectReplication demo_env "b" "k" "p2" uploaded_world).2)
    as (account & decrypted & adapter & input & body & h & stored & record & row & _ & _ & _ & _ & _ & _ & _ & _ & Hrow & Hst & _).
  - vm_compute. reflexivity.
  - apply (run_pair (@RunObjectReplication demo_env "b" "k" "p2")). vm_compute. reflexivity.
  - exists row. split; [exact Hrow | exact Hst].
Defined.
