(* ===== verification/Protection.v ===== *)
(** Deleting and protecting objects, [app/protection.go]: versions, delete
    markers, trash, retention and legal holds. *)
From S2P Require Import Prelude GoTime Domain ProviderErrors World Sql StoreProviders StoreObjects StoreEvents Placement Providers Hooks Service ServiceFacts.

Record DeleteObjectOptions : Type := MkDeleteObjectOptions {
  do_VersionID : string;
  do_BypassGovernance : bool;
  do_Permanent : bool }.

Definition plain_delete : DeleteObjectOptions := MkDeleteObjectOptions "" false false.

Record DeleteObjectResult : Type := MkDeleteObjectResult {
  dr_VersionID : string;
  dr_DeleteMarker : bool }.

Definition locked {A} : result A := Err (ErrSentinel ErrObjectLocked).

(** The test of [validateObjectDeletion] at the instant [t]. *)
Definition deletion_locked (object : ObjectRecord) (options : DeleteObjectOptions) (t : Time) : bool :=
  o_LegalHold object
  || (after (o_RetainUntil object) t
      && ((o_RetentionMode object =? "COMPLIANCE")%string || negb (do_BypassGovernance options))).

(** The two refusals of [UpdateObjectProtection] at the instant [t]. *)
Definition protection_weakened (existing object : ObjectRecord) (bypassGovernance : bool) (t : Time) : bool :=
  let shortened := after (o_RetainUntil existing) t && before (o_RetainUntil object) (o_RetainUntil existing) in
  ((o_RetentionMode existing =? "COMPLIANCE")%string && shortened)
  || ((o_RetentionMode existing =? "GOVERNANCE")%string && shortened && negb bypassGovernance).

Section protection.
Context `{Env}.

Definition GetProtectedObject (bucket key versionID : string) : M (result ObjectRecord) :=
  if negb (versionID =? "")%string then GetObjectVersion_store bucket key versionID
  else
    let? object := GetObject_store bucket key in
    let! h := HydrateObjectAttributes object in
    match h with (object, Ok _) => ret_ok object | (_, Err e) => ret_err e end.

(** The end of both updates: the attributes of the current object are written
    when it is the version that was updated. [missing] is what the function
    does for an unversioned object that is not the current one. *)
Definition put_current_attributes (bucket key : string) (object : ObjectRecord)
    (missing : result ObjectRecord → M (result unit)) : M (result unit) :=
  let! current := GetObject_store bucket key in
  let! same := match current with
               | Ok c => let! c := hydrated c in ret (o_VersionID c =? o_VersionID object)%string
               | Err _ => ret false
               end in
  if same then PutObjectAttributes object
  else if (o_VersionID object =? "")%string then missing current
  else ret_ok tt.

Definition UpdateObjectProtection (object : ObjectRecord) (bypassGovernance : bool) : M (result unit) :=
  let? bucket := GetBucket (o_Bucket object) in
  if negb (b_ObjectLockEnabled bucket) then ret_err (ErrText "object lock is not enabled for bucket")
  else
    let? existing := GetProtectedObject (o_Bucket object) (o_Key object) (o_VersionID object) in
    let! t := (if (o_RetentionMode existing =? "COMPLIANCE")%string || (o_RetentionMode existing =? "GOVERNANCE")%string
               then now else ret zero_time) in
    if protection_weakened existing object bypassGovernance t then ret locked
    else
      let existing := existing <| o_RetentionMode := o_RetentionMode object |>
                               <| o_RetainUntil := o_RetainUntil object |> <| o_LegalHold := o_LegalHold object |> in
      let? _ := (if negb (o_VersionID existing =? "")%string
                 then UpdateObjectVersionProtection existing else ret_ok tt) in
      put_current_attributes (o_Bucket existing) (o_Key existing) existing (λ _, PutObjectAttributes existing).

Definition UpdateObjectTags (bucket key versionID : string) (tags : gmap string string) : M (result unit) :=
  let? object := GetProtectedObject bucket key versionID in
  let object := object <| o_Tags := tags |> in
  let? _ := (if negb (o_VersionID object =? "")%string then UpdateObjectVersionProtection object else ret_ok tt) in
  put_current_attributes bucket key object
    (λ current, ret (match current with Ok _ => Ok tt | Err e => Err e end)).

Definition validateObjectDeletion (object : ObjectRecord) (options : DeleteObjectOptions) : M (result unit) :=
  if o_LegalHold object then ret locked
  else let! t := now in if deletion_locked object options t then ret locked else ret_ok tt.

Definition restoreVersionAsCurrent (bucket : Bucket) (object : ObjectRecord) : M (result unit) :=
  let? _ := PutObject_store object in
  let? _ := PutObjectAttributes object in
  match replicaTargets bucket (o_ProviderAccountID object) with
  | [] => ret_ok tt
  | targets =>
      let object := object <| o_ReplicaStatus := "pending" |> in
      let? _ := PutObject_store object in
      enqueueObjectReplicas object targets
  end.

(** The first listed version of exactly this key: a marker ends the search. *)
Definition restoreLatestObjectVersion (bucket : Bucket) (key : string) : M (result unit) :=
  let? versions := ListObjectVersions (b_Name bucket) key 1000 in
  match List.find (λ v, (o_Key v =? key)%string) versions with
  | None => ret_ok tt
  | Some previous => if o_IsDeleteMarker previous then ret_ok tt else restoreVersionAsCurrent bucket previous
  end.

(** Deleting the version that is current makes the previous one current. *)
Definition replace_current (bucket : Bucket) (key : string) (object : ObjectRecord) : M (result unit) :=
  let! found := GetObject_store (b_Name bucket) key in
  match found with
  | Err _ => ret_ok tt
  | Ok current =>
      let! current := hydrated current in
      if (o_VersionID current =? o_VersionID object)%string then
        let! _ := deleteObjectReplicas current in
        let? _ := DeleteObject_store (b_Name bucket) key in
        restoreLatestObjectVersion bucket key
      else ret_ok tt
  end.

Definition deleteObjectVersion (bucket : Bucket) (key : string) (options : DeleteObjectOptions) : M (result DeleteObjectResult) :=
  let? object := GetObjectVersion_store (b_Name bucket) key (do_VersionID options) in
  if o_IsDeleteMarker object then
    let? _ := DeleteObjectVersion (b_Name bucket) key (o_VersionID object) in
    let? _ := restoreLatestObjectVersion bucket key in
    ret_ok (MkDeleteObjectResult (o_VersionID object) true)
  else
    let? _ := validateObjectDeletion object options in
    let? aa := providerForObject object in
    let '(account, adapter) := aa in
    let? _ := adapter_delete adapter account object in
    let? _ := DeleteObjectVersion (b_Name bucket) key (o_VersionID object) in
    let? _ := replace_current bucket key object in
    let! _ := ignore (AddProviderUsage (o_ProviderAccountID object) (wrap64 (- o_Size object))) in
    ret_ok (MkDeleteObjectResult (o_VersionID object) false).

(** The three ways the current object goes: behind a delete marker, to the
    trash, or for good. *)
Definition delete_to_marker (bucketName key : string) (object : ObjectRecord) : M (result DeleteObjectResult) :=
  let object := if (o_VersionID object =? "")%string then object <| o_VersionID := "null" |> else object in
  let? _ := PutObjectVersion object in
  let! markerID := randomIdentifier "v-" 12 in
  let! t := now in
  let? _ := PutObjectVersion (zero_ObjectRecord <| o_Bucket := bucketName |> <| o_Key := key |>
              <| o_VersionID := markerID |> <| o_IsDeleteMarker := true |> <| o_CreatedAt := t |>) in
  let! _ := deleteObjectReplicas object in
  let? _ := DeleteObject_store bucketName key in
  let! _ := dispatchObjectHook HookEventObjectDeleted object in
  ret_ok (MkDeleteObjectResult markerID true).

Definition delete_to_trash (bucket : Bucket) (bucketName key : string) (object : ObjectRecord) : M (result DeleteObjectResult) :=
  let! t := now in
  let! id := randomIdentifier "trash-" 10 in
  let? _ := PutTrashObject (MkTrashRecord id object t (add_time t (days_duration (b_TrashRetentionDays bucket)))) in
  let! _ := deleteObjectReplicas object in
  let? _ := DeleteObject_store bucketName key in
  let! _ := dispatchObjectHook HookEventObjectDeleted object in
  ret_ok (MkDeleteObjectResult "" false).

Definition delete_for_good (account : ProviderAccount) (bucketName key : string) (object : ObjectRecord) : M (result DeleteObjectResult) :=
  let? aa := lift (providerForReplica account) in
  let '(account, adapter) := aa in
  let? _ := adapter_delete adapter account object in
  let! _ := deleteObjectReplicas object in
  let? _ := DeleteObject_store bucketName key in
  let! _ := ignore (AddProviderUsage (o_ProviderAccountID object) (wrap64 (- o_Size object))) in
  let! _ := dispatchObjectHook HookEventObjectDeleted object in
  ret_ok (MkDeleteObjectResult "" false).

Definition DeleteObjectWithOptions (bucketName key : string) (options : DeleteObjectOptions) : M (result DeleteObjectResult) :=
  let? bucket := GetBucket bucketName in
  if negb (do_VersionID options =? "")%string then deleteObjectVersion bucket key options
  else
    let? oa := GetObjectWithProvider bucketName key in
    let '(object, account) := oa in
    let! object := hydrated object in
    let? _ := validateObjectDeletion object options in
    if b_VersioningEnabled bucket && negb (do_Permanent options) then delete_to_marker bucketName key object
    else if b_TrashEnabled bucket && negb (do_Permanent options) then delete_to_trash bucket bucketName key object
    else delete_for_good account bucketName key object.

Definition DeleteObject (bucket key : string) : M (result unit) :=
  let? _ := DeleteObjectWithOptions bucket key plain_delete in ret_ok tt.

(** On an error the callers drop the record these return next to it. *)
Definition GetObjectVersion (bucket key versionID : string) : M (result (Reader * ObjectRecord)) :=
  let? object := GetObjectVersion_store bucket key versionID in
  if o_IsDeleteMarker object then ret not_found
  else
    let? aa := providerForObject object in
    let '(account, adapter) := aa in
    adapter_get adapter account object.

Definition HeadObjectVersion (bucket key versionID : string) : M (result ObjectRecord) :=
  let? object := GetObjectVersion_store bucket key versionID in
  if o_IsDeleteMarker object then ret not_found
  else
    let? aa := providerForObject object in
    let '(account, adapter) := aa in
    adapter_head adapter account object.

Definition RestoreTrashObject (id : string) : M (result ObjectRecord) :=
  let? trash := GetTrashObject id in
  let object := t_Object trash in
  let! found := GetObject_store (o_Bucket object) (o_Key object) in
  match found with
  | Ok _ => ret_err (ErrText "object already exists")
  | Err e =>
      if negb (errors_is e ErrNotFound) then ret_err e
      else
        let? _ := PutObject_store object in
        let? _ := PutObjectAttributes object in
        let? _ := DeleteTrashObject id in
        ret_ok object
  end.

Definition PurgeTrashObject (id : string) : M (result unit) :=
  let? trash := GetTrashObject id in
  let object := t_Object trash in
  let? aa := providerForObject object in
  let '(account, adapter) := aa in
  let? _ := adapter_delete adapter account object in
  let? _ := DeleteTrashObject id in
  AddProviderUsage (o_ProviderAccountID object) (wrap64 (- o_Size object)).
End protection.
