(* ===== verification/ProtectionFacts.v ===== *)
(** What deletion and protection guarantee: locked objects survive, retention is
    not shortened, versions and trash keep the data, and the quota ledger is
    left alone. *)
From S2P Require Import Prelude GoTime Sha256 Domain ProviderErrors World Sql StoreProviders Placement Demo StoreObjects StoreEvents Providers Hooks Service ServiceFacts Protection.

(** The database and the history of remote calls are as they were. *)
Definition no_effect (w w' : World) : Prop := w_db w' = w_db w ∧ w_calls w' = w_calls w.

#[global] Instance no_effect_preorder : PreOrder no_effect.
Proof. unfold no_effect. split; [done | intros ??? [] []; split; congruence]. Qed.

Section locks.
Context `{Env}.

(** The object a deletion is about: a version, or the current object with its
    attributes. *)
Definition deletion_target (d : DB) (bucket key : string) (options : DeleteObjectOptions) : option ObjectRecord :=
  if (do_VersionID options =? "")%string then lookup_object (index_view d) (bucket, key)
  else db_versions d !! (bucket, key, do_VersionID options).

(** Protected against a deletion at the instant [t]: by a legal hold, or by a
    retention that still runs and that the caller does not bypass or, being
    COMPLIANCE, cannot. *)
Definition protected (o : ObjectRecord) (options : DeleteObjectOptions) (t : Time) : Prop :=
  o_LegalHold o = true ∨
  t < o_RetainUntil o ∧ (o_RetentionMode o = "COMPLIANCE" ∨ do_BypassGovernance options = false).

Lemma validate_locked o options w :
  protected o options (env_now (w_clock w)) → ∃ w1, validateObjectDeletion o options w = (locked, w1) ∧ no_effect w w1.
Proof.
  intros Hl. unfold validateObjectDeletion. destruct (o_LegalHold o) eqn:Hh; [by eexists|].
  destruct Hl as [Hl|[Ht Hmode]]; [congruence|]. unfold bind, now, deletion_locked, after. simpl.
  rewrite Hh, (proj2 (Z.ltb_lt _ _)) by done. destruct Hmode as [-> | ->]; [by eexists|]. rewrite orb_true_r. by eexists.
Qed.

(** Refused without effect, as locked if [P]. *)
Definition refused (P : Prop) {A} (m : M (result A)) (w : World) : Prop :=
  (∃ e, (m w).1 = Err e ∧ (P → e = ErrSentinel ErrObjectLocked)) ∧ no_effect w (m w).2.

Lemma read_then_refused (P : Prop) {A B} (f : DB → result A) (k : A → M (result B)) w a :
  f (w_db w) = Ok a → (P → env_db_fault (w_stmts w) = None) →
  refused P (k a) (w <| w_stmts ::= S |>) → refused P (bind_ok (sql_read f) k) w.
Proof.
  intros Hf Hok Hk. unfold refused, bind_ok, bind, sql_read, sql. destruct (env_db_fault (w_stmts w)) as [e|].
  - cbn. split; [exists e; split; [done|]; intros HP; by apply Hok in HP|]. by split; rsimpl.
  - rewrite Hf. cbn. destruct Hk as [Herr [Hdb Hcalls]]. split.
    + revert Herr. by destruct w.
    + revert Hdb Hcalls. by destruct w.
Qed.

Lemma HydrateObjectAttributes_quiet o w :
  no_db_faults →
  HydrateObjectAttributes o w = ((hydrate o (db_attributes (w_db w) !! object_key o), Ok tt), w <| w_stmts ::= S |>).
Proof. intros Hq. unfold HydrateObjectAttributes, bind. by rewrite sql_read_quiet. Qed.

Lemma hydrated_quiet o w :
  no_db_faults → hydrated o w = (hydrate o (db_attributes (w_db w) !! object_key o), w <| w_stmts ::= S |>).
Proof. intros Hq. unfold hydrated, HydrateObjectAttributes, bind. by rewrite sql_read_quiet. Qed.

Lemma lookup_object_inv d k o :
  db_wf d → lookup_object (index_view d) k = Some o →
  ∃ row p, db_objects d !! k = Some row ∧ hydrate row (db_attributes d !! object_key row) = o ∧
    db_providers d !! o_ProviderAccountID row = Some p ∧ object_key row = k ∧ o_ProviderAccountID o = o_ProviderAccountID row.
Proof.
  intros Hwf. unfold lookup_object, index_view. simpl. destruct (db_objects d !! k) as [row|] eqn:Hrow; [|done].
  intros [= <-]. destruct (wf_object _ Hwf _ _ Hrow) as [Hk [p Hp]]. exists row, p. split_and!; try done; [by rewrite Hk|].
  unfold hydrate. by destruct (db_attributes _ !! _); rsimpl.
Qed.

(** C14. A protected object survives: while the object, or the version, that a
    deletion names is under a legal hold, or under a retention that runs at the
    instant of the deletion and that the caller does not or may not bypass, the
    deletion fails, the database is untouched and no provider is called. The
    error is ErrObjectLocked when the statements before the test succeed. They
    all may fail but one: reading the attributes of the current object has to
    succeed, for the program drops that error (see [lock_fails_open]). *)
Theorem locked_object_survives bucketName key options bucket o w :
  db_wf (w_db w) →
  db_buckets (w_db w) !! bucketName = Some bucket →
  deletion_target (w_db w) bucketName key options = Some o → o_IsDeleteMarker o = false →
  (do_VersionID options = "" → env_db_fault (2 + w_stmts w) = None) →
  protected o options (env_now (w_clock w)) →
  (∃ e, (DeleteObjectWithOptions bucketName key options w).1 = Err e ∧
     (env_db_fault (w_stmts w) = None ∧ env_db_fault (1 + w_stmts w) = None → e = ErrSentinel ErrObjectLocked)) ∧
  no_effect w (DeleteObjectWithOptions bucketName key options w).2.
Proof.
  intros Hwf Hb Ht Hm Hread Hlock. set (P := env_db_fault (w_stmts w) = None ∧ _). change (refused P (DeleteObjectWithOptions bucketName key options) w).
  unfold DeleteObjectWithOptions. apply (read_then_refused P _ _ w bucket); [by rewrite Hb|by intros []|].
  unfold deletion_target in Ht. destruct (String.eqb_spec (do_VersionID options) "") as [Hv|Hv]; cbn [negb].
  - apply lookup_object_inv in Ht as (row & p & Hrow & Hh & Hp & _); [|done].
    apply (read_then_refused P _ _ _ (row, p)); [rsimpl; by rewrite Hrow, Hp|rsimpl; by intros []|].
    set (w2 := _ <| w_stmts ::= S |>). assert (hydrated row w2 = (o, w2 <| w_stmts ::= S |>)) as Hhyd.
    { unfold hydrated, HydrateObjectAttributes, bind, sql_read, sql. pose proof (Hread Hv) as Hr. cbn [Nat.add] in Hr. unfold w2. rsimpl. rewrite Hr. cbn.
      rewrite Hh. by destruct w. }
    unfold refused. rewrite (bind_run _ _ _ _ _ Hhyd). destruct (validate_locked o options (w2 <| w_stmts ::= S |>)) as (w3 & Hrun & Heff);
      [unfold w2; by rsimpl|]. rewrite (bind_err_run _ _ _ _ _ Hrun). split; [by eexists|].
    etrans; [|exact Heff]. split; unfold w2; by rsimpl.
  - unfold deleteObjectVersion. apply (read_then_refused P _ _ _ o); [rsimpl; by rewrite (wf_bucket _ Hwf _ _ Hb), Ht|rsimpl; by intros []|].
    rewrite Hm. set (w2 := _ <| w_stmts ::= S |>). destruct (validate_locked o options w2) as (w3 & Hrun & Heff); [unfold w2; by rsimpl|].
    unfold refused. rewrite (bind_err_run _ _ _ _ _ Hrun). split; [by eexists|]. exact Heff.
Qed.

(** C36. Retention is not shortened: in a bucket with object lock, setting an
    earlier retain-until date on an object, or version, under COMPLIANCE
    retention that still runs, or under GOVERNANCE retention without the
    bypass, is refused with ErrObjectLocked and has no effect. *)
Theorem retention_not_shortened object bypass bucket o w :
  no_db_faults → db_wf (w_db w) →
  db_buckets (w_db w) !! o_Bucket object = Some bucket → b_ObjectLockEnabled bucket = true →
  deletion_target (w_db w) (o_Bucket object) (o_Key object) (MkDeleteObjectOptions (o_VersionID object) false false) = Some o →
  (o_RetentionMode o = "COMPLIANCE" ∨ (o_RetentionMode o = "GOVERNANCE" ∧ bypass = false)) →
  (∀ n, after (o_RetainUntil o) (env_now n) = true) →
  before (o_RetainUntil object) (o_RetainUntil o) = true →
  (UpdateObjectProtection object bypass w).1 = locked ∧ no_effect w (UpdateObjectProtection object bypass w).2.
Proof.
  intros Hq Hwf Hb Hlock Ht Hmode Hafter Hbefore. unfold UpdateObjectProtection.
  run_fwd by (unfold GetBucket; rewrite sql_read_quiet, Hb by done; done). rewrite Hlock. cbn [negb].
  assert (∀ n, protection_weakened o object bypass (env_now n) = true) as Hweak.
  { intros n. unfold protection_weakened. rewrite Hafter, Hbefore. by destruct Hmode as [->|[-> ->]]. }
  assert (∀ w1, w_db w1 = w_db w → ∃ w2, GetProtectedObject (o_Bucket object) (o_Key object) (o_VersionID object) w1 = (Ok o, w2) ∧ no_effect w1 w2) as Hget.
  { intros w1 Hdb. unfold GetProtectedObject, deletion_target in *. simpl in Ht.
    destruct (String.eqb_spec (o_VersionID object) "") as [->|Hne]; cbn [negb].
    - apply lookup_object_inv in Ht as (row & p & Hrow & Hh & Hp & _); [|done].
      run_fwd by (unfold GetObject_store; rewrite sql_read_quiet, Hdb, Hrow by done; done).
      run_fwd by (by apply HydrateObjectAttributes_quiet). rsimpl. rewrite Hdb, Hh.
      by eexists.
    - unfold GetObjectVersion_store. rewrite sql_read_quiet, Hdb, Ht by done. by eexists. }
  edestruct Hget as (w2 & Hrun & Heff); [|run_fwd by exact Hrun]; [by rsimpl|].
  run_fwd by (destruct Hmode as [->|[-> _]]; done). rewrite Hweak. by destruct Heff.
Qed.
End locks.

Section ledger.
Context `{Env}.

Lemma validateObjectDeletion_pres R `{!PreOrder R} o options : pres (on_db R) (validateObjectDeletion o options).
Proof. unfold validateObjectDeletion. pres_auto. Qed.

Lemma restoreVersionAsCurrent_ledger bucket o : pres (on_db same_ledger) (restoreVersionAsCurrent bucket o).
Proof. unfold restoreVersionAsCurrent. pres_auto. Qed.

Lemma restoreLatest_ledger bucket key : pres (on_db same_ledger) (restoreLatestObjectVersion bucket key).
Proof. unfold restoreLatestObjectVersion. pres_auto; apply restoreVersionAsCurrent_ledger. Qed.

Lemma replace_current_ledger bucket key o : pres (on_db same_ledger) (replace_current bucket key o).
Proof. unfold replace_current. pres_auto; apply restoreLatest_ledger. Qed.

Lemma DeleteObjectWithOptions_ledger b k options : pres (on_db same_ledger) (DeleteObjectWithOptions b k options).
Proof.
  unfold DeleteObjectWithOptions, deleteObjectVersion, delete_to_marker, delete_to_trash, delete_for_good.
  pres_auto; first [ apply validateObjectDeletion_pres, _ | apply restoreLatest_ledger | apply replace_current_ledger ].
Qed.

Lemma put_current_attributes_ledger b k o missing :
  (∀ c, pres (on_db same_ledger) (missing c)) → pres (on_db same_ledger) (put_current_attributes b k o missing).
Proof. intros Hm. unfold put_current_attributes. pres_auto. Qed.

Lemma GetProtectedObject_pres R `{!PreOrder R} b k v : pres (on_db R) (GetProtectedObject b k v).
Proof. unfold GetProtectedObject. pres_auto. Qed.

Lemma UpdateObjectProtection_ledger o bypass : pres (on_db same_ledger) (UpdateObjectProtection o bypass).
Proof.
  unfold UpdateObjectProtection. pres_auto;
    first [apply GetProtectedObject_pres, _ | apply put_current_attributes_ledger; intros; pres_auto].
Qed.

Lemma UpdateObjectTags_ledger b k v tags : pres (on_db same_ledger) (UpdateObjectTags b k v tags).
Proof.
  unfold UpdateObjectTags. pres_auto;
    first [apply GetProtectedObject_pres, _ | apply put_current_attributes_ledger; intros; pres_auto].
Qed.

Lemma RestoreTrashObject_ledger id : pres (on_db same_ledger) (RestoreTrashObject id).
Proof. unfold RestoreTrashObject. pres_auto. Qed.

Lemma PurgeTrashObject_ledger id : pres (on_db same_ledger) (PurgeTrashObject id).
Proof. unfold PurgeTrashObject. pres_auto. Qed.
End ledger.

#[global] Hint Resolve DeleteObjectWithOptions_ledger UpdateObjectProtection_ledger UpdateObjectTags_ledger
  RestoreTrashObject_ledger PurgeTrashObject_ledger : pres.

(** ** What a deletion keeps *)

Section keeps.
Context `{Env}.

(** A call that deletes a copy held by a replica of the object. *)
Definition deletes_replica_of (d : DB) (bucket key : string) (c : Call) : Prop :=
  ∃ account replica, c = CallDelete account (replica_object replica) ∧
    replica ∈ rows (db_replicas d) ∧ rp_Bucket replica = bucket ∧ rp_Key replica = key.

Lemma deleteObjectReplicas_calls o w :
  calls_only (deletes_replica_of (w_db w) (o_Bucket o) (o_Key o)) w (deleteObjectReplicas o w).2.
Proof.
  unfold deleteObjectReplicas. unfold bind at 1.
  destruct (ListObjectReplicas (o_Bucket o) (o_Key o) w) as [listed w1] eqn:Hl. simpl.
  assert (same_calls w w1) as Hc by (eapply pres_run; [|exact Hl]; unfold ListObjectReplicas; pres_auto).
  etrans; [by apply same_calls_only|]. destruct listed as [[|r l]|e]; [done| |done].
  apply sql_read_inv in Hl as [[= Hl] Hdb]. unfold on_db.
  assert (∀ x, x ∈ r :: l → x ∈ rows (db_replicas (w_db w)) ∧ rp_Bucket x = o_Bucket o ∧ rp_Key x = o_Key o) as Hin.
  { intros x Hx. rewrite <- Hl in Hx. apply elem_of_order_by, elem_of_where in Hx as [Hx Hm].
    apply andb_true_iff in Hm as [Hb Hk]. by apply String.eqb_eq in Hb, Hk. }
  clear Hl. generalize dependent (r :: l). intros replicas Hin.
  apply pres_bind; [apply _ | |].
  - apply pres_for_each; [apply _|]. intros x Hx. unfold delete_replica.
    repeat first [ solve [apply pres_same_calls_only; frame_auto] | pres_step ].
    apply calls_remote. destruct (Hin x Hx) as (? & ? & ?). do 2 eexists. done.
  - intros _. apply pres_same_calls_only. frame_auto.
Qed.
Lemma PutObjectVersion_run o w w' :
  PutObjectVersion o w = (Ok tt, w') →
  (∀ k v, db_versions (w_db w) !! k = Some v → db_versions (w_db w') !! k = Some v) ∧
  (db_versions (w_db w) !! version_key o = None →
     ∃ c, db_versions (w_db w') !! version_key o = Some (version_row (o <| o_CreatedAt := c |>))).
Proof.
  unfold PutObjectVersion. intros Hrun. run_inv Hrun as c w1 Hc.
  assert (w_db w1 = w_db w) as Hdb by (destruct (is_zero _); injection Hc as _ <-; by rsimpl).
  apply sql_write_inv in Hrun. rewrite Hdb in Hrun. injection Hrun as <-. unfold put_version_row. rsimpl.
  destruct (db_versions (w_db w) !! version_key o) as [v|] eqn:Hv; [done|]. split.
  - intros k v' Hv'. rewrite lookup_insert_ne by congruence. done.
  - intros _. exists c. by rewrite lookup_insert_eq.
Qed.

Lemma PutObjectVersion_other o w w' k :
  PutObjectVersion o w = (Ok tt, w') → db_versions (w_db w) !! k = None → k ≠ version_key o → db_versions (w_db w') !! k = None.
Proof.
  unfold PutObjectVersion. intros Hrun Hk Hne. run_inv Hrun as c w1 Hc.
  assert (w_db w1 = w_db w) as Hdb by (destruct (is_zero _); injection Hc as _ <-; by rsimpl).
  apply sql_write_inv in Hrun. rewrite Hdb in Hrun. injection Hrun as <-. unfold put_version_row. rsimpl.
  destruct (db_versions (w_db w) !! version_key o); [done|]. by rewrite lookup_insert_ne by done.
Qed.

Lemma DeleteObject_store_run bucket key w w' :
  DeleteObject_store bucket key w = (Ok tt, w') →
  db_objects (w_db w') !! (bucket, key) = None ∧ db_versions (w_db w') = db_versions (w_db w).
Proof.
  unfold DeleteObject_store. intros [= <-]%sql_write_inv. unfold delete_object_row.
  destruct (db_objects (w_db w) !! (bucket, key)) eqn:Ho; [|done]. rsimpl. by rewrite lookup_delete_eq.
Qed.

(** The first part of a successful deletion of the current object. *)
Lemma delete_current_run bucketName key options bucket o w r w' :
  no_db_faults → db_wf (w_db w) → db_buckets (w_db w) !! bucketName = Some bucket → do_VersionID options = "" →
  lookup_object (index_view (w_db w)) (bucketName, key) = Some o →
  DeleteObjectWithOptions bucketName key options w = (Ok r, w') →
  object_key o = (bucketName, key) ∧ ∃ p w1, no_effect w w1 ∧
  (if b_VersioningEnabled bucket && negb (do_Permanent options) then delete_to_marker bucketName key o
   else if b_TrashEnabled bucket && negb (do_Permanent options) then delete_to_trash bucket bucketName key o
   else delete_for_good p bucketName key o) w1 = (Ok r, w').
Proof.
  intros Hq Hwf Hb Hv Hlook. apply lookup_object_inv in Hlook as (row & p & Hrow & Hh & Hp & Hkey & _); [|done].
  unfold DeleteObjectWithOptions. run_fwd by (unfold GetBucket; rewrite sql_read_quiet, Hb by done; done). rewrite Hv. cbn [negb String.eqb].
  run_fwd by (unfold GetObjectWithProvider; rewrite sql_read_quiet by done; rsimpl; by rewrite Hrow, Hp).
  run_fwd by (rewrite hydrated_quiet by done; rsimpl; by rewrite Hh). intros Hrun. split.
  { rewrite <- Hkey, <- Hh. unfold hydrate, object_key. by destruct (db_attributes _ !! _); rsimpl. }
  run_inv Hrun as u w1 H1. exists p, w1. split; [|done].
  revert H1. unfold validateObjectDeletion. destruct (o_LegalHold o); [done|]. intros H1. run_inv H1 as t w2 H2.
  injection H2 as _ <-. destruct (deletion_locked o options t); [done|]. by injection H1 as _ <-.
Qed.

(** C28. Deleting in a versioned bucket keeps the data: the object leaves the
    index and no version is lost. The deleted object itself is readable as a
    version at the same place, provided no version has its version identifier
    yet ("null" for an object without one; an insertion never replaces a
    version, see [null_version_kept_back]). The result names a delete marker,
    which is in the table as a version of its own, its identifier being new, and
    providers are asked to delete copies held by the object's replicas only. *)
Theorem versioned_delete_keeps_data bucketName key options bucket o w r w' :
  no_db_faults → db_wf (w_db w) →
  db_buckets (w_db w) !! bucketName = Some bucket → b_VersioningEnabled bucket = true →
  do_VersionID options = "" → do_Permanent options = false →
  lookup_object (index_view (w_db w)) (bucketName, key) = Some o →
  DeleteObjectWithOptions bucketName key options w = (Ok r, w') →
  let vid := if (o_VersionID o =? "")%string then "null" else o_VersionID o in
  dr_DeleteMarker r = true ∧ db_objects (w_db w') !! (bucketName, key) = None ∧
  (∀ k v, db_versions (w_db w) !! k = Some v → db_versions (w_db w') !! k = Some v) ∧
  (db_versions (w_db w) !! (bucketName, key, vid) = None →
     ∃ c, db_versions (w_db w') !! (bucketName, key, vid) = Some (version_row (o <| o_VersionID := vid |> <| o_CreatedAt := c |>))) ∧
  (db_versions (w_db w) !! (bucketName, key, dr_VersionID r) = None → dr_VersionID r ≠ vid →
     ∃ marker, db_versions (w_db w') !! (bucketName, key, dr_VersionID r) = Some marker ∧ o_IsDeleteMarker marker = true) ∧
  calls_only (deletes_replica_of (w_db w) bucketName key) w w'.
Proof.
  intros Hq Hwf Hb Hver Hv Hperm Hlook Hrun.
  apply (delete_current_run _ _ _ bucket o) in Hrun as (Hko & p & w1 & [Hdb1 Hc1] & Hrun); [|done..].
  rewrite Hver, Hperm in Hrun. cbn [negb andb] in Hrun.
  unfold delete_to_marker in Hrun. cbv zeta in Hrun. set (vid := if (o_VersionID o =? "")%string then "null" else o_VersionID o).
  assert ((if (o_VersionID o =? "")%string then o <| o_VersionID := "null" |> else o) = o <| o_VersionID := vid |>) as Hvo.
  { unfold vid. destruct (String.eqb_spec (o_VersionID o) "") as [|]; [done|]. by destruct o. }
  rewrite Hvo in Hrun. clear Hvo.
  run_inv Hrun as [] w2 H2. run_inv Hrun as marker w3 H3. run_inv Hrun as t w4 H4. run_inv Hrun as [] w5 H5.
  run_inv Hrun as [] w6 H6. run_inv Hrun as [] w7 H7. run_inv Hrun as [] w8 H8. injection Hrun as <- <-.
  assert (version_key (o <| o_VersionID := vid |>) = (bucketName, key, vid)) as Hvk
    by (unfold version_key; rsimpl; unfold object_key in Hko; by injection Hko as -> ->).
  assert (on_db (same db_replicas) w1 w5 ∧ on_db (same db_versions) w2 w4) as [Hr Hv24].
  { split.
    - etrans; [eapply pres_run; [|exact H2]; frame_auto|]. etrans; [eapply pres_run; [|exact H3]; frame_auto|].
      etrans; [eapply pres_run; [|exact H4]; frame_auto|]. eapply pres_run; [|exact H5]; frame_auto.
    - etrans; [eapply pres_run; [|exact H3]; frame_auto|]. eapply pres_run; [|exact H4]; frame_auto. }
  assert (on_db (same db_versions) w5 w6) as Hv56 by (eapply pres_run; [|exact H6]; frame_auto).
  assert (on_db (same (λ d, (db_versions d, db_objects d))) w7 w8) as Hv78 by (eapply pres_run; [|exact H8]; frame_auto).
  assert (same_calls w1 w5 ∧ same_calls w6 w8) as [Hc15 Hc68].
  { split.
    - etrans; [eapply pres_run; [|exact H2]; frame_auto|]. etrans; [eapply pres_run; [|exact H3]; frame_auto|].
      etrans; [eapply pres_run; [|exact H4]; frame_auto|]. eapply pres_run; [|exact H5]; frame_auto.
    - etrans; [eapply pres_run; [|exact H7]; frame_auto|]. eapply pres_run; [|exact H8]; frame_auto. }
  unfold on_db, same in *. injection Hv78 as Hv78 Ho78.
  pose proof (deleteObjectReplicas_calls (o <| o_VersionID := vid |>) w5) as Hcalls. rewrite H6 in Hcalls.
  assert (∀ k, db_versions (w_db w1) !! k = None → k ≠ (bucketName, key, vid) → db_versions (w_db w2) !! k = None) as Hother2.
  { intros k Hk Hne. eapply PutObjectVersion_other; [exact H2|done|]. by rewrite Hvk. }
  apply PutObjectVersion_run in H2 as [Hmono2 Hnew2]. apply DeleteObject_store_run in H7 as [Hgone Hver7].
  assert (∀ k v, db_versions (w_db w2) !! k = Some v → db_versions (w_db w8) !! k = Some v) as Hmono28.
  { intros k v Hk. rewrite Hv78, Hver7, Hv56. apply PutObjectVersion_run in H5 as [Hmono5 _]. apply Hmono5. by rewrite Hv24. }
  split_and!; [done | by rewrite Ho78 | | | |].
  - intros k v Hk. apply Hmono28, Hmono2. by rewrite Hdb1.
  - rewrite Hvk, Hdb1 in Hnew2. intros Hnone. destruct (Hnew2 Hnone) as [c Hc]. exists c. by apply Hmono28.
  - intros Hnone Hne. cbn [dr_VersionID] in *. apply PutObjectVersion_run in H5 as [_ Hnew5].
    destruct Hnew5 as [c Hc].
    + unfold version_key. rsimpl. rewrite Hv24. apply Hother2; [by rewrite Hdb1|congruence].
    + rewrite Hv78, Hver7, Hv56. unfold version_key in Hc. revert Hc. rsimpl. intros Hc. eexists. split; [exact Hc|]. unfold version_row. by rsimpl.
  - etrans; [apply same_calls_only; etrans; [exact Hc1 | exact Hc15]|].
    etrans; [|by apply same_calls_only]. unfold deletes_replica_of in *. rewrite Hr, Hdb1 in Hcalls.
    unfold object_key in Hko. injection Hko as <- <-. exact Hcalls.
Qed.
(** *** Trash *)

(** What an object is after a stay in the trash: its version, its retention and
    its replicas are forgotten. *)
Definition restored (o : ObjectRecord) (created updated : Time) : ObjectRecord :=
  (object_row o) <| o_Metadata := o_Metadata o |> <| o_Tags := o_Tags o |> <| o_ReplicaStatus := "none" |>
    <| o_CreatedAt := created |> <| o_UpdatedAt := updated |>.

Lemma PutObject_store_succeeds o w :
  no_db_faults → is_Some (db_providers (w_db w) !! o_ProviderAccountID o) → ∃ w', PutObject_store o w = (Ok tt, w').
Proof.
  intros Hq [p Hp]. unfold PutObject_store, bind, now. destruct (is_zero (o_CreatedAt o)); eexists;
    (apply sql_write_quiet; [done|]); unfold put_object_row; cbn [fst snd]; rsimpl; by rewrite Hp.
Qed.

Lemma PutObjectAttributes_succeeds o w :
  no_db_faults → is_Some (db_objects (w_db w) !! object_key o) → ∃ w', PutObjectAttributes o w = (Ok tt, w').
Proof.
  intros Hq [x Hx]. unfold PutObjectAttributes, bind, now. eexists. apply sql_write_quiet; [done|].
  unfold put_attributes_row. cbn [fst snd]. rsimpl. by rewrite Hx.
Qed.

(** Restoring a row of the trash whose key is free and whose account exists. *)
Lemma restore_run id trash w :
  no_db_faults → db_trash (w_db w) !! id = Some trash →
  db_objects (w_db w) !! object_key (t_Object trash) = None →
  is_Some (db_providers (w_db w) !! o_ProviderAccountID (t_Object trash)) →
  o_IsDeleteMarker (t_Object trash) = false →
  ∃ w' c u, RestoreTrashObject id w = (Ok (t_Object trash), w') ∧ db_trash (w_db w') !! id = None ∧
    lookup_object (index_view (w_db w')) (object_key (t_Object trash))
    = Some ((t_Object trash) <| o_CreatedAt := c |> <| o_UpdatedAt := u |>).
Proof.
  intros Hq Ht Hfree Hp Hm. unfold RestoreTrashObject.
  run_fwd by (unfold GetTrashObject; rewrite sql_read_quiet, Ht by done; done).
  run_fwd by (unfold GetObject_store; rewrite sql_read_quiet by done; rsimpl; fold (object_key (t_Object trash)); rewrite Hfree; done).
  unfold not_found at 1. cbv iota. change (negb (errors_is (ErrSentinel ErrNotFound) ErrNotFound)) with false. cbv iota.
  edestruct (PutObject_store_succeeds (t_Object trash)) as [w1 H1]; [done| |run_fwd by exact H1]; [by rsimpl|].
  apply PutObject_store_run in H1 as (c & u & Ho & _). rsimpl.
  edestruct (PutObjectAttributes_succeeds (t_Object trash) w1) as [w2 H2]; [done| |run_fwd by exact H2].
  { rewrite Ho, lookup_insert_eq. eauto. }
  apply PutObjectAttributes_run in H2 as (t & Ha & Ho2).
  run_fwd by (unfold DeleteTrashObject; by apply sql_write_quiet). eexists. exists c, u. split; [done|]. rsimpl.
  split; [by rewrite lookup_delete_eq|]. unfold lookup_object, index_view. simpl. rsimpl. rewrite Ho2, Ho, lookup_insert_eq. simpl.
  rewrite Ha. by rewrite hydrate_row.
Qed.

Lemma PutTrashObject_run trash w w' :
  PutTrashObject trash w = (Ok tt, w') →
  db_trash (w_db w) !! t_ID trash = None ∧ db_trash (w_db w') !! t_ID trash = Some (trash_row trash).
Proof.
  unfold PutTrashObject. intros Hrun%sql_write_inv. destruct (db_trash (w_db w) !! t_ID trash); [done|].
  injection Hrun as <-. rsimpl. by rewrite lookup_insert_eq.
Qed.

(** C29. The trash round trip: an object deleted to the trash leaves the index
    without a call to its provider, and restoring it puts it back as it was,
    with its metadata and tags, at the same place of the same account; only its
    version, retention, replicas and times are new. *)
Theorem trash_restore_roundtrip bucketName key bucket o w r w' :
  no_db_faults → db_wf (w_db w) →
  db_buckets (w_db w) !! bucketName = Some bucket → b_VersioningEnabled bucket = false → b_TrashEnabled bucket = true →
  lookup_object (index_view (w_db w)) (bucketName, key) = Some o →
  DeleteObjectWithOptions bucketName key plain_delete w = (Ok r, w') →
  db_objects (w_db w') !! (bucketName, key) = None ∧
  calls_only (deletes_replica_of (w_db w) bucketName key) w w' ∧
  ∃ id o' w2 c u, RestoreTrashObject id w' = (Ok o', w2) ∧ db_trash (w_db w2) !! id = None ∧
    lookup_object (index_view (w_db w2)) (bucketName, key) = Some (restored o c u).
Proof.
  intros Hq Hwf Hb Hver Htr Hlook Hrun.
  pose proof (lookup_object_inv _ _ _ Hwf Hlook) as (row & p & Hrow & Hh & Hp & Hkey & Hpid).
  apply (delete_current_run _ _ _ bucket o) in Hrun as (Hko & p' & w1 & [Hdb1 Hc1] & Hrun); [|done..].
  rewrite Hver, Htr in Hrun. cbn [negb andb do_Permanent plain_delete] in Hrun.
  unfold delete_to_trash in Hrun. frame (on_db same_ledger) Hrun as Hl.
  run_inv Hrun as t w2 H2. run_inv Hrun as id w3 H3. run_inv Hrun as [] w4 H4. injection H2 as _ <-. injection H3 as _ <-.
  frame (on_db (same db_replicas)) H4 as Hr. frame same_calls H4 as Hc4. frame (on_db (same db_trash)) Hrun as Ht.
  apply PutTrashObject_run in H4 as [_ Ht4]. run_inv Hrun as [] w5 H5. frame same_calls Hrun as Hc5.
  pose proof (deleteObjectReplicas_calls o w4) as Hcalls. rewrite H5 in Hcalls.
  run_inv Hrun as [] w6 H6. frame (on_db (same db_objects)) Hrun as Ho. apply DeleteObject_store_run in H6 as [Hgone _].
  unfold on_db, same in *. rsimpl. rewrite <- Ho in Hgone. split_and!; [exact Hgone | |].
  - etrans; [apply same_calls_only; etrans; [exact Hc1 | exact Hc4]|].
    etrans; [|by apply same_calls_only]. unfold deletes_replica_of in *. rewrite Hr, Hdb1 in Hcalls.
    unfold object_key in Hko. injection Hko as <- <-. exact Hcalls.
  - rewrite <- Ht in Ht4. destruct (restore_run _ _ w' Hq Ht4) as (w8 & c & u & Hres & Hgone' & Hfound).
    + etrans; [|exact Hgone]. by rewrite <- Hko.
    + rewrite Hdb1 in Hl. eapply ledger_view_is_Some; [apply Hl|]. exists p. rewrite <- Hpid in Hp. exact Hp.
    + done.
    + do 5 eexists. split; [exact Hres|]. split; [exact Hgone'|]. rewrite <- Hko. exact Hfound.
Qed.
End keeps.


(** ** Where protection fails

    Three concrete runs against the demo provider. *)

Definition locked_bucket : Bucket := demo_bucket <| b_ObjectLockEnabled := true |>.
Definition trash_bucket : Bucket := demo_bucket <| b_TrashEnabled := true |> <| b_TrashRetentionDays := 30 |>.

Definition is_delete_of (provider remoteKey : string) (c : Call) : bool :=
  match c with
  | CallDelete account o => (p_ID account =? provider)%string && (o_RemoteKey o =? remoteKey)%string
  | _ => false
  end.

(** An upload under a legal hold, then a deletion during which the statement
    that reads the attributes fails. *)
Definition faulty_env (n : nat) : Env :=
  MkEnv quiet_config (λ _, demo_time) (λ n _, itoa (Z.of_nat n))
    (λ i, if decide (i = n) then Some (ErrText "database is locked") else None) (λ _, None) "" demo_registry
    (λ s, Ok s) (λ _ s, Ok s) (λ _ _ _ _ _, Ok 200).

Definition held_upload : PutObjectInput := (demo_upload "b" "k" 3) <| i_LegalHold := true |>.

Definition held_world : World :=
  (@PutObject demo_env _ held_upload (MkReader "abc" None) (start (demo_db locked_bucket))).2.

(** The lock fails open: the error of reading an object's attributes is
    dropped before the lock is tested, so one failed read lets a plain deletion
    destroy an object under a legal hold. *)
Theorem lock_fails_open :
  ∃ n, let r := @DeleteObjectWithOptions (faulty_env n) "b" "k" plain_delete held_world in
  (o_LegalHold <$> lookup_object (index_view (w_db held_world)) ("b", "k")) = Some true ∧
  is_ok r.1 = true ∧ existsb (is_delete_of "p1" "k") (w_calls r.2) = true ∧ db_objects (w_db r.2) !! ("b", "k") = None.
Proof. exists (w_stmts held_world + 2)%nat. vm_compute. done. Qed.


Definition retained_upload (mode : string) : PutObjectInput :=
  (demo_upload "b" "k" 3) <| i_RetentionMode := mode |> <| i_RetainUntil := demo_time + hour |>.

Definition retained_world (mode : string) : World :=
  (@PutObject demo_env _ (retained_upload mode) (MkReader "abc" None) (start (demo_db locked_bucket))).2.

Definition retention_request (mode : string) (until : Time) : ObjectRecord :=
  zero_ObjectRecord <| o_Bucket := "b" |> <| o_Key := "k" |> <| o_RetentionMode := mode |> <| o_RetainUntil := until |>.

(** COMPLIANCE retention can be left: a request for GOVERNANCE mode with
    the same date is accepted without the bypass, and then a deletion that
    bypasses governance destroys the object before its date. *)
Theorem compliance_can_be_downgraded :
  let E := demo_env in
  let w := retained_world "COMPLIANCE" in
  let bypass := MkDeleteObjectOptions "" true false in
  (DeleteObjectWithOptions "b" "k" bypass w).1 = locked ∧
  let r := UpdateObjectProtection (retention_request "GOVERNANCE" (demo_time + hour)) false w in
  r.1 = Ok tt ∧ is_ok (DeleteObjectWithOptions "b" "k" bypass r.2).1 = true.
Proof. vm_compute. done. Qed.

(** An object goes to the trash and its key is used again. *)
Definition reused_world : World :=
  let E := demo_env in
  let w1 := (PutObject (demo_upload "b" "k" 3) (MkReader "old" None) (start (single_db trash_bucket))).2 in
  let w2 := (DeleteObjectWithOptions "b" "k" plain_delete w1).2 in
  (PutObject (demo_upload "b" "k" 3) (MkReader "new" None) w2).2.

(** Emptying the trash destroys live data: after a deletion to the trash
    and a new upload under the same key, purging the trash deletes at the
    provider the very object the index points to, and the index keeps pointing
    to it. *)
Theorem purge_destroys_live_object :
  ∃ id, let r := @PurgeTrashObject demo_env id reused_world in
  r.1 = Ok tt ∧
  ∃ o, db_objects (w_db r.2) !! ("b", "k") = Some o ∧
    match w_calls r.2 with
    | CallDelete account deleted :: _ =>
        p_ID account = o_ProviderAccountID o ∧ o_RemoteBucket deleted = o_RemoteBucket o ∧ o_RemoteKey deleted = o_RemoteKey o
    | _ => False
    end.
Proof.
  exists (default "" (head ((map_to_list (db_trash (w_db reused_world))).*1))).
  split; [vm_compute; done|]. eexists. split; [vm_compute; reflexivity|]. vm_compute. done.
Qed.

(** An unversioned object, deleted once versioning is on, twice over: each
    upload is made while the bucket has versioning off and deleted while it has
    it on. *)
Definition twice_null_world : World :=
  let E := demo_env in
  let off := demo_bucket in
  let on := demo_bucket <| b_VersioningEnabled := true |> in
  let run bucket data w := (DeleteObjectWithOptions "b" "k" plain_delete
    (UpsertBucket on (PutObject (demo_upload "b" "k" 3) (MkReader data None) (UpsertBucket bucket w).2).2).2).2 in
  run off "new" (run off "old" (start (demo_db off))).

(** The version that is not kept: the slot of the identifier "null" is taken, the
    second deletion reports success, and no version has the data it deleted. *)
Theorem null_version_kept_back :
  db_objects (w_db twice_null_world) !! ("b", "k") = None ∧
  o_ChecksumSHA256 <$> db_versions (w_db twice_null_world) !! ("b", "k", "null") = Some (sha256_hex "old") ∧
  existsb (λ v, (o_ChecksumSHA256 v =? sha256_hex "new")%string) (rows (db_versions (w_db twice_null_world))) = false.
Proof. split_and!; vm_compute; reflexivity. Qed.

Lemma locked_object_survives_witness :
  let E := demo_env in is_ok (DeleteObjectWithOptions "b" "k" plain_delete held_world).1 = false.
Proof.
  edestruct (@locked_object_survives demo_env "b" "k" plain_delete locked_bucket
    (default zero_ObjectRecord (lookup_object (index_view (w_db held_world)) ("b", "k"))) held_world) as [(e & He & _) _].
  - apply db_wfb_sound. vm_compute. reflexivity.
  - vm_compute. reflexivity.
  - vm_compute. reflexivity.
  - reflexivity.
  - intros _. reflexivity.
  - left. reflexivity.
  - cbv zeta. rewrite He. reflexivity.
Defined.

Lemma retention_not_shortened_witness :
  let E := demo_env in
  (UpdateObjectProtection (retention_request "COMPLIANCE" demo_time) true (retained_world "COMPLIANCE")).1 = locked.
Proof.
  eapply (@retention_not_shortened demo_env (retention_request "COMPLIANCE" demo_time) true locked_bucket).
  - intros n. reflexivity.
  - apply db_wfb_sound. vm_compute. reflexivity.
  - vm_compute. reflexivity.
  - reflexivity.
  - vm_compute. reflexivity.
  - left. reflexivity.
  - intros n. vm_compute. reflexivity.
  - vm_compute. reflexivity.
Defined.

(** An upload to the given bucket, from the first state. *)
Definition stored_world (bucket : Bucket) : World :=
  (@PutObject demo_env _ (demo_upload "b" "k" 3) (MkReader "abc" None) (start (single_db bucket))).2.

Definition versioned_bucket : Bucket := demo_bucket <| b_VersioningEnabled := true |>.

Definition stored_record (bucket : Bucket) : ObjectRecord :=
  default zero_ObjectRecord (lookup_object (index_view (w_db (stored_world bucket))) ("b", "k")).

Definition demo_delete (bucket : Bucket) : result DeleteObjectResult * World :=
  @DeleteObjectWithOptions demo_env "b" "k" plain_delete (stored_world bucket).

Definition ok_or {A} (a : A) (r : result A) : A := match r with Ok a => a | Err _ => a end.

Lemma versioned_delete_keeps_data_witness :
  db_objects (w_db (demo_delete versioned_bucket).2) !! ("b", "k") = None.
Proof.
  destruct (@versioned_delete_keeps_data demo_env "b" "k" plain_delete versioned_bucket (stored_record versioned_bucket)
    (stored_world versioned_bucket) (ok_or (MkDeleteObjectResult "" false) (demo_delete versioned_bucket).1)
    (demo_delete versioned_bucket).2) as (_ & Hgone & _).
  - intros n. reflexivity.
  - apply db_wfb_sound. vm_compute. reflexivity.
  - vm_compute. reflexivity.
  - reflexivity.
  - reflexivity.
  - reflexivity.
  - vm_compute. reflexivity.
  - apply (run_pair (@DeleteObjectWithOptions demo_env "b" "k" plain_delete)). vm_compute. reflexivity.
  - exact Hgone.
Defined.

Lemma trash_restore_roundtrip_witness :
  db_objects (w_db (demo_delete trash_bucket).2) !! ("b", "k") = None.
Proof.
  destruct (@trash_restore_roundtrip demo_env "b" "k" trash_bucket (stored_record trash_bucket)
    (stored_world trash_bucket) (ok_or (MkDeleteObjectResult "" false) (demo_delete trash_bucket).1)
    (demo_delete trash_bucket).2) as (Hgone & _).
  - intros n. reflexivity.
  - apply db_wfb_sound. vm_compute. reflexivity.
  - vm_compute. reflexivity.
  - reflexivity.
  - reflexivity.
  - vm_compute. reflexivity.
  - apply (run_pair (@DeleteObjectWithOptions demo_env "b" "k" plain_delete)). vm_compute. reflexivity.
  - exact Hgone.
Defined.
