(* ===== verification/PluginJobs.v ===== *)
(** Running the jobs of WASM plugins, the other half of [app/wasm_plugins.go]:
    a claimed job executes its plugin on the object it was queued for and
    applies the result, unless the object was replaced meanwhile. *)
From S2P Require Import Prelude GoTime Sha256 Json Text Base64 Domain ProviderErrors World Sql StoreProviders StoreObjects StoreEvents Embeddings Operations Placement Providers Hooks Service Runtime Plugins Jobs Protection.

(** ** The result as JSON *)

(** Fields with [omitempty]. *)
Definition opt_map (name : string) (m : gmap string string) : list (string * json) :=
  if bool_decide (m = ∅) then [] else [(name, json_map m)].
Definition opt_string (name s : string) : list (string * json) := if (s =? "")%string then [] else [(name, JString s)].
Definition opt_array (name : string) (l : list json) : list (string * json) := match l with [] => [] | _ => [(name, JArray l)] end.

Definition embedding_json (e : WASMPluginEmbedding) : json :=
  JObject ([("kind", JString (we_Kind e)); ("model", JString (we_Model e)); ("model_version", JString (we_ModelVersion e));
            ("metric", JString (we_Metric e)); ("dimensions", JInt (we_Dimensions e))] ++ opt_map "metadata" (we_Metadata e)).

Definition derived_json (x : WASMPluginDerivedObject) : json :=
  JObject ([("path", JString (wd_Path x))] ++ opt_string "key" (wd_Key x) ++ opt_string "key_suffix" (wd_KeySuffix x)
           ++ opt_string "content_type" (wd_ContentType x) ++ opt_map "metadata" (wd_Metadata x) ++ opt_map "tags" (wd_Tags x)).

Definition operation_json (o : WASMPluginOperation) : json :=
  JObject (opt_string "id" (wo_ID o) ++ [("type", JString (wo_Type o))] ++ opt_string "bucket" (wo_Bucket o)
           ++ opt_string "key" (wo_Key o) ++ opt_string "source_bucket" (wo_SourceBucket o) ++ opt_string "source_key" (wo_SourceKey o)
           ++ opt_map "metadata" (wo_Metadata o) ++ opt_map "tags" (wo_Tags o)
           ++ opt_array "remove_metadata" (JString <$> wo_RemoveMetadata o) ++ opt_array "remove_tags" (JString <$> wo_RemoveTags o)).

(** [json.Marshal(publicResult)]: the values of embeddings are left out. *)
Definition result_json (r : WASMPluginResult) : string :=
  json_text (JObject ([("abi_version", JString (wr_ABIVersion r))] ++ opt_map "metadata" (wr_Metadata r) ++ opt_map "tags" (wr_Tags r)
    ++ opt_array "embeddings" (embedding_json <$> wr_Embeddings r) ++ opt_array "derived_objects" (derived_json <$> wr_DerivedObjects r)
    ++ opt_array "operations" (operation_json <$> wr_Operations r))).

Definition wasmPluginAlertKey (job : WASMPluginJob) : string :=
  "wasm-plugin:" +:+ wj_PluginID job +:+ ":" +:+ wj_Bucket job +:+ ":" +:+ wj_Key job.

(** [path.Base] *)
Definition path_base (path : string) : string :=
  if (path =? "")%string then "."
  else match rev (string_split "/" (trim_right_byte "/" path)) with
       | elem :: _ => if (elem =? "")%string then "/" else elem
       | [] => "/"
       end.

Example path_base_ex : path_base "derived/thumb.png" = "thumb.png". Proof. reflexivity. Qed.
Example path_base_slashes : path_base "a/b//" = "b". Proof. reflexivity. Qed.
Example path_base_root : path_base "//" = "/". Proof. reflexivity. Qed.

(** The key of a derived object. *)
Definition derived_key (plugin : WASMPlugin) (source : ObjectRecord) (derived : WASMPluginDerivedObject) : string :=
  let key := trim_left_byte "/" (trim_space (wd_Key derived)) in
  if (key =? "")%string then
    if negb (wd_KeySuffix derived =? "")%string then o_Key source +:+ wd_KeySuffix derived
    else o_Key source +:+ ".bucketmux-derived/" +:+ wp_ID plugin +:+ "/" +:+ path_base (wd_Path derived)
  else key.

Definition unsafe_derived_key (source : ObjectRecord) (cleanKey : string) : bool :=
  (cleanKey =? ".")%string || (cleanKey =? "..")%string || has_prefix cleanKey "../" || (cleanKey =? o_Key source)%string.

(** [app.EmbeddingImport] *)
Record EmbeddingImport : Type := MkEmbeddingImport {
  ei_Bucket : string;
  ei_Key : string;
  ei_ProducerID : string;
  ei_SourceChecksum : string;
  ei_SourceUpdatedAt : Time;
  ei_Embeddings : list WASMPluginEmbedding }.

Section jobs.
Context `{Env} `{!Pipelines} `{!WasmHost}.

(** *** Operations *)

Definition patch_object (operation : WASMPluginOperation) (object : ObjectRecord) : ObjectRecord :=
  if (wo_Type operation =? WASMPluginOperationMetadataPatch)%string
  then object <| o_Metadata := patchStringMap (o_Metadata object) (wo_Metadata operation) (wo_RemoveMetadata operation) |>
  else object <| o_Tags := patchStringMap (o_Tags object) (wo_Tags operation) (wo_RemoveTags operation) |>.

Definition apply_patch (operation : WASMPluginOperation) : M (result unit) :=
  let? object := GetObject_store (wo_Bucket operation) (wo_Key operation) in
  let! hydrated := HydrateObjectAttributes object in
  let '(object, r) := hydrated in
  let? _ := lift r in
  PutObjectAttributes (patch_object operation object).

(** Without versions a copy replaces its target, which must not be locked. *)
Definition check_copy_target (operation : WASMPluginOperation) (targetBucket : Bucket) : M (result unit) :=
  if b_VersioningEnabled targetBucket then ret_ok tt
  else
    let! existing := GetObject_store (wo_Bucket operation) (wo_Key operation) in
    match existing with
    | Ok existing =>
        let! existing := hydrated existing in
        wrap_err "copy target is protected" (validateObjectDeletion existing plain_delete)
    | Err e => if errors_is e ErrNotFound then ret_ok tt else ret_err e
    end.

Definition copy_input (operation : WASMPluginOperation) (source : ObjectRecord) : PutObjectInput :=
  zero_PutObjectInput <| i_Bucket := wo_Bucket operation |> <| i_Key := wo_Key operation |> <| i_Size := o_Size source |>
    <| i_ContentType := o_ContentType source |>
    <| i_Metadata := patchStringMap (o_Metadata source) (wo_Metadata operation) (wo_RemoveMetadata operation) |>
    <| i_Tags := patchStringMap (o_Tags source) (wo_Tags operation) (wo_RemoveTags operation) |>
    <| i_ChecksumSHA256 := o_ChecksumSHA256 source |> <| i_SkipWASMPipelines := true |>.

Definition apply_copy (operation : WASMPluginOperation) : M (result unit) :=
  let? targetBucket := wrap_err "load target bucket" (GetBucket (wo_Bucket operation)) in
  let? _ := check_copy_target operation targetBucket in
  let? copy := wrap_err "read copy source" (GetObject (wo_SourceBucket operation) (wo_SourceKey operation)) in
  let '(body, source) := copy in
  let? _ := PutObject (copy_input operation source) body in
  ret_ok tt.

Definition apply_delete (operation : WASMPluginOperation) : M (result unit) :=
  let! r := DeleteObjectWithOptions (wo_Bucket operation) (wo_Key operation) plain_delete in
  ret (match r with
       | Ok _ => Ok tt
       | Err e => if errors_is e ErrNotFound then Ok tt else Err e
       end).

Definition applyWASMPluginOperation (operation : WASMPluginOperation) : M (result unit) :=
  if (wo_Type operation =? WASMPluginOperationMetadataPatch)%string || (wo_Type operation =? WASMPluginOperationTagsPatch)%string
  then apply_patch operation
  else if (wo_Type operation =? WASMPluginOperationObjectCopy)%string then apply_copy operation
  else if (wo_Type operation =? WASMPluginOperationObjectDelete)%string then apply_delete operation
  else ret_err (ErrText ("unsupported operation type " +:+ quoted (wo_Type operation))).

Definition operation_event (plugin : WASMPlugin) (operation : WASMPluginOperation) : AuditEvent :=
  zero_AuditEvent <| au_Actor := "wasm:" +:+ wp_ID plugin |> <| au_Action := AuditActionWASMOperation |>
    <| au_Bucket := wo_Bucket operation |> <| au_Key := wo_Key operation |> <| au_TargetID := wo_ID operation |>
    <| au_Detail := wo_Type operation |>.

Definition apply_operations (plugin : WASMPlugin) (operations : list WASMPluginOperation) : M (result unit) :=
  for_each_ok operations (λ operation,
    let? _ := wrap_err ("apply operation " +:+ quoted (wo_ID operation) +:+ " (" +:+ wo_Type operation +:+ ")")
                (applyWASMPluginOperation operation) in
    let! _ := RecordAuditEvent (operation_event plugin operation) in
    ret_ok tt).

(** *** Derived objects *)

Definition derived_input (plugin : WASMPlugin) (source : ObjectRecord) (derived : WASMPluginDerivedObject) (cleanKey data : string) : PutObjectInput :=
  zero_PutObjectInput <| i_Bucket := o_Bucket source |> <| i_Key := cleanKey |> <| i_Size := Z.of_nat (String.length data) |>
    <| i_ContentType := wd_ContentType derived |>
    <| i_Metadata := mergeStringMaps (wd_Metadata derived)
         (<["bucketmux-derived-from" := o_Key source]> {["bucketmux-wasm-plugin" := wp_ID plugin]}) |>
    <| i_Tags := wd_Tags derived |> <| i_SkipWASMPipelines := true |>.

Definition store_derived (plugin : WASMPlugin) (source : ObjectRecord) (execution : Execution) (derived : WASMPluginDerivedObject) : M (result unit) :=
  let key := derived_key plugin source derived in
  let cleanKey := path_clean key in
  if unsafe_derived_key source cleanKey then ret_err (ErrText ("unsafe derived object key " +:+ quoted key))
  else
    let? data := lift (OpenDerived execution (wd_Path derived)) in
    let? _ := wrap_err ("store derived object " +:+ quoted cleanKey)
                (PutObject (derived_input plugin source derived cleanKey data) (MkReader data None)) in
    ret_ok tt.

(** *** Results *)

Definition superseded {A} : M (result A) := ret_err (ErrSentinel ErrWASMSourceSuperseded).

(** The object is not the one the plugin has read. *)
Definition replaced (source current : ObjectRecord) : bool :=
  negb (o_ChecksumSHA256 source =? "")%string && negb (o_ChecksumSHA256 current =? o_ChecksumSHA256 source)%string
  || negb (o_UpdatedAt current =? o_UpdatedAt source).

Definition replace_embeddings (current : ObjectRecord) (plugin : WASMPlugin) (execution : Execution) : M (result unit) :=
  let! r := ReplaceObjectEmbeddings current (wp_ID plugin) (wr_Embeddings (ex_Result execution)) in
  match r with
  | Ok _ => ret_ok tt
  | Err e => if errors_is e ErrObjectGenerationSuperseded then superseded else ret_err (ErrWrap "store plugin embeddings" e)
  end.

Definition applyWASMPluginResult (plugin : WASMPlugin) (source : ObjectRecord) (execution : Execution) : M (result unit) :=
  let r := ex_Result execution in
  let? operations := wrap_err "validate plugin operations"
                       (lift (ValidateOperations plugin (MkPluginSource (o_Bucket source) (o_Key source)) (wr_Operations r))) in
  let? current := wrap_err "reload source object" (GetObject_store (o_Bucket source) (o_Key source)) in
  if replaced source current then superseded
  else
    let! current := hydrated current in
    let? _ := replace_embeddings current plugin execution in
    let current := current <| o_Metadata := mergeStringMaps (o_Metadata current) (wr_Metadata r) |>
                           <| o_Tags := mergeStringMaps (o_Tags current) (wr_Tags r) |> in
    let? _ := wrap_err "store plugin metadata" (PutObjectAttributes current) in
    let? _ := for_each_ok (wr_DerivedObjects r) (store_derived plugin source execution) in
    apply_operations plugin operations.

(** *** Jobs *)

(** [time.Duration(1<<min(attempts, 8)) * time.Second] *)
Definition plugin_retry_delay (attempts : Z) : Duration := duration_mul (2 ^ Z.min attempts 8) second.

Definition failWASMPluginJob (job : WASMPluginJob) (cause : error) (permanent : bool) : M (result unit) :=
  let job := job <| wj_LastError := error_text cause |> in
  let! job := (if negb permanent && (wj_Attempts job <? wj_MaxAttempts job) then
                 let! t := now in
                 ret (job <| wj_Status := WASMPluginStatusPending |> <| wj_NextAttemptAt := add_time t (plugin_retry_delay (wj_Attempts job)) |>)
               else
                 let! t := now in
                 let job := job <| wj_Status := WASMPluginStatusFailed |> <| wj_FinishedAt := t |> in
                 let! _ := raiseAlert (zero_Alert <| al_DedupeKey := wasmPluginAlertKey job |> <| al_Type := AlertTypeWASMPluginFailed |>
                             <| al_Severity := AlertSeverityWarning |> <| al_Bucket := wj_Bucket job |> <| al_Key := wj_Key job |>
                             <| al_Message := error_text cause |>) in
                 ret job) in
  let! _ := ignore (UpdateWASMPluginJob job) in
  ret_err cause.

Definition supersede_job (job : WASMPluginJob) (message : string) : M (result unit) :=
  let! t := now in
  UpdateWASMPluginJob (job <| wj_Status := WASMPluginStatusSuperseded |> <| wj_LastError := message |> <| wj_FinishedAt := t |>).

(** The object is not the one the job was queued for. *)
Definition stale_source (job : WASMPluginJob) (object : ObjectRecord) : bool :=
  negb (wj_SourceChecksum job =? "")%string && negb (o_ChecksumSHA256 object =? wj_SourceChecksum job)%string
  || negb (is_zero (wj_SourceUpdatedAt job)) && negb (o_UpdatedAt object =? wj_SourceUpdatedAt job).

Definition job_invocation (plugin : WASMPlugin) (job : WASMPluginJob) (object : ObjectRecord) : WASMPluginInvocation :=
  MkWASMPluginInvocation "" (wj_Event job) (wj_ID job)
    (MkWASMPluginObject (o_Bucket object) (o_Key object) (o_Size object) (o_ContentType object) (o_ETag object)
       (o_ChecksumSHA256 object) (o_Metadata object) (o_Tags object) "")
    "" (wp_Config plugin) (wp_OperationPolicy plugin).

Definition complete_plugin_job (job : WASMPluginJob) (execution : Execution) : M (result unit) :=
  let job := job <| wj_Status := WASMPluginStatusSucceeded |> <| wj_LastError := "" |>
                 <| wj_ResultJSON := result_json (ex_Result execution) |> in
  let! t := now in
  let job := job <| wj_FinishedAt := t |> in
  let! _ := ignore (ResolveAlert (wasmPluginAlertKey job)) in
  UpdateWASMPluginJob job.

(** The execution of a job whose object is still the one it was queued for. *)
Definition execute_job (plugin : WASMPlugin) (module : string) (job : WASMPluginJob) (object : ObjectRecord) : M (result unit) :=
  let! read := GetObject (o_Bucket object) (o_Key object) in
  match read with
  | Err e => failWASMPluginJob job (ErrWrap "read source object" e) false
  | Ok (body, _) =>
      let! executed := Execute module plugin (job_invocation plugin job object) body in
      match executed with
      | Err e => failWASMPluginJob job e false
      | Ok execution =>
          let! applied := applyWASMPluginResult plugin object execution in
          match applied with
          | Ok _ => complete_plugin_job job execution
          | Err e => if errors_is e ErrWASMSourceSuperseded then supersede_job job (error_text e) else failWASMPluginJob job e false
          end
      end
  end.

Definition runWASMPluginJob (job : WASMPluginJob) : M (result unit) :=
  let! found := GetWASMPlugin (wj_PluginID job) in
  match found with
  | Err e => failWASMPluginJob job (ErrWrap "load plugin" e) true
  | Ok plugin =>
      if negb (wp_Enabled plugin) then failWASMPluginJob job (ErrText "plugin is disabled") true
      else match base64std_decode (wp_ModuleBase64 plugin) with
           | None => failWASMPluginJob job (ErrWrap "decode plugin module" (ErrText "illegal base64 data")) true
           | Some module =>
               let! loaded := GetObject_store (wj_Bucket job) (wj_Key job) in
               match loaded with
               | Err e => failWASMPluginJob job (ErrWrap "load source object" e) true
               | Ok object =>
                   let! object := hydrated object in
                   if stale_source job object then supersede_job job "source object was replaced before plugin execution"
                   else execute_job plugin (text_of_bytes module) job object
               end
           end
  end.

(** [StartWASMPluginWorker] *)
Definition plugin_worker : durableWorker :=
  MkDurableWorker "wasm-plugins" (2 * minute)
    (Some (λ cutoff, let? _ := RecoverStaleWASMPluginJobs cutoff in ret_ok tt))
    (let! t := now in
     let? claimed := ClaimNextWASMPluginJob t in
     ret_ok (match claimed with Some job => Some (runWASMPluginJob job) | None => None end)).

(** *** Embeddings of the service *)

Definition ListObjectEmbeddings_service (bucket key : string) : M (result (list ObjectEmbedding)) :=
  let? _ := GetObject_store bucket key in ListObjectEmbeddings bucket key false.

Definition SearchObjectEmbeddings_service (query : EmbeddingSearchQuery) : M (result (list EmbeddingSearchResult)) :=
  SearchObjectEmbeddings query.

(** [ImportObjectEmbeddings] of [app/embedding_import.go]: vectors computed by
    an external worker, for the generation of the object it has read. *)
Definition trim_import (input : EmbeddingImport) : EmbeddingImport :=
  MkEmbeddingImport (trim_space (ei_Bucket input)) (trim_space (ei_Key input)) (trim_space (ei_ProducerID input))
    (trim_space (ei_SourceChecksum input)) (ei_SourceUpdatedAt input) (ei_Embeddings input).

Definition import_incomplete (input : EmbeddingImport) : bool :=
  (ei_Bucket input =? "")%string || (ei_Key input =? "")%string || (ei_ProducerID input =? "")%string
  || (ei_SourceChecksum input =? "")%string || is_zero (ei_SourceUpdatedAt input).

(** [len(input.ProducerID) > 128 || strings.ContainsAny(input.ProducerID, "\x00\r\n")] *)
Definition bad_producer (id : string) : bool :=
  (128 <? Z.of_nat (String.length id)) || negb (free_of (λ c, existsb (Z.eqb (byte_of c)) [0; 13; 10]) id).

Definition ImportObjectEmbeddings (input : EmbeddingImport) : M (result (list ObjectEmbedding)) :=
  let input := trim_import input in
  if import_incomplete input then ret_err (ErrText "bucket, key, producer_id, source_checksum and source_updated_at are required")
  else if bad_producer (ei_ProducerID input) then ret_err (ErrText "producer_id is invalid")
  else
    let? object := GetObject_store (ei_Bucket input) (ei_Key input) in
    if negb (o_ChecksumSHA256 object =? ei_SourceChecksum input)%string || negb (o_UpdatedAt object =? ei_SourceUpdatedAt input)
    then ret_err (ErrSentinel ErrEmbeddingSourceSuperseded)
    else
      let! stored := ReplaceObjectEmbeddings object (ei_ProducerID input) (ei_Embeddings input) in
      match stored with
      | Err e => if errors_is e ErrObjectGenerationSuperseded then ret_err (ErrSentinel ErrEmbeddingSourceSuperseded)
                 else ret_err (ErrWrap "store imported embeddings" e)
      | Ok _ => ListObjectEmbeddings (ei_Bucket input) (ei_Key input) false
      end.
End jobs.
