(* ===== verification/Gateway.v ===== *)
(** The S3 gateway: [gateway/handler.go], [gateway/object_compat.go],
    [gateway/protection.go], [gateway/multipart.go], [gateway/notifications.go].
    Every handler maps a request and its body to a response; the XML values it
    reads and writes are the structs that encoding/xml decodes and encodes. *)
From S2P Require Import Prelude GoTime Json Text Url Stamp Http HttpDate Hmac Base64 Domain ProviderErrors World Sql StoreProviders StoreObjects StoreEvents Access SigV4 PostPolicy Providers S3Request Hooks Service Protection Multipart.

(** ** What is read *)

(** [notificationTargetXML]; a missing filter has no rules. *)
Record notificationTarget : Type := MkNotificationTarget {
  nt_ID : string; nt_Queue : string; nt_Topic : string; nt_CloudFunction : string;
  nt_Events : list string; nt_Rules : list (string * string) }.

Record lockConfiguration : Type := MkLockConfiguration {
  lk_ObjectLockEnabled : string; lk_Rule : option (string * Z * Z) }. (* mode, days, years *)

(** The file of a form and what its part says about it. *)
Record formFile : Type := MkFormFile { ff_Filename : string; ff_Size : Z; ff_ContentType : string; ff_Content : Reader }.

(** What the handlers leave to the Go library and the host: decoding a request
    body and the abbreviations of the local time zone. *)
Class HttpHost : Type := {
  local_zone : string → Time → option Z;
  decode_versioning : Reader → result string;
  decode_lock : Reader → result lockConfiguration;
  decode_retention : Reader → result (string * string);     (* mode, date *)
  decode_legal_hold : Reader → result string;
  decode_tagging : Reader → result (list (string * string));
  decode_delete : Reader → result (list (string * string) * bool); (* keys with versions, quiet *)
  decode_parts : Reader → list Z;           (* what was decoded, also before an error *)
  decode_notification : Reader → result (list notificationTarget); (* queues, topics, functions *)
  decode_form : Request → Reader → result (Values * option formFile) }. (* the file field *)

(** ** What is written *)

Record objectEntry : Type := MkObjectEntry { oe_Key : string; oe_LastModified : string; oe_ETag : string; oe_Size : Z }.

Record listBucketResult : Type := MkListBucketResult {
  lb_Name : string; lb_Prefix : string; lb_StartAfter : string; lb_ContinuationToken : string;
  lb_NextContinuationToken : string; lb_Delimiter : string; lb_KeyCount : Z; lb_MaxKeys : Z; lb_IsTruncated : bool;
  lb_Contents : list objectEntry; lb_CommonPrefixes : list string }.

Record versionEntry : Type := MkVersionEntry {
  ve_Key : string; ve_VersionID : string; ve_IsLatest : bool; ve_LastModified : string; ve_ETag : string; ve_Size : Z }.

Inductive Payload : Type :=
| NoBody
| Data (content : string)
| ErrorXML (code message : string)
| BucketsXML (buckets : list (string * string))
| LocationXML (region : string)
| ListXML (l : listBucketResult)
| VersioningXML (status : string)
| LockXML (enabled : string) (rule : option (string * Z))
| RetentionXML (mode date : string)
| LegalHoldXML (status : string)
| VersionsXML (name prefix : string) (maxKeys : Z) (versions markers : list versionEntry)
| TaggingXML (tags : gmap string string)
| CopyXML (lastModified etag : string)
| DeleteXML (deleted : list (string * string)) (errors : list (string * string * string))
| InitiateXML (bucket key uploadID : string)
| CompleteXML (location bucket key etag : string)
| PartsXML (bucket key uploadID : string) (parts : list (Z * string * Z))
| NotificationXML (targets : list notificationTarget)
| PostXML (location bucket key etag : string).

Record Response : Type := MkResponse { rs_Status : Z; rs_Header : gmap string string; rs_Body : Payload }.

Definition set_header (h : gmap string string) (name value : string) : gmap string string := <[canonical_header_key name := value]> h.

Definition status_only (status : Z) : Response := MkResponse status ∅ NoBody.
Definition xml_response (status : Z) (body : Payload) : Response := MkResponse status {[ "Content-Type" := "application/xml" ]} body.
Definition writeS3Error (status : Z) (code message : string) : Response := xml_response status (ErrorXML code message).

(** [http.MaxBytesReader] *)
Definition max_bytes (n : Z) (body : Reader) : Reader :=
  if Z.of_nat (String.length (rd_data body)) <=? n then body
  else MkReader (string_take (Z.to_nat n) (rd_data body)) (Some (ErrSentinel ErrBodyTooLarge)).

Definition mebibyte : Z := 1048576.

Definition no_such_bucket : Response := writeS3Error 404 "NoSuchBucket" "bucket not found".
Definition internal_error (e : error) : Response := writeS3Error 500 "InternalError" (error_text e).
Definition malformed (e : error) : Response := writeS3Error 400 "MalformedXML" (error_text e).

Definition writeObjectError (e : error) : Response :=
  if errors_is e ErrUploadTooLarge then writeS3Error 413 "EntityTooLarge" (error_text e)
  else if errors_is e ErrNotFound then writeS3Error 404 "NoSuchKey" "object not found"
  else if errors_is e ErrObjectLocked then writeS3Error 403 "AccessDenied" (error_text e)
  else writeS3Error 502 "ProviderError" (error_text e).

Definition writeObjectLockHeaders (object : ObjectRecord) (h : gmap string string) : gmap string string :=
  let h := if negb (o_RetentionMode object =? "")%string then set_header h "X-Amz-Object-Lock-Mode" (o_RetentionMode object) else h in
  let h := if negb (is_zero (o_RetainUntil object))
           then set_header h "X-Amz-Object-Lock-Retain-Until-Date" (rfc3339 (o_RetainUntil object)) else h in
  if o_LegalHold object then set_header h "X-Amz-Object-Lock-Legal-Hold" "ON" else h.

Definition setObjectHeaders (obj : ObjectRecord) : gmap string string :=
  let h := if negb (o_ContentType obj =? "")%string then set_header ∅ "Content-Type" (o_ContentType obj) else ∅ in
  let h := if negb (o_ETag obj =? "")%string then set_header h "ETag" (o_ETag obj) else h in
  let h := if 0 <=? o_Size obj then set_header h "Content-Length" (itoa (o_Size obj)) else h in
  let h := set_header h "X-S3LS-Provider-Account" (o_ProviderAccountID obj) in
  let h := set_header h "X-S3LS-Replica-Status" (o_ReplicaStatus obj) in
  let h := if negb (o_VersionID obj =? "")%string then set_header h "X-Amz-Version-Id" (o_VersionID obj) else h in
  let h := map_fold (λ name value h, set_header h ("X-Amz-Meta-" +:+ name) value) h (o_Metadata obj) in
  writeObjectLockHeaders obj h.

Definition setS3CORSHeaders : gmap string string :=
  let h := set_header ∅ "Access-Control-Allow-Origin" "*" in
  let h := set_header h "Access-Control-Allow-Methods" "GET,PUT,POST,DELETE,HEAD,OPTIONS" in
  let h := set_header h "Access-Control-Allow-Headers" "Authorization,Content-Type,Content-MD5,If-Match,If-None-Match,If-Modified-Since,If-Unmodified-Since,X-Amz-Date,X-Amz-Content-Sha256,X-Amz-Security-Token,X-Amz-Acl,X-Amz-Copy-Source,X-Amz-Metadata-Directive,X-Amz-Tagging,X-S3LS-Access-Key,X-S3LS-Secret-Key" in
  let h := set_header h "Access-Control-Expose-Headers" "ETag,Location,Content-Length,Content-Range,X-Amz-Version-Id,X-S3LS-Provider-Account,X-S3LS-Replica-Status" in
  set_header h "Access-Control-Max-Age" "3000".

(** The bytes of a range, and what the headers say about it. *)
Definition writeRangeObject (header : string) (body : Reader) (obj : ObjectRecord) (h : gmap string string) : Response :=
  match parseSingleRange header (o_Size obj) with
  | None =>
      MkResponse 416 (set_header (set_header h "Content-Range" ("bytes */" +:+ itoa (o_Size obj))) "Content-Type" "application/xml")
        (ErrorXML "InvalidRange" "requested range is not satisfiable")
  | Some (start, end_) =>
      if (0 <? start) && (Z.of_nat (String.length (rd_data body)) <? start)
      then MkResponse 502 (set_header h "Content-Type" "application/xml")
             (ErrorXML "ProviderError" (match rd_err body with Some e => error_text e | None => "EOF" end))
      else
        let length := add64 (sub64 end_ start) 1 in
        let h := set_header h "Content-Range" ("bytes " +:+ itoa start +:+ "-" +:+ itoa end_ +:+ "/" +:+ itoa (o_Size obj)) in
        MkResponse 206 (set_header h "Content-Length" (itoa length))
          (Data (string_take (Z.to_nat length) (string_drop (Z.to_nat start) (rd_data body))))
  end.

(** ** Listing *)

(** The common prefix a delimiter puts a key under. *)
Definition commonPrefix (prefix delimiter key : string) : option string :=
  if (delimiter =? "")%string then None
  else match string_cut (trim_prefix key prefix) delimiter with
       | Some (before, _) => Some (prefix +:+ before +:+ delimiter)
       | None => None
       end.

Definition list_entry (obj : ObjectRecord) : objectEntry :=
  MkObjectEntry (o_Key obj) (rfc3339 (o_UpdatedAt obj)) (o_ETag obj) (o_Size obj).

(** The page that [objects], one more than asked for, are answered with. *)
Definition list_page (bucket prefix startAfter token delimiter : string) (limit : Z) (objects : list ObjectRecord) : listBucketResult :=
  let truncated := limit <? Z.of_nat (List.length objects) in
  let objects := if truncated then take (Z.to_nat limit) objects else objects in
  let contents := list_entry <$> List.filter (λ o, match commonPrefix prefix delimiter (o_Key o) with None => true | Some _ => false end) objects in
  let prefixes := sort_strings (elements (list_to_set (C := gset string) (omap (λ o, commonPrefix prefix delimiter (o_Key o)) objects))) in
  let next := match last objects with
              | Some o => if truncated then base64url_encode (o_Key o) else ""
              | None => ""
              end in
  MkListBucketResult bucket prefix startAfter token next delimiter
    (Z.of_nat (List.length contents) + Z.of_nat (List.length prefixes)) limit truncated contents prefixes.

Section gateway.
Context `{Env} `{!Pipelines} `{!HttpHost} `{!PolicyHost} (auth : Authenticator).

Definition query (r : Request) (name : string) : string := values_get (rq_Query r) name.
Definition bypass_header (r : Request) : bool := equal_fold (rq_header r "X-Amz-Bypass-Governance-Retention") "true".

(** ** Buckets *)

Definition listBuckets : M Response :=
  let! buckets := ListBuckets in
  ret (match buckets with
       | Ok l => xml_response 200 (BucketsXML ((λ b, (b_Name b, rfc3339 (b_CreatedAt b))) <$> l))
       | Err e => internal_error e
       end).

Definition getBucketLocation (bucket : string) : M Response :=
  let! found := GetBucket bucket in
  ret (match found with Ok _ => xml_response 200 (LocationXML (cfg_Region env_config)) | Err _ => no_such_bucket end).

Definition getBucketVersioning (bucketName : string) : M Response :=
  let! found := GetBucket bucketName in
  ret (match found with
       | Ok bucket => xml_response 200 (VersioningXML (if b_VersioningEnabled bucket then "Enabled" else "Suspended"))
       | Err _ => no_such_bucket
       end).

(** [UpsertBucket] and its answer. *)
Definition save_bucket (bucket : Bucket) : M Response :=
  let! saved := UpsertBucket bucket in
  ret (match saved with Ok _ => status_only 200 | Err e => internal_error e end).

Definition putBucketVersioning (bucketName : string) (body : Reader) : M Response :=
  let! found := GetBucket bucketName in
  match found with
  | Err _ => ret no_such_bucket
  | Ok bucket =>
      match decode_versioning (max_bytes mebibyte body) with
      | Err e => ret (malformed e)
      | Ok status =>
          if negb (status =? "Enabled")%string && negb (status =? "Suspended")%string
          then ret (writeS3Error 400 "InvalidArgument" "Status must be Enabled or Suspended")
          else save_bucket (bucket <| b_VersioningEnabled := (status =? "Enabled")%string |>)
      end
  end.

Definition getBucketObjectLock (bucketName : string) : M Response :=
  let! found := GetBucket bucketName in
  ret (match found with
       | Err _ => no_such_bucket
       | Ok bucket =>
           xml_response 200 (LockXML (if b_ObjectLockEnabled bucket then "Enabled" else "")
             (if 0 <? b_DefaultRetentionDays bucket then Some (b_DefaultRetentionMode bucket, b_DefaultRetentionDays bucket) else None))
       end).

Definition putBucketObjectLock (bucketName : string) (body : Reader) : M Response :=
  let! found := GetBucket bucketName in
  match found with
  | Err _ => ret no_such_bucket
  | Ok bucket =>
      match decode_lock (max_bytes mebibyte body) with
      | Err e => ret (malformed e)
      | Ok request =>
          if negb (lk_ObjectLockEnabled request =? "Enabled")%string
          then ret (writeS3Error 400 "InvalidArgument" "ObjectLockEnabled must be Enabled")
          else
            let bucket := bucket <| b_ObjectLockEnabled := true |> <| b_VersioningEnabled := true |> in
            match lk_Rule request with
            | None => save_bucket bucket
            | Some (mode, days, years) =>
                let mode := to_upper mode in
                let days := add64 days (mul64 years 365) in
                if negb (mode =? "GOVERNANCE")%string && negb (mode =? "COMPLIANCE")%string
                then ret (writeS3Error 400 "InvalidArgument" "retention Mode must be GOVERNANCE or COMPLIANCE")
                else if days <=? 0
                then ret (writeS3Error 400 "InvalidArgument" "retention Days or Years must be positive")
                else save_bucket (bucket <| b_DefaultRetentionMode := mode |> <| b_DefaultRetentionDays := days |>)
            end
      end
  end.

Definition listObjects (r : Request) (bucket : string) : M Response :=
  let limit := limitOrDefault (parse_int_value (query r "max-keys")) in
  let prefix := query r "prefix" in
  let token := query r "continuation-token" in
  match (if (token =? "")%string then Some (query r "start-after") else base64url_decode token) with
  | None => ret (writeS3Error 400 "InvalidArgument" "continuation-token is invalid")
  | Some startAfter =>
      let! listed := ListObjectsAfter bucket prefix startAfter (limit + 1) in
      ret (match listed with
           | Err e => writeObjectError e
           | Ok objects => xml_response 200 (ListXML (list_page bucket prefix startAfter token (query r "delimiter") limit objects))
           end)
  end.

(** The listed versions with the first of each key marked as the latest. *)
Fixpoint version_entries (seen : gset string) (versions : list ObjectRecord) : list (bool * versionEntry) :=
  match versions with
  | [] => []
  | object :: rest =>
      let latest := negb (bool_decide (o_Key object ∈ seen)) in
      let created := rfc3339 (o_CreatedAt object) in
      (o_IsDeleteMarker object,
       if o_IsDeleteMarker object then MkVersionEntry (o_Key object) (o_VersionID object) latest created "" 0
       else MkVersionEntry (o_Key object) (o_VersionID object) latest created (o_ETag object) (o_Size object))
      :: version_entries ({[ o_Key object ]} ∪ seen) rest
  end.

Definition listObjectVersions (r : Request) (bucket : string) : M Response :=
  let limit := limitOrDefault (parse_int_value (query r "max-keys")) in
  let prefix := query r "prefix" in
  let! listed := ListObjectVersions bucket prefix limit in
  ret (match listed with
       | Err e => writeObjectError e
       | Ok versions =>
           let entries := version_entries ∅ versions in
           xml_response 200 (VersionsXML bucket prefix limit
             (List.filter (λ e, negb e.1) entries).*2 (List.filter (λ e, e.1) entries).*2)
       end).

(** ** Notifications *)

Definition s3EventToDomain (event : string) : option string :=
  if has_prefix event "s3:ObjectCreated:" then Some HookEventObjectCreated
  else if has_prefix event "s3:ObjectRemoved:" then Some HookEventObjectDeleted
  else None.

Definition domainEventToS3 (event : string) : string :=
  if (event =? HookEventObjectDeleted)%string then "s3:ObjectRemoved:*" else "s3:ObjectCreated:*".

Definition firstNonEmptyString (values : list string) : string :=
  default "" (List.find (λ v, negb (v =? "")%string) values).

Definition webhook_arn : string := "arn:bucketmux:webhook:".

(** One row more: its target is made from the first row with its identifier. *)
Fixpoint add_notification (targets : list notificationTarget) (n : BucketNotification) : list notificationTarget :=
  match targets with
  | [] =>
      [MkNotificationTarget (bn_ID n) (webhook_arn +:+ bn_HookID n) "" "" [domainEventToS3 (bn_Event n)]
         ((if (bn_Prefix n =? "")%string then [] else [("prefix"%string, bn_Prefix n)])
          ++ (if (bn_Suffix n =? "")%string then [] else [("suffix"%string, bn_Suffix n)]))]
  | target :: rest =>
      if (nt_ID target =? bn_ID n)%string
      then MkNotificationTarget (nt_ID target) (nt_Queue target) (nt_Topic target) (nt_CloudFunction target)
             (nt_Events target ++ [domainEventToS3 (bn_Event n)]) (nt_Rules target) :: rest
      else target :: add_notification rest n
  end.

Definition getBucketNotification (bucket : string) : M Response :=
  let! found := GetBucket bucket in
  match found with
  | Err _ => ret no_such_bucket
  | Ok _ =>
      let! listed := ListBucketNotifications bucket in
      ret (match listed with
           | Err e => internal_error e
           | Ok notifications => xml_response 200 (NotificationXML (fold_left add_notification notifications []))
           end)
  end.

Definition invalid_argument (message : string) : Response := writeS3Error 400 "InvalidArgument" message.

(** The prefix and the suffix that the rules of a filter ask for. *)
Fixpoint filter_rules (rules : list (string * string)) (prefix suffix : string) : Response + (string * string) :=
  match rules with
  | [] => inr (prefix, suffix)
  | (name, value) :: rest =>
      if (to_lower name =? "prefix")%string then filter_rules rest value suffix
      else if (to_lower name =? "suffix")%string then filter_rules rest prefix value
      else inl (invalid_argument "notification filters only support prefix and suffix")
  end.

Fixpoint target_events (bucket : string) (target : notificationTarget) (hookID prefix suffix : string) (events : list string)
    : Response + list BucketNotification :=
  match events with
  | [] => inr []
  | event :: rest =>
      match s3EventToDomain event with
      | None => inl (invalid_argument ("unsupported event " +:+ quoted event))
      | Some domainEvent =>
          match target_events bucket target hookID prefix suffix rest with
          | inl response => inl response
          | inr l => inr (MkBucketNotification (nt_ID target) bucket hookID domainEvent prefix suffix :: l)
          end
      end
  end.

Definition target_notifications (bucket : string) (target : notificationTarget) : M (Response + list BucketNotification) :=
  if (nt_ID target =? "")%string then ret (inl (invalid_argument "notification Id is required"))
  else
    let destination := firstNonEmptyString [nt_Queue target; nt_Topic target; nt_CloudFunction target] in
    let hookID := trim_prefix destination webhook_arn in
    if (hookID =? destination)%string || (hookID =? "")%string
    then ret (inl (invalid_argument "destination must use arn:bucketmux:webhook:<hook-id>"))
    else
      let! hook := GetHook hookID in
      match hook with
      | Err _ => ret (inl (invalid_argument ("hook " +:+ quoted hookID +:+ " does not exist")))
      | Ok _ =>
          ret (match filter_rules (nt_Rules target) "" "" with
               | inl response => inl response
               | inr (prefix, suffix) => target_events bucket target hookID prefix suffix (nt_Events target)
               end)
      end.

Fixpoint all_notifications (bucket : string) (targets : list notificationTarget) : M (Response + list BucketNotification) :=
  match targets with
  | [] => ret (inr [])
  | target :: rest =>
      let! first := target_notifications bucket target in
      match first with
      | inl response => ret (inl response)
      | inr l =>
          let! others := all_notifications bucket rest in
          ret (match others with inl response => inl response | inr k => inr (l ++ k) end)
      end
  end.

Definition putBucketNotification (bucket : string) (body : Reader) : M Response :=
  let! found := GetBucket bucket in
  match found with
  | Err _ => ret no_such_bucket
  | Ok _ =>
      match decode_notification (max_bytes (2 * mebibyte) body) with
      | Err e => ret (malformed e)
      | Ok targets =>
          let! r := all_notifications bucket targets in
          match r with
          | inl response => ret response
          | inr notifications =>
              let! replaced := ReplaceBucketNotifications bucket notifications in
              ret (match replaced with Ok _ => status_only 200 | Err e => internal_error e end)
          end
      end
  end.

(** ** Objects *)

Definition put_input (r : Request) (bucket key : string) : PutObjectInput :=
  let h := rq_header r in
  let retainUntil := h "X-Amz-Object-Lock-Retain-Until-Date" in
  zero_PutObjectInput <| i_Bucket := bucket |> <| i_Key := key |> <| i_Size := rq_ContentLength r |>
    <| i_ContentType := h "Content-Type" |> <| i_Metadata := objectMetadataFromHeaders (rq_Header r) |>
    <| i_Tags := parseTaggingHeader (h "X-Amz-Tagging") |> <| i_RetentionMode := to_upper (h "X-Amz-Object-Lock-Mode") |>
    <| i_LegalHold := equal_fold (h "X-Amz-Object-Lock-Legal-Hold") "ON" |>
    <| i_RetainUntil := if (retainUntil =? "")%string then zero_time else default zero_time (parse_rfc3339 retainUntil) |>.

Definition entity_too_large : Response := writeS3Error 413 "EntityTooLarge" "object exceeds the configured upload limit".

Definition putObject (r : Request) (body : Reader) (bucket key : string) : M Response :=
  if (key =? "")%string then ret (writeS3Error 400 "InvalidObjectName" "object key is required")
  else if max_upload <? rq_ContentLength r then ret entity_too_large
  else
    let! put := PutObject (put_input r bucket key) (max_bytes max_upload body) in
    ret (match put with
         | Err e =>
             if errors_is e ErrUploadTooLarge || errors_is e ErrBodyTooLarge then entity_too_large
             else if errors_is e ErrNoProviderAvailable
             then writeS3Error 507 "InsufficientStorage" "no configured provider has enough capacity"
             else writeS3Error 502 "ProviderError" (error_text e)
         | Ok obj =>
             let h := set_header (set_header ∅ "ETag" (o_ETag obj)) "X-S3LS-Provider-Account" (o_ProviderAccountID obj) in
             MkResponse 200 (if negb (o_VersionID obj =? "")%string then set_header h "X-Amz-Version-Id" (o_VersionID obj) else h) NoBody
         end).

Definition getObject (r : Request) (bucket key : string) : M Response :=
  let versionID := query r "versionId" in
  let! got := (if negb (versionID =? "")%string then GetObjectVersion bucket key versionID else GetObject bucket key) in
  ret (match got with
       | Err e => writeObjectError e
       | Ok (body, obj) =>
           match evaluateObjectConditions local_zone r obj with
           | Some status => status_only status
           | None =>
               let h := setObjectHeaders obj in
               let range := rq_header r "Range" in
               if negb (range =? "")%string then writeRangeObject range body obj h
               else MkResponse 200 h (Data (rd_data body))
           end
       end).

Definition headObject (r : Request) (bucket key : string) : M Response :=
  let versionID := query r "versionId" in
  let! got := (if negb (versionID =? "")%string then HeadObjectVersion bucket key versionID else HeadObject bucket key) in
  ret (match got with
       | Err e => writeObjectError e
       | Ok obj =>
           match evaluateObjectConditions local_zone r obj with
           | Some status => status_only status
           | None => MkResponse 200 (setObjectHeaders obj) NoBody
           end
       end).

Definition deleteObject (r : Request) (bucket key : string) : M Response :=
  let! deleted := DeleteObjectWithOptions bucket key (MkDeleteObjectOptions (query r "versionId") (bypass_header r) false) in
  ret (match deleted with
       | Err e => writeObjectError e
       | Ok result =>
           let h := if negb (dr_VersionID result =? "")%string then set_header ∅ "X-Amz-Version-Id" (dr_VersionID result) else ∅ in
           MkResponse 204 (if dr_DeleteMarker result then set_header h "X-Amz-Delete-Marker" "true" else h) NoBody
       end).

Definition copyObject (r : Request) (targetBucket targetKey : string) : M Response :=
  let source := trim_space (rq_header r "X-Amz-Copy-Source") in
  match path_unescape (trim_prefix source "/") with
  | None => ret (invalid_argument "x-amz-copy-source is invalid")
  | Some decoded =>
      match splitS3Path ("/" +:+ decoded) with
      | None => ret (invalid_argument "x-amz-copy-source must identify an object")
      | Some (sourceBucket, sourceKey) =>
          if (sourceKey =? "")%string then ret (invalid_argument "x-amz-copy-source must identify an object")
          else
            let! authenticated := Authenticate auth r in
            if negb (match authenticated with
                     | Some principal => principalAllows principal "s3:GetObject" sourceBucket sourceKey
                     | None => false
                     end)
            then ret (writeS3Error 403 "AccessDenied" "credential cannot read the copy source")
            else
              let! got := GetObject sourceBucket sourceKey in
              match got with
              | Err e => ret (writeObjectError e)
              | Ok (body, sourceObject) =>
                  let replace := equal_fold (rq_header r "X-Amz-Metadata-Directive") "REPLACE" in
                  let metadata := if replace then objectMetadataFromHeaders (rq_Header r) else o_Metadata sourceObject in
                  let replacement := rq_header r "Content-Type" in
                  let contentType := if replace && negb (replacement =? "")%string then replacement else o_ContentType sourceObject in
                  let tags := if equal_fold (rq_header r "X-Amz-Tagging-Directive") "REPLACE"
                              then parseTaggingHeader (rq_header r "X-Amz-Tagging") else o_Tags sourceObject in
                  let! put := PutObject (zero_PutObjectInput <| i_Bucket := targetBucket |> <| i_Key := targetKey |>
                                           <| i_Size := o_Size sourceObject |> <| i_ContentType := contentType |>
                                           <| i_Metadata := metadata |> <| i_Tags := tags |>) body in
                  ret (match put with
                       | Err e => writeObjectError e
                       | Ok object => xml_response 200 (CopyXML (rfc3339 (o_UpdatedAt object)) (o_ETag object))
                       end)
              end
      end
  end.

(** One key of a DeleteObjects request: what is reported deleted, or the
    error reported for it. *)
Definition delete_one (principal : Principal) (bucket : string) (quiet : bool) (identifier : string * string)
    : M (list (string * string) * list (string * string * string)) :=
  let '(key, _) := identifier in
  if (key =? "")%string then ret ([], [(key, "InvalidArgument", "object key is required")])
  else if negb (principalAllows principal "s3:DeleteObject" bucket key)
  then ret ([], [(key, "AccessDenied", "credential cannot delete this object")])
  else
    let! deleted := DeleteObject bucket key in
    ret (match deleted with
         | Err e => if errors_is e ErrNotFound then (if quiet then ([], []) else ([identifier], []))
                    else ([], [(key, "InternalError", error_text e)])
         | Ok _ => if quiet then ([], []) else ([identifier], [])
         end)%string.

Fixpoint delete_all (principal : Principal) (bucket : string) (quiet : bool) (identifiers : list (string * string))
    : M (list (string * string) * list (string * string * string)) :=
  match identifiers with
  | [] => ret ([], [])
  | identifier :: rest =>
      let! first := delete_one principal bucket quiet identifier in
      let! others := delete_all principal bucket quiet rest in
      ret (first.1 ++ others.1, first.2 ++ others.2)
  end.

Definition deleteObjects (r : Request) (body : Reader) (bucket : string) : M Response :=
  match decode_delete (max_bytes (2 * mebibyte) body) with
  | Err e => ret (malformed e)
  | Ok (objects, quiet) =>
      if Nat.ltb 1000 (List.length objects)
      then ret (writeS3Error 400 "MalformedXML" "DeleteObjects accepts at most 1000 keys")
      else
        let! authenticated := Authenticate auth r in
        let! report := delete_all (default zero_Principal authenticated) bucket quiet objects in
        ret (xml_response 200 (DeleteXML report.1 report.2))
  end.

(** ** Tags, retention and legal holds *)

Definition getObjectTagging (r : Request) (bucket key : string) : M Response :=
  let! found := GetProtectedObject bucket key (query r "versionId") in
  ret (match found with Err e => writeObjectError e | Ok object => xml_response 200 (TaggingXML (o_Tags object)) end).

(** The tags of a request, checked one after the other. *)
Fixpoint collect_tags (tags : gmap string string) (tagSet : list (string * string)) : Response + gmap string string :=
  match tagSet with
  | [] => inr tags
  | (k, v) :: rest =>
      if (k =? "")%string || Nat.ltb 128 (String.length k) || Nat.ltb 256 (String.length v)
      then inl (writeS3Error 400 "InvalidTag" "tag keys must be 1-128 characters and values at most 256 characters")
      else if match tags !! k with Some _ => true | None => false end
      then inl (writeS3Error 400 "InvalidTag" ("duplicate tag " +:+ quoted k))
      else collect_tags (<[k := v]> tags) rest
  end.

(** An update and the status of its success. *)
Definition updated (status : Z) (m : M (result unit)) : M Response :=
  let! r := m in ret (match r with Ok _ => status_only status | Err e => writeObjectError e end).

Definition putObjectTagging (r : Request) (body : Reader) (bucket key : string) : M Response :=
  match decode_tagging (max_bytes mebibyte body) with
  | Err e => ret (malformed e)
  | Ok tagSet =>
      if Nat.ltb 10 (List.length tagSet) then ret (writeS3Error 400 "BadRequest" "an object can have at most 10 tags")
      else match collect_tags ∅ tagSet with
           | inl response => ret response
           | inr tags => updated 200 (UpdateObjectTags bucket key (query r "versionId") tags)
           end
  end.

Definition deleteObjectTagging (r : Request) (bucket key : string) : M Response :=
  updated 204 (UpdateObjectTags bucket key (query r "versionId") ∅).

Definition getObjectRetention (r : Request) (bucket key : string) : M Response :=
  let! found := GetProtectedObject bucket key (query r "versionId") in
  ret (match found with
       | Err e => writeObjectError e
       | Ok object => xml_response 200 (RetentionXML (o_RetentionMode object) (rfc3339 (o_RetainUntil object)))
       end).

Definition retention_refused : Response :=
  invalid_argument "retention requires a future RFC3339 date and GOVERNANCE or COMPLIANCE mode".

Definition putObjectRetention (r : Request) (body : Reader) (bucket key : string) : M Response :=
  match decode_retention (max_bytes mebibyte body) with
  | Err e => ret (malformed e)
  | Ok (mode, date) =>
      let mode := to_upper mode in
      match parse_rfc3339 date with
      | None => ret retention_refused
      | Some retainUntil =>
          if negb (mode =? "GOVERNANCE")%string && negb (mode =? "COMPLIANCE")%string then ret retention_refused
          else
            let! t := now in
            if negb (after retainUntil t) then ret retention_refused
            else
              let! found := GetProtectedObject bucket key (query r "versionId") in
              match found with
              | Err e => ret (writeObjectError e)
              | Ok object =>
                  updated 200 (UpdateObjectProtection (object <| o_RetentionMode := mode |> <| o_RetainUntil := retainUntil |>)
                                 (bypass_header r))
              end
      end
  end.

Definition getObjectLegalHold (r : Request) (bucket key : string) : M Response :=
  let! found := GetProtectedObject bucket key (query r "versionId") in
  ret (match found with
       | Err e => writeObjectError e
       | Ok object => xml_response 200 (LegalHoldXML (if o_LegalHold object then "ON" else "OFF"))
       end).

Definition putObjectLegalHold (r : Request) (body : Reader) (bucket key : string) : M Response :=
  match decode_legal_hold (max_bytes mebibyte body) with
  | Ok status =>
      if negb (status =? "ON")%string && negb (status =? "OFF")%string
      then ret (invalid_argument "legal hold Status must be ON or OFF")
      else
        let! found := GetProtectedObject bucket key (query r "versionId") in
        match found with
        | Err e => ret (writeObjectError e)
        | Ok object => updated 200 (UpdateObjectProtection (object <| o_LegalHold := (status =? "ON")%string |>) false)
        end
  | Err _ => ret (invalid_argument "legal hold Status must be ON or OFF")
  end.

(** ** Multipart uploads *)

Definition createMultipartUpload (r : Request) (bucket key : string) : M Response :=
  let! created := CreateMultipartUpload bucket key (rq_header r "Content-Type") in
  ret (match created with
       | Err e => writeS3Error 400 "CreateMultipartUploadFailed" (error_text e)
       | Ok upload => xml_response 200 (InitiateXML bucket key (mu_UploadID upload))
       end).

(** [strconv.Atoi] *)
Definition uploadPart (r : Request) (body : Reader) (bucket key : string) : M Response :=
  let uploadID := query r "uploadId" in
  match parse_int64 (query r "partNumber") with
  | None => ret (invalid_argument "uploadId and numeric partNumber are required")
  | Some partNumber =>
      if (uploadID =? "")%string then ret (invalid_argument "uploadId and numeric partNumber are required")
      else if max_part <? rq_ContentLength r
      then ret (writeS3Error 413 "EntityTooLarge" "multipart part exceeds the configured limit")
      else
        let! uploaded := UploadPart uploadID partNumber body in
        ret (match uploaded with
             | Err e => writeObjectError e
             | Ok part => MkResponse 200 (set_header ∅ "ETag" (mp_ETag part)) NoBody
             end)
  end.

(** The error of decoding is dropped: a body without parts asks for all. *)
Definition completeMultipartUpload (r : Request) (body : Reader) (bucket key : string) : M Response :=
  let! completed := CompleteMultipartUpload (query r "uploadId") (decode_parts body) in
  ret (match completed with
       | Err e => writeObjectError e
       | Ok obj => xml_response 200 (CompleteXML ("/" +:+ bucket +:+ "/" +:+ key) bucket key (o_ETag obj))
       end).

Definition abortMultipartUpload (r : Request) : M Response := updated 204 (AbortMultipartUpload (query r "uploadId")).

Definition listParts (r : Request) (bucket key : string) : M Response :=
  let uploadID := query r "uploadId" in
  let! listed := ListMultipartParts uploadID in
  ret (match listed with
       | Err e => writeObjectError e
       | Ok parts => xml_response 200 (PartsXML bucket key uploadID ((λ p, (mp_PartNumber p, mp_ETag p, mp_Size p)) <$> parts))
       end).

(** ** Browser uploads *)

(** Names are lowered; of names that differ in case only the last in key order
    stays, where Go's order of the map is unspecified. *)
Definition form_fields (bucket : string) (values : Values) : gmap string string :=
  map_fold (λ name vs fields, match vs with v :: _ => <[to_lower name := v]> fields | [] => fields end)
    {[ "bucket" := bucket ]} values.

Definition post_status (fields : gmap string string) : Z :=
  match parse_int64 (field fields "success_action_status") with
  | Some parsed => if (parsed =? 200) || (parsed =? 201) || (parsed =? 204) then parsed else 204
  | None => 204
  end.

(** The upload of an authorised form. *)
Definition post_input (bucket key : string) (fields : gmap string string) (file : formFile) : PutObjectInput :=
  let contentType := field fields "content-type" in
  zero_PutObjectInput <| i_Bucket := bucket |> <| i_Key := key |> <| i_Size := ff_Size file |>
    <| i_ContentType := if (contentType =? "")%string then ff_ContentType file else contentType |>
    <| i_Metadata := map_fold (λ name value metadata,
         if has_prefix name "x-amz-meta-" then <[trim_prefix name "x-amz-meta-" := value]> metadata else metadata) ∅ fields |>
    <| i_Tags := parseTaggingHeader (field fields "x-amz-tagging") |>.

Definition postObject (r : Request) (body : Reader) (bucket : string) : M Response :=
  match decode_form r (max_bytes (add64 max_upload (2 * mebibyte)) body) with
  | Err e => ret (writeS3Error 400 "MalformedPOSTRequest" (error_text e))
  | Ok (_, None) => ret (invalid_argument "file form field is required")
  | Ok (values, Some file) =>
      let fields := form_fields bucket values in
      let key := trim_left_byte "/" (replace_all (field fields "key") "${filename}" (ff_Filename file)) in
      if (key =? "")%string then ret (invalid_argument "key form field is required")
      else
        let fields := <["key" := key]> fields in
        let! authorized := AuthorizePostPolicy auth fields (ff_Size file) in
        match authorized with
        | Err e => ret (writeS3Error 403 "AccessDenied" (error_text e))
        | Ok _ =>
            let! put := PutObject (post_input bucket key fields file) (ff_Content file) in
            ret (match put with
                 | Err e => writeObjectError e
                 | Ok object =>
                     let status := post_status fields in
                     if status =? 201
                     then xml_response 201 (PostXML ("/" +:+ bucket +:+ "/" +:+ key) bucket key (o_ETag object))
                     else MkResponse status (set_header ∅ "ETag" (o_ETag object)) NoBody
                 end)
        end
  end.

(** ** Dispatch *)

Definition method_not_allowed (message : string) : Response := writeS3Error 405 "MethodNotAllowed" message.

Definition createBucket (bucket : string) : M Response := save_bucket (zero_Bucket <| b_Name := bucket |>).

Definition headBucket (bucket : string) : M Response :=
  let! found := GetBucket bucket in
  ret (match found with Ok _ => status_only 200 | Err _ => no_such_bucket end).

Definition handleBucketOperation (r : Request) (body : Reader) (bucket : string) : M Response :=
  let method m := (rq_Method r =? m)%string in
  if method "PUT" then
    if hasQueryFlag r "notification" then putBucketNotification bucket body
    else if hasQueryFlag r "versioning" then putBucketVersioning bucket body
    else if hasQueryFlag r "object-lock" then putBucketObjectLock bucket body
    else createBucket bucket
  else if method "HEAD" then headBucket bucket
  else if method "GET" then
    if hasQueryFlag r "notification" then getBucketNotification bucket
    else if hasQueryFlag r "versioning" then getBucketVersioning bucket
    else if hasQueryFlag r "object-lock" then getBucketObjectLock bucket
    else if hasQueryFlag r "versions" then listObjectVersions r bucket
    else if hasQueryFlag r "location" then getBucketLocation bucket
    else listObjects r bucket
  else if method "POST" then
    if hasQueryFlag r "delete" then deleteObjects r body bucket
    else ret (method_not_allowed "bucket POST operation is not supported")
  else ret (method_not_allowed "bucket operation is not supported").

Definition handleObjectOperation (r : Request) (body : Reader) (bucket key : string) : M Response :=
  let method m := (rq_Method r =? m)%string in
  let has name := negb (query r name =? "")%string in
  if method "POST" then
    if hasQueryFlag r "uploads" then createMultipartUpload r bucket key
    else if has "uploadId" then completeMultipartUpload r body bucket key
    else ret (method_not_allowed "unsupported POST operation")
  else if method "PUT" then
    if has "uploadId" || has "partNumber" then uploadPart r body bucket key
    else if hasQueryFlag r "tagging" then putObjectTagging r body bucket key
    else if hasQueryFlag r "retention" then putObjectRetention r body bucket key
    else if hasQueryFlag r "legal-hold" then putObjectLegalHold r body bucket key
    else if negb (rq_header r "X-Amz-Copy-Source" =? "")%string then copyObject r bucket key
    else putObject r body bucket key
  else if method "GET" then
    if (query r "list-type" =? "2")%string then listObjects r bucket
    else if has "uploadId" then listParts r bucket key
    else if hasQueryFlag r "tagging" then getObjectTagging r bucket key
    else if hasQueryFlag r "retention" then getObjectRetention r bucket key
    else if hasQueryFlag r "legal-hold" then getObjectLegalHold r bucket key
    else getObject r bucket key
  else if method "HEAD" then headObject r bucket key
  else if method "DELETE" then
    if has "uploadId" then abortMultipartUpload r
    else if hasQueryFlag r "tagging" then deleteObjectTagging r bucket key
    else deleteObject r bucket key
  else ret (method_not_allowed "method is not supported by Core S3 MVP").

(** An authorised request. *)
Definition serve (r : Request) (body : Reader) : M Response :=
  if (rq_Path r =? "/")%string then
    if (rq_Method r =? "GET")%string then listBuckets
    else ret (method_not_allowed "root only supports ListBuckets")
  else match splitS3Path (rq_Path r) with
       | None => ret (writeS3Error 400 "InvalidURI" "expected path-style S3 URI /{bucket}/{key}")
       | Some (bucket, key) =>
           if (key =? "")%string then handleBucketOperation r body bucket else handleObjectOperation r body bucket key
       end.

(** A form posted to a bucket carries its own authorisation. *)
Definition form_upload (r : Request) : option string :=
  match splitS3Path (rq_Path r) with
  | Some (bucket, key) =>
      if (key =? "")%string && (rq_Method r =? "POST")%string
         && has_prefix (to_lower (rq_header r "Content-Type")) "multipart/form-data"
      then Some bucket else None
  | None => None
  end.

Definition access_denied : Response := writeS3Error 403 "AccessDenied" "invalid or missing S3 credentials".

Definition handle (r : Request) (body : Reader) : M Response :=
  if (rq_Method r =? "OPTIONS")%string then ret (status_only 204)
  else match form_upload r with
       | Some bucket => postObject r body bucket
       | None =>
           let '(bucket, key) := default (""%string, ""%string) (splitS3Path (rq_Path r)) in
           let! authorized := AuthorizeAction auth r (s3PermissionForRequest r bucket key) bucket key in
           match authorized with
           | None => ret access_denied
           | Some _ => serve r body
           end
       end.

(** [ServeHTTP]: every response carries the CORS headers. *)
Definition ServeHTTP (r : Request) (body : Reader) : M Response :=
  let! response := handle r body in
  ret (MkResponse (rs_Status response) (rs_Header response ∪ setS3CORSHeaders) (rs_Body response)).
End gateway.

(** [NewHandler]: the authenticator of the gateway asks the service. *)
Definition NewHandler `{Env} : Authenticator := NewAuthenticatorWithResolver env_config ResolveS3Credential.
