(* ===== verification/GatewayFacts.v ===== *)
(** The gateway as a whole: what it takes to have an effect through it, and
    what ranged reads answer. *)
From S2P Require Import Prelude GoTime Json Text Url Stamp Http HttpDate Hmac Base64 Domain ProviderErrors World Sql StoreProviders StoreObjects Access SigV4 SigV4Facts PostPolicy PostPolicyFacts Providers S3Request Authority Hooks Service Multipart Placement Demo Gateway.

(** ** Ranged reads *)

Lemma string_length_take n s : String.length (string_take n s) = Init.Nat.min n (String.length s).
Proof. revert s. induction n as [|n IH]; intros [|a s]; cbn [string_take String.length Nat.min]; [done..|]. by rewrite IH. Qed.

Lemma string_length_drop n s : String.length (string_drop n s) = (String.length s - n)%nat.
Proof. revert s. induction n as [|n IH]; intros [|a s]; cbn [string_drop String.length Nat.sub]; [done..|]. by rewrite IH. Qed.

Lemma string_take_drop n s : string_take n s +:+ string_drop n s = s.
Proof. revert s. induction n as [|n IH]; intros [|a s]; cbn [string_take string_drop]; [done..|]. rewrite append_cons. by rewrite IH. Qed.

(** C32. A ranged read of an object whose content the provider delivers
    completely: the answer is 206 exactly for the byte ranges of RFC 9110 that
    the object satisfies, its content is exactly the bytes from the first to
    the last one, with their number as the Content-Length and the positions and
    the size as the Content-Range; any other range is answered with 416 and
    no byte of the object. *)
Theorem ranged_read_exact header content obj h (size := o_Size obj)
    (response := writeRangeObject header (MkReader content None) obj h) :
  Z.of_nat (String.length content) = size → size ≤ int64_max →
  (∃ spec first last data, header = "bytes=" +:+ spec ∧ byte_range size spec first last
    ∧ rs_Status response = 206 ∧ rs_Body response = Data data
    ∧ (∃ before after, content = before +:+ data +:+ after ∧ Z.of_nat (String.length before) = first)
    ∧ Z.of_nat (String.length data) = last - first + 1
    ∧ rs_Header response !! "Content-Length" = Some (itoa (last - first + 1))
    ∧ rs_Header response !! "Content-Range" = Some ("bytes " +:+ itoa first +:+ "-" +:+ itoa last +:+ "/" +:+ itoa size))
  ∨ ((¬ ∃ spec first last, header = "bytes=" +:+ spec ∧ byte_range size spec first last)
    ∧ rs_Status response = 416 ∧ rs_Body response = ErrorXML "InvalidRange" "requested range is not satisfiable").
Proof.
  intros Hlen Hsize. subst response. unfold writeRangeObject. fold size.
  destruct (parseSingleRange header size) as [[first last]|] eqn:Hp.
  2:{ right. split; [|done]. intros (spec & first & last & Hr). 
      assert (parseSingleRange header size = Some (first, last)) as E by (apply parse_range_spec; by exists spec). by rewrite Hp in E. }
  left. apply parse_range_spec in Hp as (spec & -> & Hr). pose proof (byte_range_bounds _ _ _ _ Hr) as [Hb Hl].
  cbn [rd_data rd_err]. assert ((0 <? first) && (Z.of_nat (String.length content) <? first) = false) as -> by lia.
  assert (add64 (sub64 last first) 1 = last - first + 1) as ->.
  { unfold add64, sub64. unfold int64_max in Hsize.
    rewrite (wrap64_id (last - first)), wrap64_id by (unfold in_int64, int64_max, int64_min; lia). lia. }
  eexists spec, first, last, _. split_and!; [done|done|done|cbn [rs_Body]; reflexivity| | | |].
  - exists (string_take (Z.to_nat first) content),
      (string_drop (Z.to_nat (last - first + 1)) (string_drop (Z.to_nat first) content)).
    rewrite !string_take_drop. split; [done|]. rewrite string_length_take. lia.
  - rewrite string_length_take, string_length_drop. lia.
  - cbn [rs_Header]. unfold set_header. change (canonical_header_key "Content-Length") with "Content-Length". by rewrite lookup_insert_eq.
  - cbn [rs_Header]. unfold set_header. change (canonical_header_key "Content-Length") with "Content-Length".
    change (canonical_header_key "Content-Range") with "Content-Range". by rewrite lookup_insert_ne, lookup_insert_eq.
Qed.

Lemma ranged_read_exact_witness : let response := writeRangeObject "bytes=1-3" (MkReader "hello" None) (zero_ObjectRecord <| o_Size := 5 |>) ∅ in
  rs_Status response = 206 ∧ rs_Body response = Data "ell".
Proof.
  intros response. destruct (ranged_read_exact "bytes=1-3" "hello" (zero_ObjectRecord <| o_Size := 5 |>) ∅) as [(spec & first & last & data & _ & _ & Hs & _)|(_ & Hs & _)].
  - reflexivity.
  - vm_compute. discriminate.
  - split; [exact Hs|]. vm_compute. reflexivity.
  - vm_compute in Hs. discriminate Hs.
Defined.

(** ** No effect without authority *)

(** Nothing that outlives a request has changed. *)
Definition untouched (w w' : World) : Prop :=
  w_db w' = w_db w ∧ w_calls w' = w_calls w ∧ w_staging w' = w_staging w ∧ w_workers w' = w_workers w.

#[global] Instance untouched_preorder : PreOrder untouched.
Proof. unfold untouched. split; [done|]. intros ??? (?&?&?&?) (?&?&?&?). split_and!; congruence. Qed.

Section untouched_rules.
Context `{Env}.

Lemma untouched_now : pres untouched now.
Proof. by intros w. Qed.

Lemma untouched_sql_read {A} (f : DB → result A) : pres untouched (sql_read f).
Proof.
  intros w. unfold sql_read, sql, untouched. destruct (env_db_fault _); [done|]. by destruct (f (w_db w)).
Qed.
End untouched_rules.
#[global] Hint Resolve untouched_now untouched_sql_read : pres.

Section authority.
Context `{Env}.

(** Looking up a credential changes nothing; [ResolveS3Credential] is such. *)
Definition quiet_resolver (auth : Authenticator) : Prop :=
  match au_resolver auth with Some resolve => ∀ accessKey, pres untouched (resolve accessKey) | None => True end.

Lemma ResolveS3Credential_untouched accessKey : pres untouched (ResolveS3Credential accessKey).
Proof.
  unfold ResolveS3Credential, GetAccessCredentialByAccessKey. apply pres_bind_ok; [apply _|auto with pres|].
  intros credential. destruct (env_decrypt _); apply pres_ret, _.
Qed.

Context (auth : Authenticator) (Hquiet : quiet_resolver auth).

Lemma resolveCredential_untouched accessKey : pres untouched (resolveCredential auth accessKey).
Proof using Hquiet.
  unfold resolveCredential. destruct (accessKey =? "")%string; [apply pres_ret, _|].
  destruct (accessKey =? au_accessKey auth)%string; [apply pres_ret, _|].
  unfold quiet_resolver in Hquiet. destruct (au_resolver auth) as [resolve|]; [|apply pres_ret, _].
  apply pres_bind; [apply _|done|]. intros [credential|e]; [|apply pres_ret, _].
  destruct (_ || _); [apply pres_ret, _|]. destruct (is_zero _); [apply pres_ret, _|].
  apply pres_bind; [apply _|auto with pres|]. intros t. apply pres_ret, _.
Qed.

Lemma check_claim_untouched credential c canonical given : pres untouched (check_claim auth credential c canonical given).
Proof. unfold check_claim. apply pres_bind; [apply _|auto with pres|]. intros t. apply pres_ret, _. Qed.

Lemma Authenticate_untouched r : pres untouched (Authenticate auth r).
Proof using Hquiet.
  unfold Authenticate. apply pres_bind; [apply _|apply resolveCredential_untouched|]. intros [credential|]; [|apply pres_ret, _].
  apply pres_bind; [apply _| |intros ok; apply pres_ret, _].
  unfold authorizePresignedURL, authorizeHeaderCredential.
  repeat case_match; apply pres_ret, _ || apply check_claim_untouched.
Qed.

Context `{!PolicyHost}.

Lemma AuthorizePostPolicy_untouched fields n : pres untouched (AuthorizePostPolicy auth fields n).
Proof using Hquiet.
  unfold AuthorizePostPolicy. destruct (string_split "/" _) as [|accessKey [|date [|region [|service [|terminal [|]]]]]]; try apply pres_ret, _.
  destruct (_ || _ || _); [apply pres_ret, _|]. apply pres_bind; [apply _|apply resolveCredential_untouched|].
  intros [credential|]; [|apply pres_ret, _]. destruct (base64std_decode _); [|apply pres_ret, _].
  destruct (decode_policy _) as [policy|e]; [|apply pres_ret, _].
  do 3 (apply pres_bind; [apply _|auto with pres|]; intros ?). by intros w.
Qed.

Context `{!Pipelines} `{!HttpHost}.

(** Who a request speaks for: the principal of its signature, for the action
    that its method and query name on the bucket and key of its path, or, for a
    form sent to a bucket, the principal of the policy in the form. *)
Definition authorised (r : Request) (body : Reader) (w : World) : Prop :=
  match form_upload r with
  | None =>
      let '(bucket, key) := default (""%string, ""%string) (splitS3Path (rq_Path r)) in
      ∃ principal, (Authenticate auth r w).1 = Some principal
        ∧ principalAllows principal (s3PermissionForRequest r bucket key) bucket key = true
  | Some bucket =>
      ∃ values file principal, decode_form r (max_bytes (add64 max_upload (2 * mebibyte)) body) = Ok (values, Some file) ∧
        let fields := form_fields bucket values in
        let key := trim_left_byte "/" (replace_all (field fields "key") "${filename}" (ff_Filename file)) in
        (AuthorizePostPolicy auth (<["key" := key]> fields) (ff_Size file) w).1 = Ok principal
  end.

(** A request that nobody entitled to it has signed has no effect: unless
    its signature, or the policy in its form, authenticates a principal whose
    credential allows the action on the bucket and key, the database, the
    providers, the local files and the worker states are left as they were, and
    the answer carries no content: 204 to OPTIONS, 400 or 403. *)
Lemma needs_authority r body w response w' : ¬ authorised r body w →
  handle auth r body w = (response, w') →
  untouched w w' ∧ (rs_Status response = 204 ∧ rq_Method r = "OPTIONS" ∨ rs_Status response = 400 ∨ rs_Status response = 403).
Proof using Hquiet.
  intros Hno. unfold handle. destruct (String.eqb_spec (rq_Method r) "OPTIONS") as [Hm|_].
  { intros [= <- <-]. split; [reflexivity|]. by left. }
  unfold authorised in Hno. destruct (form_upload r) as [bucket|] eqn:Hform.
  - unfold postObject. destruct (decode_form _ _) as [[values [file|]]|e] eqn:Hd.
    2,3: intros [= <- <-]; (split; [reflexivity|]); right; by left.
    cbv zeta. destruct (trim_left_byte _ _ =? "")%string.
    { intros [= <- <-]. split; [reflexivity|]. right; by left. }
    intros (authorized & w1 & Ha & Hrun)%bind_inv. destruct authorized as [principal|e].
    { destruct Hno. exists values, file, principal. split; [done|]. cbv zeta. by rewrite Ha. }
    injection Hrun as <- <-. split; [|right; by right]. eapply pres_run; [apply AuthorizePostPolicy_untouched|exact Ha].
  - destruct (default _ _) as [bucket key]. unfold AuthorizeAction. intros Hrun.
    apply bind_inv in Hrun as (authorized & w1 & Ha & Hrun). apply bind_inv in Ha as (principal & w2 & Hp & [= <- <-]).
    assert (match principal with Some p => if principalAllows p (s3PermissionForRequest r bucket key) bucket key then Some p else None
            | None => None end = None) as E.
    { destruct principal as [p|]; [|done]. destruct (principalAllows _ _ _ _) eqn:Hp'; [|done].
      destruct Hno. exists p. by rewrite Hp. }
    rewrite E in Hrun. injection Hrun as <- <-. split; [|right; by right]. eapply pres_run; [apply Authenticate_untouched|exact Hp].
Qed.
End authority.

Lemma NewHandler_quiet `{Env} : quiet_resolver NewHandler.
Proof. intros accessKey. apply ResolveS3Credential_untouched. Qed.

(** Who may send a request, for the operation its method asks for on the bucket
    and key of its path, or, for a form sent to a bucket, for uploading the
    object that its fields name. *)
Definition entitled_request `{Env} `{!PolicyHost} `{!HttpHost} (r : Request) (body : Reader) (w : World) : Prop :=
  match form_upload r with
  | None =>
      let '(bucket, key) := default (""%string, ""%string) (splitS3Path (rq_Path r)) in
      ∃ principal permission, speaks_for true w r principal ∧ asks_for bucket key (rq_Method r) permission
        ∧ permits principal permission bucket key
  | Some bucket =>
      ∃ values file principal, decode_form r (max_bytes (add64 max_upload (2 * mebibyte)) body) = Ok (values, Some file) ∧
        let fields := form_fields bucket values in
        let key := trim_left_byte "/" (replace_all (field fields "key") "${filename}" (ff_Filename file)) in
        form_speaks_for true w (<["key" := key]> fields) (ff_Size file) principal
        ∧ permits principal "s3:PutObject" (field fields "bucket") key
  end.

Lemma authorised_entitled `{Env} `{!PolicyHost} `{!HttpHost} r body w : authorised NewHandler r body w → entitled_request r body w.
Proof.
  unfold authorised, entitled_request. change NewHandler with (authenticator true). destruct (form_upload r) as [bucket|].
  - intros (values & file & principal & Hd & Ha). cbv zeta in Ha. apply AuthorizePostPolicy_speaks in Ha as [Hspeaks Hperm].
    exists values, file, principal. split; [done|]. cbv zeta. split; [exact Hspeaks|]. revert Hperm. unfold field.
    by rewrite lookup_insert_eq, lookup_insert_ne by done.
  - destruct (default _ _) as [bucket key]. intros (principal & Ha & Hallow). exists principal, (s3PermissionForRequest r bucket key).
    split_and!; [by apply Authenticate_speaks|apply asks_permission|by apply principal_permits].
Qed.

Lemma gateway_needs_authority `{Env} `{!PolicyHost} `{!Pipelines} `{!HttpHost} r body w response w' :
  ¬ authorised NewHandler r body w → ServeHTTP NewHandler r body w = (response, w') →
  untouched w w' ∧ (rs_Status response = 204 ∧ rq_Method r = "OPTIONS" ∨ rs_Status response = 400 ∨ rs_Status response = 403).
Proof.
  intros Hno. unfold ServeHTTP. intros (inner & w1 & Hrun & [= <- <-])%bind_inv. cbn [rs_Status].
  by apply (needs_authority _ NewHandler_quiet _ _ _ _ _ Hno Hrun).
Qed.


(** A host whose decoders know nothing and that takes every form for an upload
    of one file. *)
Definition demo_form (fields : gmap string string) : Values := (λ v, [v]) <$> fields.
#[local] Instance demo_host : HttpHost :=
  {| local_zone := λ _ _, None;
     decode_versioning := λ _, Err (ErrText "EOF"); decode_lock := λ _, Err (ErrText "EOF");
     decode_retention := λ _, Err (ErrText "EOF"); decode_legal_hold := λ _, Err (ErrText "EOF");
     decode_tagging := λ _, Err (ErrText "EOF"); decode_delete := λ _, Err (ErrText "EOF"); decode_parts := λ _, [];
     decode_notification := λ _, Err (ErrText "EOF"); decode_form := λ _ _, Err (ErrText "EOF") |}.
#[local] Instance demo_policy_host : PolicyHost := {| decode_policy := λ _, Err (ErrText "EOF"); sprint_number := λ _, "" |}.

Definition anonymous_delete : Request := MkRequest "DELETE" "s3.example" "/b/k" "/b/k" "" ∅ 0.


(** ** A form for another bucket *)

Definition narrow_credential : AccessCredential :=
  zero_AccessCredential <| ac_ID := "c1" |> <| ac_AccessKey := "AK" |> <| ac_SecretEncrypted := "sk" |> <| ac_Role := "read-write" |>
    <| ac_Enabled := true |> <| ac_BucketPatterns := ["mine"] |>.

(** A form sent to the bucket [b] whose field names the bucket [mine], under a
    policy without conditions. *)
Definition form_scope : string := date_stamp demo_time +:+ "/auto/s3/aws4_request".
Definition other_bucket_form : Values :=
  {[ "bucket" := ["mine"]; "key" := ["k"]; "policy" := ["e30="]; "x-amz-algorithm" := [sigv4_algorithm];
     "x-amz-credential" := ["AK/" +:+ form_scope]; "x-amz-date" := [time_stamp demo_time];
     "x-amz-signature" := [signature "sk" (date_stamp demo_time) "auto" "e30="] ]}.

#[local] Instance form_host : HttpHost :=
  {| local_zone := λ _ _, None;
     decode_versioning := λ _, Err (ErrText "EOF"); decode_lock := λ _, Err (ErrText "EOF");
     decode_retention := λ _, Err (ErrText "EOF"); decode_legal_hold := λ _, Err (ErrText "EOF");
     decode_tagging := λ _, Err (ErrText "EOF"); decode_delete := λ _, Err (ErrText "EOF"); decode_parts := λ _, [];
     decode_notification := λ _, Err (ErrText "EOF");
     decode_form := λ _ body, Ok (other_bucket_form, Some (MkFormFile "a.txt" 3 "text/plain" body)) |}.
#[local] Instance form_policy_host : PolicyHost :=
  {| decode_policy := λ _, Ok (MkPostPolicyDocument (demo_time + hour) []); sprint_number := λ _, "" |}.

(** The credential may write to the bucket [mine] only; the form is accepted and
    the object is stored in the bucket [b]. *)
Theorem form_bucket_not_checked :
  let E := demo_env in let G := form_host in let P := form_policy_host in
  let r := MkRequest "POST" "s3.example" "/b" "/b" "" {[ "Content-Type" := ["multipart/form-data; boundary=x"] ]} 100 in
  let w := start ((demo_db demo_bucket) <| db_credentials := {[ "c1" := narrow_credential ]} |>) in
  let run := ServeHTTP NewHandler r (MkReader "abc" None) w in
  rs_Status run.1 = 204 ∧ is_Some (db_objects (w_db run.2) !! ("b", "k"))
  ∧ ¬ permits (principalFromCredential narrow_credential) "s3:PutObject" "b" "k".
Proof.
  split_and!; [vm_compute; reflexivity|vm_compute; by eexists|]. intros Hp%principal_permits. vm_compute in Hp. discriminate Hp.
Qed.

