(* ===== verification/Uppy.v ===== *)
(** The helper of the Uppy browser uploader ([gateway/uppy.go]): it presigns
    requests for a browser that holds the configured key and drives multipart
    uploads for it. JSON bodies and URLs are read by the Go library. *)
From S2P Require Import Prelude GoTime Text Url Http Domain ProviderErrors World Sql StoreObjects SigV4 Service Multipart Gateway GatewayFacts.

(** ** What is read and written *)

Record uppyUploadParamsRequest : Type := MkUppyUploadParamsRequest {
  up_Bucket : string; up_Key : string; up_Filename : string; up_ContentType : string; up_ExpiresIn : Z }.

Record uppySignRequest : Type := MkUppySignRequest {
  us_Method : string; us_Bucket : string; us_Key : string; us_UploadID : string; us_PartNumber : Z; us_ExpiresIn : Z }.

Record uppyMultipartRequest : Type := MkUppyMultipartRequest {
  um_Bucket : string; um_Key : string; um_Filename : string; um_ContentType : string }.

Record uppyMultipartPartRequest : Type := MkUppyMultipartPartRequest {
  ut_Bucket : string; ut_Key : string; ut_UploadID : string; ut_PartNumber : Z; ut_ExpiresIn : Z }.

Record uppyPart : Type := MkUppyPart { uq_PartNumber : Z; uq_ETag : string }.

Record uppyCompleteMultipartRequest : Type := MkUppyCompleteMultipartRequest {
  uc_Bucket : string; uc_Key : string; uc_UploadID : string; uc_Parts : list uppyPart }.

(** Decoding of the bodies, and [url.Parse]. *)
Class UppyHost : Type := {
  uh_params : Reader → result uppyUploadParamsRequest;
  uh_sign : Reader → result uppySignRequest;
  uh_multipart : Reader → result uppyMultipartRequest;
  uh_part : Reader → result uppyMultipartPartRequest;
  uh_complete : Reader → result uppyCompleteMultipartRequest;
  uh_url : string → result ParsedURL }.

(** A signed URL: its scheme and the rest. *)
Definition SignedURL : Type := string * URL.

Inductive UppyBody : Type :=
| UNothing
| UError (message : string)
| USigned (url : SignedURL)                       (* with no headers to send, for a part *)
| UUpload (url : SignedURL) (contentType : string)
| UCreated (uploadID key bucket : string)
| UParts (parts : list (Z * Z * string))          (* number, size, ETag *)
| UCompleted (location bucket key : string)
| UDone.

Record UppyResponse : Type := MkUppyResponse { uy_Status : Z; uy_Header : gmap string string; uy_Body : UppyBody }.

Definition uppy_json (status : Z) (body : UppyBody) : UppyResponse := MkUppyResponse status ∅ body.
Definition writeJSONError (status : Z) (message : string) : UppyResponse := uppy_json status (UError message).
Definition method_not_allowed : UppyResponse := writeJSONError 405 "method not allowed".

Definition expiresDuration (seconds : Z) : Duration := duration_mul (if seconds <=? 0 then 900 else seconds) second.

(** [defaultString]: a value of blanks only is replaced. *)
Definition or_fallback (value fallback : string) : string := if (trim_space value =? "")%string then fallback else value.

Definition clean_key (key : string) : string := trim_byte "/" (trim_space key).
Definition key_or_filename (key filename : string) : string :=
  if (clean_key key =? "")%string then clean_key filename else clean_key key.

(** The scheme and host the browser used, as far as the request says. *)
Definition publicBaseURL (tls : bool) (r : Request) : string :=
  let proto := rq_header r "X-Forwarded-Proto" in
  let proto := if (proto =? "")%string then (if tls then "https" else "http")%string else proto in
  let host := rq_header r "X-Forwarded-Host" in
  proto +:+ "://" +:+ (if (host =? "")%string then rq_Host r else host).

(** The query to sign, or why the request cannot be signed. *)
Definition part_refused (method : string) : string + Values := inl ("partNumber is not valid for " +:+ method).

Definition upload_query (uploadID : string) : Values := if (uploadID =? "")%string then ∅ else {[ "uploadId" := [uploadID] ]}.

Definition sign_query (method uploadID : string) (partNumber : Z) : string + Values :=
  if (method =? "PUT")%string then
    if (uploadID =? "")%string then
      if negb (partNumber =? 0) then inl "uploadId is required when partNumber is set" else inr ∅
    else if partNumber <=? 0 then inl "partNumber is required for multipart PUT"
    else inr (values_set (upload_query uploadID) "partNumber" (itoa partNumber))
  else if (method =? "POST")%string then
    if negb (partNumber =? 0) then part_refused "POST"
    else inr (if (uploadID =? "")%string then {[ "uploads" := [""%string] ]} else upload_query uploadID)
  else if (method =? "GET")%string || (method =? "DELETE")%string then
    if negb (partNumber =? 0) then part_refused method else inr (upload_query uploadID)
  else inl "method must be PUT, POST, GET or DELETE".

Section uppy.
Context `{Env} `{!Pipelines} `{!UppyHost}.
Variable tls : bool.

Definition uppy_auth : Authenticator := NewAuthenticator env_config.

(** [a.Authorize]: any principal will do. *)
Definition Authorize (a : Authenticator) (r : Request) : M bool :=
  let! principal := Authenticate a r in
  ret (match principal with Some _ => true | None => false end).

Definition presignForRequest (r : Request) (method bucket key : string) (query : Values) (expires : Duration) : M (option SignedURL) :=
  match uh_url (publicBaseURL tls r +:+ "/" +:+ path_escape bucket +:+ "/" +:+ escapeS3Key key) with
  | Err _ => ret None
  | Ok target =>
      let raw := if decide (query = ∅) then pu_RawQuery target else values_encode query in
      let! signed := PresignURL uppy_auth method (MkURL (pu_Host target) (pu_EscapedPath target) raw) expires in
      ret (match signed with Some url => Some (pu_Scheme target, url) | None => None end)
  end.

Definition presigned (failed : string) (m : M (option SignedURL)) (answer : SignedURL → UppyBody) : M UppyResponse :=
  let! signed := m in
  ret (match signed with Some url => uppy_json 200 (answer url) | None => writeJSONError 500 failed end).

Definition decodeJSON {A} (decoded : result A) (k : A → M UppyResponse) : M UppyResponse :=
  match decoded with Ok req => k req | Err e => ret (writeJSONError 400 ("invalid JSON: " +:+ error_text e)) end.

Definition from_service {A} (m : M (result A)) (answer : A → UppyBody) : M UppyResponse :=
  let! r := m in
  ret (match r with Ok a => uppy_json 200 (answer a) | Err e => writeJSONError 400 (error_text e) end).

Definition posted (r : Request) (k : M UppyResponse) : M UppyResponse :=
  if (rq_Method r =? "POST")%string then k else ret method_not_allowed.

(** ** The handlers *)

Definition signS3Request (r : Request) (body : Reader) : M UppyResponse :=
  posted r (decodeJSON (uh_sign body) (λ req,
    let bucket := or_fallback (us_Bucket req) "images" in
    let key := clean_key (us_Key req) in
    if (key =? "")%string then ret (writeJSONError 400 "key is required")
    else
      let method := to_upper (trim_space (us_Method req)) in
      match sign_query method (us_UploadID req) (us_PartNumber req) with
      | inl message => ret (writeJSONError 400 message)
      | inr query =>
          presigned "could not presign S3 request"
            (presignForRequest r method bucket key query (expiresDuration (us_ExpiresIn req))) USigned
      end)).

Definition getUploadParameters (r : Request) (body : Reader) : M UppyResponse :=
  posted r (decodeJSON (uh_params body) (λ req,
    let bucket := or_fallback (up_Bucket req) "images" in
    let key := key_or_filename (up_Key req) (up_Filename req) in
    if (key =? "")%string then ret (writeJSONError 400 "key or filename is required")
    else presigned "could not presign upload URL"
           (presignForRequest r "PUT" bucket key ∅ (expiresDuration (up_ExpiresIn req))) (λ url, UUpload url (up_ContentType req)))).

Definition createMultipart (r : Request) (body : Reader) : M UppyResponse :=
  posted r (decodeJSON (uh_multipart body) (λ req,
    let bucket := or_fallback (um_Bucket req) "images" in
    let key := key_or_filename (um_Key req) (um_Filename req) in
    if (key =? "")%string then ret (writeJSONError 400 "key or filename is required")
    else from_service (CreateMultipartUpload bucket key (um_ContentType req))
           (λ upload, UCreated (mu_UploadID upload) (mu_Key upload) (mu_Bucket upload)))).

Definition signMultipartPart (r : Request) (body : Reader) : M UppyResponse :=
  posted r (decodeJSON (uh_part body) (λ req,
    if (ut_UploadID req =? "")%string || (ut_Key req =? "")%string || (ut_PartNumber req <=? 0)
    then ret (writeJSONError 400 "uploadId, key and partNumber are required")
    else
      let bucket := or_fallback (ut_Bucket req) "images" in
      let query := values_set {[ "uploadId" := [ut_UploadID req] ]} "partNumber" (itoa (ut_PartNumber req)) in
      presigned "could not presign part URL"
        (presignForRequest r "PUT" bucket (ut_Key req) query (expiresDuration (ut_ExpiresIn req))) USigned)).

Definition list_parts (uploadID : string) : M UppyResponse :=
  from_service (ListMultipartParts uploadID) (λ parts, UParts ((λ p, (mp_PartNumber p, mp_Size p, mp_ETag p)) <$> parts)).

Definition listMultipartParts (r : Request) (body : Reader) : M UppyResponse :=
  if negb (rq_Method r =? "POST")%string && negb (rq_Method r =? "GET")%string then ret method_not_allowed
  else
    let uploadID := values_get (rq_Query r) "uploadId" in
    if (uploadID =? "")%string && (rq_Method r =? "POST")%string
    then decodeJSON (uh_part body) (λ req, list_parts (ut_UploadID req))
    else list_parts uploadID.

Definition completeMultipart (r : Request) (body : Reader) : M UppyResponse :=
  posted r (decodeJSON (uh_complete body) (λ req,
    from_service (CompleteMultipartUpload (uc_UploadID req) (uq_PartNumber <$> uc_Parts req))
      (λ obj, UCompleted ("/" +:+ o_Bucket obj +:+ "/" +:+ o_Key obj) (o_Bucket obj) (o_Key obj)))).

Definition abort_upload (uploadID : string) : M UppyResponse := from_service (AbortMultipartUpload uploadID) (λ _, UDone).

Definition abortMultipart (r : Request) (body : Reader) : M UppyResponse :=
  if (rq_Method r =? "POST")%string then decodeJSON (uh_part body) (λ req, abort_upload (ut_UploadID req))
  else if (rq_Method r =? "DELETE")%string then abort_upload (values_get (rq_Query r) "uploadId")
  else ret method_not_allowed.

Definition uppy_route (r : Request) (body : Reader) : M UppyResponse :=
  let path := trim_prefix (rq_Path r) "/uppy/s3" in
  if (path =? "/sign")%string then signS3Request r body
  else if (path =? "/params")%string then getUploadParameters r body
  else if (path =? "/multipart/create")%string then createMultipart r body
  else if (path =? "/multipart/sign")%string then signMultipartPart r body
  else if (path =? "/multipart/list")%string then listMultipartParts r body
  else if (path =? "/multipart/complete")%string then completeMultipart r body
  else if (path =? "/multipart/abort")%string then abortMultipart r body
  else ret (writeJSONError 404 "unknown Uppy S3 helper endpoint").

(** [UppyHandler.ServeHTTP] *)
Definition uppy_ServeHTTP (r : Request) (body : Reader) : M UppyResponse :=
  let header := <["Content-Type" := "application/json"]> setS3CORSHeaders in
  let! answer := (if (rq_Method r =? "OPTIONS")%string then ret (uppy_json 204 UNothing)
                  else
                    let! allowed := Authorize uppy_auth r in
                    if negb allowed then ret (writeJSONError 403 "invalid or missing BucketMux credentials")
                    else uppy_route r body) in
  ret (MkUppyResponse (uy_Status answer) header (uy_Body answer)).

(** ** Who may use it *)

Lemma root_only : quiet_resolver uppy_auth.
Proof. exact I. Qed.

(** Without the configured key nothing happens. *)
Lemma uppy_needs_root r body w :
  (Authorize uppy_auth r w).1 = false →
  untouched w (uppy_ServeHTTP r body w).2 ∧
  (uy_Status (uppy_ServeHTTP r body w).1 = 403 ∨ rq_Method r = "OPTIONS" ∧ uy_Status (uppy_ServeHTTP r body w).1 = 204).
Proof.
  intros Hno. unfold uppy_ServeHTTP, bind. destruct (String.eqb_spec (rq_Method r) "OPTIONS") as [Hm|_]; cbn [fst snd ret].
  - split; [reflexivity|]. by right.
  - assert (untouched w (Authorize uppy_auth r w).2) as Hquiet.
    { unfold Authorize, bind. pose proof (Authenticate_untouched _ root_only r w) as Ha. by destruct (Authenticate uppy_auth r w). }
    destruct (Authorize uppy_auth r w) as [allowed w1]. cbn [fst snd] in *. subst allowed. cbn. split; [done|by left].
Qed.

Lemma presignForRequest_untouched r method bucket key query expires : pres untouched (presignForRequest r method bucket key query expires).
Proof.
  unfold presignForRequest. destruct (uh_url _); [|apply pres_ret, _]. apply pres_bind; [apply _| |intros; apply pres_ret, _].
  unfold PresignURL. apply pres_bind; [apply _|intros w; done|intros; apply pres_ret, _].
Qed.
End uppy.
