(* ===== verification/ListingFacts.v ===== *)
(** Listing a bucket page by page: a client that follows the continuation
    tokens of ListObjects reaches the end and sees every object exactly once. *)
From S2P Require Import Prelude GoTime Json Text Url Stamp Http HttpDate Hmac Base64 Domain World Sql StoreProviders StoreObjects Pages Placement Demo Providers S3Request Service PostPolicy Gateway.

(** ** A client *)

(** The request for the page after [token]. *)
Definition list_query (prefix : string) (max : Z) (token : string) : Values :=
  {[ "list-type" := ["2"]; "prefix" := [prefix]; "max-keys" := [itoa max]; "continuation-token" := [token] ]}.
Definition list_request (bucket prefix : string) (max : Z) (token : string) : Request :=
  MkRequest "GET" "s3.example" ("/" +:+ bucket) ("/" +:+ bucket) (values_encode (list_query prefix max token)) ∅ 0.

Section client.
Context `{Env}.

(** The entries of all pages; [None] is a client that gave up. *)
Fixpoint list_all (fuel : nat) (bucket prefix : string) (max : Z) (token : string) : M (option (list objectEntry)) :=
  match fuel with
  | O => ret None
  | S fuel =>
      let! response := listObjects (list_request bucket prefix max token) bucket in
      match rs_Body response with
      | ListXML page =>
          if lb_IsTruncated page
          then let! rest := list_all fuel bucket prefix max (lb_NextContinuationToken page) in
               ret (app (lb_Contents page) <$> rest)
          else ret (Some (lb_Contents page))
      | _ => ret None
      end
  end.
End client.

(** ** Numbers in queries *)

Lemma digit_of_range a d : digit_of a = Some d → 0 ≤ d ≤ 9.
Proof. unfold digit_of. destruct ((48 <=? byte_of a) && (byte_of a <=? 57)) eqn:E; [|done]. intros [= <-]. lia. Qed.

Lemma parse_digits_grows acc s z : 0 ≤ acc → parse_digits acc s = Some z → acc ≤ z.
Proof.
  revert acc. induction s as [|a s IH]; intros acc Hacc; cbn [parse_digits]; [intros [= ->]; lia|].
  destruct (digit_of a) as [d|] eqn:Hd; [|done]. apply digit_of_range in Hd. intros H. apply IH in H; lia.
Qed.

Lemma scan_parse acc s z : 0 ≤ acc → parse_digits acc s = Some z → z ≤ 2 ^ 64 - 1 → scan_uint acc s = Some z.
Proof.
  revert acc. induction s as [|a s IH]; intros acc Hacc; cbn [parse_digits scan_uint]; [done|].
  destruct (digit_of a) as [d|] eqn:Hd; [|done]. pose proof (digit_of_range _ _ Hd) as Hr. intros H Hz.
  assert (0 ≤ acc * 10 + d) as Hnext by lia. pose proof (parse_digits_grows _ _ _ Hnext H).
  destruct (Z.ltb_spec (2 ^ 64 - 1) (acc * 10 + d)); [lia|]. by apply IH.
Qed.

(** Where [ParseInt] succeeds its value is what it returns. *)
Lemma parse_int_value_ok s z : parse_int64 s = Some z → parse_int_value s = z.
Proof.
  assert (∀ t k, parse_magnitude t = Some k → 0 ≤ k ∧ (k ≤ 2 ^ 64 - 1 → match t with ""%string => None | _ => scan_uint 0 t end = Some k)) as Hm.
  { intros t k Hk. destruct t as [|a t]; [done|]. split; [by apply (parse_digits_grows 0 (String a t)) in Hk|].
    intros Hle. by apply scan_parse. }
  unfold parse_int64, parse_int_value, in_int64b, int64_min, int64_max. intros H.
  assert (∀ t, match parse_magnitude t with Some z => if (- 2 ^ 63 <=? z) && (z <=? 2 ^ 63 - 1) then Some z else None | None => None end = Some z →
    match (match t with ""%string => None | _ => scan_uint 0 t end) with Some u => Z.min (2 ^ 63 - 1) u | None => 0 end = z) as Hpos.
  { intros t Ht. destruct (parse_magnitude t) as [k|] eqn:Ek; [|done]. apply Hm in Ek as [Hk Hscan].
    destruct ((- 2 ^ 63 <=? k) && (k <=? 2 ^ 63 - 1)) eqn:Er; [|done]. injection Ht as ->. rewrite Hscan by lia. lia. }
  destruct s as [|a s]; [done|].
  destruct (decide (a = "-"%char)) as [->|]; [|destruct (decide (a = "+"%char)) as [->|]].
  - destruct (parse_magnitude s) as [k|] eqn:Ek; [|done]. apply Hm in Ek as [Hk Hscan]. cbn [fmap option_fmap option_map] in H.
    destruct ((- 2 ^ 63 <=? - k) && (- k <=? 2 ^ 63 - 1)) eqn:Er; [|done]. injection H as <-. rewrite Hscan by lia. lia.
  - by apply Hpos.
  - assert (∀ A (x y z : A), match a with "-"%char => x | "+"%char => y | _ => z end = z) as Hother.
    { intros A x y z'. destruct a as [[] [] [] [] [] [] [] []]; done. }
    specialize (Hpos (String a s)). destruct a as [[] [] [] [] [] [] [] []]; try done; by apply Hpos.
Qed.

(** ** The pages a client gets *)

Section pages.
Context `{Env}.

Lemma list_query_get prefix max token : let q := parse_query (values_encode (list_query prefix max token)) in
  values_get q "prefix" = prefix ∧ values_get q "max-keys" = itoa max ∧ values_get q "continuation-token" = token
  ∧ values_get q "start-after" = "" ∧ values_get q "delimiter" = "".
Proof.
  cbv zeta. rewrite parse_query_encode; [unfold values_get, list_query; by simplify_map_eq|].
  intros k Hk. unfold list_query in Hk. repeat (apply lookup_insert_Some in Hk as [[_ [=]]|[_ Hk]]). 
  by apply lookup_singleton_Some in Hk as [_ [=]].
Qed.

Context (Hquiet : no_db_faults) (bucket prefix : string) (max : Z) (Hmax : 1 ≤ max ≤ 1000).

Lemma list_limit : limitOrDefault (parse_int_value (itoa max)) = max.
Proof.
  rewrite (parse_int_value_ok _ max) by (apply parse_int64_itoa; unfold int64_max; lia).
  unfold limitOrDefault. by assert ((max <=? 0) || (1000 <? max) = false) as -> by lia.
Qed.

(** One page: the next [max] objects, and whether there are more. *)
Lemma listObjects_page token key w : is_Some (db_buckets (w_db w) !! bucket) → db_wf (w_db w) →
  (token = "" ∧ key = "" ∨ token ≠ "" ∧ base64url_decode token = Some key) →
  ∃ w', listObjects (list_request bucket prefix max token) bucket w
          = (xml_response 200 (ListXML (list_page bucket prefix key token "" max
              (take (S (Z.to_nat max)) (after_key key (listed bucket prefix (w_db w)))))), w') ∧ w_db w' = w_db w.
Proof.
  intros [b Hb] Hwf Htoken. destruct (list_query_get prefix max token) as (Q1 & Q2 & Q3 & Q4 & Q5).
  unfold listObjects, Gateway.query, rq_Query, list_request. cbn [rq_RawQuery]. rewrite Q1, Q2, Q3, Q4, Q5, list_limit. cbv zeta.
  assert ((if (token =? "")%string then Some "" else base64url_decode token) = Some key) as ->.
  { destruct Htoken as [[-> ->]|[Hne Hd]]; [done|]. by rewrite (proj2 (String.eqb_neq token "")). }
  unfold ListObjectsAfter, ensureBucket, GetBucket, ListObjectsAfter_store.
  erewrite bind_run.
  2: { erewrite bind_ok_run.
       2: { erewrite bind_run by (apply sql_read_quiet; done). rewrite Hb. reflexivity. }
       apply sql_read_quiet; done. }
  rsimpl. assert ((max + 1 <=? 0) || (1001 <? max + 1) = false) as -> by lia.
  rewrite (page_rows bucket prefix key) by done. unfold limit. replace (Z.to_nat (max + 1)) with (S (Z.to_nat max)) by lia.
  eexists. split; [unfold ret; reflexivity|]. reflexivity.
Qed.

(** What a page says about the rest of the list. *)
Lemma list_page_plain key token (l : list ObjectRecord) (page := list_page bucket prefix key token "" max (take (S (Z.to_nat max)) l)) :
  lb_Contents page = list_entry <$> take (Z.to_nat max) l
  ∧ lb_IsTruncated page = bool_decide (Z.to_nat max < List.length l)%nat
  ∧ (lb_IsTruncated page = true → ∃ o, l !! pred (Z.to_nat max) = Some o ∧ lb_NextContinuationToken page = base64url_encode (o_Key o)).
Proof.
  subst page. unfold list_page. cbn [lb_Contents lb_IsTruncated lb_NextContinuationToken].
  assert (∀ k : list ObjectRecord, List.filter (λ o, match commonPrefix prefix "" (o_Key o) with None => true | Some _ => false end) k = k) as Hall.
  { intros k. induction k as [|o k IH]; [done|]. cbn [List.filter]. change (commonPrefix prefix "" (o_Key o)) with (@None string). by rewrite IH. }
  rewrite Hall. assert ((max <? Z.of_nat (List.length (take (S (Z.to_nat max)) l))) = bool_decide (Z.to_nat max < List.length l)%nat) as ->.
  { rewrite length_take. case_bool_decide; [apply Z.ltb_lt|apply Z.ltb_ge]; lia. }
  case_bool_decide as Hlong; (split_and!; [|done|]).
  - rewrite take_take. by replace (Init.Nat.min (Z.to_nat max) (S (Z.to_nat max))) with (Z.to_nat max) by lia.
  - intros _. rewrite take_take. replace (Init.Nat.min (Z.to_nat max) (S (Z.to_nat max))) with (Z.to_nat max) by lia.
    destruct (lookup_lt_is_Some_2 l (pred (Z.to_nat max)) ltac:(lia)) as [o Ho]. exists o. split; [done|].
    assert (last (take (Z.to_nat max) l) = Some o) as ->; [|done].
    rewrite last_lookup, length_take. replace (Init.Nat.min (Z.to_nat max) (List.length l)) with (Z.to_nat max) by lia.
    rewrite lookup_take_lt by lia. done.
  - by rewrite !take_ge by lia.
  - done.
Qed.

(** Following the tokens from any point of the list. *)
Lemma list_all_from d fuel token key w rest : db_wf d → w_db w = d → is_Some (db_buckets d !! bucket) →
  (token = "" ∧ key = "" ∨ token ≠ "" ∧ base64url_decode token = Some key) →
  (∀ o, o ∈ rest → o_Key o ≠ "") → (∀ i o, rest !! i = Some o → after_key (o_Key o) (listed bucket prefix d) = drop (S i) rest) →
  after_key key (listed bucket prefix d) = rest → (List.length rest < fuel)%nat →
  (list_all fuel bucket prefix max token w).1 = Some (list_entry <$> rest).
Proof.
  intros Hwf Hw Hb. revert token key w rest Hw.
  induction fuel as [|fuel IH]; intros token key w rest Hw Htoken Hne Hafter Hrest Hfuel; [lia|].
  subst d. cbn [list_all]. destruct (listObjects_page token key w Hb Hwf Htoken) as (w' & E & Hdb).
  rewrite (bind_run _ _ _ _ _ E). rewrite Hrest. cbn [rs_Body xml_response].
  destruct (list_page_plain key token rest) as (Hc & Ht & Hn). rewrite Hc.
  destruct (lb_IsTruncated _) eqn:Etrunc.
  - destruct (Hn eq_refl) as (o & Ho & ->). symmetry in Ht. apply bool_decide_eq_true in Ht.
    assert (o_Key o ≠ "") as Hkey by (by apply Hne, (list_elem_of_lookup_2 _ (pred (Z.to_nat max)))).
    pose proof (Hafter _ _ Ho) as Hrest'. replace (S (pred (Z.to_nat max))) with (Z.to_nat max) in Hrest' by lia.
    unfold bind. assert ((list_all fuel bucket prefix max (base64url_encode (o_Key o)) w').1 = Some (list_entry <$> drop (Z.to_nat max) rest)) as HIH.
    { apply (IH _ (o_Key o)); [done| | | |done|rewrite length_drop; lia].
      - right. split; [by rewrite base64url_encode_empty|]. apply base64url_roundtrip.
      - intros x Hx. apply Hne. by apply (subseteq_drop (Z.to_nat max) rest x).
      - intros i x Hx. rewrite lookup_drop in Hx. rewrite (Hafter _ _ Hx), drop_drop. f_equal. lia. }
    rewrite HIH. cbn [ret fst fmap option_fmap option_map]. f_equal. rewrite <- fmap_app. by rewrite take_drop.
  - symmetry in Ht. apply bool_decide_eq_false in Ht. cbn [ret fst]. f_equal. by rewrite take_ge by lia.
Qed.
End pages.

(** C21. For a client that lists a bucket page by page with any page size
    from 1 to 1000, following the continuation tokens, the tokens come to an
    end: with a request per object and one more it has got every object of the
    bucket under the prefix exactly once, in the strict order of the keys. *)
Theorem listing_complete `{Env} bucket prefix max w (d := w_db w) : no_db_faults → db_wf d →
  is_Some (db_buckets d !! bucket) → 1 ≤ max ≤ 1000 →
  (list_all (S (List.length (listed bucket prefix d))) bucket prefix max "" w).1
    = Some (list_entry <$> after_key "" (listed bucket prefix d))
  ∧ StronglySorted key_lt (after_key "" (listed bucket prefix d))
  ∧ ∀ o, o ∈ after_key "" (listed bucket prefix d) ↔
      (∃ k, db_objects d !! k = Some o) ∧ o_Bucket o = bucket ∧ like (prefix +:+ "%") (o_Key o) = true ∧ o_Key o ≠ "".
Proof.
  intros Hquiet Hwf Hb Hmax. assert (StronglySorted key_lt (after_key "" (listed bucket prefix d))) as Hs
    by by apply where_sorted, listed_sorted.
  assert (∀ k, text_ltb "" k = true ↔ k ≠ "") as Hfirst by (intros []; cbn; by split).
  split_and!; [|done|].
  - apply (list_all_from Hquiet bucket prefix max Hmax d _ "" ""); [done|done|done|by left| | |done|].
    + intros o [_ Ho]%elem_of_where. by apply Hfirst.
    + intros i o Ho. rewrite <- after_key_twice. by apply after_key_drop.
    + apply Nat.lt_succ_r. unfold after_key, where_. apply List.filter_length_le.
  - intros o. unfold after_key, listed. rewrite elem_of_where, elem_of_order_by, elem_of_where, elem_of_rows, Hfirst, andb_true_iff, String.eqb_eq.
    naive_solver.
Qed.

(** A bucket with three objects, two of them under the prefix. *)
Definition shelf_object (key : string) : ObjectRecord :=
  zero_ObjectRecord <| o_Bucket := "b" |> <| o_Key := key |> <| o_ProviderAccountID := "p1" |>.
Definition shelf_db : DB :=
  (demo_db demo_bucket) <| db_objects := {[ ("b", "logs/2") := shelf_object "logs/2"; ("b", "logs/1") := shelf_object "logs/1"; ("b", "z") := shelf_object "z" ]} |>.

Lemma listing_complete_witness :
  (@list_all demo_env (S (List.length (listed "b" "logs/" shelf_db))) "b" "logs/" 1 "" (start shelf_db)).1
    = Some (list_entry <$> [shelf_object "logs/1"; shelf_object "logs/2"]).
Proof.
  destruct (@listing_complete demo_env "b" "logs/" 1 (start shelf_db)) as [H _].
  - intros n. reflexivity.
  - apply db_wfb_sound. vm_compute. reflexivity.
  - eexists. vm_compute. reflexivity.
  - lia.
  - etransitivity; [exact H|]. vm_compute. reflexivity.
Defined.
