(* ===== verification/Lifecycle.v ===== *)
(** Lifecycle rules and the trash, [app/lifecycle.go]: expiring objects, purging
    the trash, and one run of the worker under its lease. *)
From S2P Require Import Prelude GoTime Domain ProviderErrors World Sql StoreProviders StoreObjects StoreEvents Placement Providers Hooks Service Protection.

Record LifecycleRunResult : Type := MkLifecycleRunResult {
  lc_ExpiredObjects : Z;
  lc_PurgedTrash : Z;
  lc_Failures : Z }.
#[global] Instance LifecycleRunResult_settable : Settable LifecycleRunResult := settable! MkLifecycleRunResult
  < lc_ExpiredObjects ; lc_PurgedTrash ; lc_Failures >.

Definition no_lifecycle_result : LifecycleRunResult := MkLifecycleRunResult 0 0 0.

(** [now.Add(-time.Duration(days)*24*time.Hour)] *)
Definition days_before (t : Time) (days : Z) : Time := add_time t (mul64 (mul64 (wrap64 (- days)) 24) hour).

(** The objects a rule expires at the instant [t]. *)
Definition rule_expires (rule : LifecycleRule) (t : Time) (object : ObjectRecord) : bool :=
  has_prefix (o_Key object) (lr_Prefix rule)
  && negb (after (o_UpdatedAt object) (days_before t (lr_ExpireAfterDays rule))).

Section lifecycle.
Context `{Env}.

Fixpoint expire_objects (rule : LifecycleRule) (t : Time) (bucket : string) (objects : list ObjectRecord)
    (r : LifecycleRunResult) : M LifecycleRunResult :=
  match objects with
  | [] => ret r
  | object :: rest =>
      if negb (rule_expires rule t object) then expire_objects rule t bucket rest r
      else
        let! deleted := DeleteObjectWithOptions bucket (o_Key object) plain_delete in
        expire_objects rule t bucket rest
          (if is_ok deleted then r <| lc_ExpiredObjects ::= λ n, add64 n 1 |> else r <| lc_Failures ::= λ n, add64 n 1 |>)
  end.

(** Page by page; [fuel] bounds the pages. *)
Fixpoint expire_pages (fuel : nat) (rule : LifecycleRule) (t : Time) (bucket startAfter : string)
    (r : LifecycleRunResult) : M (result LifecycleRunResult) :=
  match fuel with
  | O => ret_err (ErrSentinel ErrFuel)
  | S fuel =>
      let? objects := ListObjectsAfter_store bucket (lr_Prefix rule) startAfter 1000 in
      let! r := expire_objects rule t bucket objects r in
      match last objects with
      | Some object =>
          if Nat.ltb (List.length objects) 1000 then ret_ok r
          else expire_pages fuel rule t bucket (o_Key object) r
      | None => ret_ok r
      end
  end.

Fixpoint purge_page (page : list TrashRecord) (r : LifecycleRunResult) : M LifecycleRunResult :=
  match page with
  | [] => ret r
  | trash :: rest =>
      let! purged := PurgeTrashObject (t_ID trash) in
      purge_page rest
        (if is_ok purged then r <| lc_PurgedTrash ::= λ n, add64 n 1 |> else r <| lc_Failures ::= λ n, add64 n 1 |>)
  end.

(** List a page, purge it, until a page is not full; [fuel] bounds the pages. *)
Fixpoint purge_pages (fuel : nat) (list_page : M (result (list TrashRecord))) (r : LifecycleRunResult)
    : M (result LifecycleRunResult) :=
  match fuel with
  | O => ret_err (ErrSentinel ErrFuel)
  | S fuel =>
      let? page := list_page in
      let! r := purge_page page r in
      if Nat.ltb (List.length page) 100 then ret_ok r else purge_pages fuel list_page r
  end.

Definition apply_rule (fuel : nat) (t : Time) (bucket : string) (rule : LifecycleRule) (r : LifecycleRunResult)
    : M (result LifecycleRunResult) :=
  if negb (lr_Enabled rule) then ret_ok r
  else
    let? r := (if 0 <? lr_ExpireAfterDays rule then expire_pages fuel rule t bucket "" r else ret_ok r) in
    if 0 <? lr_PurgeTrashAfterDays rule
    then purge_pages fuel (ListTrashObjectsForLifecycle bucket (lr_Prefix rule)
           (days_before t (lr_PurgeTrashAfterDays rule)) 100) r
    else ret_ok r.

Fixpoint apply_rules (fuel : nat) (t : Time) (rules : list (string * LifecycleRule)) (r : LifecycleRunResult)
    : M (result LifecycleRunResult) :=
  match rules with
  | [] => ret_ok r
  | (bucket, rule) :: rest => let? r := apply_rule fuel t bucket rule r in apply_rules fuel t rest r
  end.

Definition RunLifecycleOnce (fuel : nat) (t : Time) : M (result LifecycleRunResult) :=
  let? buckets := ListBuckets in
  let rules := flat_map (λ b, (λ rule, (b_Name b, rule)) <$> b_LifecycleRules b) buckets in
  let? r := apply_rules fuel t rules no_lifecycle_result in
  purge_pages fuel (ListTrashObjectsDue t 100) r.

(** One tick of the worker: under the lease, which is given back at the end. *)
Definition lifecycle_tick (fuel : nat) : M unit :=
  let! t := now in
  let! acquired := AcquireMaintenanceLease "lifecycle" t (30 * minute) in
  match acquired with
  | Err e => recordWorkerFailure "lifecycle" e
  | Ok false => ret tt
  | Ok true =>
      let! t := now in
      let! ran := RunLifecycleOnce fuel t in
      let! _ := match ran with
                | Err e => recordWorkerFailure "lifecycle" e
                | Ok _ => recordWorkerSuccess "lifecycle"
                end in
      ignore (ReleaseMaintenanceLease "lifecycle")
  end.
End lifecycle.
