(* ===== verification/LifecycleFacts.v ===== *)
(** What the lifecycle worker guarantees, and a run of it that never ends. *)
From S2P Require Import Prelude GoTime Domain ProviderErrors World Sql StoreProviders Placement Demo StoreObjects StoreEvents Providers Hooks Service ServiceFacts Protection ProtectionFacts Lifecycle.

(** ** Young objects survive *)

(** No object is added, and the row [k] is kept. *)
Definition keeps_row (k : string * string) (d d' : DB) : Prop :=
  db_objects d' ⊆ db_objects d ∧ db_objects d' !! k = db_objects d !! k.

#[global] Instance keeps_row_preorder k : PreOrder (keeps_row k).
Proof. unfold keeps_row. split; [done|]. intros ??? [] []. split; [by etrans | congruence]. Qed.

Lemma same_objects_keeps k d d' : same db_objects d d' → keeps_row k d d'.
Proof. unfold same, keeps_row. by intros ->. Qed.

Lemma pres_objects_keeps {A} k (m : M A) : pres (on_db (same db_objects)) m → pres (on_db (keeps_row k)) m.
Proof. intros Hm w. apply same_objects_keeps, Hm. Qed.

Section young.
Context `{Env}.

Lemma delete_keeps_other bucket key k options :
  do_VersionID options = "" → (bucket, key) ≠ k → pres (on_db (keeps_row k)) (DeleteObjectWithOptions bucket key options).
Proof.
  intros Hv Hne. unfold DeleteObjectWithOptions, delete_to_marker, delete_to_trash, delete_for_good. rewrite Hv. simpl.
  assert (pres (on_db (keeps_row k)) (DeleteObject_store bucket key)) as Hdel.
  { unfold DeleteObject_store. apply pres_sql_write; [apply _|]. intros d d' [= <-]. unfold delete_object_row.
    destruct (db_objects d !! (bucket, key)); [|done]. split; rsimpl; [apply delete_subseteq | by apply lookup_delete_ne]. }
  repeat first [ exact Hdel | pres_step | solve [apply pres_objects_keeps; frame_auto] ].
Qed.

Lemma purge_page_objects page r : pres (on_db (same db_objects)) (purge_page page r).
Proof. revert r. induction page as [|t l IH]; intros r; simpl; [pres_auto|]. pres_auto; [frame_auto | apply IH..]. Qed.

Lemma purge_pages_objects fuel m r : pres (on_db (same db_objects)) m → pres (on_db (same db_objects)) (purge_pages fuel m r).
Proof.
  intros Hm. revert r. induction fuel as [|fuel IH]; intros r; simpl; [pres_auto|].
  apply pres_bind_ok; [apply _ | done |]. intros page. apply pres_bind; [apply _ | apply purge_page_objects |].
  intros r'. destruct (Nat.ltb _ _); [pres_auto | apply IH].
Qed.

(** A step run from a state whose rows are stored under their keys. *)
Definition young_kept {A} (k : string * string) (o : ObjectRecord) (m : M A) : Prop :=
  ∀ w, (∀ k' o', db_objects (w_db w) !! k' = Some o' → object_key o' = k') → db_objects (w_db w) !! k = Some o →
  keeps_row k (w_db w) (w_db (m w).2).

Lemma young_bind {A B} k o (m : M A) (f : A → M B) :
  young_kept k o m → (∀ a, young_kept k o (f a)) → young_kept k o (bind m f).
Proof.
  intros Hm Hf w Hk Ho. unfold bind. specialize (Hm w Hk Ho). etrans; [exact Hm|]. destruct Hm as [Hsub Heq].
  apply Hf; [|congruence]. intros k' o' Hk'. apply Hk. by eapply lookup_weaken.
Qed.

Lemma young_bind_ok {A B} k o (m : M (result A)) (f : A → M (result B)) :
  young_kept k o m → (∀ a, young_kept k o (f a)) → young_kept k o (bind_ok m f).
Proof. intros Hm Hf. apply young_bind; [done|]. intros [a|e]; [apply Hf | by intros w]. Qed.

Lemma young_frame {A} k o (m : M A) : pres (on_db (same db_objects)) m → young_kept k o m.
Proof. intros Hm w _ _. by apply same_objects_keeps, Hm. Qed.

Lemma young_expire_objects k o rule t bucket l r :
  (∀ x, x ∈ l → (bucket, o_Key x) = k → rule_expires rule t x = false) →
  young_kept k o (expire_objects rule t bucket l r).
Proof.
  intros Hl w _ _. revert r w. change (∀ r, pres (on_db (keeps_row k)) (expire_objects rule t bucket l r)).
  induction l as [|x l IH]; intros r; simpl; [pres_auto|].
  assert (∀ r, pres (on_db (keeps_row k)) (expire_objects rule t bucket l r)) as Hrest by (apply IH; intros y Hy; apply Hl; by right).
  destruct (rule_expires rule t x) eqn:Hx; simpl; [|apply Hrest].
  apply pres_bind; [apply _| |]; [|intros; apply Hrest]. apply delete_keeps_other; [done|].
  intros Hk. rewrite (Hl x) in Hx; [done | by left | done].
Qed.

Lemma young_expire_pages fuel k o rule t bucket startAfter r :
  (bucket = k.1 → rule_expires rule t o = false) → young_kept k o (expire_pages fuel rule t bucket startAfter r).
Proof.
  intros Hrule. revert startAfter r. induction fuel as [|fuel IH]; intros startAfter r; simpl; [by intros w|].
  intros w Hk Ho. unfold bind_ok, bind at 1.
  destruct (ListObjectsAfter_store bucket (lr_Prefix rule) startAfter 1000 w) as [[l|e] w1] eqn:Hlist.
  2: { apply same_objects_keeps. eapply (pres_run (on_db (same db_objects))); [|exact Hlist]. pres_auto. }
  apply sql_read_inv in Hlist as [[= Hl] Hdb].
  rewrite <- Hdb in Hk, Ho |- *. refine (young_bind k o _ _ _ _ w1 Hk Ho).
  - apply young_expire_objects. intros x Hx <-.
    rewrite <- Hl in Hx. apply elem_of_limit, elem_of_order_by, elem_of_where in Hx as [Hx Hm].
    apply elem_of_rows in Hx as [kx Hx]. rewrite <- Hdb in Hx. pose proof (Hk _ _ Hx) as Hkx. rewrite !andb_true_iff in Hm.
    destruct Hm as [[Hb _] _]. apply String.eqb_eq in Hb. unfold object_key in Hkx. subst bucket kx.
    rewrite Hx in Ho. injection Ho as ->. by apply Hrule.
  - intros r'. destruct (last l); [|by intros w']. destruct (Nat.ltb _ _); [by intros w' | apply IH].
Qed.

(** A lifecycle run deletes only what its rules expire: an object that
    is younger than the age of every enabled expiration rule of its bucket, or
    outside its prefix, is in the index after the run as it was before. *)
Theorem young_objects_survive fuel t bucket key o w :
  db_wf (w_db w) → db_objects (w_db w) !! (bucket, key) = Some o →
  (∀ b rule, db_buckets (w_db w) !! bucket = Some b → rule ∈ b_LifecycleRules b →
     lr_Enabled rule = true → 0 < lr_ExpireAfterDays rule → rule_expires rule t o = false) →
  db_objects (w_db (RunLifecycleOnce fuel t w).2) !! (bucket, key) = Some o.
Proof.
  intros Hwf Ho Hrules. enough (keeps_row (bucket, key) (w_db w) (w_db (RunLifecycleOnce fuel t w).2)) as [_ ->]; [done|].
  unfold RunLifecycleOnce, bind_ok at 1, bind at 1. destruct (ListBuckets w) as [[buckets|e] w1] eqn:Hb.
  2: { apply same_objects_keeps. eapply (pres_run (on_db (same db_objects))); [|exact Hb]. pres_auto. }
  apply sql_read_inv in Hb as [[= Hl] Hdb]. rewrite <- Hdb in *.
  assert (∀ b rule, (b, rule) ∈ flat_map (λ b, (λ rule, (b_Name b, rule)) <$> b_LifecycleRules b) buckets →
    b = bucket → lr_Enabled rule = true → 0 < lr_ExpireAfterDays rule → rule_expires rule t o = false) as Hin.
  { intros b rule Hi Hbk. rewrite list_elem_of_In, in_flat_map in Hi.
    destruct Hi as (row & Hrow%list_elem_of_In & Hi%list_elem_of_In). apply list_elem_of_fmap in Hi as (rule' & [= -> ->] & Hi).
    rewrite <- Hl in Hrow. apply elem_of_order_by, elem_of_rows in Hrow as [kb Hrow].
    pose proof (wf_bucket _ Hwf _ _ Hrow) as Hn. subst kb. rewrite Hbk in Hrow. by eapply Hrules. }
  clear Hl Hrules Hdb. refine (young_bind_ok (bucket, key) o _ _ _ _ w1 (λ k x Hx, proj1 (wf_object _ Hwf k x Hx)) Ho).
  2: { intros r. apply young_frame, purge_pages_objects. pres_auto. }
  generalize no_lifecycle_result. revert Hin. generalize (flat_map (λ b, (λ rule, (b_Name b, rule)) <$> b_LifecycleRules b) buckets).
  intros rules Hin. induction rules as [|[b rule] rules IH]; intros r; simpl; [by intros w'|].
  apply young_bind_ok; [|intros r'; apply IH; intros; eapply Hin; try done; by right].
  unfold apply_rule. destruct (lr_Enabled rule) eqn:Hen; simpl; [|by intros w'].
  apply young_bind_ok; [|intros r'; destruct (0 <? _); [apply young_frame, purge_pages_objects; pres_auto | by intros w']].
  destruct (Z.ltb_spec 0 (lr_ExpireAfterDays rule)); [|by intros w'].
  apply young_expire_pages. simpl. intros Hbk. eapply Hin; try done. by left.
Qed.
End young.

(** ** A run that never ends *)

(** At least a hundred rows of the trash are due and the account of each is
    gone; an account is deletable while only the trash refers to it. *)
Record purge_stuck (t : Time) (d : DB) : Prop := {
  stuck_full : (100 ≤ size (db_trash d))%nat;
  stuck_due : ∀ k r, db_trash d !! k = Some r → sql_time_le (t_PurgeAfter r) t = true;
  stuck_gone : ∀ k r, db_trash d !! k = Some r → db_providers d !! o_ProviderAccountID (t_Object r) = None }.

Section stuck.
Context `{Env} (Hquiet : no_db_faults).

Lemma purge_gone id w :
  (∀ k r, db_trash (w_db w) !! k = Some r → db_providers (w_db w) !! o_ProviderAccountID (t_Object r) = None) →
  is_ok (PurgeTrashObject id w).1 = false ∧ no_effect w (PurgeTrashObject id w).2.
Proof.
  intros Hgone. unfold PurgeTrashObject, GetTrashObject. destruct (db_trash (w_db w) !! id) as [r|] eqn:Hr.
  - run_fwd by (rewrite sql_read_quiet, Hr by done; done).
    run_fwd by (unfold providerForObject; eapply bind_err_run; unfold GetProvider; rewrite sql_read_quiet by done; rsimpl;
                rewrite (Hgone _ _ Hr); done).
    done.
  - run_fwd by (rewrite sql_read_quiet, Hr by done; done). done.
Qed.

Lemma purge_page_gone page r w :
  (∀ k x, db_trash (w_db w) !! k = Some x → db_providers (w_db w) !! o_ProviderAccountID (t_Object x) = None) →
  no_effect w (purge_page page r w).2.
Proof.
  revert r w. induction page as [|t l IH]; intros r w Hgone; simpl; [done|].
  destruct (purge_gone (t_ID t) w Hgone) as [_ Heff]. unfold bind at 1.
  etrans; [exact Heff|]. apply IH. destruct Heff as [-> _]. exact Hgone.
Qed.

Lemma stuck_page t w : purge_stuck t (w_db w) →
  ∃ page, ListTrashObjectsDue t 100 w = (Ok page, w <| w_stmts ::= S |>) ∧ List.length page = 100%nat.
Proof.
  intros [Hfull Hdue _]. unfold ListTrashObjectsDue. rewrite sql_read_quiet by done. eexists. split; [done|].
  unfold trash_limit, limit. simpl. rewrite length_take, (Permutation_length (order_by_perm _ _)).
  assert (where_ (λ r, sql_time_le (t_PurgeAfter r) t) (rows (db_trash (w_db w))) = rows (db_trash (w_db w))) as ->.
  { unfold where_. assert (∀ x, x ∈ rows (db_trash (w_db w)) → sql_time_le (t_PurgeAfter x) t = true) as Hall
      by (intros x [k Hk]%elem_of_rows; by eapply Hdue).
    revert Hall. generalize (rows (db_trash (w_db w))). intros l. induction l as [|x l IH]; intros Hall; [done|]. simpl.
    rewrite (Hall x) by by left. f_equal. apply IH. intros y Hy. apply Hall. by right. }
  unfold rows. rewrite length_fmap, length_map_to_list. change (Pos.to_nat 100) with 100%nat. lia.
Qed.

Lemma purge_pages_stuck fuel t r w :
  purge_stuck t (w_db w) → (purge_pages fuel (ListTrashObjectsDue t 100) r w).1 = Err (ErrSentinel ErrFuel).
Proof.
  revert r w. induction fuel as [|fuel IH]; intros r w Hstuck; simpl; [done|].
  destruct (stuck_page t w Hstuck) as (page & Hpage & Hlen). run_fwd by exact Hpage.
  unfold bind at 1. rewrite Hlen. simpl. apply IH.
  match goal with |- purge_stuck t (w_db ((purge_page page r ?w1).2)) =>
    destruct (purge_page_gone page r w1 (stuck_gone _ _ Hstuck)) as [-> _] end. exact Hstuck.
Qed.

(** The lifecycle worker can spin for ever: while a hundred rows of the
    trash that are due cannot be purged, here because their account was
    deleted, every page is full and the run does not end, however many pages it
    is given. *)
Theorem lifecycle_never_ends fuel t w :
  purge_stuck t (w_db w) → (∀ k b, db_buckets (w_db w) !! k = Some b → b_LifecycleRules b = []) →
  (RunLifecycleOnce fuel t w).1 = Err (ErrSentinel ErrFuel).
Proof.
  intros Hstuck Hrules. unfold RunLifecycleOnce.
  run_fwd by (unfold ListBuckets; rewrite sql_read_quiet by done; done).
  match goal with |- context [flat_map ?f ?l] => assert (flat_map f l = []) as -> end.
  { assert (∀ b, b ∈ order_by (by_text b_Name) (rows (db_buckets (w_db w))) → b_LifecycleRules b = []) as Hall.
    { intros b [k Hk]%elem_of_order_by%elem_of_rows. by eapply Hrules. }
    revert Hall. generalize (order_by (by_text b_Name) (rows (db_buckets (w_db w)))). intros l.
    induction l as [|b l IH]; intros Hall; simpl; [done|]. rewrite (Hall b) by by left. apply IH. intros b' Hb'. apply Hall. by right. }
  run_fwd by (simpl; reflexivity). apply purge_pages_stuck. exact Hstuck.
Qed.
End stuck.

(** A hundred rows of the account "gone". *)
Definition stuck_db : DB :=
  (demo_db demo_bucket) <| db_trash := list_to_map ((λ n, let id := itoa (Z.of_nat n) in
     (id, MkTrashRecord id (zero_ObjectRecord <| o_ProviderAccountID := "gone" |>) 0 0)) <$> seq 0 100) |>.

Lemma lifecycle_never_ends_witness : (@RunLifecycleOnce demo_env 2 demo_time (start stuck_db)).1 = Err (ErrSentinel ErrFuel).
Proof.
  apply (@lifecycle_never_ends demo_env).
  - intros n. reflexivity.
  - split.
    + apply Nat.leb_le. vm_compute. reflexivity.
    + assert (map_Forall (λ _ r, sql_time_le (t_PurgeAfter r) demo_time = true) (db_trash (w_db (start stuck_db)))) as Hall
        by (apply (bool_decide_unpack _); vm_compute; exact I).
      exact Hall.
    + assert (map_Forall (λ _ r, db_providers (w_db (start stuck_db)) !! o_ProviderAccountID (t_Object r) = None)
                (db_trash (w_db (start stuck_db)))) as Hall by (apply (bool_decide_unpack _); vm_compute; exact I).
      exact Hall.
  - assert (map_Forall (λ _ b, b_LifecycleRules b = []) (db_buckets (w_db (start stuck_db)))) as Hall
      by (apply (bool_decide_unpack _); vm_compute; exact I).
    exact Hall.
Defined.

(** A rule that expires objects after a day, and an object stored just now. *)
Definition expiring_bucket : Bucket := demo_bucket <| b_LifecycleRules := [MkLifecycleRule "r" "" 1 0 true] |>.

Lemma young_objects_survive_witness :
  db_objects (w_db (@RunLifecycleOnce demo_env 2 demo_time (stored_world expiring_bucket)).2) !! ("b", "k")
  = db_objects (w_db (stored_world expiring_bucket)) !! ("b", "k").
Proof.
  destruct (db_objects (w_db (stored_world expiring_bucket)) !! ("b", "k")) as [o|] eqn:Ho; [|vm_compute in Ho; discriminate Ho].
  apply (@young_objects_survive demo_env).
  - apply db_wfb_sound. vm_compute. reflexivity.
  - exact Ho.
  - intros b rule Hb Hrule _ _. vm_compute in Ho. injection Ho as <-. vm_compute in Hb. injection Hb as <-.
    apply list_elem_of_singleton in Hrule as ->. vm_compute. reflexivity.
Defined.
