(* ===== verification/AdminAuth.v ===== *)
(** Who may administer: [admin/oidc.go], and [authorized], [sameOriginRequest]
    and what answers are made of in [admin/handler.go]. *)
From S2P Require Import Prelude GoTime Json Text Url Http Base64 Domain ProviderErrors World Sql StoreProviders StoreObjects Access Plugins Configuration.

(** ** Answers *)

(** [http.Cookie] as the handlers set it: always HttpOnly, SameSite=Lax. *)
Record Cookie : Type := MkCookie {
  ck_Name : string; ck_Value : string; ck_Path : string; ck_MaxAge : Z; ck_Secure : bool }.

(** A response whose body is a value of type [B] still to be rendered. *)
Record Answer (B : Type) : Type := MkAnswer {
  an_Status : Z; an_Header : gmap string string; an_Cookies : list Cookie; an_Body : B }.
#[global] Arguments MkAnswer {B} _ _ _ _.
#[global] Arguments an_Status {B} _.
#[global] Arguments an_Header {B} _.
#[global] Arguments an_Cookies {B} _.
#[global] Arguments an_Body {B} _.

(** The bodies that need no data: none, and [application/problem+json]. *)
Inductive PlainBody : Type :=
| NoContent
| Problem (status : Z) (code detail : string).

Definition writeProblem (status : Z) (code detail : string) : Answer PlainBody :=
  MkAnswer status {[ "Content-Type" := "application/problem+json" ]} [] (Problem status code detail).

(** [http.Redirect]; the note it writes for people is left out. *)
Definition redirect (status : Z) (location : string) : Answer PlainBody := MkAnswer status {[ "Location" := location ]} [] NoContent.

Definition with_cookies {B} (cookies : list Cookie) (a : Answer B) : Answer B :=
  MkAnswer (an_Status a) (an_Header a) (cookies ++ an_Cookies a) (an_Body a).

Definition wrong_method (detail : string) : Answer PlainBody := writeProblem 405 "method-not-allowed" detail.

(** ** Credentials in a request *)

(** [r.BasicAuth()] *)
Definition basic_auth (r : Request) : option (string * string) :=
  let auth := rq_header r "Authorization" in
  if equal_fold (string_take 6 auth) "Basic " then
    content ← base64std_decode (string_drop 6 auth);
    string_cut (text_of_bytes content) ":"
  else None.

(** [r.Cookie(name)]: the first well-formed cookie of that name. *)
Definition trim_text (s : string) : string :=
  let blank := λ a, existsb (Ascii.eqb a) [" "%char; "009"%char; "010"%char; "013"%char] in
  let fix drop_blank (l : list ascii) := match l with a :: l' => if blank a then drop_blank l' else l | [] => [] end in
  string_of_list_ascii (rev (drop_blank (rev (drop_blank (list_ascii_of_string s))))).

Definition cookie_value_byte (a : ascii) : bool :=
  let b := byte_of a in (32 <=? b) && (b <? 127) && negb (b =? 34) && negb (b =? 59) && negb (b =? 92).

Definition cookie_value (raw : string) : option string :=
  let value := if (1 <? Z.of_nat (String.length raw)) && has_prefix raw quote && has_suffix raw quote
               then string_drop 1 (string_take (String.length raw - 1) raw) else raw in
  if forallb cookie_value_byte (list_ascii_of_string value) then Some value else None.

Definition cookie_part (name part : string) : option string :=
  let part := trim_text part in
  let '(key, value) := default (part, ""%string) (string_cut part "=") in
  let key := trim_text key in
  if (key =? name)%string && negb (key =? "")%string && forallb token_byte (list_ascii_of_string key) then cookie_value value else None.

Definition find_cookie (r : Request) (name : string) : option string :=
  head (omap (cookie_part name) (List.concat (string_split ";" <$> default [] (rq_Header r !! "Cookie")))).

(** ** OIDC *)

Definition oidcFlowCookie : string := "bucketmux_oidc_flow".
Definition oidcSessionCookie : string := "bucketmux_admin_session".

Record oidcFlow : Type := MkOidcFlow { of_State : string; of_Nonce : string; of_Verifier : string; of_Expires : Time }.

Record oidcSession : Type := MkOidcSession {
  os_Subject : string; os_Email : string; os_Name : string; os_Groups : list string; os_Expires : Time }.

(** A verified ID token: its nonce, its expiry, and its claims when they can be
    decoded (subject, e-mail, name, groups). *)
Record IDToken : Type := MkIDToken {
  it_Nonce : string; it_Expiry : Time; it_Claims : result (string * string * string * list string) }.

(** The JSON texts of the cookies. *)
Definition flow_json (f : oidcFlow) : string :=
  json_text (JObject [("state", JString (of_State f)); ("nonce", JString (of_Nonce f)); ("verifier", JString (of_Verifier f));
                      ("expires", JString (time_text (of_Expires f)))]).

Definition session_json (s : oidcSession) : string :=
  json_text (JObject [("subject", JString (os_Subject s)); ("email", JString (os_Email s)); ("name", JString (os_Name s));
                      ("groups", match os_Groups s with [] => JNull | l => JArray (JString <$> l) end);
                      ("expires", JString (time_text (os_Expires s)))]).

(** What is asked of the identity provider's library and of encoding/json. *)
Class OidcHost : Type := {
  oh_initialize : list Call → result unit;                    (* discovery *)
  oh_generate_verifier : string → string;                     (* from 32 random bytes *)
  oh_auth_url : oidcFlow → string;
  oh_exchange : list Call → string → string → result (option string); (* code, verifier: the ID token *)
  oh_verify : Time → string → result IDToken;
  oh_decode_flow : string → result oidcFlow;
  oh_decode_session : string → result oidcSession }.

Definition groupsAllowed (identityGroups allowedGroups : list string) : bool :=
  match allowedGroups with
  | [] => true
  | _ => existsb (λ group, existsb (String.eqb group) allowedGroups) identityGroups
  end.

Section oidc.
Context `{Env} `{!OidcHost}.
Variable cfg : OIDCConfig.
Variable tls : bool. (* r.TLS != nil *)

Definition requestIsHTTPS (r : Request) : bool := tls || equal_fold (rq_header r "X-Forwarded-Proto") "https".

(** [duration.Seconds()] cut to an integer *)
Definition encryptedCookie (r : Request) (name text path : string) (duration : Duration) : M (result Cookie) :=
  let? sealed := encrypt text in
  ret_ok (MkCookie name sealed path (Z.quot duration second) (requestIsHTTPS r)).

Definition clearCookie (r : Request) (name path : string) : Cookie := MkCookie name "" path (-1) (requestIsHTTPS r).

Definition readEncryptedCookie {A} (r : Request) (name : string) (decode : string → result A) : result A :=
  match find_cookie r name with
  | None => Err (ErrText "http: named cookie not present")
  | Some value => try! plain := env_decrypt value in decode plain
  end.

Definition initialize : M (result unit) := λ w, (oh_initialize (w_calls w), w).

Definition login (r : Request) : M (Answer PlainBody) :=
  if negb (rq_Method r =? "GET")%string then ret (wrong_method "OIDC login requires GET")
  else
    let! ready := initialize in
    match ready with
    | Err e => ret (writeProblem 502 "oidc-discovery-failed" (error_text e))
    | Ok _ =>
        let! state := randomSecret 24 in
        let! nonce := randomSecret 24 in
        let! seed := randomIdentifier "" 32 in
        let! t := now in
        let flow := MkOidcFlow state nonce (oh_generate_verifier seed) (add_time t (10 * minute)) in
        let! cookie := encryptedCookie r oidcFlowCookie (flow_json flow) "/admin/oidc/callback" (10 * minute) in
        ret (match cookie with
             | Err e => writeProblem 500 "oidc-state-failed" (error_text e)
             | Ok cookie => with_cookies [cookie] (redirect 302 (oh_auth_url flow))
             end)
    end.

(** The token of a callback: exchanged, verified, with the nonce of the flow. *)
Definition exchanged_token (flow : oidcFlow) (code : string) : M (sum (Answer PlainBody) IDToken) :=
  let forbidden code detail := inl (writeProblem 403 code detail) in
  λ w, match oh_exchange (w_calls w) code (of_Verifier flow) with
       | Err e => (forbidden "oidc-exchange-failed" (error_text e), w)
       | Ok None => (forbidden "oidc-token-missing" "OIDC provider did not return an ID token", w)
       | Ok (Some raw) =>
           if (raw =? "")%string then (forbidden "oidc-token-missing" "OIDC provider did not return an ID token", w)
           else bind now (λ t, ret (match oh_verify t raw with
                                    | Ok token => if (it_Nonce token =? of_Nonce flow)%string then inr token
                                                  else forbidden "oidc-token-invalid" "OIDC ID token verification failed"
                                    | Err _ => forbidden "oidc-token-invalid" "OIDC ID token verification failed"
                                    end)) w
       end.

(** The session a verified identity gets, until the earlier of the configured
    hours and the expiry of its token. *)
Definition session_of (t : Time) (token : IDToken) (claims : string * string * string * list string) : oidcSession :=
  let '(subject, email, name, groups) := claims in
  let expires := add_time t (mul64 (oi_SessionHours cfg) hour) in
  MkOidcSession subject email name groups (if it_Expiry token <? expires then it_Expiry token else expires).

Definition callback (r : Request) : M (Answer PlainBody) :=
  let query name := values_get (rq_Query r) name in
  if negb (rq_Method r =? "GET")%string then ret (wrong_method "OIDC callback requires GET")
  else
    let! ready := initialize in
    match ready with
    | Err e => ret (writeProblem 502 "oidc-discovery-failed" (error_text e))
    | Ok _ =>
        let invalid := writeProblem 403 "oidc-state-invalid" "OIDC state is missing, expired or invalid" in
        match readEncryptedCookie r oidcFlowCookie oh_decode_flow with
        | Err _ => ret invalid
        | Ok flow =>
            let! t := now in
            if (of_Expires flow <? t) || negb (of_State flow =? query "state")%string then ret invalid
            else
              let! exchanged := exchanged_token flow (query "code") in
              match exchanged with
              | inl refusal => ret refusal
              | inr token =>
                  match it_Claims token with
                  | Err _ => ret (writeProblem 403 "oidc-claims-invalid" "OIDC subject claim is required")
                  | Ok claims =>
                      if (claims.1.1.1 =? "")%string then ret (writeProblem 403 "oidc-claims-invalid" "OIDC subject claim is required")
                      else if negb (groupsAllowed claims.2 (oi_AllowedGroups cfg))
                      then ret (writeProblem 403 "oidc-group-denied" "OIDC identity does not belong to an allowed group")
                      else
                        let! t := now in
                        let session := session_of t token claims in
                        let! until := now in
                        let! cookie := encryptedCookie r oidcSessionCookie (session_json session) "/admin" (Z.max int64_min (Z.min int64_max (os_Expires session - until))) in
                        ret (match cookie with
                             | Err e => writeProblem 500 "oidc-session-failed" (error_text e)
                             | Ok cookie => with_cookies [cookie; clearCookie r oidcFlowCookie "/admin/oidc/callback"] (redirect 303 "/admin")
                             end)
                  end
              end
        end
    end.

(** The clock is read only for a session that names somebody. *)
Definition oidc_authorized (r : Request) : M bool :=
  if negb (oi_Enabled cfg) then ret false
  else match readEncryptedCookie r oidcSessionCookie oh_decode_session with
       | Err _ => ret false
       | Ok session =>
           if (os_Subject session =? "")%string then ret false
           else let! t := now in
                ret (after (os_Expires session) t && groupsAllowed (os_Groups session) (oi_AllowedGroups cfg))
       end.

Definition logout (r : Request) : Answer PlainBody :=
  if (rq_Method r =? "POST")%string || (rq_Method r =? "GET")%string
  then with_cookies [clearCookie r oidcSessionCookie "/admin"] (redirect 303 "/admin")
  else wrong_method "logout requires GET or POST".
End oidc.
