(* ===== verification/Admin.v ===== *)
(** The administration API, [admin/handler.go], [admin/automation.go],
    [admin/wasm_plugins.go], [admin/embeddings.go], [admin/provider_catalog.go]:
    every route with its handler. A body is the Go value that encoding/json or
    the template renders. *)
From S2P Require Import Prelude GoTime Sha256 Float64 FloatArith Json Text Url Http HttpDate Domain ProviderErrors World Sql StoreProviders StoreObjects StoreEvents Embeddings Access SigV4 Placement Providers S3Request Hooks Service Runtime Plugins Configuration Onboarding Jobs Migration Repair Inventory Multipart Protection PluginJobs Gateway Lifecycle AdminAuth.

(** ** What is read *)

Record providerRequest : Type := MkProviderRequest {
  qp_ID : string; qp_Name : string; qp_Kind : string; qp_Endpoint : string; qp_Region : string; qp_Bucket : string;
  qp_AccessKey : string; qp_SecretKey : string; qp_CapacityBytes : Z; qp_UsedBytes : Z; qp_Priority : Z; qp_Enabled : bool;
  qp_Settings : gmap string string }.

Record hookRequest : Type := MkHookRequest {
  qh_ID : string; qh_Name : string; qh_Kind : string; qh_URL : string; qh_Method : string; qh_Events : list string;
  qh_Headers : gmap string string; qh_Enabled : bool }.

Record accessCredentialRequest : Type := MkAccessCredentialRequest {
  qc_Name : string; qc_Role : string; qc_Permissions : list string; qc_BucketPatterns : list string;
  qc_PrefixPatterns : list string; qc_Enabled : bool; qc_ExpiresAt : string }.

Record wasmPluginRequest : Type := MkWasmPluginRequest {
  qw_ID : string; qw_Name : string; qw_Description : string; qw_ABIVersion : string; qw_ModuleBase64 : string; qw_Events : list string;
  qw_BucketPattern : string; qw_KeyPrefix : string; qw_KeySuffix : string; qw_ContentTypes : list string;
  qw_Config : gmap string string; qw_OperationPolicy : option WASMPluginOperationPolicy; qw_Enabled : bool;
  qw_TimeoutMillis : Z; qw_MemoryLimitBytes : Z; qw_MaxInputBytes : Z; qw_MaxOutputBytes : Z; qw_MaxAttempts : Z }.

Record declarativeConfig : Type := MkDeclarativeConfig {
  dc_Providers : list providerRequest; dc_Buckets : list Bucket; dc_Hooks : list hookRequest; dc_WASMPlugins : list wasmPluginRequest }.

Record objectDeleteRequest : Type := MkObjectDeleteRequest { od_Bucket : string; od_Key : string; od_Confirm : string }.

(** The two kinds of vector store the catalogue of capabilities tells apart,
    and the count of HNSW indexes in the catalogue of PostgreSQL. *)
Record VectorStore : Type := MkVectorStore {
  vt_dialect : string; vt_backend : string; vt_config : VectorSearchConfig; vt_indexes : result Z }.

(** Decoding by the Go library: JSON bodies, forms, URLs, [time.Parse]'s error. *)
Class AdminHost : Type := {
  ah_provider : Reader → result providerRequest;
  ah_hook : Reader → result hookRequest;
  ah_credential : Reader → result accessCredentialRequest;
  ah_plugin : Reader → result wasmPluginRequest;
  ah_declarative : Reader → result declarativeConfig;
  ah_object_delete : Reader → result objectDeleteRequest;
  ah_inventory : Reader → result CreateInventoryJobInput;
  ah_repair_job : Reader → result (string * string);       (* bucket, prefix *)
  ah_repair : Reader → result (string * string);           (* bucket, key *)
  ah_migration : Reader → result CreateMigrationJobInput;
  ah_bucket : Reader → result Bucket;
  ah_import : Reader → result EmbeddingImport;
  ah_query : Reader → result EmbeddingSearchQuery;
  ah_headers : string → result (gmap string string);
  ah_form : Request → Reader → result Values;              (* r.Form after ParseForm *)
  ah_upload : Request → Reader → result (Values * result formFile); (* after ParseMultipartForm, the file field *)
  ah_url : string → result ParsedURL;
  ah_time_error : string → error;
  ah_vectors : VectorStore }.

(** ** What is written *)

Record objectResponse : Type := MkObjectResponse {
  jo_Bucket : string; jo_Key : string; jo_ProviderAccountID : string; jo_RemoteBucket : string; jo_RemoteKey : string;
  jo_Size : Z; jo_ContentType : string; jo_ETag : string; jo_ReplicaStatus : string; jo_CreatedAt : string; jo_UpdatedAt : string }.

Record objectListResponse : Type := MkObjectListResponse {
  jl_Bucket : string; jl_Prefix : string; jl_StartAfter : string; jl_Limit : Z; jl_Prefixes : list string;
  jl_Objects : list objectResponse; jl_NextStartAfter : string }.

Record objectPresignResponse : Type := MkObjectPresignResponse {
  js_URL : string * URL; (* the scheme and the rest *)
  js_Method : string; js_Bucket : string; js_Key : string; js_ExpiresIn : Z; js_ExpiresAt : string;
  js_ProviderAccountID : string; js_ContentType : string; js_Size : Z }.

Record VectorSearchCapabilities : Type := MkVectorSearchCapabilities {
  vc_Backend : string; vc_Engine : string; vc_ANN : bool; vc_HNSWProfiles : Z; vc_MaxProfiles : Z; vc_EFSearch : Z; vc_MaxScanTuples : Z }.

Record providerCatalogPreset : Type := MkPreset { ps_Key : string; ps_Brand : string; ps_Name : string; ps_Description : string }.

Record adminPageData : Type := MkAdminPageData {
  ap_Providers : list ProviderAccount;
  ap_ProviderBrands : gmap string string;
  ap_ProviderNames : gmap string string;
  ap_Buckets : list Bucket;
  ap_Usage : list ProviderBucketUsage;
  ap_Hooks : list Hook;
  ap_HookDeliveries : list HookDelivery;
  ap_ProviderHealth : list ProviderHealth;
  ap_MigrationJobs : list MigrationJob;
  ap_AuditEvents : list AuditEvent;
  ap_AccessCredentials : list AccessCredential;
  ap_InventoryJobs : list InventoryJob;
  ap_RepairJobs : list RepairJob;
  ap_TrashObjects : list TrashRecord;
  ap_CostOptimizations : list CostOptimization;
  ap_ProviderPresets : list providerCatalogPreset;
  ap_ProviderQuotas : list ProviderQuota;
  ap_Alerts : list Alert;
  ap_WASMPlugins : list WASMPlugin;
  ap_WASMPluginJobs : list WASMPluginJob;
  ap_OIDCEnabled : bool;
  ap_TotalBytes : Z;
  ap_Message : string }.

(** The values of JSON bodies, and the two pages. *)
Inductive AdminBody : Type :=
| Plain (b : PlainBody)
| IndexPage (data : adminPageData)
| CatalogPage (presets : list providerCatalogPreset)
| JUploaded (object : ObjectRecord)
| JID (id : string)
| JProviders (l : list ProviderAccount)
| JHealth (h : ProviderHealth)
| JHealths (l : list ProviderHealth)
| JProviderBuckets (id : string) (l : list ProviderBucket)
| JQuota (q : ProviderQuota)
| JQuotas (l : list ProviderQuota)
| JAlerts (l : list Alert)
| JInventoryJobs (l : list InventoryJob)
| JInventoryJob (j : InventoryJob)
| JRepairJobs (l : list RepairJob)
| JRepairJob (j : RepairJob)
| JRepaired (r : RepairResult)
| JCredentials (l : list AccessCredential)
| JCredential (c : AccessCredential)
| JCreatedCredential (c : CreatedAccessCredential)
| JTrash (l : list TrashRecord)
| JObject_ (o : objectResponse)
| JObjects (l : objectListResponse)
| JDeleted (bucket key : string)
| JPresigned (p : objectPresignResponse)
| JLifecycle (r : LifecycleRunResult)
| JPlan (p : PlacementPlan)
| JOptimizations (l : list CostOptimization)
| JHooks (l : list Hook)
| JDeliveries (l : list HookDelivery)
| JUsage (l : list ProviderBucketUsage)
| JMigrations (l : list MigrationJob)
| JMigration (j : MigrationJob)
| JBuckets (l : list Bucket)
| JBucket (b : Bucket)
| JApplied (providers buckets hooks plugins : Z)
| JOpenAPI (paths : list (string * list string)) (openIdConnectUrl : string)
| JPlugins (l : list WASMPlugin)
| JPlugin (p : WASMPlugin)
| JPluginValid
| JPluginJobs (l : list WASMPluginJob)
| JEmbeddings (l : list ObjectEmbedding)
| JResults (l : list EmbeddingSearchResult)
| JCapabilities (c : VectorSearchCapabilities).

Definition AdminResponse : Type := Answer AdminBody.

Definition plain (a : Answer PlainBody) : AdminResponse := MkAnswer (an_Status a) (an_Header a) (an_Cookies a) (Plain (an_Body a)).

Definition writeJSON (status : Z) (value : AdminBody) : AdminResponse := MkAnswer status {[ "Content-Type" := "application/json" ]} [] value.

Definition problem (status : Z) (code detail : string) : AdminResponse := plain (writeProblem status code detail).
Definition method_refused : AdminResponse := plain (wrong_method "method is not allowed").
Definition no_content : AdminResponse := MkAnswer 204 ∅ [] (Plain NoContent).
Definition redirectHome : AdminResponse := plain (redirect 303 "/admin").

(** ** Requests as the domain has them *)

Definition defaultString (value fallback : string) : string := if (trim_space value =? "")%string then fallback else value.

Definition provider_toDomain (r : providerRequest) : ProviderAccount :=
  zero_ProviderAccount <| p_ID := qp_ID r |> <| p_Name := qp_Name r |> <| p_Kind := qp_Kind r |> <| p_Endpoint := qp_Endpoint r |>
    <| p_Region := qp_Region r |> <| p_Bucket := qp_Bucket r |> <| p_AccessKey := qp_AccessKey r |>
    <| p_CapacityBytes := qp_CapacityBytes r |> <| p_UsedBytes := qp_UsedBytes r |> <| p_Priority := qp_Priority r |>
    <| p_Enabled := qp_Enabled r |> <| p_Settings := qp_Settings r |>.

Fixpoint clean_events (seen events : list string) : list string :=
  match events with
  | [] => []
  | event :: events =>
      let event := trim_space event in
      if (event =? "")%string || existsb (String.eqb event) seen then clean_events seen events
      else event :: clean_events (event :: seen) events
  end.

Definition normalizeHookEvents (events : list string) : list string :=
  match clean_events [] events with [] => [HookEventObjectCreated] | out => out end.

Definition hook_toDomain (r : hookRequest) : Hook :=
  zero_Hook <| h_ID := qh_ID r |> <| h_Name := qh_Name r |> <| h_Kind := defaultString (qh_Kind r) HookKindHTTP |> <| h_URL := qh_URL r |>
    <| h_Method := qh_Method r |> <| h_Events := normalizeHookEvents (qh_Events r) |> <| h_Headers := qh_Headers r |> <| h_Enabled := qh_Enabled r |>.

Definition plugin_toDomain (r : wasmPluginRequest) : WASMPlugin :=
  zero_WASMPlugin <| wp_ID := trim_space (qw_ID r) |> <| wp_Name := trim_space (qw_Name r) |> <| wp_Description := trim_space (qw_Description r) |>
    <| wp_ABIVersion := qw_ABIVersion r |> <| wp_ModuleBase64 := trim_space (qw_ModuleBase64 r) |> <| wp_Events := qw_Events r |>
    <| wp_BucketPattern := qw_BucketPattern r |> <| wp_KeyPrefix := qw_KeyPrefix r |> <| wp_KeySuffix := qw_KeySuffix r |>
    <| wp_ContentTypes := qw_ContentTypes r |> <| wp_Config := qw_Config r |> <| wp_Enabled := qw_Enabled r |>
    <| wp_OperationPolicy := default zero_WASMPluginOperationPolicy (qw_OperationPolicy r) |>
    <| wp_TimeoutMillis := qw_TimeoutMillis r |> <| wp_MemoryLimitBytes := qw_MemoryLimitBytes r |>
    <| wp_MaxInputBytes := qw_MaxInputBytes r |> <| wp_MaxOutputBytes := qw_MaxOutputBytes r |> <| wp_MaxAttempts := qw_MaxAttempts r |>.

Definition toAppInput `{!AdminHost} (request : accessCredentialRequest) : result AccessCredentialInput :=
  let input expiresAt := MkAccessCredentialInput "" (qc_Name request) (qc_Role request) (qc_Permissions request) (qc_BucketPatterns request)
                           (qc_PrefixPatterns request) (qc_Enabled request) expiresAt in
  if (trim_space (qc_ExpiresAt request) =? "")%string then Ok (input zero_time)
  else match parse_rfc3339 (qc_ExpiresAt request) with
       | Some t => Ok (input t)
       | None => Err (ErrWrap "expires_at must be RFC3339" (ah_time_error (qc_ExpiresAt request)))
       end.

(** The buckets of JSON requests name where they replicate to. *)
Definition replicated_bucket (bucket : Bucket) : Bucket :=
  let ids := normalizeProviderIDs (b_ReplicationProviderIDs bucket) in
  bucket <| b_ReplicationProviderIDs := ids |> <| b_ReplicationEnabled := negb (Nat.eqb (List.length ids) 0) |>.

(** One line of a form's headers. *)
Definition header_line (headers : gmap string string) (line : string) : gmap string string :=
  match string_cut (trim_space line) ":" with
  | None => headers
  | Some (name, value) =>
      let name := canonical_header_key (trim_space name) in
      let value := trim_space value in
      if negb (name =? "")%string && negb (value =? "")%string then <[name := value]> headers else headers
  end.

Definition parseHookHeaderLines (raw : string) : gmap string string := fold_left header_line (string_split "010" raw) ∅.

(** *** Forms *)

Definition form_value (form : Values) (name : string) : string := values_get form name.

(** A setting of the form, when it is not blank. *)
Definition form_setting (form : Values) (settings : gmap string string) (field : string * string) : gmap string string :=
  let value := trim_space (form_value form field.1) in
  if (value =? "")%string then settings else <[field.2 := value]> settings.

Definition provider_settings : list (string * string) :=
  [("settings_path", "path"); ("settings_cloud_name", "cloud_name"); ("settings_vercel_access", "access"); ("settings_vercel_store_id", "store_id");
   ("settings_cost_per_gb_month", "cost_per_gb_month"); ("settings_max_object_size_bytes", "max_object_size_bytes");
   ("settings_min_free_bytes", "min_free_bytes"); ("settings_quota_margin_bytes", "quota_margin_bytes");
   ("settings_monthly_upload_quota_bytes", "monthly_upload_quota_bytes");
   ("settings_quota_alert_threshold_percent", "quota_alert_threshold_percent")].

Definition form_provider (form : Values) : ProviderAccount :=
  let field name := trim_space (form_value form name) in
  zero_ProviderAccount <| p_ID := field "id" |> <| p_Name := field "name" |> <| p_Kind := field "kind" |> <| p_Endpoint := field "endpoint" |>
    <| p_Region := field "region" |> <| p_Bucket := field "bucket" |> <| p_AccessKey := field "access_key" |>
    <| p_CapacityBytes := parse_int_value (form_value form "capacity_bytes") |>
    <| p_Priority := parse_int_value (defaultString (form_value form "priority") "100") |>
    <| p_Enabled := (form_value form "enabled" =? "on")%string |>
    <| p_Settings := fold_left (form_setting form) provider_settings ∅ |>.

Definition form_hook (form : Values) : Hook :=
  let field name := trim_space (form_value form name) in
  zero_Hook <| h_ID := field "id" |> <| h_Name := field "name" |> <| h_Kind := HookKindHTTP |> <| h_URL := field "url" |> <| h_Method := field "method" |>
    <| h_Events := normalizeHookEvents (default [] (form !! "events")) |> <| h_Headers := parseHookHeaderLines (form_value form "headers") |>
    <| h_Enabled := (form_value form "enabled" =? "on")%string |>.

Definition form_bucket (form : Values) : Bucket :=
  let on name := (form_value form name =? "on")%string in
  let ids := normalizeProviderIDs (default [] (form !! "replication_provider_ids")) in
  let expireAfterDays := parse_int_value (form_value form "lifecycle_expire_days") in
  let bucket := zero_Bucket <| b_Name := trim_space (form_value form "name") |> <| b_ReplicationEnabled := negb (Nat.eqb (List.length ids) 0) |>
    <| b_ReplicationProviderIDs := ids |> <| b_VersioningEnabled := on "versioning_enabled" |> <| b_TrashEnabled := on "trash_enabled" |>
    <| b_TrashRetentionDays := parse_int_value (defaultString (form_value form "trash_retention_days") "30") |>
    <| b_ObjectLockEnabled := on "object_lock_enabled" |> <| b_DefaultRetentionMode := to_upper (form_value form "default_retention_mode") |>
    <| b_DefaultRetentionDays := parse_int_value (form_value form "default_retention_days") |> in
  let bucket := if 0 <? expireAfterDays
                then bucket <| b_LifecycleRules := [MkLifecycleRule "default-expiration" (trim_left_byte "/" (form_value form "lifecycle_prefix"))
                                                      expireAfterDays 0 true] |>
                else bucket in
  if b_ObjectLockEnabled bucket then bucket <| b_VersioningEnabled := true |> else bucket.

(** ** What the page shows *)

Definition contains_all (s : string) (l : list string) : bool := forallb (contains s) l.

(** The endpoints by which a brand is recognised, in order. *)
Definition endpoint_brands : list (list string * string) :=
  [(["amazonaws.com"], "aws"); (["cloudflarestorage.com"], "cloudflare"); (["storage.googleapis.com"], "gcs"); (["backblazeb2.com"], "backblaze");
   (["digitaloceanspaces.com"], "digitalocean"); (["idrivee2.com"], "idrive"); (["objectstorage"; "oraclecloud.com"], "oci");
   (["your-objectstorage.com"], "hetzner"); (["scw.cloud"], "scaleway"); (["cloud.ovh.net"], "ovh"); (["linodeobjects.com"], "akamai");
   (["wasabisys.com"], "wasabi"); (["minio"], "minio")].

Definition providerBrand (account : ProviderAccount) : string :=
  let of_kind kind := (p_Kind account =? kind)%string in
  if of_kind ProviderKindLocal then "local"
  else if of_kind ProviderKindCloudinary then "cloudinary"
  else if of_kind ProviderKindVercelBlob then "vercel"
  else if of_kind ProviderKindAzureBlob then "azure"
  else if of_kind ProviderKindS3Compat
  then match List.find (λ entry, contains_all (to_lower (p_Endpoint account)) entry.1) endpoint_brands with
       | Some (_, brand) => brand
       | None => "custom"
       end
  else "custom".

Definition lookup_text (table : list (string * string)) (key : string) : option string :=
  option_map snd (List.find (λ entry, (entry.1 =? key)%string) table).

Definition providerBrandMark (brand : string) : string :=
  default "S3" (lookup_text
    [("aws", "aws"); ("cloudflare", "R2"); ("gcs", "G"); ("backblaze", "B2"); ("digitalocean", "DO"); ("idrive", "e2"); ("azure", "AZ");
     ("oci", "OCI"); ("hetzner", "HZ"); ("scaleway", "SCW"); ("ovh", "OVH"); ("akamai", "AKA"); ("wasabi", "W"); ("minio", "M");
     ("cloudinary", "C"); ("vercel", "▲"); ("local", "LD")] brand).

Definition theSVGRevision : string := "7870bc1c5f657d9accbb7f96cc457b8dd3363ee8".

Definition providerIconURL (brand : string) : string :=
  match lookup_text
    [("aws", "aws/color.svg"); ("cloudflare", "cloudflare/color.svg"); ("gcs", "google-cloud/default.svg"); ("backblaze", "backblaze/default.svg");
     ("digitalocean", "digitalocean/default.svg"); ("wasabi", "wasabi/default.svg"); ("minio", "minio/default.svg");
     ("cloudinary", "cloudinary/default.svg"); ("vercel", "vercel/mono.svg")] brand with
  | Some path => "https://cdn.jsdelivr.net/gh/glincker/thesvg@" +:+ theSVGRevision +:+ "/public/icons/" +:+ path
  | None => ""
  end.

Definition totalUsageBytes (rows : list ProviderBucketUsage) : Z := fold_left (λ total row, add64 total (bu_Bytes row)) rows 0.

(** [fmt.Sprintf("%.<prec>f", units * 2^-1074)] for a number that is not
    negative: the exact value rounded to [prec] decimals, ties to even. *)
Definition format_fixed (prec : nat) (units : Z) : string :=
  let n := units * 10 ^ Z.of_nat prec in
  let q := n `div` unit_den in
  let r := n `mod` unit_den in
  let q := if (unit_den <? 2 * r) || ((2 * r =? unit_den) && Z.odd q) then q + 1 else q in
  if (prec =? 0)%nat then itoa q
  else itoa (q `div` 10 ^ Z.of_nat prec) +:+ "." +:+ padded prec (q `mod` 10 ^ Z.of_nat prec).

(** Divided by 1024 until it is below, at most [steps] times; the number is in
    units of 2^-1074 and every division is exact. *)
Fixpoint scale_bytes (steps : nat) (units : Z) : Z * nat :=
  match steps with
  | S steps' => if 1024 * unit_den <=? units then let '(u, n) := scale_bytes steps' (units `div` 1024) in (u, S n) else (units, O)
  | O => (units, O)
  end.

Definition formatBytes (bytes : Z) : string :=
  if bytes <=? 0 then "0 B"
  else
    let '(value, index) := scale_bytes 5 (match float_of_int bytes with Finite u => u | _ => 0 end) in
    if (index =? 0)%nat then itoa bytes +:+ " B"
    else
      let decimals := if (value `mod` unit_den =? 0) || (100 * unit_den <=? value) then 0%nat
                      else if 10 * unit_den <=? value then 1%nat else 2%nat in
      format_fixed decimals value +:+ " " +:+ nth index ["B"; "KB"; "MB"; "GB"; "TB"; "PB"] "PB".

(** [int(f)]: the fraction is cut off; out of range it is the smallest integer
    (amd64). *)
Definition float_to_int (f : float64) : Z :=
  match f with
  | Finite u => let z := Z.quot u unit_den in if in_int64b z then z else int64_min
  | _ => int64_min
  end.

Definition migrationProgressPercent (job : MigrationJob) : Z :=
  if mj_TotalObjects job <=? 0 then if (mj_Status job =? MigrationStatusCompleted)%string then 100 else 0
  else
    let pct := float_to_int (float_mul (float_div (float_of_int (mj_ProcessedObjects job)) (float_of_int (mj_TotalObjects job))) (float_of_int 100)) in
    if 100 <? pct then 100 else if pct <? 0 then 0 else pct.

Definition providerCatalog : list providerCatalogPreset :=
  [MkPreset "aws" "aws" "Amazon S3" "AWS regions and S3 credentials"; MkPreset "cloudflare" "cloudflare" "Cloudflare R2" "S3-compatible, zero egress fees";
   MkPreset "gcs" "gcs" "Google Cloud Storage" "XML API interoperability keys"; MkPreset "backblaze" "backblaze" "Backblaze B2" "S3-compatible application keys";
   MkPreset "idrive" "idrive" "IDrive e2" "Region-specific S3-compatible storage";
   MkPreset "azure" "azure" "Microsoft Azure Blob Storage" "Native Azure Blob shared-key adapter";
   MkPreset "oci" "oci" "Oracle Cloud Infrastructure (OCI) Object Storage" "OCI S3 Compatibility API";
   MkPreset "digitalocean" "digitalocean" "DigitalOcean Spaces" "Region-aware Spaces endpoint";
   MkPreset "hetzner" "hetzner" "Hetzner Object Storage" "S3-compatible European locations";
   MkPreset "scaleway" "scaleway" "Scaleway Object Storage" "Regional S3-compatible endpoints";
   MkPreset "ovh" "ovh" "OVHcloud Object Storage" "S3-compatible public cloud storage";
   MkPreset "akamai" "akamai" "Akamai Connected Cloud" "Linode Object Storage S3 endpoints"; MkPreset "wasabi" "wasabi" "Wasabi" "S3-compatible hot cloud storage";
   MkPreset "minio" "minio" "MinIO" "Self-hosted S3-compatible storage"; MkPreset "cloudinary" "cloudinary" "Cloudinary" "Image storage and delivery API";
   MkPreset "vercel" "vercel" "Vercel Blob" "Read-write token configuration"; MkPreset "local" "local" "Local disk" "Filesystem storage for this instance";
   MkPreset "custom" "custom" "Custom S3-compatible" "Any path-style S3 endpoint"].

Definition filterProviderCatalog (query : string) : list providerCatalogPreset :=
  let query := to_lower (trim_space query) in
  if (query =? "")%string then providerCatalog
  else List.filter (λ preset, contains (to_lower (ps_Name preset +:+ " " +:+ ps_Description preset)) query) providerCatalog.

(** Secrets are blanked before an account or a credential is shown. *)
Definition shown_provider (p : ProviderAccount) : ProviderAccount := p <| p_SecretEncrypted := "" |> <| p_SecretKey := "" |>.
Definition shown_credential (c : AccessCredential) : AccessCredential := c <| ac_SecretEncrypted := "" |>.

Definition objectResponseFromDomain (obj : ObjectRecord) : objectResponse :=
  MkObjectResponse (o_Bucket obj) (o_Key obj) (o_ProviderAccountID obj) (o_RemoteBucket obj) (o_RemoteKey obj) (o_Size obj) (o_ContentType obj)
    (o_ETag obj) (o_ReplicaStatus obj) (rfc3339 (o_CreatedAt obj)) (rfc3339 (o_UpdatedAt obj)).

(** *** Links *)

Definition parsePresignExpires (raw : string) : result Z :=
  if (trim_space raw =? "")%string then Ok 900
  else match parse_int64 raw with
       | None => Err (ErrText "expires must be a number of seconds")
       | Some expires =>
           try! _ := guard_err ((expires <? 1) || (604800 <? expires)) "expires must be between 1 and 604800 seconds" in Ok expires
       end.

Definition wantsJSON (r : Request) : bool := contains (rq_header r "Accept") "application/json".

(** ** Handlers *)

Section admin.
Context `{Env} `{!Pipelines} `{!WasmHost} `{!OidcHost} `{!AdminHost}.
Variable config : Configuration. (* h.svc.Config *)
Variable tls : bool.             (* r.TLS != nil *)
Variable fuel : nat.             (* pages of the lifecycle and quota runs *)

Definition query_of (r : Request) (name : string) : string := values_get (rq_Query r) name.
Definition is_method (r : Request) (m : string) : bool := (rq_Method r =? m)%string.

(** [AuditActorFromRequest]: the user name of Basic credentials, verified or
    not. *)
Definition AuditActorFromRequest (r : Request) : string :=
  match basic_auth r with
  | Some (user, _) => if (user =? "")%string then "admin" else user
  | None => "admin"
  end.

Definition audit (r : Request) (action bucket key target detail : string) : M unit :=
  RecordAuditEvent (zero_AuditEvent <| au_Actor := AuditActorFromRequest r |> <| au_Action := action |> <| au_Bucket := bucket |>
                      <| au_Key := key |> <| au_TargetID := target |> <| au_Detail := detail |>).

(** The value under a status, or a problem. *)
Definition changing {A} (success : Z) (status : Z) (code : string) (m : M (result A)) (show : A → AdminBody) : M AdminResponse :=
  let! r := m in
  ret (match r with Ok a => writeJSON success (show a) | Err e => problem status code (error_text e) end).

Definition reading {A} : Z → string → M (result A) → (A → AdminBody) → M AdminResponse := changing 200.

(** The answer to a change without a value. *)
Definition removing (status : Z) (code : string) (m : M (result unit)) (after : M unit) : M AdminResponse :=
  let! r := m in
  match r with
  | Ok _ => let! _ := after in ret no_content
  | Err e => ret (problem status code (error_text e))
  end.

Definition with_json {A} (decoded : result A) (k : A → M AdminResponse) : M AdminResponse :=
  match decoded with Ok a => k a | Err e => ret (problem 400 "invalid-json" (error_text e)) end.

Definition only (method : string) (r : Request) (k : M AdminResponse) : M AdminResponse :=
  if is_method r method then k else ret method_refused.

Definition get_or_post (r : Request) (get post : M AdminResponse) : M AdminResponse :=
  if is_method r "GET" then get else if is_method r "POST" then post else ret method_refused.

(** *** The page *)

(** A reading the page cannot do without. *)
Definition required {A} (code : string) (m : M (result A)) (k : A → M AdminResponse) : M AdminResponse :=
  let! r := m in match r with Ok a => k a | Err e => ret (problem 500 code (error_text e)) end.

(** A reading whose error is dropped; the list is empty then. *)
Definition optional {A} (m : M (result (list A))) : M (list A) := let! r := m in ret (match r with Ok l => l | Err _ => [] end).

Definition index (message : string) : M AdminResponse :=
  required "store-error" (ListProviders false) (λ providers,
  required "store-error" ListBuckets (λ buckets,
  required "store-error" ListProviderBucketUsage (λ usage,
  required "store-error" (ListHooksForAdmin ah_headers) (λ hooks,
  required "store-error" (ListHookDeliveries 25) (λ deliveries,
  required "provider-health-error" ListProviderHealth (λ health,
  required "store-error" (ListMigrationJobs 10) (λ migrations,
  required "store-error" (ListAuditEvents 10) (λ auditEvents,
  required "store-error" ListAccessCredentials (λ credentials,
  required "store-error" (ListInventoryJobs 25) (λ inventoryJobs,
  required "store-error" (ListRepairJobs 25) (λ repairJobs,
  required "store-error" (ListTrashObjects 100) (λ trashObjects,
  let! costs := optional CostOptimizations in
  let! quotas := optional ListProviderQuotas in
  let! alerts := optional (ListAlerts AlertStatusOpen 25) in
  let! plugins := optional (ListWASMPlugins false) in
  let! pluginJobs := optional (ListWASMPluginJobs 25) in
  let providers := shown_provider <$> providers in
  ret (MkAnswer 200 {[ "Content-Type" := "text/html; charset=utf-8" ]} [] (IndexPage
    (MkAdminPageData providers
       (list_to_map ((λ p, (p_ID p, providerBrand p)) <$> providers)) (list_to_map ((λ p, (p_ID p, p_Name p)) <$> providers))
       buckets usage hooks deliveries health migrations auditEvents (shown_credential <$> credentials) inventoryJobs repairJobs trashObjects
       costs providerCatalog quotas alerts plugins pluginJobs (oi_Enabled (ad_OIDC (c_Admin config))) (totalUsageBytes usage) message)))
  )))))))))))).

Definition provider_catalog (r : Request) : M AdminResponse :=
  ret (MkAnswer 200 {[ "Content-Type" := "text/html; charset=utf-8" ]} [] (CatalogPage (filterProviderCatalog (query_of r "q")))).

(** *** Forms *)

Definition uploadFormError (r : Request) (status : Z) (code message : string) : M AdminResponse :=
  if wantsJSON r then ret (problem status code message) else index message.

Definition upload_input (bucket key : string) (file : formFile) : PutObjectInput :=
  zero_PutObjectInput <| i_Bucket := bucket |> <| i_Key := key |> <| i_Size := ff_Size file |>
    <| i_ContentType := default_text "application/octet-stream" (ff_ContentType file) |>.

Definition uploadObjectFromForm (r : Request) (body : Reader) : M AdminResponse :=
  match ah_upload r body with
  | Err e => uploadFormError r (if errors_is e ErrBodyTooLarge then 413 else 400) "invalid-upload-form" ("Invalid upload form: " +:+ error_text e)
  | Ok (form, file) =>
      let bucket := trim_space (form_value form "bucket") in
      match file with
      | Err e => uploadFormError r 400 "missing-file" ("File is required: " +:+ error_text e)
      | Ok file =>
          let key := default_text (ff_Filename file) (trim_byte "/" (trim_space (form_value form "key"))) in
          if (bucket =? "")%string then uploadFormError r 400 "missing-bucket" "Bucket is required"
          else if (key =? "")%string then uploadFormError r 400 "missing-key" "Object key is required"
          else
            let! put := PutObject (upload_input bucket key file) (ff_Content file) in
            match put with
            | Err e =>
                if errors_is e ErrNoProviderAvailable
                then uploadFormError r 507 "no-provider-capacity" "Upload failed: no provider has enough capacity"
                else uploadFormError r 400 "upload-failed" ("Upload failed: " +:+ error_text e)
            | Ok object => ret (if wantsJSON r then writeJSON 200 (JUploaded object) else redirectHome)
            end
      end
  end.

(** A change asked for by a form: home again, or the page with the reason. *)
Definition form_change (failed : string) (m : M (result unit)) (after : M unit) : M AdminResponse :=
  let! r := m in
  match r with Ok _ => let! _ := after in ret redirectHome | Err e => index (failed +:+ error_text e) end.

Definition createProviderFromForm (r : Request) (body : Reader) : M AdminResponse :=
  match ah_form r body with
  | Err e => index ("Invalid provider form: " +:+ error_text e)
  | Ok form =>
      let account := form_provider form in
      if (p_ID account =? "")%string || (p_Kind account =? "")%string || (p_Bucket account =? "")%string
      then index "Provider id, kind and bucket are required"
      else
        let account := account <| p_Name ::= default_text (p_ID account) |> in
        form_change "Could not save provider: " (UpsertProviderFromAdmin account (form_value form "secret_key")) (ret tt)
  end.

Definition deleteProviderFromForm (r : Request) (id : string) : M AdminResponse :=
  form_change "Could not delete provider: " (DeleteProvider id) (audit r AuditActionProviderDeleted "" "" id "").

Definition parse_hook_url (s : string) : option (string * string) := match ah_url s with Ok u => Some (pu_Scheme u, pu_Host u) | Err _ => None end.

Definition createHookFromForm (r : Request) (body : Reader) : M AdminResponse :=
  match ah_form r body with
  | Err e => index ("Invalid hook form: " +:+ error_text e)
  | Ok form => form_change "Could not save hook: " (UpsertHookFromAdmin parse_hook_url (form_hook form)) (ret tt)
  end.

Definition deleteHookFromForm (r : Request) (id : string) : M AdminResponse :=
  form_change "Could not delete hook: " (DeleteHook id) (audit r AuditActionHookDeleted "" "" id "").

Definition createBucketFromForm (r : Request) (body : Reader) : M AdminResponse :=
  match ah_form r body with
  | Err e => index ("Invalid bucket form: " +:+ error_text e)
  | Ok form =>
      let bucket := form_bucket form in
      if (b_Name bucket =? "")%string then index "Bucket name is required"
      else form_change "Could not save bucket: " (UpsertBucket bucket) (ret tt)
  end.

(** *** Providers *)

Definition providers (r : Request) (body : Reader) : M AdminResponse :=
  get_or_post r
    (reading 500 "store-error" (ListProviders false) (λ l, JProviders (shown_provider <$> l)))
    (with_json (ah_provider body) (λ req,
       let account := provider_toDomain req in
       changing 201 400 "provider-upsert-failed" (UpsertProviderFromAdmin account (qp_SecretKey req)) (λ _, JID (p_ID account)))).

Definition providerByID (r : Request) (id : string) : M AdminResponse :=
  only "DELETE" r (removing 500 "provider-delete-failed" (DeleteProvider id) (audit r AuditActionProviderDeleted "" "" id "")).

Definition testProvider (r : Request) (id : string) : M AdminResponse :=
  only "POST" r (
    let! tested := TestProviderConnection id in
    ret (match tested with
         | Err e => problem 400 "provider-test-failed" (error_text e)
         | Ok health => writeJSON (if (ph_Status health =? ProviderHealthUnhealthy)%string then 502 else 200) (JHealth health)
         end)).

Definition discoverProviderBuckets (r : Request) (id : string) : M AdminResponse :=
  only "GET" r (reading 400 "bucket-discovery-failed" (DiscoverProviderBuckets id) (JProviderBuckets id)).

Definition reconcileProviderQuota (r : Request) (id : string) : M AdminResponse :=
  only "POST" r (changing 200 502 "quota-reconciliation-failed" (ReconcileProviderQuota fuel id) JQuota).

Definition providerQuotas (r : Request) : M AdminResponse := only "GET" r (reading 500 "quota-list-failed" ListProviderQuotas JQuotas).

Definition alerts (r : Request) : M AdminResponse :=
  only "GET" r (reading 500 "alert-list-failed" (ListAlerts (query_of r "status") 100) JAlerts).

(** *** Jobs *)

Definition inventoryJobs (r : Request) (body : Reader) : M AdminResponse :=
  get_or_post r (reading 500 "inventory-list-failed" (ListInventoryJobs 50) JInventoryJobs)
    (with_json (ah_inventory body) (λ input, changing 201 400 "inventory-create-failed" (CreateInventoryJob input) JInventoryJob)).

Definition repairJobs (r : Request) (body : Reader) : M AdminResponse :=
  get_or_post r (reading 500 "repair-list-failed" (ListRepairJobs 50) JRepairJobs)
    (with_json (ah_repair_job body) (λ req, changing 201 400 "repair-create-failed" (CreateRepairJob req.1 req.2) JRepairJob)).

Definition repairObject (r : Request) (body : Reader) : M AdminResponse :=
  only "POST" r (with_json (ah_repair body) (λ req,
    let '(bucket, key) := req in
    if (bucket =? "")%string || (key =? "")%string then ret (problem 400 "missing-object" "bucket and key are required")
    else changing 200 400 "repair-failed" (RepairObject bucket key) JRepaired)).

Definition created_migration (r : Request) (input : CreateMigrationJobInput) : M AdminResponse :=
  let! created := CreateMigrationJob input in
  match created with
  | Err e => ret (problem 400 "migration-create-failed" (error_text e))
  | Ok job =>
      let! _ := (if (mj_Mode job =? MigrationModeMove)%string
                 then audit r AuditActionMigrationMove (mj_Bucket job) (mj_Prefix job) (mj_TargetProviderID job) (mj_ID job) else ret tt) in
      ret (writeJSON 201 (JMigration job))
  end.

Definition migrations (r : Request) (body : Reader) : M AdminResponse :=
  get_or_post r (reading 500 "store-error" (ListMigrationJobs (parse_int_value (query_of r "limit"))) JMigrations)
    (with_json (ah_migration body) (created_migration r)).

(** *** Credentials *)

Definition credential_request (decoded : result accessCredentialRequest) (k : AccessCredentialInput → M AdminResponse) : M AdminResponse :=
  with_json decoded (λ request,
    match toAppInput request with Ok input => k input | Err e => ret (problem 400 "invalid-credential" (error_text e)) end).

Definition accessCredentials (r : Request) (body : Reader) : M AdminResponse :=
  get_or_post r (reading 500 "credential-list-failed" ListAccessCredentials (λ l, JCredentials (shown_credential <$> l)))
    (credential_request (ah_credential body) (λ input,
       changing 201 400 "credential-create-failed" (CreateAccessCredential input) JCreatedCredential)).

Definition accessCredentialByID (r : Request) (body : Reader) (path : string) : M AdminResponse :=
  let id := trim_suffix path "/" in
  if has_suffix id "/rotate"
  then only "POST" r (changing 200 400 "credential-rotate-failed" (RotateAccessCredential (trim_suffix id "/rotate")) JCreatedCredential)
  else if is_method r "PUT"
  then credential_request (ah_credential body) (λ input,
         changing 200 400 "credential-update-failed" (UpdateAccessCredential id input) JCredential)
  else only "DELETE" r (removing 500 "credential-delete-failed" (DeleteAccessCredential id) (ret tt)).

(** *** Trash and life cycle *)

Definition trash (r : Request) : M AdminResponse := only "GET" r (reading 500 "trash-list-failed" (ListTrashObjects 200) JTrash).

Definition trashByID (r : Request) (path : string) : M AdminResponse :=
  let id := trim_suffix path "/" in
  if has_suffix id "/restore"
  then only "POST" r (changing 200 400 "trash-restore-failed" (RestoreTrashObject (trim_suffix id "/restore"))
                        (λ object, JObject_ (objectResponseFromDomain object)))
  else only "DELETE" r (
    if negb (query_of r "confirm" =? "Purge permanently")%string
    then ret (problem 400 "invalid-confirmation" ("confirmation must exactly match " +:+ quoted "Purge permanently"))
    else removing 400 "trash-purge-failed" (PurgeTrashObject id) (ret tt)).

Definition runLifecycle (r : Request) : M AdminResponse :=
  only "POST" r (let! t := now in changing 200 500 "lifecycle-run-failed" (RunLifecycleOnce fuel t) JLifecycle).

(** *** Planning *)

Definition placementPlan (r : Request) : M AdminResponse :=
  only "GET" r (
    match parse_int64 (defaultString (query_of r "size") "0") with
    | Some size =>
        if size <? 0 then ret (problem 400 "invalid-size" "size must be a non-negative integer")
        else reading 500 "placement-plan-failed" (PlanPlacement (query_of r "bucket") size) JPlan
    | None => ret (problem 400 "invalid-size" "size must be a non-negative integer")
    end).

Definition costOptimizations (r : Request) : M AdminResponse := only "GET" r (reading 500 "cost-analysis-failed" CostOptimizations JOptimizations).

(** *** Hooks, usage, health *)

Definition hooks (r : Request) (body : Reader) : M AdminResponse :=
  get_or_post r (reading 500 "store-error" (ListHooksForAdmin ah_headers) JHooks)
    (with_json (ah_hook body) (λ req,
       let hook := hook_toDomain req in
       changing 201 400 "hook-upsert-failed" (UpsertHookFromAdmin parse_hook_url hook) (λ _, JID (h_ID hook)))).

Definition hookByID (r : Request) (id : string) : M AdminResponse :=
  only "DELETE" r (removing 500 "hook-delete-failed" (DeleteHook id) (audit r AuditActionHookDeleted "" "" id "")).

Definition hookDeliveries (r : Request) : M AdminResponse :=
  only "GET" r (reading 500 "store-error" (ListHookDeliveries (parse_int_value (query_of r "limit"))) JDeliveries).

Definition usage (r : Request) : M AdminResponse := only "GET" r (reading 500 "store-error" ListProviderBucketUsage JUsage).

Definition provider_health (r : Request) : M AdminResponse := only "GET" r (reading 500 "provider-health-error" ListProviderHealth JHealths).

(** *** Objects *)

(** Keys past a slash after the prefix are shown as the prefix they share. *)
Definition folder_of (prefix key : string) : option string :=
  option_map (λ cut : string * string, prefix +:+ cut.1 +:+ "/") (string_cut (trim_prefix key prefix) "/").

Definition listed_objects (bucket prefix startAfter : string) (lim : Z) (objects : list ObjectRecord) : objectListResponse :=
  MkObjectListResponse bucket prefix startAfter lim
    (sort_strings (remove_dups (omap (λ o, folder_of prefix (o_Key o)) objects)))
    (objectResponseFromDomain <$> List.filter (λ o, match folder_of prefix (o_Key o) with Some _ => false | None => true end) objects)
    (if Z.of_nat (List.length objects) =? lim then match last objects with Some o => o_Key o | None => "" end else "").

Definition listAdminObjects (r : Request) : M AdminResponse :=
  let bucket := trim_space (query_of r "bucket") in
  let prefix := trim_left_byte "/" (query_of r "prefix") in
  let startAfter := trim_left_byte "/" (query_of r "start_after") in
  let lim := parse_int_value (query_of r "limit") in
  if (bucket =? "")%string then ret (problem 400 "missing-bucket" "bucket is required")
  else
    let lim := if (lim <=? 0) || (1000 <? lim) then 500 else lim in
    reading 400 "object-list-failed" (ListObjectsAfter bucket prefix startAfter lim) (λ l, JObjects (listed_objects bucket prefix startAfter lim l)).

Definition decodeObjectDeleteRequest (r : Request) (body : Reader) : result objectDeleteRequest :=
  let req := MkObjectDeleteRequest (trim_space (query_of r "bucket")) (trim_left_byte "/" (query_of r "key")) (query_of r "confirm") in
  if contains (rq_header r "Content-Type") "application/json" then
    try! sent := ah_object_delete body in
    Ok (MkObjectDeleteRequest
          (if (od_Bucket sent =? "")%string then od_Bucket req else trim_space (od_Bucket sent))
          (if (od_Key sent =? "")%string then od_Key req else trim_left_byte "/" (od_Key sent))
          (if (od_Confirm sent =? "")%string then od_Confirm req else od_Confirm sent))
  else Ok req.

Definition objectDeleteConfirmationPhrase : string := "Delete permanently".

Definition deleteAdminObject (r : Request) (body : Reader) : M AdminResponse :=
  with_json (decodeObjectDeleteRequest r body) (λ req,
    if negb (od_Confirm req =? objectDeleteConfirmationPhrase)%string
    then ret (problem 400 "invalid-confirmation" ("confirmation must exactly match " +:+ quoted objectDeleteConfirmationPhrase))
    else if (od_Bucket req =? "")%string || (od_Key req =? "")%string then ret (problem 400 "missing-object" "bucket and key are required")
    else
      let! deleted := DeleteObject (od_Bucket req) (od_Key req) in
      match deleted with
      | Err e => ret (problem 400 "object-delete-failed" (error_text e))
      | Ok _ =>
          let! _ := audit r AuditActionObjectDeleted (od_Bucket req) (od_Key req) "" "" in
          ret (writeJSON 200 (JDeleted (od_Bucket req) (od_Key req)))
      end).

Definition objects (r : Request) (body : Reader) : M AdminResponse :=
  if is_method r "GET" then listAdminObjects r
  else if is_method r "DELETE" then deleteAdminObject r body else ret method_refused.

(** Where the service is reached, as the request says, unless it is configured. *)
Definition requested_base (r : Request) : string :=
  let proto := default_text (if tls then "https" else "http") (rq_header r "X-Forwarded-Proto") in
  proto +:+ "://" +:+ default_text (rq_Host r) (rq_header r "X-Forwarded-Host").

Definition adminPublicBaseURL (r : Request) : string :=
  default_text (requested_base r) (trim_right_byte "/" (trim_space (sv_PublicBaseURL (c_Server config)))).

Definition presigned_object (r : Request) (bucket key : string) (expires : Z) (obj : ObjectRecord) : M AdminResponse :=
  match ah_url (adminPublicBaseURL r +:+ "/" +:+ path_escape bucket +:+ "/" +:+ escapeS3Key key) with
  | Err e => ret (problem 500 "url-build-failed" (error_text e))
  | Ok target =>
      let! signed := PresignURL (NewAuthenticator env_config) "GET" (MkURL (pu_Host target) (pu_EscapedPath target) (pu_RawQuery target))
                       (duration_mul expires second) in
      match signed with
      | None => ret (problem 500 "presign-failed" "could not generate presigned URL")
      | Some url =>
          let! t := now in
          ret (writeJSON 200 (JPresigned (MkObjectPresignResponse (pu_Scheme target, url) "GET" (o_Bucket obj) (o_Key obj) expires
                 (rfc3339 (add_time t (duration_mul expires second))) (o_ProviderAccountID obj) (o_ContentType obj) (o_Size obj))))
      end
  end.

Definition presignObjectURL (r : Request) : M AdminResponse :=
  if negb (is_method r "GET") && negb (is_method r "POST") then ret method_refused
  else
    let bucket := trim_space (query_of r "bucket") in
    let key := trim_left_byte "/" (query_of r "key") in
    match parsePresignExpires (query_of r "expires") with
    | Err e => ret (problem 400 "invalid-expiration" (error_text e))
    | Ok expires =>
        if (bucket =? "")%string || (key =? "")%string then ret (problem 400 "missing-object" "bucket and key are required")
        else
          let! found := GetObject_store bucket key in
          match found with
          | Err _ => ret (problem 404 "object-not-found" "object not found")
          | Ok obj => presigned_object r bucket key expires obj
          end
    end.

Definition buckets (r : Request) (body : Reader) : M AdminResponse :=
  get_or_post r (reading 500 "store-error" ListBuckets JBuckets)
    (with_json (ah_bucket body) (λ bucket,
       if (b_Name bucket =? "")%string then ret (problem 400 "invalid-bucket" "name is required")
       else
         let bucket := replicated_bucket bucket in
         changing 201 500 "bucket-upsert-failed" (UpsertBucket bucket) (λ _, JBucket bucket))).

(** *** Plugins and embeddings *)

(** A plugin sent without its module keeps the stored one. *)
Definition with_stored_module (request : wasmPluginRequest) (plugin : WASMPlugin) : M WASMPlugin :=
  if (wp_ModuleBase64 plugin =? "")%string && negb (wp_ID plugin =? "")%string then
    let! existing := GetWASMPlugin (wp_ID plugin) in
    ret (match existing with
         | Ok existing =>
             let plugin := plugin <| wp_ModuleBase64 := wp_ModuleBase64 existing |> in
             match qw_OperationPolicy request with
             | None => plugin <| wp_OperationPolicy := wp_OperationPolicy existing |>
             | Some _ => plugin
             end
         | Err _ => plugin
         end)
  else ret plugin.

Definition save_plugin (request : wasmPluginRequest) : M AdminResponse :=
  let! plugin := with_stored_module request (plugin_toDomain request) in
  let! saved := UpsertWASMPlugin plugin in
  match saved with
  | Err e => ret (problem 400 "wasm-plugin-invalid" (error_text e))
  | Ok _ => changing 201 500 "store-error" (GetWASMPlugin (wp_ID plugin)) JPlugin
  end.

Definition wasmPlugins (r : Request) (body : Reader) : M AdminResponse :=
  get_or_post r (reading 500 "store-error" (ListWASMPlugins false) JPlugins) (with_json (ah_plugin body) save_plugin).

Definition validateWASMPlugin (r : Request) (body : Reader) : M AdminResponse :=
  only "POST" r (with_json (ah_plugin body) (λ request,
    ret (match ValidateWASMPlugin (plugin_toDomain request) with
         | Ok _ => writeJSON 200 JPluginValid
         | Err e => problem 400 "wasm-plugin-invalid" (error_text e)
         end))).

Definition wasmPluginByID (r : Request) (id : string) : M AdminResponse :=
  only "DELETE" r (
    let! found := GetWASMPlugin id in
    match found with
    | Err e => ret (if errors_is e ErrNotFound then problem 404 "not-found" "WASM plugin not found" else problem 500 "store-error" (error_text e))
    | Ok _ => removing 500 "wasm-plugin-delete-failed" (DeleteWASMPlugin id) (ret tt)
    end).

Definition wasmPluginJobs (r : Request) : M AdminResponse := only "GET" r (reading 500 "store-error" (ListWASMPluginJobs 100) JPluginJobs).

Definition importEmbeddings (body : Reader) : M AdminResponse :=
  with_json (ah_import body) (λ input,
    let! imported := ImportObjectEmbeddings input in
    ret (match imported with
         | Ok l => writeJSON 201 (JEmbeddings l)
         | Err e =>
             if errors_is e ErrNotFound then problem 404 "not-found" "Object not found"
             else if errors_is e ErrEmbeddingSourceSuperseded then problem 409 "embedding-source-superseded" (error_text e)
             else problem 400 "embedding-import-failed" (error_text e)
         end)).

Definition embeddings (r : Request) (body : Reader) : M AdminResponse :=
  if is_method r "POST" then importEmbeddings body
  else only "GET" r (
    let bucket := trim_space (query_of r "bucket") in
    let key := trim_space (query_of r "key") in
    if (bucket =? "")%string || (key =? "")%string then ret (problem 400 "invalid-embedding-query" "bucket and key are required")
    else
      let! listed := ListObjectEmbeddings_service bucket key in
      ret (match listed with
           | Ok l => writeJSON 200 (JEmbeddings l)
           | Err e => if errors_is e ErrNotFound then problem 404 "not-found" "Object not found"
                      else problem 500 "embedding-list-failed" (error_text e)
           end)).

Definition searchEmbeddings (r : Request) (body : Reader) : M AdminResponse :=
  only "POST" r (with_json (ah_query body) (λ query, reading 400 "invalid-embedding-query" (SearchObjectEmbeddings_service query) JResults)).

(** [Store.VectorSearchCapabilities] of [store/vector_search.go] *)
Definition VectorSearchCapabilities_store (s : VectorStore) : result VectorSearchCapabilities :=
  let none := MkVectorSearchCapabilities "exact" (vt_dialect s) false 0 0 0 0 in
  if (vt_backend s =? "turso-native")%string then Ok (MkVectorSearchCapabilities "turso-native-exact" "turso" false 0 0 0 0)
  else if negb (vt_backend s =? "pgvector")%string then Ok none
  else
    try! profiles := vt_indexes s in
    let v := vt_config s in
    Ok (MkVectorSearchCapabilities "pgvector" "postgresql-pgvector" true profiles (vs_MaxProfiles v) (vs_EFSearch v) (vs_MaxScanTuples v)).

Definition embeddingCapabilities (r : Request) : M AdminResponse :=
  only "GET" r (reading 500 "embedding-capabilities-failed" (lift (VectorSearchCapabilities_store ah_vectors)) JCapabilities).

(** *** Declarative configuration *)

(** [for] loops that stop at the first refusal. *)
Fixpoint apply_each {A} (step : A → M (option AdminResponse)) (l : list A) : M (option AdminResponse) :=
  match l with
  | [] => ret None
  | x :: l => let! refusal := step x in match refusal with Some answer => ret (Some answer) | None => apply_each step l end
  end.

Definition refused (code : string) (r : result unit) : option AdminResponse :=
  match r with Ok _ => None | Err e => Some (problem 400 code (error_text e)) end.

Definition apply_provider (req : providerRequest) : M (option AdminResponse) :=
  let account := provider_toDomain req in
  if (p_ID account =? "")%string || (p_Kind account =? "")%string || (p_Bucket account =? "")%string
  then ret (Some (problem 400 "invalid-provider" "every provider requires id, kind and bucket"))
  else let! r := UpsertProviderFromAdmin account (qp_SecretKey req) in ret (refused "provider-apply-failed" r).

Definition apply_bucket (bucket : Bucket) : M (option AdminResponse) :=
  if (b_Name bucket =? "")%string then ret (Some (problem 400 "invalid-bucket" "every bucket requires name"))
  else let! r := UpsertBucket (replicated_bucket bucket) in ret (refused "bucket-apply-failed" r).

Definition apply_hook (req : hookRequest) : M (option AdminResponse) :=
  let! r := UpsertHookFromAdmin parse_hook_url (hook_toDomain req) in ret (refused "hook-apply-failed" r).

Definition apply_plugin (req : wasmPluginRequest) : M (option AdminResponse) :=
  let! r := UpsertWASMPlugin (plugin_toDomain req) in ret (refused "wasm-plugin-apply-failed" r).

(** What was applied before a refusal stays applied. *)
Definition apply_config (request : declarativeConfig) : M AdminResponse :=
  let stop_at (m : M (option AdminResponse)) (k : M AdminResponse) := bind m (λ refusal, match refusal with Some answer => ret answer | None => k end) in
  let count {A} (l : list A) := Z.of_nat (List.length l) in
  stop_at (apply_each apply_provider (dc_Providers request))
    (stop_at (apply_each apply_bucket (dc_Buckets request))
      (stop_at (apply_each apply_hook (dc_Hooks request))
        (stop_at (apply_each apply_plugin (dc_WASMPlugins request))
          (ret (writeJSON 200 (JApplied (count (dc_Providers request)) (count (dc_Buckets request)) (count (dc_Hooks request))
                                 (count (dc_WASMPlugins request)))))))).

Definition applyDeclarativeConfig (r : Request) (body : Reader) : M AdminResponse :=
  only "POST" r (with_json (ah_declarative body) apply_config).

Definition openapi_paths : list (string * list string) :=
  [("/admin/api/providers", ["get"; "post"]); ("/admin/api/providers/{id}/test", ["post"]); ("/admin/api/providers/{id}/quota/reconcile", ["post"]);
   ("/admin/api/provider-health", ["get"]); ("/admin/api/provider-quotas", ["get"]); ("/admin/api/alerts", ["get"]);
   ("/admin/api/wasm-plugins", ["get"; "post"]); ("/admin/api/wasm-plugins/validate", ["post"]); ("/admin/api/wasm-plugin-jobs", ["get"]);
   ("/admin/api/embeddings", ["get"; "post"]); ("/admin/api/embeddings/capabilities", ["get"]); ("/admin/api/embeddings/search", ["post"]);
   ("/admin/api/buckets", ["get"; "post"]); ("/admin/api/hooks", ["get"; "post"]); ("/admin/api/objects", ["get"; "delete"]);
   ("/admin/api/migrations", ["get"; "post"]); ("/admin/api/inventory-jobs", ["get"; "post"]); ("/admin/api/repair-jobs", ["get"; "post"]);
   ("/admin/api/access-credentials", ["get"; "post"]); ("/admin/api/trash", ["get"]); ("/admin/api/placement-plan", ["get"]);
   ("/admin/api/cost-optimizations", ["get"]); ("/admin/api/repair", ["post"]); ("/admin/api/declarative/apply", ["post"])].

Definition openapi (r : Request) : M AdminResponse :=
  only "GET" r (ret (writeJSON 200 (JOpenAPI openapi_paths (oi_IssuerURL (ad_OIDC (c_Admin config)) +:+ "/.well-known/openid-configuration")))).

(** *** Dispatch *)

Definition isMutatingMethod (method : string) : bool := existsb (String.eqb method) ["POST"; "PUT"; "PATCH"; "DELETE"].

(** The origin of a request against the one the service answers under. *)
Definition sameOriginRequest (r : Request) : bool :=
  let header name := trim_space (rq_header r name) in
  if equal_fold (header "Sec-Fetch-Site") "cross-site" then false
  else if (header "Origin" =? "")%string then true
  else match ah_url (header "Origin") with
       | Err _ => false
       | Ok parsed =>
           if (pu_Scheme parsed =? "")%string || (pu_Host parsed =? "")%string || negb (pu_Path parsed =? "")%string then false
           else
             let publicBase := trim_space (sv_PublicBaseURL (c_Server config)) in
             if negb (publicBase =? "")%string
             then match ah_url publicBase with
                  | Ok expected => equal_fold (pu_Scheme parsed) (pu_Scheme expected) && equal_fold (pu_Host parsed) (pu_Host expected)
                  | Err _ => false
                  end
             else
               let host := default_text (rq_Host r) (header "X-Forwarded-Host") in
               let scheme := if tls then "https" else default_text "http" (header "X-Forwarded-Proto") in
               equal_fold (pu_Scheme parsed) scheme && equal_fold (pu_Host parsed) host
       end.

(** [authorized]: an OIDC session, or the configured user name and password. *)
Definition authorized (r : Request) : M bool :=
  let admin := c_Admin config in
  let! session := oidc_authorized (ad_OIDC admin) r in
  if session then ret true
  else if (ad_Username admin =? "")%string || (ad_Password admin =? "")%string then ret false
  else ret (match basic_auth r with
            | Some (user, pass) => (user =? ad_Username admin)%string && (pass =? ad_Password admin)%string
            | None => false
            end).

(** How long a body may be, by the path under [/admin]. *)
Definition body_limit (path : string) : Z :=
  let limit := sv_MaxAdminBodyBytes (c_Server config) in
  if (path =? "/upload")%string then add64 (sv_MaxUploadBytes (c_Server config)) mebibyte
  else if existsb (String.eqb path) ["/api/wasm-plugins"; "/api/wasm-plugins/validate"; "/api/declarative/apply"]
  then Z.max limit (add64 (Z.quot (mul64 (wc_MaxModuleBytes (c_WASMPlugins config)) 4) 3) mebibyte)
  else limit.

(** [prefix{id}suffix] *)
Definition between (path prefix suffix : string) : option string :=
  if has_prefix path prefix && has_suffix path suffix then Some (trim_suffix (trim_prefix path prefix) suffix) else None.

(** The routes of the pages. *)
Definition page_route (r : Request) (body : Reader) (path : string) : option (M AdminResponse) :=
  let at_ p := (path =? p)%string in
  let post := is_method r "POST" in
  if at_ "/providers" && post then Some (createProviderFromForm r body)
  else match (if post then between path "/providers/" "/delete" else None) with
  | Some id => Some (deleteProviderFromForm r id)
  | None =>
  if at_ "/hooks" && post then Some (createHookFromForm r body)
  else match (if post then between path "/hooks/" "/delete" else None) with
  | Some id => Some (deleteHookFromForm r id)
  | None =>
  if at_ "/buckets" && post then Some (createBucketFromForm r body)
  else if at_ "/upload" && post then Some (uploadObjectFromForm r body)
  else if at_ "/partials/provider-catalog" && is_method r "GET" then Some (provider_catalog r)
  else None
  end end.

(** The routes that name a provider. *)
Definition provider_route (r : Request) (path : string) : option (M AdminResponse) :=
  match between path "/api/providers/" "/test" with
  | Some id => Some (testProvider r id)
  | None => match between path "/api/providers/" "/buckets" with
  | Some id => Some (discoverProviderBuckets r id)
  | None => match between path "/api/providers/" "/quota/reconcile" with
  | Some id => Some (reconcileProviderQuota r id)
  | None => option_map (providerByID r) (between path "/api/providers/" "")
  end end end.

(** The other routes with a name in the path. *)
Definition named_route (r : Request) (body : Reader) (path : string) : option (M AdminResponse) :=
  match between path "/api/access-credentials/" "" with
  | Some p => Some (accessCredentialByID r body p)
  | None => match between path "/api/trash/" "" with
  | Some p => Some (trashByID r p)
  | None => match between path "/api/hooks/" "" with
  | Some p => Some (hookByID r p)
  | None => option_map (wasmPluginByID r) (if (path =? "/api/wasm-plugins/validate")%string then None else between path "/api/wasm-plugins/" "")
  end end end.

(** The routes without. *)
Definition api_route (r : Request) (body : Reader) (path : string) : option (M AdminResponse) :=
  let at_ p := (path =? p)%string in
  if at_ "/api/providers" then Some (providers r body)
  else if at_ "/api/inventory-jobs" then Some (inventoryJobs r body)
  else if at_ "/api/repair-jobs" then Some (repairJobs r body)
  else if at_ "/api/access-credentials" then Some (accessCredentials r body)
  else if at_ "/api/trash" then Some (trash r)
  else if at_ "/api/lifecycle/run" then Some (runLifecycle r)
  else if at_ "/api/placement-plan" then Some (placementPlan r)
  else if at_ "/api/cost-optimizations" then Some (costOptimizations r)
  else if at_ "/api/repair" then Some (repairObject r body)
  else if at_ "/api/declarative/apply" then Some (applyDeclarativeConfig r body)
  else if at_ "/openapi.json" || at_ "/api/openapi.json" then Some (openapi r)
  else if at_ "/api/hooks" then Some (hooks r body)
  else if at_ "/api/hook-deliveries" then Some (hookDeliveries r)
  else if at_ "/api/buckets" then Some (buckets r body)
  else if at_ "/api/usage" then Some (usage r)
  else if at_ "/api/provider-health" then Some (provider_health r)
  else if at_ "/api/provider-quotas" then Some (providerQuotas r)
  else if at_ "/api/alerts" then Some (alerts r)
  else if at_ "/api/wasm-plugins/validate" then Some (validateWASMPlugin r body)
  else if at_ "/api/wasm-plugins" then Some (wasmPlugins r body)
  else if at_ "/api/wasm-plugin-jobs" then Some (wasmPluginJobs r)
  else if at_ "/api/embeddings/capabilities" then Some (embeddingCapabilities r)
  else if at_ "/api/embeddings" then Some (embeddings r body)
  else if at_ "/api/embeddings/search" then Some (searchEmbeddings r body)
  else if at_ "/api/objects" then Some (objects r body)
  else if at_ "/api/objects/presign" then Some (presignObjectURL r)
  else if at_ "/api/migrations" then Some (migrations r body)
  else None.

(** An admitted request. No path fits two of the groups, so that their order
    does not matter. *)
Definition admin_route (r : Request) (body : Reader) (path : string) : M AdminResponse :=
  if (path =? "")%string || (path =? "/")%string then index ""
  else match page_route r body path with
       | Some m => m
       | None => match provider_route r path with
                 | Some m => m
                 | None => match named_route r body path with
                           | Some m => m
                           | None => default (ret (problem 404 "not-found" "Admin route not found")) (api_route r body path)
                           end
                 end
       end.

Definition unauthorized : AdminResponse :=
  let refusal := problem 401 "unauthorized" "Admin credentials are required" in
  MkAnswer 401 (<["Www-Authenticate" := "Basic realm=" +:+ quoted "BucketMux admin"]> (an_Header refusal)) [] (an_Body refusal).

(** The end points of the OIDC login, which need no authority. *)
Definition oidc_route (r : Request) (path : string) : option (M (Answer PlainBody)) :=
  let oidc := ad_OIDC (c_Admin config) in
  if negb (oi_Enabled oidc) then None
  else if (path =? "/login")%string then Some (login tls r)
  else if (path =? "/oidc/callback")%string then Some (callback oidc tls r)
  else if (path =? "/logout")%string then Some (ret (logout tls r))
  else None.

Definition admit_request (r : Request) (body : Reader) (path : string) : M AdminResponse :=
  let! allowed := authorized r in
  if negb allowed
  then ret (if oi_Enabled (ad_OIDC (c_Admin config)) && contains (rq_header r "Accept") "text/html"
            then plain (redirect 302 "/admin/login") else unauthorized)
  else if isMutatingMethod (rq_Method r)
  then
    if negb (sameOriginRequest r) then ret (problem 403 "cross-site-request" "Cross-site admin mutations are forbidden")
    else if body_limit path <? rq_ContentLength r
    then ret (problem 413 "request-too-large" "Request body exceeds the configured limit")
    else admin_route r (max_bytes (body_limit path) body) path
  else admin_route r body path.

(** [ServeHTTP]: nothing may be cached. *)
Definition admin_ServeHTTP (r : Request) (body : Reader) : M AdminResponse :=
  let path := trim_prefix (rq_Path r) "/admin" in
  let! answer := (match oidc_route r path with
                  | Some m => let! a := m in ret (plain a)
                  | None => admit_request r body path
                  end) in
  ret (MkAnswer (an_Status answer) (<["Cache-Control" := "no-store"]> (an_Header answer)) (an_Cookies answer) (an_Body answer)).
End admin.
