(* ===== verification/AdminFacts.v ===== *)
(** What the administration API guarantees: who can change anything, and that
    stored secrets are never shown. *)
From S2P Require Import Prelude GoTime Sha256 Json Text Url Http Domain ProviderErrors World Sql StoreProviders StoreObjects StoreEvents Embeddings Access SigV4 Placement Providers S3Request Hooks Service Runtime Plugins Configuration Onboarding Jobs Migration Repair Inventory Multipart Protection PluginJobs Gateway GatewayFacts Lifecycle Demo RuntimeFacts ServiceFacts AdminAuth Admin.

(** ** Reading changes nothing *)

Definition unchanged : World → World → Prop := on_db (same (λ d, d)).

#[global] Instance unchanged_preorder : PreOrder unchanged.
Proof. unfold unchanged. apply _. Qed.

(** A reading may add buckets: listing one that is not there creates it. *)
Definition adds_buckets (d d' : DB) : Prop := d' <| db_buckets := db_buckets d |> = d ∧ db_buckets d ⊆ db_buckets d'.

#[global] Instance adds_buckets_preorder : PreOrder adds_buckets.
Proof.
  split; [by intros []|]. intros d1 d2 d3 [E1 S1] [E2 S2]. split; [|by transitivity (db_buckets d2)].
  transitivity (d2 <| db_buckets := db_buckets d1 |>); [|done]. rewrite <- E2. by destruct d3.
Qed.

Lemma unchanged_adds {A} (m : M A) : pres unchanged m → pres (on_db adds_buckets) m.
Proof. intros Hm w. specialize (Hm w). unfold unchanged, on_db, same in *. rewrite Hm. reflexivity. Qed.

Section reading.
Context `{Env} `{!Pipelines} `{!WasmHost} `{!OidcHost} `{!AdminHost}.
Variable config : Configuration.
Variable tls : bool.
Variable fuel : nat.

Lemma sql_read_unchanged {A} (f : DB → result A) : pres unchanged (sql_read f).
Proof. apply pres_sql_read, _. Qed.
Hint Resolve sql_read_unchanged : pres.

Lemma adapter_health_unchanged a account : pres unchanged (adapter_health a account).
Proof. unfold unchanged. frame_auto. Qed.

Lemma check_all_unchanged l : pres unchanged (check_all l).
Proof. induction l as [|p l IH]; cbn [check_all]; unfold unchanged in *; frame_auto. Qed.
Hint Resolve check_all_unchanged : pres.

Lemma plan_providers_unchanged size l : pres unchanged (plan_providers size l).
Proof. induction l as [|p l IH]; cbn [plan_providers]; unfold unchanged in *; frame_auto. Qed.
Hint Resolve plan_providers_unchanged : pres.

Ltac reads := unfold unchanged in *; frame_auto.

Lemma optional_unchanged {A} (m : M (result (list A))) : pres unchanged m → pres unchanged (optional m).
Proof. intros Hm. unfold optional. pres_auto. Qed.

Lemma required_unchanged {A} code (m : M (result A)) k : pres unchanged m → (∀ a, pres unchanged (k a)) → pres unchanged (required code m k).
Proof. intros Hm Hk. unfold required. pres_auto. Qed.

Lemma index_unchanged message : pres unchanged (index config message).
Proof.
  unfold index. repeat (apply required_unchanged; [solve [reads]|intros ?]).
  repeat (apply pres_bind; [apply _|apply optional_unchanged; solve [reads]|intros ?]). apply pres_ret, _.
Qed.
Hint Resolve index_unchanged : pres.

Lemma changing_unchanged {A} success status code (m : M (result A)) show : pres unchanged m → pres unchanged (changing success status code m show).
Proof. intros Hm. unfold changing. pres_auto. Qed.

Lemma only_unchanged method r k : (is_method r method = true → pres unchanged k) → pres unchanged (only method r k).
Proof. unfold only. intros Hk. destruct (is_method r method); [by apply Hk|apply pres_ret, _]. Qed.

Lemma get_or_post_unchanged r get post : is_method r "POST" = false → pres unchanged get → pres unchanged (get_or_post r get post).
Proof. unfold get_or_post. intros -> Hg. destruct (is_method r "GET"); [done|apply pres_ret, _]. Qed.

(** A bucket is added where there is none; a failed statement is not mistaken
    for a bucket that is missing. *)
Hypothesis Hfaults : faults_distinct.

Lemma new_bucket_adds b d : db_buckets d !! b_Name b = None → adds_buckets d (upsert_bucket_row b d).
Proof.
  intros Hn. unfold upsert_bucket_row, adds_buckets. split; [by destruct d|]. rsimpl. rewrite Hn. by apply insert_subseteq.
Qed.

Lemma UpsertBucket_new b w : db_buckets (w_db w) !! b_Name b = None → on_db adds_buckets w (UpsertBucket b w).2.
Proof.
  intros Hn. destruct (UpsertBucket b w) as [r w'] eqn:Hrun. cbn [snd]. unfold UpsertBucket, bind, now in Hrun. cbv zeta in Hrun.
  unfold sql_write, sql in Hrun. destruct (env_db_fault _) as [e|]; injection Hrun as _ <-; unfold on_db; rsimpl; [reflexivity|].
  apply new_bucket_adds. destruct (is_zero _), (_ <=? 0); by rsimpl.
Qed.

Lemma ensureBucket_adds bucket : pres (on_db adds_buckets) (ensureBucket bucket).
Proof.
  intros w. unfold ensureBucket. destruct (GetBucket bucket w) as [found w1] eqn:Hget.
  assert (w_db w1 = w_db w ∧ ∀ e, found = Err e → errors_is e ErrNotFound = true → db_buckets (w_db w) !! bucket = None) as [Hdb Hmissing].
  { unfold GetBucket, sql_read, sql in Hget. destruct (env_db_fault _) as [fault|] eqn:Hf.
    - injection Hget as <- <-. split; [done|]. intros e [= <-]. by rewrite (Hfaults _ _ Hf).
    - destruct (db_buckets (w_db w) !! bucket) eqn:Hb; injection Hget as <- <-; split; try done. }
  unfold bind at 1. rewrite Hget. unfold on_db. rewrite <- Hdb. cbn [fst snd]. destruct found as [b|e]; [reflexivity|].
  destruct (errors_is e ErrNotFound) eqn:He; [|reflexivity]. cbv zeta.
  pose proof (UpsertBucket_new (zero_Bucket <| b_Name := bucket |>) w1) as Hup. rsimpl. rewrite Hdb in Hup. specialize (Hup (Hmissing e eq_refl He)).
  unfold bind_ok, bind, ret_ok, ret. destruct (UpsertBucket _ w1) as [[u|e'] w2]; exact Hup.
Qed.

Lemma ListObjectsAfter_adds bucket prefix startAfter lim : pres (on_db adds_buckets) (ListObjectsAfter bucket prefix startAfter lim).
Proof.
  unfold ListObjectsAfter. apply pres_bind_ok; [apply _|apply ensureBucket_adds|]. intros ?. apply unchanged_adds. reads.
Qed.


Variable r : Request.
Hypothesis Hquiet : isMutatingMethod (rq_Method r) = false.

Lemma quiet_post : is_method r "POST" = false ∧ is_method r "PUT" = false ∧ is_method r "DELETE" = false.
Proof. revert Hquiet. unfold isMutatingMethod, is_method. cbn [existsb]. rewrite !orb_false_iff. tauto. Qed.

(** A handler of a request whose method is none of those that change. *)
Ltac quiet :=
  destruct quiet_post as (HP & HU & HD); unfold reading;
  repeat first [ apply get_or_post_unchanged; [exact HP|]
               | apply only_unchanged; first [rewrite HP; discriminate | rewrite HD; discriminate | intros _]
               | apply changing_unchanged
               | rewrite HP | rewrite HU | rewrite HD
               | progress cbn [andb orb negb]
               | solve [reads] ].

Lemma providers_unchanged body : pres unchanged (providers r body).
Proof. unfold providers. quiet. Qed.

Lemma page_route_unchanged body path m : page_route config r body path = Some m → pres unchanged m.
Proof.
  unfold page_route. destruct quiet_post as (HP & _). rewrite HP, !andb_false_r. case_match; [|done]. intros [= <-]. unfold provider_catalog. reads.
Qed.

Lemma provider_route_unchanged path m : provider_route fuel r path = Some m → pres unchanged m.
Proof.
  unfold provider_route. repeat (case_match; [intros [= <-]; unfold testProvider, discoverProviderBuckets, reconcileProviderQuota; quiet|]).
  destruct (between path "/api/providers/" ""); [intros [= <-]; unfold providerByID; quiet|done].
Qed.

Lemma accessCredentialByID_unchanged body path : pres unchanged (accessCredentialByID r body path).
Proof. unfold accessCredentialByID. destruct (has_suffix _ _); quiet. Qed.

Lemma trashByID_unchanged path : pres unchanged (trashByID r path).
Proof. unfold trashByID. destruct (has_suffix _ _); quiet. Qed.

Lemma named_route_unchanged body path m : named_route r body path = Some m → pres unchanged m.
Proof.
  unfold named_route. destruct (between path "/api/access-credentials/" ""); [intros [= <-]; apply accessCredentialByID_unchanged|].
  destruct (between path "/api/trash/" ""); [intros [= <-]; apply trashByID_unchanged|].
  destruct (between path "/api/hooks/" ""); [intros [= <-]; unfold hookByID; quiet|].
  destruct (if (path =? "/api/wasm-plugins/validate")%string then _ else _); [intros [= <-]; unfold wasmPluginByID; quiet|done].
Qed.

Lemma presign_unchanged : pres unchanged (presignObjectURL config tls r).
Proof. unfold presignObjectURL. destruct (negb (is_method r "GET") && _); [apply pres_ret, _|]. destruct (parsePresignExpires _); [|apply pres_ret, _]. reads. Qed.

Lemma embeddings_unchanged body : pres unchanged (embeddings r body).
Proof. unfold embeddings. quiet. Qed.

Lemma objects_adds body : pres (on_db adds_buckets) (objects r body).
Proof.
  unfold objects, listAdminObjects, reading. destruct quiet_post as (_ & _ & HD). rewrite HD. destruct (is_method r "GET"); [|apply pres_ret, _].
  cbv zeta. destruct (_ =? _)%string; [apply pres_ret, _|]. unfold changing. pres_auto. apply ListObjectsAfter_adds.
Qed.

Lemma placementPlan_unchanged : pres unchanged (placementPlan r).
Proof.
  unfold placementPlan, reading. apply only_unchanged. intros _. destruct (parse_int64 _) as [size|]; [|apply pres_ret, _].
  destruct (size <? 0); [apply pres_ret, _|]. apply changing_unchanged. reads.
Qed.

Lemma api_route_adds body path m : api_route config tls fuel r body path = Some m → pres (on_db adds_buckets) m.
Proof.
  unfold api_route.
  repeat match goal with |- (if ?b then Some ?h else _) = _ → _ =>
    destruct b; [intros [= <-]; first [ apply objects_adds | apply unchanged_adds;
      first [ apply providers_unchanged | apply presign_unchanged | apply embeddings_unchanged
            | apply placementPlan_unchanged | let f := head h in unfold f; quiet ] ]|] end.
  done.
Qed.

Lemma admin_route_adds body path : pres (on_db adds_buckets) (admin_route config tls fuel r body path).
Proof.
  unfold admin_route. destruct (_ || _); [apply unchanged_adds, index_unchanged|].
  destruct (page_route config r body path) eqn:E1; [eapply unchanged_adds, page_route_unchanged, E1|].
  destruct (provider_route fuel r path) eqn:E2; [eapply unchanged_adds, provider_route_unchanged, E2|].
  destruct (named_route r body path) eqn:E3; [eapply unchanged_adds, named_route_unchanged, E3|].
  destruct (api_route config tls fuel r body path) eqn:E4; cbn [default]; [by eapply api_route_adds|apply pres_ret, _].
Qed.
End reading.

(** ** Who changes anything *)

Section authority.
Context `{Env} `{!Pipelines} `{!WasmHost} `{!OidcHost} `{!AdminHost}.
Variable config : Configuration.
Variable tls : bool.
Variable fuel : nat.

(** A session cookie this service sealed, of a subject, not expired at the
    clock's first reading, of an allowed group. *)
Definition session_valid (r : Request) (w : World) : Prop :=
  let oidc := ad_OIDC (c_Admin config) in
  oi_Enabled oidc = true ∧ ∃ session, readEncryptedCookie r oidcSessionCookie oh_decode_session = Ok session
    ∧ os_Subject session ≠ "" ∧ env_now (w_clock w) < os_Expires session ∧ groupsAllowed (os_Groups session) (oi_AllowedGroups oidc) = true.

(** The configured user name and password, neither of them empty. *)
Definition password_valid (r : Request) : Prop :=
  let admin := c_Admin config in
  basic_auth r = Some (ad_Username admin, ad_Password admin) ∧ ad_Username admin ≠ "" ∧ ad_Password admin ≠ "".

Lemma untouched_identifier p n : pres untouched (randomIdentifier p n).
Proof. by intros w. Qed.
Lemma untouched_encrypt s : pres untouched (encrypt s).
Proof. by intros w. Qed.
Lemma untouched_initialize : pres untouched initialize.
Proof. by intros w. Qed.
Hint Resolve untouched_identifier untouched_encrypt untouched_initialize : pres.

Lemma untouched_exchange flow code : pres untouched (exchanged_token flow code).
Proof.
  intros w. unfold exchanged_token. destruct (oh_exchange _ _ _) as [[raw|]|]; try reflexivity. by destruct (raw =? "")%string.
Qed.
Hint Resolve untouched_exchange : pres.

Lemma oidc_route_untouched r path m : oidc_route config tls r path = Some m → pres untouched m.
Proof.
  unfold oidc_route, login, callback, encryptedCookie, randomSecret. destruct (negb _); [done|].
  destruct (path =? "/login")%string; [intros [= <-]; pres_auto|].
  destruct (path =? "/oidc/callback")%string; [intros [= <-]; pres_auto|].
  destruct (path =? "/logout")%string; [intros [= <-]; pres_auto|done].
Qed.

Lemma authorized_untouched r : pres untouched (authorized config r).
Proof. unfold authorized, oidc_authorized. pres_auto. Qed.

Lemma authorized_sound r w w' : authorized config r w = (true, w') → session_valid r w ∨ password_valid r.
Proof.
  unfold authorized, oidc_authorized. set (admin := c_Admin config). intros Ha.
  apply bind_inv in Ha as (session & w1 & Hs & Ha). destruct session.
  - left. destruct (oi_Enabled (ad_OIDC admin)) eqn:Hen; cbn [negb] in Hs; [|discriminate].
    destruct (readEncryptedCookie _ _ _) as [session|] eqn:Hc; [|discriminate].
    destruct (os_Subject session =? "")%string eqn:Hsub; [discriminate|]. unfold bind, now, ret in Hs. injection Hs as Hs _.
    apply andb_true_iff in Hs as [Ht Hg]. split; [done|]. exists session. unfold after in Ht. apply Z.ltb_lt in Ht. apply String.eqb_neq in Hsub. done.
  - right. destruct ((ad_Username admin =? "")%string || _) eqn:He; [discriminate|]. apply orb_false_iff in He as [Hu%String.eqb_neq Hp%String.eqb_neq].
    injection Ha as Ha _. destruct (basic_auth r) as [[user pass]|] eqn:Hb; [|discriminate].
    apply andb_true_iff in Ha as [->%String.eqb_eq ->%String.eqb_eq]. done.
Qed.

(** What an admitted change had to show. *)
Definition change_allowed (r : Request) (w w' : World) : Prop :=
  (session_valid r w ∨ password_valid r)
  ∧ if isMutatingMethod (rq_Method r)
    then sameOriginRequest config tls r = true ∧ rq_ContentLength r <= body_limit config (trim_prefix (rq_Path r) "/admin")
    else adds_buckets (w_db w) (w_db w').

Lemma admin_needs_authority r body w :
  faults_distinct → let w' := (admin_ServeHTTP config tls fuel r body w).2 in
  w_db w' ≠ w_db w ∨ w_calls w' ≠ w_calls w → change_allowed r w w'.
Proof.
  intros Hf. destruct (admin_ServeHTTP config tls fuel r body w) as [a w'] eqn:Hrun. cbn [snd]. intros Hchange.
  unfold admin_ServeHTTP in Hrun. cbv zeta in Hrun. apply bind_inv in Hrun as (answer & w1 & Hrun & Hret). injection Hret as _ <-.
  unfold change_allowed. set (path := trim_prefix (rq_Path r) "/admin") in *. destruct (oidc_route config tls r path) as [m|] eqn:Ho.
  - apply oidc_route_untouched in Ho. apply bind_inv in Hrun as (b & w2 & Hrun & Hret). injection Hret as _ <-.
    destruct (pres_run _ _ _ _ _ Ho Hrun) as (? & ? & _). tauto.
  - unfold admit_request in Hrun. apply bind_inv in Hrun as (allowed & w2 & Ha & Hrun). destruct (pres_run _ _ _ _ _ (authorized_untouched r) Ha) as (E1 & E2 & _).
    destruct allowed; cbn [negb] in Hrun; [|injection Hrun as _ <-; tauto]. apply authorized_sound in Ha. split; [done|].
    destruct (isMutatingMethod (rq_Method r)) eqn:Hm.
    + destruct (sameOriginRequest config tls r); cbn [negb] in Hrun; [|injection Hrun as _ <-; tauto].
      destruct (Z.ltb_spec (body_limit config path) (rq_ContentLength r)); [injection Hrun as _ <-; tauto|done].
    + rewrite <- E1. exact (pres_run _ _ _ _ _ (admin_route_adds config tls fuel Hf r Hm body path) Hrun).
Qed.

(** C6. A request to the administration API that changes the database or reaches a
    provider comes with a session of an allowed identity that has not expired,
    or with the configured password; when its method is one that changes, it
    comes from the same origin and is not announced longer than the limit;
    with any other method all it can change is to add a bucket. *)
Theorem admin_change_needs_authority r body w :
  faults_distinct → let w' := (admin_ServeHTTP config tls fuel r body w).2 in
  w_db w' ≠ w_db w ∨ w_calls w' ≠ w_calls w → change_allowed r w w'.
Proof. apply admin_needs_authority. Qed.
End authority.

(** ** A concrete administrator *)

Definition refuse {A} (what : string) : result A := Err (ErrText what).

#[global] Instance demo_oidc : OidcHost := {|
  oh_initialize _ := Ok tt; oh_generate_verifier seed := seed; oh_auth_url _ := "https://id.example/authorize";
  oh_exchange _ _ _ := Ok None; oh_verify _ _ := refuse "no token"; oh_decode_flow _ := refuse "no flow"; oh_decode_session _ := refuse "no session" |}.

#[global] Instance demo_admin_host : AdminHost := {|
  ah_provider _ := refuse "json"; ah_hook _ := refuse "json"; ah_credential _ := refuse "json"; ah_plugin _ := refuse "json";
  ah_declarative _ := refuse "json"; ah_object_delete _ := refuse "json"; ah_inventory _ := refuse "json"; ah_repair_job _ := refuse "json";
  ah_repair _ := refuse "json"; ah_migration _ := refuse "json"; ah_bucket _ := refuse "json"; ah_import _ := refuse "json"; ah_query _ := refuse "json";
  ah_headers _ := refuse "json"; ah_form _ _ := refuse "form"; ah_upload _ _ := refuse "form"; ah_url _ := refuse "url"; ah_time_error _ := ErrText "time";
  ah_vectors := MkVectorStore "turso" "turso-native" (so_VectorSearch (c_Store Default)) (Ok 0) |}.

Definition demo_config : Configuration := Default <| c_Admin ::= λ a, a <| ad_Enabled := true |> <| ad_Password := "pw" |> |>.

(** [DELETE /admin/api/providers/p2] with the credentials [admin:pw]. *)
Definition delete_p2 : Request :=
  MkRequest "DELETE" "localhost" "/admin/api/providers/p2" "/admin/api/providers/p2" "" {[ "Authorization" := ["Basic YWRtaW46cHc="] ]} 0.

Lemma admin_change_needs_authority_witness :
  let E := demo_env in let W := demo_host in
  let run := admin_ServeHTTP demo_config false 1 delete_p2 (MkReader "" None) (start (demo_db demo_bucket)) in
  an_Status run.1 = 204 ∧ change_allowed demo_config false delete_p2 (start (demo_db demo_bucket)) run.2.
Proof.
  intros E W run. split; [vm_compute; reflexivity|]. apply (@admin_change_needs_authority demo_env plugin_pipelines demo_host demo_oidc demo_admin_host).
  - intros n e. discriminate.
  - left. intros Heq. apply (f_equal (λ d, db_providers d !! "p2")) in Heq. vm_compute in Heq. discriminate.
Defined.

(** ** Stored secrets are not shown *)

Definition secretless (b : AdminBody) : Prop :=
  let provider p := p_SecretEncrypted p = "" ∧ p_SecretKey p = "" in
  let credential c := ac_SecretEncrypted c = "" in
  let hook h := h_HeadersEncrypted h = "" ∧ h_Headers h = ∅ in
  match b with
  | IndexPage d => Forall provider (ap_Providers d) ∧ Forall credential (ap_AccessCredentials d) ∧ Forall hook (ap_Hooks d)
  | JProviders l => Forall provider l
  | JCredentials l => Forall credential l
  | JCredential c => credential c
  | JCreatedCredential c => credential c.1
  | JHooks l => Forall hook l
  | _ => True
  end.

Lemma shown_hooks decode `{Env} w l w' : ListHooksForAdmin decode w = (Ok l, w') → Forall (λ h, h_HeadersEncrypted h = "" ∧ h_Headers h = ∅) l.
Proof.
  unfold ListHooksForAdmin. intros Hrun. run_inv Hrun as hooks w1 H1. injection Hrun as <- _.
  apply Forall_fmap, Forall_true. intros h. unfold compose, shown_hook. by rsimpl.
Qed.

Lemma shown_providers l : Forall (λ p, p_SecretEncrypted p = "" ∧ p_SecretKey p = "") (shown_provider <$> l).
Proof. apply Forall_fmap, Forall_true. intros p. unfold compose, shown_provider. by rsimpl. Qed.

Lemma shown_credentials l : Forall (λ c, ac_SecretEncrypted c = "") (shown_credential <$> l).
Proof. apply Forall_fmap, Forall_true. intros c. unfold compose, shown_credential. by rsimpl. Qed.

Section secrets.
Context `{Env} `{!Pipelines} `{!WasmHost} `{!OidcHost} `{!AdminHost}.
Variable config : Configuration.
Variable tls : bool.
Variable fuel : nat.

Definition shows (m : M AdminResponse) : Prop := ∀ w, secretless (an_Body (m w).1).

Lemma shows_ret a : secretless (an_Body a) → shows (ret a).
Proof. by intros Ha w. Qed.

Lemma shows_bind {A} (m : M A) k : (∀ w a w', m w = (a, w') → shows (k a)) → shows (bind m k).
Proof. intros Hk w. unfold bind. destruct (m w) as [a w'] eqn:Hm. by eapply Hk. Qed.

Lemma shows_changing {A} success status code (m : M (result A)) show :
  (∀ w a w', m w = (Ok a, w') → secretless (show a)) → shows (changing success status code m show).
Proof. intros Hs. unfold changing. apply shows_bind. intros w a w' Hm. apply shows_ret. destruct a; [by eapply Hs|done]. Qed.

Ltac shown :=
  repeat match goal with
  | |- ∀ _, _ => intro
  | |- shows (ret _) => apply shows_ret
  | |- shows (bind _ _) => apply shows_bind
  | |- shows (changing _ _ _ _ _) => apply shows_changing
  | |- shows (match ?x with _ => _ end) => destruct x
  | |- shows (let _ := _ in _) => cbv zeta
  | |- secretless (an_Body (match ?x with _ => _ end)) => destruct x
  | |- secretless _ => exact I
  end.

Lemma index_shows message : shows (index config message).
Proof.
  unfold index, required. shown. cbn. split_and!; [apply shown_providers|apply shown_credentials|]. by eapply shown_hooks.
Qed.

(** What the operations on credentials hand back. *)
Lemma created_secretless input w c w' : CreateAccessCredential input w = (Ok c, w') → ac_SecretEncrypted c.1 = "".
Proof.
  unfold CreateAccessCredential. intros Hrun. run_inv Hrun as c0 w1 K1. run_inv Hrun as c1 w2 K2. run_inv Hrun as key w3 K3.
  run_inv Hrun as secret w4 K4. run_inv Hrun as sealed w5 K5. run_inv Hrun as u w6 K6. injection Hrun as <- _. cbn [fst]. by rsimpl.
Qed.

Lemma updated_secretless id input w c w' : UpdateAccessCredential id input w = (Ok c, w') → ac_SecretEncrypted c = "".
Proof.
  unfold UpdateAccessCredential. intros Hrun. run_inv Hrun as c0 w1 K1. run_inv Hrun as c1 w2 K2. run_inv Hrun as u w3 K3. injection Hrun as <- _. by rsimpl.
Qed.

Lemma rotated_secretless id w c w' : RotateAccessCredential id w = (Ok c, w') → ac_SecretEncrypted c.1 = "".
Proof.
  unfold RotateAccessCredential. intros Hrun. run_inv Hrun as c0 w1 K1. run_inv Hrun as secret w2 K2. run_inv Hrun as sealed w3 K3.
  run_inv Hrun as u w4 K4. injection Hrun as <- _. cbn [fst]. by rsimpl.
Qed.

Lemma only_shows method r k : shows k → shows (only method r k).
Proof. unfold only. intros Hk. destruct (is_method r method); [done|]. by apply shows_ret. Qed.

Lemma get_or_post_shows r get post : shows get → shows post → shows (get_or_post r get post).
Proof. unfold get_or_post. intros Hg Hp. shown; done. Qed.

Lemma with_json_shows {A} (decoded : result A) k : (∀ a, shows (k a)) → shows (with_json decoded k).
Proof. unfold with_json. intros Hk. destruct decoded; [done|]. by apply shows_ret. Qed.

Lemma credential_request_shows decoded k : (∀ a, shows (k a)) → shows (credential_request decoded k).
Proof. intros Hk. apply with_json_shows. intros a. destruct (toAppInput a); [done|]. by apply shows_ret. Qed.

Lemma form_change_shows failed m after : shows (form_change config failed m after).
Proof. unfold form_change. shown. apply index_shows. Qed.

Ltac handler :=
  unfold reading, removing;
  repeat first [ apply index_shows | apply form_change_shows | apply only_shows | apply get_or_post_shows | apply with_json_shows
               | apply credential_request_shows
               | match goal with H : CreateAccessCredential _ _ = _ |- _ => exact (created_secretless _ _ _ _ H) end
               | match goal with H : UpdateAccessCredential _ _ _ = _ |- _ => exact (updated_secretless _ _ _ _ _ H) end
               | match goal with H : RotateAccessCredential _ _ = _ |- _ => exact (rotated_secretless _ _ _ _ H) end
               | match goal with H : ListHooksForAdmin _ _ = _ |- _ => exact (shown_hooks _ _ _ _ H) end
               | apply shown_providers | apply shown_credentials | progress shown ].

Lemma page_route_shows r body path m : page_route config r body path = Some m → shows m.
Proof.
  unfold page_route. intros Hm. repeat case_match; try discriminate; injection Hm as <-;
    unfold createProviderFromForm, deleteProviderFromForm, createHookFromForm, deleteHookFromForm, createBucketFromForm, uploadObjectFromForm,
      uploadFormError, provider_catalog; handler.
Qed.
Lemma provider_route_shows r path m : provider_route fuel r path = Some m → shows m.
Proof.
  unfold provider_route. repeat (case_match; [intros [= <-]; unfold testProvider, discoverProviderBuckets, reconcileProviderQuota; handler|]).
  destruct (between path "/api/providers/" ""); [intros [= <-]; unfold providerByID; handler|done].
Qed.

Lemma named_route_shows r body path m : named_route r body path = Some m → shows m.
Proof.
  unfold named_route. destruct (between path "/api/access-credentials/" ""); [intros [= <-]; unfold accessCredentialByID; handler|].
  destruct (between path "/api/trash/" ""); [intros [= <-]; unfold trashByID; handler|].
  destruct (between path "/api/hooks/" ""); [intros [= <-]; unfold hookByID; handler|].
  destruct (if (path =? "/api/wasm-plugins/validate")%string then _ else _); [intros [= <-]; unfold wasmPluginByID; handler|done].
Qed.

Lemma apply_each_shows {A} (step : A → M (option AdminResponse)) l k :
  (∀ x w a w', step x w = (Some a, w') → secretless (an_Body a)) → shows k →
  shows (bind (apply_each step l) (λ refusal, match refusal with Some answer => ret answer | None => k end)).
Proof.
  intros Hs Hk. apply shows_bind. intros w refusal w'. revert w. induction l as [|x l IH]; intros w Hrun; cbn [apply_each] in Hrun.
  - injection Hrun as <- _. exact Hk.
  - apply bind_inv in Hrun as ([a|] & w1 & Hx & Hrun); [injection Hrun as <- _; apply shows_ret; by eapply Hs|by eapply IH].
Qed.

Lemma refused_secretless code r a : refused code r = Some a → secretless (an_Body a).
Proof. unfold refused. destruct r; [done|]. by intros [= <-]. Qed.

Lemma refused_step code (m : M (result unit)) w a w' : bind m (λ r, ret (refused code r)) w = (Some a, w') → secretless (an_Body a).
Proof. intros Hrun. apply bind_inv in Hrun as (r & w1 & _ & Hrun). injection Hrun as Hrun _. by eapply refused_secretless. Qed.

Lemma refused_if (b : bool) status code detail (m : M (option AdminResponse)) w a w' :
  (if b then ret (Some (problem status code detail)) else m) w = (Some a, w') → (m w = (Some a, w') → secretless (an_Body a)) → secretless (an_Body a).
Proof. intros Hrun Hm. destruct b; [by injection Hrun as <- _|by apply Hm]. Qed.

Lemma apply_provider_refused req w a w' : apply_provider req w = (Some a, w') → secretless (an_Body a).
Proof. unfold apply_provider. cbv zeta. intros Hx. eapply refused_if; [exact Hx|]. apply refused_step. Qed.

Lemma apply_bucket_refused b w a w' : apply_bucket b w = (Some a, w') → secretless (an_Body a).
Proof. unfold apply_bucket. intros Hx. eapply refused_if; [exact Hx|]. apply refused_step. Qed.

Lemma apply_hook_refused req w a w' : apply_hook req w = (Some a, w') → secretless (an_Body a).
Proof. unfold apply_hook. apply refused_step. Qed.

Lemma apply_plugin_refused req w a w' : apply_plugin req w = (Some a, w') → secretless (an_Body a).
Proof. unfold apply_plugin. apply refused_step. Qed.

Lemma apply_config_shows request : shows (apply_config request).
Proof.
  unfold apply_config. cbv zeta. apply apply_each_shows; [apply apply_provider_refused|]. apply apply_each_shows; [apply apply_bucket_refused|].
  apply apply_each_shows; [apply apply_hook_refused|]. apply apply_each_shows; [apply apply_plugin_refused|]. by apply shows_ret.
Qed.

Lemma objects_shows r body : shows (objects r body).
Proof. unfold objects, listAdminObjects, deleteAdminObject. handler. Qed.

Lemma presign_shows r : shows (presignObjectURL config tls r).
Proof. unfold presignObjectURL, presigned_object. handler. Qed.

Lemma api_route_shows r body path m : api_route config tls fuel r body path = Some m → shows m.
Proof.
  unfold api_route.
  repeat match goal with |- (if ?b then Some ?h else _) = _ → _ =>
    destruct b; [intros [= <-]; first [ apply objects_shows | apply presign_shows
      | let f := head h in unfold f, created_migration, save_plugin, importEmbeddings; handler; try apply apply_config_shows ]|] end.
  done.
Qed.

(** C13. No answer of the administration API, whatever is asked and whatever the
    database holds, carries the encrypted secret of an account or of an access
    credential, a decrypted one of an account, or the headers of a hook; a
    credential's secret is shown once, next to the record that was created or
    rotated. *)
Theorem stored_secrets_not_shown r body w : secretless (an_Body (admin_ServeHTTP config tls fuel r body w).1).
Proof.
  destruct (admin_ServeHTTP config tls fuel r body w) as [a w'] eqn:Hrun. unfold admin_ServeHTTP in Hrun. cbv zeta in Hrun.
  apply bind_inv in Hrun as (answer & w1 & Hrun & Hret). injection Hret as <- _. cbn [fst an_Body].
  set (path := trim_prefix (rq_Path r) "/admin") in *. destruct (oidc_route config tls r path) as [m|].
  - apply bind_inv in Hrun as (b & w2 & _ & Hret). by injection Hret as <- _.
  - assert (shows (admit_request config tls fuel r body path)) as Hs; [|specialize (Hs w); by rewrite Hrun in Hs].
    unfold admit_request. assert (∀ body, shows (admin_route config tls fuel r body path)) as Hroute; [|shown; try done; apply Hroute].
    clear body Hrun. intros body. unfold admin_route. destruct (_ || _); [apply index_shows|].
    destruct (page_route config r body path) eqn:E1; [by eapply page_route_shows|].
    destruct (provider_route fuel r path) eqn:E2; [by eapply provider_route_shows|].
    destruct (named_route r body path) eqn:E3; [by eapply named_route_shows|].
    destruct (api_route config tls fuel r body path) eqn:E4; cbn [default]; [by eapply api_route_shows|by apply shows_ret].
Qed.
End secrets.

(** ** The audit trail *)

(** A host whose sealed cookies hold the session of one administrator. *)
Definition session_host : OidcHost := {|
  oh_initialize _ := Ok tt; oh_generate_verifier seed := seed; oh_auth_url _ := ""; oh_exchange _ _ _ := Ok None;
  oh_verify _ _ := refuse "no token"; oh_decode_flow _ := refuse "no flow";
  oh_decode_session _ := Ok (MkOidcSession "alice" "" "" [] (demo_time + hour)) |}.

Definition oidc_config : Configuration :=
  Default <| c_Admin ::= λ a, a <| ad_Enabled := true |> <| ad_OIDC ::= λ o, o <| oi_Enabled := true |> |> |>.

Definition alice_deletes (header : Values) : Request :=
  MkRequest "DELETE" "localhost" "/admin/api/providers/p2" "/admin/api/providers/p2" ""
    (<["Cookie" := ["bucketmux_admin_session=sealed"]]> header) 0.

Definition audited_actors (header : Values) : list string :=
  let E := demo_env in let W := demo_host in let O := session_host in
  let run := admin_ServeHTTP oidc_config false 1 (alice_deletes header) (MkReader "" None) (start (demo_db demo_bucket)) in
  au_Actor <$> rows (db_audits (w_db run.2)).

(** The audit trail does not name who was authorised: what an OIDC session
    does is recorded under [admin], or under any user name the same request
    carries in Basic credentials that nobody checks. *)
Lemma audit_actor_unverified :
  audited_actors ∅ = ["admin"] ∧ audited_actors {[ "Authorization" := ["Basic ZXZlOng="] ]} = ["eve"].
Proof. split; vm_compute; reflexivity. Qed.

(** ** Links *)

(** The link to an object whose key ends in a slash is a link to another key. *)
Lemma trailing_slash_lost : escapeS3Key "photos/2024/" = escapeS3Key "photos/2024".
Proof. vm_compute. reflexivity. Qed.

(** 29 of 100 objects are shown as 28 %. *)
Lemma progress_rounds_down : migrationProgressPercent (zero_MigrationJob <| mj_TotalObjects := 100 |> <| mj_ProcessedObjects := 29 |>) = 28.
Proof. vm_compute. reflexivity. Qed.

Example format_bytes_ex : formatBytes 1536 = "1.50 KB" ∧ formatBytes (5 * 2 ^ 30) = "5 GB" ∧ formatBytes 123456789 = "118 MB" ∧ formatBytes 1023 = "1023 B".
Proof. vm_compute. done. Qed.
