(* ===== verification/WellFormed.v ===== *)
(** That every operation of the service keeps the database well-formed: the
    statements on the tables the invariant speaks of, then what is made of
    them. *)
From S2P Require Import Prelude GoTime Domain ProviderErrors World Sql StoreProviders Placement Demo StoreObjects StoreEvents Providers Hooks Service ServiceFacts Replication ReplicationFacts Protection ProtectionFacts Lifecycle LifecycleFacts Jobs JobsFacts Migration Repair Inventory Multipart Runtime Plugins PluginJobs Embeddings Json Base64 Access.

Definition keeps_wf : World → World → Prop := on_db (keeps db_wf).

#[global] Instance keeps_wf_preorder : PreOrder keeps_wf.
Proof. unfold keeps_wf. apply _. Qed.

(** The tables the invariant speaks of, besides the ledger's. *)
Definition wf_rest (d : DB) := (db_buckets d, db_objects d, db_attributes d, db_versions d).

(** No account disappears. *)
Definition same_or_more (d d' : DB) : Prop := ∀ k, is_Some (db_providers d !! k) → is_Some (db_providers d' !! k).

#[global] Instance same_or_more_preorder : PreOrder same_or_more.
Proof. unfold same_or_more. split; red; auto. Qed.

Lemma ids_same_or_more d d' : same account_ids d d' → same_or_more d d'.
Proof.
  unfold same, account_ids. intros Hs k [p Hp]. assert (is_Some ((p_ID <$> db_providers d') !! k)) as [x Hx].
  { rewrite Hs, lookup_fmap, Hp. by eexists. }
  rewrite lookup_fmap in Hx. destruct (db_providers d' !! k); [by eexists|done].
Qed.

Lemma wf_same_rest d d' :
  keeps quota_ok d d' → same_or_more d d' → same wf_rest d d' → keeps db_wf d d'.
Proof.
  intros Hq Hi Hr [Hl Hb Ho Ha Hv]. unfold same, wf_rest in Hr. injection Hr as E1 E2 E3 E4.
  split; rewrite ?E1, ?E2, ?E3, ?E4; [by apply Hq | done | | done | done].
  intros k o Hk. destruct (Ho k o Hk). split; [done|]. by apply Hi.
Qed.

Section wf.
Context `{Env}.

Lemma pres_wf_rest {A} (m : M A) :
  pres keeps_quota m → pres (on_db same_or_more) m → pres (on_db (same wf_rest)) m → pres keeps_wf m.
Proof. intros Hq Hi Hr w. apply wf_same_rest; [apply Hq | apply Hi | apply Hr]. Qed.

(** An operation that touches neither the ledger nor those tables. *)
Lemma pres_wf_frame {A} (m : M A) :
  pres (on_db same_ledger) m → pres (on_db (same wf_rest)) m → pres keeps_wf m.
Proof. intros Hl Hr. apply pres_wf_rest; [by apply pres_ledger_quota | intros w; by apply ids_same_or_more, pres_ledger_ids | done]. Qed.

(** An operation on other tables altogether. *)
Lemma pres_wf_other {A} (m : M A) :
  pres (on_db (same (λ d, (db_providers d, db_reservations d, wf_rest d)))) m → pres keeps_wf m.
Proof.
  intros Hm. apply pres_wf_frame; intros w; specialize (Hm w); unfold on_db, same, same_ledger in *;
    injection Hm as E1 E2 E3 E4 E5 E6; [by rewrite E1, E2 | unfold wf_rest; congruence].
Qed.

(** *** The statements on those tables *)

Lemma wf_write f : (∀ d d', f d = Ok d' → keeps db_wf d d') → pres keeps_wf (sql_write f).
Proof. intros Hf. apply pres_sql_write; [apply _|done]. Qed.

Lemma upsert_bucket_wf b d : keeps db_wf d (upsert_bucket_row b d).
Proof.
  intros [Hl Hb Ho Ha Hv]. unfold upsert_bucket_row. split; rsimpl; try done. intros k x.
  destruct (decide (k = b_Name b)) as [->|Hne]; [rewrite lookup_insert_eq; intros [= <-] | by rewrite lookup_insert_ne by done; apply Hb].
  by destruct (db_buckets d !! b_Name b); unfold bucket_conflict; rsimpl.
Qed.

Lemma put_object_wf o d d' : put_object_row o d = Ok d' → keeps db_wf d d'.
Proof.
  unfold put_object_row. destruct (db_providers d !! o_ProviderAccountID o) eqn:Hp; [|done]. intros [= <-] [Hl Hb Ho Ha Hv].
  split; rsimpl; try done.
  - intros k x. destruct (decide (k = object_key o)) as [->|Hne]; [rewrite lookup_insert_eq; intros [= <-] | by rewrite lookup_insert_ne by done; apply Ho].
    destruct (db_objects d !! object_key o); unfold object_conflict, object_row, object_key; rsimpl; split; eauto.
  - intros k a Hk. destruct (decide (k = object_key o)) as [->|Hne]; [rewrite lookup_insert_eq; eauto | rewrite lookup_insert_ne by done; by eapply Ha].
Qed.

Lemma delete_object_wf b k d : keeps db_wf d (delete_object_row b k d).
Proof.
  unfold delete_object_row. destruct (db_objects d !! (b, k)) eqn:Hk; [|done]. intros [Hl Hb Ho Ha Hv]. split; rsimpl; try done.
  - intros k' x [_ Hx]%lookup_delete_Some. by apply Ho.
  - intros k' a [Hne Hx]%lookup_delete_Some. rewrite lookup_delete_ne by done. by eapply Ha.
Qed.

Lemma put_attributes_wf o t d d' : put_attributes_row o t d = Ok d' → keeps db_wf d d'.
Proof.
  unfold put_attributes_row. destruct (db_objects d !! object_key o) eqn:Hk; [|done]. intros [= <-] [Hl Hb Ho Ha Hv].
  split; rsimpl; try done. intros k a. destruct (decide (k = object_key o)) as [->|Hne]; [by eauto | rewrite lookup_insert_ne by done; apply Ha].
Qed.

Lemma put_version_wf o d : keeps db_wf d (put_version_row o d).
Proof.
  intros [Hl Hb Ho Ha Hv]. unfold put_version_row. split; rsimpl; try done. intros k x.
  destruct (db_versions d !! version_key o) eqn:Hk; [apply Hv|].
  destruct (decide (k = version_key o)) as [->|Hne]; [rewrite lookup_insert_eq; by intros [= <-] | by rewrite lookup_insert_ne by done; apply Hv].
Qed.

Lemma delete_version_wf key d : keeps db_wf d (d <| db_versions ::= delete key |>).
Proof. intros [Hl Hb Ho Ha Hv]. split; rsimpl; try done. intros k x [_ Hx]%lookup_delete_Some. by apply Hv. Qed.

Lemma update_version_wf o d n d' : update_version_row o d = (n, d') → keeps db_wf d d'.
Proof.
  unfold update_version_row. destruct (update_row _ _ _ _) as [n' m] eqn:Hrow. intros [= _ <-] [Hl Hb Ho Ha Hv].
  split; rsimpl; try done. apply update_row_spec in Hrow as [(v & Hk & _ & _ & ->)|(_ & _ & ->)]; [|done].
  intros k x. destruct (decide (k = version_key o)) as [->|Hne]; [rewrite lookup_insert_eq; intros [= <-] | by rewrite lookup_insert_ne by done; apply Hv].
  unfold version_key at 1. rsimpl. by apply Hv.
Qed.
End wf.

(** *** The operations on them *)

Section ops.
Context `{Env}.

Lemma UpsertBucket_wf b : pres keeps_wf (UpsertBucket b).
Proof. unfold UpsertBucket. pres_auto; apply wf_write; intros d d' [= <-]; apply upsert_bucket_wf. Qed.

Lemma PutObject_store_wf o : pres keeps_wf (PutObject_store o).
Proof. unfold PutObject_store. pres_auto; apply wf_write; apply put_object_wf. Qed.

Lemma DeleteObject_store_wf b k : pres keeps_wf (DeleteObject_store b k).
Proof. apply wf_write. intros d d' [= <-]. apply delete_object_wf. Qed.

Lemma PutObjectAttributes_wf o : pres keeps_wf (PutObjectAttributes o).
Proof. unfold PutObjectAttributes. pres_auto. apply wf_write. intros d d'. apply put_attributes_wf. Qed.

Lemma PutObjectVersion_wf o : pres keeps_wf (PutObjectVersion o).
Proof. unfold PutObjectVersion. pres_auto; apply wf_write; intros d d' [= <-]; apply put_version_wf. Qed.

Lemma DeleteObjectVersion_wf b k v : pres keeps_wf (DeleteObjectVersion b k v).
Proof. apply wf_write. intros d d' [= <-]. apply delete_version_wf. Qed.

Lemma UpdateObjectVersionProtection_wf o : pres keeps_wf (UpdateObjectVersionProtection o).
Proof.
  unfold UpdateObjectVersionProtection. pres_auto. apply pres_sql; [apply _|]. intros d n d' [= Hrow].
  by eapply update_version_wf.
Qed.

Lemma Reserve_wf r margin monthly period : pres keeps_wf (ReserveProviderCapacity r margin monthly period).
Proof. apply pres_wf_rest; [apply ReserveProviderCapacity_quota | intros w; apply ids_same_or_more, ids_reserve | frame_auto]. Qed.

Lemma Commit_wf id n : pres keeps_wf (CommitProviderReservation id n).
Proof. apply pres_wf_rest; [apply CommitProviderReservation_quota | intros w; apply ids_same_or_more, ids_commit | frame_auto]. Qed.

Lemma Release_wf id : pres keeps_wf (ReleaseProviderReservation id).
Proof. apply pres_wf_rest; [apply ReleaseProviderReservation_quota | intros w; apply ids_same_or_more, ids_release | frame_auto]. Qed.

Lemma UpsertProvider_wf p : p_ReservedBytes p = 0 → pres keeps_wf (UpsertProvider p).
Proof.
  intros Hp. apply pres_wf_rest; [by apply UpsertProvider_quota | | frame_auto]. unfold UpsertProvider.
  pres_auto; apply pres_sql_write; try apply _; intros d d' [= <-] k Hk; unfold upsert_provider_row;
    destruct (is_zero (p_CreatedAt p)); rsimpl;
    (destruct (decide (k = p_ID p)) as [->|]; [rewrite lookup_insert_eq; eauto | by rewrite lookup_insert_ne by done]).
Qed.

Lemma DeleteProvider_wf id : pres keeps_wf (DeleteProvider id).
Proof.
  intros w Hwf. pose proof (DeleteProvider_quota id w (wf_ledger _ Hwf)) as Hl. revert Hl.
  destruct (DeleteProvider id w) as [[[]|e] w'] eqn:Hrun; simpl.
  2: { unfold DeleteProvider, sql_write, sql in Hrun. destruct (env_db_fault _); [by injection Hrun as _ <-|].
       destruct (delete_provider_row id (w_db w)); [done|]. by injection Hrun as _ <-. }
  apply sql_write_inv in Hrun. unfold delete_provider_row in Hrun. intros Hl.
  destruct (db_providers (w_db w) !! id) as [p|] eqn:Hp; [|by injection Hrun as <-].
  destruct (provider_referenced id (w_db w)) eqn:Href; [done|]. injection Hrun as Hd. destruct Hwf as [_ Hb Ho Ha Hv].
  split; rewrite <- ?Hd in *; rsimpl; try done; try (by rewrite Hd).
  intros k o Hk. destruct (Ho k o Hk) as [? Hsome]. split; [done|]. rewrite lookup_delete_ne; [done|]. intros Heq.
  apply orb_false_iff in Href as [Href _]. assert (existsb (λ x, (o_ProviderAccountID x =? id)%string) (rows (db_objects (w_db w))) = true) as Hex.
  { apply existsb_exists. exists o. split; [|by apply String.eqb_eq]. apply list_elem_of_In, elem_of_rows. eauto. }
  congruence.
Qed.
End ops.

#[global] Hint Resolve UpsertBucket_wf PutObject_store_wf DeleteObject_store_wf PutObjectAttributes_wf PutObjectVersion_wf
  DeleteObjectVersion_wf UpdateObjectVersionProtection_wf Reserve_wf Commit_wf Release_wf DeleteProvider_wf : pres.

(** [wf_steps]: an operation made of those and of operations that frame them. *)
Ltac wf_steps :=
  repeat first [ pres_step | solve [eauto 3 with pres typeclass_instances]
               | solve [apply pres_wf_frame; [solve [pres_auto] | solve [frame_auto]]]
               | solve [apply pres_wf_other; frame_auto] ].

Section requests.
Context `{Env} `{!Pipelines}.

Lemma plugins_wf event o : pres keeps_wf (enqueueWASMPlugins event o).
Proof.
  apply pres_wf_frame; [apply enqueue_ledger|]. intros w. destruct (enqueue_objects event o w) as (E1 & E2 & E3 & _ & E4 & _).
  unfold on_db, same, wf_rest. by rewrite E1, E2, E3, E4.
Qed.
Hint Resolve plugins_wf : pres.

Lemma index_upload_wf b i e p s : pres keeps_wf (index_upload b i e p s).
Proof. unfold index_upload. wf_steps. Qed.
Hint Resolve index_upload_wf : pres.

Lemma try_provider_wf i s p : pres keeps_wf (try_provider i s p).
Proof. unfold try_provider, rewind. wf_steps. Qed.
Hint Resolve try_provider_wf : pres.

Lemma place_wf fuel i s excluded : pres keeps_wf (place fuel i s excluded).
Proof.
  revert excluded. induction fuel as [|fuel IH]; intros excluded; simpl; [wf_steps|].
  apply pres_bind; [apply _ | apply Choose_pres; [apply _ | simpl; pres_auto] |]. intros [p|e]; [|wf_steps].
  apply pres_bind; [apply _ | apply try_provider_wf |]. intros [r|[]]; [wf_steps | apply IH].
Qed.
Hint Resolve place_wf : pres.

Lemma PutObject_wf input body : pres keeps_wf (PutObject input body).
Proof.
  unfold PutObject, ensureBucket, too_large. destruct (_ <? _); [wf_steps|].
  repeat first [ pres_step | solve [eauto 3 with pres typeclass_instances] | apply index_upload_wf
               | solve [apply spoolUpload_pres; apply _]
               | solve [intros w; unfold place_upload; apply pres_bind; [apply _ | apply place_wf | intros; wf_steps]] ].
Qed.
Hint Resolve PutObject_wf : pres.

Lemma restoreLatest_wf b k : pres keeps_wf (restoreLatestObjectVersion b k).
Proof. unfold restoreLatestObjectVersion, restoreVersionAsCurrent. wf_steps. Qed.
Hint Resolve restoreLatest_wf : pres.

Lemma DeleteObjectWithOptions_wf b k options : pres keeps_wf (DeleteObjectWithOptions b k options).
Proof.
  unfold DeleteObjectWithOptions, deleteObjectVersion, delete_to_marker, delete_to_trash, delete_for_good, replace_current.
  wf_steps; first [ apply validateObjectDeletion_pres, _ | apply restoreLatest_wf ].
Qed.
Hint Resolve DeleteObjectWithOptions_wf : pres.

Lemma UpdateObjectProtection_wf o bypass : pres keeps_wf (UpdateObjectProtection o bypass).
Proof. unfold UpdateObjectProtection, GetProtectedObject, put_current_attributes. wf_steps. Qed.
Hint Resolve UpdateObjectProtection_wf : pres.

Lemma UpdateObjectTags_wf b k v tags : pres keeps_wf (UpdateObjectTags b k v tags).
Proof. unfold UpdateObjectTags, GetProtectedObject, put_current_attributes. wf_steps. Qed.
Hint Resolve UpdateObjectTags_wf : pres.

Lemma RestoreTrashObject_wf id : pres keeps_wf (RestoreTrashObject id).
Proof. unfold RestoreTrashObject. wf_steps. Qed.
Hint Resolve RestoreTrashObject_wf : pres.

Lemma PurgeTrashObject_wf id : pres keeps_wf (PurgeTrashObject id).
Proof. unfold PurgeTrashObject. wf_steps. Qed.
Hint Resolve PurgeTrashObject_wf : pres.

Lemma refresh_wf b k : pres keeps_wf (refreshObjectReplicaStatus b k).
Proof. unfold refreshObjectReplicaStatus. wf_steps. Qed.
Hint Resolve refresh_wf : pres.

Lemma failObjectReplica_wf o id e : pres keeps_wf (failObjectReplica o id e).
Proof. unfold failObjectReplica. wf_steps; apply refresh_wf. Qed.
Hint Resolve failObjectReplica_wf : pres.

Lemma finish_replica_wf o id res p st : pres keeps_wf (finish_replica o id res p st).
Proof.
  unfold finish_replica, recorded_attempts.
  wf_steps; first [ apply failObjectReplica_wf | apply refresh_wf | apply verifyReplica_pres, _ ].
Qed.
Hint Resolve finish_replica_wf : pres.

Lemma RunObjectReplication_wf b k id : pres keeps_wf (RunObjectReplication b k id).
Proof.
  unfold RunObjectReplication, failObjectReplicaPermanently, replicate, copy_replica, putOnProvider.
  wf_steps; first [ apply failObjectReplica_wf | apply refresh_wf | apply finish_replica_wf | apply GetObject_pres, _ ].
Qed.
Hint Resolve RunObjectReplication_wf : pres.

Lemma expire_pages_wf fuel rule t b after r : pres keeps_wf (expire_pages fuel rule t b after r).
Proof.
  revert after r. induction fuel as [|fuel IH]; intros after r; simpl; [wf_steps|].
  apply pres_bind_ok; [apply _ | wf_steps |]. intros l.
  apply pres_bind; [apply _ | | intros; wf_steps; apply IH].
  revert r. induction l as [|x l IHl]; intros r; simpl; [wf_steps|].
  destruct (negb _); [apply IHl|]. apply pres_bind; [apply _ | apply DeleteObjectWithOptions_wf | intros; apply IHl].
Qed.
Hint Resolve expire_pages_wf : pres.

Lemma purge_pages_wf fuel m r : pres keeps_wf m → pres keeps_wf (purge_pages fuel m r).
Proof.
  intros Hm. revert r. induction fuel as [|fuel IH]; intros r; simpl; [wf_steps|].
  apply pres_bind_ok; [apply _ | done |]. intros page. apply pres_bind; [apply _ | |].
  - revert r. induction page as [|x l IHl]; intros r; simpl; [wf_steps|].
    apply pres_bind; [apply _ | apply PurgeTrashObject_wf | intros; apply IHl].
  - intros r'. destruct (Nat.ltb _ _); [wf_steps | apply IH].
Qed.

Lemma apply_rules_wf fuel t rules r : pres keeps_wf (apply_rules fuel t rules r).
Proof.
  revert r. induction rules as [|[b rule] rules IH]; intros r; simpl; [wf_steps|].
  unfold apply_rule. wf_steps; first [ apply expire_pages_wf | apply IH | apply purge_pages_wf; wf_steps ].
Qed.
Hint Resolve apply_rules_wf : pres.

Lemma lifecycle_tick_wf fuel : pres keeps_wf (lifecycle_tick fuel).
Proof.
  unfold lifecycle_tick, RunLifecycleOnce.
  wf_steps; first [ apply apply_rules_wf | apply purge_pages_wf; wf_steps ].
Qed.
Hint Resolve lifecycle_tick_wf : pres.

Lemma remote_usage_pres R `{!PreOrder R} fuel a f token used : pres (on_db R) (remote_usage fuel a f token used).
Proof. revert token used. induction fuel as [|fuel IH]; intros; simpl; pres_auto; apply IH. Qed.

Lemma ReconcileProviderQuota_wf fuel id : pres keeps_wf (ReconcileProviderQuota fuel id).
Proof.
  unfold ReconcileProviderQuota, providerAccountAndAdapter, updateQuotaAlert.
  wf_steps; apply remote_usage_pres, _.
Qed.
Hint Resolve ReconcileProviderQuota_wf : pres.

(** *** Jobs *)

Lemma prepare_migration_wf obj target : pres keeps_wf (prepare_migration obj target).
Proof. unfold prepare_migration. wf_steps. Qed.
Hint Resolve prepare_migration_wf : pres.

Lemma copy_to_target_wf account adapter target obj id : pres keeps_wf (copy_to_target account adapter target obj id).
Proof. unfold copy_to_target, putOnProvider. wf_steps. Qed.
Hint Resolve copy_to_target_wf : pres.

Lemma migrate_object_wf obj target mode : pres keeps_wf (migrateObjectToProvider obj target mode).
Proof.
  unfold migrateObjectToProvider, index_migrated, subtractExistingReplicaUsage.
  wf_steps; first [ apply prepare_migration_wf | apply copy_to_target_wf ].
Qed.
Hint Resolve migrate_object_wf : pres.

(** The tables of jobs are not among those of the invariant. *)
Definition wf_tables (d : DB) := (db_providers d, db_reservations d, wf_rest d).

Class JobFrame (J : Type) `{!JobTable J} : Prop :=
  job_frame f d : wf_tables (set_job_table f d) = wf_tables d.

#[local] Instance migration_frame : JobFrame MigrationJob. Proof. done. Qed.
#[local] Instance repair_frame : JobFrame RepairJob. Proof. done. Qed.
#[local] Instance inventory_frame : JobFrame InventoryJob. Proof. done. Qed.

Section jobs.
Context {J : Type} `{!JobTable J} `{!JobFrame J}.

Lemma job_sql_wf {A} (f : DB → result (A * DB)) :
  (∀ d a d', f d = Ok (a, d') → d' = d ∨ ∃ g, d' = set_job_table g d) → pres keeps_wf (sql f).
Proof.
  intros Hf. apply pres_wf_other, pres_sql; [apply _|]. intros d a d' Hd.
  destruct (Hf _ _ _ Hd) as [->|[g ->]]; [done|]. apply job_frame.
Qed.

Lemma create_job_wf (j : J) : pres keeps_wf (create_job j).
Proof.
  unfold create_job, sql_write. apply pres_bind; [apply _ | wf_steps |]. intros t. apply job_sql_wf.
  intros d [] d'. unfold create_job_row. destruct (negb _); [discriminate|].
  destruct (job_table d !! _); [discriminate|]. cbn. intros [= <-]. eauto.
Qed.

Lemma update_job_wf (j : J) : pres keeps_wf (update_job j).
Proof.
  unfold update_job, sql_write. apply pres_bind; [apply _ | wf_steps |]. intros t. apply job_sql_wf.
  intros d [] d'. unfold update_job_row. cbn. intros [= <-]. eauto.
Qed.

Lemma touch_job_wf wrap id : (∀ m, pres keeps_wf m → pres keeps_wf (wrap m)) → pres keeps_wf (touch_job (J := J) wrap id).
Proof.
  intros Hwrap. unfold touch_job. apply pres_bind; [apply _ | wf_steps |]. intros t.
  apply pres_bind_ok; [apply _ | | intros; wf_steps]. apply Hwrap, job_sql_wf. intros d n d' [= _ <-]. eauto.
Qed.

Lemma claim_jobs_wf ids : pres keeps_wf (claim_jobs (J := J) ids).
Proof.
  induction ids as [|id ids IH]; simpl; [wf_steps|]. apply pres_bind; [apply _ | wf_steps |]. intros t.
  apply pres_bind_ok; [apply _ | | intros n; destruct (n =? 1); [unfold get_job; wf_steps | apply IH]].
  apply job_sql_wf. intros d n d'. unfold claim_job_row, update_job_row. cbn. intros [= _ <-]. eauto.
Qed.

Lemma claim_next_job_wf : pres keeps_wf (claim_next_job (J := J)).
Proof. unfold claim_next_job. apply pres_bind_ok; [apply _ | wf_steps | intros; apply claim_jobs_wf]. Qed.

Lemma recover_jobs_wf cutoff : pres keeps_wf (recover_jobs (J := J) cutoff).
Proof.
  unfold recover_jobs. apply pres_bind; [apply _ | wf_steps |]. intros t. apply job_sql_wf.
  intros d n d' [= _ <-]. eauto.
Qed.
End jobs.

Hint Resolve update_job_wf create_job_wf claim_next_job_wf recover_jobs_wf : pres.

Lemma pres_ctx ctx : pres keeps_wf (ctx_err ctx).
Proof. apply pres_ctx_err, _. Qed.
Hint Resolve pres_ctx : pres.

Lemma CreateMigrationJob_wf input : pres keeps_wf (CreateMigrationJob input).
Proof. unfold CreateMigrationJob, CreateMigrationJob_store, GetMigrationJob, get_job, migration_side. wf_steps. Qed.
Hint Resolve CreateMigrationJob_wf : pres.

Lemma CreateRepairJob_wf b prefix : pres keeps_wf (CreateRepairJob b prefix).
Proof. unfold CreateRepairJob, CreateRepairJob_store, GetRepairJob, get_job, ensureBucket. wf_steps. Qed.
Hint Resolve CreateRepairJob_wf : pres.

Lemma CreateInventoryJob_wf input : pres keeps_wf (CreateInventoryJob input).
Proof.
  unfold CreateInventoryJob, CreateInventoryJob_store, GetInventoryJob, get_job, ensureBucket, providerAccountAndAdapter. wf_steps.
Qed.
Hint Resolve CreateInventoryJob_wf : pres.

Section runs.
Context (ctx : World → option error).

Lemma migration_pages_wf fuel job key : pres keeps_wf (migration_pages fuel job key).
Proof. revert key. induction fuel as [|fuel IH]; intros; simpl; wf_steps; apply IH. Qed.
Hint Resolve migration_pages_wf : pres.

Lemma migrate_all_wf job objects : pres keeps_wf (migrate_all ctx job objects).
Proof.
  revert job. induction objects as [|o objects IH]; intros; simpl; unfold migrate_one, UpdateMigrationJob; wf_steps;
    first [ apply migrate_object_wf | apply IH ].
Qed.
Hint Resolve migrate_all_wf : pres.

Lemma RunMigrationJob_wf fuel id : pres keeps_wf (RunMigrationJob ctx fuel id).
Proof.
  unfold RunMigrationJob, GetMigrationJob, get_job, start_migration, UpdateMigrationJob, migrationObjects.
  wf_steps; first [ apply migration_pages_wf | apply migrate_all_wf ].
Qed.
Hint Resolve RunMigrationJob_wf : pres.

Lemma RepairObject_wf b k : pres keeps_wf (RepairObject b k).
Proof.
  unfold RepairObject, primary_healthy, putOnProvider, getObjectFromReplica, read_from_replica.
  wf_steps; apply from_replicas_pres; [apply _ | pres_auto].
Qed.
Hint Resolve RepairObject_wf : pres.

Lemma repair_page_wf job objects : pres keeps_wf (repair_page ctx job objects).
Proof.
  revert job. induction objects as [|o objects IH]; intros; simpl; wf_steps; first [ apply RepairObject_wf | apply IH ].
Qed.
Hint Resolve repair_page_wf : pres.

Lemma repair_pages_wf fuel job key : pres keeps_wf (repair_pages ctx fuel job key).
Proof.
  revert job key. induction fuel as [|fuel IH]; intros; simpl;
    unfold failRepairJob, complete_repair, UpdateRepairJob; wf_steps; first [ apply repair_page_wf | apply IH ].
Qed.
Hint Resolve repair_pages_wf : pres.

Lemma RunRepairJob_wf fuel id : pres keeps_wf (RunRepairJob ctx fuel id).
Proof. unfold RunRepairJob, GetRepairJob, get_job, UpdateRepairJob. wf_steps; apply repair_pages_wf. Qed.
Hint Resolve RunRepairJob_wf : pres.

Lemma import_page_wf account job objects : pres keeps_wf (import_page ctx account job objects).
Proof.
  revert job. induction objects as [|o objects IH]; intros; simpl; unfold import_object, import_row; wf_steps; apply IH.
Qed.
Hint Resolve import_page_wf : pres.

Lemma import_pages_wf fuel account list_objects job seen token :
  pres keeps_wf (import_pages ctx fuel account list_objects job seen token).
Proof.
  revert job seen token. induction fuel as [|fuel IH]; intros; simpl; unfold list_remote, UpdateInventoryJob; wf_steps;
    first [ apply import_page_wf | apply IH ].
Qed.
Hint Resolve import_pages_wf : pres.

Lemma reconcile_pages_wf fuel account seen job key : pres keeps_wf (reconcile_pages fuel account seen job key).
Proof. revert job key. induction fuel as [|fuel IH]; intros; simpl; wf_steps; apply IH. Qed.
Hint Resolve reconcile_pages_wf : pres.

Lemma RunInventoryJob_wf fuel id : pres keeps_wf (RunInventoryJob ctx fuel id).
Proof.
  unfold RunInventoryJob, GetInventoryJob, get_job, run_inventory, finish_inventory, failInventoryJob, UpdateInventoryJob, providerAccountAndAdapter.
  wf_steps; first [ apply import_pages_wf | apply reconcile_pages_wf ].
Qed.
Hint Resolve RunInventoryJob_wf : pres.
End runs.

(** *** Multipart uploads *)

Lemma edit_files_wf f : pres keeps_wf (edit_files f).
Proof. apply edit_files_pres, _. Qed.
Hint Resolve edit_files_wf : pres.

Lemma open_file_wf path : pres keeps_wf (open_file path).
Proof.
  unfold open_file. apply pres_bind_ok; [apply _ | wf_steps |]. intros _ w. exact (reflexivity (R := keeps_wf) w).
Qed.
Hint Resolve open_file_wf : pres.

Lemma openMultipartReader_wf parts : pres keeps_wf (openMultipartReader parts).
Proof. induction parts as [|x parts IH]; simpl; wf_steps; first [ apply open_file_wf | apply IH ]. Qed.
Hint Resolve openMultipartReader_wf : pres.

Lemma CreateMultipartUpload_wf b k ct : pres keeps_wf (CreateMultipartUpload b k ct).
Proof. unfold CreateMultipartUpload, ensureBucket. wf_steps. Qed.
Hint Resolve CreateMultipartUpload_wf : pres.

Lemma UploadPart_wf u n body : pres keeps_wf (UploadPart u n body).
Proof. unfold UploadPart, receive_part, write_file. wf_steps. Qed.
Hint Resolve UploadPart_wf : pres.

Lemma cleanupMultipart_wf u parts : pres keeps_wf (cleanupMultipart u parts).
Proof. unfold cleanupMultipart, remove_file, remove_all. wf_steps. Qed.
Hint Resolve cleanupMultipart_wf : pres.

Lemma AbortMultipartUpload_wf u : pres keeps_wf (AbortMultipartUpload u).
Proof. unfold AbortMultipartUpload. wf_steps; apply cleanupMultipart_wf. Qed.
Hint Resolve AbortMultipartUpload_wf : pres.

Lemma CompleteMultipartUpload_wf u parts : pres keeps_wf (CompleteMultipartUpload u parts).
Proof.
  unfold CompleteMultipartUpload, collect_parts, too_large.
  wf_steps; first [ apply openMultipartReader_wf | apply PutObject_wf | apply cleanupMultipart_wf ].
Qed.
Hint Resolve CompleteMultipartUpload_wf : pres.

(** *** Plugins *)

Lemma apply_operation_wf operation : pres keeps_wf (applyWASMPluginOperation operation).
Proof.
  unfold applyWASMPluginOperation, apply_patch, apply_copy, check_copy_target, apply_delete.
  wf_steps; first [ apply validateObjectDeletion_pres, _ | apply GetObject_pres, _ | apply PutObject_wf | apply DeleteObjectWithOptions_wf ].
Qed.
Hint Resolve apply_operation_wf : pres.

Lemma apply_result_wf `{!WasmHost} plugin source execution : pres keeps_wf (applyWASMPluginResult plugin source execution).
Proof.
  unfold applyWASMPluginResult, replace_embeddings, superseded, apply_operations, store_derived.
  wf_steps; first [ apply PutObject_wf | apply apply_operation_wf ].
Qed.
Hint Resolve apply_result_wf : pres.

Lemma runWASMPluginJob_wf `{!WasmHost} job : pres keeps_wf (runWASMPluginJob job).
Proof.
  unfold runWASMPluginJob, failWASMPluginJob, supersede_job, execute_job, complete_plugin_job, Execute.
  wf_steps; first [ apply GetObject_pres, _ | apply apply_result_wf ].
Qed.
Hint Resolve runWASMPluginJob_wf : pres.

Lemma ImportObjectEmbeddings_wf input : pres keeps_wf (ImportObjectEmbeddings input).
Proof. unfold ImportObjectEmbeddings. wf_steps. Qed.
Hint Resolve ImportObjectEmbeddings_wf : pres.

Lemma UpsertWASMPlugin_wf `{!WasmHost} plugin : pres keeps_wf (UpsertWASMPlugin plugin).
Proof. unfold UpsertWASMPlugin, UpsertWASMPlugin_store. wf_steps. Qed.

(** *** Credentials *)

Lemma encrypt_wf plain : pres keeps_wf (encrypt plain).
Proof. intros w. exact (reflexivity (R := keeps_wf) w). Qed.
Hint Resolve encrypt_wf : pres.

Lemma CreateAccessCredential_wf input : pres keeps_wf (CreateAccessCredential input).
Proof. unfold CreateAccessCredential, randomSecret, UpsertAccessCredential. wf_steps. Qed.

Lemma UpdateAccessCredential_wf id input : pres keeps_wf (UpdateAccessCredential id input).
Proof. unfold UpdateAccessCredential, UpsertAccessCredential, GetAccessCredential. wf_steps. Qed.

Lemma RotateAccessCredential_wf id : pres keeps_wf (RotateAccessCredential id).
Proof. unfold RotateAccessCredential, randomSecret, UpsertAccessCredential, GetAccessCredential. wf_steps. Qed.
End requests.

#[global] Hint Resolve PutObject_wf DeleteObjectWithOptions_wf UpdateObjectProtection_wf UpdateObjectTags_wf RestoreTrashObject_wf
  PurgeTrashObject_wf RunObjectReplication_wf lifecycle_tick_wf ReconcileProviderQuota_wf : pres.
#[global] Hint Resolve CreateMultipartUpload_wf UploadPart_wf CompleteMultipartUpload_wf AbortMultipartUpload_wf CreateMigrationJob_wf
  RunMigrationJob_wf CreateRepairJob_wf RunRepairJob_wf CreateInventoryJob_wf RunInventoryJob_wf : pres.
#[global] Hint Resolve UpsertWASMPlugin_wf runWASMPluginJob_wf ImportObjectEmbeddings_wf CreateAccessCredential_wf
  UpdateAccessCredential_wf RotateAccessCredential_wf : pres.
