(* ===== verification/PluginJobsFacts.v ===== *)
(** Theorems about plugin jobs: the objects a job can reach, and the work it
    leaves undone when its object was replaced. *)
From S2P Require Import Prelude GoTime Sha256 Text Base64 Domain ProviderErrors World Sql StoreProviders StoreObjects StoreEvents Embeddings Operations Placement Demo Providers Hooks Service ServiceFacts Runtime RuntimeFacts Plugins Jobs Protection ProtectionFacts PluginJobs WellFormed.

(** ** The objects a job can reach *)

(** The current objects whose key is not in [P], and their attributes, are as
    they were. *)
Definition untouched_but (P : string * string → Prop) (d d' : DB) : Prop :=
  ∀ k, ¬ P k → db_objects d' !! k = db_objects d !! k ∧ db_attributes d' !! k = db_attributes d !! k.

#[global] Instance untouched_but_preorder P : PreOrder (untouched_but P).
Proof.
  split; [by intros d k _|]. intros d1 d2 d3 H12 H23 k Hk. destruct (H12 k Hk), (H23 k Hk). split; congruence.
Qed.

(** What every step of a job keeps: a well-formed database, and the rows of
    the objects out of reach. *)
Definition confined (P : string * string → Prop) (d d' : DB) : Prop := db_wf d → db_wf d' ∧ untouched_but P d d'.

#[global] Instance confined_preorder P : PreOrder (confined P).
Proof.
  split; [by intros d Hd|]. intros d1 d2 d3 H12 H23 H1. destruct (H12 H1) as [H2 Hu]. destruct (H23 H2) as [H3 Hu'].
  split; [done|]. by etrans.
Qed.

Section reach.
Context `{Env} (P : string * string → Prop).

Local Abbreviation only := (on_db (untouched_but P)).

Lemma untouched_frame {A} (m : M A) : pres (on_db (same index_view)) m → pres only m.
Proof. intros Hm w k _. specialize (Hm w). unfold on_db, same, index_view in Hm. injection Hm as E1 E2. by rewrite E1, E2. Qed.

Lemma PutObject_store_untouched o : P (object_key o) → pres only (PutObject_store o).
Proof.
  intros Hp. unfold PutObject_store. apply pres_bind; [apply _ | apply pres_now, _ |]. intros t.
  apply pres_sql_write; [apply _|]. intros d d'. unfold put_object_row. destruct (db_providers d !! _); [|discriminate].
  intros [= <-] k Hk. rsimpl. rewrite lookup_insert_ne; [done|]. intros <-. apply Hk. by destruct (is_zero _).
Qed.

Lemma DeleteObject_store_untouched b k : P (b, k) → pres only (DeleteObject_store b k).
Proof.
  intros Hp. apply pres_sql_write; [apply _|]. intros d d' [= <-] k' Hk'. unfold delete_object_row.
  destruct (db_objects d !! (b, k)); [|done]. rsimpl. rewrite !lookup_delete_ne by (intros <-; by apply Hk'). done.
Qed.

Lemma PutObjectAttributes_untouched o : P (object_key o) → pres only (PutObjectAttributes o).
Proof.
  intros Hp. unfold PutObjectAttributes. apply pres_bind; [apply _ | apply pres_now, _ |]. intros t.
  apply pres_sql_write; [apply _|]. intros d d'. unfold put_attributes_row. destruct (db_objects d !! _); [|discriminate].
  intros [= <-] k Hk. rsimpl. rewrite lookup_insert_ne; [done|]. intros <-. by apply Hk.
Qed.

Ltac only_steps :=
  repeat first [ pres_step | solve [eauto 2 with pres typeclass_instances] | solve [apply untouched_frame; frame_auto] ].

Lemma index_upload_untouched `{!Pipelines} bucket input existing primary stored :
  P (i_Bucket input, i_Key input) → pres only (index_upload bucket input existing primary stored).
Proof.
  intros Hp. unfold index_upload. do 2 (apply pres_bind; [apply _ | apply pres_now, _ | intros ?]).
  apply pres_bind_post with (λ o, object_key o = (i_Bucket input, i_Key input)); [apply _ | only_steps | by intros w; destruct (b_VersioningEnabled _) |].
  intros o Ho. rewrite <- Ho in Hp. only_steps;
    first [ by apply PutObject_store_untouched | by apply PutObjectAttributes_untouched
          | apply untouched_frame; intros w; destruct (enqueue_objects WASMPluginEventObjectCreated o w) as (E1 & E2 & _);
            unfold on_db, same, index_view; congruence ].
Qed.

Lemma place_upload_untouched input spool : pres only (place_upload input spool).
Proof. apply untouched_frame, place_upload_index. Qed.

Lemma PutObject_untouched `{!Pipelines} input body : P (i_Bucket input, i_Key input) → pres only (PutObject input body).
Proof.
  intros Hp. unfold PutObject, too_large. destruct (_ <? _); [only_steps|].
  apply pres_bind_ok; [apply _ | only_steps |]. intros bucket. do 2 (apply pres_bind; [apply _ | only_steps | intros ?]).
  do 2 (apply pres_bind_post with (λ i, (i_Bucket i, i_Key i) = (i_Bucket input, i_Key input));
    [apply _ | only_steps | intros w; unfold bind, ret; by case_match | intros ? ?]).
  only_steps; [apply place_upload_untouched|]. apply index_upload_untouched. rsimpl. congruence.
Qed.

Lemma delete_untouched b k : P (b, k) → pres only (DeleteObjectWithOptions b k plain_delete).
Proof.
  intros Hp. unfold DeleteObjectWithOptions. cbn [do_VersionID plain_delete String.eqb negb].
  unfold delete_to_marker, delete_to_trash, delete_for_good.
  only_steps; first [ apply validateObjectDeletion_pres, _ | by apply DeleteObject_store_untouched ].
Qed.

(** *** What a job does *)

Local Abbreviation kept := (on_db (confined P)).

Lemma kept_of {A} (m : M A) : pres keeps_wf m → pres only m → pres kept m.
Proof. intros Hwf Hm w Hw. split; [by apply Hwf | apply Hm]. Qed.

Lemma kept_frame {A} (m : M A) : pres keeps_wf m → pres (on_db (same index_view)) m → pres kept m.
Proof. intros. apply kept_of; [done|]. by apply untouched_frame. Qed.

(** A row that was read is that of its key. *)
Lemma kept_found {A} (m : M (result ObjectRecord)) key (k : result ObjectRecord → M A) :
  pres kept m → (∀ w o, db_wf (w_db w) → (m w).1 = Ok o → object_key o = key) →
  (∀ o, object_key o = key → pres kept (k (Ok o))) → (∀ e, pres kept (k (Err e))) → pres kept (bind m k).
Proof.
  intros Hm Hrow Hk He w Hw. unfold bind. pose proof (Hm w Hw) as [Hw1 Hu]. specialize (Hrow w).
  destruct (m w) as [[o|e] w1]; cbn [fst snd] in *.
  - destruct (Hk o (Hrow o Hw eq_refl) w1 Hw1) as [Hw2 Hu2]. split; [done|]. by etrans.
  - destruct (He e w1 Hw1) as [Hw2 Hu2]. split; [done|]. by etrans.
Qed.

Lemma kept_row {A} (m : M (result ObjectRecord)) key (k : ObjectRecord → M (result A)) :
  pres kept m → (∀ w o, db_wf (w_db w) → (m w).1 = Ok o → object_key o = key) →
  (∀ o, object_key o = key → pres kept (k o)) → pres kept (bind_ok m k).
Proof. intros Hm Hrow Hk. eapply kept_found; [done | done | done |]. intros e. apply pres_ret, _. Qed.

Lemma read_row b k w o : db_wf (w_db w) → (GetObject_store b k w).1 = Ok o → object_key o = (b, k).
Proof.
  intros Hwf. unfold GetObject_store, sql_read, sql. destruct (env_db_fault _); [discriminate|].
  destruct (db_objects (w_db w) !! (b, k)) as [row|] eqn:Hrow; cbn; [|discriminate]. intros [= <-].
  by destruct (wf_object _ Hwf _ _ Hrow).
Qed.

Lemma hydrate_key o row : object_key (hydrate o row) = object_key o.
Proof. by destruct row. Qed.

Lemma HydrateObjectAttributes_key o w : object_key (HydrateObjectAttributes o w).1.1 = object_key o.
Proof.
  unfold HydrateObjectAttributes, bind, ret. destruct (sql_read _ w) as [[row|e] w1]; cbn; [apply hydrate_key|done].
Qed.

Lemma hydrated_key o w : object_key (hydrated o w).1 = object_key o.
Proof.
  unfold hydrated, bind, ret. pose proof (HydrateObjectAttributes_key o w) as Hk.
  by destruct (HydrateObjectAttributes o w) as [[o' r] w1].
Qed.

(** *** Operations *)

Context `{!Pipelines}.

Ltac kept_steps tac :=
  repeat first [ pres_step | solve [eauto 2 with pres typeclass_instances] | solve [tac] | solve [apply kept_frame; [wf_steps | frame_auto]] ].

Lemma kept_put input body : P (i_Bucket input, i_Key input) → pres kept (PutObject input body).
Proof. intros. apply kept_of; [apply PutObject_wf | by apply PutObject_untouched]. Qed.

Lemma kept_attributes o : P (object_key o) → pres kept (PutObjectAttributes o).
Proof. intros. apply kept_of; [apply PutObjectAttributes_wf | by apply PutObjectAttributes_untouched]. Qed.

Lemma apply_operation_kept operation :
  P (wo_Bucket operation, wo_Key operation) → pres kept (applyWASMPluginOperation operation).
Proof.
  intros Hp. unfold applyWASMPluginOperation. destruct (_ || _).
  - unfold apply_patch. eapply kept_row; [kept_steps fail | intros w o; apply read_row |]. intros o Ho.
    apply pres_bind_post with (λ h, object_key h.1 = object_key o); [apply _ | kept_steps fail | apply HydrateObjectAttributes_key |].
    intros [o' r] Ho'. cbn [fst] in Ho'. kept_steps fail. apply kept_attributes.
    unfold patch_object. destruct (_ =? _)%string; unfold object_key in *; rsimpl; congruence.
  - unfold apply_copy, apply_delete, check_copy_target.
    kept_steps ltac:(first [ by apply kept_put | apply validateObjectDeletion_pres, _ | apply GetObject_pres, _
                           | apply kept_of; [apply DeleteObjectWithOptions_wf | by apply delete_untouched] ]).
Qed.

Lemma apply_operations_kept plugin operations :
  Forall (λ operation, P (wo_Bucket operation, wo_Key operation)) operations → pres kept (apply_operations plugin operations).
Proof.
  intros Hall. unfold apply_operations. apply pres_for_each_ok; [apply _|]. intros operation Hin.
  pose proof (proj1 (Forall_forall _ _) Hall _ Hin). kept_steps ltac:(by apply apply_operation_kept).
Qed.

(** *** Results *)

Context `{!WasmHost}.

Lemma store_derived_kept plugin source execution derived :
  (∀ k, P (o_Bucket source, k)) → pres kept (store_derived plugin source execution derived).
Proof.
  intros Hp. unfold store_derived. kept_steps ltac:(apply kept_put; unfold derived_input; rsimpl; apply Hp).
Qed.

Lemma lifted_ok {A B} msg (a : A) (k : A → M (result B)) : bind_ok (wrap_err msg (lift (Ok a))) k = k a.
Proof. done. Qed.

Lemma apply_result_kept plugin source execution :
  (∀ k, P (o_Bucket source, k)) →
  (∀ operations, ValidateOperations plugin (MkPluginSource (o_Bucket source) (o_Key source)) (wr_Operations (ex_Result execution)) = Ok operations →
     Forall (λ operation, P (wo_Bucket operation, wo_Key operation)) operations) →
  pres kept (applyWASMPluginResult plugin source execution).
Proof.
  intros Hp Hops. unfold applyWASMPluginResult. destruct (ValidateOperations _ _ _) as [operations|e]; [|intros w; exact (reflexivity (R := kept) w)].
  specialize (Hops _ eq_refl). rewrite lifted_ok.
  eapply kept_row; [kept_steps fail | |].
  - intros w o Hw. unfold wrap_err, bind, ret. cbv beta. pose proof (read_row (o_Bucket source) (o_Key source) w o Hw) as Hrow.
    destruct (GetObject_store (o_Bucket source) (o_Key source) w) as [[row|e] w1]; cbn [fst snd] in *; [|discriminate].
    intros Eo. apply Hrow. congruence.
  - intros current Hc. destruct (replaced source current); [unfold superseded; kept_steps fail|].
    apply pres_bind_post with (λ o, object_key o = object_key current); [apply _ | kept_steps fail | apply hydrated_key |].
    intros o Ho. unfold replace_embeddings, superseded.
    kept_steps ltac:(first [ by apply apply_operations_kept | apply store_derived_kept; done
                           | apply kept_attributes; change (P (object_key o)); rewrite Ho, Hc; apply Hp ]).
Qed.

(** *** Jobs *)

Lemma fail_job_kept job cause permanent : pres kept (failWASMPluginJob job cause permanent).
Proof. unfold failWASMPluginJob. kept_steps fail. Qed.

Lemma supersede_job_kept job message : pres kept (supersede_job job message).
Proof. unfold supersede_job. kept_steps fail. Qed.

Lemma complete_job_kept job execution : pres kept (complete_plugin_job job execution).
Proof. unfold complete_plugin_job. kept_steps fail. Qed.

Lemma Execute_kept module plugin invocation input : pres kept (Execute module plugin invocation input).
Proof. unfold Execute. kept_steps fail. Qed.

Lemma execute_job_kept plugin module job object :
  (∀ k, P (o_Bucket object, k)) →
  (∀ l operations, ValidateOperations plugin (MkPluginSource (o_Bucket object) (o_Key object)) l = Ok operations →
     Forall (λ operation, P (wo_Bucket operation, wo_Key operation)) operations) →
  pres kept (execute_job plugin module job object).
Proof.
  intros Hp Hops. unfold execute_job. apply pres_bind; [apply _ | apply GetObject_pres, _ |].
  intros [[body served]|e]; [|apply fail_job_kept]. apply pres_bind; [apply _ | apply Execute_kept |].
  intros [execution|e]; [|apply fail_job_kept]. apply pres_bind; [apply _ | apply apply_result_kept; [done|]; intros operations; apply Hops |].
  intros [_|e]; [apply complete_job_kept|]. destruct (errors_is _ _); [apply supersede_job_kept | apply fail_job_kept].
Qed.
End reach.

(** The objects in reach of a job: those of the bucket of its object, where it
    stores what it derives, and those the policy of the plugin opens. *)
Definition job_reach (plugin : WASMPlugin) (job : WASMPluginJob) (k : string * string) : Prop :=
  k.1 = wj_Bucket job ∨ in_policy (wp_OperationPolicy plugin) (MkPluginSource (wj_Bucket job) (wj_Key job)) k.

Lemma accepted_in_policy plugin source l operations :
  ValidateOperations plugin source l = Ok operations →
  Forall (λ operation, in_policy (wp_OperationPolicy plugin) source (wo_Bucket operation, wo_Key operation)) operations.
Proof.
  unfold ValidateOperations. destruct l as [|op l]; [intros [= <-]; constructor|]. destruct (_ <? _); [discriminate|].
  intros Hall%validate_operations_ok. destruct Hall as (_ & _ & _ & Hall). eapply Forall_impl; [exact Hall|].
  intros operation (_ & _ & Hobjects). unfold operation_objects in Hobjects. by apply Forall_cons in Hobjects as [[_ Hin] _].
Qed.

Lemma loaded_job_kept `{Env} `{!Pipelines} `{!WasmHost} plugin module job object :
  object_key object = (wj_Bucket job, wj_Key job) → pres (on_db (confined (job_reach plugin job))) (execute_job plugin module job object).
Proof.
  unfold object_key. intros [= Hb Hk]. apply execute_job_kept.
  - intros k. left. by cbn.
  - intros l operations. rewrite Hb, Hk. intros Hall%accepted_in_policy. eapply Forall_impl; [exact Hall|]. intros. by right.
Qed.

(** C9. A job of a plugin, with everything its result asks for, changes no
    current object and no attributes outside its reach: the bucket of the
    object it was queued for, and what the operation policy of the plugin
    opens. It holds however the module behaves and whichever steps fail. *)
Theorem plugin_job_confined `{Env} `{!Pipelines} `{!WasmHost} job plugin w r w' :
  db_wf (w_db w) → db_plugins (w_db w) !! wj_PluginID job = Some plugin →
  runWASMPluginJob job w = (r, w') → untouched_but (job_reach plugin job) (w_db w) (w_db w').
Proof.
  intros Hwf Hplugin Hrun. unfold runWASMPluginJob in Hrun. apply bind_inv in Hrun as (found & w1 & Hfound & Hrun).
  assert (w_db w1 = w_db w ∧ (found = Ok plugin ∨ ∃ e, found = Err e)) as [Hdb Hf].
  { unfold GetWASMPlugin, sql_read, sql in Hfound. rewrite Hplugin in Hfound. destruct (env_db_fault _);
      cbn in Hfound; injection Hfound as <- <-; eauto. }
  rewrite <- Hdb in *. clear Hdb Hfound. change w' with ((r, w').2). rewrite <- Hrun.
  match goal with |- untouched_but _ _ (w_db (?m w1).2) => enough (pres (on_db (confined (job_reach plugin job))) m) as Hm; [by apply Hm|] end.
  destruct Hf as [->|[e ->]]; [|apply fail_job_kept].
  destruct (negb (wp_Enabled plugin)); [apply fail_job_kept|]. destruct (base64std_decode _); [|apply fail_job_kept].
  eapply kept_found; [apply pres_sql_read, _ | intros w2 o; apply read_row | intros o Ho | intros e; apply fail_job_kept].
  apply pres_bind_post with (λ o', object_key o' = object_key o); [apply _ | apply kept_frame; [wf_steps | frame_auto] | apply hydrated_key |].
  intros o' Ho'. destruct (stale_source job o'); [apply supersede_job_kept|]. apply loaded_job_kept. congruence.
Qed.

(** An object, and a plugin that derives another one from it. *)
Definition derived_plugin : WASMPlugin :=
  demo_plugin <| wp_Enabled := true |> <| wp_ModuleBase64 := "AAAA" |>.

Definition plugin_source_object : ObjectRecord :=
  zero_ObjectRecord <| o_Bucket := "b" |> <| o_Key := "k" |> <| o_ProviderAccountID := "p1" |> <| o_RemoteBucket := "remote" |>
    <| o_RemoteKey := "hi" |> <| o_Size := 2 |> <| o_ChecksumSHA256 := "sum" |> <| o_UpdatedAt := demo_time |>.

Definition plugin_job_row : WASMPluginJob :=
  zero_WASMPluginJob <| wj_ID := "job" |> <| wj_PluginID := "thumbs" |> <| wj_Bucket := "b" |> <| wj_Key := "k" |>
    <| wj_Status := WASMPluginStatusRunning |> <| wj_SourceChecksum := "sum" |> <| wj_Attempts := 1 |> <| wj_MaxAttempts := 3 |>.

Definition plugin_db : DB :=
  (demo_db demo_bucket) <| db_objects := {[ ("b", "k") := plugin_source_object ]} |> <| db_plugins := {[ "thumbs" := derived_plugin ]} |>
    <| db_jobs := {[ "job" := plugin_job_row ]} |>.

Definition run_demo_job : result unit * World :=
  let E := demo_env in let H := demo_host in runWASMPluginJob plugin_job_row (start plugin_db).

(** The job stores its derived object next to its source. *)
Lemma plugin_job_confined_witness :
  untouched_but (job_reach derived_plugin plugin_job_row) plugin_db (w_db run_demo_job.2)
  ∧ run_demo_job.1 = Ok tt ∧ is_Some (db_objects (w_db run_demo_job.2) !! ("b", "k.thumb")).
Proof.
  split_and!.
  - refine (@plugin_job_confined demo_env plugin_pipelines demo_host plugin_job_row derived_plugin (start plugin_db) run_demo_job.1 run_demo_job.2 _ eq_refl _).
    + apply db_wfb_sound. vm_compute. reflexivity.
    + unfold run_demo_job. by destruct (runWASMPluginJob _ _).
  - vm_compute. reflexivity.
  - vm_compute. eexists. reflexivity.
Defined.
