(* ===== verification/HttpServer.v ===== *)
(** The HTTP server ([httpserver/http.go]): which handler a request reaches, the
    security headers, the readiness report ([app/readiness.go]) and the metrics
    ([app/metrics.go], the snapshots of [app/workers.go]). *)
From S2P Require Import Prelude GoTime Text Url Http HttpDate Domain ProviderErrors World Sql StoreProviders StoreObjects StoreEvents Providers S3Request Hooks Service Runtime Plugins Jobs Migration Repair Inventory Multipart Configuration Access SigV4 PostPolicy Authority Gateway GatewayFacts Uppy AdminAuth Admin AdminFacts Demo ServiceFacts RuntimeFacts.

(** ** Readiness *)

Record ReadinessReport : Type := MkReadinessReport { rr_Status : string; rr_Checks : gmap string string }.

(** [errors.Join] of several errors *)
Definition join_errors (failures : list error) : option error :=
  match failures with [] => None | e :: rest => Some (fold_left ErrJoin rest e) end.

(** A check by its name: what is reported, and the failure if it is one. *)
Definition checked (name : string) {A} (r : result A) (ok : A → string) : (string * string) * list error :=
  match r with
  | Ok a => ((name, ok a), [])
  | Err e => ((name, error_text e), [e])
  end.

Section readiness.
Context `{Env}.
Variable coordinator_ping : result unit. (* [NoopCoordinator] answers at once *)

Definition Ping : M (result unit) := sql_read (λ _, Ok tt).

(** The directory is probed by a file of its own; that it is no directory is
    one of the failures of the first operation. *)
Definition writableDirectory : M (result unit) :=
  let? _ := file_op in
  let! created := file_op in
  match created with
  | Err e => ret_err (ErrWrap "directory is not writable" e)
  | Ok _ =>
      let! closed := file_op in
      match closed with
      | Err e => let! _ := file_op in ret_err (ErrWrap "close readiness probe" e)
      | Ok _ =>
          let! removed := file_op in
          ret (match removed with Ok _ => Ok tt | Err e => Err (ErrWrap "remove readiness probe" e) end)
      end
  end.

Definition providers_found (providers : list ProviderAccount) : string :=
  match providers with
  | [] => "0 enabled (configuration required)"
  | _ => itoa (Z.of_nat (List.length providers)) +:+ " enabled"
  end.

Definition Readiness : M (ReadinessReport * option error) :=
  let! store := Ping in
  let! providers := ListProviders true in
  let! staging := writableDirectory in
  let '(check1, fail1) := checked "store" store (λ _, "ok"%string) in
  let '(check2, fail2) := checked "coordination" coordinator_ping (λ _, "ok"%string) in
  let '(check3, fail3) := checked "providers" providers providers_found in
  let '(check4, fail4) := checked "multipart_staging" staging (λ _, "ok"%string) in
  let failures := (ErrWrap "store" <$> fail1) ++ (ErrWrap "coordination" <$> fail2) ++ (ErrWrap "providers" <$> fail3)
                    ++ (ErrWrap "multipart staging" <$> fail4) in
  let failed := join_errors failures in
  ret (MkReadinessReport (match failed with Some _ => "not_ready" | None => "ready" end)%string
         (list_to_map [check1; check2; check3; check4]), failed).
End readiness.

(** ** Metrics *)

Record workerRuntimeSnapshot : Type := MkWorkerRuntimeSnapshot {
  wk_Name : string; wk_Failures : Z; wk_LastError : string; wk_LastSuccess : Time }.

Definition worker_names : list string :=
  ["hooks"; "inventory"; "lifecycle"; "migration"; "quota"; "repair"; "replication"; "wasm-plugins"].

(** What the workers have reported, the last report first. *)
Definition reports (l : list (string * option error * Time)) (name : string) : list (option error * Time) :=
  omap (λ '(n, e, t), if (n =? name)%string then Some (e, t) else None) l.

Definition worker_snapshot (l : list (string * option error * Time)) (name : string) : workerRuntimeSnapshot :=
  let own := reports l name in
  MkWorkerRuntimeSnapshot name
    (Z.of_nat (List.length (filter (λ r, is_Some (r.1)) own)))
    (match own with (Some e, _) :: _ => error_text e | _ => "" end)
    (match filter (λ r, r.1 = None) own with (_, t) :: _ => t | [] => zero_time end).

Definition workerRuntimeSnapshots (l : list (string * option error * Time)) : list workerRuntimeSnapshot :=
  worker_snapshot l <$> sort_strings (remove_dups (worker_names ++ ((λ r, r.1.1) <$> l))).

Definition line (s : string) : string := s +:+ String "010" "".

Definition metric_header (name help kind : string) : string :=
  line ("# HELP " +:+ name +:+ " " +:+ help) +:+ line ("# TYPE " +:+ name +:+ " " +:+ kind).

Definition provider_gauge (name : string) (value : ProviderAccount → Z) (p : ProviderAccount) : string :=
  line (name +:+ "{provider=" +:+ quoted (p_ID p) +:+ ",kind=" +:+ quoted (p_Kind p) +:+ "} " +:+ itoa (value p)).

Definition usage_lines (row : ProviderBucketUsage) : string :=
  let labels := "{provider=" +:+ quoted (bu_ProviderAccountID row) +:+ ",bucket=" +:+ quoted (bu_Bucket row) +:+ "} " in
  line ("bucketmux_bucket_provider_objects" +:+ labels +:+ itoa (bu_ObjectCount row))
  +:+ line ("bucketmux_bucket_provider_bytes" +:+ labels +:+ itoa (bu_Bytes row)).

(** The statuses counted, in order. *)
Definition writeStatusCounts (metric help : string) (statuses : list string) : string :=
  metric_header metric help "gauge"
  +:+ String.concat "" ((λ status, line (metric +:+ "{status=" +:+ quoted status +:+ "} "
                                           +:+ itoa (Z.of_nat (count_occ string_dec statuses status))))
                          <$> sort_strings (remove_dups statuses)).

(** [Time.Unix] *)
Definition unix_seconds (t : Time) : Z := t `div` second - 62135596800.

Definition worker_lines (s : workerRuntimeSnapshot) : string :=
  let labels := "{worker=" +:+ quoted (wk_Name s) +:+ "} " in
  line ("bucketmux_worker_failures_total" +:+ labels +:+ itoa (wk_Failures s))
  +:+ line ("bucketmux_worker_last_success_timestamp_seconds" +:+ labels
              +:+ itoa (if is_zero (wk_LastSuccess s) then 0 else unix_seconds (wk_LastSuccess s))).

Section metrics.
Context `{Env}.

(** A listing whose error is dropped. *)
Definition listed_or_none {A} (m : M (result (list A))) : M (list A) :=
  let! r := m in ret (match r with Ok l => l | Err _ => [] end).

Definition PrometheusMetrics : M string :=
  let! providers := listed_or_none (ListProviders false) in
  let! usage := listed_or_none ListProviderBucketUsage in
  let! migrations := listed_or_none (ListMigrationJobs 100) in
  let! deliveries := listed_or_none (ListHookDeliveries 200) in
  let! inventories := listed_or_none (ListInventoryJobs 100) in
  let! repairs := listed_or_none (ListRepairJobs 100) in
  let! jobs := listed_or_none (ListWASMPluginJobs 200) in
  let! trash := listed_or_none (ListTrashObjects 1000) in
  λ w,
  let gauges name value := String.concat "" (provider_gauge name value <$> providers) in
  (metric_header "bucketmux_provider_used_bytes" "Indexed bytes assigned to a provider." "gauge"
   +:+ gauges "bucketmux_provider_used_bytes" p_UsedBytes
   +:+ metric_header "bucketmux_provider_reserved_bytes" "Bytes held by in-flight atomic reservations." "gauge"
   +:+ gauges "bucketmux_provider_reserved_bytes" p_ReservedBytes
   +:+ metric_header "bucketmux_provider_capacity_bytes" "Configured provider capacity in bytes." "gauge"
   +:+ gauges "bucketmux_provider_capacity_bytes" p_CapacityBytes
   +:+ metric_header "bucketmux_bucket_provider_objects" "Indexed objects per provider and bucket." "gauge"
   +:+ metric_header "bucketmux_bucket_provider_bytes" "Indexed bytes per provider and bucket." "gauge"
   +:+ String.concat "" (usage_lines <$> usage)
   +:+ writeStatusCounts "bucketmux_migration_jobs" "Migration jobs by status." (mj_Status <$> migrations)
   +:+ writeStatusCounts "bucketmux_hook_deliveries" "Webhook deliveries by status." (hd_Status <$> deliveries)
   +:+ writeStatusCounts "bucketmux_inventory_jobs" "Inventory jobs by status." (ij_Status <$> inventories)
   +:+ writeStatusCounts "bucketmux_repair_jobs" "Integrity scan and repair jobs by status." (rj_Status <$> repairs)
   +:+ writeStatusCounts "bucketmux_wasm_plugin_jobs" "WASM processing jobs by status." (wj_Status <$> jobs)
   +:+ metric_header "bucketmux_trash_objects" "Objects retained in recoverable trash." "gauge"
   +:+ line ("bucketmux_trash_objects " +:+ itoa (Z.of_nat (List.length trash)))
   +:+ metric_header "bucketmux_worker_failures_total" "Durable worker infrastructure failures." "counter"
   +:+ metric_header "bucketmux_worker_last_success_timestamp_seconds" "Last successful durable work completion." "gauge"
   +:+ String.concat "" (worker_lines <$> workerRuntimeSnapshots (w_workers w)), w).
End metrics.

(** ** Routing *)

(** [http.cleanPath]: the slash at the end stays. *)
Definition clean_url_path (p : string) : string :=
  let p := if has_prefix p "/" then p else String "/" p in
  let np := path_clean p in
  if has_suffix p "/" && negb (np =? "/")%string then np +:+ "/" else np.

Inductive Target : Type := HealthTarget | ReadyTarget | MetricsTarget | UppyTarget | AdminTarget | S3Target.

(** The pattern a path matches: an exact one before the subtrees. *)
Definition mux_match (admin : bool) (path : string) : Target :=
  if (path =? "/healthz")%string then HealthTarget
  else if (path =? "/readyz")%string then ReadyTarget
  else if (path =? "/metrics")%string then MetricsTarget
  else if has_prefix path "/uppy/s3/" then UppyTarget
  else if admin && ((path =? "/admin")%string || has_prefix path "/admin/") then AdminTarget
  else S3Target.

(** Segments are compared decoded; what does not decode stands for itself. *)
Definition decoded_path (escaped : string) : string :=
  string_join "/" ((λ segment, default segment (path_unescape segment)) <$> string_split "/" escaped).

(** [http.ServeMux]: a path that is not clean, or the name of a subtree without
    its slash, is redirected. *)
Inductive Routed : Type := RouteTo (t : Target) | RouteRedirect (path : string).

Definition mux_route (admin : bool) (r : Request) : Routed :=
  let escaped := rq_EscapedPath r in
  let path := if (rq_Method r =? "CONNECT")%string then escaped else clean_url_path escaped in
  if (decoded_path path =? "/uppy/s3")%string then RouteRedirect (clean_url_path (rq_Path r) +:+ "/")
  else if negb (path =? escaped)%string then RouteRedirect path
  else RouteTo (mux_match admin (decoded_path path)).

Definition securityHeaders (tls : bool) (r : Request) : gmap string string :=
  let headers : gmap string string :=
    {[ "X-Content-Type-Options" := "nosniff"; "Referrer-Policy" := "no-referrer"; "X-Frame-Options" := "DENY";
       "Permissions-Policy" := "camera=(), microphone=(), geolocation=()";
       "Content-Security-Policy" := "default-src 'self'; script-src 'self' 'unsafe-inline'; style-src 'self' 'unsafe-inline'; img-src 'self' data: https://cdn.jsdelivr.net; connect-src 'self'; frame-ancestors 'none'; base-uri 'none'; form-action 'self'" ]} in
  if tls || (rq_header r "X-Forwarded-Proto" =? "https")%string
  then <["Strict-Transport-Security" := "max-age=31536000; includeSubDomains"]> headers else headers.

(** ** The server *)

Inductive ServerBody : Type :=
| ServedRedirect (path : string)
| ServedHealth (time : string)
| ServedReport (status : Z) (report : ReadinessReport)
| ServedMetrics (text : string)
| ServedUppy (answer : UppyResponse)
| ServedAdmin (answer : AdminResponse)
| ServedS3 (answer : Response).

(** What is answered, with the security headers below those of the handler. *)
Record ServerResponse : Type := MkServerResponse { sr_Header : gmap string string; sr_Body : ServerBody }.

Section server.
Context `{Env} `{!Pipelines} `{!WasmHost} `{!HttpHost} `{!PolicyHost} `{!OidcHost} `{!AdminHost} `{!UppyHost}.
Variable config : Configuration.
Variable coordinator_ping : result unit.
Variable fuel : nat. (* of the administration's quota reconciliation *)

Definition serve_target (t : Target) (tls : bool) (r : Request) (body : Reader) : M ServerBody :=
  match t with
  | HealthTarget => let! t := now in ret (ServedHealth (rfc3339 t))
  | ReadyTarget => let! report := Readiness coordinator_ping in
                   ret (ServedReport (match report.2 with Some _ => 503 | None => 200 end) report.1)
  | MetricsTarget => let! text := PrometheusMetrics in ret (ServedMetrics text)
  | UppyTarget => let! a := uppy_ServeHTTP tls r body in ret (ServedUppy a)
  | AdminTarget => let! a := admin_ServeHTTP config tls fuel r body in ret (ServedAdmin a)
  | S3Target => let! a := ServeHTTP NewHandler r body in ret (ServedS3 a)
  end.

(** [NewHTTPHandler] *)
Definition NewHTTPHandler (tls : bool) (r : Request) (body : Reader) : M ServerResponse :=
  let! answer := (match mux_route (ad_Enabled (c_Admin config)) r with
                  | RouteRedirect path => ret (ServedRedirect path)
                  | RouteTo t => serve_target t tls r body
                  end) in
  ret (MkServerResponse (securityHeaders tls r) answer).
End server.

(** ** What the routes do *)

Definition path_request (path : string) : Request := MkRequest "GET" "localhost" path path "" ∅ 0.

Example route_admin : mux_route true (path_request "/admin/api/buckets") = RouteTo AdminTarget. Proof. vm_compute. reflexivity. Qed.
Example route_bucket : mux_route false (path_request "/admin/api/buckets") = RouteTo S3Target. Proof. vm_compute. reflexivity. Qed.
Example route_uppy : mux_route true (path_request "/uppy/s3") = RouteRedirect "/uppy/s3/". Proof. vm_compute. reflexivity. Qed.

(** A key with an empty or a dot element never reaches the gateway: the client
    is sent to another key. *)
Lemma unclean_key_redirected :
  mux_route true (path_request "/photos/2024//a.txt") = RouteRedirect "/photos/2024/a.txt"
  ∧ mux_route true (path_request "/photos/./a.txt") = RouteRedirect "/photos/a.txt".
Proof. split; vm_compute; reflexivity. Qed.

(** Buckets of these names are out of reach. *)
Lemma shadowed_buckets :
  mux_route true (path_request "/metrics") = RouteTo MetricsTarget ∧ mux_route true (path_request "/admin/photo.jpg") = RouteTo AdminTarget
  ∧ mux_route true (path_request "/uppy/s3/photo.jpg") = RouteTo UppyTarget.
Proof. split_and!; vm_compute; reflexivity. Qed.

(** ** Who can change anything *)

Section authority.
Context `{Env} `{!Pipelines} `{!WasmHost} `{!HttpHost} `{!PolicyHost} `{!OidcHost} `{!AdminHost} `{!UppyHost}.
Variable config : Configuration.
Variable coordinator_ping : result unit.
Variable fuel : nat.

Lemma untouched_file_op : pres untouched file_op.
Proof. intros w. unfold file_op, untouched. by rsimpl. Qed.
#[local] Hint Resolve untouched_file_op : pres.

Lemma Readiness_untouched : pres untouched (Readiness coordinator_ping).
Proof. unfold Readiness, Ping, ListProviders, writableDirectory. pres_auto. Qed.

Lemma listed_untouched {A B} (m : M (result (list A))) (k : list A → M B) :
  pres untouched m → (∀ l, pres untouched (k l)) → pres untouched (let! l := listed_or_none m in k l).
Proof. intros Hm Hk. unfold listed_or_none. pres_auto. Qed.

Lemma PrometheusMetrics_untouched : pres untouched PrometheusMetrics.
Proof.
  unfold PrometheusMetrics.
  do 8 (apply listed_untouched;
        [unfold ListProviders, ListProviderBucketUsage, ListMigrationJobs, ListHookDeliveries, ListInventoryJobs, ListRepairJobs,
           ListWASMPluginJobs, ListTrashObjects; solve [pres_auto]|intros ?]).
  intros w. cbv zeta. reflexivity.
Qed.

Lemma authorised_dec r body w : authorised NewHandler r body w ∨ ¬ authorised NewHandler r body w.
Proof.
  unfold authorised. destruct (form_upload r) as [bucket|].
  - destruct (decode_form _ _) as [[values [file|]]|] eqn:Hd; [|right; intros (?&?&?&?&_); congruence..].
    destruct (AuthorizePostPolicy NewHandler (<["key" := trim_left_byte "/" (replace_all (field (form_fields bucket values) "key") "${filename}" (ff_Filename file))]>
      (form_fields bucket values)) (ff_Size file) w) as [[principal|e] w1] eqn:Ha.
    + left. exists values, file, principal. split; [done|]. cbv zeta. by rewrite Ha.
    + right. intros (values' & file' & principal & [= <- <-] & Hp). cbv zeta in Hp. rewrite Ha in Hp. discriminate.
  - destruct (default _ _) as [bucket key]. destruct (Authenticate NewHandler r w).1 as [principal|]; [|right; by intros (? & ? & _)].
    destruct (principalAllows principal (s3PermissionForRequest r bucket key) bucket key) eqn:Hp; [left; by exists principal|].
    right. intros (principal' & [= <-] & Hp'). congruence.
Qed.

(** Who may change something with a request: whoever is entitled to send it to
    the gateway, at a path that no probe has; at a path of the helper, whoever
    holds the configured key; and at a path of the administration, if it is
    enabled, whoever its own rules allow. *)
Definition entitled (tls : bool) (r : Request) (body : Reader) (w w' : World) : Prop :=
  let path := decoded_path (rq_EscapedPath r) in
  (path ∉ ["/healthz"; "/readyz"; "/metrics"]) ∧
  (entitled_request r body w
   ∨ (∃ rest, path = "/uppy/s3/" +:+ rest) ∧ (∃ principal, speaks_for false w r principal)
   ∨ ad_Enabled (c_Admin config) = true ∧ (path = "/admin" ∨ ∃ rest, path = "/admin/" +:+ rest) ∧ change_allowed config tls r w w').

(** What the paths have in common that reach a handler. *)
Definition target_path (t : Target) (path : string) : Prop :=
  match t with
  | HealthTarget => path = "/healthz"
  | ReadyTarget => path = "/readyz"
  | MetricsTarget => path = "/metrics"
  | UppyTarget => (path ∉ ["/healthz"; "/readyz"; "/metrics"]) ∧ ∃ rest, path = "/uppy/s3/" +:+ rest
  | AdminTarget => ad_Enabled (c_Admin config) = true ∧ (path ∉ ["/healthz"; "/readyz"; "/metrics"])
                   ∧ (path = "/admin" ∨ ∃ rest, path = "/admin/" +:+ rest)
  | S3Target => path ∉ ["/healthz"; "/readyz"; "/metrics"]
  end.

Lemma mux_route_target r t :
  mux_route (ad_Enabled (c_Admin config)) r = RouteTo t → target_path t (decoded_path (rq_EscapedPath r)).
Proof.
  unfold mux_route. cbv zeta. set (path := if (rq_Method r =? "CONNECT")%string then _ else _).
  destruct (_ =? "/uppy/s3")%string; [done|]. destruct (String.eqb_spec path (rq_EscapedPath r)) as [->|]; [|done]. cbn [negb].
  intros [= <-]. generalize (decoded_path (rq_EscapedPath r)). intros p. unfold mux_match.
  destruct (String.eqb_spec p "/healthz") as [|Hp1]; [done|]. destruct (String.eqb_spec p "/readyz") as [|Hp2]; [done|].
  destruct (String.eqb_spec p "/metrics") as [|Hp3]; [done|].
  assert (p ∉ ["/healthz"; "/readyz"; "/metrics"]) as Hprobe
    by (rewrite !elem_of_cons; intros [?|[?|[?|[]%elem_of_nil]]]; congruence).
  destruct (has_prefix p "/uppy/s3/") eqn:Hu; [apply has_prefix_spec in Hu; by split|].
  destruct (ad_Enabled _ && _) eqn:Ha; [|done]. apply andb_true_iff in Ha as [Ha Hp].
  cbn [target_path]. split; [done|]. split; [done|]. apply orb_true_iff in Hp as [Hp|Hp]; [left; by apply String.eqb_eq|right; by apply has_prefix_spec].
Qed.

Lemma Authorize_speaks r w : (Authorize uppy_auth r w).1 = true → ∃ principal, speaks_for false w r principal.
Proof.
  unfold Authorize, bind. change uppy_auth with (authenticator false).
  pose proof (Authenticate_speaks false r w) as Hs. destruct (Authenticate _ r w) as [[principal|] w1]; [|done].
  intros _. exists principal. by apply Hs.
Qed.

End authority.

Definition no_uppy_host : UppyHost :=
  {| uh_params := λ _, refuse "json"; uh_sign := λ _, refuse "json"; uh_multipart := λ _, refuse "json";
     uh_part := λ _, refuse "json"; uh_complete := λ _, refuse "json"; uh_url := λ _, refuse "url" |}.

