(* ===== verification/HandlersWellFormed.v ===== *)
(** That every request of the gateway and of the administration API keeps the
    database well-formed, handler by handler. *)
From S2P Require Import Prelude GoTime Sha256 Json Text Url Http Domain ProviderErrors World Sql StoreProviders Placement Demo StoreObjects StoreEvents Embeddings Access SigV4 PostPolicy Providers S3Request Hooks Service ServiceFacts Runtime Plugins Configuration Onboarding Jobs Migration Repair Inventory Multipart Protection PluginJobs Gateway GatewayFacts Lifecycle AdminAuth Admin AdminFacts WellFormed.

(** ** The gateway *)

Section gateway.
Context `{Env} `{!Pipelines} `{!HttpHost} `{!PolicyHost}.
Variable auth : Authenticator.
Hypothesis Hresolver : quiet_resolver auth.

Lemma untouched_wf {A} (m : M A) : pres untouched m → pres keeps_wf m.
Proof. intros Hm w Hwf. destruct (Hm w) as (Hdb & _). by rewrite Hdb. Qed.

Lemma Authenticate_wf r : pres keeps_wf (Authenticate auth r).
Proof. by apply untouched_wf, Authenticate_untouched. Qed.

Lemma AuthorizePostPolicy_wf fields size : pres keeps_wf (AuthorizePostPolicy auth fields size).
Proof. by apply untouched_wf, AuthorizePostPolicy_untouched. Qed.

Lemma AuthorizeAction_wf r permission bucket key : pres keeps_wf (AuthorizeAction auth r permission bucket key).
Proof. unfold AuthorizeAction. apply pres_bind; [apply _|apply Authenticate_wf|]. intros. wf_steps. Qed.
Hint Resolve Authenticate_wf AuthorizePostPolicy_wf AuthorizeAction_wf : pres.

Lemma GetObject_wf b k : pres keeps_wf (GetObject b k).
Proof. apply GetObject_pres, _. Qed.
Hint Resolve GetObject_wf : pres.

Lemma updated_wf {A} status (m : M (result A)) : pres keeps_wf m → pres keeps_wf (let! r := m in ret (match r with Ok _ => status_only status | Err e => writeObjectError e end)).
Proof. intros Hm. wf_steps. Qed.

Lemma save_bucket_wf bucket : pres keeps_wf (save_bucket bucket).
Proof. unfold save_bucket. wf_steps. Qed.
Hint Resolve save_bucket_wf : pres.

Lemma putBucketVersioning_wf bucket body : pres keeps_wf (putBucketVersioning bucket body).
Proof. unfold putBucketVersioning. wf_steps. Qed.

Lemma putBucketObjectLock_wf bucket body : pres keeps_wf (putBucketObjectLock bucket body).
Proof. unfold putBucketObjectLock. wf_steps. Qed.

Lemma ListObjectsAfter_wf bucket prefix startAfter lim : pres keeps_wf (ListObjectsAfter bucket prefix startAfter lim).
Proof. unfold ListObjectsAfter, ensureBucket. wf_steps. Qed.
Hint Resolve ListObjectsAfter_wf : pres.

Lemma all_notifications_wf bucket targets : pres keeps_wf (all_notifications bucket targets).
Proof. induction targets as [|t targets IH]; simpl; unfold target_notifications; wf_steps; apply IH. Qed.
Hint Resolve all_notifications_wf : pres.

(** The notifications of a bucket are replaced one row at a time. *)
Lemma notifications_frame bucket l r d d' :
  fold_left (insert_notification bucket) l r = Ok d' → (∀ d0, r = Ok d0 → same wf_tables d d0) → same wf_tables d d'.
Proof.
  revert r. induction l as [|n l IH]; intros r; simpl; [auto|]. intros Hl Hr. eapply IH; [exact Hl|]. intros d0.
  unfold insert_notification. destruct r as [d1|e]; [|discriminate]. specialize (Hr d1 eq_refl).
  simpl. repeat case_match; try discriminate; intros E; injection E as <-; exact Hr.
Qed.

Lemma ReplaceBucketNotifications_wf bucket l : pres keeps_wf (ReplaceBucketNotifications bucket l).
Proof.
  apply pres_wf_other, pres_sql_write; [apply _|]. intros d d' Hd. apply (notifications_frame _ _ _ _ _ Hd).
  intros d0 E. injection E as E. rewrite <- E. reflexivity.
Qed.
Hint Resolve ReplaceBucketNotifications_wf : pres.

Lemma putBucketNotification_wf bucket body : pres keeps_wf (putBucketNotification bucket body).
Proof. unfold putBucketNotification. wf_steps. Qed.

Lemma delete_all_wf principal bucket quiet l : pres keeps_wf (delete_all principal bucket quiet l).
Proof. induction l as [|x l IH]; simpl; unfold delete_one, DeleteObject; wf_steps; apply IH. Qed.
Hint Resolve delete_all_wf : pres.

Lemma deleteObjects_wf r body bucket : pres keeps_wf (deleteObjects auth r body bucket).
Proof. unfold deleteObjects. wf_steps. Qed.

Lemma copyObject_wf r bucket key : pres keeps_wf (copyObject auth r bucket key).
Proof. unfold copyObject. wf_steps. Qed.

Lemma getObject_wf r bucket key : pres keeps_wf (getObject r bucket key).
Proof. unfold getObject. wf_steps. Qed.

Lemma postObject_wf r body bucket : pres keeps_wf (postObject auth r body bucket).
Proof. unfold postObject. wf_steps. Qed.
Hint Resolve putBucketVersioning_wf putBucketObjectLock_wf putBucketNotification_wf deleteObjects_wf copyObject_wf getObject_wf
  postObject_wf : pres.

Lemma handleBucketOperation_wf r body bucket : pres keeps_wf (handleBucketOperation auth r body bucket).
Proof.
  unfold handleBucketOperation, listObjects, createBucket. wf_steps.
Qed.

Lemma handleObjectOperation_wf r body bucket key : pres keeps_wf (handleObjectOperation auth r body bucket key).
Proof.
  unfold handleObjectOperation, createMultipartUpload, completeMultipartUpload, uploadPart, abortMultipartUpload, putObjectTagging,
    putObjectRetention, putObjectLegalHold, putObject, listObjects, deleteObjectTagging, deleteObject, headObject, updated.
  wf_steps; apply HeadObject_pres, _.
Qed.

Hint Resolve handleBucketOperation_wf handleObjectOperation_wf : pres.

Lemma handle_wf r body : pres keeps_wf (handle auth r body).
Proof. unfold handle, serve. wf_steps. Qed.
Hint Resolve handle_wf : pres.

Lemma ServeHTTP_wf r body : pres keeps_wf (ServeHTTP auth r body).
Proof. unfold ServeHTTP. wf_steps. Qed.
End gateway.

(** ** The administration API *)

Section admin.
Context `{Env} `{!Pipelines} `{!WasmHost} `{!OidcHost} `{!AdminHost}.
Variable config : Configuration.
Variable tls : bool.
Variable fuel : nat.

(** What the account of a request has been through: it is stored without
    reservations. *)
Lemma sealed_account_wf account secretKey (k : ProviderAccount → M (result unit)) :
  p_ReservedBytes account = 0 → (∀ p, p_ReservedBytes p = 0 → pres keeps_wf (k p)) →
  pres keeps_wf (let? account := (if (secretKey =? "")%string then let! account := stored_secret account in ret_ok account
                   else let? sealed := encrypt secretKey in ret_ok (account <| p_SecretEncrypted := sealed |>)) in k account).
Proof.
  intros Hr Hk w. destruct (secretKey =? "")%string.
  - unfold bind_ok at 1, stored_secret. unfold bind at 1 2 3. assert (pres keeps_wf (GetProvider (p_ID account))) as Hget by wf_steps.
    specialize (Hget w). destruct (GetProvider (p_ID account) w) as [[p|e] w1]; cbn [ret ret_ok fst snd] in *; (etransitivity; [exact Hget|]);
      apply Hk; by rsimpl.
  - unfold bind_ok at 1 2. unfold bind at 1 2. pose proof (encrypt_wf secretKey w) as Hs.
    destruct (encrypt secretKey w) as [[sealed|e] w1]; cbn [ret ret_ok ret_err fst snd] in *; [|done].
    etransitivity; [exact Hs|]. apply Hk. by rsimpl.
Qed.

Lemma UpsertProviderFromAdmin_wf account secretKey :
  p_ReservedBytes account = 0 → pres keeps_wf (UpsertProviderFromAdmin account secretKey).
Proof.
  intros Hr. unfold UpsertProviderFromAdmin. apply sealed_account_wf; [done|]. intros p Hp.
  unfold ValidateProvider. wf_steps; by apply UpsertProvider_wf.
Qed.
Hint Resolve encrypt_wf create_job_wf RepairObject_wf restoreLatest_wf ListObjectsAfter_wf : pres.

Lemma RunLifecycleOnce_wf t : pres keeps_wf (RunLifecycleOnce fuel t).
Proof. unfold RunLifecycleOnce. wf_steps; first [apply apply_rules_wf | apply purge_pages_wf; wf_steps]. Qed.
Hint Resolve RunLifecycleOnce_wf : pres.

Lemma UpsertHookFromAdmin_wf parse_url hook : pres keeps_wf (UpsertHookFromAdmin parse_url hook).
Proof. unfold UpsertHookFromAdmin. wf_steps. Qed.
Hint Resolve UpsertHookFromAdmin_wf : pres.

Lemma TestProviderConnection_wf id : pres keeps_wf (TestProviderConnection id).
Proof. unfold TestProviderConnection, ValidateProvider. wf_steps. Qed.
Hint Resolve TestProviderConnection_wf : pres.

Lemma audit_wf r action bucket key target detail : pres keeps_wf (audit r action bucket key target detail).
Proof. unfold audit, RecordAuditEvent. wf_steps. Qed.
Hint Resolve audit_wf : pres.

Lemma unchanged_wf {A} (m : M A) : pres unchanged m → pres keeps_wf m.
Proof. intros Hm w Hwf. specialize (Hm w). unfold unchanged, on_db, same in Hm. by rewrite Hm. Qed.

Lemma index_wf message : pres keeps_wf (index config message).
Proof. apply unchanged_wf, index_unchanged. Qed.
Hint Resolve index_wf : pres.

Lemma changing_wf {A} success status code (m : M (result A)) show : pres keeps_wf m → pres keeps_wf (changing success status code m show).
Proof. intros Hm. unfold changing. wf_steps. Qed.

Lemma removing_wf status code (m : M (result unit)) after : pres keeps_wf m → pres keeps_wf after → pres keeps_wf (removing status code m after).
Proof. intros Hm Ha. unfold removing. wf_steps. Qed.

Lemma form_change_wf failed (m : M (result unit)) after : pres keeps_wf m → pres keeps_wf after → pres keeps_wf (form_change config failed m after).
Proof. intros Hm Ha. unfold form_change. wf_steps. Qed.

Lemma DeleteHook_wf id : pres keeps_wf (DeleteHook id).
Proof. unfold DeleteHook. wf_steps. Qed.
Hint Resolve DeleteHook_wf : pres.

Lemma form_account_wf form secretKey :
  pres keeps_wf (UpsertProviderFromAdmin (set p_Name (default_text (p_ID (form_provider form))) (form_provider form)) secretKey).
Proof. apply UpsertProviderFromAdmin_wf. unfold form_provider. by rsimpl. Qed.

Lemma sent_account_wf req secretKey : pres keeps_wf (UpsertProviderFromAdmin (provider_toDomain req) secretKey).
Proof. apply UpsertProviderFromAdmin_wf. unfold provider_toDomain. by rsimpl. Qed.
Hint Resolve form_account_wf sent_account_wf : pres.

(** An operation of a handler, opened down to the ones there is a lemma for. *)
Ltac handler := repeat first [pres_step | solve [eauto 3 with pres typeclass_instances] | progress unfold reading, only, get_or_post, with_json, credential_request
  | apply changing_wf | apply removing_wf | apply form_change_wf ].

(** *** Pages *)

Lemma createProviderFromForm_wf r body : pres keeps_wf (createProviderFromForm config r body).
Proof.
  unfold createProviderFromForm. destruct (ah_form r body) as [form|e]; [|apply index_wf]. cbv zeta.
  destruct (_ || _); [apply index_wf|]. apply form_change_wf; [apply form_account_wf|wf_steps].
Qed.

Lemma uploadObjectFromForm_wf r body : pres keeps_wf (uploadObjectFromForm config r body).
Proof. unfold uploadObjectFromForm, uploadFormError. handler. Qed.
Hint Resolve createProviderFromForm_wf uploadObjectFromForm_wf : pres.

Lemma page_route_wf r body path m : page_route config r body path = Some m → pres keeps_wf m.
Proof.
  unfold page_route. repeat case_match; intros E; try discriminate E; injection E as <-;
  unfold deleteProviderFromForm, createHookFromForm, deleteHookFromForm, createBucketFromForm, provider_catalog; handler.
Qed.

(** *** Providers *)

Lemma provider_route_wf r path m : provider_route fuel r path = Some m → pres keeps_wf m.
Proof.
  unfold provider_route, testProvider, discoverProviderBuckets, reconcileProviderQuota, providerByID.
  repeat (case_match; [intros [= <-]; handler; wf_steps|]). destruct (between path _ ""); [|done]. intros [= <-]. handler.
Qed.

(** *** The routes with a name *)

Lemma accessCredentialByID_wf r body path : pres keeps_wf (accessCredentialByID r body path).
Proof. unfold accessCredentialByID. handler; wf_steps. Qed.

Lemma trashByID_wf r path : pres keeps_wf (trashByID r path).
Proof. unfold trashByID. handler. Qed.

Lemma named_route_wf r body path m : named_route r body path = Some m → pres keeps_wf m.
Proof.
  unfold named_route. destruct (between path "/api/access-credentials/" ""); [intros [= <-]; apply accessCredentialByID_wf|].
  destruct (between path "/api/trash/" ""); [intros [= <-]; apply trashByID_wf|].
  destruct (between path "/api/hooks/" ""); [intros [= <-]; unfold hookByID; handler|].
  destruct (if (path =? "/api/wasm-plugins/validate")%string then _ else _); [intros [= <-]; unfold wasmPluginByID; handler; wf_steps|done].
Qed.

(** *** The routes without *)

Lemma apply_each_wf {A} (step : A → M (option AdminResponse)) l : (∀ x, pres keeps_wf (step x)) → pres keeps_wf (apply_each step l).
Proof. intros Hs. induction l as [|x l IH]; simpl; [wf_steps|]. apply pres_bind; [apply _|apply Hs|]. intros [a|]; [wf_steps|apply IH]. Qed.

Lemma apply_config_wf request : pres keeps_wf (apply_config request).
Proof.
  unfold apply_config, apply_provider, apply_bucket, apply_hook, apply_plugin. cbv zeta.
  repeat (apply pres_bind; [apply _| |intros [a|]; [wf_steps|]]); try (apply apply_each_wf; intros x; handler); wf_steps.
Qed.
Hint Resolve apply_config_wf : pres.

Ltac reads_wf := apply unchanged_wf; unfold unchanged; frame_auto.

Lemma PlanPlacement_wf bucket size : pres keeps_wf (PlanPlacement bucket size).
Proof.
  apply unchanged_wf. unfold PlanPlacement. pose proof (λ l, plan_providers_unchanged size l). unfold unchanged in *. frame_auto.
Qed.

Lemma CostOptimizations_wf : pres keeps_wf CostOptimizations.
Proof. reads_wf. Qed.

Lemma ListHooksForAdmin_wf decode : pres keeps_wf (ListHooksForAdmin decode).
Proof. reads_wf. Qed.

Lemma ListProviderHealth_wf : pres keeps_wf ListProviderHealth.
Proof. apply unchanged_wf. pose proof check_all_unchanged. unfold unchanged in *. frame_auto. Qed.

Lemma ListProviderQuotas_wf : pres keeps_wf ListProviderQuotas.
Proof. reads_wf. Qed.

Lemma SearchObjectEmbeddings_wf q : pres keeps_wf (SearchObjectEmbeddings_service q).
Proof. reads_wf. Qed.
Hint Resolve PlanPlacement_wf CostOptimizations_wf ListHooksForAdmin_wf ListProviderHealth_wf ListProviderQuotas_wf SearchObjectEmbeddings_wf : pres.

Lemma deleteAdminObject_wf r body : pres keeps_wf (deleteAdminObject r body).
Proof. unfold deleteAdminObject, DeleteObject. handler. Qed.

Lemma save_plugin_wf request : pres keeps_wf (save_plugin request).
Proof. unfold save_plugin, with_stored_module. handler; wf_steps. Qed.

Lemma created_migration_wf r input : pres keeps_wf (created_migration r input).
Proof. unfold created_migration. handler. Qed.
Hint Resolve deleteAdminObject_wf save_plugin_wf created_migration_wf : pres.

Lemma api_route_wf r body path m : api_route config tls fuel r body path = Some m → pres keeps_wf m.
Proof.
  unfold api_route.
  repeat match goal with |- (if ?b then Some ?h else _) = _ → _ => destruct b; [intros [= <-]; let f := head h in unfold f|] end; [..|done].
  all: unfold importEmbeddings, listAdminObjects; handler.
  all: reads_wf.
Qed.

Lemma admin_route_wf r body path : pres keeps_wf (admin_route config tls fuel r body path).
Proof.
  unfold admin_route. destruct (_ || _); [apply index_wf|].
  destruct (page_route config r body path) eqn:E1; [eapply page_route_wf, E1|].
  destruct (provider_route fuel r path) eqn:E2; [eapply provider_route_wf, E2|].
  destruct (named_route r body path) eqn:E3; [eapply named_route_wf, E3|].
  destruct (api_route config tls fuel r body path) eqn:E4; cbn [default]; [by eapply api_route_wf|apply pres_ret, _].
Qed.
Hint Resolve admin_route_wf : pres.

Lemma authorized_wf r : pres keeps_wf (authorized config r).
Proof. apply untouched_wf, authorized_untouched. Qed.
Hint Resolve authorized_wf : pres.

Lemma admin_ServeHTTP_wf r body : pres keeps_wf (admin_ServeHTTP config tls fuel r body).
Proof.
  unfold admin_ServeHTTP, admit_request. cbv zeta. apply pres_bind; [apply _| |intros; wf_steps].
  destruct (oidc_route config tls r _) as [m|] eqn:Ho; [|wf_steps].
  apply pres_bind; [apply _|eapply untouched_wf, oidc_route_untouched, Ho|intros; wf_steps].
Qed.
End admin.
