(* ===== verification/Invariant.v ===== *)
(** The invariant of the whole service: every start, every request to the
    gateway, the administration API or the service, and every worker run, in any
    order, with any answers of the providers and any failing statements,
    keeps the database well-formed. *)
From S2P Require Import Prelude GoTime Domain ProviderErrors World Sql StoreProviders Placement Demo StoreObjects StoreEvents Providers Hooks Service ServiceFacts Replication ReplicationFacts Protection ProtectionFacts Lifecycle LifecycleFacts Jobs Migration Repair Inventory Multipart Access SigV4 PostPolicy S3Request Http Runtime RuntimeFacts Plugins PluginJobs Configuration Bootstrap Gateway GatewayFacts AdminAuth Admin AdminFacts Uppy HttpServer WellFormed HandlersWellFormed.

Section requests.
Context `{Env} `{!Pipelines} `{!WasmHost} `{!HttpHost} `{!PolicyHost} `{!OidcHost} `{!AdminHost} `{!UppyHost}.

(** ** Requests *)

(** What clients, administrators and workers ask of the service. *)
Inductive request : Type :=
| ReqStart (c : Configuration)
| ReqHTTP (c : Configuration) (ping : result unit) (fuel : nat) (tls : bool) (r : Request) (body : Reader)
| ReqS3 (r : Request) (body : Reader)
| ReqAdmin (c : Configuration) (tls : bool) (fuel : nat) (r : Request) (body : Reader)
| ReqPut (input : PutObjectInput) (body : Reader)
| ReqGet (bucket key : string)
| ReqHead (bucket key : string)
| ReqDelete (bucket key : string) (options : DeleteObjectOptions)
| ReqTag (bucket key versionID : string) (tags : gmap string string)
| ReqProtect (object : ObjectRecord) (bypass : bool)
| ReqRestore (id : string)
| ReqPurge (id : string)
| ReqBucket (bucket : Bucket)
| ReqProvider (account : ProviderAccount)
| ReqDeleteProvider (id : string)
| ReqReplicate (bucket key provider : string)
| ReqLifecycle (fuel : nat)
| ReqReconcile (fuel : nat) (provider : string)
| ReqRecoverReservations (before : Time)
| ReqCreateUpload (bucket key contentType : string)
| ReqUploadPart (uploadID : string) (partNumber : Z) (body : Reader)
| ReqComplete (uploadID : string) (requestedParts : list Z)
| ReqAbort (uploadID : string)
| ReqCreateMigration (input : CreateMigrationJobInput)
| ReqMigrate (ctx : World → option error) (fuel : nat) (id : string)
| ReqCreateRepair (bucket prefix : string)
| ReqRepair (ctx : World → option error) (fuel : nat) (id : string)
| ReqCreateInventory (input : CreateInventoryJobInput)
| ReqInventory (ctx : World → option error) (fuel : nat) (id : string)
| ReqDeliver (decode : string → result (gmap string string)) (lim : Z)
| ReqPlugin (plugin : WASMPlugin)
| ReqPluginJob (job : WASMPluginJob)
| ReqImport (input : EmbeddingImport)
| ReqCredential (input : AccessCredentialInput)
| ReqRotate (id : string).

(** An account comes from the administrator without reservations. *)
Definition request_ok (r : request) : Prop :=
  match r with ReqProvider p => p_ReservedBytes p = 0 | _ => True end.

Definition run_request (r : request) : M unit :=
  match r with
  | ReqStart c => ignore (start_service c)
  | ReqHTTP c ping fuel tls r body => let! _ := NewHTTPHandler c ping fuel tls r body in ret tt
  | ReqS3 r body => let! _ := ServeHTTP NewHandler r body in ret tt
  | ReqAdmin c tls fuel r body => let! _ := admin_ServeHTTP c tls fuel r body in ret tt
  | ReqPut input body => ignore (PutObject input body)
  | ReqGet b k => ignore (GetObject b k)
  | ReqHead b k => ignore (HeadObject b k)
  | ReqDelete b k options => ignore (DeleteObjectWithOptions b k options)
  | ReqTag b k v tags => ignore (UpdateObjectTags b k v tags)
  | ReqProtect o bypass => ignore (UpdateObjectProtection o bypass)
  | ReqRestore id => ignore (RestoreTrashObject id)
  | ReqPurge id => ignore (PurgeTrashObject id)
  | ReqBucket b => ignore (UpsertBucket b)
  | ReqProvider p => ignore (UpsertProvider p)
  | ReqDeleteProvider id => ignore (DeleteProvider id)
  | ReqReplicate b k p => ignore (RunObjectReplication b k p)
  | ReqLifecycle fuel => lifecycle_tick fuel
  | ReqReconcile fuel p => ignore (ReconcileProviderQuota fuel p)
  | ReqRecoverReservations t => ignore (RecoverExpiredProviderReservations t)
  | ReqCreateUpload b k contentType => ignore (CreateMultipartUpload b k contentType)
  | ReqUploadPart id n body => ignore (UploadPart id n body)
  | ReqComplete id parts => ignore (CompleteMultipartUpload id parts)
  | ReqAbort id => ignore (AbortMultipartUpload id)
  | ReqCreateMigration input => ignore (CreateMigrationJob input)
  | ReqMigrate ctx fuel id => ignore (RunMigrationJob ctx fuel id)
  | ReqCreateRepair b prefix => ignore (CreateRepairJob b prefix)
  | ReqRepair ctx fuel id => ignore (RunRepairJob ctx fuel id)
  | ReqCreateInventory input => ignore (CreateInventoryJob input)
  | ReqInventory ctx fuel id => ignore (RunInventoryJob ctx fuel id)
  | ReqDeliver decode lim => ignore (ProcessPendingHookDeliveries decode lim)
  | ReqPlugin plugin => ignore (UpsertWASMPlugin plugin)
  | ReqPluginJob job => ignore (runWASMPluginJob job)
  | ReqImport input => ignore (ImportObjectEmbeddings input)
  | ReqCredential input => ignore (CreateAccessCredential input)
  | ReqRotate id => ignore (RotateAccessCredential id)
  end.

Lemma RecoverExpired_wf t : pres keeps_wf (RecoverExpiredProviderReservations t).
Proof.
  apply pres_wf_rest; [apply RecoverExpired_quota | | frame_auto]. unfold RecoverExpiredProviderReservations.
  pres_auto. apply pres_sql; [apply _|]. intros d n d' [= _ <-] k [p Hp]. rsimpl. unfold update_where. rewrite lookup_fmap, Hp. eauto.
Qed.

Lemma bootstrap_bucket_wf b : pres keeps_wf (bootstrap_bucket b).
Proof. unfold bootstrap_bucket. wf_steps; case_match; wf_steps. Qed.

Lemma bootstrap_provider_wf p : pres keeps_wf (bootstrap_provider p).
Proof. unfold bootstrap_provider. wf_steps; try case_match; wf_steps; first [apply encrypt_wf | apply UpsertProvider_wf; unfold configured_account; by rsimpl]. Qed.

Lemma start_service_wf c : pres keeps_wf (start_service c).
Proof.
  unfold start_service, Bootstrap. wf_steps; first [apply RecoverExpired_wf | apply bootstrap_bucket_wf | apply bootstrap_provider_wf].
Qed.

Lemma claim_delivery_wf t : pres keeps_wf (ClaimNextHookDelivery t).
Proof.
  unfold ClaimNextHookDelivery, list_claimable. wf_steps. match goal with |- pres _ (claim_deliveries ?l _) => induction l as [|id l IH] end;
    simpl; unfold claim_delivery; wf_steps; apply IH.
Qed.

Lemma deliveries_wf decode n : pres keeps_wf (process_deliveries decode n).
Proof. induction n as [|n IH]; simpl; [wf_steps|]. unfold deliverHookDelivery, attempt_delivery, deliverHTTPHook.
  wf_steps; first [ apply claim_delivery_wf | apply IH ].
Qed.

(** The Uppy helper and the HTTP server *)
Lemma from_service_wf {A} (m : M (result A)) answer : pres keeps_wf m → pres keeps_wf (from_service m answer).
Proof. intros Hm. unfold from_service. wf_steps. Qed.

Lemma presigned_wf tls failed r method bucket key query expires answer :
  pres keeps_wf (presigned failed (presignForRequest tls r method bucket key query expires) answer).
Proof.
  unfold presigned. apply pres_bind; [apply _| |intros; apply pres_ret, _]. apply untouched_wf, presignForRequest_untouched.
Qed.

Lemma uppy_route_wf tls r body : pres keeps_wf (uppy_route tls r body).
Proof.
  unfold uppy_route, signS3Request, getUploadParameters, createMultipart, signMultipartPart, listMultipartParts, completeMultipart,
    abortMultipart, list_parts, abort_upload, posted, decodeJSON.
  repeat case_match; try (apply pres_ret, _); first [apply presigned_wf | apply from_service_wf];
    first [apply CreateMultipartUpload_wf | apply CompleteMultipartUpload_wf | apply AbortMultipartUpload_wf | unfold ListMultipartParts; wf_steps].
Qed.

Lemma uppy_wf tls r body : pres keeps_wf (uppy_ServeHTTP tls r body).
Proof.
  unfold uppy_ServeHTTP. cbv zeta. apply pres_bind; [apply _| |intros; apply pres_ret, _].
  destruct (_ =? _)%string; [apply pres_ret, _|]. apply pres_bind; [apply _| |].
  - unfold Authorize. apply pres_bind; [apply _|apply untouched_wf, Authenticate_untouched, root_only|intros; apply pres_ret, _].
  - intros []; [apply uppy_route_wf|apply pres_ret, _].
Qed.

Lemma Readiness_wf ping : pres keeps_wf (Readiness ping).
Proof. unfold Readiness, Ping, writableDirectory. wf_steps; repeat case_match; wf_steps. Qed.

Lemma PrometheusMetrics_wf : pres keeps_wf PrometheusMetrics.
Proof. unfold PrometheusMetrics, listed_or_none. repeat (apply pres_bind; [apply _|wf_steps|intros ?]). by intros w. Qed.

Lemma NewHTTPHandler_wf c ping fuel tls r body : pres keeps_wf (NewHTTPHandler c ping fuel tls r body).
Proof.
  unfold NewHTTPHandler. apply pres_bind; [apply _| |intros; apply pres_ret, _]. destruct (mux_route _ _) as [t|path]; [|apply pres_ret, _].
  unfold serve_target. destruct t; (apply pres_bind; [apply _| |intros; try case_match; apply pres_ret, _]);
    first [ apply Readiness_wf | apply PrometheusMetrics_wf | apply uppy_wf | apply admin_ServeHTTP_wf
          | apply ServeHTTP_wf, NewHandler_quiet | apply pres_now, _ | wf_steps ].
Qed.

Lemma run_request_wf r : request_ok r → pres keeps_wf (run_request r).
Proof.
  intros Hr. destruct r; simpl; try (apply pres_ignore; [apply _|]); try (apply pres_bind; [apply _| |intros; apply pres_ret, _]);
    first [ solve [eauto 2 using start_service_wf, UpsertProvider_wf, RecoverExpired_wf, deliveries_wf with pres]
          | apply NewHTTPHandler_wf | apply ServeHTTP_wf, NewHandler_quiet | apply admin_ServeHTTP_wf | apply deliveries_wf | apply GetObject_pres, _ | apply HeadObject_pres, _ ].
Qed.

(** C1. The service invariant: from a well-formed database, whatever is sent to
    the HTTP server (the gateway, the administration API, the Uppy helper),
    whatever clients, administrators and workers ask of the service and in
    whatever order, however the providers answer and whichever statements fail,
    the database stays well-formed: the quota ledger adds up; reservations and
    objects are on accounts that exist, attributes belong to objects that
    exist; accounts, reservations, buckets, objects and versions are under
    their own keys. *)
Theorem service_invariant requests w :
  Forall request_ok requests → db_wf (w_db w) → db_wf (w_db (for_each requests run_request w).2).
Proof.
  intros Hok. revert w. change (pres keeps_wf (for_each requests run_request)). apply pres_for_each; [apply _|].
  intros r Hr. apply run_request_wf. by eapply Forall_forall.
Qed.
End requests.

(** A deployment's first day: a start, an account, uploads, a deletion, a
    purge, an unsigned deletion and an administrator's. *)
Lemma service_invariant_witness :
  let E := demo_env in let H := RuntimeFacts.demo_host in let G := GatewayFacts.demo_host in let P := GatewayFacts.demo_policy_host in
  let U := no_uppy_host in
  db_wf (w_db (for_each [ReqStart Default; ReqProvider (demo_account "p1"); ReqPut (demo_upload "b" "k" 3) (MkReader "abc" None);
                         ReqCreateUpload "b" "parts" "text/plain"; ReqDelete "b" "k" plain_delete; ReqLifecycle 3;
                         ReqS3 anonymous_delete (MkReader "" None);
                         ReqHTTP demo_config (Ok tt) 1 true (path_request "/readyz") (MkReader "" None); ReqAdmin demo_config false 1 delete_p2 (MkReader "" None)] run_request (start empty_DB)).2).
Proof.
  intros E H G P U. apply (@service_invariant demo_env plugin_pipelines H G P demo_oidc demo_admin_host U).
  - repeat (constructor; [first [exact I | reflexivity]|]). constructor.
  - apply db_wfb_sound. vm_compute. reflexivity.
Defined.
